(* ===== verification/_CoqProject ===== *)
-Q . S2P
Prelude.v
CMonad.v
Hash.v
Types.v
State.v
Core.v
Inv.v
Remove.v
Evict.v
Evicted.v
EvictShared.v
EvictPart.v
Alloc.v
Create.v
Ops.v
View.v
OpsLib.v
OpsMake.v
OpsSpec.v
Flush.v
Display.v
Admin.v
AdminSpec.v
Lifecycle.v
Hypercall.v
Reach.v
Demo.v
Ring.v
FileOps.v
FileSpec.v
Mcdctl.v
Daemon.v
Exchange.v
Link.v
PageOut.v
PutFile.v
Turns.v
PutTurn.v
GetTurn.v
GetWait.v
TransportLaws.v
System.v
SystemSpec.v
Slots.v
Toolstack.v
ToolSpec.v
TDemo.v
Evtchn.v
EvtchnInv.v
EvtchnPorts.v
EvtchnLists.v
EvtchnClose.v
EvtchnBind.v
EvtchnOps.v
EvtchnDom.v
EvtchnSpec.v
Vsprintf.v
VsprintfSpec.v
VsprintfText.v
VsprintfScan.v
Tlsf.v
TlsfMap.v
TlsfList.v
TlsfLinks.v
TlsfInv.v
TlsfWf.v
TlsfAlloc.v
TlsfGrow.v
TlsfFree.v
TlsfHeap.v
TlsfXmalloc.v
TlsfMachine.v
CacheProps.v
AdminProps.v
TransportProps.v
ToolProps.v
EvtchnProps.v
TlsfProps.v
VsprintfProps.v
Findings.v
