(* ===== verification/Prelude.v ===== *)
(** * UniCache: a hypervisor-controlled memory and disk cache

    The repository is Xen 4.1.2 with a key-value cache inside the hypervisor
    ("mcd", Mortar / UniCache). Guests put, get, check and remove values with
    the hypercall [do_mcd_op]; the values live in memory the hypervisor has to
    spare; what has to go is either dropped or moved out to files that a
    daemon in the control domain keeps.

    ** Parts and files

    - The cache: src/xen-4.1.2/xen/common/mcd.c with xen/include/xen/mcd.h
      and xen/include/public/mcd.h. [Types] has the constants and structures,
      [State] the globals ([gstate]), the environment ([Env]) and the
      interface to the second tier, [Core] the primitives down to the removal
      of an entry, [Evict] the replacement policies and [mcd_malloc], [Ops]
      the operations on the shared table ([s_mcd_*]) and on the table of a
      domain ([p_mcd_*]), [Display] the statistics texts, [Admin] the control
      operations, the life cycle of client domains, the initialisation and
      the hypercall, [Hash] the hash and the random numbers. [Reach] adds the
      hooks of xen/common/domain.c and memory.c.
    - The ring: xen/include/public/io/ring.h is [Ring].
    - The transport: xen/common/mcdctl.c is [Mcdctl] (messages, ring, chunks,
      resume, pages), [Exchange] (the [minf_*] interface and the waits of the
      cache) and [System] (the control hypercall).
    - The daemon: src/xen-4.1.2/tools/mcd/file_ops.c is [FileOps], mcd.c is
      [Daemon] (the service of requests) and [System] (start, loops, end),
      the library calls it makes (tools/mcd/xc.c, tools/libxc/xc_mcd.c) are
      in [System] too.
    - The tool stack: the commands of tools/libxl/xl_cmdimpl.c ([main_mcd_*]),
      the functions of tools/libxl/libxl.c and tools/libxc/xc_mcd.c they call,
      with the command line, the buffers and the text, are [Toolstack].

    - Event channels: xen/common/event_channel.c, with [vcpu_unblock] and
      [do_poll] of xen/common/schedule.c and the marking of events of
      xen/arch/x86/domain.c, are [Evtchn]: the tables of ports of all domains,
      the hypercall [do_event_channel_op], the channels the hypervisor makes
      for itself, and polling. mcdctl.c makes such a channel and notifies the
      daemon through it; [Mcdctl] and [System] only count the notification,
      [EvtchnProps.no_lost_wakeup] is what it means.

    - The memory allocator: xen/common/xmalloc_tlsf.c, from which the cache
      takes its entries, buckets and lists, is [Tlsf]: block headers, free
      links, padding and size words lie in a memory of words, the pools with
      their bitmaps and list heads are records. The models of the cache and of
      event channels ask the environment for memory ([State.Env]);
      [TlsfProps.xmalloc_refines] is what the allocator answers with.

    - Formatted output and input: xen/common/vsprintf.c with
      xen/include/xen/ctype.h is [Vsprintf]: the conversions of numbers,
      [vsnprintf], [vsscanf] and the functions over them. The buffer is a
      memory of bytes, formats and strings are lists of characters, the
      variadic arguments a list of typed values. [Display] and [Admin] say
      which text a line of the cache is; [VsprintfProps.cache_lines_printed]
      is that printing and copying it with these functions gives that line.

    The cache reaches the transport through the class [State.Minf] with the
    laws [State.MinfLaws]: a request comes back, keeps the transport's own
    invariant, does not turn the tier on or off, and a page-in keeps the
    length of the buffer. All theorems on the cache are proved against this
    class. It has two instances: [State.NoDaemon], a machine without a daemon,
    and [Exchange.minf_transport], the code of mcdctl.c with the daemon behind
    the ring, whose laws are [TransportLaws.transport_laws].

    ** How the code is represented

    [CMonad] is a state monad whose computations return, raise a fault (what
    C leaves undefined: NULL or dangling pointers, an index out of range, a
    division by zero) or exhaust the bound of a loop, with a weakest
    precondition [wp tol m Q s]: [m] does not exhaust its bounds, raises only
    faults in [tol], and when it returns [Q] holds. [no_fault] tolerates none.
    Integers are [Z] with their wrap-around written out ([u32], [s32], ...).
    Entries live in a heap of addresses; the lists of the code are Rocq lists
    of addresses, in the order of the code. A random answer of the outside
    (clock, allocator, free memory, system calls) is a function of a counter
    of queries, so that a theorem for all environments covers all answers.

    In the transport a machine frame is a number; frames hold pages of bytes
    or the ring; the daemon and the hypervisor see the same frames. A transfer
    leaves an entry at an address that the messages carry ([t_mem]). While the
    cache spins on [minf_put_lock] or [minf_get_lock] the daemon takes turns
    ([Daemon.daemon_turn]); every turn takes one request, serves it and
    resumes the hypervisor.

    ** What is proved

    [CacheProps], [AdminProps], [TransportProps], [ToolProps], [EvtchnProps],
    [TlsfProps], [VsprintfProps] and [Findings] hold the properties; their doc
    comments start with the number of the claim. Other theorems of these files,
    and those on the victims of the policies in [EvictShared], are not claims.

    - The cache keeps its invariant ([Inv.Inv]: lists, heap and counters
      agree) from [init_mcd] on, whatever calls come, with no faults but the
      named ones (proof layers [Inv], [Remove], [Evicted], [EvictShared],
      [EvictPart], [Alloc], [Create], [OpsLib], [OpsMake], [OpsSpec], [Flush],
      [AdminSpec], [Lifecycle], [Hypercall], [Reach]).
    - put, get, remove, check and flush refine an abstract map from hash
      values to bytes that may lose entries ([View]); what was put is what get
      delivers.
    - The policies terminate, with exactly one exception, free what was asked
      or everything they may free, and choose the victims they mean to choose.
    - The control operations, the life cycle, the display and the hash do what
      their code says on each path.
    - The ring refines two FIFO queues. Every request of the transport ends;
      moving an entry out stores exactly its bytes; moving it in delivers what
      the shared pages hold; the cache, the transport and the daemon together
      keep their invariants through starts, service and ends (proof layers
      [FileSpec], [Link], [PageOut], [PutFile], [Turns], [PutTurn],
      [GetTurn], [GetWait], [TransportLaws], [SystemSpec], [Slots]).
      [PutFile.PutFiles] is what a transfer asks of the file system, with an
      instance for any system and one for a system that grants all calls.
    - The commands of xl do what their arguments say: the numbers survive being
      printed, parsed, marshalled and formatted, the text arrives whole, and
      the display stays inside its buffer (proof layer [ToolSpec]).
    - The event-channel hypercall keeps the tables of every domain consistent
      ([EvtchnInv.ewf]) and refines a promise on the bindings
      ([EvtchnSpec.promised] on the view [EvtchnPorts.view]: what is bound to
      each port of each domain); guests cannot touch the hypervisor's
      channels; no wake-up is lost; a domain that ends leaves no end of a
      pair behind (proof layers [EvtchnInv] delivery, [EvtchnPorts] the search
      for a port, [EvtchnLists] the lists of interrupts, [EvtchnClose],
      [EvtchnBind], [EvtchnOps], [EvtchnDom], [EvtchnSpec]).
    - The allocator simulates a store of objects ([TlsfMachine.xstep]):
      objects are fresh, aligned and apart, keep what is written to them until
      they are freed, and nothing is leaked; allocation and freeing keep every
      pool sound ([TlsfWf.wf]: the layout [TlsfInv.geom] of blocks without
      gaps, their headers, the free lists and bitmaps [TlsfLinks.lists_ok],
      each free block on the list of its size, no two free neighbours, the
      figures). The proof layers are [TlsfMap] (the two-level index: a list
      that is searched only has blocks that are large enough), [TlsfList] and
      [TlsfLinks] (bitmaps, heads and links), [TlsfInv] (splitting and joining
      blocks), [TlsfWf] (the invariant), [TlsfAlloc], [TlsfGrow], [TlsfFree]
      (the code on pools), [TlsfHeap], [TlsfXmalloc] (objects,
      pages and padding), [TlsfMachine] (new pools and the simulation).
    - [VsprintfText] gives formats a grammar of pieces, with the format, the
      arguments and the text of each. Printing a list of pieces leaves its text,
      cut off, in the buffer; any other format stays inside the buffer as well;
      numbers that were printed are read back (proof layers [VsprintfSpec]: a
      calculus of computations that print, and the text of numbers;
      [VsprintfText]: parsing formats, conversions, the buffer; [VsprintfScan]:
      reading).
    - [Findings] and some theorems of the other files run the code into
      situations it does not handle.

    [Demo] and [TDemo] are two concrete machines, without and with a daemon,
    on which the theorems with hypotheses are instantiated; those on event
    channels and on the allocator have their own in [EvtchnProps] and [TlsfProps].

    ** Bounds

    - [env_fuel] bounds the while loops of the policies; more than the number
      of entries is enough, since each pass of a loop that ends removes one.
    - [Exchange.spin_fuel]: the slots of the ring, one turn per page of the
      entry and two; every turn takes a request or moves a page.
    - [System.drain] takes 65 turns: the ring has 64 slots and the daemon
      creates no requests.
    - The loops over ports ([Evtchn.free_scan], [Evtchn.each_port],
      [Evtchn.pirq_walk]) are bounded by [Evtchn.MAX_EVTCHNS]: a port past it is not
      valid, and a list of interrupts has each port once.
    - [Tlsf.find_block] searches twice: a region that is added after the first
      search is large enough for the request, so the second one succeeds.
      [Tlsf.order_loop] has a step for every bit of its argument.
    - [Vsprintf.format] and [Vsprintf.scan] have a step for every character of
      the format; every round takes at least one.
    - [FileOps.del_dir] descends at most as deep as the longest path, and
      [FileOps.file_op] makes at most one call per byte of a page.

    ** Assumptions

    - One hypercall runs at a time: the locks of the tables and of the ring
      are left out. Copies to and from guest buffers do not fault.
    - The daemon's resume hypercall gets through: [Daemon.mcd_resume_page]
      calls [mcd_event_resume] directly. [TransportProps.resume_hypercall]
      shows that the hypercall of the control domain is that call.
    - An address of the daemon's memory is the frame behind it ([xe_frame] is
      the identity in the system theorem). Its own small structures can be
      allocated and its file names fit their buffers.
    - [xc_mcd_event_add_shared_page] is called by the daemon and defined
      nowhere in the repository; it is a parameter ([de_add]) that either adds
      the page to the hypervisor's or fails and changes nothing.
    - The daemon comes and goes while no mini header exists
      ([SystemSpec.attachable]), and other callers than it do not issue the
      control command while the system theorem's steps run.
    - Event channels: one operation runs at a time (the locks and the retry of
      [__evtchn_close] are left out), the security module lets channels be
      allocated, every domain has a processor 0, and a failed ASSERT is a BUG.
      Privileges, the other security hooks and the binding of physical
      interrupts are parameters ([Evtchn.EvtEnv]).
    - The allocator: one operation runs at a time, not in an interrupt (the
      locks are left out). The page allocator and the memory functions of
      other users of pools answer 0 or memory that nobody has, aligned to 16
      bytes ([TlsfGrow.env_ok], which [TlsfMachine.bump_env] satisfies).
      Clients write whole words, at offsets that are multiples of 8, inside
      their objects.
    - Printing: addresses of a buffer do not wrap around, and a signed overflow
      is a fault. A string argument is the bytes that may be read from it, or a
      pointer into the first page.
    - [getopt], [atoi], [strtoul] and [strdup] behave as the C library
      documents them; the domain with a given name and the existence of a
      domain are parameters ([Toolstack.ToolEnv]). What a buffer on the stack
      holds before it is written is arbitrary.

    ** Not modelled

    - The help texts and complaints of xl, beyond the fact that they are shown.
    - tools/mcd/policy_default.c and bitops.h, which nothing in the daemon
      calls; [printf] and [printk] output, the exit status of [main], the
      check of its argument count and its signal handlers.
    - Code that is not compiled: [MCDCTL_TESTING], the linear-probing policy.
    - Of event channels: the dump for the console, the interrupt controllers
      of HVM domains and the affinity of physical interrupts, the scheduler,
      and the timeout of a poll.
    - Of the allocator: the page allocator below it, and the message of
      [xmem_pool_destroy] about a leak.
    - The rest of Xen, which is not part of the cache; the guest programs,
      kernel modules and benchmarks, which are its clients. *)

From stdpp Require Export base gmap sets list sorting list_numbers strings.
From Stdlib Require Export ZArith Lia.

#[global] Open Scope Z_scope.
#[global] Set Default Goal Selector "!".

(** * Machine integers

    Values of C integer types are integers kept inside the range of their
    type by the conversion functions below, written out at every operation
    of the source that can leave the range. *)

Definition wrap (w z : Z) : Z := z mod 2 ^ w.

Abbreviation u16 := (wrap 16).
Abbreviation u32 := (wrap 32).
Abbreviation u64 := (wrap 64).

(** Conversion to a signed type of width [w] (two's complement). *)
Definition swrap (w z : Z) : Z := (z + 2 ^ (w - 1)) mod 2 ^ w - 2 ^ (w - 1).

Abbreviation s32 := (swrap 32).
Abbreviation s64 := (swrap 64).

(** C division and remainder truncate toward zero. *)
Abbreviation cdiv := Z.quot.
Abbreviation cmod := Z.rem.

Definition urange (w z : Z) : Prop := 0 <= z < 2 ^ w.

Section Wrap.
Context (w : Z) (Hw : 0 <= w).

Lemma wrap_range z : urange w (wrap w z).
Proof using Hw. unfold urange, wrap. apply Z.mod_pos_bound. lia. Qed.

Lemma wrap_id z : urange w z -> wrap w z = z.
Proof using. unfold urange, wrap. intros. apply Z.mod_small. lia. Qed.

Lemma wrap_idem z : wrap w (wrap w z) = wrap w z.
Proof using Hw. apply wrap_id, wrap_range. Qed.

Lemma wrap_add_l a b : wrap w (wrap w a + b) = wrap w (a + b).
Proof using. unfold wrap. apply Zplus_mod_idemp_l. Qed.

Lemma wrap_add_r a b : wrap w (a + wrap w b) = wrap w (a + b).
Proof using. unfold wrap. apply Zplus_mod_idemp_r. Qed.

Lemma wrap_sub_l a b : wrap w (wrap w a - b) = wrap w (a - b).
Proof using. unfold wrap. apply Zminus_mod_idemp_l. Qed.

Lemma wrap_sub_r a b : wrap w (a - wrap w b) = wrap w (a - b).
Proof using. unfold wrap. apply Zminus_mod_idemp_r. Qed.
End Wrap.

Create Rewrite HintDb wrapdb.

#[export] Hint Rewrite wrap_add_l wrap_add_r wrap_sub_l wrap_sub_r : wrapdb.

(** Equality of two wrapped expressions: drop the inner conversions and
    compare the arguments. *)
Ltac solve_wrap :=
  autorewrite with wrapdb; f_equal; lia.

Lemma u32_range z : 0 <= u32 z < 2 ^ 32.
Proof. apply wrap_range. lia. Qed.

Lemma u64_range z : 0 <= u64 z < 2 ^ 64.
Proof. apply wrap_range. lia. Qed.

(** A number in the range of a signed type is kept. *)
Lemma s64_small z : - 2 ^ 63 <= z < 2 ^ 63 -> s64 z = z.
Proof. intros. unfold swrap. rewrite Z.mod_small; lia. Qed.

Lemma s32_small z : - 2 ^ 31 <= z < 2 ^ 31 -> s32 z = z.
Proof. intros. unfold swrap. rewrite Z.mod_small; lia. Qed.

(** * Error numbers *)

Definition EPERM : Z := 1.
Definition ENOENT : Z := 2.
Definition ESRCH : Z := 3.
Definition EINTR : Z := 4.
Definition ENOMEM : Z := 12.
Definition EFAULT : Z := 14.
Definition EBUSY : Z := 16.
Definition EEXIST : Z := 17.
Definition EINVAL : Z := 22.
Definition ENOSPC : Z := 28.
Definition ENOSYS : Z := 38.

(** * Record update

    [r <| f := v |>] is [r] with field [f] replaced; the update function of a
    field is found by rewriting the eta-expansion of the record type. *)

Class Eta (R : Type) := eta : R -> R.
Class Setter {R T : Type} (proj : R -> T) := setter : (T -> T) -> R -> R.

Ltac solve_setter :=
  lazymatch goal with
  | |- @Setter ?R ?T ?proj =>
      let i := constr:(_ : Eta R) in
      let f := fresh "upd" in
      let r := fresh "rec" in
      intros f r;
      let e := eval cbv beta delta [eta] in (i r) in
      let e := eval red in e in
      lazymatch eval pattern (proj r) in e with
      | ?g _ => let t := eval cbv beta in (g (f (proj r))) in exact t
      end
  end.

#[export] Hint Extern 1 (Setter _) => solve_setter : typeclass_instances.

Notation "r <| f := v |>" := (setter (proj := f) (fun _ => v) r)
  (at level 1, left associativity, f at level 9, v at level 200).
Notation "r <| f ::= g |>" := (setter (proj := f) g r)
  (at level 1, left associativity, f at level 9, g at level 200).

(** * Lists *)

(** Membership and length of a list of lists. *)
Lemma elem_of_concat {A} (x : A) ls : x ∈ concat ls <-> exists l, l ∈ ls /\ x ∈ l.
Proof.
  induction ls as [|l ls IH]; simpl; [set_solver|]. rewrite elem_of_app, IH. set_solver.
Qed.

(** [drop_elem x l] is [l] without [x]. *)
Definition drop_elem `{EqDecision A} (x : A) (l : list A) : list A := filter (fun y => y <> x) l.

Section DropElem.
Context `{EqDecision A}.
Implicit Types (x y : A) (l : list A).

Lemma elem_of_drop_elem x y l : y ∈ drop_elem x l <-> y ∈ l /\ y <> x.
Proof using. unfold drop_elem. rewrite list_elem_of_filter. tauto. Qed.

Lemma drop_elem_app x l1 l2 : drop_elem x (l1 ++ l2) = drop_elem x l1 ++ drop_elem x l2.
Proof using. apply filter_app. Qed.

Lemma drop_elem_concat x (ls : list (list A)) :
  drop_elem x (concat ls) = concat (drop_elem x <$> ls).
Proof using.
  induction ls as [|l ls IH]; simpl; [done|]. by rewrite drop_elem_app, IH.
Qed.

Lemma drop_elem_notin x l : x ∉ l -> drop_elem x l = l.
Proof using.
  intros Hx. unfold drop_elem. induction l as [|y l IH]; [done|].
  rewrite filter_cons_True by set_solver. f_equal. apply IH. set_solver.
Qed.

Lemma drop_elem_cons x l : x ∉ l -> drop_elem x (x :: l) = l.
Proof using.
  intros. unfold drop_elem. rewrite filter_cons_False by naive_solver. by apply drop_elem_notin.
Qed.

Lemma drop_elem_sublist x l : drop_elem x l `sublist_of` l.
Proof using.
  unfold drop_elem. induction l as [|y l IH]; [done|]. rewrite filter_cons.
  case_decide; by constructor.
Qed.

Lemma NoDup_drop_elem x l : NoDup l -> NoDup (drop_elem x l).
Proof using. apply NoDup_filter. Qed.

Lemma drop_elem_perm x l : NoDup l -> x ∈ l -> l ≡ₚ x :: drop_elem x l.
Proof using.
  induction l as [|y l IH]; intros Hnd Hx; [set_solver|].
  apply NoDup_cons in Hnd as [Hy Hnd]. destruct (decide (y = x)) as [->|Hne].
  - by rewrite drop_elem_cons.
  - unfold drop_elem. rewrite filter_cons_True by done. fold (drop_elem x l).
    rewrite IH at 1 by (done || set_solver). apply Permutation_swap.
Qed.

Lemma length_drop_elem x l : NoDup l -> x ∈ l -> length l = S (length (drop_elem x l)).
Proof using. intros. rewrite (drop_elem_perm x l) at 1 by done. done. Qed.
End DropElem.

(** Appending to one list of a list of lists, or of a map of lists. *)
Lemma concat_alter_snoc {A} (x : A) ls i : (i < length ls)%nat ->
  concat (alter (fun l => l ++ [x]) i ls) ≡ₚ x :: concat ls.
Proof.
  revert i. induction ls as [|l ls IH]; intros [|i] Hi; simpl in *; try lia.
  - rewrite <- app_assoc. simpl. by rewrite <- Permutation_middle.
  - change (l ++ concat (alter (fun l => l ++ [x]) i ls) ≡ₚ x :: l ++ concat ls).
    rewrite IH by lia. by rewrite <- Permutation_middle.
Qed.

Section MapConcat.
Context `{Countable K} {A : Type}.
Implicit Types (m : gmap K (list A)).

Definition map_concat m : list A := concat (snd <$> map_to_list m).

Lemma concat_perm (ls ls' : list (list A)) : ls ≡ₚ ls' -> concat ls ≡ₚ concat ls'.
Proof using.
  induction 1; simpl; [done|by f_equiv| |by etransitivity].
  by rewrite !app_assoc, (Permutation_app_comm x y).
Qed.

Lemma map_concat_split m k :
  map_concat m ≡ₚ default [] (m !! k) ++ map_concat (delete k m).
Proof using.
  unfold map_concat. destruct (m !! k) as [l|] eqn:Hk; simpl; [|by rewrite delete_id].
  rewrite (concat_perm _ (l :: (snd <$> map_to_list (delete k m)))); [done|].
  rewrite <- (insert_delete_id m k l) at 1 by done.
  rewrite map_to_list_insert by apply lookup_delete_eq. done.
Qed.

Lemma in_map_concat m k x : x ∈ default [] (m !! k) -> x ∈ map_concat m.
Proof using. intros Hx. rewrite (map_concat_split m k). apply elem_of_app. by left. Qed.

Lemma map_concat_snoc m k x :
  map_concat (<[k := default [] (m !! k) ++ [x]]> m) ≡ₚ x :: map_concat m.
Proof using.
  rewrite (map_concat_split _ k), (map_concat_split m k), lookup_insert_eq, delete_insert_eq.
  simpl. rewrite <- app_assoc. simpl. by rewrite <- Permutation_middle.
Qed.

Lemma map_concat_drop `{EqDecision A} (x : A) m :
  map_concat (drop_elem x <$> m) ≡ₚ drop_elem x (map_concat m).
Proof using.
  unfold map_concat. rewrite drop_elem_concat. apply concat_perm.
  rewrite map_to_list_fmap, <- !list_fmap_compose. done.
Qed.
End MapConcat.

(** * Sums *)

Definition sumZ (l : list Z) : Z := foldr Z.add 0 l.

Lemma sumZ_app l1 l2 : sumZ (l1 ++ l2) = sumZ l1 + sumZ l2.
Proof. induction l1; simpl; lia. Qed.

Lemma sumZ_perm l1 l2 : l1 ≡ₚ l2 -> sumZ l1 = sumZ l2.
Proof. induction 1; simpl; lia. Qed.

#[export] Instance sumZ_proper : Proper ((≡ₚ) ==> (=)) sumZ.
Proof. intros l1 l2. apply sumZ_perm. Qed.

(** The sum of [f] over the objects that the addresses [ps] have in [h]. *)
Section HSum.
Context {V : Type}.
Implicit Types (h : gmap Z V) (f : V -> Z) (p : Z) (ps : list Z).

Definition hsum h f ps : Z := sumZ ((fun p => from_option f 0 (h !! p)) <$> ps).

Lemma hsum_app h f ps1 ps2 : hsum h f (ps1 ++ ps2) = hsum h f ps1 + hsum h f ps2.
Proof using. unfold hsum. by rewrite fmap_app, sumZ_app. Qed.

Lemma hsum_cons h f p ps v : h !! p = Some v -> hsum h f (p :: ps) = f v + hsum h f ps.
Proof using. intros Hp. unfold hsum. simpl. by rewrite Hp. Qed.

Lemma hsum_ext h h' f ps : (forall p, p ∈ ps -> h !! p = h' !! p) -> hsum h f ps = hsum h' f ps.
Proof using.
  intros Heq. unfold hsum. f_equal. apply list_fmap_ext. intros i p Hp.
  rewrite Heq; [done|]. by eapply list_elem_of_lookup_2.
Qed.

Lemma hsum_perm h f ps ps' : ps ≡ₚ ps' -> hsum h f ps = hsum h f ps'.
Proof using. intros Hp. unfold hsum. by rewrite Hp. Qed.

Lemma hsum_delete_notin h f p ps : p ∉ ps -> hsum (delete p h) f ps = hsum h f ps.
Proof using. intros. apply hsum_ext. intros q Hq. apply lookup_delete_ne. set_solver. Qed.

Lemma hsum_insert_notin h f p v ps : p ∉ ps -> hsum (<[p := v]> h) f ps = hsum h f ps.
Proof using. intros. apply hsum_ext. intros q Hq. apply lookup_insert_ne. set_solver. Qed.

(** Removing an object takes its share out of the sum. *)
Lemma hsum_drop h f p v ps : NoDup ps -> p ∈ ps -> h !! p = Some v ->
  hsum (delete p h) f (drop_elem p ps) = hsum h f ps - f v.
Proof using.
  intros Hnd Hin Hp. rewrite hsum_delete_notin by (rewrite elem_of_drop_elem; naive_solver).
  rewrite (hsum_perm h f ps (p :: drop_elem p ps)) by (by apply drop_elem_perm).
  rewrite (hsum_cons _ _ _ _ v) by done. lia.
Qed.

(** The same when the list has a part [D] that does not hold the object. *)
Lemma hsum_drop_side h f p v ps D : p ∉ D -> NoDup (ps ++ D) -> p ∈ ps -> h !! p = Some v ->
  hsum (delete p h) f (drop_elem p ps ++ D) = hsum h f (ps ++ D) - f v.
Proof using.
  intros HD Hnd Hl Hp. rewrite <- (drop_elem_notin p D) at 1 by done.
  rewrite <- drop_elem_app. apply hsum_drop; [done|set_solver|done].
Qed.

Lemma hsum_drop_other h f p ps D : p ∉ D -> p ∉ ps ->
  hsum (delete p h) f (drop_elem p ps ++ D) = hsum h f (ps ++ D).
Proof using.
  intros HD Hl. rewrite drop_elem_notin by done. apply hsum_delete_notin. set_solver.
Qed.

(** Changing an object outside of what [f] looks at. *)
Lemma hsum_insert_same h f p v v' ps : h !! p = Some v -> f v' = f v ->
  hsum (<[p := v']> h) f ps = hsum h f ps.
Proof using.
  intros Hp Hf. unfold hsum. f_equal. apply list_fmap_ext. intros i q _.
  destruct (decide (p = q)) as [->|]; [by rewrite lookup_insert_eq, Hp|].
  by rewrite lookup_insert_ne.
Qed.

Lemma hsum_zero h f ps : (forall p, p ∈ ps -> from_option f 0 (h !! p) = 0) -> hsum h f ps = 0.
Proof using.
  intros Hf. induction ps as [|p ps IH]; [done|].
  change (from_option f 0 (h !! p) + hsum h f ps = 0). rewrite (Hf p) by (by left).
  rewrite IH; [done|]. intros q Hq. apply Hf. by right.
Qed.

Lemma hsum_nonneg h f ps : (forall v, 0 <= f v) -> 0 <= hsum h f ps.
Proof using.
  intros Hf. induction ps as [|p ps IH]; [done|].
  change (0 <= from_option f 0 (h !! p) + hsum h f ps).
  destruct (h !! p) as [v|]; simpl; [pose proof (Hf v)|]; lia.
Qed.
End HSum.
