(* ===== verification/CMonad.v ===== *)
(** The execution model of the C code: a state monad whose computations
    return, raise a fault (an access C leaves undefined: a NULL or dangling
    pointer, an index past an array, a division by zero), or run out of the
    loop bound they were given; and a weakest-precondition calculus for it. *)
From S2P Require Import Prelude.

(** The undefined behaviours the model distinguishes. *)
Inductive fault : Type :=
  | NullDeref        (** a NULL pointer is dereferenced *)
  | UseAfterFree     (** a freed object is accessed *)
  | BadDomain        (** the list head is used as if it were a domain *)
  | BadList          (** [list_del] of a node that is on no list *)
  | OutOfBounds      (** an array is indexed past its end *)
  | DivByZero
  | BugOn            (** a BUG or a failed assertion *)
  | Overflow         (** a shift past the width of its type, or a signed overflow *)
  | BadArgument.     (** a variadic argument is read as another type than it has *)

#[export] Instance fault_eq_dec : EqDecision fault.
Proof. solve_decision. Defined.

Inductive outcome (S A : Type) : Type :=
  | Ret (a : A) (s : S)
  | Fault (f : fault)
  | NoFuel.
Arguments Ret {S A} a s.
Arguments Fault {S A} f.
Arguments NoFuel {S A}.

Definition M (S A : Type) : Type := S -> outcome S A.

#[export] Instance M_ret S : MRet (M S) := fun A a s => Ret a s.
#[export] Instance M_bind S : MBind (M S) := fun A B k m s =>
  match m s with
  | Ret a s' => k a s'
  | Fault f => Fault f
  | NoFuel => NoFuel
  end.

Definition get {S} : M S S := fun s => Ret s s.
Definition gets {S A} (f : S -> A) : M S A := fun s => Ret (f s) s.
Definition modify {S} (f : S -> S) : M S unit := fun s => Ret tt (f s).
Definition raise {S A} (f : fault) : M S A := fun _ => Fault f.
Definition nofuel {S A} : M S A := fun _ => NoFuel.

Notation "m ;; k" := (mbind (fun _ => k) m)
  (at level 100, k at level 200, right associativity) : stdpp_scope.

(** [a / b] on unsigned operands, which traps on a zero divisor. *)
Definition div_or_trap {S} (a b : Z) : M S Z :=
  if b =? 0 then raise DivByZero else mret (a / b).

(** ** Loops

    A loop body says whether to go on or to [break]; [L] is the record of the
    loop's local variables. *)

Inductive loopctl (L : Type) : Type := Continue (l : L) | Break (l : L).
Arguments Continue {L} l.
Arguments Break {L} l.

(** A loop over the snapshot of a list. *)
Fixpoint for_each {S A L} (xs : list A) (body : A -> L -> M S (loopctl L)) (l : L) : M S L :=
  match xs with
  | [] => mret l
  | x :: xs' =>
      c ← body x l;
      match c with
      | Continue l' => for_each xs' body l'
      | Break l' => mret l'
      end
  end.

(** A [while] loop, cut off after [fuel] iterations. *)
Fixpoint while {S L} (fuel : nat) (cond : L -> bool) (body : L -> M S (loopctl L)) (l : L) : M S L :=
  match fuel with
  | O => nofuel
  | Datatypes.S n =>
      if cond l then
        c ← body l;
        match c with
        | Continue l' => while n cond body l'
        | Break l' => mret l'
        end
      else mret l
  end.

(** ** Weakest preconditions

    [wp tol m Q s]: started in [s], [m] returns within its loop bounds in a
    state that satisfies [Q], or raises one of the faults tolerated by
    [tol]. With [tol] empty this is total correctness and memory safety. *)

Definition no_fault : fault -> Prop := fun _ => False.

Definition wp {S A} (tol : fault -> Prop) (m : M S A) (Q : A -> S -> Prop) (s : S) : Prop :=
  match m s with
  | Ret a s' => Q a s'
  | Fault f => tol f
  | NoFuel => False
  end.

Section WP.
Context {S : Type} (tol : fault -> Prop).
Implicit Types (s : S).

Lemma wp_ret {A} (a : A) (Q : A -> S -> Prop) s : Q a s -> wp tol (mret a) Q s.
Proof using. done. Qed.

Lemma wp_bind {A B} (m : M S A) (k : A -> M S B) (Q : B -> S -> Prop) s :
  wp tol m (fun a => wp tol (k a) Q) s -> wp tol (mbind k m) Q s.
Proof using. unfold wp, mbind, M_bind. by destruct (m s). Qed.

Lemma wp_bind_inv {A B} (m : M S A) (k : A -> M S B) (Q : B -> S -> Prop) s :
  wp tol (mbind k m) Q s -> wp tol m (fun a => wp tol (k a) Q) s.
Proof using. unfold wp, mbind, M_bind. by destruct (m s). Qed.

Lemma wp_mono {A} (m : M S A) (Q Q' : A -> S -> Prop) s :
  wp tol m Q s -> (forall a s', Q a s' -> Q' a s') -> wp tol m Q' s.
Proof using. unfold wp. destruct (m s); eauto. Qed.

(** What holds of every result can be added to a postcondition. *)
Lemma wp_and {A} (m : M S A) (Q : A -> S -> Prop) (P : A -> Prop) s :
  wp tol m Q s -> (forall a s', m s = Ret a s' -> P a) -> wp tol m (fun a s' => P a /\ Q a s') s.
Proof using. unfold wp. destruct (m s); eauto. Qed.

Lemma bind_ret {A B} (m : M S A) (k : A -> M S B) s b s' : mbind k m s = Ret b s' ->
  exists a s1, m s = Ret a s1 /\ k a s1 = Ret b s'.
Proof using. unfold mbind, M_bind. destruct (m s) as [a s1| |]; [|done..]. by exists a, s1. Qed.

Lemma wp_gets {A} (f : S -> A) (Q : A -> S -> Prop) s : Q (f s) s -> wp tol (gets f) Q s.
Proof using. done. Qed.

Lemma wp_get (Q : S -> S -> Prop) s : Q s s -> wp tol get Q s.
Proof using. done. Qed.

Lemma wp_modify (f : S -> S) (Q : unit -> S -> Prop) s : Q tt (f s) -> wp tol (modify f) Q s.
Proof using. done. Qed.

Lemma wp_raise {A} f (Q : A -> S -> Prop) s : tol f -> wp tol (raise f) Q s.
Proof using. done. Qed.

Lemma wp_div a b (Q : Z -> S -> Prop) s :
  b <> 0 -> Q (a / b) s -> wp tol (div_or_trap a b) Q s.
Proof using. intros Hb HQ. unfold div_or_trap. by destruct (Z.eqb_spec b 0). Qed.

(** The invariant rule for loops over a list: [I] relates what has been
    visited, what is left and the locals to the state. *)
Lemma wp_for_each {A L} (body : A -> L -> M S (loopctl L)) (I : list A -> L -> S -> Prop)
    (Q : L -> S -> Prop) xs l s :
  I xs l s ->
  (forall l s, I [] l s -> Q l s) ->
  (forall x xs l s, I (x :: xs) l s ->
     wp tol (body x l) (fun c s' =>
       match c with Continue l' => I xs l' s' | Break l' => Q l' s' end) s) ->
  wp tol (for_each xs body l) Q s.
Proof using.
  intros HI HQ Hbody. revert l s HI.
  induction xs as [|x xs IH]; intros l s HI; simpl.
  - apply wp_ret; auto.
  - apply wp_bind. eapply wp_mono; [by apply Hbody|].
    intros [l'|l'] s' HC; [by apply IH | by apply wp_ret].
Qed.

(** The variant rule for [while]: [I] is kept by the body, every iteration
    that goes on decreases [V], and the fuel exceeds the initial [V]. *)
Lemma wp_while {L} (cond : L -> bool) (body : L -> M S (loopctl L)) (I : L -> S -> Prop)
    (V : L -> S -> nat) (Q : L -> S -> Prop) fuel l s :
  I l s -> (V l s < fuel)%nat ->
  (forall l s, I l s -> cond l = false -> Q l s) ->
  (forall l s, I l s -> cond l = true ->
     wp tol (body l) (fun c s' =>
       match c with
       | Continue l' => I l' s' /\ (V l' s' < V l s)%nat
       | Break l' => Q l' s'
       end) s) ->
  wp tol (while fuel cond body l) Q s.
Proof using.
  intros HI HV HQ Hbody. revert l s HI HV.
  induction fuel as [|n IH]; intros l s HI HV; [lia|]. simpl.
  destruct (cond l) eqn:Hc; [|apply wp_ret; auto].
  apply wp_bind. eapply wp_mono; [by apply Hbody|].
  intros [l'|l'] s' HC; [|by apply wp_ret].
  destruct HC as [HI' HV']. apply IH; [done|lia].
Qed.

(** A loop whose body always goes on exhausts any bound. *)
Lemma while_diverges {L} (cond : L -> bool) (body : L -> M S (loopctl L)) (I : L -> S -> Prop)
    fuel l s :
  I l s ->
  (forall l s, I l s -> cond l = true /\
     wp no_fault (body l) (fun c s' => exists l', c = Continue l' /\ I l' s') s) ->
  while fuel cond body l s = NoFuel.
Proof using.
  intros HI Hbody. revert l s HI. induction fuel as [|n IH]; intros l s HI; [done|]. simpl.
  destruct (Hbody l s HI) as [-> Hb]. unfold wp, mbind, M_bind, no_fault in *.
  destruct (body l s) as [c s'| |]; [|done..]. destruct Hb as (l' & -> & HI'). by apply IH.
Qed.

Lemma bind_nofuel {A B} (m : M S A) (k : A -> M S B) (Q : A -> S -> Prop) s :
  wp no_fault m Q s -> (forall a s', Q a s' -> k a s' = NoFuel) -> mbind k m s = NoFuel.
Proof using.
  unfold wp, no_fault, mbind, M_bind. destruct (m s); [auto|done..].
Qed.

Lemma wp_returns {A} (m : M S A) (Q : A -> S -> Prop) s :
  wp no_fault m Q s -> exists a s', m s = Ret a s' /\ Q a s'.
Proof using. unfold wp, no_fault. destruct (m s); naive_solver. Qed.
End WP.

(** The state a computation that returns leaves, for concrete runs. *)
Definition state_after {S A} (m : M S A) (s : S) : S := match m s with Ret _ s' => s' | _ => s end.

Definition returns {S A} (m : M S A) (s : S) (f : A -> bool) : bool := match m s with Ret a _ => f a | _ => false end.

Lemma returns_after {S A} (m : M S A) s f : returns m s f = true ->
  exists a, f a = true /\ m s = Ret a (state_after m s).
Proof. unfold returns, state_after. destruct (m s) as [a s'| |]; [|done..]. by exists a. Qed.

Lemma wp_after {S A} tol (m : M S A) Q s f : returns m s f = true -> wp tol m Q s ->
  exists a, f a = true /\ m s = Ret a (state_after m s) /\ Q a (state_after m s).
Proof. unfold returns, state_after, wp. destruct (m s) as [a s'| |]; [|done..]. by exists a. Qed.

(** A computation of a component run on its part of the state. *)
Definition zoom {S T A} (get_part : S -> T) (set_part : T -> S -> S) (m : M T A) : M S A :=
  fun s => match m (get_part s) with
           | Ret a t => Ret a (set_part t s)
           | Fault f => Fault f
           | NoFuel => NoFuel
           end.

Lemma wp_zoom {S T A} tol (g : S -> T) (p : T -> S -> S) (m : M T A) (Q : A -> S -> Prop) s :
  wp tol m (fun a t => Q a (p t s)) (g s) -> wp tol (zoom g p m) Q s.
Proof. unfold wp, zoom. by destruct (m (g s)). Qed.

(** One symbolic-execution step of the weakest-precondition calculus. *)
Ltac wp_step :=
  lazymatch goal with
  | |- wp _ (mbind _ _) _ _ => apply wp_bind
  | |- wp _ (mret _) _ _ => apply wp_ret
  | |- wp _ (gets _) _ _ => apply wp_gets
  | |- wp _ get _ _ => apply wp_get
  | |- wp _ (modify _) _ _ => apply wp_modify
  | |- wp _ (raise _) _ _ => apply wp_raise
  end.
Ltac wp_steps := cbn [negb]; repeat (wp_step; cbn beta iota delta [negb]).
