(* ===== verification/Hash.v ===== *)
(** The utility functions of xen/common/mcd.c: the multiplicative
    pseudo-random generator [rand_val] and the key hash [getHash]. *)
From S2P Require Import Prelude.
From Stdlib Require Import Znumtheory.

(** * rand_val: Schrage's method for 16807 * x mod (2^31 - 1) *)

Module Rand.

Definition rand_a : Z := 16807.
Definition rand_m : Z := 2147483647.
Definition rand_q : Z := 127773.
Definition rand_r : Z := 2836.

(** [rand_val seed x] is the value returned and the new value of the
  function's static variable [x]. *)
Definition rand_val (seed x : Z) : Z * Z :=
if 0 <? seed then (0, seed)
else
  let x_div_q := cdiv x rand_q in
  let x_mod_q := cmod x rand_q in
  let x_new := s64 (rand_a * x_mod_q - rand_r * x_div_q) in
  let x' := if 0 <? x_new then x_new else s64 (x_new + rand_m) in
  (u32 (s32 x'), x').

(** The recurrence the generator is meant to compute. *)
Definition lehmer (x : Z) : Z := (rand_a * x) mod rand_m.

Lemma schrage_split x :
rand_a * x =
rand_m * (x / rand_q) + (rand_a * (x mod rand_q) - rand_r * (x / rand_q)).
Proof.
unfold rand_a, rand_m, rand_q, rand_r.
pose proof (Z.div_mod x 127773 ltac:(lia)). lia.
Qed.

Lemma schrage_bounds x : 0 < x < rand_m ->
- rand_m < rand_a * (x mod rand_q) - rand_r * (x / rand_q) < rand_m.
Proof.
unfold rand_a, rand_m, rand_q, rand_r. intros Hx.
pose proof (Z.mod_pos_bound x 127773 ltac:(lia)).
pose proof (Z.div_mod x 127773 ltac:(lia)).
assert (0 <= x / 127773 <= 16807) by lia. lia.
Qed.

Lemma lehmer_nonzero x : 0 < x < rand_m -> lehmer x <> 0.
Proof.
intros Hx H0. unfold lehmer in H0.
apply Z.mod_divide in H0; [|unfold rand_m; lia].
apply Z.gauss in H0; [|reflexivity].
apply Z.divide_pos_le in H0; lia.
Qed.

Lemma rand_step x : 0 < x < rand_m ->
rand_val 0 x = (lehmer x, lehmer x) /\ 0 < lehmer x < rand_m.
Proof.
intros Hx.
assert (Hl : 0 < lehmer x < rand_m).
{ pose proof (lehmer_nonzero x Hx).
  pose proof (Z.mod_pos_bound (rand_a * x) rand_m ltac:(unfold rand_m; lia)).
  unfold lehmer in *. lia. }
split; [|done].
pose proof (schrage_split x) as Hs. pose proof (schrage_bounds x Hx) as Hb.
unfold rand_val. simpl.
rewrite Z.quot_div_nonneg, Z.rem_mod_nonneg by (unfold rand_q; lia).
set (d := rand_a * (x mod rand_q) - rand_r * (x / rand_q)) in *.
assert (Hcase : (if 0 <? d then d else d + rand_m) = lehmer x).
{ assert (Hd : lehmer x = d mod rand_m).
  { unfold lehmer. rewrite Hs, Z.mul_comm, Z.add_comm.
    apply Z.mod_add. unfold rand_m; lia. }
  destruct (Z.ltb_spec 0 d).
  - rewrite Hd. symmetry. apply Z.mod_small. lia.
  - destruct (decide (d = 0)) as [E|]; [rewrite E, Z.mod_0_l in Hd; unfold rand_m in *; lia|].
    rewrite Hd. apply (Z.mod_unique_pos _ _ (-1)); lia. }
rewrite (s64_small d) by (unfold rand_m in *; lia).
destruct (0 <? d);
  [|rewrite (s64_small (d + rand_m)) by (unfold rand_m in *; lia)];
  rewrite Hcase, s32_small, wrap_id by (unfold urange, rand_m in *; lia); done.
Qed.

(** The sequence of states after seeding. *)
Fixpoint rand_iter (n : nat) (x : Z) : Z :=
match n with
| O => x
| S n => rand_iter n (snd (rand_val 0 x))
end.

Lemma rand_iter_pow n x : 0 < x < rand_m ->
rand_iter n x = (rand_a ^ Z.of_nat n * x) mod rand_m /\ 0 < rand_iter n x < rand_m.
Proof.
revert x. induction n as [|n IH]; intros x Hx.
- simpl. rewrite Z.mod_small; lia.
- destruct (rand_step x Hx) as [Hs Hl]. cbn [rand_iter]. rewrite Hs. simpl snd.
  destruct (IH (lehmer x) Hl) as [-> H2]. split; [|done].
  unfold lehmer. rewrite Zmult_mod_idemp_r. f_equal.
  rewrite Nat2Z.inj_succ, Z.pow_succ_r by lia. lia.
Qed.

End Rand.

(** * getHash: SuperFastHash on the key bytes *)

Module SFH.

(** Byte [i] of the buffer, as an unsigned value. *)
Definition byte_at (data : list Z) (i : nat) : Z := default 0 (data !! i).

(** [*((const uint16_t * ) d)] on a little-endian machine. *)
Definition get16bits (data : list Z) (i : nat) : Z :=
u16 (byte_at data i + Z.shiftl (byte_at data (i + 1)) 8).

(** A [char] operand: signed on x86. *)
Definition char_at (data : list Z) (i : nat) : Z := swrap 8 (byte_at data i).

(** [hash ^= hash << k] and [hash += hash >> k] on [uint32_t]. *)
Definition xor_shl (h k : Z) : Z := Z.lxor h (u32 (Z.shiftl h k)).
Definition add_shr (h k : Z) : Z := u32 (h + Z.shiftr h k).

(** The main loop: [n] words of four bytes, the next one at offset [off]. *)
Fixpoint hash_words (n : nat) (data : list Z) (off : nat) (h : Z) : Z :=
match n with
| O => h
| S n =>
    let h1 := u32 (h + get16bits data off) in
    let tmp := Z.lxor (Z.shiftl (get16bits data (off + 2)) 11) h1 in
    let h2 := Z.lxor (u32 (Z.shiftl h1 16)) tmp in
    hash_words n data (off + 4) (add_shr h2 11)
end.

(** The switch on the remaining [rem] bytes. *)
Definition hash_tail (rem : Z) (data : list Z) (off : nat) (h : Z) : Z :=
if rem =? 3 then
  let h1 := u32 (h + get16bits data off) in
  let h2 := xor_shl h1 16 in
  let h3 := Z.lxor h2 (u32 (Z.shiftl (char_at data (off + 2)) 18)) in
  add_shr h3 11
else if rem =? 2 then
  let h1 := u32 (h + get16bits data off) in
  add_shr (xor_shl h1 11) 17
else if rem =? 1 then
  let h1 := u32 (h + char_at data off) in
  add_shr (xor_shl h1 10) 1
else h.

Definition hash_final (h : Z) : Z :=
let h := add_shr (xor_shl h 3) 5 in
let h := add_shr (xor_shl h 4) 17 in
add_shr (xor_shl h 25) 6.

(** [getHash data len], for a non-NULL [data]. *)
Definition getHash (data : list Z) (len : Z) : Z :=
if len <=? 0 then 0
else
  let rem := Z.land len 3 in
  let n := Z.to_nat (Z.shiftr len 2) in
  hash_final (hash_tail rem data (4 * n) (hash_words n data 0 (u32 len))).

Lemma add_shr_range h k : 0 <= add_shr h k < 2 ^ 32.
Proof. apply u32_range. Qed.

Lemma getHash_range data len : 0 <= getHash data len < 2 ^ 32.
Proof. unfold getHash. destruct (len <=? 0); [lia|]. apply add_shr_range. Qed.

(** [getHash] reads the first [len] bytes only. *)
Lemma byte_at_take data n i : (i < n)%nat -> byte_at (take n data) i = byte_at data i.
Proof. intros. unfold byte_at. by rewrite lookup_take_lt. Qed.

Lemma get16bits_take data n i : (i + 1 < n)%nat -> get16bits (take n data) i = get16bits data i.
Proof. intros. unfold get16bits. rewrite !byte_at_take by lia. done. Qed.

Lemma hash_words_take n data off h k : (off + 4 * n <= k)%nat ->
hash_words n (take k data) off h = hash_words n data off h.
Proof.
revert off h. induction n as [|n IH]; intros off h Hk; simpl; [done|].
rewrite !get16bits_take by lia. by rewrite IH by lia.
Qed.

Lemma hash_tail_take r data off h k : 0 <= r <= 3 -> (off + Z.to_nat r <= k)%nat ->
hash_tail r (take k data) off h = hash_tail r data off h.
Proof.
intros Hr Hk. unfold hash_tail, char_at.
destruct (Z.eqb_spec r 3); [rewrite get16bits_take, byte_at_take by lia; done|].
destruct (Z.eqb_spec r 2); [rewrite get16bits_take by lia; done|].
destruct (Z.eqb_spec r 1); [rewrite byte_at_take by lia; done|]. done.
Qed.

Lemma len_split len : 0 < len ->
Z.of_nat (4 * Z.to_nat (Z.shiftr len 2)) + Z.land len 3 = len /\ 0 <= Z.land len 3 <= 3.
Proof.
intros. change 3 with (Z.ones 2). rewrite Z.land_ones, Z.shiftr_div_pow2 by lia.
pose proof (Z.div_mod len (2 ^ 2) ltac:(lia)).
pose proof (Z.mod_pos_bound len (2 ^ 2) ltac:(lia)).
assert (0 <= len / 2 ^ 2) by (apply Z.div_pos; lia).
change (Z.ones 2) with 3. lia.
Qed.

Lemma getHash_prefix data len :
getHash (take (Z.to_nat len) data) len = getHash data len.
Proof.
unfold getHash. destruct (Z.leb_spec len 0); [done|].
destruct (len_split len) as [Hl Hr]; [done|].
rewrite hash_words_take by lia. by rewrite hash_tail_take by lia.
Qed.

Lemma getHash_app data rest :
getHash (data ++ rest) (Z.of_nat (length data)) = getHash data (Z.of_nat (length data)).
Proof.
rewrite <- getHash_prefix, Nat2Z.id, take_app_length. done.
Qed.

(** The two keys "bocs" and "krgc". *)
Definition key_bocs : list Z := [98; 111; 99; 115].
Definition key_krgc : list Z := [107; 114; 103; 99].

Example hash_key : getHash [107; 101; 121] 3 = 3544637679.
Proof. reflexivity. Qed.
Example hash_hello : getHash [104; 101; 108; 108; 111] 5 = 2963130491.
Proof. reflexivity. Qed.

Lemma bocs_krgc_collide : getHash key_bocs 4 = getHash key_krgc 4.
Proof. reflexivity. Qed.

End SFH.
