(* ===== verification/Types.v ===== *)
(** The constants and data structures of xen/include/xen/mcd.h,
    xen/include/public/mcd.h and the top of xen/common/mcd.c. *)
From S2P Require Import Prelude.

(** * Error and return codes. The source returns them negated. *)
Definition ERR_NO : Z := -1.
Definition ERR_NOEXIST : Z := 2000.
Definition ERR_PARAM : Z := 2001.
Definition ERR_XENFAULT : Z := 2002.
Definition ERR_MCDFAULT : Z := 2003.
Definition ERR_NOMCD : Z := 2004.
Definition ERR_NOTMEM : Z := 2005.
Definition RET_GET_MEM : Z := 3000.
Definition RET_GET_SSD : Z := 3001.

Definition PAGE_SIZE : Z := 4096.
Definition MEM_ALIGN : Z := 8 * 2.
Definition MAGIC : Z := 989898.

Definition MCD_HASHT_NORMAL : Z := 0.
Definition MCD_HASHT_MEASUREMENT : Z := 1.
Definition MCD_MINF_ERROR : Z := Z.shiftl 1 0.

Definition MOVE_TO_SSD : Z := 0.
Definition DO_NOT_MOVE_TO_SSD : Z := 1.

Definition MCD_CACHE_MODE_SHARED : Z := 0.
Definition MCD_CACHE_MODE_PARTITION : Z := 1.
Definition MCD_CACHE_MODE_MAX : Z := 2.
Definition MCD_REPLACE_MODE_LFRU : Z := 0.
Definition MCD_REPLACE_MODE_FAST : Z := 1.
Definition MCD_REPLACE_MODE_SCORE : Z := 2.
Definition MCD_REPLACE_MODE_MAX : Z := 3.
Definition MCD_PARTITION_MODE_BE : Z := 0.
Definition MCD_PARTITION_MODE_WB : Z := 1.
Definition MCD_PARTITION_MODE_AD : Z := 2.
Definition MCD_PARTITION_MODE_MAX : Z := 3.

Definition MAX_LIST_HEAD : Z := 100.
Definition MAX_QUERY_TIME : Z := 1000.
Definition MAX_REACCESS_TIME_MS : Z := 1000.
Definition MAX_REACCESS_TIME : Z := 600.
Definition NUM_USERS : Z := 100000.
Definition MAX_PAGES_FOR_MCDCTL : Z := 40960.
Definition DOM_WEIGHT_DEFAULT : Z := 100.

Definition SCORE_MEM_ALPHA_DEF : Z := 80.
Definition SCORE_MEM_BETA_DEF : Z := 10.
Definition SCORE_SSD_ALPHA_DEF : Z := 10.
Definition SCORE_SSD_BETA_DEF : Z := 80.

(** [sizeof(mcdctl_hashT_t)]: a list head, a pointer, two 16-bit and three
    32-bit fields. *)
Definition sizeof_mcdctl_hashT : Z := 16 + 8 + 2 + 2 + 4 + 4 + 4.

(** Heap objects are named by abstract addresses. *)
Abbreviation ptr := Z.

(** A cache entry; [mh_key_val] is the buffer behind the [key_val] pointer,
    the key followed by the value. *)
Record mcd_hashT := mk_hashT {
  mh_magic : Z;
  mh_domain : Z;
  mh_flags : Z;
  mh_nr_pages : Z;
  mh_nr_bytes : Z;
  mh_ref : Z;
  mh_put_time : Z;
  mh_query_time_ms : Z;
  mh_hash : Z;
  mh_key_size : Z;
  mh_val_size : Z;
  mh_key_val : list Z;
}.
#[export] Instance eta_mcd_hashT : Eta mcd_hashT := fun r =>
  mk_hashT (mh_magic r) (mh_domain r) (mh_flags r) (mh_nr_pages r) (mh_nr_bytes r)
    (mh_ref r) (mh_put_time r) (mh_query_time_ms r) (mh_hash r) (mh_key_size r)
    (mh_val_size r) (mh_key_val r).

(** The mini header kept for an entry that was moved out. *)
Record mcdctl_hashT := mk_mcdctl_hashT {
  mch_domain : Z;
  mch_flags : Z;
  mch_hash : Z;
  mch_key_size : Z;
  mch_val_size : Z;
}.
#[export] Instance eta_mcdctl_hashT : Eta mcdctl_hashT := fun r =>
  mk_mcdctl_hashT (mch_domain r) (mch_flags r) (mch_hash r) (mch_key_size r) (mch_val_size r).

(** A client domain. [md_hash_list] is the list behind [mcd_hash_list_head];
    the list behind [mcdctl_hash_list_head] is in the second-tier state. *)
Record mcd_domain := mk_domain {
  md_domid : Z;
  md_nr_avail : Z;
  md_nr_keys : Z;
  md_nr_used_pages : Z;
  md_nr_used_bytes : Z;
  md_weight : Z;
  md_ratio : Z;
  md_curr : Z;
  md_reset : Z;
  md_get_succ : Z;
  md_get_fail : Z;
  md_hitrate : Z;
  md_rec_cost_avg : Z;
  md_hash_list : list ptr;
}.
#[export] Instance eta_mcd_domain : Eta mcd_domain := fun r =>
  mk_domain (md_domid r) (md_nr_avail r) (md_nr_keys r) (md_nr_used_pages r)
    (md_nr_used_bytes r) (md_weight r) (md_ratio r) (md_curr r) (md_reset r)
    (md_get_succ r) (md_get_fail r) (md_hitrate r) (md_rec_cost_avg r) (md_hash_list r).

(** The global counters. *)
Record g_mcd_data := mk_mcd_data {
  pri_nr_pages : Z;
  shr_nr_pages : Z;
  pri_nr_bytes : Z;
  shr_nr_bytes : Z;
  pri_nr_keys : Z;
  shr_nr_keys : Z;
}.
#[export] Instance eta_g_mcd_data : Eta g_mcd_data := fun r =>
  mk_mcd_data (pri_nr_pages r) (shr_nr_pages r) (pri_nr_bytes r) (shr_nr_bytes r)
    (pri_nr_keys r) (shr_nr_keys r).

Record g_score_param := mk_score_param {
  alpha : Z;
  beta : Z;
  query_max : Z;
  val_max : Z;
}.
#[export] Instance eta_g_score_param : Eta g_score_param := fun r =>
  mk_score_param (alpha r) (beta r) (query_max r) (val_max r).

Record g_score_data := mk_score_data {
  sd_mem : g_score_param;
  sd_ssd : g_score_param;
}.
#[export] Instance eta_g_score_data : Eta g_score_data := fun r =>
  mk_score_data (sd_mem r) (sd_ssd r).

(** The scalar configuration variables of mcd.c. *)
Record config := mk_config {
  cache_mode : Z;
  replacement_mode : Z;
  partition_mode : Z;
  max_mem_bytes : Z;
  total_weight : Z;
  current_free_memory_bytes : Z;
  reset_time : Z;
  mcdctl_user_enabled : bool;
  mcd_enabled_flag : bool;
}.
#[export] Instance eta_config : Eta config := fun r =>
  mk_config (cache_mode r) (replacement_mode r) (partition_mode r) (max_mem_bytes r)
    (total_weight r) (current_free_memory_bytes r) (reset_time r)
    (mcdctl_user_enabled r) (mcd_enabled_flag r).

(** The workload statistics of mcd.c. An array is the map of its non-zero
    cells; [ftm] is the prefix of length [ftm_cnt] of the array of that name. *)
Record stats := mk_stats {
  max_get_put_time : Z;
  min_get_put_time : Z;
  max_val_length : Z;
  min_val_length : Z;
  max_key_length : Z;
  min_key_length : Z;
  hit_total : Z;
  hit_success : Z;
  num_get_request : Z;
  num_put_request : Z;
  query_time : gmap Z Z;
  reaccess_time_ms : gmap Z Z;
  reaccess_time : gmap Z Z;
  ftm : list (Z * Z);
}.
#[export] Instance eta_stats : Eta stats := fun r =>
  mk_stats (max_get_put_time r) (min_get_put_time r) (max_val_length r)
    (min_val_length r) (max_key_length r) (min_key_length r) (hit_total r)
    (hit_success r) (num_get_request r) (num_put_request r) (query_time r)
    (reaccess_time_ms r) (reaccess_time r) (ftm r).

(** The argument of a cache operation: [op_key] and [op_val] are the guest
    buffers behind the [key] and [val] handles. *)
Record mcd_arg := mk_arg {
  op_option : Z;
  op_key_size : Z;
  op_val_size : Z;
  op_key : list Z;
  op_val : list Z;
}.

(** What [copy_from_guest(dst, handle, n)] copies. *)
Definition from_guest (buf : list Z) (n : Z) : list Z := take (Z.to_nat n) buf.
