(* ===== verification/State.v ===== *)
(** The state of the cache (the globals of xen/common/mcd.c), the
    environment it runs in, and the interface to the second tier. *)
From S2P Require Import Prelude CMonad Types.

(** * The environment

    What the code asks of the rest of the hypervisor and of the hardware, as
    functions of the number of queries made so far: the clock, whether
    [_xmalloc] finds memory of a given size, and the number of free pages of
    the domain heap. [env_garbage p i] is byte [i] of the memory at [p] before
    anything was stored there, and [env_fuel] bounds the iterations of a
    [while] loop. *)
Record Env := mk_env {
  env_now : nat -> Z;
  env_xmalloc : nat -> Z -> bool;
  env_avail_pages : nat -> Z;
  env_garbage : ptr -> nat -> Z;
  env_fuel : nat;
  sizeof_mcd_hashT : Z;
  sizeof_mcd_domain : Z;
}.

(** * The second tier: mini headers of the entries moved out

    [mc_heap] holds every mini header carved out of the pages of
    [mcdctl_pages]; [mc_shared] is [g_mcdctl_shared_hash_list] and [mc_doms]
    the [mcdctl_hash_list_head] of each domain. *)
Record mcdctl_state := mk_mcdctl {
  mc_heap : gmap ptr mcdctl_hashT;
  mc_shared : list (list ptr);
  mc_doms : gmap Z (list ptr);
  mc_freelist : list ptr;
  mc_pages : list ptr;
}.
#[export] Instance eta_mcdctl_state : Eta mcdctl_state := fun r =>
  mk_mcdctl (mc_heap r) (mc_shared r) (mc_doms r) (mc_freelist r) (mc_pages r).

(** What the cache uses of [struct domain]: the [mcd] pointer is the id of
    the client domain attached to it. *)
Record xen_domain := mk_xen_domain {
  xd_is_dying : bool;
  xd_mcd : option Z;
  xd_max_pages : Z;
  xd_tot_pages : Z;
}.
#[export] Instance eta_xen_domain : Eta xen_domain := fun r =>
  mk_xen_domain (xd_is_dying r) (xd_mcd r) (xd_max_pages r) (xd_tot_pages r).

(** * The state. [B] is the state of the transport to the second tier. *)
Record gstate {B : Type} := mk_gstate {
  mcd_data : g_mcd_data;
  sd : g_score_data;
  cfg : config;
  st : stats;
  heap : gmap ptr mcd_hashT;
  shared : list (list ptr);
  doms : list mcd_domain;
  ctl : mcdctl_state;
  xdoms : gmap Z xen_domain;
  be : B;
  tick : nat;
  next_ptr : ptr;
  out_rvs : option Z;
  out_val : option (list Z);
}.
Arguments gstate B : clear implicits.
Arguments mk_gstate {B}.
#[export] Instance eta_gstate B : Eta (gstate B) := fun r =>
  mk_gstate (mcd_data r) (sd r) (cfg r) (st r) (heap r) (shared r) (doms r) (ctl r)
    (xdoms r) (be r) (tick r) (next_ptr r) (out_rvs r) (out_val r).

(** * The interface between the cache and the transport (mcdctl.c)

    The [minf_*] functions as the cache sees them: each call includes the
    wait on the put or get lock that follows it in the cache. [minf_page_in]
    also gives the bytes it stored into the entry's buffer. *)
Class Minf (B : Type) := {
  mcdctl_enabled : B -> bool;
  minf_page_out : mcd_hashT -> M B Z;
  minf_page_in : mcd_hashT -> M B (Z * list Z);
  minf_page_del : Z -> Z -> M B Z;
  minf_page_flush : M B Z;
  minf_page_dom_create : Z -> M B Z;
  minf_page_dom_flush : Z -> M B Z;
  minf_page_dom_destroy : Z -> M B Z;
  minf_increase_shared_page : Z -> M B Z;
  get_num_shared_page : B -> Z;
}.

(** What the transport needs of an entry: the buffer is as long as the sizes
    say. *)
Definition buffer_ok (e : mcd_hashT) : Prop :=
  urange 32 (mh_key_size e) /\ urange 32 (mh_val_size e) /\
  Z.of_nat (length (mh_key_val e)) = mh_key_size e + mh_val_size e.

(** What the cache relies on: in a transport state that satisfies
    [minf_inv], every request comes back, the invariant and the enabled flag
    stay, and a page-in fills the buffer it was given. *)
Class MinfLaws (B : Type) `{Minf B} := {
  minf_inv : B -> Prop;
  minf_req : forall (A : Type), M B A -> Prop :=
    fun A m => forall b, minf_inv b ->
      wp no_fault m (fun _ b' => minf_inv b' /\ mcdctl_enabled b' = mcdctl_enabled b) b;
  minf_out_ok : forall e, buffer_ok e -> minf_req Z (minf_page_out e);
  minf_del_ok : forall d h, minf_req Z (minf_page_del d h);
  minf_flush_ok : minf_req Z minf_page_flush;
  minf_create_ok : forall d, minf_req Z (minf_page_dom_create d);
  minf_dom_flush_ok : forall d, minf_req Z (minf_page_dom_flush d);
  minf_destroy_ok : forall d, minf_req Z (minf_page_dom_destroy d);
  minf_increase_ok : forall n, minf_req Z (minf_increase_shared_page n);
  minf_in_ok : forall e b, buffer_ok e -> minf_inv b ->
    wp no_fault (minf_page_in e) (fun r b' =>
      minf_inv b' /\ mcdctl_enabled b' = mcdctl_enabled b /\
      length (snd r) = length (mh_key_val e)) b;
}.

(** The transport of a machine on which no daemon runs: [mcdctl_enabled] is
    zero and every request is refused. *)
Module NoDaemon.
#[export] Instance minf : Minf unit := {|
  mcdctl_enabled := fun _ => false;
  minf_page_out := fun _ => mret (-1);
  minf_page_in := fun e => mret (-1, mh_key_val e);
  minf_page_del := fun _ _ => mret (-1);
  minf_page_flush := mret (-1);
  minf_page_dom_create := fun _ => mret (-1);
  minf_page_dom_flush := fun _ => mret (-1);
  minf_page_dom_destroy := fun _ => mret (-1);
  minf_increase_shared_page := fun _ => mret (-1);
  get_num_shared_page := fun _ => 0;
|}.

#[export] Instance minf_laws : MinfLaws unit.
Proof. refine {| minf_inv := fun _ => True |}; done. Defined.
End NoDaemon.
