(* ===== verification/Core.v ===== *)
(** The primitives of xen/common/mcd.c below the cache operations: memory
    sizes, the domain list, the mini-header allocator, moving an entry out
    to the second tier, and the removal of an entry. *)
From S2P Require Import Prelude CMonad Types State.

(** Taking a node off a list. *)
Abbreviation unlink := (drop_elem (A := Z)).

Section Core.
Context {B : Type} `{!Minf B} (env : Env).
Abbreviation G := (M (gstate B)).
Implicit Types (s : gstate B) (p : ptr) (e : mcd_hashT).

(** ** The hypervisor services *)

Definition NOW : G Z :=
  s ← get;
  modify (fun s => s <| tick ::= S |>);;
  mret (env_now env (tick s)).

Definition avail_domheap_pages : G Z :=
  s ← get;
  modify (fun s => s <| tick ::= S |>);;
  mret (env_avail_pages env (tick s)).

(** A fresh object that takes up [n] abstract addresses. *)
Definition xmalloc_n (n size : Z) : G (option ptr) :=
  s ← get;
  modify (fun s => s <| tick ::= S |>);;
  if env_xmalloc env (tick s) size then
    modify (fun s => s <| next_ptr ::= Z.add n |>);;
    mret (Some (next_ptr s))
  else mret None.

Definition xmalloc (size : Z) : G (option ptr) := xmalloc_n 1 size.

(** ** Entries and their lists *)

Definition load p : G mcd_hashT :=
  s ← get;
  match heap s !! p with
  | Some e => mret e
  | None => raise UseAfterFree
  end.

Definition store p e : G unit := modify (fun s => s <| heap ::= <[p := e]> |>).

Definition xfree p : G unit := modify (fun s => s <| heap ::= delete p |>).

(** The entries on the lists of the shared table and of the domains. *)
Definition shr_ptrs s : list ptr := concat (shared s).
Definition pri_ptrs s : list ptr := concat (md_hash_list <$> doms s).


(** [list_del(&mh->hash_list)] *)
Definition list_del p : G unit :=
  s ← get;
  if decide (p ∈ shr_ptrs s ++ pri_ptrs s) then
    modify (fun s => s <| shared ::= fmap (unlink p) |>
                       <| doms ::= fmap (fun d => d <| md_hash_list ::= unlink p |>) |>)
  else raise BadList.

(** ** Memory sizes *)

Definition TOT_USED_BYTES s : Z := u64 (pri_nr_bytes (mcd_data s) + shr_nr_bytes (mcd_data s)).
Definition TOT_USED_KEYS s : Z := u32 (pri_nr_keys (mcd_data s) + shr_nr_keys (mcd_data s)).

Definition RESIDUAL_BYTES : Z := PAGE_SIZE * 1000.

Definition get_free_sys_mem : G Z :=
  n ← avail_domheap_pages;
  let free := s64 (u64 (u64 (n * PAGE_SIZE) - RESIDUAL_BYTES)) in
  mret (if 0 <? free then u64 free else 0).

Definition get_tot_mem_size : G Z :=
  free ← get_free_sys_mem;
  s ← get;
  let tot_bytes := u64 (TOT_USED_BYTES s + free) in
  let max := max_mem_bytes (cfg s) in
  mret (if max =? 0 then tot_bytes
        else if tot_bytes <=? max then tot_bytes else max).

Definition get_free_mem_size : G Z :=
  tot ← get_tot_mem_size;
  s ← get;
  let free_bytes := s64 (u64 (tot - TOT_USED_BYTES s)) in
  mret (if free_bytes <=? 0 then 0 else u64 free_bytes).

(** ** Domains

    A [mcd_domain_t *] is the id of the domain it points to, or the address
    computed from the list head when a walk of [g_mcd_domain_list] ran off
    its end. *)
Inductive dom_ptr := DomAt (domid : Z) | DomHead.

Definition dom_of (ds : list mcd_domain) (domid : Z) : option mcd_domain :=
  snd <$> list_find (fun d => md_domid d = domid) ds.

(** [list_for_each_entry] leaves the cursor on the list head when no element
    breaks out of the loop: the result is never NULL. *)
Definition find_mcd_dom (domid : Z) : G dom_ptr :=
  s ← get;
  mret (match dom_of (doms s) domid with
        | Some _ => DomAt domid
        | None => DomHead
        end).

Fixpoint alter_dom (domid : Z) (f : mcd_domain -> mcd_domain) (ds : list mcd_domain)
    : list mcd_domain :=
  match ds with
  | [] => []
  | d :: ds => if md_domid d =? domid then f d :: ds else d :: alter_dom domid f ds
  end.

Definition dom_load (dp : dom_ptr) : G mcd_domain :=
  s ← get;
  match dp with
  | DomAt domid => match dom_of (doms s) domid with
                   | Some d => mret d
                   | None => raise UseAfterFree
                   end
  | DomHead => raise BadDomain
  end.

Definition dom_update (dp : dom_ptr) (f : mcd_domain -> mcd_domain) : G unit :=
  d ← dom_load dp;
  modify (fun s => s <| doms ::= alter_dom (md_domid d) f |>).

(** ** Mini headers *)

Definition mch_load p : G mcdctl_hashT :=
  s ← get;
  match mc_heap (ctl s) !! p with
  | Some c => mret c
  | None => raise UseAfterFree
  end.

Definition ctl_enabled s : bool := mcdctl_enabled (be s) && mcdctl_user_enabled (cfg s).

Definition hdrs_per_page : nat := Z.to_nat (PAGE_SIZE / sizeof_mcdctl_hashT).

Definition empty_hdr : mcdctl_hashT := mk_mcdctl_hashT 0 0 0 0 0.

(** [exit_mcdctl]: every page of mini headers is freed. *)
Definition exit_mcdctl : G unit :=
  modify (fun s => s <| ctl ::= fun c =>
    c <| mc_heap := ∅ |> <| mc_freelist := [] |> <| mc_pages := [] |> |>).

Definition mcdctl_start : G unit :=
  modify (fun s => s <| ctl ::= fun c =>
    c <| mc_shared := replicate (Z.to_nat MAX_LIST_HEAD) [] |>
      <| mc_freelist := [] |> <| mc_pages := [] |> |>).

Definition mcdctl_new_malloc : G unit :=
  s ← get;
  if negb (ctl_enabled s) then mret tt
  else if MAX_PAGES_FOR_MCDCTL <=? Z.of_nat (length (mc_pages (ctl s))) then mret tt
  else
    buf ← xmalloc_n (Z.of_nat hdrs_per_page) PAGE_SIZE;
    match buf with
    | None => mret tt
    | Some buf =>
        let hdrs := seqZ buf (Z.of_nat hdrs_per_page) in
        modify (fun s => s <| ctl ::= fun c =>
          c <| mc_heap ::= union (gset_to_gmap empty_hdr (list_to_set hdrs)) |>
            <| mc_freelist := hdrs |>
            <| mc_pages ::= fun l => l ++ [buf] |> |>)
    end.

Definition mcdctl_malloc (domid : Z) : G (option ptr) :=
  s ← get;
  if negb (ctl_enabled s) then mret None
  else
    (match mc_freelist (ctl s) with
     | [] => mcdctl_new_malloc
     | _ :: _ => mret tt
     end);;
    s ← get;
    match mc_freelist (ctl s) with
    | [] => mret None
    | p :: rest =>
        modify (fun s => s <| ctl ::= fun c => c <| mc_freelist := rest |> |>);;
        mret (Some p)
    end.

Definition mc_ptrs (c : mcdctl_state) : list ptr :=
  concat (mc_shared c) ++ map_concat (mc_doms c).

Definition mc_list_del p : G unit :=
  mch_load p;;
  s ← get;
  if decide (p ∈ mc_ptrs (ctl s)) then
    modify (fun s => s <| ctl ::= fun c =>
      c <| mc_shared ::= fmap (unlink p) |> <| mc_doms ::= fmap (unlink p) |> |>)
  else raise BadList.

Definition mcdctl_free (mch : option ptr) : G unit :=
  s ← get;
  if negb (ctl_enabled s) then mret tt
  else
    match mch with
    | None => raise NullDeref
    | Some p =>
        mc_list_del p;;
        modify (fun s => s <| ctl ::= fun c => c <| mc_freelist ::= cons p |> |>)
    end.

(** [create_mcdctl_hashT] tests [mh], not the [mch] it has just allocated,
    before it clears the header. *)
Definition create_mcdctl_hashT (mh : option mcd_hashT) (domid : Z) : G (option ptr) :=
  mch ← mcdctl_malloc domid;
  match mh, mch with
  | Some e, Some p =>
      modify (fun s => s <| ctl ::= fun c =>
        c <| mc_heap ::= <[p := mk_mcdctl_hashT (mh_domain e) 0 (mh_hash e)
                                  (mh_key_size e) (mh_val_size e)]> |> |>);;
      mret (Some p)
  | Some e, None => raise NullDeref
  | None, _ => mret mch
  end.

(** ** Requests to the transport *)

Definition minf {A} (m : M B A) : G A := zoom be (fun b s => s <| be := b |>) m.

Definition bucket (hash : Z) : nat := Z.to_nat (hash mod MAX_LIST_HEAD).

(** [mcd_page_out]: hand the entry to the daemon, wait, and keep a mini
    header for it on the list of the current cache mode. *)
Definition mcd_page_out p : G Z :=
  s ← get;
  if negb (ctl_enabled s) then mret (-1)
  else
    e ← load p;
    rc ← minf (minf_page_out e);
    if negb (rc =? 0) then mret rc
    else if negb (Z.land (mh_flags e) MCD_MINF_ERROR =? 0) then mret (-1)
    else
      mch ← create_mcdctl_hashT (Some e) (mh_domain e);
      match mch with
      | None => mret (-1)
      | Some q =>
          s ← get;
          if cache_mode (cfg s) =? MCD_CACHE_MODE_SHARED then
            modify (fun s => s <| ctl ::= fun c =>
              c <| mc_shared ::= alter (fun l => l ++ [q]) (bucket (mh_hash e)) |> |>);;
            mret rc
          else
            dp ← find_mcd_dom (mh_domain e);
            d ← dom_load dp;
            modify (fun s => s <| ctl ::= fun c =>
              c <| mc_doms ::= fun m =>
                <[md_domid d := default [] (m !! md_domid d) ++ [q]]> m |> |>);;
            mret rc
      end.

(** ** Removal of an entry *)

Definition remove_hashT p : G unit :=
  e ← load p;
  if negb (mh_magic e =? MAGIC) then mret tt
  else
    list_del p;;
    mcd_page_out p;;
    store p (e <| mh_magic := 0 |>);;
    xfree p.

Definition remove_hashT_wo_page_out p : G unit :=
  e ← load p;
  if negb (mh_magic e =? MAGIC) then mret tt
  else
    list_del p;;
    store p (e <| mh_magic := 0 |>);;
    xfree p.

(** What [dom->nr_used_* -= mh->nr_*; dom->nr_keys --;] does. *)
Definition dom_uncharge e (d : mcd_domain) : mcd_domain :=
  d <| md_nr_used_pages := u32 (md_nr_used_pages d - mh_nr_pages e) |>
    <| md_nr_used_bytes := u64 (md_nr_used_bytes d - mh_nr_bytes e) |>
    <| md_nr_keys := u32 (md_nr_keys d - 1) |>.

Definition data_uncharge_shr e (g : g_mcd_data) : g_mcd_data :=
  g <| shr_nr_pages := u32 (shr_nr_pages g - mh_nr_pages e) |>
    <| shr_nr_bytes := u64 (shr_nr_bytes g - mh_nr_bytes e) |>
    <| shr_nr_keys := u32 (shr_nr_keys g - 1) |>.

Definition data_uncharge_pri e (g : g_mcd_data) : g_mcd_data :=
  g <| pri_nr_pages := u32 (pri_nr_pages g - mh_nr_pages e) |>
    <| pri_nr_bytes := u64 (pri_nr_bytes g - mh_nr_bytes e) |>
    <| pri_nr_keys := u32 (pri_nr_keys g - 1) |>.

Definition remove_with_flag p e (flag : Z) : G unit :=
  if (flag =? MOVE_TO_SSD) && (mh_flags e =? MCD_HASHT_NORMAL)
  then remove_hashT p
  else remove_hashT_wo_page_out p.

(** [dom_usage_update]: the domain's share of its entitlement, in percent. *)
Definition dom_usage_update (domid : Z) : G unit :=
  total ← get_tot_mem_size;
  d ← dom_load (DomAt domid);
  let ratio := if total =? 0 then 0
               else u32 (u64 (md_nr_used_bytes d * 100) / total) in
  let dom_ratio := if md_ratio d =? 0 then 100 else md_ratio d in
  dom_update (DomAt domid) (fun d =>
    d <| md_curr := if md_ratio d <=? 0 then 0 else u32 (ratio * 100) / dom_ratio |>).

(** [p_remove_hashT], called with the domain that owns the list. *)
Definition p_remove_hashT (domid : Z) (mh : option ptr) (flag : Z) : G Z :=
  match mh with
  | None => mret 0
  | Some p =>
      e ← load p;
      if negb (mh_magic e =? MAGIC) then mret 0
      else
        modify (fun s => s <| mcd_data ::= data_uncharge_pri e |>);;
        dom_update (DomAt domid) (dom_uncharge e);;
        remove_with_flag p e flag;;
        dom_usage_update domid;;
        mret (mh_nr_bytes e)
  end.

Definition s_remove_hashT (mh : option ptr) (flag : Z) : G Z :=
  match mh with
  | None => mret 0
  | Some p =>
      e ← load p;
      if negb (mh_magic e =? MAGIC) then mret 0
      else
        modify (fun s => s <| mcd_data ::= data_uncharge_shr e |>);;
        dp ← find_mcd_dom (mh_domain e);
        dom_update dp (dom_uncharge e);;
        remove_with_flag p e flag;;
        mret (mh_nr_bytes e)
  end.

End Core.
