(* ===== verification/Inv.v ===== *)
(** The invariant of the cache state, and the effect of the primitives of
    [Core] on it: what may change behind the back of the cache operations
    ([sim]), the second tier ([ctl_ok]), and the removal of an entry. *)
From S2P Require Import Prelude CMonad Types State Core.

(** * Well-formed entries and domains *)

Definition entry_ok (e : mcd_hashT) : Prop :=
  mh_magic e = MAGIC /\ urange 32 (mh_nr_bytes e) /\ urange 32 (mh_ref e) /\
  urange 32 (mh_hash e) /\ urange 32 (mh_key_size e) /\ urange 32 (mh_val_size e) /\
  Z.of_nat (length (mh_key_val e)) = mh_key_size e + mh_val_size e /\
  mh_flags e = (if mh_val_size e =? 0 then MCD_HASHT_MEASUREMENT else MCD_HASHT_NORMAL).

Lemma entry_buffer_ok e : entry_ok e -> buffer_ok e.
Proof. by intros (_ & _ & _ & _ & Hk & Hv & Hl & _). Qed.

(** A mini header describes an entry with a value. *)
Definition hdr_ok (c : mcdctl_hashT) : Prop :=
  urange 32 (mch_hash c) /\ urange 32 (mch_key_size c) /\ urange 32 (mch_val_size c) /\
  mch_val_size c <> 0.

(** What [domid] is charged for an entry. *)
Definition owned (f : mcd_hashT -> Z) (domid : Z) (e : mcd_hashT) : Z :=
  if mh_domain e =? domid then f e else 0.

Section Inv.
Context {B : Type} `{!Minf B, !MinfLaws B}.
Implicit Types (s : gstate B) (p q : ptr) (e : mcd_hashT) (d : mcd_domain).

Abbreviation domids s := (md_domid <$> doms s).

(** * The invariant

    [wf_gen Ds Dp s]: the entries of the state are those on the lists and
    those in [Ds] and [Dp], entries charged to the shared or to the private
    side that are on no list yet. *)

Definition all_ptrs (Ds Dp : list ptr) s : list ptr :=
  (shr_ptrs s ++ Ds) ++ (pri_ptrs s ++ Dp).

(** The lists and the heap describe the same set of live entries. *)
Record lists_ok (Ds Dp : list ptr) s : Prop := {
  lo_len : length (shared s) = Z.to_nat MAX_LIST_HEAD;
  lo_domids : NoDup (domids s);
  lo_nodup : NoDup (all_ptrs Ds Dp s);
  lo_live : forall p, p ∈ all_ptrs Ds Dp s <-> is_Some (heap s !! p);
  lo_entry : forall p e, heap s !! p = Some e -> entry_ok e;
  lo_owner : forall p e, heap s !! p = Some e -> mh_domain e ∈ domids s;
  lo_fresh : forall p, is_Some (heap s !! p) -> p < next_ptr s;
}.

(** An entry is on the list its hash and its owner say. *)
Record index_ok s : Prop := {
  ix_bucket : forall i ps p e, shared s !! i = Some ps -> p ∈ ps ->
    heap s !! p = Some e -> bucket (mh_hash e) = i;
  ix_shr_uniq : forall p q e e', p ∈ shr_ptrs s -> q ∈ shr_ptrs s ->
    heap s !! p = Some e -> heap s !! q = Some e' -> mh_hash e = mh_hash e' -> p = q;
  ix_priv : forall d p e, d ∈ doms s -> p ∈ md_hash_list d ->
    heap s !! p = Some e -> mh_domain e = md_domid d;
  ix_pri_uniq : forall d p q e e', d ∈ doms s -> p ∈ md_hash_list d -> q ∈ md_hash_list d ->
    heap s !! p = Some e -> heap s !! q = Some e' -> mh_hash e = mh_hash e' -> p = q;
}.

(** The counters count the live entries. *)
Record acct_ok (Ds Dp : list ptr) s : Prop := {
  ac_shr_bytes : shr_nr_bytes (mcd_data s) = u64 (hsum (heap s) mh_nr_bytes (shr_ptrs s ++ Ds));
  ac_shr_pages : shr_nr_pages (mcd_data s) = u32 (hsum (heap s) mh_nr_pages (shr_ptrs s ++ Ds));
  ac_shr_keys : shr_nr_keys (mcd_data s) = u32 (hsum (heap s) (fun _ => 1) (shr_ptrs s ++ Ds));
  ac_pri_bytes : pri_nr_bytes (mcd_data s) = u64 (hsum (heap s) mh_nr_bytes (pri_ptrs s ++ Dp));
  ac_pri_pages : pri_nr_pages (mcd_data s) = u32 (hsum (heap s) mh_nr_pages (pri_ptrs s ++ Dp));
  ac_pri_keys : pri_nr_keys (mcd_data s) = u32 (hsum (heap s) (fun _ => 1) (pri_ptrs s ++ Dp));
  ac_dom : forall d, d ∈ doms s ->
    md_nr_used_bytes d = u64 (hsum (heap s) (owned mh_nr_bytes (md_domid d)) (all_ptrs Ds Dp s)) /\
    md_nr_used_pages d = u32 (hsum (heap s) (owned mh_nr_pages (md_domid d)) (all_ptrs Ds Dp s));
}.

(** The modes are known ones and the divisors of the score are positive. *)
Record cfg_ok s : Prop := {
  co_cache : cache_mode (cfg s) = MCD_CACHE_MODE_SHARED \/ cache_mode (cfg s) = MCD_CACHE_MODE_PARTITION;
  co_replace : 0 <= replacement_mode (cfg s) < MCD_REPLACE_MODE_MAX;
  co_partition : 0 <= partition_mode (cfg s) < MCD_PARTITION_MODE_MAX;
  co_query : 1 <= query_max (sd_mem (sd s));
  co_val : 1 <= val_max (sd_mem (sd s));
  co_ratio : forall d, d ∈ doms s -> 0 <= md_ratio d < 2 ^ 32 - 1;
}.

Record wf_gen (Ds Dp : list ptr) s : Prop := {
  wf_lists : lists_ok Ds Dp s;
  wf_index : index_ok s;
  wf_acct : acct_ok Ds Dp s;
  wf_cfg : cfg_ok s;
}.

Abbreviation wf := (wf_gen [] []).

(** The second tier: every mini header on a list, on the free list or in [D]
    (allocated, not linked yet) is live, and is in one of these places only;
    the transport answers. *)
Record ctl_base (D : list ptr) s : Prop := {
  ct_len : length (mc_shared (ctl s)) = Z.to_nat MAX_LIST_HEAD;
  ct_nodup : NoDup (mc_ptrs (ctl s) ++ mc_freelist (ctl s) ++ D);
  ct_live : forall q, q ∈ mc_ptrs (ctl s) ++ mc_freelist (ctl s) ++ D -> is_Some (mc_heap (ctl s) !! q);
  ct_fresh : forall q, is_Some (mc_heap (ctl s) !! q) -> q < next_ptr s;
  ct_minf : minf_inv (be s);
}.

(** In addition the headers on the lists describe entries of known domains,
    and only the lists of the current cache mode are in use. *)
Record ctl_gen (D : list ptr) s : Prop := {
  ct_base : ctl_base D s;
  ct_hdr : forall q c, q ∈ mc_ptrs (ctl s) -> mc_heap (ctl s) !! q = Some c ->
    hdr_ok c /\ mch_domain c ∈ domids s;
  ct_own : forall domid q c, q ∈ default [] (mc_doms (ctl s) !! domid) -> mc_heap (ctl s) !! q = Some c ->
    mch_domain c = domid;
  ct_mode_shr : cache_mode (cfg s) = MCD_CACHE_MODE_SHARED -> map_concat (mc_doms (ctl s)) = [];
  ct_mode_pri : cache_mode (cfg s) <> MCD_CACHE_MODE_SHARED -> concat (mc_shared (ctl s)) = [];
}.

Abbreviation ctl_ok := (ctl_gen []).

Definition Inv s : Prop := wf s /\ ctl_ok s.

(** * What changes behind the back of an operation

    Reading the clock, allocating, talking to the second tier and refreshing
    the usage figures change none of what the invariant is about. *)

Definition dom_sim d d' : Prop := d' = d <| md_curr := md_curr d' |>.

#[export] Instance dom_sim_refl : Reflexive dom_sim.
Proof. intros []. done. Qed.
#[export] Instance dom_sim_trans : Transitive dom_sim.
Proof. intros [] [] [] H1 H2. unfold dom_sim in *. cbn in *. injection H1; injection H2; intros; by subst. Qed.

(** The mini headers on the lists stay there. *)
Definition mc_keep s s' : Prop := forall q c, q ∈ mc_ptrs (ctl s) -> mc_heap (ctl s) !! q = Some c ->
  q ∈ mc_ptrs (ctl s') /\ mc_heap (ctl s') !! q = Some c.

Lemma mc_keep_same s s' : ctl s' = ctl s -> mc_keep s s'.
Proof. intros H q c Hq Hc. by rewrite H. Qed.

Lemma mc_keep_trans s1 s2 s3 : mc_keep s1 s2 -> mc_keep s2 s3 -> mc_keep s1 s3.
Proof. intros H1 H2 q c Hq Hc. destruct (H1 q c Hq Hc). by apply H2. Qed.

Record sim s s' : Prop := {
  sim_data : mcd_data s' = mcd_data s;
  sim_sd : sd s' = sd s;
  sim_cfg : cfg s' = (cfg s) <| current_free_memory_bytes := current_free_memory_bytes (cfg s') |>;
  sim_st : st s' = st s;
  sim_heap : heap s' = heap s;
  sim_shared : shared s' = shared s;
  sim_doms : Forall2 dom_sim (doms s) (doms s');
  sim_xdoms : xdoms s' = xdoms s;
  sim_next : next_ptr s <= next_ptr s';
  sim_rvs : out_rvs s' = out_rvs s;
  sim_val : out_val s' = out_val s;
  sim_mc : mc_keep s s';
}.

#[export] Instance sim_preorder : PreOrder sim.
Proof.
  split.
  - intros s. split; try done. by destruct (cfg s).
  - intros s1 s2 s3 [] []. split; try congruence; [|by etransitivity|lia|by eapply mc_keep_trans].
    rewrite sim_cfg1, sim_cfg0. done.
Qed.

Lemma sim_domids s s' : sim s s' -> domids s' = domids s.
Proof.
  intros [_ _ _ _ _ _ H _ _ _ _ _]. induction H as [|d d' ds ds' Hd _ IH]; simpl; [done|].
  f_equal; [|done]. rewrite Hd. by destruct d.
Qed.

Lemma sim_pri_ptrs s s' : sim s s' -> pri_ptrs s' = pri_ptrs s.
Proof.
  intros [_ _ _ _ _ _ H _ _ _ _ _]. unfold pri_ptrs.
  induction H as [|d d' ds ds' Hd _ IH]; simpl; [done|].
  f_equal; [|done]. rewrite Hd. by destruct d.
Qed.

Lemma sim_shr_ptrs s s' : sim s s' -> shr_ptrs s' = shr_ptrs s.
Proof. intros H. unfold shr_ptrs. by rewrite (sim_shared _ _ H). Qed.

Lemma sim_all_ptrs Ds Dp s s' : sim s s' -> all_ptrs Ds Dp s' = all_ptrs Ds Dp s.
Proof. intros H. unfold all_ptrs. by rewrite (sim_pri_ptrs _ _ H), (sim_shr_ptrs _ _ H). Qed.

(** [soft]: the changes the invariant allows for without looking at their
    values (statistics, answers, the averages of a domain, a larger
    normaliser of the score). *)
Record dom_soft d d' : Prop := {
  df_domid : md_domid d' = md_domid d;
  df_list : md_hash_list d' = md_hash_list d;
  df_bytes : md_nr_used_bytes d' = md_nr_used_bytes d;
  df_pages : md_nr_used_pages d' = md_nr_used_pages d;
  df_ratio : md_ratio d' = md_ratio d;
}.

Record soft s s' : Prop := {
  so_data : mcd_data s' = mcd_data s;
  so_heap : heap s' = heap s;
  so_shared : shared s' = shared s;
  so_doms : Forall2 dom_soft (doms s) (doms s');
  so_next : next_ptr s <= next_ptr s';
  so_xdoms : xdoms s' = xdoms s;
  so_cfg : cfg s' = (cfg s) <| current_free_memory_bytes := current_free_memory_bytes (cfg s') |>;
  so_query : query_max (sd_mem (sd s)) <= query_max (sd_mem (sd s'));
  so_val : val_max (sd_mem (sd s)) <= val_max (sd_mem (sd s'));
}.

Lemma sim_soft s s' : sim s s' -> soft s s'.
Proof.
  intros Hs. split; try apply Hs; [|by rewrite (sim_sd _ _ Hs)..].
  eapply Forall2_impl; [apply Hs|]. intros d d' ->. by split.
Qed.

Lemma soft_domids s s' : soft s s' -> domids s' = domids s.
Proof.
  intros H. induction (so_doms _ _ H) as [|d d' ds ds' Hd _ IH]; cbn; [done|]. f_equal; [apply Hd|done].
Qed.

Lemma soft_pri_ptrs s s' : soft s s' -> pri_ptrs s' = pri_ptrs s.
Proof.
  intros H. unfold pri_ptrs.
  induction (so_doms _ _ H) as [|d d' ds ds' Hd _ IH]; cbn; [done|]. f_equal; [apply Hd|done].
Qed.

Lemma soft_dom s s' d' : soft s s' -> d' ∈ doms s' -> exists d, d ∈ doms s /\ dom_soft d d'.
Proof.
  intros H Hd. apply list_elem_of_lookup in Hd as [i Hi].
  eapply Forall2_lookup_r in Hi as (d & Hi & Hs); [|apply H].
  exists d. split; [|done]. by eapply list_elem_of_lookup_2.
Qed.

Lemma wf_soft Ds Dp s s' : soft s s' -> wf_gen Ds Dp s -> wf_gen Ds Dp s'.
Proof.
  intros Hs [Hl Hi Ha Hc].
  pose proof (soft_domids _ _ Hs) as Hdi. pose proof (soft_pri_ptrs _ _ Hs) as Hpp.
  assert (Hsp : shr_ptrs s' = shr_ptrs s) by (unfold shr_ptrs; by rewrite (so_shared _ _ Hs)).
  assert (Hap : all_ptrs Ds Dp s' = all_ptrs Ds Dp s) by (unfold all_ptrs; by rewrite Hpp, Hsp).
  split.
  - destruct Hl. split; rewrite ?Hdi, ?Hap, ?(so_heap _ _ Hs), ?(so_shared _ _ Hs); try done.
    intros p Hp. pose proof (so_next _ _ Hs). specialize (lo_fresh0 p Hp). lia.
  - destruct Hi. split; rewrite ?Hsp, ?(so_heap _ _ Hs), ?(so_shared _ _ Hs); try done.
    + intros d' p e (d & Hd & [-> -> _ _ _])%(soft_dom _ _ _ Hs). by apply ix_priv0.
    + intros d' p q e e' (d & Hd & [_ -> _ _ _])%(soft_dom _ _ _ Hs). by apply ix_pri_uniq0.
  - destruct Ha. split; rewrite ?Hsp, ?Hpp, ?Hap, ?(so_heap _ _ Hs), ?(so_data _ _ Hs); try done.
    intros d' (d & Hd & [-> _ -> -> _])%(soft_dom _ _ _ Hs). by apply ac_dom0.
  - destruct Hc. pose proof (so_query _ _ Hs). pose proof (so_val _ _ Hs).
    split; try rewrite (so_cfg _ _ Hs); cbn; try done; [lia..|].
    intros d' (d & Hd & [_ _ _ _ ->])%(soft_dom _ _ _ Hs). auto.
Qed.

Lemma wf_sim Ds Dp s s' : sim s s' -> wf_gen Ds Dp s -> wf_gen Ds Dp s'.
Proof. intros H. by apply wf_soft, sim_soft. Qed.

(** * Domains *)

Lemma alter_dom_fmap domid f (ds : list mcd_domain) : NoDup (md_domid <$> ds) ->
  alter_dom domid f ds = (fun d => if md_domid d =? domid then f d else d) <$> ds.
Proof.
  induction ds as [|d ds IH]; simpl; [done|]. intros [Hd Hnd]%NoDup_cons.
  destruct (Z.eqb_spec (md_domid d) domid) as [<-|]; f_equal; [|by apply IH].
  rewrite <- (list_fmap_id ds) at 1. apply list_fmap_ext. intros i d' Hd'. simpl.
  destruct (Z.eqb_spec (md_domid d') (md_domid d)) as [He|]; [|done].
  destruct Hd. rewrite <- He. apply list_elem_of_fmap. exists d'. split; [done|].
  by eapply list_elem_of_lookup_2.
Qed.

Lemma dom_of_Some ds domid d : dom_of ds domid = Some d -> d ∈ ds /\ md_domid d = domid.
Proof.
  unfold dom_of. intros ([i d'] & Hf & ->)%fmap_Some.
  apply list_find_Some in Hf as (Hi & Hd & _). split; [|done].
  by eapply list_elem_of_lookup_2.
Qed.

Lemma dom_of_cons d ds domid :
  dom_of (d :: ds) domid = if decide (md_domid d = domid) then Some d else dom_of ds domid.
Proof. unfold dom_of. simpl. case_decide; [done|]. by destruct (list_find _ ds) as [[]|]. Qed.

Lemma dom_of_fmap f domid (ds : list mcd_domain) : (forall d, md_domid (f d) = md_domid d) ->
  dom_of (f <$> ds) domid = f <$> dom_of ds domid.
Proof.
  intros Hf. induction ds as [|d ds IH]; [done|]. rewrite fmap_cons, !dom_of_cons, Hf.
  by case_decide.
Qed.

Lemma dom_of_is_Some ds domid : domid ∈ md_domid <$> ds -> exists d, dom_of ds domid = Some d.
Proof.
  intros (d & -> & Hd)%list_elem_of_fmap. unfold dom_of.
  destruct (list_find_elem_of (fun x => md_domid x = md_domid d) ds d) as [[i x] Hx]; [done..|].
  exists x. by rewrite Hx.
Qed.

Lemma dom_of_elem ds d : NoDup (md_domid <$> ds) -> d ∈ ds -> dom_of ds (md_domid d) = Some d.
Proof.
  induction ds as [|d0 ds IH]; [set_solver|]. rewrite fmap_cons. intros [Hd Hnd]%NoDup_cons Hin.
  rewrite dom_of_cons. case_decide as Heq.
  - apply elem_of_cons in Hin as [->|Hin]; [done|]. exfalso. apply Hd. rewrite Heq. set_solver.
  - apply IH; [done|]. apply elem_of_cons in Hin as [->|]; done.
Qed.

Lemma dom_of_None ds domid : dom_of ds domid = None -> domid ∉ md_domid <$> ds.
Proof. intros H Hin. apply dom_of_is_Some in Hin as [d Hd]. congruence. Qed.

Section DomSpecs.
Context (tol : fault -> Prop).

Lemma wp_dom_load domid (Q : mcd_domain -> gstate B -> Prop) s :
  domid ∈ domids s ->
  (forall d, d ∈ doms s -> md_domid d = domid -> dom_of (doms s) domid = Some d -> Q d s) ->
  wp tol (dom_load (DomAt domid)) Q s.
Proof.
  intros Hin HQ. unfold dom_load. wp_steps.
  destruct (dom_of_is_Some _ _ Hin) as [d Hd]. rewrite Hd. wp_steps.
  destruct (dom_of_Some _ _ _ Hd). auto.
Qed.

Lemma wp_find_mcd_dom domid (Q : dom_ptr -> gstate B -> Prop) s :
  domid ∈ domids s -> Q (DomAt domid) s -> wp tol (find_mcd_dom domid) Q s.
Proof.
  intros Hin HQ. unfold find_mcd_dom. wp_steps.
  destruct (dom_of_is_Some _ _ Hin) as [d ->]. done.
Qed.

Lemma wp_dom_update domid f (Q : unit -> gstate B -> Prop) s :
  domid ∈ domids s -> Q tt (s <| doms ::= alter_dom domid f |>) ->
  wp tol (dom_update (DomAt domid) f) Q s.
Proof.
  intros Hin HQ. unfold dom_update. wp_steps. apply wp_dom_load; [done|].
  intros d _ <- _. wp_steps. done.
Qed.

Lemma wp_load p e (Q : mcd_hashT -> gstate B -> Prop) s :
  heap s !! p = Some e -> Q e s -> wp tol (load p) Q s.
Proof. intros Hp HQ. unfold load. wp_steps. by rewrite Hp. Qed.

End DomSpecs.

(** * Removing an entry *)

(** The state without entry [e] at [p], charged to the shared side or not. *)
Definition drop_entry (shr : bool) p e s : gstate B :=
  s <| mcd_data ::= (if shr then data_uncharge_shr e else data_uncharge_pri e) |>
    <| heap ::= delete p |>
    <| shared ::= fmap (unlink p) |>
    <| doms ::= fun ds => (fun d => d <| md_hash_list ::= unlink p |>) <$>
                          alter_dom (mh_domain e) (dom_uncharge e) ds |>.

Definition drop_dom p e d : mcd_domain :=
  (if md_domid d =? mh_domain e then dom_uncharge e d else d) <| md_hash_list ::= unlink p |>.

Lemma drop_entry_doms shr p e s : NoDup (domids s) ->
  doms (drop_entry shr p e s) = drop_dom p e <$> doms s.
Proof.
  intros. unfold drop_entry, drop_dom. cbn. rewrite alter_dom_fmap by done.
  rewrite <- list_fmap_compose. done.
Qed.

Lemma drop_dom_domid p e d : md_domid (drop_dom p e d) = md_domid d.
Proof. unfold drop_dom. by destruct (_ =? _). Qed.

Lemma drop_dom_list p e d : md_hash_list (drop_dom p e d) = unlink p (md_hash_list d).
Proof. unfold drop_dom. by destruct (_ =? _). Qed.

Lemma drop_entry_domids shr p e s : NoDup (domids s) ->
  domids (drop_entry shr p e s) = domids s.
Proof.
  intros. rewrite drop_entry_doms, <- list_fmap_compose by done.
  apply list_fmap_ext. intros. apply drop_dom_domid.
Qed.

Lemma drop_entry_shr_ptrs shr p e s :
  shr_ptrs (drop_entry shr p e s) = unlink p (shr_ptrs s).
Proof. unfold shr_ptrs. cbn. by rewrite drop_elem_concat. Qed.

Lemma drop_entry_pri_ptrs shr p e s : NoDup (domids s) ->
  pri_ptrs (drop_entry shr p e s) = unlink p (pri_ptrs s).
Proof.
  intros. unfold pri_ptrs. rewrite drop_entry_doms, drop_elem_concat by done.
  f_equal. rewrite <- !list_fmap_compose. apply list_fmap_ext. intros. apply drop_dom_list.
Qed.

Section Drop.
Context (Ds Dp : list ptr) (shr : bool) (p : ptr) (e : mcd_hashT) (s : gstate B).
Context (Hwf : wf_gen Ds Dp s) (Hp : heap s !! p = Some e).
Context (Hin : p ∈ (if shr then shr_ptrs s else pri_ptrs s)).

Lemma drop_notin_D : (p ∉ Ds) /\ (p ∉ Dp).
Proof.
  pose proof (lo_nodup _ _ _ (wf_lists _ _ _ Hwf)) as Hnd. unfold all_ptrs in Hnd.
  apply NoDup_app in Hnd as ([_ [Hs _]]%NoDup_app & Hd & [_ [Hpp _]]%NoDup_app).
  destruct shr; set_solver.
Qed.

Lemma drop_in_all : p ∈ all_ptrs Ds Dp s.
Proof. unfold all_ptrs. destruct shr; set_solver. Qed.

Lemma drop_all_ptrs :
  all_ptrs Ds Dp (drop_entry shr p e s) = unlink p (all_ptrs Ds Dp s).
Proof.
  destruct drop_notin_D as [H1 H2]. unfold all_ptrs.
  rewrite drop_entry_shr_ptrs, drop_entry_pri_ptrs by apply (wf_lists _ _ _ Hwf).
  rewrite !drop_elem_app. by rewrite (drop_elem_notin p Ds), (drop_elem_notin p Dp).
Qed.

Lemma drop_lists_ok : lists_ok Ds Dp (drop_entry shr p e s).
Proof.
  destruct (wf_lists _ _ _ Hwf).
  split; rewrite ?drop_all_ptrs, ?drop_entry_domids by done; try done.
  - cbn. by rewrite length_fmap.
  - by apply NoDup_drop_elem.
  - intros q. rewrite elem_of_drop_elem, lo_live0. cbn.
    destruct (decide (q = p)) as [->|]; [rewrite lookup_delete_eq|rewrite lookup_delete_ne by done].
    + split; [naive_solver|intros []; done].
    + naive_solver.
  - cbn. intros q e'. rewrite lookup_delete_Some. naive_solver.
  - cbn. intros q e'. rewrite lookup_delete_Some. naive_solver.
  - cbn. intros q [e' He']. apply lookup_delete_Some in He' as [_ ?]. eauto.
Qed.

Lemma drop_index_ok : index_ok (drop_entry shr p e s).
Proof.
  destruct (wf_index _ _ _ Hwf).
  assert (Hdm : forall d', d' ∈ doms (drop_entry shr p e s) -> exists d, d ∈ doms s /\ d' = drop_dom p e d).
  { rewrite drop_entry_doms by apply (wf_lists _ _ _ Hwf). set_solver. }
  split.
  - cbn. intros i ps q e'. rewrite list_lookup_fmap, fmap_Some, lookup_delete_Some.
    intros (ps0 & Hi & ->) [Hq Hne]%elem_of_drop_elem [_ He]. by eapply ix_bucket0.
  - rewrite drop_entry_shr_ptrs. cbn. intros q q' e1 e2 [Hq ?]%elem_of_drop_elem [Hq' ?]%elem_of_drop_elem.
    rewrite !lookup_delete_ne by done. by apply ix_shr_uniq0.
  - intros d' q e' (d & Hd & ->)%Hdm. rewrite drop_dom_domid, drop_dom_list. cbn.
    intros [Hq ?]%elem_of_drop_elem. rewrite lookup_delete_ne by done. by apply ix_priv0.
  - intros d' q q' e1 e2 (d & Hd & ->)%Hdm. rewrite drop_dom_list. cbn.
    intros [Hq ?]%elem_of_drop_elem [Hq' ?]%elem_of_drop_elem. rewrite !lookup_delete_ne by done.
    by eapply ix_pri_uniq0.
Qed.

Lemma drop_dom_acct d : d ∈ doms s ->
  md_nr_used_bytes (drop_dom p e d) =
    u64 (hsum (delete p (heap s)) (owned mh_nr_bytes (md_domid d)) (unlink p (all_ptrs Ds Dp s))) /\
  md_nr_used_pages (drop_dom p e d) =
    u32 (hsum (delete p (heap s)) (owned mh_nr_pages (md_domid d)) (unlink p (all_ptrs Ds Dp s))).
Proof.
  intros Hd. destruct (ac_dom _ _ _ (wf_acct _ _ _ Hwf) d Hd) as [Hb Hpg].
  pose proof (lo_nodup _ _ _ (wf_lists _ _ _ Hwf)) as Hnd.
  rewrite !(hsum_drop _ _ _ e) by (done || apply drop_in_all).
  unfold drop_dom, owned at 2 4. rewrite (Z.eqb_sym (mh_domain e)).
  destruct (md_domid d =? mh_domain e); cbn; rewrite Hb, Hpg.
  - split; solve_wrap.
  - by rewrite !Z.sub_0_r.
Qed.

Lemma drop_acct_ok : acct_ok Ds Dp (drop_entry shr p e s).
Proof.
  pose proof (lo_nodup _ _ _ (wf_lists _ _ _ Hwf)) as Hnd. unfold all_ptrs in Hnd.
  pose proof (proj1 (NoDup_app _ _) Hnd) as (Hns & Hdj & Hnp).
  destruct drop_notin_D as [HDs HDp]. pose proof Hin as Hside. pose proof (lo_domids _ _ _ (wf_lists _ _ _ Hwf)) as Hdi.
  destruct (wf_acct _ _ _ Hwf).
  split; [..|rewrite drop_entry_doms by done; intros d' (d & -> & Hd)%list_elem_of_fmap;
    rewrite drop_dom_domid, drop_all_ptrs; by apply drop_dom_acct];
    rewrite ?drop_entry_shr_ptrs, ?drop_entry_pri_ptrs by done; cbn.
  all: destruct shr; cbn;
    first [ rewrite (hsum_drop_side _ _ _ e) by done | rewrite hsum_drop_other by set_solver ];
    first [ done
          | rewrite ?ac_shr_bytes0, ?ac_shr_pages0, ?ac_shr_keys0, ?ac_pri_bytes0,
              ?ac_pri_pages0, ?ac_pri_keys0; solve_wrap ].
Qed.

Lemma wf_drop_entry : wf_gen Ds Dp (drop_entry shr p e s).
Proof.
  split; [apply drop_lists_ok|apply drop_index_ok|apply drop_acct_ok|].
  destruct (wf_cfg _ _ _ Hwf). split; try done.
  rewrite drop_entry_doms by apply (wf_lists _ _ _ Hwf).
  intros d' (d & -> & Hd)%list_elem_of_fmap. unfold drop_dom. destruct (_ =? _); cbn; auto.
Qed.
End Drop.

End Inv.

Abbreviation wf := (wf_gen [] []).
Abbreviation ctl_ok := (ctl_gen []).
Abbreviation domids s := (md_domid <$> doms s).

(** [sim] between two states that differ in fields it does not look at. *)
Ltac solve_sim :=
  split; cbn; first [ done | reflexivity | lia | by apply mc_keep_same
                    | match goal with |- context [cfg ?s] => by destruct (cfg s) end | idtac ].
