(* ===== verification/Remove.v ===== *)
(** Specifications of the primitives of [Core]: the environment calls and the
    usage figures are invisible to the invariant, moving an entry out touches
    the second tier only, and a removal takes exactly one entry out of the
    state, from its list, from the heap and from every counter. *)
From S2P Require Import Prelude CMonad Types State Core Inv.

Section Remove.
Context {B : Type} `{!Minf B, !MinfLaws B} (env : Env) (tol : fault -> Prop).
Implicit Types (s : gstate B) (p q : ptr) (e : mcd_hashT) (d : mcd_domain).

(** [quiet s s']: nothing visible happened, and the second tier is in order. *)
Definition quiet s s' : Prop := sim s s' /\ ctl_ok s'.

Lemma quiet_refl s : ctl_ok s -> quiet s s.
Proof. by split. Qed.

Lemma quiet_trans s1 s2 s3 : quiet s1 s2 -> quiet s2 s3 -> quiet s1 s3.
Proof. intros [H1 _] [H2 H3]. split; [by etransitivity|done]. Qed.

Lemma alter_dom_domids domid f (ds : list mcd_domain) : (forall d, md_domid (f d) = md_domid d) ->
  md_domid <$> alter_dom domid f ds = md_domid <$> ds.
Proof.
  intros Hf. induction ds as [|d ds IH]; simpl; [done|].
  destruct (_ =? _); simpl; f_equal; auto.
Qed.

Lemma alter_dom_pri_ptrs domid f (ds : list mcd_domain) :
  (forall d, md_hash_list (f d) = md_hash_list d) ->
  md_hash_list <$> alter_dom domid f ds = md_hash_list <$> ds.
Proof.
  intros Hf. induction ds as [|d ds IH]; simpl; [done|].
  destruct (_ =? _); simpl; f_equal; auto.
Qed.

Lemma ctl_gen_env D s s' : ctl s' = ctl s -> be s' = be s -> next_ptr s <= next_ptr s' ->
  domids s' = domids s -> cache_mode (cfg s') = cache_mode (cfg s) ->
  ctl_gen D s -> ctl_gen D s'.
Proof.
  intros Hc Hb Hn Hd Hm [[H1 H2 H3 H4 H5] H6 H7 H8 H8b]. split; [split|..]; rewrite ?Hc, ?Hb, ?Hd, ?Hm; try done.
  intros q Hq. specialize (H4 q Hq). lia.
Qed.

Ltac solve_ctl := eapply ctl_gen_env; [| | | | |eassumption]; cbn;
  first [ done | lia | by apply alter_dom_domids | by rewrite <- list_fmap_compose ].

Lemma NOW_spec s : ctl_ok s ->
  wp tol (NOW env) (fun t s' => t = env_now env (tick s) /\ quiet s s') s.
Proof.
  intros Hc. unfold NOW. wp_steps. split; [done|].
  split; [solve_sim|solve_ctl].
Qed.

Lemma avail_spec s : ctl_ok s -> wp tol (avail_domheap_pages env) (fun _ => quiet s) s.
Proof.
  intros Hc. unfold avail_domheap_pages. wp_steps. split; [solve_sim|solve_ctl].
Qed.

Lemma get_free_sys_mem_spec s : ctl_ok s -> wp tol (get_free_sys_mem env) (fun _ => quiet s) s.
Proof.
  intros Hc. unfold get_free_sys_mem. wp_steps.
  eapply wp_mono; [by apply avail_spec|]. intros n s' H. by wp_steps.
Qed.

Lemma get_tot_mem_size_spec s : ctl_ok s -> wp tol (get_tot_mem_size env) (fun _ => quiet s) s.
Proof.
  intros Hc. unfold get_tot_mem_size. wp_steps.
  eapply wp_mono; [by apply get_free_sys_mem_spec|]. intros n s' H. by wp_steps.
Qed.

Lemma get_free_mem_size_spec s : ctl_ok s -> wp tol (get_free_mem_size env) (fun _ => quiet s) s.
Proof.
  intros Hc. unfold get_free_mem_size. wp_steps.
  eapply wp_mono; [by apply get_tot_mem_size_spec|]. intros n s' H. by wp_steps.
Qed.

Lemma sim_set_curr s domid f : NoDup (domids s) -> (forall d, dom_sim d (f d)) ->
  sim s (s <| doms ::= alter_dom domid f |>).
Proof.
  intros Hnd Hf. solve_sim. rewrite alter_dom_fmap by done. clear Hnd.
  induction (doms s) as [|d ds IH]; simpl; constructor; [|done].
  destruct (md_domid d =? domid); [apply Hf|done].
Qed.

Lemma dom_usage_update_spec domid s : ctl_ok s -> NoDup (domids s) -> domid ∈ domids s ->
  wp tol (dom_usage_update env domid) (fun _ => quiet s) s.
Proof.
  intros Hc Hnd Hin. unfold dom_usage_update. wp_steps.
  eapply wp_mono; [by apply get_tot_mem_size_spec|]. intros total s1 [Hs1 Hc1].
  pose proof (sim_domids _ _ Hs1) as Hdi. rewrite <- Hdi in Hnd, Hin. wp_steps.
  apply wp_dom_load; [done|]. intros d _ _ _. apply wp_dom_update; [done|].
  split; [|solve_ctl].
  etransitivity; [done|]. apply sim_set_curr; [done|]. by intros [].
Qed.

(** ** Allocation *)

Lemma xmalloc_n_spec n size D s : 0 <= n -> ctl_gen D s ->
  wp tol (xmalloc_n env n size) (fun r s' =>
    sim s s' /\ ctl_gen D s' /\ ctl s' = ctl s /\ be s' = be s /\ cfg s' = cfg s /\
    (r = None \/ r = Some (next_ptr s) /\ next_ptr s' = next_ptr s + n)) s.
Proof.
  intros Hn Hc. unfold xmalloc_n. wp_steps. destruct (env_xmalloc _ _ _); wp_steps.
  - repeat split_and!; try done; [solve_sim|solve_ctl|].
    right. cbn. split; [done|lia].
  - repeat split_and!; try done; [solve_sim|solve_ctl|by left].
Qed.

Lemma minf_spec {A} (m : M B A) D s : (forall b, minf_inv b ->
    wp no_fault m (fun _ b' => minf_inv b' /\ mcdctl_enabled b' = mcdctl_enabled b) b) ->
  ctl_gen D s ->
  wp tol (minf m) (fun _ s' => sim s s' /\ ctl_gen D s' /\ ctl_enabled s' = ctl_enabled s) s.
Proof.
  intros Hm [[H1 H2 H3 H4 H5] H6 H7 H8 H8b].
  apply wp_zoom. specialize (Hm _ H5). unfold wp, no_fault in *.
  destruct (m (be s)) as [a b'| |]; [|done..]. destruct Hm as [H9 H10].
  split_and!; [solve_sim|split; [by split|done..]|]. unfold ctl_enabled. cbn. by rewrite H10.
Qed.

(** ** Mini headers *)

(** Carving a fresh page into mini headers. *)
Lemma mcdctl_new_malloc_spec s : ctl_ok s -> mc_freelist (ctl s) = [] ->
  wp tol (mcdctl_new_malloc env) (fun _ => quiet s) s.
Proof.
  intros Hc Hnil. unfold mcdctl_new_malloc. generalize hdrs_per_page. intros n. wp_steps.
  destruct (negb _); [wp_steps; by apply quiet_refl|].
  destruct (_ <=? _); [wp_steps; by apply quiet_refl|]. wp_steps.
  eapply wp_mono; [apply xmalloc_n_spec with (D := []); [lia|done]|].
  intros r s1 (Hs & [[Hl Hd Hv Hf Hm] Hh Ho Hms Hmp] & Hctl & Hbe & _ & [->|[-> Hn]]); wp_steps;
    [by split|].
  assert (Hfr : forall q, is_Some (mc_heap (ctl s) !! q) -> q < next_ptr s) by apply Hc.
  rewrite Hctl, Hnil, !app_nil_r in *. split.
  { etransitivity; [done|]. solve_sim. intros q c Hq Hqc. cbn. split; [done|].
    rewrite Hctl in *. apply lookup_union_Some_raw. right. split; [|done].
    apply lookup_gset_to_gmap_None. rewrite elem_of_list_to_set, elem_of_seqZ.
    specialize (Hfr q ltac:(eauto)). lia. }
  assert (Hold : forall q c, q ∈ mc_ptrs (ctl s) ->
    (gset_to_gmap empty_hdr (list_to_set (seqZ (next_ptr s) (Z.of_nat n))) ∪ mc_heap (ctl s)) !! q = Some c ->
    mc_heap (ctl s) !! q = Some c).
  { intros q c Hq [Hc1|[_ Hc1]]%lookup_union_Some_raw; [|done].
    apply lookup_gset_to_gmap_Some in Hc1 as [Hc1 _].
    apply elem_of_list_to_set, elem_of_seqZ in Hc1. specialize (Hfr q (Hv q Hq)). lia. }
  split; [split|..]; cbn; rewrite ?Hctl, ?app_nil_r; try done.
  - apply NoDup_app. split_and!; [done| |apply NoDup_seqZ].
    intros q Hq Hq2%elem_of_seqZ. apply Hv, Hfr in Hq. lia.
  - intros q Hq. apply lookup_union_is_Some.
    apply elem_of_app in Hq as [Hq|Hq]; [right; by apply Hv|left].
    exists empty_hdr. apply lookup_gset_to_gmap_Some. by rewrite elem_of_list_to_set.
  - intros q [Hq|Hq]%lookup_union_is_Some; [|specialize (Hfr q Hq); lia].
    destruct Hq as [? [Hq _]%lookup_gset_to_gmap_Some].
    apply elem_of_list_to_set, elem_of_seqZ in Hq. lia.
  - intros q c Hq Hc1. apply (Hh q); [done|]. by apply Hold.
  - intros domid q c Hq Hc1. apply (Ho _ q); [done|]. apply Hold; [|done].
    apply elem_of_app. right. by eapply in_map_concat.
Qed.

Lemma mcdctl_malloc_spec domid s : ctl_ok s ->
  wp tol (mcdctl_malloc env domid) (fun r s' => sim s s' /\
    match r with Some q => ctl_gen [q] s' | None => ctl_ok s' end) s.
Proof.
  intros Hc. unfold mcdctl_malloc. wp_steps. destruct (negb _); wp_steps; [by split|].
  eapply wp_mono with (Q := fun _ => quiet s).
  { destruct (mc_freelist (ctl s)) eqn:Hfl; [by apply mcdctl_new_malloc_spec|].
    wp_steps. by apply quiet_refl. }
  intros _ s1 [Hs1 Hc1]. wp_steps. destruct (mc_freelist (ctl s1)) as [|q fl] eqn:Hfl; wp_steps.
  { by split. }
  split; [etransitivity; [done|solve_sim]|].
  destruct Hc1 as [[Hl Hd Hv Hf Hm] Hh Ho Hms Hmp]. rewrite Hfl in *. split; [split|..]; cbn; try done.
  - by rewrite <- Permutation_cons_append, <- (app_nil_r (q :: fl)).
  - intros q' Hq'. apply Hv. set_solver.
Qed.

(** The header made for an entry. *)
Definition hdr_of e : mcdctl_hashT :=
  mk_mcdctl_hashT (mh_domain e) 0 (mh_hash e) (mh_key_size e) (mh_val_size e).

Lemma create_mcdctl_hashT_spec e domid s :
  (mcdctl_enabled (be s) = true -> tol NullDeref) -> ctl_enabled s = true -> ctl_ok s ->
  wp tol (create_mcdctl_hashT env (Some e) domid) (fun r s' =>
    sim s s' /\ match r with
                | Some q => ctl_gen [q] s' /\ mc_heap (ctl s') !! q = Some (hdr_of e)
                | None => ctl_ok s'
                end) s.
Proof.
  intros Htol Hen Hc. unfold create_mcdctl_hashT. wp_steps.
  eapply wp_mono; [by apply mcdctl_malloc_spec|]. intros [q|] s1 [Hs1 Hc1]; wp_steps.
  - assert (Hnq : q ∉ mc_ptrs (ctl s1)).
    { intros Hq. pose proof (ct_nodup _ _ (ct_base _ _ Hc1)) as Hd.
      apply NoDup_app in Hd as (_ & Hd & _). apply (Hd q Hq). set_solver. }
    split; [etransitivity; [done|solve_sim]|].
    { intros q' c Hq' Hc'. cbn. split; [done|]. rewrite lookup_insert_ne; [done|]. by intros ->. }
    cbn. rewrite lookup_insert_eq. split; [|done].
    destruct Hc1 as [[Hl Hd Hv Hf Hm] Hh Ho Hms Hmp].
    assert (Hq : is_Some (mc_heap (ctl s1) !! q)) by (apply Hv; set_solver).
    split; [split|..]; cbn; try done.
    + intros q' Hq'. apply lookup_insert_is_Some'. right. by apply Hv.
    + intros q' [->|Hq']%lookup_insert_is_Some'; eauto.
    + intros q' c Hq' [[<- _]|[_ Hc2]]%lookup_insert_Some; [done|by apply (Hh q')].
    + intros k q' c Hq' [[<- _]|[_ Hc2]]%lookup_insert_Some; [|by apply (Ho k q')].
      exfalso. apply Hnq. apply elem_of_app. right. by eapply in_map_concat.
  - apply Htol. by apply andb_prop in Hen as [? _].
Qed.

(** Linking an allocated mini header. *)
Lemma ctl_link q e s s' : ctl_gen [q] s -> mc_heap (ctl s) !! q = Some (hdr_of e) ->
  hdr_ok (hdr_of e) -> mh_domain e ∈ domids s ->
  mc_ptrs (ctl s') ≡ₚ q :: mc_ptrs (ctl s) -> mc_heap (ctl s') = mc_heap (ctl s) ->
  mc_freelist (ctl s') = mc_freelist (ctl s) -> length (mc_shared (ctl s')) = length (mc_shared (ctl s)) ->
  be s' = be s -> next_ptr s' = next_ptr s -> domids s' = domids s ->
  (forall domid q' c, q' ∈ default [] (mc_doms (ctl s') !! domid) -> mc_heap (ctl s) !! q' = Some c ->
    mch_domain c = domid) ->
  (cache_mode (cfg s') = MCD_CACHE_MODE_SHARED -> map_concat (mc_doms (ctl s')) = []) ->
  (cache_mode (cfg s') <> MCD_CACHE_MODE_SHARED -> concat (mc_shared (ctl s')) = []) -> ctl_ok s'.
Proof.
  intros [[Hl Hd Hv Hf Hm] Hh _ _ _] Hq Hok Hown Hp Hhe Hfl Hlen Hbe Hn Hdi Ho Hms Hmp.
  assert (Hperm : mc_ptrs (ctl s') ++ mc_freelist (ctl s') ++ [] ≡ₚ
                  mc_ptrs (ctl s) ++ mc_freelist (ctl s) ++ [q]).
  { rewrite Hp, Hfl, app_nil_r. simpl. rewrite app_assoc. by rewrite Permutation_cons_append. }
  split; [split; [congruence| | |rewrite Hhe, Hn; done|congruence]| |by rewrite Hhe|done..].
  - by rewrite Hperm.
  - intros q' Hq'. rewrite Hhe. apply Hv. by rewrite <- Hperm.
  - intros q' c. rewrite Hp, Hhe, Hdi. intros [->|Hq']%elem_of_cons Hc.
    + rewrite Hq in Hc. injection Hc as <-. done.
    + by apply (Hh q').
Qed.

Lemma mc_keep_link q s s' : mc_ptrs (ctl s') ≡ₚ q :: mc_ptrs (ctl s) ->
  mc_heap (ctl s') = mc_heap (ctl s) -> mc_keep s s'.
Proof. intros Hp Hh q' c Hq' Hc. rewrite Hp, Hh. split; [by right|done]. Qed.

(** ** Moving an entry out *)

Lemma entry_hdr_ok e : entry_ok e -> Z.land (mh_flags e) MCD_MINF_ERROR = 0 -> hdr_ok (hdr_of e).
Proof.
  intros (_ & _ & _ & Hh & Hk & Hv & _ & Hfl) Hf. split_and!; [done..|]. cbn. intros H0.
  rewrite Hfl, H0 in Hf. done.
Qed.

Lemma mcd_page_out_spec p e s :
  (mcdctl_enabled (be s) = true -> tol NullDeref) ->
  ctl_ok s -> heap s !! p = Some e -> entry_ok e -> mh_domain e ∈ domids s ->
  wp tol (mcd_page_out env p) (fun _ => quiet s) s.
Proof.
  intros Htol Hc Hp Hok Hown. unfold mcd_page_out. wp_steps.
  destruct (ctl_enabled s) eqn:Hen; wp_steps; [|by apply quiet_refl].
  eapply wp_load; [done|]. wp_steps.
  eapply wp_mono; [apply (minf_spec (minf_page_out e) []); [by apply minf_out_ok, entry_buffer_ok|done]|].
  intros rc s1 (Hs1 & Hc1 & Hen1). destruct (negb (rc =? 0)); wp_steps; [by split|].
  destruct (Z.eqb_spec (Z.land (mh_flags e) MCD_MINF_ERROR) 0) as [Hfl|]; wp_steps; [|by split].
  apply entry_hdr_ok in Hok; [|done].
  eapply wp_mono; [apply create_mcdctl_hashT_spec; [|congruence|done]|].
  { intros _. apply Htol. by apply andb_prop in Hen as [? _]. }
  intros [q|] s2 [Hs2 Hc2]; wp_steps; [|split; [by etransitivity|done]].
  destruct Hc2 as [Hc2 Hq]. assert (Hs12 : sim s s2) by (by etransitivity).
  rewrite <- (sim_domids _ _ Hs12) in Hown.
  destruct (Z.eqb_spec (cache_mode (cfg s2)) MCD_CACHE_MODE_SHARED) as [Hm|Hm]; wp_steps.
  - set (s3 := s2 <| ctl ::= _ |>).
    assert (Hperm : mc_ptrs (ctl s3) ≡ₚ q :: mc_ptrs (ctl s2)).
    { unfold mc_ptrs. cbn. rewrite concat_alter_snoc; [done|].
      rewrite (ct_len _ _ (ct_base _ _ Hc2)). unfold bucket.
      pose proof (Z.mod_pos_bound (mh_hash e) MAX_LIST_HEAD eq_refl). lia. }
    split; [etransitivity; [done|solve_sim]; by eapply mc_keep_link|].
    eapply ctl_link; [exact Hc2|exact Hq|..]; cbn; try done; [by rewrite length_alter|apply Hc2..].
  - apply wp_find_mcd_dom; [done|]. apply wp_bind. apply wp_dom_load; [done|].
    intros d _ Hid _. wp_steps. set (s3 := s2 <| ctl ::= _ |>).
    assert (Hperm : mc_ptrs (ctl s3) ≡ₚ q :: mc_ptrs (ctl s2)).
    { unfold mc_ptrs. cbn. rewrite map_concat_snoc. by rewrite <- Permutation_middle. }
    split; [etransitivity; [done|solve_sim]; by eapply mc_keep_link|].
    eapply ctl_link; [exact Hc2|exact Hq|..]; cbn; try done; [|apply Hc2].
    intros k q' c. destruct (decide (k = md_domid d)) as [->|Hne].
    + rewrite lookup_insert_eq. cbn. intros [Hq'|Hq']%elem_of_app Hc'; [by eapply Hc2|].
      apply list_elem_of_singleton in Hq' as ->. rewrite Hq in Hc'. injection Hc' as <-. done.
    + rewrite lookup_insert_ne by done. by apply Hc2.
Qed.

(** ** Taking an entry off its list and freeing it *)

Definition unlinked p s : gstate B :=
  s <| heap ::= delete p |> <| shared ::= fmap (unlink p) |>
    <| doms ::= fmap (fun d => d <| md_hash_list ::= unlink p |>) |>.

Lemma wp_list_del p (Q : unit -> gstate B -> Prop) s : p ∈ shr_ptrs s ++ pri_ptrs s ->
  Q tt (s <| shared ::= fmap (unlink p) |>
          <| doms ::= fmap (fun d => d <| md_hash_list ::= unlink p |>) |>) ->
  wp tol (list_del p) Q s.
Proof. intros Hin HQ. unfold list_del. wp_steps. rewrite decide_True by done. by wp_steps. Qed.

Lemma unlinked_domids p s : domids (unlinked p s) = domids s.
Proof. cbn. rewrite <- list_fmap_compose. by apply list_fmap_ext. Qed.

Lemma free_spec p e s s' : sim (s <| shared ::= fmap (unlink p) |>
      <| doms ::= fmap (fun d => d <| md_hash_list ::= unlink p |>) |>) s' -> ctl_ok s' ->
  wp tol (store p e;; xfree p) (fun _ s'' => sim (unlinked p s) s'' /\ ctl_ok s'') s'.
Proof.
  intros [] Hc. unfold store, xfree. wp_steps. split; [|solve_ctl].
  split; cbn in *; try done. rewrite delete_insert_eq. by f_equal.
Qed.

Lemma remove_with_flag_spec p e flag s :
  (mcdctl_enabled (be s) = true -> tol NullDeref) ->
  ctl_ok s -> heap s !! p = Some e -> entry_ok e -> mh_domain e ∈ domids s ->
  p ∈ shr_ptrs s ++ pri_ptrs s ->
  wp tol (remove_with_flag env p e flag) (fun _ s' => sim (unlinked p s) s' /\ ctl_ok s') s.
Proof.
  intros Htol Hc Hp Hok Hown Hin. pose proof (proj1 Hok) as Hmg. unfold remove_with_flag.
  destruct (_ && _); [unfold remove_hashT|unfold remove_hashT_wo_page_out]; wp_steps;
    (eapply wp_load; [done|]); rewrite Hmg, Z.eqb_refl; wp_steps; (apply wp_list_del; [done|]);
    cbn beta; wp_steps.
  - eapply wp_mono; [apply mcd_page_out_spec with (e := e)|]; cbn.
    + done.
    + solve_ctl.
    + done.
    + done.
    + rewrite <- list_fmap_compose. done.
    + intros _ s1 [Hs1 Hc1]. by apply free_spec.
  - apply free_spec; [done|solve_ctl].
Qed.

Section RemoveEntry.
Context (p : ptr) (e : mcd_hashT) (flag : Z) (s : gstate B).
Context (Htol : mcdctl_enabled (be s) = true -> tol NullDeref).
Context (Hwf : wf s) (Hc : ctl_ok s) (Hp : heap s !! p = Some e).

Lemma live_entry_ok : entry_ok e.
Proof. by apply (lo_entry _ _ _ (wf_lists _ _ _ Hwf) p e). Qed.

Lemma entry_magic : mh_magic e = MAGIC.
Proof. apply live_entry_ok. Qed.

Lemma entry_owner : mh_domain e ∈ domids s.
Proof. by apply (lo_owner _ _ _ (wf_lists _ _ _ Hwf) p e). Qed.

(** The common end of the two removal functions. *)
Lemma remove_charged_spec (shr : bool) (g : g_mcd_data -> g_mcd_data) : p ∈ shr_ptrs s ++ pri_ptrs s ->
  g (mcd_data s) = (if shr then data_uncharge_shr e else data_uncharge_pri e) (mcd_data s) ->
  wp tol (remove_with_flag env p e flag)
    (fun _ s' => sim (drop_entry shr p e s) s' /\ ctl_ok s')
    (s <| mcd_data ::= g |> <| doms ::= alter_dom (mh_domain e) (dom_uncharge e) |>).
Proof using Htol Hwf Hc Hp.
  intros Hin Hg. pose proof entry_owner as Hown.
  eapply wp_mono; [apply remove_with_flag_spec; cbn|].
  - done.
  - solve_ctl.
  - done.
  - apply live_entry_ok.
  - by rewrite alter_dom_domids.
  - unfold pri_ptrs, shr_ptrs. cbn. by rewrite alter_dom_pri_ptrs.
  - intros _ s' [[] Hc']. split; [|done]. split; cbn in *; try done. congruence.
Qed.

Lemma s_remove_spec : p ∈ shr_ptrs s ->
  wp tol (s_remove_hashT env (Some p) flag)
    (fun b s' => b = mh_nr_bytes e /\ sim (drop_entry true p e s) s' /\ ctl_ok s') s.
Proof using Htol Hwf Hc Hp.
  intros Hin. unfold s_remove_hashT. wp_steps. eapply wp_load; [done|].
  rewrite entry_magic, Z.eqb_refl. wp_steps.
  apply wp_find_mcd_dom; [apply entry_owner|]. wp_steps.
  apply wp_dom_update; [apply entry_owner|]. wp_steps.
  eapply wp_mono; [apply (remove_charged_spec true); [set_solver|done]|].
  intros _ s' [Hs' Hc']. wp_steps. done.
Qed.

Lemma p_remove_spec : p ∈ pri_ptrs s ->
  wp tol (p_remove_hashT env (mh_domain e) (Some p) flag)
    (fun b s' => b = mh_nr_bytes e /\ sim (drop_entry false p e s) s' /\ ctl_ok s') s.
Proof using Htol Hwf Hc Hp.
  intros Hin. unfold p_remove_hashT. wp_steps. eapply wp_load; [done|].
  rewrite entry_magic, Z.eqb_refl. wp_steps.
  apply wp_dom_update; [apply entry_owner|]. wp_steps.
  eapply wp_mono; [apply (remove_charged_spec false); [set_solver|done]|].
  intros _ s' [Hs' Hc']. wp_steps.
  pose proof (drop_entry_domids false p e s (lo_domids _ _ _ (wf_lists _ _ _ Hwf))) as Hdi.
  eapply wp_mono; [apply dom_usage_update_spec; [done|..]|].
  - rewrite (sim_domids _ _ Hs'), Hdi. apply (wf_lists _ _ _ Hwf).
  - rewrite (sim_domids _ _ Hs'), Hdi. apply entry_owner.
  - intros _ s2 [Hs2 Hc2]. wp_steps. split_and!; [done| |done]. by etransitivity.
Qed.

End RemoveEntry.

End Remove.
