(* ===== verification/Evict.v ===== *)
(** The replacement policies of xen/common/mcd.c: [shared_cache_free] and
    the partitioned variants, and [mcd_malloc] that calls them. *)
From S2P Require Import Prelude CMonad Types State Core.

Section Evict.
Context {B : Type} `{!Minf B} (env : Env).
Abbreviation G := (M (gstate B)).
Implicit Types (s : gstate B) (p : ptr) (e : mcd_hashT).

(** The locals of the eviction loops: bytes freed so far and whether an
    entry was removed. *)
Record ev := mk_ev { tot : Z; visited : bool }.
Implicit Types (l : ev).

Definition minref_init : Z := Z.shiftr (u32 (2 ^ 64 - 1)) 1.

(** The entries of a list, in list order. *)
Fixpoint loads (ps : list ptr) : G (list (ptr * mcd_hashT)) :=
  match ps with
  | [] => mret []
  | p :: ps => e ← load p; r ← loads ps; mret ((p, e) :: r)
  end.

(** ** Choosing victims *)

(** One walk of the LFRU policy: the entry that was put longest ago, and,
    among those that were not such a candidate when they were visited, the
    least referenced one. *)
Fixpoint lfru_walk (now : Z) (es : list (ptr * mcd_hashT)) (maxtime minref : Z)
    (lru lfu : option ptr) : option ptr * option ptr :=
  match es with
  | [] => (lru, lfu)
  | (p, e) :: es =>
      let age := s64 (now - mh_put_time e) in
      if maxtime <? age then lfru_walk now es age minref (Some p) lfu
      else if mh_ref e <? minref then lfru_walk now es maxtime (mh_ref e) lru (Some p)
      else lfru_walk now es maxtime minref lru lfu
  end.

Definition lfru_scan (now : Z) (es : list (ptr * mcd_hashT)) : option ptr * option ptr :=
  lfru_walk now es 0 minref_init None None.

(** The macros [LOC], [QUR], [VAL] and [SCORE]. *)
Definition SCORE (sp : g_score_param) (now : Z) e : G Z :=
  if (now =? 0) || (query_max sp =? 0) || (val_max sp =? 0) then raise DivByZero
  else
    let LOC := s64 (alpha sp * cdiv (s64 (mh_put_time e * 10)) now) in
    let QUR := u32 (beta sp * u32 (10 - u32 (mh_query_time_ms e * 10) / query_max sp)) in
    let VAL := u32 (u32 (100 - alpha sp - beta sp) * (u32 (mh_val_size e * 10) / val_max sp)) in
    mret (u32 (cdiv (s64 (LOC + QUR + VAL)) 1000)).

(** The entry with the least score below [minref]. *)
Fixpoint score_walk (sp : g_score_param) (now : Z) (es : list (ptr * mcd_hashT))
    (minref : Z) (min_score : option ptr) : G (option ptr) :=
  match es with
  | [] => mret min_score
  | (p, e) :: es =>
      score ← SCORE sp now e;
      if score <? minref then score_walk sp now es score (Some p)
      else score_walk sp now es minref min_score
  end.

(** ** The shared table *)

Definition sremove (mh : option ptr) l : G ev :=
  b ← s_remove_hashT env mh MOVE_TO_SSD;
  mret (mk_ev (u64 (tot l + b)) true).

Definition when_some (mh : option ptr) (k : option ptr -> ev -> G ev) l : G ev :=
  match mh with
  | Some _ => k mh l
  | None => mret l
  end.

Definition brk_if (b : bool) l : G (loopctl ev) := mret (if b then Break l else Continue l).

Definition buckets : list nat := seq 0 (Z.to_nat MAX_LIST_HEAD).

Definition bucket_list s (i : nat) : list ptr := default [] (shared s !! i).

(** The body of the [for] over the buckets, for the LFRU policy, ... *)
Definition lfru_bucket (now amount : Z) (i : nat) l : G (loopctl ev) :=
  s ← get;
  es ← loads (bucket_list s i);
  let '(lru, lfu) := lfru_scan now es in
  l ← when_some lru sremove l;
  l ← when_some lfu sremove l;
  brk_if (amount <? tot l) l.

(** ... for the score policy, ... *)
Definition score_bucket (now amount : Z) (i : nat) l : G (loopctl ev) :=
  s ← get;
  es ← loads (bucket_list s i);
  min_score ← score_walk (sd_mem (sd s)) now es minref_init None;
  l ← when_some min_score sremove l;
  brk_if (amount <? tot l) l.

(** ... and of the pass that removes whatever is left: each entry is removed
    when its successor is visited. *)
Definition force_visit (amount : Z) (curr : ptr) (x : ev * option ptr)
    : G (loopctl (ev * option ptr)) :=
  let '(l, latedel) := x in
  if decide (latedel = Some curr) then mret (Continue (l, Some curr))
  else
    l ← sremove latedel l;
    mret (if amount <? tot l then Break (l, None) else Continue (l, Some curr)).

Definition force_bucket (amount : Z) (i : nat) l : G (loopctl ev) :=
  s ← get;
  x ← for_each (bucket_list s i) (force_visit amount) (l, None);
  l ← when_some (snd x) sremove (fst x);
  brk_if (amount <? tot l) l.

Definition force_pass (amount : Z) l : G ev :=
  if tot l <? amount then for_each buckets (force_bucket amount) l else mret l.

(** The [while] around a policy's pass: until enough is freed or a pass
    removes nothing. *)
Definition policy_loop (amount : Z) (body : nat -> ev -> G (loopctl ev)) l : G ev :=
  while (env_fuel env) (fun l => tot l <? amount)
    (fun l =>
       l ← for_each buckets body (mk_ev (tot l) false);
       mret (if visited l then Continue l else Break l)) l.

Definition shared_cache_free (amount : Z) : G Z :=
  now ← NOW env;
  s ← get;
  let l0 := mk_ev 0 false in
  let mode := replacement_mode (cfg s) in
  l ← (if mode =? MCD_REPLACE_MODE_LFRU then
         l ← policy_loop amount (lfru_bucket now amount) l0; force_pass amount l
       else if mode =? MCD_REPLACE_MODE_FAST then force_pass amount l0
       else if mode =? MCD_REPLACE_MODE_SCORE then
         l ← policy_loop amount (score_bucket now amount) l0; force_pass amount l
       else mret l0);
  mret (if tot l <? amount then - ERR_NOTMEM else - ERR_NO).

(** ** The partitioned cache *)

Definition premove (domid : Z) (mh : option ptr) l : G ev :=
  b ← p_remove_hashT env domid mh MOVE_TO_SSD;
  mret (mk_ev (u64 (tot l + b)) true).

Definition domids s : list Z := md_domid <$> doms s.

Definition dom_list (dp : dom_ptr) : G (list ptr) := d ← dom_load dp; mret (md_hash_list d).

Definition dom_usage_update_all : G unit :=
  free ← get_free_mem_size env;
  modify (fun s => s <| cfg ::= fun c => c <| current_free_memory_bytes := free |> |>);;
  s ← get;
  for_each (domids s)
    (fun d _ => (if d =? 0 then mret tt else dom_usage_update env d);; mret (Continue tt)) tt.

(** [total_weight <= 0] on an unsigned variable. *)
Definition dom_weight_update : G unit :=
  s ← get;
  let tw := total_weight (cfg s) in
  if tw <=? 0 then modify (fun s => s <| cfg ::= fun c => c <| total_weight := 0 |> |>)
  else
    modify (fun s => s <| doms ::= fmap (fun d =>
      d <| md_ratio := u32 (md_weight d * 100) / tw |>) |>).

(** A walk that removes every entry when its successor is visited. *)
Definition drain_visit (domid : Z) (curr : ptr) (x : ev * option ptr)
    : G (loopctl (ev * option ptr)) :=
  let '(l, latedel) := x in
  l ← when_some latedel (premove domid) l;
  mret (Continue (l, Some curr)).

Definition drain (domid : Z) (ps : list ptr) l : G ev :=
  x ← for_each ps (drain_visit domid) (l, None);
  when_some (snd x) (premove domid) (fst x).

(** [REPLACE_MODE_SUBROUTINE()] for the domain [dp]. The variable [lfu] is
    NULL whenever the macro starts: the macro resets it when it removes the
    entry. *)
Definition replace_mode_subroutine (now : Z) (dp : dom_ptr) l : G ev :=
  s ← get;
  d ← dom_load dp;
  let mode := replacement_mode (cfg s) in
  if mode =? MCD_REPLACE_MODE_LFRU then
    es ← loads (md_hash_list d);
    let '(lru, lfu) := lfru_scan now es in
    l ← (if decide (lru = lfu) then mret l else when_some lru (premove (md_domid d)) l);
    when_some lfu (premove (md_domid d)) l
  else if mode =? MCD_REPLACE_MODE_FAST then
    drain (md_domid d) (md_hash_list d) l
  else if mode =? MCD_REPLACE_MODE_SCORE then
    es ← loads (md_hash_list d);
    min_score ← score_walk (sd_mem (sd s)) now es minref_init None;
    when_some min_score (premove (md_domid d)) l
  else mret l.

Definition FAIR_RATE (d : mcd_domain) : G Z := div_or_trap (md_curr d) (u32 (md_ratio d + 1)).

(** "Brutally free up randomly": entry by entry, domain by domain; the
    second component says that the function returned from inside. *)
Definition brutal_visit (amount domid : Z) (curr : ptr) (x : ev * option ptr * bool)
    : G (loopctl (ev * option ptr * bool)) :=
  let '(l, latedel, _) := x in
  l ← when_some latedel (premove domid) l;
  mret (match latedel with
        | Some _ => if amount <? tot l then Break (l, None, true) else Continue (l, Some curr, false)
        | None => Continue (l, Some curr, false)
        end).

Definition brutal_dom (amount domid : Z) (x : ev * bool) : G (loopctl (ev * bool)) :=
  ps ← dom_list (DomAt domid);
  y ← for_each ps (brutal_visit amount domid) (fst x, None, false);
  let '(l, latedel, ret) := y in
  if ret : bool then mret (Break (l, true))
  else
    l ← when_some latedel (premove domid) l;
    mret (match latedel with
          | Some _ => if amount <? tot l then Break (l, true) else Continue (l, false)
          | None => Continue (l, false)
          end).

(** One phase of the weight-based policy: the subroutine on the domains that
    [skip] does not exclude and [over] selects. *)
Definition wb_visit (now amount : Z) (skip : Z -> bool) (over : mcd_domain -> G bool)
    (d : Z) l : G (loopctl ev) :=
  if skip d then mret (Continue l)
  else
    dom ← dom_load (DomAt d);
    o ← over dom;
    l ← (if o : bool then replace_mode_subroutine now (DomAt d) l else mret l);
    brk_if (amount <? tot l) l.

Definition wb_phase (now amount : Z) (skip : Z -> bool) (over : mcd_domain -> G bool) l : G ev :=
  if tot l <? amount then
    while (env_fuel env) (fun l => tot l <? amount)
      (fun l =>
         s ← get;
         l ← for_each (domids s) (wb_visit now amount skip over) (mk_ev (tot l) false);
         mret (if visited l then Continue (mk_ev (tot l) false) else Break l)) l
  else mret l.

(** "Self brutally release": the loop has no exit for a pass that removes
    nothing. *)
Definition wb_self_visit (amount domid : Z) (d : Z) l : G (loopctl ev) :=
  if negb (d =? domid) then mret (Continue l)
  else
    dom ← dom_load (DomAt d);
    if md_curr dom <=? 0 then mret (Break l)
    else
      l ← drain d (md_hash_list dom) l;
      brk_if (amount <? tot l) l.

Definition wb_self_brutal (amount domid : Z) l : G ev :=
  s ← get;
  if (tot l <? amount) && (replacement_mode (cfg s) =? MCD_REPLACE_MODE_LFRU) then
    while (env_fuel env) (fun l => tot l <? amount)
      (fun l =>
         s ← get;
         l ← for_each (domids s) (wb_self_visit amount domid) l;
         mret (Continue l)) l
  else mret l.

Definition partition_cf_weight_based (amount domid : Z) : G Z :=
  now ← NOW env;
  dom_usage_update_all;;
  s ← get;
  x ← (if domid =? 0
       then for_each (domids s) (brutal_dom amount) (mk_ev 0 false, false)
       else mret (mk_ev 0 false, false));
  if snd x : bool then mret (- ERR_NO)
  else
    s ← get;
    fair_rate ← for_each (domids s)
      (fun d r => if d =? domid
                  then dom ← dom_load (DomAt d); r ← FAIR_RATE dom; mret (Continue r)
                  else mret (Continue r)) 0;
    let other d := d =? domid in
    let self d := negb (d =? domid) in
    l ← wb_phase now amount other (fun d => r ← FAIR_RATE d; mret (fair_rate <? r)) (fst x);
    l ← wb_phase now amount self (fun d => mret (100 <? md_curr d)) l;
    l ← wb_phase now amount other (fun d => mret (100 <? md_curr d)) l;
    l ← wb_phase now amount self (fun d => mret (0 <? md_curr d)) l;
    l ← wb_self_brutal amount domid l;
    mret (if tot l <? amount then - ERR_NOTMEM else - ERR_NO).

(** The macros [MISSRATE] and [COST]. *)
Definition MISSRATE (d : mcd_domain) : Z := u32 (100 - md_hitrate d).
Definition COST (d : mcd_domain) (max : Z) : Z :=
  (u32 (MISSRATE d * u32 (md_rec_cost_avg d * 100)) / max) / 100.

Definition ad_max_rec_cost (ds : list mcd_domain) : Z :=
  foldl (fun m d => if m <? md_rec_cost_avg d then md_rec_cost_avg d else m) 1 ds.

(** The first domain of least cost below [~0]. *)
Definition ad_pick (max : Z) (ds : list mcd_domain) : Z * option Z :=
  foldl (fun '(hr_val, hr_dom) d =>
           if COST d max <? hr_val then (COST d max, Some (md_domid d)) else (hr_val, hr_dom))
        (2 ^ 32 - 1, None) ds.

Definition ad_loop (now amount : Z) (dp : dom_ptr) l : G ev :=
  while (env_fuel env) (fun l => tot l <? amount)
    (fun l =>
       l ← replace_mode_subroutine now dp (mk_ev (tot l) false);
       mret (if visited l then Continue l else Break l)) l.

Definition partition_cf_adaptive_dynamic (amount domid : Z) : G Z :=
  now ← NOW env;
  s ← get;
  let max_rec_cost := ad_max_rec_cost (doms s) in
  dp ← (match snd (ad_pick max_rec_cost (doms s)) with
        | Some d => mret (DomAt d)
        | None => find_mcd_dom domid
        end);
  l ← ad_loop now amount dp (mk_ev 0 false);
  dp ← find_mcd_dom domid;
  l ← ad_loop now amount dp l;
  mret (if tot l <? amount then - ERR_NOTMEM else - ERR_NO).

Definition partition_cache_free (amount domid : Z) : G Z :=
  s ← get;
  let mode := partition_mode (cfg s) in
  if mode =? MCD_PARTITION_MODE_WB then partition_cf_weight_based amount domid
  else if mode =? MCD_PARTITION_MODE_AD then partition_cf_adaptive_dynamic amount domid
  else mret (- ERR_NO).

(** ** Allocation *)

Definition SAFETY_BYTES : Z := PAGE_SIZE.

Definition cache_free (amount domid : Z) : G Z :=
  s ← get;
  if cache_mode (cfg s) =? MCD_CACHE_MODE_SHARED
  then shared_cache_free amount
  else partition_cache_free amount domid.

Definition mcd_malloc (size domid : Z) : G (option ptr) :=
  max_bytes ← get_tot_mem_size env;
  if size =? 0 then mret None
  else
    s ← get;
    rc ← (if max_bytes <=? u64 (u64 (TOT_USED_BYTES s + size) + SAFETY_BYTES)
          then cache_free (u64 (size + SAFETY_BYTES)) domid
          else mret (- ERR_NO));
    val ← (if rc =? - ERR_NO then xmalloc env size else mret None);
    rc ← (match val with
          | None => cache_free (u64 (size + SAFETY_BYTES)) domid
          | Some _ => mret rc
          end);
    if negb (rc =? - ERR_NO) then mret None
    else match val with
         | Some _ => mret val
         | None => xmalloc env size
         end.

(** ** Creation of an entry *)

(** The size of the allocation: the header, the key and the value, rounded
    up to whole pages or to the alignment. *)
Definition entry_size (key_size val_size : Z) : Z :=
  let size := u64 (sizeof_mcd_hashT env + key_size + val_size) in
  if PAGE_SIZE <? size then u64 (size + (PAGE_SIZE - size mod PAGE_SIZE))
  else if 0 <? size mod MEM_ALIGN then u64 (size + (MEM_ALIGN - size mod MEM_ALIGN))
  else size.

Definition uninit p (n : nat) : list Z := env_garbage env p <$> seq 0 n.

Definition data_charge_shr e (g : g_mcd_data) : g_mcd_data :=
  g <| shr_nr_pages := u32 (shr_nr_pages g + mh_nr_pages e) |>
    <| shr_nr_bytes := u64 (shr_nr_bytes g + mh_nr_bytes e) |>
    <| shr_nr_keys := u32 (shr_nr_keys g + 1) |>.

Definition data_charge_pri e (g : g_mcd_data) : g_mcd_data :=
  g <| pri_nr_pages := u32 (pri_nr_pages g + mh_nr_pages e) |>
    <| pri_nr_bytes := u64 (pri_nr_bytes g + mh_nr_bytes e) |>
    <| pri_nr_keys := u32 (pri_nr_keys g + 1) |>.

Definition dom_charge e (d : mcd_domain) : mcd_domain :=
  d <| md_nr_used_pages := u32 (md_nr_used_pages d + mh_nr_pages e) |>
    <| md_nr_used_bytes := u64 (md_nr_used_bytes d + mh_nr_bytes e) |>
    <| md_nr_keys := u32 (md_nr_keys d + 1) |>.

Definition new_entry (domid key_size val_size size put_time : Z) p : mcd_hashT :=
  {| mh_magic := MAGIC; mh_domain := domid;
     mh_flags := if val_size =? 0 then MCD_HASHT_MEASUREMENT else MCD_HASHT_NORMAL;
     mh_nr_pages := u32 (size / PAGE_SIZE + (if 0 <? size mod PAGE_SIZE then 1 else 0));
     mh_nr_bytes := u32 size; mh_ref := 0; mh_put_time := put_time;
     mh_query_time_ms := 0; mh_hash := 0;
     mh_key_size := key_size; mh_val_size := val_size;
     mh_key_val := uninit p (Z.to_nat (key_size + val_size)) |}.

(** The macro [set_val_size]: what it raises is [query_max]. *)
Definition note_val_size (val_size : Z) (x : g_score_data) : g_score_data :=
  x <| sd_mem ::= fun m =>
    m <| query_max ::= fun q => if q <? val_size then val_size else q |> |>.

Definition create_mcd_hashT (domid key_size val_size : Z) : G (option ptr) :=
  let size := entry_size key_size val_size in
  mh ← mcd_malloc size domid;
  match mh with
  | None => mret None
  | Some p =>
      now ← NOW env;
      let e := new_entry domid key_size val_size size now p in
      store p e;;
      modify (fun s => s <| sd ::= note_val_size val_size |>);;
      modify (fun s => s <| mcd_data ::=
        if cache_mode (cfg s) =? MCD_CACHE_MODE_SHARED
        then data_charge_shr e else data_charge_pri e |>);;
      dp ← find_mcd_dom domid;
      dom_update dp (dom_charge e);;
      mret (Some p)
  end.

End Evict.
