(* ===== verification/Evicted.v ===== *)
(** What eviction may do to the cache: the relation [evicted], its step (the
    removal of one entry) and the bookkeeping of the bytes that were freed. *)
From S2P Require Import Prelude CMonad Types State Core Evict Inv Remove.

Section Evicted.
Context {B : Type} `{!Minf B, !MinfLaws B}.
Implicit Types (s : gstate B) (p q : ptr) (e : mcd_hashT) (d : mcd_domain).

Definition live s : list ptr := all_ptrs [] [] s.
Definition num s : nat := length (live s).
Definition bytes s : Z := hsum (heap s) mh_nr_bytes (live s).

(** A domain keeps everything but its usage figures and a part of its list. *)
Record dom_shrunk d0 d : Prop := {
  ds_domid : md_domid d = md_domid d0;
  ds_list : md_hash_list d `sublist_of` md_hash_list d0;
  ds_weight : md_weight d = md_weight d0;
  ds_ratio : md_ratio d = md_ratio d0;
  ds_avail : md_nr_avail d = md_nr_avail d0;
  ds_reset : md_reset d = md_reset d0;
  ds_succ : md_get_succ d = md_get_succ d0;
  ds_fail : md_get_fail d = md_get_fail d0;
  ds_hitrate : md_hitrate d = md_hitrate d0;
  ds_rec : md_rec_cost_avg d = md_rec_cost_avg d0;
}.

#[export] Instance dom_shrunk_preorder : PreOrder dom_shrunk.
Proof. split; [by split|]. intros d1 d2 d3 [] []. split; try congruence. by etransitivity. Qed.

(** Entries disappear, those that remain are unchanged and keep their order,
    and the configuration stays. *)
Record evicted s0 s : Prop := {
  evi_heap : heap s ⊆ heap s0;
  evi_shared : Forall2 (flip sublist) (shared s0) (shared s);
  evi_doms : Forall2 dom_shrunk (doms s0) (doms s);
  evi_cfg : cfg s = (cfg s0) <| current_free_memory_bytes := current_free_memory_bytes (cfg s) |>;
  evi_sd : sd s = sd s0;
  evi_st : st s = st s0;
  evi_xdoms : xdoms s = xdoms s0;
  evi_next : next_ptr s0 <= next_ptr s;
  evi_rvs : out_rvs s = out_rvs s0;
  evi_val : out_val s = out_val s0;
  evi_mc : mc_keep s0 s;
}.

Lemma Forall2_refl {A} (R : A -> A -> Prop) `{!Reflexive R} l : Forall2 R l l.
Proof. induction l; by constructor. Qed.

#[export] Instance evicted_preorder : PreOrder evicted.
Proof.
  split.
  - intros s. split; try done; try (apply Forall2_refl; apply _); by destruct (cfg s).
  - intros s1 s2 s3 [] []. split; try congruence;
      [by etransitivity| |by etransitivity| |lia|by eapply mc_keep_trans].
    + eapply Forall2_trans; [|done..]. intros l1 l2 l3 H1 H2. by transitivity l2.
    + rewrite evi_cfg1, evi_cfg0. done.
Qed.

Lemma sim_evicted s s' : sim s s' -> evicted s s'.
Proof.
  intros []. split; try done; [by rewrite sim_heap| |].
  - rewrite sim_shared. apply Forall2_refl, _.
  - eapply Forall2_impl; [done|]. intros d d' ->. by split.
Qed.

Lemma evicted_domids s s' : evicted s s' -> domids s' = domids s.
Proof.
  intros H. pose proof (evi_doms _ _ H) as Hd.
  induction Hd as [|d d' ds ds' Hd _ IH]; simpl; [done|]. f_equal; [apply Hd|done].
Qed.

Lemma evicted_mode s s' : evicted s s' ->
  cache_mode (cfg s') = cache_mode (cfg s) /\ replacement_mode (cfg s') = replacement_mode (cfg s) /\
  partition_mode (cfg s') = partition_mode (cfg s).
Proof. intros H. rewrite (evi_cfg _ _ H). done. Qed.

Lemma drop_entry_evicted shr p e s : NoDup (domids s) -> evicted s (drop_entry shr p e s).
Proof.
  intros Hnd. split; try done.
  - apply delete_subseteq.
  - cbn. apply Forall2_fmap_r. induction (shared s); constructor; [apply drop_elem_sublist|done].
  - rewrite drop_entry_doms by done. apply Forall2_fmap_r.
    induction (doms s) as [|d ds IH]; constructor; [|apply IH; by apply NoDup_cons in Hnd as [_ ?]].
    cbn. unfold drop_dom.
    destruct (md_domid d =? mh_domain e); split; cbn; try done; apply drop_elem_sublist.
  - cbn. by destruct (cfg s).
Qed.

(** ** The effect of one removal *)

Section Step.
Context (shr : bool) (p : ptr) (e : mcd_hashT) (s s' : gstate B).
Context (HI : wf s) (Hp : heap s !! p = Some e).
Context (Hin : p ∈ (if shr then shr_ptrs s else pri_ptrs s)).
Context (Hs' : sim (drop_entry shr p e s) s').

Lemma step_wf : wf s'.
Proof using HI Hp Hin Hs'. eapply wf_sim; [done|]. by apply wf_drop_entry. Qed.

Lemma step_evicted : evicted s s'.
Proof using HI Hs'.
  etransitivity; [apply (drop_entry_evicted shr p e); apply (wf_lists _ _ _ HI)|].
  by apply sim_evicted.
Qed.

Lemma step_live : live s' = unlink p (live s).
Proof using HI Hp Hin Hs'.
  unfold live. rewrite (sim_all_ptrs _ _ _ _ Hs'). by apply drop_all_ptrs.
Qed.

Lemma step_num : num s = S (num s').
Proof using HI Hp Hin Hs'.
  unfold num. rewrite step_live. apply length_drop_elem; [apply (wf_lists _ _ _ HI)|].
  by eapply drop_in_all.
Qed.

Lemma step_bytes : bytes s' = bytes s - mh_nr_bytes e.
Proof using HI Hp Hin Hs'.
  unfold bytes. rewrite step_live, (sim_heap _ _ Hs'). cbn.
  apply hsum_drop; [apply (wf_lists _ _ _ HI)| |done]. by eapply drop_in_all.
Qed.

Lemma step_shared : shared s' = unlink p <$> shared s.
Proof using Hs'. apply (sim_shared _ _ Hs'). Qed.

Lemma step_shr_ptrs : shr_ptrs s' = unlink p (shr_ptrs s).
Proof using Hs'. rewrite (sim_shr_ptrs _ _ Hs'). apply drop_entry_shr_ptrs. Qed.

Lemma step_pri_ptrs : pri_ptrs s' = unlink p (pri_ptrs s).
Proof using HI Hs'.
  rewrite (sim_pri_ptrs _ _ Hs'). apply drop_entry_pri_ptrs. apply (wf_lists _ _ _ HI).
Qed.
End Step.

(** A live entry is charged to one side. *)
Lemma live_split s : live s = shr_ptrs s ++ pri_ptrs s.
Proof. unfold live, all_ptrs. by rewrite !app_nil_r. Qed.

Lemma shr_pri_disjoint s p : wf s -> p ∈ shr_ptrs s -> p ∉ pri_ptrs s.
Proof.
  intros H Hp. pose proof (lo_nodup _ _ _ (wf_lists _ _ _ H)) as Hnd.
  change (NoDup (live s)) in Hnd. rewrite live_split in Hnd.
  apply NoDup_app in Hnd as (_ & Hd & _). by apply Hd.
Qed.

Lemma live_entry s p : wf s -> p ∈ shr_ptrs s ++ pri_ptrs s -> exists e, heap s !! p = Some e.
Proof.
  intros H Hp. apply (lo_live _ _ _ (wf_lists _ _ _ H)).
  change (p ∈ live s). by rewrite live_split.
Qed.

Lemma bucket_in_shr s i p : p ∈ bucket_list s i -> p ∈ shr_ptrs s.
Proof.
  unfold bucket_list, shr_ptrs. intros Hp. apply elem_of_concat.
  destruct (shared s !! i) as [l|] eqn:Hi; simpl in Hp; [|set_solver].
  exists l. split; [by eapply list_elem_of_lookup_2|done].
Qed.

Lemma bucket_nodup s i : wf s -> NoDup (bucket_list s i).
Proof.
  intros H. pose proof (lo_nodup _ _ _ (wf_lists _ _ _ H)) as Hnd.
  change (NoDup (live s)) in Hnd. rewrite live_split in Hnd. apply NoDup_app in Hnd as (Hnd & _ & _).
  unfold bucket_list. destruct (shared s !! i) as [l|] eqn:Hi; simpl; [|constructor].
  unfold shr_ptrs in Hnd. apply list_elem_of_split_length in Hi as (l1 & l2 & Heq & _).
  rewrite Heq, concat_app in Hnd. simpl in Hnd.
  apply NoDup_app in Hnd as (_ & _ & Hnd). by apply NoDup_app in Hnd as (? & _).
Qed.

Lemma dom_list_in_pri s d p : d ∈ doms s -> p ∈ md_hash_list d -> p ∈ pri_ptrs s.
Proof. intros Hd Hp. unfold pri_ptrs. apply elem_of_concat. set_solver. Qed.

Lemma dom_list_nodup s d : wf s -> d ∈ doms s -> NoDup (md_hash_list d).
Proof.
  intros H Hd. pose proof (lo_nodup _ _ _ (wf_lists _ _ _ H)) as Hnd.
  change (NoDup (live s)) in Hnd. rewrite live_split in Hnd. apply NoDup_app in Hnd as (_ & _ & Hnd).
  unfold pri_ptrs in Hnd. apply list_elem_of_split in Hd as (l1 & l2 & Heq). rewrite Heq in Hnd.
  rewrite fmap_app, concat_app in Hnd. simpl in Hnd.
  apply NoDup_app in Hnd as (_ & _ & Hnd). by apply NoDup_app in Hnd as (? & _).
Qed.

End Evicted.
