(* ===== verification/EvictShared.v ===== *)
(** [shared_cache_free]: it terminates, keeps the invariant, removes entries
    only, and fails only when it has emptied the shared table; and which entry
    and which domain the replacement policies of xen/common/mcd.c choose. *)
From S2P Require Import Prelude CMonad Types State Core Evict Inv Remove Evicted.

(** * The victims of a walk *)

Section Walks.
Implicit Types (es : list (ptr * mcd_hashT)).

Lemma lfru_walk_in now es maxtime minref lru lfu lru' lfu' :
  lfru_walk now es maxtime minref lru lfu = (lru', lfu') ->
  (forall p, lru' = Some p -> p ∈ es.*1 \/ lru = Some p) /\
  (forall p, lfu' = Some p -> p ∈ es.*1 \/ lfu = Some p).
Proof.
  revert maxtime minref lru lfu.
  induction es as [|[p e] es IH]; intros maxtime minref lru lfu; simpl; [naive_solver|].
  repeat case_match; intros Hw; apply IH in Hw as [Hr Hf];
    (split; intros q Hq; [apply Hr in Hq|apply Hf in Hq]; set_solver).
Qed.

Lemma lfru_walk_distinct now es maxtime minref lru lfu lru' lfu' :
  NoDup (es.*1) -> (forall p, p ∈ es.*1 -> lru <> Some p /\ lfu <> Some p) ->
  (forall p, lru = Some p -> lfu <> Some p) ->
  lfru_walk now es maxtime minref lru lfu = (lru', lfu') ->
  forall p, lru' = Some p -> lfu' <> Some p.
Proof.
  revert maxtime minref lru lfu.
  induction es as [|[q e] es IH]; intros maxtime minref lru lfu; simpl; [naive_solver|].
  intros [Hq Hnd]%NoDup_cons Hout Hne.
  assert (Hin : forall p, p ∈ es.*1 -> p <> q) by (intros p Hp ->; done).
  repeat case_match; apply IH; try done; set_solver.
Qed.

Lemma lfru_scan_victims now es lru lfu : NoDup (es.*1) -> lfru_scan now es = (lru, lfu) ->
  (forall p, lru = Some p -> p ∈ es.*1) /\ (forall p, lfu = Some p -> p ∈ es.*1) /\
  (forall p, lru = Some p -> lfu <> Some p).
Proof.
  intros Hnd H. unfold lfru_scan in H. pose proof (lfru_walk_in _ _ _ _ _ _ _ _ H) as [H1 H2].
  split_and!.
  - intros p Hp. apply H1 in Hp. naive_solver.
  - intros p Hp. apply H2 in Hp. naive_solver.
  - by apply (lfru_walk_distinct now es 0 minref_init None None).
Qed.

(** The LFRU walk finds a victim in any list that holds an entry put before
    [now], or an entry that was read fewer than 2^31 - 1 times. *)
Lemma lfru_walk_finds now es maxtime minref lru lfu :
  lru <> None \/ lfu <> None \/
  (exists p e, (p, e) ∈ es /\ (maxtime < s64 (now - mh_put_time e) \/ mh_ref e < minref)) ->
  lfru_walk now es maxtime minref lru lfu <> (None, None).
Proof.
  revert maxtime minref lru lfu.
  induction es as [|[q e] es IH]; intros maxtime minref lru lfu H; simpl.
  - destruct H as [H|[H|(p & e & H & _)]]; [destruct lru; congruence..|set_solver].
  - destruct (Z.ltb_spec maxtime (s64 (now - mh_put_time e))); [apply IH; by left|].
    destruct (Z.ltb_spec (mh_ref e) minref); [apply IH; right; by left|].
    apply IH. destruct H as [H|[H|(p & e' & H & Hc)]]; [by left|by right; left|].
    apply elem_of_cons in H as [[= -> ->]|H]; [lia|]. right; right. eauto.
Qed.

End Walks.

(** Reading the entries of a list. *)
Section Loads.
Context {B : Type} `{!Minf B} (tol : fault -> Prop).
Implicit Types (s : gstate B) (p q : ptr) (e : mcd_hashT).

Lemma loads_spec ps s : (forall p, p ∈ ps -> is_Some (heap s !! p)) ->
  wp tol (loads ps) (fun es s' => s' = s /\ es.*1 = ps /\
    forall p e, (p, e) ∈ es -> heap s !! p = Some e) s.
Proof.
  induction ps as [|p ps IH]; intros Hl; simpl; wp_steps; [set_solver|].
  destruct (Hl p) as [e He]; [set_solver|]. eapply wp_load; [done|]. wp_steps.
  eapply wp_mono; [apply IH; set_solver|]. intros es s' (-> & Hes & Hin). wp_steps.
  split_and!; [done|simpl; by f_equal|]. intros q e' [[= -> ->]|Hq]%elem_of_cons; auto.
Qed.

Lemma score_walk_spec sp now es minref m s : 1 <= query_max sp -> 1 <= val_max sp -> now <> 0 ->
  wp tol (score_walk sp now es minref m) (fun r s' => s' = s /\
    forall p, r = Some p -> p ∈ es.*1 \/ m = Some p) s.
Proof.
  intros Hq Hv Hn. revert minref m. induction es as [|[p e] es IH]; intros minref m; simpl; wp_steps.
  { naive_solver. }
  unfold SCORE. destruct (_ || _) eqn:Hz; [lia|]. wp_steps. repeat case_match.
  all: eapply wp_mono; [apply IH|]; intros r s' [-> Hr]; split; [done|]; intros q Hq';
    apply Hr in Hq'; set_solver.
Qed.

Lemma bucket_live s i : wf s -> forall p, p ∈ bucket_list s i -> is_Some (heap s !! p).
Proof.
  intros Hwf p Hp. apply bucket_in_shr in Hp. destruct (live_entry s p Hwf); [set_solver|eauto].
Qed.

Lemma shr_ptrs_empty s : length (shared s) = Z.to_nat MAX_LIST_HEAD ->
  (forall j, j ∈ buckets -> bucket_list s j = []) -> shr_ptrs s = [].
Proof.
  intros Hl He. unfold shr_ptrs. apply concat_nil_Forall. apply Forall_lookup. intros j ps Hj.
  specialize (He j). unfold bucket_list in He. rewrite Hj in He. apply He.
  apply elem_of_seq. apply lookup_lt_Some in Hj. lia.
Qed.

End Loads.

Section EvictShared.
Context {B : Type} `{!Minf B, !MinfLaws B} (env : Env) (tol : fault -> Prop).
Context (Hmini : forall b : B, mcdctl_enabled b = true -> tol NullDeref).
Context (Hnow : forall n, env_now env n <> 0).
Implicit Types (s : gstate B) (p q : ptr) (e : mcd_hashT) (l : ev).

(** What the loops keep: [tot] is what was freed since [s0]. *)
Definition progress (s0 : gstate B) l s : Prop :=
  Inv s /\ evicted s0 s /\ tot l = u64 (bytes s0 - bytes s) /\ pri_ptrs s = pri_ptrs s0.

Lemma progress_init s v : Inv s -> progress s (mk_ev 0 v) s.
Proof. intros HI. split_and!; [done|done| |done]. simpl. by rewrite Z.sub_diag. Qed.

Lemma progress_visited s0 l s v : progress s0 l s -> progress s0 (mk_ev (tot l) v) s.
Proof. intros (?&?&?&?). by split_and!. Qed.

Lemma sremove_spec s0 l s p : progress s0 l s -> p ∈ shr_ptrs s ->
  wp tol (sremove env (Some p) l) (fun l' s' => progress s0 l' s' /\ visited l' = true /\
    num s = S (num s') /\ shared s' = unlink p <$> shared s) s.
Proof.
  intros ((Hwf & Hc) & Hev & Htot & Hpri) Hin.
  destruct (live_entry s p Hwf) as [e He]; [set_solver|].
  unfold sremove. wp_steps.
  eapply wp_mono; [by apply (s_remove_spec env tol p e MOVE_TO_SSD s (Hmini (be s)))|].
  intros b s' (-> & Hs' & Hc'). wp_steps.
  split; [|split_and!; [done|by apply (step_num true p e)|by apply (step_shared true p e)]].
  split_and!; cbn.
  - split; [by apply (step_wf true p e s)|done].
  - etransitivity; [done|by apply (step_evicted true p e)].
  - rewrite (step_bytes true p e s s') by done. rewrite Htot. solve_wrap.
  - rewrite (step_pri_ptrs true p e s s') by done.
    rewrite drop_elem_notin by (by apply shr_pri_disjoint). done.
Qed.

(** ** One pass of a policy over the buckets *)

Definition unctl {L} (c : loopctl L) : L := match c with Continue l => l | Break l => l end.

(** What is asked of the loop body of a policy. *)
Definition pass_post s0 s1 l1 l s : Prop :=
  progress s0 l s /\ (num s <= num s1)%nat /\
  (visited l = true -> visited l1 = true \/ (num s < num s1)%nat).

Definition body_ok (body : nat -> ev -> M (gstate B) (loopctl ev)) : Prop :=
  forall s0 i l s, progress s0 l s ->
    wp tol (body i l) (fun c => pass_post s0 s l (unctl c)) s.

Lemma pass_post_trans s0 s1 l1 s2 l2 s3 l3 :
  pass_post s0 s1 l1 l2 s2 -> pass_post s0 s2 l2 l3 s3 -> pass_post s0 s1 l1 l3 s3.
Proof. intros (H1 & H2 & H3) (H4 & H5 & H6). split_and!; [done|lia|]. naive_solver lia. Qed.

Lemma pass_post_refl s0 s l : progress s0 l s -> pass_post s0 s l l s.
Proof. intros. split_and!; [done|lia|auto]. Qed.

Lemma when_sremove_spec s0 l s mh : progress s0 l s -> (forall p, mh = Some p -> p ∈ shr_ptrs s) ->
  wp tol (when_some mh (sremove env) l) (fun l' s' => pass_post s0 s l l' s' /\
    forall q, q ∈ shr_ptrs s -> mh <> Some q -> q ∈ shr_ptrs s') s.
Proof.
  intros Hpr Hin. destruct mh as [p|]; simpl; [|wp_steps; split; [by apply pass_post_refl|done]].
  eapply wp_mono; [apply (sremove_spec s0); [done|by apply Hin]|].
  intros l' s' (H1 & H2 & H3 & H4). split.
  - split_and!; [done|lia|intros _; right; lia].
  - intros q Hq Hne. unfold shr_ptrs in *. rewrite H4, <- drop_elem_concat.
    apply elem_of_drop_elem. split; [done|]. intros ->. done.
Qed.

Lemma lfru_bucket_ok now amount : body_ok (lfru_bucket env now amount).
Proof.
  intros s0 i l s Hpr. pose proof Hpr as ((Hwf & Hc) & _). unfold lfru_bucket. wp_steps.
  eapply wp_mono; [apply loads_spec, bucket_live; done|]. intros es s' (-> & Hes & Hin).
  destruct (lfru_scan now es) as [lru lfu] eqn:Hsc.
  apply lfru_scan_victims in Hsc as (H1 & H2 & H3); [|rewrite Hes; by apply bucket_nodup].
  rewrite Hes in *. wp_steps.
  eapply wp_mono; [apply (when_sremove_spec s0); [done|eauto using bucket_in_shr]|].
  intros l1 s1 [Hp1 Hk1]. wp_steps.
  eapply wp_mono; [apply (when_sremove_spec s0); [apply Hp1|]|].
  { intros p Hp. apply Hk1; [eauto using bucket_in_shr|]. intros ->. by apply (H3 p). }
  intros l2 s2 [Hp2 _]. unfold brk_if. wp_steps. eapply pass_post_trans; [exact Hp1|].
  by destruct (amount <? tot l2).
Qed.

Lemma score_bucket_ok now amount : now <> 0 -> body_ok (score_bucket env now amount).
Proof.
  intros Hn s0 i l s Hpr. pose proof Hpr as ((Hwf & Hc) & _). unfold score_bucket. wp_steps.
  eapply wp_mono; [apply loads_spec, bucket_live; done|]. intros es s' (-> & Hes & Hin).
  wp_steps. eapply wp_mono; [apply score_walk_spec; [apply (wf_cfg _ _ _ Hwf)..|done]|].
  intros r s1 [-> Hr]. wp_steps. eapply wp_mono; [apply (when_sremove_spec s0); [done|]|].
  { intros p Hp. apply Hr in Hp as [Hp|]; [|done]. rewrite Hes in Hp. by eapply bucket_in_shr. }
  intros l2 s2 [Hp2 _]. unfold brk_if. wp_steps. by destruct (amount <? tot l2).
Qed.

Lemma pass_spec s0 body ks l s : body_ok body -> progress s0 l s ->
  wp tol (for_each ks body l) (fun l' s' => pass_post s0 s l l' s') s.
Proof.
  intros Hb Hpr.
  apply (wp_for_each _ _ (fun _ l' s' => pass_post s0 s l l' s')); [by apply pass_post_refl|done|].
  intros i ks' l1 s1 H1. eapply wp_mono; [apply (Hb s0); apply H1|].
  intros c s2 H2. assert (H3 := pass_post_trans _ _ _ _ _ _ _ H1 H2). by destruct c.
Qed.

Lemma policy_loop_spec s0 amount body l s : body_ok body -> progress s0 l s ->
  (num s < env_fuel env)%nat ->
  wp tol (policy_loop env amount body l) (fun l' s' => progress s0 l' s') s.
Proof.
  intros Hb Hpr Hf. unfold policy_loop.
  apply (wp_while _ _ _ (fun l s => progress s0 l s) (fun _ s => num s)); [done|done|done|].
  intros l1 s1 H1 _. wp_steps.
  eapply wp_mono; [apply (pass_spec s0); [done|by apply progress_visited]|].
  intros l2 s2 (H2 & H3 & H4). wp_steps.
  destruct (visited l2) eqn:Hv; [|done]. split; [done|].
  destruct (H4 eq_refl) as [|]; [done|lia].
Qed.

(** ** The pass that removes everything *)

Definition late_list (x : option ptr) : list ptr := match x with Some p => [p] | None => [] end.

Lemma force_visit_spec s0 amount i ps (curr : ptr) x s :
  progress s0 (fst x) s -> shared s !! i = Some (late_list (snd x) ++ curr :: ps) ->
  wp tol (force_visit env amount curr x) (fun c s' => progress s0 (fst (unctl c)) s' /\
    (forall j, j <> i -> bucket_list s j = [] -> bucket_list s' j = []) /\
    match c with
    | Continue x' => shared s' !! i = Some (late_list (snd x') ++ ps)
    | Break x' => snd x' = None /\ amount < tot (fst x')
    end) s.
Proof.
  intros Hpr Hi. destruct x as [l late]. simpl in *. pose proof Hpr as ((Hwf & _) & _).
  pose proof (bucket_nodup s i Hwf) as Hnd. unfold bucket_list in Hnd. rewrite Hi in Hnd. simpl in Hnd.
  destruct late as [q|]; simpl in *.
  - apply NoDup_cons in Hnd as [Hq Hnd].
    rewrite decide_False by (intros [= ->]; set_solver). wp_steps.
    eapply wp_mono; [apply (sremove_spec s0); [done|]|].
    { apply (bucket_in_shr s i). unfold bucket_list. rewrite Hi. set_solver. }
    intros l' s' (H1 & H2 & H3 & H4).
    assert (H5 : forall j, j <> i -> bucket_list s j = [] -> bucket_list s' j = []).
    { intros j _. unfold bucket_list. rewrite H4, list_lookup_fmap.
      destruct (shared s !! j); simpl; [by intros ->|done]. }
    wp_steps. destruct (Z.ltb_spec amount (tot l')); simpl; split_and!; try done.
    rewrite H4, list_lookup_fmap, Hi. simpl. by rewrite drop_elem_cons.
  - unfold sremove, s_remove_hashT. wp_steps. assert (Ht : u64 (tot l + 0) = tot l).
    { destruct Hpr as (_ & _ & -> & _). rewrite Z.add_0_r. apply wrap_idem. lia. }
    rewrite Ht.
    assert (H1 : progress s0 (mk_ev (tot l) true) s) by (by apply progress_visited).
    cbn [tot]. destruct (Z.ltb_spec amount (tot l)); (split; [exact H1|by split]).
Qed.

Lemma force_bucket_spec s0 amount i l s : (i < Z.to_nat MAX_LIST_HEAD)%nat -> progress s0 l s ->
  wp tol (force_bucket env amount i l) (fun c s' => progress s0 (unctl c) s' /\
    (forall j, j <> i -> bucket_list s j = [] -> bucket_list s' j = []) /\
    match c with
    | Continue l' => bucket_list s' i = []
    | Break l' => amount < tot l'
    end) s.
Proof.
  intros Hlt Hpr. pose proof Hpr as ((Hwf & _) & _). unfold force_bucket. wp_steps.
  destruct (lookup_lt_is_Some_2 (shared s) i) as [ps0 Hi].
  { by rewrite (lo_len _ _ _ (wf_lists _ _ _ Hwf)). }
  assert (Hb : bucket_list s i = ps0) by (unfold bucket_list; by rewrite Hi). rewrite Hb.
  eapply wp_mono with (Q := fun x s' => progress s0 (fst x) s' /\
    (forall j, j <> i -> bucket_list s j = [] -> bucket_list s' j = []) /\
    (shared s' !! i = Some (late_list (snd x)) \/ snd x = None /\ amount < tot (fst x))).
  { apply (wp_for_each _ _ (fun ps x s' => progress s0 (fst x) s' /\
      (forall j, j <> i -> bucket_list s j = [] -> bucket_list s' j = []) /\
      shared s' !! i = Some (late_list (snd x) ++ ps))); [done| |].
    - intros x s' (H1 & H2 & H3). rewrite app_nil_r in H3. naive_solver.
    - intros curr ps x s1 (H1 & H2 & H3).
      eapply wp_mono; [by apply (force_visit_spec s0 amount i ps)|].
      intros [x'|x'] s2 (H4 & H5 & H6); simpl in *; split_and!; auto. }
  intros [l1 late] s1 (H1 & H2 & H3). simpl in *. wp_steps. destruct late as [q|]; simpl.
  - destruct H3 as [H3|[]]; [|done]. simpl in H3.
    eapply wp_mono; [apply (sremove_spec s0); [done|]|].
    { apply (bucket_in_shr s1 i). unfold bucket_list. rewrite H3. set_solver. }
    intros l2 s2 (H4 & _ & _ & H5). unfold brk_if. wp_steps.
    assert (H6 : forall j, bucket_list s1 j = [] -> bucket_list s2 j = []).
    { intros j. unfold bucket_list. rewrite H5, list_lookup_fmap.
      destruct (shared s1 !! j); simpl; [by intros ->|done]. }
    destruct (Z.ltb_spec amount (tot l2)); split_and!; simpl; auto.
    unfold bucket_list. rewrite H5, list_lookup_fmap, H3. simpl. by rewrite drop_elem_cons by set_solver.
  - unfold brk_if. wp_steps. destruct (Z.ltb_spec amount (tot l1)); split_and!; simpl; auto.
    destruct H3 as [H3|[]]; [|lia]. unfold bucket_list. by rewrite H3.
Qed.

Lemma force_pass_spec s0 amount l s : progress s0 l s ->
  wp tol (force_pass env amount l) (fun l' s' => progress s0 l' s' /\
    (shr_ptrs s' = [] \/ amount <= tot l')) s.
Proof.
  intros Hpr. unfold force_pass. destruct (Z.ltb_spec (tot l) amount); wp_steps; [|auto with lia].
  apply (wp_for_each _ _ (fun ks l' s' => (forall i, i ∈ ks -> i ∈ buckets) /\ progress s0 l' s' /\
    forall j, j ∈ buckets -> j ∉ ks -> bucket_list s' j = [])).
  - split_and!; [done|done|]. intros j Hj Hn. done.
  - intros l' s' (_ & H1 & H2). split; [done|]. left.
    apply shr_ptrs_empty; [apply H1|]. intros j Hj. apply H2; [done|set_solver].
  - intros i ks l1 s1 (H0 & H1 & H2).
    assert (Hi : i ∈ buckets) by set_solver. apply elem_of_seq in Hi.
    eapply wp_mono; [apply (force_bucket_spec s0); [lia|done]|].
    intros [l2|l2] s2 (H3 & H4 & H5); simpl in *; [|auto with lia].
    split_and!; [set_solver|done|]. intros j Hj Hn.
    destruct (decide (j = i)) as [->|]; [done|]. apply H4; [done|]. apply H2; [done|set_solver].
Qed.

(** ** The whole function *)

Lemma shared_cache_free_spec amount s : Inv s -> (num s < env_fuel env)%nat ->
  wp tol (shared_cache_free env amount) (fun rc s' => Inv s' /\ evicted s s' /\
    pri_ptrs s' = pri_ptrs s /\
    (rc = - ERR_NO /\ amount <= u64 (bytes s - bytes s') \/
     rc = - ERR_NOTMEM /\ u64 (bytes s - bytes s') < amount /\ shr_ptrs s' = [])) s.
Proof.
  intros HI Hf. unfold shared_cache_free. wp_steps.
  eapply wp_mono; [apply NOW_spec, HI|]. intros now s1 (-> & Hs1 & Hc1). wp_steps.
  assert (Hp0 : progress s (mk_ev 0 false) s1).
  { pose proof (sim_all_ptrs [] [] _ _ Hs1) as Hall. split_and!.
    - split; [by eapply wf_sim; [|apply HI]|done].
    - by apply sim_evicted.
    - unfold bytes, live. rewrite Hall, (sim_heap _ _ Hs1), Z.sub_diag. done.
    - by apply sim_pri_ptrs. }
  assert (Hn : num s1 = num s) by (unfold num, live; by rewrite (sim_all_ptrs _ _ _ _ Hs1)).
  pose proof (co_replace _ (wf_cfg _ _ _ (proj1 (proj1 Hp0)))) as Hmode.
  eapply wp_mono with (Q := fun l' s' => progress s l' s' /\ (shr_ptrs s' = [] \/ amount <= tot l')).
  - destruct (Z.eqb_spec (replacement_mode (cfg s1)) MCD_REPLACE_MODE_LFRU).
    { wp_steps. eapply wp_mono; [apply (policy_loop_spec s); [apply lfru_bucket_ok|done|lia]|].
      intros l' s' Hpr. by apply force_pass_spec. }
    destruct (Z.eqb_spec (replacement_mode (cfg s1)) MCD_REPLACE_MODE_FAST).
    { by apply force_pass_spec. }
    destruct (Z.eqb_spec (replacement_mode (cfg s1)) MCD_REPLACE_MODE_SCORE).
    { wp_steps. eapply wp_mono; [apply (policy_loop_spec s); [by apply score_bucket_ok|done|lia]|].
      intros l' s' Hpr. by apply force_pass_spec. }
    unfold MCD_REPLACE_MODE_MAX, MCD_REPLACE_MODE_LFRU, MCD_REPLACE_MODE_FAST,
      MCD_REPLACE_MODE_SCORE in *. lia.
  - intros l' s' ((HI' & Hev & Htot & Hpri) & Hend). wp_steps. rewrite Htot in *.
    destruct (Z.ltb_spec (u64 (bytes s - bytes s')) amount); split_and!; try done; [right|by left].
    destruct Hend; [done|lia].
Qed.

End EvictShared.

(** * The victims of the policies *)

Section Victims.
Implicit Types (es : list (ptr * mcd_hashT)) (e : mcd_hashT).

(** ** LFRU: the oldest entry *)

(** The time since the entry was put, as the signed difference of the code. *)
Definition age (now : Z) e : Z := s64 (now - mh_put_time e).

Definition oldest (now low : Z) es (r : option ptr) : Prop :=
  match r with
  | None => forall p e, (p, e) ∈ es -> age now e <= low
  | Some p => exists e, (p, e) ∈ es /\ low < age now e /\ forall q e', (q, e') ∈ es -> age now e' <= age now e
  end.

Lemma lfru_walk_oldest now es maxtime minref lru lfu :
  (exists r, oldest now maxtime es r /\
     (lfru_walk now es maxtime minref lru lfu).1 = match r with Some p => Some p | None => lru end).
Proof.
  revert maxtime minref lru lfu. induction es as [|[p e] es IH]; intros maxtime minref lru lfu; cbn.
  { exists None. split; [|done]. intros p e. by intros ?%elem_of_nil. }
  change (s64 (now - mh_put_time e)) with (age now e).
  destruct (Z.ltb_spec maxtime (age now e)) as [Hlt|Hge].
  - destruct (IH (age now e) minref (Some p) lfu) as (r & Hr & ->). destruct r as [q|]; cbn in Hr.
    + destruct Hr as (e' & Hin & Hl & Hall). exists (Some q). split; [|done].
      exists e'. split; [by right|]. split; [lia|]. intros q' e'' [[= -> ->]|H]%elem_of_cons; [lia|by apply (Hall q')].
    + exists (Some p). split; [|done]. exists e. split; [by left|]. split; [lia|].
      intros q' e'' [[= -> ->]|H]%elem_of_cons; [lia|by apply (Hr q')].
  - assert (Hstep : forall m lf, exists r, oldest now maxtime ((p, e) :: es) r /\
      (lfru_walk now es maxtime m lru lf).1 = match r with Some p => Some p | None => lru end).
    { intros m lf. destruct (IH maxtime m lru lf) as (r & Hr & ->). exists r. split; [|done].
      destruct r as [q|]; cbn in *.
      - destruct Hr as (e' & Hin & Hl & Hall). exists e'. split; [by right|]. split; [done|].
        intros q' e'' [[= -> ->]|H]%elem_of_cons; [lia|by apply (Hall q')].
      - intros q' e'' [[= -> ->]|H]%elem_of_cons; [lia|by apply (Hr q')]. }
    destruct (mh_ref e <? minref); apply Hstep.
Qed.

(** The first victim of the LFRU policy is an entry of the list that was
    put before [now] and is at least as old as every other; there is none
    only when no entry of the list was put before [now]. *)
Theorem lfru_first_victim now es : oldest now 0 es (lfru_scan now es).1.
Proof.
  unfold lfru_scan. destruct (lfru_walk_oldest now es 0 minref_init None None) as (r & Hr & ->).
  by destruct r.
Qed.

(** ** The score policy: the least score *)

Context {B : Type}.
Implicit Types s : gstate B.

Definition scores sp now es s (f : mcd_hashT -> Z) : Prop :=
  forall p e, (p, e) ∈ es -> SCORE (B := B) sp now e s = Ret (f e) s.

Definition cheapest es (f : mcd_hashT -> Z) (high : Z) (r : option ptr) : Prop :=
  match r with
  | None => forall p e, (p, e) ∈ es -> high <= f e
  | Some p => exists e, (p, e) ∈ es /\ f e < high /\ forall q e', (q, e') ∈ es -> f e <= f e'
  end.

(** When the scores are defined (the clock and the normalisers are not
    zero), the walk of the score policy returns an entry of least score among
    those below its start value, and nothing when there is none. *)
Theorem score_victim sp now es high m s f : scores sp now es s f ->
  exists r, cheapest es f high r /\
    score_walk sp now es high m s = Ret (match r with Some p => Some p | None => m end) s.
Proof.
  revert high m. induction es as [|[p e] es IH]; intros high m Hsc; cbn.
  { exists None. split; [|done]. intros p e. by intros ?%elem_of_nil. }
  unfold mbind, M_bind. rewrite (Hsc p e) by by left.
  assert (Hsc' : scores sp now es s f) by (intros q e' Hq; apply (Hsc q); by right).
  destruct (Z.ltb_spec (f e) high) as [Hlt|Hge].
  - destruct (IH (f e) (Some p) Hsc') as (r & Hr & ->). destruct r as [q|]; cbn in Hr.
    + destruct Hr as (e' & Hin & Hl & Hall). exists (Some q). split; [|done].
      exists e'. split; [by right|]. split; [lia|]. intros q' e'' [[= -> ->]|H]%elem_of_cons; [lia|by apply (Hall q')].
    + exists (Some p). split; [|done]. exists e. split; [by left|]. split; [lia|].
      intros q' e'' [[= -> ->]|H]%elem_of_cons; [lia|by apply (Hr q')].
  - destruct (IH high m Hsc') as (r & Hr & ->). exists r. split; [|done].
    destruct r as [q|]; cbn in *.
    + destruct Hr as (e' & Hin & Hl & Hall). exists e'. split; [by right|]. split; [done|].
      intros q' e'' [[= -> ->]|H]%elem_of_cons; [lia|by apply (Hall q')].
    + intros q' e'' [[= -> ->]|H]%elem_of_cons; [lia|by apply (Hr q')].
Qed.

(** ** The adaptive policy: the domain of least cost *)

Definition least_cost (max high : Z) (ds : list mcd_domain) (r : option Z) : Prop :=
  match r with
  | None => forall d, d ∈ ds -> high <= COST d max
  | Some k => exists d, d ∈ ds /\ md_domid d = k /\ COST d max < high /\ forall d', d' ∈ ds -> COST d max <= COST d' max
  end.

Lemma ad_pick_from max (ds : list mcd_domain) : forall high acc, exists r, least_cost max high ds r /\
  (foldl (fun '(hr_val, hr_dom) d =>
     if COST d max <? hr_val then (COST d max, Some (md_domid d)) else (hr_val, hr_dom)) (high, acc) ds).2
  = match r with Some k => Some k | None => acc end.
Proof.
  induction ds as [|d ds IH]; intros high acc; cbn [foldl].
  { exists None. split; [|done]. by intros d ?%elem_of_nil. }
  destruct (Z.ltb_spec (COST d max) high) as [Hlt|Hge].
  - destruct (IH (COST d max) (Some (md_domid d))) as (r & Hr & ->). destruct r as [k|]; cbn [least_cost] in Hr.
    + destruct Hr as (d' & Hin & Hk & Hl & Hall). exists (Some k). split; [|done]. exists d'.
      split; [by right|]. split; [done|]. split; [lia|]. intros x [->|H]%elem_of_cons; [lia|by apply Hall].
    + exists (Some (md_domid d)). split; [|done]. exists d. split; [by left|]. split; [done|]. split; [done|].
      intros x [->|H]%elem_of_cons; [lia|by apply Hr].
  - destruct (IH high acc) as (r & Hr & ->). exists r. split; [|done]. destruct r as [k|]; cbn [least_cost] in *.
    + destruct Hr as (d' & Hin & Hk & Hl & Hall). exists d'. split; [by right|]. split; [done|]. split; [done|].
      intros x [->|H]%elem_of_cons; [lia|by apply Hall].
    + intros x [->|H]%elem_of_cons; [lia|by apply Hr].
Qed.

(** The adaptive policy frees memory from a domain whose cost - miss
    rate times average recovery cost over the largest such cost - is least;
    it finds none only when every cost is at least 2^32 - 1. *)
Theorem ad_pick_least max (ds : list mcd_domain) : least_cost max (2 ^ 32 - 1) ds (ad_pick max ds).2.
Proof.
  unfold ad_pick. destruct (ad_pick_from max ds (2 ^ 32 - 1) None) as (r & Hr & ->). by destruct r.
Qed.

End Victims.
