(* ===== verification/EvictPart.v ===== *)
(** The partitioned policies: [partition_cf_adaptive_dynamic] terminates and
    keeps the invariant, and so does [partition_cf_weight_based] with the FAST
    and SCORE replacement modes; with LFRU its last loop never ends once the
    calling domain has nothing left to give. *)
From S2P Require Import Prelude CMonad Types State Core Evict Inv Remove Evicted EvictShared.

Section DList.
Context {B : Type} `{!Minf B, !MinfLaws B}.
Implicit Types (s : gstate B) (p q : ptr) (e : mcd_hashT) (d : mcd_domain).

(** The list of a domain, by its id. *)
Definition dlist s (domid : Z) : list ptr := from_option md_hash_list [] (dom_of (doms s) domid).

Lemma dlist_dom s domid d : dom_of (doms s) domid = Some d -> dlist s domid = md_hash_list d.
Proof. intros H. unfold dlist. by rewrite H. Qed.

Lemma dlist_in_pri s domid p : p ∈ dlist s domid -> p ∈ pri_ptrs s.
Proof.
  unfold dlist. destruct (dom_of (doms s) domid) as [d|] eqn:Hd; simpl; [|set_solver].
  apply dom_of_Some in Hd as [Hd _]. by apply dom_list_in_pri.
Qed.

Lemma dlist_nodup s domid : wf s -> NoDup (dlist s domid).
Proof.
  intros Hwf. unfold dlist. destruct (dom_of (doms s) domid) as [d|] eqn:Hd; simpl; [|constructor].
  apply dom_of_Some in Hd as [Hd _]. by eapply dom_list_nodup.
Qed.

Lemma dlist_owner s domid p e : wf s -> p ∈ dlist s domid -> heap s !! p = Some e ->
  mh_domain e = domid.
Proof.
  intros Hwf. unfold dlist. destruct (dom_of (doms s) domid) as [d|] eqn:Hd; simpl; [|set_solver].
  apply dom_of_Some in Hd as [Hd <-]. by apply (wf_index _ _ _ Hwf).
Qed.

Lemma dlist_step shr p e s s' domid : wf s -> sim (drop_entry shr p e s) s' ->
  dlist s' domid = unlink p (dlist s domid).
Proof.
  intros Hwf Hs'. assert (H1 : dlist s' domid = dlist (drop_entry shr p e s) domid).
  { unfold dlist. induction (sim_doms _ _ Hs') as [|d d' ds ds' Hd _ IH]; [done|].
    rewrite !dom_of_cons, Hd. cbn. by case_decide. }
  rewrite H1. unfold dlist. rewrite drop_entry_doms by apply (wf_lists _ _ _ Hwf).
  rewrite dom_of_fmap by apply drop_dom_domid.
  destruct (dom_of (doms s) domid) as [d|]; simpl; [apply drop_dom_list|done].
Qed.

Lemma dlist_live s domid : wf s -> forall p, p ∈ dlist s domid -> is_Some (heap s !! p).
Proof.
  intros Hwf p Hp. apply dlist_in_pri in Hp. destruct (live_entry s p Hwf); [set_solver|eauto].
Qed.

End DList.

(** ** The usage figures *)

Section Usage.
Context {B : Type} `{!Minf B, !MinfLaws B} (env : Env) (tol : fault -> Prop).
Implicit Types (s : gstate B).

Lemma dom_usage_update_all_spec s : Inv s -> wp tol (dom_usage_update_all env) (fun _ => quiet s) s.
Proof.
  intros [Hwf Hc]. unfold dom_usage_update_all. wp_steps.
  eapply wp_mono; [by apply get_free_mem_size_spec|]. intros free s1 Hq1. wp_steps.
  set (s2 := s1 <| cfg ::= _ |>).
  assert (Hq2 : quiet s s2).
  { apply (quiet_trans s s1); [exact Hq1|]. split; [solve_sim|]. eapply ctl_gen_env; [..|apply Hq1]; done. }
  apply (wp_for_each _ _ (fun ds _ s' => quiet s s' /\ forall k, k ∈ ds -> k ∈ domids s)).
  - split; [done|]. intros k. unfold Evict.domids. by rewrite (sim_domids _ _ (proj1 Hq2)).
  - by intros _ s' [? _].
  - intros k ds _ s3 [Hq3 Hin]. wp_steps.
    eapply wp_mono with (Q := fun _ s' => quiet s s').
    { destruct (k =? 0); wp_steps; [done|].
      eapply wp_mono; [apply dom_usage_update_spec|].
      - apply Hq3.
      - rewrite (sim_domids _ _ (proj1 Hq3)). apply (wf_lists _ _ _ Hwf).
      - rewrite (sim_domids _ _ (proj1 Hq3)). apply Hin. set_solver.
      - intros a s4 Hq4. by apply (quiet_trans s s3). }
    intros a s4 Hq4. wp_steps. split; [done|]. set_solver.
Qed.

End Usage.

Section EvictPart.
Context {B : Type} `{!Minf B, !MinfLaws B} (env : Env) (tol : fault -> Prop).
Context (Hmini : forall b : B, mcdctl_enabled b = true -> tol NullDeref).
Context (Hnow : forall n, env_now env n <> 0).
Implicit Types (s : gstate B) (p q : ptr) (e : mcd_hashT) (l : ev) (d : mcd_domain).

(** ** What the loops keep *)

Definition pprogress (s0 : gstate B) l s : Prop :=
  Inv s /\ evicted s0 s /\ tot l = u64 (bytes s0 - bytes s) /\ shr_ptrs s = shr_ptrs s0.

Definition ppost s0 s1 l1 l s : Prop :=
  pprogress s0 l s /\ (num s <= num s1)%nat /\
  (visited l = true -> visited l1 = true \/ (num s < num s1)%nat).

Lemma ppost_trans s0 s1 l1 s2 l2 s3 l3 :
  ppost s0 s1 l1 l2 s2 -> ppost s0 s2 l2 l3 s3 -> ppost s0 s1 l1 l3 s3.
Proof. intros (H1 & H2 & H3) (H4 & H5 & H6). split_and!; [done|lia|]. naive_solver lia. Qed.

Lemma ppost_refl s0 s l : pprogress s0 l s -> ppost s0 s l l s.
Proof. intros. split_and!; [done|lia|auto]. Qed.

Lemma pprogress_visited s0 l s v : pprogress s0 l s -> pprogress s0 (mk_ev (tot l) v) s.
Proof. intros (?&?&?&?). by split_and!. Qed.

Lemma pprogress_domids s0 l s : pprogress s0 l s -> domids s = domids s0.
Proof. intros (_ & H & _). by apply evicted_domids. Qed.

Lemma pprogress_sim s s' v : Inv s -> quiet s s' -> pprogress s (mk_ev 0 v) s'.
Proof.
  intros [Hwf _] [Hs Hc]. split_and!.
  - split; [by eapply wf_sim|done].
  - by apply sim_evicted.
  - unfold bytes, live. rewrite (sim_all_ptrs _ _ _ _ Hs), (sim_heap _ _ Hs), Z.sub_diag. done.
  - by apply sim_shr_ptrs.
Qed.

Lemma premove_spec s0 l s domid p : pprogress s0 l s -> p ∈ dlist s domid ->
  wp tol (premove env domid (Some p) l) (fun l' s' => ppost s0 s l l' s' /\
    forall k, dlist s' k = unlink p (dlist s k)) s.
Proof.
  intros ((Hwf & Hc) & Hev & Htot & Hshr) Hin. pose proof (dlist_in_pri _ _ _ Hin) as Hpri.
  destruct (live_entry s p Hwf) as [e He]; [set_solver|].
  pose proof (dlist_owner _ _ _ _ Hwf Hin He) as <-.
  unfold premove. wp_steps.
  eapply wp_mono; [by apply (p_remove_spec env tol p e MOVE_TO_SSD s (Hmini (be s)))|].
  intros b s' (-> & Hs' & Hc'). wp_steps.
  pose proof (step_num false p e s s' Hwf He Hpri Hs') as Hn.
  split; [|intros d; by apply (dlist_step false p e)].
  split_and!; [|lia|intros _; right; lia]. split_and!; cbn.
  - split; [by apply (step_wf false p e s)|done].
  - etransitivity; [done|by apply (step_evicted false p e)].
  - rewrite (step_bytes false p e s s') by done. rewrite Htot. solve_wrap.
  - rewrite (step_shr_ptrs false p e s s') by done. rewrite drop_elem_notin; [done|].
    intros H. by apply (shr_pri_disjoint s p Hwf H).
Qed.

Lemma when_premove_spec s0 l s domid mh : pprogress s0 l s ->
  (forall p, mh = Some p -> p ∈ dlist s domid) ->
  wp tol (when_some mh (premove env domid) l) (fun l' s' => ppost s0 s l l' s' /\
    forall k, dlist s' k = match mh with Some p => unlink p (dlist s k) | None => dlist s k end) s.
Proof.
  intros Hpr Hin. destruct mh as [p|]; simpl; [|wp_steps; split; [by apply ppost_refl|done]].
  apply premove_spec; auto.
Qed.

(** Draining a domain's list. *)
Lemma drain_spec s0 l s domid : pprogress s0 l s ->
  wp tol (drain env domid (dlist s domid) l) (fun l' s' => ppost s0 s l l' s' /\
    dlist s' domid = []) s.
Proof.
  intros Hpr. unfold drain. wp_steps.
  eapply wp_mono with (Q := fun x s' => ppost s0 s l (fst x) s' /\ dlist s' domid = late_list (snd x)).
  - apply (wp_for_each _ _ (fun ps x s' => ppost s0 s l (fst x) s' /\
      dlist s' domid = late_list (snd x) ++ ps)).
    + split; [by apply ppost_refl|done].
    + intros x s' [H1 H2]. by rewrite app_nil_r in H2.
    + intros curr ps [l1 late] s1 [H1 H2]. simpl in *. wp_steps.
      eapply wp_mono; [apply (when_premove_spec s0); [apply H1|]|].
      { intros p ->. rewrite H2. set_solver. }
      intros l2 s2 [H3 H4]. wp_steps. simpl. split; [by eapply ppost_trans|].
      rewrite H4, H2. destruct late as [p|]; simpl in *; [|done].
      pose proof (dlist_nodup s1 domid) as Hnd. rewrite H2 in Hnd.
      apply drop_elem_cons. destruct H1 as (((Hwf & _) & _) & _).
      by apply Hnd, NoDup_cons in Hwf as [? _].
  - intros [l1 late] s1 [H1 H2]. simpl in *.
    eapply wp_mono; [apply (when_premove_spec s0); [apply H1|]|].
    { intros p ->. rewrite H2. set_solver. }
    intros l2 s2 [H3 H4]. split; [by eapply ppost_trans|]. rewrite H4, H2.
    destruct late; simpl; [by rewrite drop_elem_cons by set_solver|done].
Qed.

(** ** The replacement subroutine *)

Lemma replace_spec s0 now domid l s : now <> 0 -> pprogress s0 l s -> domid ∈ domids s ->
  wp tol (replace_mode_subroutine env now (DomAt domid) l) (fun l' s' => ppost s0 s l l' s') s.
Proof.
  intros Hn Hpr Hin. pose proof Hpr as ((Hwf & _) & _).
  unfold replace_mode_subroutine. wp_steps. apply wp_dom_load; [done|].
  intros d Hd Hid Hof. pose proof (dlist_dom _ _ _ Hof) as Hdl. rewrite <- Hdl, Hid.
  repeat case_match; wp_steps.
  - eapply wp_mono; [by apply loads_spec, dlist_live|]. intros es s' (-> & Hes & _).
    destruct (lfru_scan now es) as [lru lfu] eqn:Hsc.
    apply lfru_scan_victims in Hsc as (H1 & H2 & H3); [|rewrite Hes; by apply dlist_nodup].
    rewrite Hes in *. wp_steps.
    eapply wp_mono with (Q := fun l' s' => ppost s0 s l l' s' /\
      (forall q, q ∈ dlist s domid -> lru <> Some q -> q ∈ dlist s' domid)).
    + case_decide; wp_steps; [split; [by apply ppost_refl|done]|].
      eapply wp_mono; [by apply (when_premove_spec s0)|]. intros l1 s1 [H5 H6]. split; [done|].
      intros q Hq Hne. rewrite H6. destruct lru as [p|]; [|done].
      apply elem_of_drop_elem. split; [done|]. congruence.
    + intros l1 s1 [H5 H6]. eapply wp_mono; [apply (when_premove_spec s0); [apply H5|]|].
      { intros p Hp. apply H6; [by apply H2|]. intros ->. by apply (H3 p). }
      intros l2 s2 [H7 _]. by eapply ppost_trans.
  - eapply wp_mono; [by apply (drain_spec s0)|]. by intros l' s' [? _].
  - eapply wp_mono; [by apply loads_spec, dlist_live|]. intros es s' (-> & Hes & _). wp_steps.
    eapply wp_mono; [apply score_walk_spec; [apply (wf_cfg _ _ _ Hwf)..|done]|].
    intros r s1 [-> Hr]. eapply wp_mono; [apply (when_premove_spec s0); [done|]|].
    { intros p Hp. apply Hr in Hp as [Hp|]; [|done]. by rewrite Hes in Hp. }
    by intros l2 s2 [? _].
  - by apply ppost_refl.
Qed.

(** ** The adaptive policy *)

Lemma ad_loop_spec s0 now amount domid l s : now <> 0 -> pprogress s0 l s -> domid ∈ domids s0 ->
  (num s < env_fuel env)%nat ->
  wp tol (ad_loop env now amount (DomAt domid) l)
    (fun l' s' => pprogress s0 l' s' /\ (num s' <= num s)%nat) s.
Proof.
  intros Hn Hpr Hin Hf. unfold ad_loop.
  apply (wp_while _ _ _ (fun l' s' => pprogress s0 l' s' /\ (num s' <= num s)%nat) (fun _ s => num s));
    [done|done|done|].
  intros l1 s1 [H1 Hle] _. wp_steps.
  eapply wp_mono; [apply (replace_spec s0); [done|by apply pprogress_visited|]|].
  { by rewrite (pprogress_domids _ _ _ H1). }
  intros l2 s2 (H2 & H3 & H4). wp_steps.
  destruct (visited l2) eqn:Hv; [|split; [done|lia]].
  destruct (H4 eq_refl) as [|]; [done|]. split; [split; [done|lia]|lia].
Qed.

Lemma ad_pick_in max (ds : list mcd_domain) k : snd (ad_pick max ds) = Some k -> k ∈ md_domid <$> ds.
Proof.
  unfold ad_pick. generalize (2 ^ 32 - 1). intros v Hk.
  enough (k ∈ md_domid <$> ds \/ None = Some k) by naive_solver.
  revert v Hk. generalize (None : option Z).
  induction ds as [|d ds IH]; intros acc v; simpl; [by right|].
  destruct (_ <? _); intros Hk%IH; set_solver.
Qed.

(** What an eviction request guarantees its caller. *)
Definition free_post (amount : Z) s (rc : Z) s' : Prop :=
  Inv s' /\ evicted s s' /\
  (rc = - ERR_NO /\ amount <= u64 (bytes s - bytes s') \/
   rc = - ERR_NOTMEM /\ u64 (bytes s - bytes s') < amount).

Lemma free_result amount s0 l s : pprogress s0 l s ->
  free_post amount s0 (if tot l <? amount then - ERR_NOTMEM else - ERR_NO) s.
Proof.
  intros (HI & Hev & Htot & _). split_and!; [done|done|]. rewrite Htot.
  destruct (Z.ltb_spec (u64 (bytes s0 - bytes s)) amount); auto.
Qed.

Lemma quiet_num s s' : quiet s s' -> num s' = num s.
Proof. intros [H _]. unfold num, live. by rewrite (sim_all_ptrs _ _ _ _ H). Qed.

Lemma partition_ad_spec amount domid s : Inv s -> (num s < env_fuel env)%nat -> domid ∈ domids s ->
  wp tol (partition_cf_adaptive_dynamic env amount domid) (fun rc s' => free_post amount s rc s' /\
    shr_ptrs s' = shr_ptrs s) s.
Proof.
  intros HI Hf Hin. unfold partition_cf_adaptive_dynamic. wp_steps.
  eapply wp_mono; [apply NOW_spec, HI|]. intros now s1 (-> & Hq). wp_steps.
  pose proof (pprogress_sim s s1 false HI Hq) as Hp1.
  pose proof (pprogress_domids _ _ _ Hp1) as Hd1. pose proof (quiet_num _ _ Hq) as Hn1.
  eapply wp_mono with (Q := fun dp s' => s' = s1 /\ exists k, dp = DomAt k /\ k ∈ domids s).
  { destruct (snd _) as [k|] eqn:Hk; wp_steps.
    - apply ad_pick_in in Hk. rewrite Hd1 in Hk. eauto.
    - apply wp_find_mcd_dom; [by rewrite Hd1|eauto]. }
  intros dp s2 (-> & k & -> & Hk). wp_steps.
  eapply wp_mono; [apply (ad_loop_spec s); auto; lia|]. intros l2 s2 [Hp2 Hn2]. wp_steps.
  apply wp_find_mcd_dom; [by rewrite (pprogress_domids _ _ _ Hp2)|]. wp_steps.
  eapply wp_mono; [apply (ad_loop_spec s); auto; lia|]. intros l3 s3 [Hp3 Hn3]. wp_steps.
  split; [by apply free_result|apply Hp3].
Qed.

(** ** The weight-based policy *)

Lemma fair_rate_spec s d : Inv s -> d ∈ doms s ->
  wp tol (FAIR_RATE d) (fun _ s' => s' = s) s.
Proof.
  intros [Hwf _] Hd. pose proof (co_ratio _ (wf_cfg _ _ _ Hwf) d Hd) as Hr.
  apply wp_div; [|done]. rewrite wrap_id; unfold urange; lia.
Qed.

Section Phase.
Context (s0 : gstate B) (now amount : Z) (skip : Z -> bool) (over : mcd_domain -> M (gstate B) bool).
Context (Hn : now <> 0).
Context (Hover : forall s d, Inv s -> d ∈ doms s -> wp tol (over d) (fun _ s' => s' = s) s).

Lemma wb_visit_spec k l s : pprogress s0 l s -> k ∈ domids s0 ->
  wp tol (wb_visit env now amount skip over k l) (fun c s' => ppost s0 s l (unctl c) s') s.
Proof using Hmini Hn Hnow Hover.
  intros Hpr Hk. pose proof (pprogress_domids _ _ _ Hpr) as Hd. unfold wb_visit.
  destruct (skip k); wp_steps; [by apply ppost_refl|].
  apply wp_dom_load; [by rewrite Hd|]. intros d Hin _ _. wp_steps.
  eapply wp_mono; [by apply Hover; [apply Hpr|]|]. intros o s' ->. wp_steps.
  eapply wp_mono with (Q := fun l' s' => ppost s0 s l l' s').
  { destruct o; [apply replace_spec; [done..|by rewrite Hd]|]. wp_steps. by apply ppost_refl. }
  intros l' s' H. unfold brk_if. wp_steps. by destruct (amount <? tot l').
Qed.

Lemma wb_phase_spec l s : pprogress s0 l s -> (num s < env_fuel env)%nat ->
  wp tol (wb_phase env now amount skip over l)
    (fun l' s' => pprogress s0 l' s' /\ (num s' <= num s)%nat) s.
Proof using Hmini Hn Hnow Hover.
  intros Hpr Hf. unfold wb_phase. destruct (tot l <? amount); wp_steps; [|by split].
  apply (wp_while _ _ _ (fun l' s' => pprogress s0 l' s' /\ (num s' <= num s)%nat) (fun _ s => num s));
    [done|done|done|].
  intros l1 s1 [H1 Hle] _. wp_steps.
  set (l1' := mk_ev (tot l1) false).
  eapply wp_mono with (Q := fun l' s' => ppost s0 s1 l1' l' s').
  - apply (wp_for_each _ _ (fun ks l' s' => ppost s0 s1 l1' l' s' /\ forall k, k ∈ ks -> k ∈ domids s0)).
    + split; [by apply ppost_refl, pprogress_visited|]. intros k.
      unfold Evict.domids. by rewrite (pprogress_domids _ _ _ H1).
    + by intros l' s' [? _].
    + intros k ks l2 s2 [H2 Hks]. eapply wp_mono; [apply wb_visit_spec; [apply H2|set_solver]|].
      intros c s3 H3. assert (H4 := ppost_trans _ _ _ _ _ _ _ H2 H3).
      destruct c; [split; [done|set_solver]|done].
  - intros l2 s2 (H2 & H3 & H4). wp_steps. destruct (visited l2) eqn:Hv; [|split; [done|lia]].
    destruct (H4 eq_refl) as [|]; [done|]. split; [split; [by apply pprogress_visited|lia]|lia].
Qed.
End Phase.

(** Freeing domain by domain on behalf of domain 0. *)
Lemma brutal_dom_spec s0 amount k l r s : pprogress s0 l s -> k ∈ domids s ->
  wp tol (brutal_dom env amount k (l, r))
    (fun c s' => pprogress s0 (fst (unctl c)) s' /\ (num s' <= num s)%nat /\
       (snd (unctl c) = true -> amount < tot (fst (unctl c))) /\
       (forall x, c = Continue x -> snd x = false)) s.
Proof.
  intros Hpr Hk. unfold brutal_dom, dom_list. wp_steps. apply wp_dom_load; [done|].
  intros d _ _ Hof. rewrite <- (dlist_dom _ _ _ Hof). wp_steps. cbn [fst].
  eapply wp_mono with (Q := fun y s' => let '(l', late, ret) := y in ppost s0 s l l' s' /\
    if ret : bool then amount < tot l' else dlist s' k = late_list late).
  - apply (wp_for_each _ _ (fun ps y s' => let '(l', late, ret) := y in ppost s0 s l l' s' /\
      ret = false /\ dlist s' k = late_list late ++ ps)).
    + split_and!; [by apply ppost_refl|done..].
    + intros [[l' late] ret] s' (H1 & -> & H2). by rewrite app_nil_r in H2.
    + intros curr ps [[l1 late] ret] s1 (H1 & -> & H2). unfold brutal_visit. wp_steps.
      eapply wp_mono; [apply (when_premove_spec s0); [apply H1|]|].
      { intros p ->. rewrite H2. set_solver. }
      intros l2 s2 [H3 H4]. wp_steps. pose proof (ppost_trans _ _ _ _ _ _ _ H1 H3) as H13.
      destruct late as [p|]; simpl in *; [|split_and!; [done..|by rewrite H4, H2]].
      destruct (Z.ltb_spec amount (tot l2)); [by split|]. split_and!; [done..|].
      rewrite H4, H2. pose proof (dlist_nodup s1 k) as Hnd. rewrite H2 in Hnd.
      apply drop_elem_cons. destruct H1 as (((Hwf & _) & _) & _).
      by apply Hnd, NoDup_cons in Hwf as [? _].
  - intros [[l1 late] ret] s1 [H1 H2]. destruct ret; wp_steps.
    { cbn. destruct H1 as (? & ? & _). by split_and!. }
    eapply wp_mono; [apply (when_premove_spec s0); [apply H1|]|].
    { intros p ->. rewrite H2. set_solver. }
    intros l2 s2 [H3 _]. wp_steps. pose proof (ppost_trans _ _ _ _ _ _ _ H1 H3) as (? & ? & _).
    destruct late; simpl; [destruct (Z.ltb_spec amount (tot l2))|]; split_and!; naive_solver.
Qed.

Lemma brutal_all_spec s0 amount s : pprogress s0 (mk_ev 0 false) s ->
  wp tol (for_each (Evict.domids s) (brutal_dom env amount) (mk_ev 0 false, false))
    (fun x s' => pprogress s0 (fst x) s' /\ (num s' <= num s)%nat /\
       (snd x = true -> amount < tot (fst x))) s.
Proof.
  intros Hpr.
  apply (wp_for_each _ _ (fun ks x s' => pprogress s0 (fst x) s' /\ (num s' <= num s)%nat /\
    snd x = false /\ forall k, k ∈ ks -> k ∈ domids s0)).
  - split_and!; [done..|]. intros k. unfold Evict.domids. by rewrite (pprogress_domids _ _ _ Hpr).
  - intros [l b] s' (? & ? & ? & _). simpl in *. split_and!; [done..|]. by subst.
  - intros k ks [l b] s1 (H1 & H2 & Hb & H3). simpl in *.
    eapply wp_mono; [apply (brutal_dom_spec s0); [done|]|].
    { rewrite (pprogress_domids _ _ _ H1). set_solver. }
    intros [[l' b']|[l' b']] s2 (H4 & H5 & H6 & H7); simpl in *; (split; [done|split; [lia|]]); [|done].
    split; [by apply (H7 (l', b'))|set_solver].
Qed.

(** Everything before the last loop. *)
Lemma wb_fair_rate_spec domid s : Inv s ->
  wp tol (for_each (Evict.domids s)
      (fun k r => if k =? domid
                  then dom ← dom_load (DomAt k); r ← FAIR_RATE dom; mret (Continue r)
                  else mret (Continue r)) 0) (fun _ s' => s' = s) s.
Proof.
  intros HI. apply (wp_for_each _ _ (fun ks _ s' => s' = s /\ forall k, k ∈ ks -> k ∈ domids s)).
  - by split.
  - by intros _ s' [? _].
  - intros k ks r s' [-> Hks]. destruct (k =? domid); wp_steps; [|split; [done|set_solver]].
    apply wp_dom_load; [set_solver|]. intros d Hd _ _. wp_steps.
    eapply wp_mono; [by apply fair_rate_spec|]. intros r' s' ->. wp_steps. split; [done|set_solver].
Qed.

Definition wb_phases now amount domid fair_rate l : M (gstate B) ev :=
  let other k := k =? domid in
  let self k := negb (k =? domid) in
  l ← wb_phase env now amount other (fun d => r ← FAIR_RATE d; mret (fair_rate <? r)) l;
  l ← wb_phase env now amount self (fun d => mret (100 <? md_curr d)) l;
  l ← wb_phase env now amount other (fun d => mret (100 <? md_curr d)) l;
  wb_phase env now amount self (fun d => mret (0 <? md_curr d)) l.

Lemma wb_phases_bind {A} now amount domid fair_rate l (k : ev -> M (gstate B) A) s :
  (let other k := k =? domid in
   let self k := negb (k =? domid) in
   l ← wb_phase env now amount other (fun d => r ← FAIR_RATE d; mret (fair_rate <? r)) l;
   l ← wb_phase env now amount self (fun d => mret (100 <? md_curr d)) l;
   l ← wb_phase env now amount other (fun d => mret (100 <? md_curr d)) l;
   l ← wb_phase env now amount self (fun d => mret (0 <? md_curr d)) l;
   k l) s = (l ← wb_phases now amount domid fair_rate l; k l) s.
Proof. unfold wb_phases, mbind, M_bind. by repeat case_match; simplify_eq. Qed.

Lemma wb_phases_spec s0 now amount domid fair_rate l s : now <> 0 -> pprogress s0 l s ->
  (num s < env_fuel env)%nat ->
  wp tol (wb_phases now amount domid fair_rate l) (fun l' s' => pprogress s0 l' s') s.
Proof.
  intros Hn Hpr Hf. unfold wb_phases. wp_steps.
  eapply wp_mono; [apply (wb_phase_spec s0); [done| |done..]|].
  { intros s' d HI Hd. wp_steps. eapply wp_mono; [by apply fair_rate_spec|].
    intros r s1 ->. by wp_steps. }
  intros l1 s1 [H1 Hn1]. wp_steps.
  eapply wp_mono; [apply (wb_phase_spec s0); [done|by intros|done|lia]|]. intros l2 s2 [H2 Hn2]. wp_steps.
  eapply wp_mono; [apply (wb_phase_spec s0); [done|by intros|done|lia]|]. intros l3 s3 [H3 Hn3].
  eapply wp_mono; [apply (wb_phase_spec s0); [done|by intros|done|lia]|]. by intros l4 s4 [H4 _].
Qed.

(** The function up to its last loop. *)
Lemma partition_wb_prefix amount domid (Q : Z -> gstate B -> Prop) s : Inv s -> (num s < env_fuel env)%nat ->
  (forall l s', pprogress s l s' -> amount < tot l -> Q (- ERR_NO) s') ->
  (forall l s', pprogress s l s' ->
    wp tol (wb_self_brutal env amount domid l)
      (fun l s' => Q (if tot l <? amount then - ERR_NOTMEM else - ERR_NO) s') s') ->
  wp tol (partition_cf_weight_based env amount domid) Q s.
Proof.
  intros HI Hf HQ Hk. unfold partition_cf_weight_based. wp_steps.
  eapply wp_mono; [apply NOW_spec, HI|]. intros now s1 (-> & Hq1). wp_steps.
  assert (HI1 : Inv s1) by (destruct HI, Hq1; split; [by eapply wf_sim|done]).
  eapply wp_mono; [by apply dom_usage_update_all_spec|]. intros a s2 Hq2. wp_steps.
  pose proof (quiet_trans s s1 s2 Hq1 Hq2) as Hq. pose proof (quiet_num _ _ Hq) as Hn.
  eapply wp_mono with (Q := fun x s' => pprogress s (fst x) s' /\ (num s' <= num s)%nat /\
    (snd x = true -> amount < tot (fst x))).
  { pose proof (pprogress_sim s s2 false HI Hq) as Hp.
    destruct (domid =? 0); wp_steps; [|split_and!; [done|simpl; lia|done]].
    eapply wp_mono; [by apply brutal_all_spec|]. intros x s3 (? & ? & ?). split_and!; [done|lia|done]. }
  intros [l ret] s3 (Hp & Hle & Hret). simpl in *. destruct ret; wp_steps; [by eapply HQ; auto|].
  eapply wp_mono; [by apply wb_fair_rate_spec; apply Hp|]. intros fr s4 ->.
  unfold wp. rewrite wb_phases_bind.
  change (wp tol (l ← wb_phases (env_now env (tick s)) amount domid fr l;
    l ← wb_self_brutal env amount domid l;
    mret (if tot l <? amount then - ERR_NOTMEM else - ERR_NO)) Q s3).
  wp_steps. eapply wp_mono; [apply (wb_phases_spec s); auto; lia|]. intros l5 s5 H5. wp_steps.
  eapply wp_mono; [by apply Hk|]. intros l6 s6 H6. by wp_steps.
Qed.

Lemma partition_wb_spec amount domid s : Inv s -> (num s < env_fuel env)%nat ->
  replacement_mode (cfg s) <> MCD_REPLACE_MODE_LFRU ->
  wp tol (partition_cf_weight_based env amount domid) (fun rc s' => free_post amount s rc s' /\
    shr_ptrs s' = shr_ptrs s) s.
Proof.
  intros HI Hf Hm. apply partition_wb_prefix; [done..| |].
  - intros l s' Hp Hlt. split; [|apply Hp]. pose proof (free_result amount s l s' Hp) as H.
    destruct (Z.ltb_spec (tot l) amount); [lia|done].
  - intros l s' Hp. unfold wb_self_brutal. wp_steps.
    destruct (evicted_mode s s') as (_ & -> & _); [apply Hp|].
    rewrite (proj2 (Z.eqb_neq _ _) Hm), andb_false_r. wp_steps. split; [by apply free_result|apply Hp].
Qed.

End EvictPart.

(** With LFRU the last loop has no exit when the domain has nothing to give. *)
Section Diverges.
Context {B : Type} `{!Minf B, !MinfLaws B} (env : Env).
Context (Hoff : forall b : B, mcdctl_enabled b = false).
Context (Hnow : forall n, env_now env n <> 0).
Implicit Types (s : gstate B).

Lemma pprogress_empty s0 l s : pri_ptrs s0 = [] -> pprogress s0 l s ->
  tot l = 0 /\ forall k, dlist s k = [].
Proof.
  intros H0 ((Hwf & _) & Hev & -> & Hshr).
  assert (Hpri : pri_ptrs s = []).
  { pose proof (evi_doms _ _ Hev) as Hd. unfold pri_ptrs in *.
    induction Hd as [|d d' ds ds' Hd _ IH]; simpl in *; [done|].
    apply app_nil in H0 as [H0 H1]. apply app_nil. split; [|by apply IH].
    pose proof (ds_list _ _ Hd) as Hl. rewrite H0 in Hl. by apply sublist_nil_r in Hl. }
  split.
  - assert (Hb : bytes s0 = bytes s); [|by rewrite Hb, Z.sub_diag].
    unfold bytes. rewrite !live_split, H0, Hpri, Hshr, !app_nil_r. apply hsum_ext.
    intros p Hp. destruct (live_entry s p Hwf) as [e He]; [rewrite Hshr; set_solver|].
    rewrite He. by apply (lookup_weaken (heap s)), Hev.
  - intros k. destruct (dlist s k) as [|p ps] eqn:Hk; [done|]. exfalso.
    assert (p ∈ pri_ptrs s) by (apply (dlist_in_pri s k); rewrite Hk; set_solver).
    rewrite Hpri in *. set_solver.
Qed.

Lemma wb_self_brutal_diverges s0 amount domid l s : pri_ptrs s0 = [] -> 0 < amount ->
  replacement_mode (cfg s0) = MCD_REPLACE_MODE_LFRU -> pprogress s0 l s ->
  wb_self_brutal env amount domid l s = NoFuel.
Proof using Hoff Hnow.
  intros H0 Ha Hm Hp. apply bind_nofuel with (Q := fun s1 s2 => s1 = s /\ s2 = s); [by apply wp_get|].
  intros ? ? [-> ->]. destruct (evicted_mode s0 s) as (_ & -> & _); [apply Hp|].
  destruct (pprogress_empty _ _ _ H0 Hp) as [Ht _].
  rewrite Hm, Ht, (proj2 (Z.ltb_lt _ _) Ha). simpl.
  apply (while_diverges _ _ (fun l s => pprogress s0 l s)); [done|].
  clear Hp Ht l s. intros l s Hp. destruct (pprogress_empty _ _ _ H0 Hp) as [Ht Hd].
  split; [rewrite Ht; by apply Z.ltb_lt|]. wp_steps.
  eapply wp_mono with (Q := fun l' s' => l' = l /\ s' = s).
  - apply (wp_for_each _ _ (fun ks l' s' => (l' = l /\ s' = s) /\ forall k, k ∈ ks -> k ∈ domids s));
      [done|by intros ?? [? _]|].
    intros k ks ? ? [[-> ->] Hks]. unfold wb_self_visit.
    destruct (negb _); wp_steps; [split; [done|set_solver]|].
    apply wp_dom_load; [set_solver|]. intros d Hin Hid Hof. destruct (_ <=? 0); wp_steps; [done|].
    rewrite <- (dlist_dom _ _ _ Hof), Hd. unfold drain, brk_if. wp_steps. cbn.
    destruct (amount <? tot l); wp_steps; [done|split; [done|set_solver]].
  - intros l' s' [-> ->]. wp_steps. eauto.
Qed.

Lemma partition_wb_diverges amount domid s : Inv s -> (num s < env_fuel env)%nat ->
  replacement_mode (cfg s) = MCD_REPLACE_MODE_LFRU -> pri_ptrs s = [] -> 0 < amount ->
  partition_cf_weight_based env amount domid s = NoFuel.
Proof using Hoff Hnow.
  intros HI Hf Hm H0 Ha.
  assert (Hmini : forall b : B, mcdctl_enabled b = true -> no_fault NullDeref).
  { intros b. by rewrite Hoff. }
  unfold partition_cf_weight_based. eapply bind_nofuel; [apply NOW_spec, HI|].
  intros now s1 (-> & Hq1).
  assert (HI1 : Inv s1) by (destruct HI, Hq1; split; [by eapply wf_sim|done]).
  eapply bind_nofuel; [by apply dom_usage_update_all_spec|]. intros [] s2 Hq2.
  pose proof (quiet_trans s s1 s2 Hq1 Hq2) as Hq. pose proof (quiet_num _ _ Hq) as Hn.
  pose proof (pprogress_sim s s2 false HI Hq) as Hp.
  eapply bind_nofuel; [by apply (wp_get _ (fun s3 s4 => s3 = s2 /\ s4 = s2))|]. intros ? ? [-> ->].
  apply bind_nofuel with (Q := fun x s' => pprogress s (fst x) s' /\ (num s' <= num s)%nat /\
    (snd x = true -> amount < tot (fst x))).
  { destruct (domid =? 0); wp_steps; [|split_and!; [done|simpl; lia|done]].
    eapply wp_mono; [by apply brutal_all_spec|]. intros x s3 (? & ? & ?). split_and!; [done|lia|done]. }
  intros [l ret] s3 (Hp3 & Hle & Hret). simpl in Hp3, Hret.
  destruct (pprogress_empty _ _ _ H0 Hp3) as [Ht _].
  destruct ret; [specialize (Hret eq_refl); lia|]. cbn [fst snd].
  eapply bind_nofuel; [by apply (wp_get _ (fun s4 s5 => s4 = s3 /\ s5 = s3))|]. intros ? ? [-> ->].
  eapply bind_nofuel; [by apply (wb_fair_rate_spec env no_fault); auto; apply Hp3|]. intros fr s4 ->.
  rewrite wb_phases_bind.
  eapply bind_nofuel; [apply (wb_phases_spec env no_fault Hmini Hnow s); auto; lia|].
  intros l5 s5 H5. unfold mbind, M_bind. by rewrite (wb_self_brutal_diverges s).
Qed.
End Diverges.
