(* ===== verification/Alloc.v ===== *)
(** Allocation: [mcd_malloc] evicts until the request fits and keeps the used
    memory under the configured maximum; [create_mcd_hashT] makes an entry
    that is charged to its owner and on no list yet; linking it restores the
    invariant. *)
From S2P Require Import Prelude CMonad Types State Core Evict Inv Remove Evicted EvictShared EvictPart.

Section Shrink.
Context {B : Type} `{!Minf B, !MinfLaws B}.
Implicit Types (s : gstate B) (p q : ptr) (e : mcd_hashT) (d : mcd_domain).

(** ** Eviction only shrinks *)

Lemma concat_sublist {A} (ls ls' : list (list A)) :
  Forall2 (flip sublist) ls ls' -> concat ls' `sublist_of` concat ls.
Proof. induction 1; simpl; [done|]. by apply sublist_app. Qed.

Lemma evicted_live s s' : evicted s s' -> live s' `sublist_of` live s.
Proof.
  intros Hev. rewrite !live_split. apply sublist_app.
  - apply concat_sublist, Hev.
  - apply concat_sublist. apply Forall2_fmap. eapply Forall2_impl; [apply Hev|]. by intros d d' [].
Qed.

Lemma evicted_num s s' : evicted s s' -> (num s' <= num s)%nat.
Proof. intros H. apply sublist_length. by apply evicted_live. Qed.

Lemma hsum_sublist (h : gmap Z mcd_hashT) f ps ps' :
  (forall p e, h !! p = Some e -> 0 <= f e) -> ps `sublist_of` ps' -> hsum h f ps <= hsum h f ps'.
Proof.
  intros Hf Hs. unfold hsum, sumZ.
  induction Hs as [|p l1 l2 _ IH|p l1 l2 _ IH]; cbn in *; [done|lia|].
  destruct (h !! p) as [e|] eqn:He; simpl; [specialize (Hf p e He)|]; lia.
Qed.

Lemma wf_nr_bytes s p e : wf s -> heap s !! p = Some e -> 0 <= mh_nr_bytes e.
Proof. intros H He. by destruct (lo_entry _ _ _ (wf_lists _ _ _ H) p e He) as (_ & [? _] & _). Qed.

Lemma bytes_nonneg s : wf s -> 0 <= bytes s.
Proof.
  intros H. transitivity (hsum (heap s) mh_nr_bytes []); [done|]. apply hsum_sublist.
  - intros p e. by apply wf_nr_bytes.
  - apply sublist_nil_l.
Qed.

Lemma evicted_bytes s s' : wf s -> wf s' -> evicted s s' -> 0 <= bytes s' <= bytes s.
Proof.
  intros H H' Hev. split; [by apply bytes_nonneg|]. unfold bytes.
  rewrite (hsum_ext (heap s') (heap s)).
  - apply hsum_sublist; [intros p e; by apply wf_nr_bytes|by apply evicted_live].
  - intros p Hp. apply (lo_live _ _ _ (wf_lists _ _ _ H')) in Hp as [e He].
    rewrite He. symmetry. by apply (lookup_weaken (heap s')), Hev.
Qed.

(** The counters are the bytes of the live entries. *)
Lemma tot_used_bytes s : wf s -> TOT_USED_BYTES s = u64 (bytes s).
Proof.
  intros H. unfold TOT_USED_BYTES, bytes. destruct (wf_acct _ _ _ H).
  rewrite ac_shr_bytes, ac_pri_bytes, !app_nil_r, live_split, hsum_app. solve_wrap.
Qed.

End Shrink.

Section Alloc.
Context {B : Type} `{!Minf B, !MinfLaws B} (env : Env) (tol : fault -> Prop).
Context (Hmini : forall b : B, mcdctl_enabled b = true -> tol NullDeref).
Context (Hnow : forall n, env_now env n <> 0).
Implicit Types (s : gstate B) (p q : ptr) (e : mcd_hashT) (d : mcd_domain).

(** The configurations in which eviction terminates. *)
Definition mode_ok s : Prop :=
  cache_mode (cfg s) = MCD_CACHE_MODE_SHARED \/ partition_mode (cfg s) <> MCD_PARTITION_MODE_WB \/
  replacement_mode (cfg s) <> MCD_REPLACE_MODE_LFRU.

(** The configurations in which a full cache is evicted from at all. *)
Definition enforcing s : Prop :=
  cache_mode (cfg s) = MCD_CACHE_MODE_SHARED \/ partition_mode (cfg s) <> MCD_PARTITION_MODE_BE.

(** The adaptive policy looks the requesting domain up. *)
Definition covers (domid : Z) s : Prop :=
  domid ∈ domids s \/ cache_mode (cfg s) = MCD_CACHE_MODE_SHARED \/
  partition_mode (cfg s) <> MCD_PARTITION_MODE_AD.

Lemma evicted_covers domid s s' : evicted s s' -> covers domid s -> covers domid s'.
Proof. intros H. unfold covers. rewrite (evicted_domids _ _ H). by destruct (evicted_mode _ _ H) as (-> & _ & ->). Qed.

Lemma evicted_mode_ok s s' : evicted s s' -> mode_ok s -> mode_ok s'.
Proof. intros H. unfold mode_ok. by destruct (evicted_mode _ _ H) as (-> & -> & ->). Qed.

Lemma evicted_enforcing s s' : evicted s s' -> enforcing s -> enforcing s'.
Proof. intros H. unfold enforcing. by destruct (evicted_mode _ _ H) as (-> & _ & ->). Qed.

Definition freed (amount : Z) s rc s' : Prop :=
  Inv s' /\ evicted s s' /\
  (rc = - ERR_NO -> enforcing s -> amount <= u64 (bytes s - bytes s')).

Lemma free_post_freed amount s rc s' : free_post amount s rc s' -> freed amount s rc s'.
Proof. intros (H1 & H2 & H3). split_and!; [done..|]. intros -> _. naive_solver. Qed.

Lemma cache_free_spec amount domid s : Inv s -> mode_ok s -> (num s < env_fuel env)%nat ->
  covers domid s ->
  wp tol (cache_free env amount domid) (freed amount s) s.
Proof.
  intros HI Hmode Hf Hin. unfold cache_free. wp_steps.
  destruct (Z.eqb_spec (cache_mode (cfg s)) MCD_CACHE_MODE_SHARED) as [Hc|Hc].
  - eapply wp_mono; [by apply (shared_cache_free_spec env tol Hmini Hnow)|].
    intros rc s' (H1 & H2 & H3). split_and!; [done..|]. intros -> _. naive_solver.
  - unfold partition_cache_free. wp_steps.
    destruct (Z.eqb_spec (partition_mode (cfg s)) MCD_PARTITION_MODE_WB) as [Hp|Hp].
    { destruct Hmode as [?|[?|?]]; [done..|].
      eapply wp_mono; [by apply (partition_wb_spec env tol Hmini Hnow)|].
      intros rc s' [Hfp _]. by apply free_post_freed. }
    destruct (Z.eqb_spec (partition_mode (cfg s)) MCD_PARTITION_MODE_AD) as [Hp2|Hp2]; wp_steps.
    { destruct Hin as [Hin|[?|?]]; [|done..].
      eapply wp_mono; [by apply (partition_ad_spec env tol Hmini Hnow)|].
      intros rc s' [Hfp _]. by apply free_post_freed. }
    split_and!; [done..|]. intros _ [?|He]; [done|].
    pose proof (co_partition _ (wf_cfg _ _ _ (proj1 HI))).
    unfold MCD_PARTITION_MODE_MAX, MCD_PARTITION_MODE_BE, MCD_PARTITION_MODE_WB, MCD_PARTITION_MODE_AD in *.
    lia.
Qed.

Lemma freed_fits amount s rc s' : wf s -> 0 <= bytes s < 2 ^ 64 -> freed amount s rc s' ->
  rc = - ERR_NO -> enforcing s -> bytes s' + amount <= bytes s.
Proof.
  intros Hwf Hb ((Hwf' & _) & Hev & Hfit) Hrc He. specialize (Hfit Hrc He).
  pose proof (evicted_bytes _ _ Hwf Hwf' Hev). rewrite wrap_id in Hfit; unfold urange; lia.
Qed.

(** A fresh address: above every entry, below the next one. *)
Definition fresh s p : Prop := (forall q, is_Some (heap s !! q) -> q < p) /\ p < next_ptr s.

(** What the code promises when memory is limited to [m] bytes. *)
Definition within (m size : Z) s s' : Prop :=
  enforcing s -> bytes s <= m -> m < 2 ^ 64 -> 0 <= size -> bytes s + size + SAFETY_BYTES < 2 ^ 64 ->
  bytes s' + size + SAFETY_BYTES <= m.

Lemma get_tot_mem_size_max s : ctl_ok s ->
  wp tol (get_tot_mem_size env) (fun v s' => quiet s s' /\
    (max_mem_bytes (cfg s) <> 0 -> v <= max_mem_bytes (cfg s))) s.
Proof.
  intros Hc. unfold get_tot_mem_size. wp_steps.
  eapply wp_mono; [by apply get_free_sys_mem_spec|]. intros n s' Hq. wp_steps. split; [done|].
  rewrite (sim_cfg _ _ (proj1 Hq)). cbn. intros Hm. destruct (Z.eqb_spec (max_mem_bytes (cfg s)) 0); [done|].
  destruct (Z.leb_spec (u64 (TOT_USED_BYTES s' + n)) (max_mem_bytes (cfg s))); lia.
Qed.

Lemma quiet_Inv s s' : Inv s -> quiet s s' -> Inv s'.
Proof. intros [Hwf _] [Hs Hc]. split; [by eapply wf_sim|done]. Qed.

Lemma quiet_bytes s s' : quiet s s' -> bytes s' = bytes s.
Proof. intros [H _]. unfold bytes, live. by rewrite (sim_all_ptrs _ _ _ _ H), (sim_heap _ _ H). Qed.

Lemma xmalloc_spec size s : Inv s ->
  wp tol (xmalloc env size) (fun r s' => quiet s s' /\ match r with Some p => fresh s' p | None => True end) s.
Proof.
  intros [Hwf Hc]. eapply wp_mono; [apply (xmalloc_n_spec env tol 1 size []); [lia|done]|].
  intros r s' (Hs & Hc' & _ & _ & _ & Hr). split; [done|].
  destruct Hr as [->|[-> Hn]]; [done|]. split; [|lia].
  rewrite (sim_heap _ _ Hs). apply (lo_fresh _ _ _ (wf_lists _ _ _ Hwf)).
Qed.

(** ** [mcd_malloc] *)

Definition alloc_post (size : Z) s (r : option ptr) s' : Prop :=
  Inv s' /\ evicted s s' /\
  match r with
  | Some p => fresh s' p /\ (max_mem_bytes (cfg s) <> 0 -> within (max_mem_bytes (cfg s)) size s s')
  | None => True
  end.

Lemma mcd_malloc_spec size domid s : Inv s -> mode_ok s -> (num s < env_fuel env)%nat ->
  covers domid s -> wp tol (mcd_malloc env size domid) (alloc_post size s) s.
Proof.
  intros HI Hmode Hf Hin. unfold mcd_malloc. wp_steps.
  eapply wp_mono; [apply get_tot_mem_size_max, HI|]. intros max s1 [Hq1 Hmax].
  pose proof (quiet_Inv _ _ HI Hq1) as HI1. pose proof (sim_evicted _ _ (proj1 Hq1)) as Hev1.
  pose proof (evicted_mode_ok _ _ Hev1 Hmode) as Hm1. pose proof (evicted_num _ _ Hev1) as Hn1.
  pose proof (evicted_covers _ _ _ Hev1 Hin) as Hin1.
  destruct (size =? 0); wp_steps; [by split_and!|].
  (* the first attempt *)
  set (amt := u64 (size + SAFETY_BYTES)).
  eapply wp_mono with (Q := fun rc s' => Inv s' /\ evicted s s' /\
    (rc = - ERR_NO -> max_mem_bytes (cfg s) <> 0 -> within (max_mem_bytes (cfg s)) size s s')).
  { destruct (Z.leb_spec max (u64 (u64 (TOT_USED_BYTES s1 + size) + SAFETY_BYTES))) as [Hle|Hlt].
    - eapply wp_mono; [apply cache_free_spec; auto; lia|]. intros rc s2 Hfr.
      split_and!; [apply Hfr|etransitivity; [done|apply Hfr]|].
      intros Hrc Hm He Hb Hm64 Hs Hsz.
      pose proof (bytes_nonneg _ (proj1 HI)). rewrite <- (quiet_bytes _ _ Hq1) in *.
      pose proof (freed_fits _ _ _ _ (proj1 HI1) ltac:(lia) Hfr Hrc (evicted_enforcing _ _ Hev1 He)) as H2.
      unfold amt in H2. rewrite wrap_id in H2; unfold urange, SAFETY_BYTES, PAGE_SIZE in *; lia.
    - wp_steps. split_and!; [done..|]. intros _ Hm He Hb Hm64 Hs Hsz. specialize (Hmax Hm).
      rewrite tot_used_bytes in Hlt by apply HI1. pose proof (bytes_nonneg _ (proj1 HI1)).
      rewrite (quiet_bytes _ _ Hq1) in *. unfold SAFETY_BYTES, PAGE_SIZE in *.
      rewrite (wrap_id 64 (bytes s)), (wrap_id 64 (bytes s + size)), wrap_id in Hlt; unfold urange; lia. }
  intros rc s2 (HI2 & Hev2 & Hfit2). wp_steps.
  eapply wp_mono with (Q := fun r s' => Inv s' /\ evicted s s' /\ bytes s' = bytes s2 /\
    match r with Some p => fresh s' p /\ rc = - ERR_NO | None => True end).
  { destruct (Z.eqb_spec rc (- ERR_NO)); wp_steps; [|by split_and!].
    eapply wp_mono; [by apply xmalloc_spec|]. intros r s3 [Hq3 Hr].
    split_and!; [by eapply quiet_Inv|etransitivity; [done|apply sim_evicted, Hq3]|by apply quiet_bytes|].
    by destruct r. }
  intros val s3 (HI3 & Hev3 & Hb3 & Hval). wp_steps.
  pose proof (evicted_mode_ok _ _ Hev3 Hmode) as Hm3. pose proof (evicted_num _ _ Hev3) as Hn3.
  destruct val as [p|].
  - destruct Hval as [Hfr ->]. wp_steps. rewrite Z.eqb_refl. wp_steps. split_and!; [done..|].
    intros Hm He H1 H2 H3 H4. rewrite Hb3. by apply Hfit2.
  - (* the second one *)
    eapply wp_mono; [apply cache_free_spec; auto; [lia|]|].
    { by apply (evicted_covers _ s). }
    intros rc2 s4 Hfr. assert (Hev4 : evicted s s4) by (etransitivity; [done|apply Hfr]).
    destruct (Z.eqb_spec rc2 (- ERR_NO)) as [Hrc|]; wp_steps; [|split_and!; [apply Hfr|done|done]].
    eapply wp_mono; [apply xmalloc_spec, Hfr|]. intros r s5 [Hq5 Hr].
    split_and!; [eapply quiet_Inv; [apply Hfr|done]|etransitivity; [done|apply sim_evicted, Hq5]|].
    destruct r as [p|]; [|done]. split; [done|]. intros Hm He Hb Hm64 Hs Hsz.
    pose proof (evicted_bytes _ _ (proj1 HI) (proj1 HI3) Hev3).
    pose proof (bytes_nonneg _ (proj1 HI3)).
    pose proof (freed_fits _ _ _ _ (proj1 HI3) ltac:(unfold SAFETY_BYTES, PAGE_SIZE in *; lia) Hfr Hrc (evicted_enforcing _ _ Hev3 He)) as H2.
    rewrite (quiet_bytes _ _ Hq5). 
    unfold amt in H2. rewrite wrap_id in H2; unfold urange, SAFETY_BYTES, PAGE_SIZE in *; lia.
Qed.

End Alloc.
