(* ===== verification/Create.v ===== *)
(** Creation of an entry and its insertion into the table: [create_mcd_hashT]
    charges the entry to its owner and to one side of the cache, and linking
    it to the list of its hash restores the invariant. *)
From S2P Require Import Prelude CMonad Types State Core Evict Inv Remove Evicted EvictShared EvictPart Alloc.

(** The detached entries: [p] charged to the shared or to the private side. *)
Abbreviation dshr shr p := (if shr : bool then [p] else []).
Abbreviation dpri shr p := (if shr : bool then [] else [p]).
Abbreviation wf_det shr p := (wf_gen (dshr shr p) (dpri shr p)).

Section Add.
Context {B : Type} `{!Minf B, !MinfLaws B}.
Implicit Types (s : gstate B) (p q : ptr) (e : mcd_hashT) (d : mcd_domain).

(** ** A charged entry that is on no list *)

Definition add_entry (shr : bool) p e s : gstate B :=
  s <| heap ::= <[p := e]> |>
    <| sd ::= note_val_size (mh_val_size e) |>
    <| mcd_data ::= (if shr then data_charge_shr e else data_charge_pri e) |>
    <| doms ::= alter_dom (mh_domain e) (dom_charge e) |>.

Lemma hsum_snoc_fresh (h : gmap Z mcd_hashT) f p e ps : p ∉ ps ->
  hsum (<[p := e]> h) f (ps ++ [p]) = hsum h f ps + f e.
Proof.
  intros Hp. rewrite hsum_app, hsum_insert_notin by done. unfold hsum at 2. cbn.
  rewrite lookup_insert_eq. cbn. lia.
Qed.

Lemma alter_dom_same {A} (f : mcd_domain -> A) domid g (ds : list mcd_domain) :
  (forall d, f (g d) = f d) -> f <$> alter_dom domid g ds = f <$> ds.
Proof.
  intros Hg. induction ds as [|d ds IH]; cbn; [done|].
  destruct (_ =? _); cbn; [by rewrite Hg|by f_equal].
Qed.

Lemma alter_dom_elem domid g (ds : list mcd_domain) d : NoDup (md_domid <$> ds) ->
  d ∈ alter_dom domid g ds ->
  exists d0, d0 ∈ ds /\ d = if md_domid d0 =? domid then g d0 else d0.
Proof. intros Hnd. rewrite alter_dom_fmap by done. intros (d0 & -> & Hd)%list_elem_of_fmap. eauto. Qed.

Section AddWf.
Context (shr : bool) (p : ptr) (e : mcd_hashT) (s : gstate B).
Context (Hwf : wf s) (Hp : forall q, is_Some (heap s !! q) -> q < p) (Hn : p < next_ptr s).
Context (Hok : entry_ok e) (Hown : mh_domain e ∈ domids s).

Lemma add_notin : p ∉ live s.
Proof using Hwf Hp.
  intros H. apply (lo_live _ _ _ (wf_lists _ _ _ Hwf)) in H. apply Hp in H. lia.
Qed.

Lemma add_domids : domids (add_entry shr p e s) = domids s.
Proof using. cbn. by apply alter_dom_same. Qed.

Lemma add_shr_ptrs : shr_ptrs (add_entry shr p e s) = shr_ptrs s.
Proof using. done. Qed.

Lemma add_pri_ptrs : pri_ptrs (add_entry shr p e s) = pri_ptrs s.
Proof using. unfold pri_ptrs. cbn. by rewrite alter_dom_same. Qed.

Lemma add_all_ptrs : all_ptrs (dshr shr p) (dpri shr p) (add_entry shr p e s) ≡ₚ live s ++ [p].
Proof using.
  unfold all_ptrs. rewrite add_shr_ptrs, add_pri_ptrs, live_split.
  destruct shr; rewrite !app_nil_r; [|by rewrite app_assoc].
  rewrite <- !app_assoc. f_equiv. by rewrite Permutation_app_comm.
Qed.

Lemma add_lists_ok : lists_ok (dshr shr p) (dpri shr p) (add_entry shr p e s).
Proof using Hwf Hp Hn Hok Hown.
  pose proof add_notin as Hnot. destruct (wf_lists _ _ _ Hwf) as [H1 H2 H3 H4 H5 H6 H7].
  split; rewrite ?add_domids, ?add_all_ptrs; try done.
  - apply NoDup_app. split_and!; [done| |apply NoDup_singleton]. set_solver.
  - intros q. rewrite add_all_ptrs, elem_of_app, list_elem_of_singleton. cbn.
    rewrite lookup_insert_is_Some'. rewrite (H4 q). naive_solver.
  - cbn. intros q e' [[_ <-]|[_ He]]%lookup_insert_Some; [done|by apply (H5 q)].
  - cbn. intros q e' [[_ <-]|[_ He]]%lookup_insert_Some; [done|by apply (H6 q)].
  - cbn. intros q [->|Hq]%lookup_insert_is_Some'; [done|by apply H7].
Qed.

Lemma add_lookup q e' : q <> p -> heap (add_entry shr p e s) !! q = Some e' -> heap s !! q = Some e'.
Proof using. cbn. intros Hq. by rewrite lookup_insert_ne. Qed.

Lemma add_index_ok : index_ok (add_entry shr p e s).
Proof using Hwf Hp Hn Hok Hown.
  pose proof add_notin as Hnot. rewrite live_split in Hnot.
  assert (Hs : forall q, q ∈ shr_ptrs s -> q <> p) by set_solver.
  assert (Hpr : forall q, q ∈ pri_ptrs s -> q <> p) by set_solver.
  pose proof (lo_domids _ _ _ (wf_lists _ _ _ Hwf)) as Hnd.
  destruct (wf_index _ _ _ Hwf) as [H1 H2 H3 H4].
  assert (Hdm : forall d, d ∈ doms (add_entry shr p e s) -> exists d0, d0 ∈ doms s /\
    md_domid d = md_domid d0 /\ md_hash_list d = md_hash_list d0).
  { cbn. intros d (d0 & Hd & ->)%alter_dom_elem; [|done]. exists d0. by destruct (_ =? _). }
  split; rewrite ?add_shr_ptrs.
  - intros i ps q e' Hi Hq He. eapply H1; [done..|]. eapply add_lookup; [|done]. apply Hs.
    apply elem_of_concat. eauto using list_elem_of_lookup_2.
  - intros q q' e1 e2 Hq Hq' He He'. apply H2; eauto using add_lookup.
  - intros d q e' (d0 & Hd & -> & Hl)%Hdm Hq He. rewrite Hl in Hq. apply (H3 _ q); [done..|].
    eapply add_lookup; [|done]. apply Hpr. by eapply dom_list_in_pri.
  - intros d q q' e1 e2 (d0 & Hd & _ & Hl)%Hdm Hq Hq' He He'. rewrite Hl in *.
    apply (H4 d0 q q' e1 e2); [done..| |]; (eapply add_lookup; [|done]); apply Hpr;
      by eapply dom_list_in_pri.
Qed.

Lemma hsum_add f : hsum (<[p := e]> (heap s)) f
  (all_ptrs (dshr shr p) (dpri shr p) (add_entry shr p e s)) = hsum (heap s) f (live s) + f e.
Proof using Hwf Hp.
  rewrite (hsum_perm _ _ _ _ add_all_ptrs). apply hsum_snoc_fresh, add_notin.
Qed.

Lemma add_acct_ok : acct_ok (dshr shr p) (dpri shr p) (add_entry shr p e s).
Proof using Hwf Hp Hn Hok Hown.
  pose proof add_notin as Hnot. pose proof Hnot as Hnot2. rewrite live_split in Hnot2.
  assert (Hs : p ∉ shr_ptrs s) by set_solver. assert (Hpr : p ∉ pri_ptrs s) by set_solver.
  destruct (wf_acct _ _ _ Hwf) as [H1 H2 H3 H4 H5 H6 H7]. rewrite app_nil_r in *.
  split; rewrite ?add_shr_ptrs, ?add_pri_ptrs.
  7: { intros d. cbn [doms]. rewrite !hsum_add.
    intros (d0 & Hd & ->)%alter_dom_elem; [|apply (wf_lists _ _ _ Hwf)].
    destruct (H7 d0 Hd) as [H8 H9]. unfold owned at 2 4. rewrite (Z.eqb_sym (mh_domain e)).
    destruct (Z.eqb_spec (md_domid d0) (mh_domain e)) as [Heq|Hne]; cbn.
    - rewrite <- Heq, Z.eqb_refl, H8, H9. unfold live. split; solve_wrap.
    - rewrite (proj2 (Z.eqb_neq _ _) Hne), !Z.add_0_r. done. }
  all: cbn; destruct shr; cbn; rewrite ?app_nil_r;
    first [ rewrite hsum_snoc_fresh by done | rewrite hsum_insert_notin by done ];
    first [ done | rewrite ?H1, ?H2, ?H3, ?H4, ?H5, ?H6; solve_wrap ].
Qed.

Lemma wf_add_entry : wf_det shr p (add_entry shr p e s).
Proof using Hwf Hp Hn Hok Hown.
  split; [apply add_lists_ok|apply add_index_ok|apply add_acct_ok|].
  destruct (wf_cfg _ _ _ Hwf) as [H1 H2 H3 H4 H5 H6]. split; cbn; try done.
  - destruct (Z.ltb_spec (query_max (sd_mem (sd s))) (mh_val_size e)); lia.
  - intros d (d0 & Hd & ->)%alter_dom_elem; [|apply (wf_lists _ _ _ Hwf)].
    destruct (_ =? _); cbn; auto.
Qed.
End AddWf.

(** ** Changing an entry in place *)

Section Update.
Context (Ds Dp : list ptr) (p : ptr) (e e' : mcd_hashT) (s : gstate B).
Context (Hwf : wf_gen Ds Dp s) (He : heap s !! p = Some e) (Hok : entry_ok e').
Context (Hd : mh_domain e' = mh_domain e) (Hb : mh_nr_bytes e' = mh_nr_bytes e)
  (Hg : mh_nr_pages e' = mh_nr_pages e).
Context (Hh : mh_hash e' = mh_hash e \/ p ∈ Ds ++ Dp).

Definition upd : gstate B := s <| heap ::= <[p := e']> |>.

Lemma upd_lookup q e1 : heap upd !! q = Some e1 ->
  exists e0, heap s !! q = Some e0 /\ mh_domain e1 = mh_domain e0 /\
    (q ∈ shr_ptrs s ++ pri_ptrs s -> mh_hash e1 = mh_hash e0).
Proof using Hwf He Hok Hd Hb Hg Hh.
  cbn. intros [[<- <-]|[_ H1]]%lookup_insert_Some; [|by eauto].
  exists e. split_and!; [done..|]. intros Hq. destruct Hh as [|HD]; [done|exfalso].
  pose proof (lo_nodup _ _ _ (wf_lists _ _ _ Hwf)) as Hnd. unfold all_ptrs in Hnd.
  apply NoDup_app in Hnd as ((_ & H1 & _)%NoDup_app & H2 & (_ & H3 & _)%NoDup_app).
  set_solver.
Qed.

Lemma upd_hash q e1 : q ∈ shr_ptrs s ++ pri_ptrs s -> heap upd !! q = Some e1 ->
  exists e0, heap s !! q = Some e0 /\ mh_hash e1 = mh_hash e0.
Proof using Hwf He Hok Hd Hb Hg Hh. intros Hq (e0 & H0 & _ & H1)%upd_lookup. eauto. Qed.

Lemma upd_index_ok : index_ok upd.
Proof using Hwf He Hok Hd Hb Hg Hh.
  destruct (wf_index _ _ _ Hwf) as [H1 H2 H3 H4].
  assert (HS : forall q, q ∈ shr_ptrs s -> q ∈ shr_ptrs s ++ pri_ptrs s) by (intros; apply elem_of_app; by left).
  assert (HP : forall d q, d ∈ doms s -> q ∈ md_hash_list d -> q ∈ shr_ptrs s ++ pri_ptrs s).
  { intros d q Hin Hq. apply elem_of_app. right. by eapply dom_list_in_pri. }
  split.
  - intros i ps q e1 Hi Hq (e0 & H0 & ->)%upd_hash; [by eapply H1|].
    apply HS, elem_of_concat. eauto using list_elem_of_lookup_2.
  - intros q q' e1 e2 Hq Hq' Hq1 Hq2 Heq.
    apply upd_hash in Hq1 as (e0 & H0 & Hz), Hq2 as (e3 & H5 & Hz'); [|by apply HS..].
    apply (H2 q q' e0 e3); [done..|]. congruence.
  - intros d q e1 Hin Hq (e0 & H0 & -> & _)%upd_lookup. by eapply H3.
  - intros d q q' e1 e2 Hin Hq Hq' Hq1 Hq2 Heq.
    apply upd_hash in Hq1 as (e0 & H0 & Hz), Hq2 as (e3 & H5 & Hz'); [|by eapply HP..].
    apply (H4 d q q' e0 e3); [done..|]. congruence.
Qed.

Lemma wf_update : wf_gen Ds Dp upd.
Proof using Hwf He Hok Hd Hb Hg Hh.
  split; [| apply upd_index_ok | | by destruct (wf_cfg _ _ _ Hwf)].
  - destruct (wf_lists _ _ _ Hwf) as [H1 H2 H3 H4 H5 H6 H7].
    assert (Hs : forall q, is_Some (heap upd !! q) <-> is_Some (heap s !! q)).
    { intros q. cbn. rewrite lookup_insert_is_Some'. split; [intros [<-|]; [by eexists|done]|by right]. }
    split; try done.
    + intros q. by rewrite Hs, <- H4.
    + cbn. intros q e1 [[_ <-]|[_ Hq]]%lookup_insert_Some; [done|by eapply H5].
    + intros q e1 (e0 & H0 & -> & _)%upd_lookup. by eapply H6.
    + intros q Hq. apply H7. by apply Hs.
  - destruct (wf_acct _ _ _ Hwf) as [H1 H2 H3 H4 H5 H6 H7].
    assert (Hsum : forall f ps, f e' = f e -> hsum (heap upd) f ps = hsum (heap s) f ps).
    { intros. by apply (hsum_insert_same _ _ _ e). }
    split; rewrite ?Hsum by done; try done.
    intros d Hin. rewrite !Hsum; [by apply H7|..]; unfold owned; by rewrite Hd, ?Hb, ?Hg.
Qed.
End Update.

(** ** Linking a detached entry *)

Lemma alter_dom_snoc p domid (ds : list mcd_domain) : NoDup (md_domid <$> ds) -> domid ∈ md_domid <$> ds ->
  concat (md_hash_list <$> alter_dom domid (fun d => d <| md_hash_list ::= fun l => l ++ [p] |>) ds) ≡ₚ
  concat (md_hash_list <$> ds) ++ [p].
Proof.
  induction ds as [|d ds IH]; cbn; [set_solver|]. intros [Hd Hnd]%NoDup_cons Hin.
  destruct (Z.eqb_spec (md_domid d) domid) as [Heq|Hne]; cbn.
  - rewrite <- !app_assoc. f_equiv. apply Permutation_app_comm.
  - rewrite <- app_assoc. f_equiv. apply IH; [done|]. apply elem_of_cons in Hin as [|]; [congruence|done].
Qed.

Section Link.
Context (p : ptr) (e : mcd_hashT) (s : gstate B) (He : heap s !! p = Some e).

Lemma wf_link_shr : wf_det true p s ->
  (forall q e', q ∈ shr_ptrs s -> heap s !! q = Some e' -> mh_hash e' <> mh_hash e) ->
  wf (s <| shared ::= alter (fun l => l ++ [p]) (bucket (mh_hash e)) |>).
Proof using He.
  intros [Hl Hi Ha Hc] Hnew. set (s' := s <| shared ::= _ |>).
  assert (Hb : (bucket (mh_hash e) < length (shared s))%nat).
  { rewrite (lo_len _ _ _ Hl). unfold bucket. pose proof (Z.mod_pos_bound (mh_hash e) MAX_LIST_HEAD eq_refl). lia. }
  assert (Hshr : shr_ptrs s' ≡ₚ shr_ptrs s ++ [p]).
  { unfold shr_ptrs. cbn. rewrite concat_alter_snoc by done. apply Permutation_cons_append. }
  assert (Hall : all_ptrs [] [] s' ≡ₚ all_ptrs [p] [] s).
  { unfold all_ptrs. by rewrite Hshr, app_nil_r. }
  assert (Hin : forall q, q ∈ shr_ptrs s' <-> q ∈ shr_ptrs s \/ q = p) by (intros; rewrite Hshr; set_solver).
  split; [| | |by destruct Hc].
  - destruct Hl as [H1 H2 H3 H4 H5 H6 H7]. split; try done.
    + cbn. by rewrite length_alter.
    + by rewrite Hall.
    + intros q. by rewrite Hall, H4.
  - destruct Hi as [H1 H2 H3 H4]. split; [| |done..].
    + cbn. intros i ps q e' Hi Hq Hq'.
      destruct (decide (i = bucket (mh_hash e))) as [->|Hne]; [|rewrite list_lookup_alter_ne in Hi by done; by eapply H1].
      rewrite list_lookup_alter_eq in Hi. apply fmap_Some in Hi as (ps0 & Hi & ->).
      apply elem_of_app in Hq as [Hq|Hq]; [by eapply H1|]. apply list_elem_of_singleton in Hq as ->. congruence.
    + intros q q' e1 e2 [Hq| ->]%Hin [Hq'| ->]%Hin He1 He2 Heq; [by eapply H2| | |done].
      * change (heap s !! p = Some e2) in He2. rewrite He in He2. injection He2 as <-. by apply Hnew in He1.
      * change (heap s !! p = Some e1) in He1. rewrite He in He1. injection He1 as <-. by apply Hnew in He2.
  - destruct Ha as [H1 H2 H3 H4 H5 H6 H7].
    assert (Hsum : forall f, hsum (heap s') f (shr_ptrs s' ++ []) = hsum (heap s) f (shr_ptrs s ++ [p])).
    { intros f. apply hsum_perm. by rewrite app_nil_r. }
    split; rewrite ?Hsum; try done. intros d Hd. rewrite !(hsum_perm _ _ _ _ Hall). by apply H7.
Qed.

Lemma wf_link_pri : wf_det false p s -> mh_domain e ∈ domids s ->
  (forall q e', q ∈ dlist s (mh_domain e) -> heap s !! q = Some e' -> mh_hash e' <> mh_hash e) ->
  wf (s <| doms ::= alter_dom (mh_domain e) (fun d => d <| md_hash_list ::= fun l => l ++ [p] |>) |>).
Proof using He.
  intros [Hl Hi Ha Hc] Hown Hnew. pose proof (lo_domids _ _ _ Hl) as Hnd.
  set (s' := s <| doms ::= _ |>).
  assert (Hpri : pri_ptrs s' ≡ₚ pri_ptrs s ++ [p]) by (by apply alter_dom_snoc).
  assert (Hall : all_ptrs [] [] s' ≡ₚ all_ptrs [] [p] s).
  { unfold all_ptrs. by rewrite Hpri, !app_nil_r. }
  assert (Hdi : domids s' = domids s) by (by apply alter_dom_same).
  assert (Hdm : forall d, d ∈ doms s' -> exists d0, d0 ∈ doms s /\ md_domid d = md_domid d0 /\
    md_nr_used_bytes d = md_nr_used_bytes d0 /\ md_nr_used_pages d = md_nr_used_pages d0 /\
    md_ratio d = md_ratio d0 /\
    forall q, q ∈ md_hash_list d -> q ∈ md_hash_list d0 \/ q = p /\ md_domid d0 = mh_domain e).
  { cbn. intros d (d0 & Hd & ->)%alter_dom_elem; [|done]. exists d0.
    destruct (Z.eqb_spec (md_domid d0) (mh_domain e)); cbn; split_and!; try done; set_solver. }
  assert (Hdl : forall d q e', d ∈ doms s -> md_domid d = mh_domain e -> q ∈ md_hash_list d ->
    heap s !! q = Some e' -> mh_hash e' <> mh_hash e).
  { intros d q e' Hd Hid Hq. apply Hnew. rewrite <- Hid. by rewrite (dlist_dom _ _ d) by (by apply dom_of_elem). }
  split.
  - destruct Hl as [H1 H2 H3 H4 H5 H6 H7]. split; rewrite ?Hdi; try done.
    + by rewrite Hall.
    + intros q. by rewrite Hall, H4.
  - destruct Hi as [H1 H2 H3 H4]. split; [done..| |].
    + intros d q e1 (d0 & Hd & -> & _ & _ & _ & Hq)%Hdm [?|[-> Hd0]]%Hq He1; [by eapply H3|].
      change (heap s !! p = Some e1) in He1. congruence.
    + intros d q q' e1 e2 (d0 & Hd & _ & _ & _ & _ & Hm)%Hdm [Hq|[-> Hd0]]%Hm [Hq'|[-> Hd1]]%Hm He1 He2 Heq;
        [by eapply H4| | |done].
      * change (heap s !! p = Some e2) in He2. rewrite He in He2. injection He2 as <-. by apply (Hdl d0 q) in He1.
      * change (heap s !! p = Some e1) in He1. rewrite He in He1. injection He1 as <-. by apply (Hdl d0 q') in He2.
  - destruct Ha as [H1 H2 H3 H4 H5 H6 H7].
    assert (Hsum : forall f, hsum (heap s') f (pri_ptrs s' ++ []) = hsum (heap s) f (pri_ptrs s ++ [p])).
    { intros f. apply hsum_perm. by rewrite app_nil_r. }
    split; rewrite ?Hsum; try done.
    intros d (d0 & Hd & -> & -> & -> & _)%Hdm. rewrite !(hsum_perm _ _ _ _ Hall). by apply H7.
  - destruct Hc as [H1 H2 H3 H4 H5 H6]. split; try done.
    intros d (d0 & Hd & _ & _ & _ & -> & _)%Hdm. by apply H6.
Qed.

End Link.

End Add.

Section CreateSpec.
Context {B : Type} `{!Minf B, !MinfLaws B} (env : Env) (tol : fault -> Prop).
Context (Hmini : forall b : B, mcdctl_enabled b = true -> tol NullDeref).
Context (Hnow : forall n, env_now env n <> 0).
Implicit Types (s : gstate B) (p q : ptr) (e : mcd_hashT) (d : mcd_domain).

Definition is_shared s : bool := cache_mode (cfg s) =? MCD_CACHE_MODE_SHARED.

Lemma evicted_is_shared s s' : evicted s s' -> is_shared s' = is_shared s.
Proof. intros H. unfold is_shared. by destruct (evicted_mode _ _ H) as (-> & _). Qed.

(** The entry [create_mcd_hashT] makes at time [t]. *)
Definition made (domid ks vs t : Z) p : mcd_hashT := new_entry env domid ks vs (entry_size env ks vs) t p.

Lemma made_ok domid ks vs t p : urange 32 ks -> urange 32 vs -> entry_ok (made domid ks vs t p).
Proof.
  unfold urange. intros Hk Hv. unfold entry_ok, urange. cbn.
  pose proof (u32_range (entry_size env ks vs)).
  split_and!; try lia; try by destruct (_ =? _).
  unfold uninit. rewrite length_fmap, length_seq. lia.
Qed.

(** A new entry was made after some evictions. *)
Definition created (domid ks vs : Z) s p s' : Prop := exists s1 t,
  Inv s1 /\ evicted s s1 /\ fresh s1 p /\ s' = add_entry (is_shared s) p (made domid ks vs t p) s1 /\
  (max_mem_bytes (cfg s) <> 0 -> within (max_mem_bytes (cfg s)) (entry_size env ks vs) s s1).

Lemma create_spec domid ks vs s : Inv s -> mode_ok s -> (num s < env_fuel env)%nat -> domid ∈ domids s ->
  wp tol (create_mcd_hashT env domid ks vs) (fun r s' =>
    match r with
    | Some p => created domid ks vs s p s'
    | None => Inv s' /\ evicted s s'
    end) s.
Proof using Hmini Hnow.
  intros HI Hm Hf Hin. unfold create_mcd_hashT. wp_steps.
  eapply wp_mono; [apply (mcd_malloc_spec env tol Hmini Hnow); [done..|by left]|].
  intros [p|] s1 (HI1 & Hev1 & Hr); wp_steps; [|done].
  eapply wp_mono; [apply NOW_spec, HI1|]. intros t s2 [-> Hq]. destruct Hr as [[Hfr Hfn] Hw].
  pose proof (quiet_Inv _ _ HI1 Hq) as HI2. destruct Hq as [Hs2 _].
  assert (Hev2 : evicted s s2) by (etransitivity; [done|by apply sim_evicted]).
  rewrite <- (evicted_domids _ _ Hev2) in Hin.
  unfold store. wp_steps. apply wp_find_mcd_dom; [exact Hin|].
  wp_steps. apply wp_dom_update; [exact Hin|]. wp_steps.
  exists s2, (env_now env (tick s1)). split_and!; try done.
  - split; [|pose proof (sim_next _ _ Hs2); lia]. by rewrite (sim_heap _ _ Hs2).
  - unfold add_entry. rewrite <- (evicted_is_shared _ _ Hev2). unfold is_shared. by destruct (_ =? _).
  - unfold within. intros H. rewrite (quiet_bytes s1 s2); [|split; [done|apply HI2]]. by apply Hw.
Qed.

(** The created entry is in place, charged and detached. *)
Lemma created_wf domid ks vs s p s' : created domid ks vs s p s' -> urange 32 ks -> urange 32 vs ->
  domid ∈ domids s ->
  wf_det (is_shared s) p s' /\ ctl_ok s' /\ exists t, heap s' !! p = Some (made domid ks vs t p).
Proof.
  intros (s1 & t & [Hwf Hc] & Hev & [Hfr Hn] & -> & _) Hk Hv Hin. split_and!.
  - apply wf_add_entry; [done..|by apply made_ok|]. by rewrite (evicted_domids _ _ Hev).
  - eapply ctl_gen_env; [..|exact Hc]; try done. cbn. by apply alter_dom_same.
  - exists t. cbn. by rewrite lookup_insert_eq.
Qed.

End CreateSpec.
