(* ===== verification/Ops.v ===== *)
(** The cache operations of xen/common/mcd.c, on the shared table ([s_mcd_*])
    and on the table of a domain ([p_mcd_*]), and the functions below them:
    look-up, [create_hashT], [mcd_page_in] and the flush functions. *)
From S2P Require Import Prelude CMonad Hash Types State Core Evict.

Section Ops.
Context {B : Type} `{!Minf B} (env : Env).
Abbreviation G := (M (gstate B)).
Implicit Types (s : gstate B) (p q : ptr) (e : mcd_hashT).

(** ** Arguments *)

(** The client domain behind [mcd_dom]; [None] is the NULL pointer. *)
Definition mcd_dom_id (md : option Z) : G Z :=
  match md with
  | Some domid => d ← dom_load (DomAt domid); mret (md_domid d)
  | None => raise NullDeref
  end.

(** [copy_from_guest(key, op->key, op->key_size)] and its hash; [getHash]
    takes the length as an [int]. *)
Definition guest_key (op : mcd_arg) : list Z := from_guest (op_key op) (op_key_size op).
Definition key_hash (op : mcd_arg) : Z := SFH.getHash (guest_key op) (s32 (op_key_size op)).

(** [memcpy] of [src] to offset [off] of the buffer [dst]. *)
Definition blit (off : nat) (src dst : list Z) : list Z :=
  take off dst ++ src ++ drop (off + length src) dst.

Definition copy_r_val_size (v : Z) : G unit := modify (fun s => s <| out_rvs := Some (u32 v) |>).
Definition copy_val (v : list Z) : G unit := modify (fun s => s <| out_val := Some v |>).

(** ** Look-up: the first entry of the list with the hash *)

Fixpoint find_mcd_hashT (ps : list ptr) (hash : Z) : G (option ptr) :=
  match ps with
  | [] => mret None
  | p :: ps =>
      e ← load p;
      if mh_hash e =? hash then mret (Some p) else find_mcd_hashT ps hash
  end.

Fixpoint find_mcdctl_hashT (qs : list ptr) (hash : Z) : G (option ptr) :=
  match qs with
  | [] => mret None
  | q :: qs =>
      c ← mch_load q;
      if mch_hash c =? hash then mret (Some q) else find_mcdctl_hashT qs hash
  end.

Definition shared_list (hash : Z) : G (list ptr) := gets (fun s => bucket_list s (bucket hash)).
Definition mcdctl_shared_list (hash : Z) : G (list ptr) :=
  gets (fun s => default [] (mc_shared (ctl s) !! bucket hash)).
Definition mcdctl_dom_list (domid : Z) : G (list ptr) :=
  gets (fun s => default [] (mc_doms (ctl s) !! domid)).

(** [list_add_tail] to a list of the shared table or of a domain. *)
Definition link_shared (hash : Z) p : G unit :=
  modify (fun s => s <| shared ::= alter (fun l => l ++ [p]) (bucket hash) |>).
Definition link_private (domid : Z) p : G unit :=
  dom_update (DomAt domid) (fun d => d <| md_hash_list ::= fun l => l ++ [p] |>).

(** ** Creation from a guest request *)

Definition create_hashT (op : mcd_arg) (domid : Z) : G (option ptr) :=
  mh ← create_mcd_hashT env domid (op_key_size op) (op_val_size op);
  match mh with
  | None => mret None
  | Some p =>
      e ← load p;
      let kv := blit 0 (guest_key op) (mh_key_val e) in
      let kv := blit (Z.to_nat (op_key_size op)) (from_guest (op_val op) (op_val_size op)) kv in
      copy_r_val_size (mh_val_size e);;
      store p (e <| mh_key_val := kv |>
                 <| mh_hash := SFH.getHash kv (s32 (op_key_size op)) |>);;
      mret (Some p)
  end.

(** [P_REC_AVG_CAL]: the operands of the division are evaluated left to
    right, so the average is weighted with the count before the increment. *)
Definition P_REC_AVG_CAL (domid ms : Z) : G unit :=
  d ← dom_load (DomAt domid);
  let num := u32 (u32 (md_rec_cost_avg d * md_nr_keys d) + ms) in
  let keys := u32 (md_nr_keys d + 1) in
  avg ← div_or_trap num keys;
  dom_update (DomAt domid) (fun d => d <| md_nr_keys := keys |> <| md_rec_cost_avg := avg |>).

(** The macro [set_query_time(mh, ms, mem)]. *)
Definition set_query_time (domid p ms : Z) : G unit :=
  e ← load p;
  store p (e <| mh_query_time_ms := ms |>);;
  modify (fun s => s <| sd ::= fun x => x <| sd_mem ::= fun m =>
    m <| query_max ::= fun q => if q <? ms then ms else q |> |> |>);;
  P_REC_AVG_CAL domid ms.

(** ** Bringing an entry back from the second tier *)

Definition mcd_page_in q : G (option ptr) :=
  s ← get;
  if negb (ctl_enabled s) then mret None
  else
    c ← mch_load q;
    mh ← create_mcd_hashT env (mch_domain c) (mch_key_size c) (mch_val_size c);
    match mh with
    | None => mret None
    | Some p =>
        c ← mch_load q;
        e ← load p;
        let e := e <| mh_hash := mch_hash c |> in
        r ← minf (minf_page_in e);
        store p (e <| mh_key_val := snd r |>);;
        if negb (Z.land (mh_flags e) MCD_MINF_ERROR =? 0) then
          remove_hashT_wo_page_out p;;
          mret None
        else
          mcdctl_free (Some q);;
          mret (Some p)
    end.

(** ** Statistics *)

Definition bump (size i : Z) (upd : (gmap Z Z -> gmap Z Z) -> stats -> stats) : G unit :=
  if (0 <=? i) && (i <? size)
  then modify (fun s => s <| st ::= upd (fun m => <[i := u32 (default 0 (m !! i) + 1)]> m) |>)
  else raise OutOfBounds.

Definition bump_query_time (i : Z) : G unit := bump MAX_QUERY_TIME i (fun f t => t <| query_time ::= f |>).
Definition bump_reaccess_ms (i : Z) : G unit :=
  bump MAX_REACCESS_TIME_MS i (fun f t => t <| reaccess_time_ms ::= f |>).
Definition bump_reaccess (i : Z) : G unit :=
  bump MAX_REACCESS_TIME i (fun f t => t <| reaccess_time ::= f |>).

Definition ms_of (ns : Z) : Z := u32 (ns / 1000000).
Definition sec_of (ns : Z) : Z := u32 (ns / 1000000000).

(** The time since the entry was put. *)
Definition time_diff_ns p : G Z :=
  now ← NOW env;
  e ← load p;
  mret (u64 (now - mh_put_time e)).

Definition put_time_stats (ns : Z) : G unit :=
  modify (fun s => s <| st ::= fun t =>
    t <| max_get_put_time ::= Z.max ns |> <| min_get_put_time ::= Z.min ns |> |>);;
  if MAX_QUERY_TIME <=? ms_of ns then bump_query_time (MAX_QUERY_TIME - 1)
  else bump_query_time (ms_of ns).

Definition put_length_stats (op : mcd_arg) : G unit :=
  modify (fun s => s <| st ::= fun t =>
    t <| num_put_request ::= fun n => u32 (n + 1) |>
      <| max_val_length ::= Z.max (op_val_size op) |> <| min_val_length ::= Z.min (op_val_size op) |>
      <| max_key_length ::= Z.max (op_key_size op) |> <| min_key_length ::= Z.min (op_key_size op) |> |>).

(** The array indexed with the milliseconds is the one of the seconds. *)
Definition get_time_stats p : G unit :=
  ns ← time_diff_ns p;
  (if sec_of ns =? 0 then
     if MAX_REACCESS_TIME_MS <=? ms_of ns then bump_reaccess_ms (MAX_REACCESS_TIME_MS - 1)
     else bump_reaccess (ms_of ns)
   else
     if MAX_REACCESS_TIME <=? sec_of ns then bump_reaccess (MAX_REACCESS_TIME - 1)
     else bump_reaccess (sec_of ns));;
  e ← load p;
  modify (fun s => s <| st ::= fun t =>
    if (0 <? mh_val_size e) && (Z.of_nat (length (ftm t)) <? NUM_USERS)
    then t <| ftm ::= fun l => l ++ [(ms_of ns, mh_ref e)] |> else t |>).

Definition get_count_stats : G unit :=
  modify (fun s => s <| st ::= fun t =>
    t <| hit_total ::= fun n => u32 (n + 1) |> <| num_get_request ::= fun n => u32 (n + 1) |>
      <| hit_success ::= fun n => u32 (n + 1) |> |>).

(** ** Parts common to the two tables *)

(** The end of a [get] that found an entry. *)
Definition deliver (op : mcd_arg) p rc : G Z :=
  e ← load p;
  now ← NOW env;
  store p (e <| mh_ref := u32 (mh_ref e + 1) |> <| mh_put_time := now |>);;
  if op_val_size op <? mh_val_size e then mret (- ERR_MCDFAULT)
  else
    copy_r_val_size (mh_val_size e);;
    copy_val (take (Z.to_nat (mh_val_size e)) (drop (Z.to_nat (mh_key_size e)) (mh_key_val e)));;
    mret rc.

(** Forgetting an entry of the second tier. *)
Definition mcdctl_forget q : G unit :=
  c ← mch_load q;
  minf (minf_page_del (mch_domain c) (mch_hash c));;
  mcdctl_free (Some q).

Definition forget_some (mch : option ptr) : G unit :=
  match mch with
  | Some q => mcdctl_forget q
  | None => mret tt
  end.

(** What [check] answers, and its code. *)
Definition check_answer (mh mch : option ptr) : G Z :=
  match mh, mch with
  | Some p, _ => e ← load p; copy_r_val_size (mh_val_size e);; mret RET_GET_MEM
  | None, Some q => c ← mch_load q; copy_r_val_size (mch_val_size c);; mret RET_GET_SSD
  | None, None => copy_r_val_size (- ERR_NOEXIST);; mret (- ERR_NO)
  end.

(** The zero-length entry that [check] makes to time the next [put]. *)
Definition check_entry (op : mcd_arg) (domid : Z) : G (option ptr) :=
  mh ← create_mcd_hashT env domid (op_key_size op) 0;
  match mh with
  | None => mret None
  | Some p =>
      e ← load p;
      store p (e <| mh_hash := key_hash op |> <| mh_key_val := blit 0 (guest_key op) (mh_key_val e) |>);;
      mret (Some p)
  end.

(** ** The shared table *)

Definition s_mcd_check (md : option Z) (op : mcd_arg) : G Z :=
  let hash := key_hash op in
  ps ← shared_list hash;
  mh ← find_mcd_hashT ps hash;
  match mh with
  | Some _ => check_answer mh None
  | None =>
      qs ← mcdctl_shared_list hash;
      mch ← find_mcdctl_hashT qs hash;
      check_answer None mch;;
      domid ← mcd_dom_id md;
      mh ← check_entry op domid;
      match mh with
      | Some p => link_shared hash p;; mret (- ERR_NO)
      | None => mret (- ERR_NO)
      end
  end;;
  mret (- ERR_NO).

Definition s_mcd_put (md : option Z) (op : mcd_arg) : G Z :=
  let hash := key_hash op in
  ps ← shared_list hash;
  mh ← find_mcd_hashT ps hash;
  ms ← (match mh with
        | Some p =>
            ns ← time_diff_ns p;
            put_time_stats ns;;
            s_remove_hashT env mh DO_NOT_MOVE_TO_SSD;;
            mret (ms_of ns)
        | None =>
            qs ← mcdctl_shared_list hash;
            mch ← find_mcdctl_hashT qs hash;
            forget_some mch;;
            mret 0
        end);
  put_length_stats op;;
  domid ← mcd_dom_id md;
  mh ← create_hashT op domid;
  match mh with
  | None => mret (- ERR_MCDFAULT)
  | Some p =>
      set_query_time domid p ms;;
      link_shared hash p;;
      e ← load p;
      copy_r_val_size (mh_val_size e);;
      mret (- ERR_NO)
  end.

Definition s_mcd_get (md : option Z) (op : mcd_arg) : G Z :=
  let hash := key_hash op in
  ps ← shared_list hash;
  mh ← find_mcd_hashT ps hash;
  x ← (match mh with
       | Some p => mret (mh, RET_GET_MEM)
       | None =>
           qs ← mcdctl_shared_list hash;
           mch ← find_mcdctl_hashT qs hash;
           match mch with
           | None => mret (None, - ERR_NO)
           | Some q =>
               mh ← mcd_page_in q;
               match mh with
               | Some p => link_shared hash p;; mret (mh, RET_GET_SSD)
               | None => mret (None, RET_GET_SSD)
               end
           end
       end);
  let '(mh, rc) := x in
  (match mh with
   | Some p => get_time_stats p
   | None => mret tt
   end);;
  get_count_stats;;
  match mh with
  | None => mret (- ERR_MCDFAULT)
  | Some p => deliver op p rc
  end.

Definition s_mcd_remove (md : option Z) (op : mcd_arg) : G Z :=
  let hash := key_hash op in
  ps ← shared_list hash;
  mh ← find_mcd_hashT ps hash;
  match mh with
  | None =>
      qs ← mcdctl_shared_list hash;
      mch ← find_mcdctl_hashT qs hash;
      forget_some mch;;
      mret (- ERR_NO)
  | Some _ =>
      s_remove_hashT env mh DO_NOT_MOVE_TO_SSD;;
      mret (- ERR_NO)
  end.

(** ** Flushing

    The loops free an element when the next one is visited. *)
Definition flush_visit (free : option ptr -> G unit) (curr : ptr) (prev : option ptr)
    : G (loopctl (option ptr)) :=
  match prev with
  | None => mret (Continue (Some curr))
  | Some _ => free prev;; mret (Continue (Some curr))
  end.

Definition flush_list (free : option ptr -> G unit) (ps : list ptr) : G unit :=
  prev ← for_each ps (flush_visit free) None;
  match prev with
  | Some _ => free prev
  | None => mret tt
  end.

Definition mcdctl_flush_bucket (i : nat) (_ : unit) : G (loopctl unit) :=
  s ← get;
  flush_list mcdctl_free (default [] (mc_shared (ctl s) !! i));;
  modify (fun s => s <| ctl ::= fun c => c <| mc_shared ::= <[i := []]> |> |>);;
  mret (Continue tt).

Definition mcdctl_flush : G unit :=
  for_each buckets mcdctl_flush_bucket tt;;
  minf minf_page_flush;;
  exit_mcdctl.

Definition mcdctl_dom_flush (domid : Z) : G unit :=
  qs ← mcdctl_dom_list domid;
  flush_list mcdctl_free qs;;
  modify (fun s => s <| ctl ::= fun c => c <| mc_doms ::= <[domid := []]> |> |>);;
  minf (minf_page_dom_flush domid);;
  mret tt.

Definition s_flush_bucket (i : nat) (_ : unit) : G (loopctl unit) :=
  s ← get;
  flush_list (fun mh => s_remove_hashT env mh DO_NOT_MOVE_TO_SSD;; mret tt) (bucket_list s i);;
  modify (fun s => s <| shared ::= <[i := []]> |>);;
  mret (Continue tt).

Definition s_mcd_flush : G Z :=
  for_each buckets s_flush_bucket tt;;
  mcdctl_flush;;
  mret (- ERR_NO).

Definition p_mcd_flush (md : option Z) : G Z :=
  match md with
  | None => mret (- ERR_NOEXIST)
  | Some domid =>
      ps ← dom_list (DomAt domid);
      flush_list (fun mh => p_remove_hashT env domid mh DO_NOT_MOVE_TO_SSD;; mret tt) ps;;
      dom_update (DomAt domid) (fun d => d <| md_hash_list := [] |>);;
      mcdctl_dom_flush domid;;
      mret (- ERR_NO)
  end.

(** ** The table of a domain *)

Definition p_mcd_check (md : option Z) (op : mcd_arg) : G Z :=
  let hash := key_hash op in
  domid ← mcd_dom_id md;
  ps ← dom_list (DomAt domid);
  mh ← find_mcd_hashT ps hash;
  match mh with
  | Some _ => check_answer mh None
  | None =>
      qs ← mcdctl_dom_list domid;
      mch ← find_mcdctl_hashT qs hash;
      rc ← check_answer None mch;
      mh ← check_entry op domid;
      match mh with
      | Some p => link_private domid p;; mret rc
      | None => mret rc
      end
  end.

Definition p_mcd_remove (md : option Z) (op : mcd_arg) : G Z :=
  let hash := key_hash op in
  domid ← mcd_dom_id md;
  ps ← dom_list (DomAt domid);
  mh ← find_mcd_hashT ps hash;
  match mh with
  | None =>
      qs ← mcdctl_dom_list domid;
      mch ← find_mcdctl_hashT qs hash;
      forget_some mch;;
      mret (- ERR_NO)
  | Some _ =>
      p_remove_hashT env domid mh DO_NOT_MOVE_TO_SSD;;
      mret (- ERR_NO)
  end.

(** An entry that is replaced is moved out to the second tier first. *)
Definition p_mcd_put (md : option Z) (op : mcd_arg) : G Z :=
  let hash := key_hash op in
  domid ← mcd_dom_id md;
  ps ← dom_list (DomAt domid);
  mh ← find_mcd_hashT ps hash;
  ms ← (match mh with
        | Some p =>
            ns ← time_diff_ns p;
            p_remove_hashT env domid mh MOVE_TO_SSD;;
            mret (ms_of ns)
        | None =>
            qs ← mcdctl_dom_list domid;
            mch ← find_mcdctl_hashT qs hash;
            forget_some mch;;
            mret 0
        end);
  mh ← create_hashT op domid;
  match mh with
  | None => mret (- ERR_MCDFAULT)
  | Some p =>
      set_query_time domid p ms;;
      link_private domid p;;
      e ← load p;
      copy_r_val_size (mh_val_size e);;
      mret (- ERR_NO)
  end.

Definition p_mcd_get (md : option Z) (op : mcd_arg) : G Z :=
  let hash := key_hash op in
  domid ← mcd_dom_id md;
  ps ← dom_list (DomAt domid);
  mh ← find_mcd_hashT ps hash;
  x ← (match mh with
       | Some p => mret (mh, RET_GET_MEM)
       | None =>
           qs ← mcdctl_dom_list domid;
           mch ← find_mcdctl_hashT qs hash;
           match mch with
           | None => mret (None, - ERR_NO)
           | Some q =>
               mh ← mcd_page_in q;
               match mh with
               | Some p => link_private domid p;; mret (mh, RET_GET_SSD)
               | None => mret (None, RET_GET_SSD)
               end
           end
       end);
  let '(mh, rc) := x in
  match mh with
  | None => mret (- ERR_MCDFAULT)
  | Some p => deliver op p rc
  end.

End Ops.
