(* ===== verification/View.v ===== *)
(** The abstract view of the cache: a map from a table (the shared one or the
    one of a domain) and a hash to the value stored there, and what the
    primitive steps of the cache do to it. *)
From S2P Require Import Prelude CMonad Hash Types State Core Evict Inv Remove Evicted EvictShared EvictPart Alloc Create Ops.

Section View.
Context {B : Type} `{!Minf B, !MinfLaws B}.
Implicit Types (s : gstate B) (p q : ptr) (e : mcd_hashT) (d : mcd_domain) (k : option Z) (h : Z) (v : list Z).

(** [None] is the shared table, [Some domid] the table of a domain. *)
Definition tbl s k : list ptr :=
  match k with
  | None => shr_ptrs s
  | Some domid => dlist s domid
  end.

Definition entry_val e : list Z :=
  take (Z.to_nat (mh_val_size e)) (drop (Z.to_nat (mh_key_size e)) (mh_key_val e)).

Definition val_at s k h v : Prop :=
  exists p e, p ∈ tbl s k /\ heap s !! p = Some e /\ mh_hash e = h /\ entry_val e = v.

(** The view as a finite map. *)
Definition row s k (ps : list ptr) : list (option Z * Z * list Z) :=
  omap (fun p => (fun e => (k, mh_hash e, entry_val e)) <$> heap s !! p) ps.

Definition rows s : list (option Z * Z * list Z) :=
  row s None (shr_ptrs s) ++ concat ((fun d => row s (Some (md_domid d)) (md_hash_list d)) <$> doms s).

Definition abs s : gmap (option Z * Z) (list Z) := list_to_map (rows s).

Lemma elem_of_row s k ps k' h v : (k', h, v) ∈ row s k ps <->
  k' = k /\ exists p e, p ∈ ps /\ heap s !! p = Some e /\ mh_hash e = h /\ entry_val e = v.
Proof.
  unfold row. rewrite list_elem_of_omap. split.
  - intros (p & Hp & (e & He & Heq)%fmap_Some). simplify_eq. split; [done|]. by exists p, e.
  - intros (-> & p & e & Hp & He & <- & <-). exists p. by rewrite He.
Qed.

Lemma elem_of_rows s k h v : wf s -> (k, h, v) ∈ rows s <-> val_at s k h v.
Proof.
  intros Hwf. pose proof (lo_domids _ _ _ (wf_lists _ _ _ Hwf)) as Hnd.
  unfold rows. rewrite elem_of_app, elem_of_concat, elem_of_row. unfold val_at. split.
  - intros [(-> & H)|(r & (d & -> & Hd)%list_elem_of_fmap & (-> & H)%elem_of_row)]; [done|].
    cbn. rewrite (dlist_dom _ _ d); [done|by apply dom_of_elem].
  - intros H. destruct k as [domid|]; [right|by left]. cbn in H. unfold dlist in H.
    destruct (dom_of (doms s) domid) as [d|] eqn:Hof; cbn in H; [|destruct H as (?&?&?&_); set_solver].
    apply dom_of_Some in Hof as [Hd <-]. eexists. split; [apply list_elem_of_fmap; by exists d|].
    by apply elem_of_row.
Qed.

Lemma val_at_unique s k h v v' : wf s -> val_at s k h v -> val_at s k h v' -> v = v'.
Proof.
  intros Hwf (p & e & Hp & He & Hh & <-) (q & e' & Hq & He' & Hh' & <-).
  assert (p = q) as ->; [|congruence]. destruct k as [domid|]; cbn in *.
  - unfold dlist in *. destruct (dom_of (doms s) domid) as [d|] eqn:Hof; cbn in *; [|set_solver].
    apply dom_of_Some in Hof as [Hd _]. eapply (ix_pri_uniq _ (wf_index _ _ _ Hwf) d); eauto. congruence.
  - eapply (ix_shr_uniq _ (wf_index _ _ _ Hwf)); eauto. congruence.
Qed.

Lemma abs_lookup s k h v : wf s -> abs s !! (k, h) = Some v <-> val_at s k h v.
Proof.
  intros Hwf. rewrite <- elem_of_rows by done. unfold abs. symmetry. apply elem_of_list_to_map'.
  intros v'. rewrite !elem_of_rows by done. intros. by eapply val_at_unique.
Qed.

Lemma abs_subseteq s s' : wf s -> wf s' -> (forall k h v, val_at s' k h v -> val_at s k h v) -> abs s' ⊆ abs s.
Proof. intros H H' Hv. apply map_subseteq_spec. intros [k h] v. rewrite !abs_lookup by done. apply Hv. Qed.

Lemma abs_eq s s' : wf s -> wf s' -> (forall k h v, val_at s' k h v <-> val_at s k h v) -> abs s' = abs s.
Proof.
  intros H H' Hv. apply map_eq. intros [k h]. apply option_eq. intros v. rewrite !abs_lookup by done. apply Hv.
Qed.

Lemma tbl_in_live s k p : p ∈ tbl s k -> p ∈ shr_ptrs s ++ pri_ptrs s.
Proof.
  intros Hp. apply elem_of_app. destruct k; cbn in *; [right; by eapply dlist_in_pri|by left].
Qed.

(** ** The view under the steps *)

Lemma dlist_sim s s' domid : Forall2 (fun d d' => md_domid d' = md_domid d /\ md_hash_list d' = md_hash_list d)
  (doms s) (doms s') -> dlist s' domid = dlist s domid.
Proof.
  unfold dlist. induction 1 as [|d d' ds ds' [Hd Hl] _ IH]; [done|].
  rewrite !dom_of_cons, Hd. by case_decide.
Qed.

Lemma val_at_ext s s' k h v : tbl s' k = tbl s k -> heap s' = heap s -> val_at s' k h v <-> val_at s k h v.
Proof. intros Ht Hh. unfold val_at. by rewrite Ht, Hh. Qed.

Lemma tbl_sim s s' k : sim s s' -> tbl s' k = tbl s k.
Proof.
  intros Hs. destruct k as [domid|]; cbn; [|by apply sim_shr_ptrs].
  apply dlist_sim. eapply Forall2_impl; [apply Hs|]. intros d d' ->. by destruct d.
Qed.

Lemma val_at_sim s s' k h v : sim s s' -> val_at s' k h v <-> val_at s k h v.
Proof. intros Hs. apply val_at_ext; [by apply tbl_sim|apply Hs]. Qed.

Lemma tbl_evicted s s' k p : evicted s s' -> p ∈ tbl s' k -> p ∈ tbl s k.
Proof.
  intros Hev. destruct k as [domid|]; cbn.
  - unfold dlist. pose proof (evi_doms _ _ Hev) as Hd. induction Hd as [|d d' ds ds' Hd _ IH]; [done|].
    rewrite !dom_of_cons, (ds_domid _ _ Hd). case_decide; [|done]. cbn.
    apply sublist_subseteq. apply Hd.
  - apply sublist_subseteq. apply concat_sublist, Hev.
Qed.

Lemma val_at_evicted s s' k h v : evicted s s' -> val_at s' k h v -> val_at s k h v.
Proof.
  intros Hev (p & e & Hp & He & H). exists p, e. split_and!; [by eapply tbl_evicted|..]; try apply H.
  by apply (lookup_weaken (heap s')), Hev.
Qed.

(** Removing the entry [p] of table [k0] takes its row out. *)
Lemma val_at_drop shr k0 p e s s' k h v : wf s -> p ∈ tbl s k0 -> heap s !! p = Some e ->
  sim (drop_entry shr p e s) s' ->
  val_at s' k h v <-> val_at s k h v /\ (k, h) <> (k0, mh_hash e).
Proof.
  intros Hwf Hp He Hs.
  assert (Ht : tbl s' k = unlink p (tbl s k)).
  { destruct k as [domid|]; cbn; [by eapply dlist_step|].
    rewrite (sim_shr_ptrs _ _ Hs). apply drop_entry_shr_ptrs. }
  assert (Hh : heap s' = delete p (heap s)) by apply (sim_heap _ _ Hs).
  unfold val_at. rewrite Ht, Hh. split.
  - intros (q & e' & [Hq Hne]%elem_of_drop_elem & He' & <- & <-). rewrite lookup_delete_ne in He' by done.
    split; [by exists q, e'|]. intros [= -> Heq]. apply Hne. destruct k0 as [domid|]; cbn in *.
    + unfold dlist in *. destruct (dom_of (doms s) domid) as [d|] eqn:Hof; cbn in *; [|set_solver].
      apply dom_of_Some in Hof as [Hd _]. by eapply (ix_pri_uniq _ (wf_index _ _ _ Hwf) d).
    + by eapply (ix_shr_uniq _ (wf_index _ _ _ Hwf)).
  - intros ((q & e' & Hq & He' & <- & <-) & Hne). exists q, e'.
    assert (q <> p).
    { intros ->. rewrite He in He'. injection He' as <-. apply Hne. f_equal.
      destruct k as [dk|], k0 as [d0|]; cbn in *; [| | |done].
      - by rewrite <- (dlist_owner _ _ _ _ Hwf Hq He), <- (dlist_owner _ _ _ _ Hwf Hp He).
      - by apply dlist_in_pri, (shr_pri_disjoint s p Hwf Hp) in Hq.
      - by apply dlist_in_pri, (shr_pri_disjoint s p Hwf Hq) in Hp. }
    split_and!; [by apply elem_of_drop_elem|by rewrite lookup_delete_ne|done..].
Qed.

Lemma val_at_update p e e' s k h v : heap s !! p = Some e -> mh_hash e' = mh_hash e ->
  entry_val e' = entry_val e -> val_at (upd p e' s) k h v <-> val_at s k h v.
Proof.
  intros He Hh Hv. unfold val_at, upd. cbn. split; intros (q & e1 & Hq & He1 & <- & <-).
  - apply lookup_insert_Some in He1 as [[<- <-]|[_ He1]]; [exists p, e|by exists q, e1].
    by rewrite Hh, Hv.
  - destruct (decide (p = q)) as [<-|Hne].
    + rewrite He in He1. injection He1 as <-. exists p, e'. by rewrite lookup_insert_eq, Hh, Hv.
    + exists q, e1. by rewrite lookup_insert_ne.
Qed.

(** A change at an address on no list is invisible. *)
Lemma val_at_off_list p s s' k h v : (p ∉ shr_ptrs s ++ pri_ptrs s) -> tbl s' k = tbl s k ->
  (forall q, q <> p -> heap s' !! q = heap s !! q) -> val_at s' k h v <-> val_at s k h v.
Proof.
  intros Hp Ht Hh. unfold val_at. rewrite Ht.
  split; intros (q & e & Hq & He & H); exists q, e; (split_and!; [done| |apply H..]);
    rewrite ?Hh in * by (intros ->; by apply tbl_in_live in Hq); done.
Qed.

End View.
