(* ===== verification/OpsLib.v ===== *)
(** Specifications of the parts the cache operations are made of: look-up,
    the second tier, creation from a guest request and linking. *)
From S2P Require Import Prelude CMonad Hash Types State Core Evict Inv Remove Evicted EvictShared EvictPart Alloc Create Ops View.

Section Frame.
Context {B : Type} `{!Minf B, !MinfLaws B}.
Implicit Types (s : gstate B) (p q : ptr) (e : mcd_hashT) (d : mcd_domain) (k : option Z) (h : Z) (v : list Z).

(** What no cache operation touches. *)
Record frame s s' : Prop := {
  fr_cfg : cfg s' = (cfg s) <| current_free_memory_bytes := current_free_memory_bytes (cfg s') |>;
  fr_domids : domids s' = domids s;
  fr_xdoms : xdoms s' = xdoms s;
}.

#[export] Instance frame_preorder : PreOrder frame.
Proof.
  split.
  - intros s. split; try done. by destruct (cfg s).
  - intros s1 s2 s3 [] []. split; try congruence. by rewrite fr_cfg1, fr_cfg0.
Qed.

Lemma evicted_frame s s' : evicted s s' -> frame s s'.
Proof. intros H. split; [apply H|by apply evicted_domids|apply H]. Qed.

Lemma soft_frame s s' : soft s s' -> frame s s'.
Proof. intros H. split; [apply H|by apply soft_domids|apply H]. Qed.

Lemma drop_frame shr p e s : NoDup (domids s) -> frame s (drop_entry shr p e s).
Proof. intros H. split; [cbn; by destruct (cfg s)|by apply drop_entry_domids|done]. Qed.

Lemma frame_modes s s' : frame s s' -> is_shared s' = is_shared s /\ (mode_ok s -> mode_ok s').
Proof. intros H. unfold is_shared, mode_ok. rewrite (fr_cfg _ _ H). done. Qed.

#[export] Instance soft_refl : Reflexive (soft (B := B)).
Proof.
  intros s. split; try done; [|by destruct (cfg s)]. apply Forall2_refl. intros d. by split.
Qed.

Lemma soft_trans s1 s2 s3 : soft s1 s2 -> soft s2 s3 -> soft s1 s3.
Proof.
  intros [H1 H2 H3 H4 H5 H6 H7 H8 H9] [K1 K2 K3 K4 K5 K6 K7 K8 K9]. split; try congruence; try lia.
  - eapply Forall2_trans; [|done..]. intros d1 d2 d3 [] []. split; congruence.
  - by rewrite K7, H7.
Qed.

Lemma soft_tbl s s' k : soft s s' -> tbl s' k = tbl s k.
Proof.
  intros Hs. destruct k as [domid|]; cbn.
  - apply dlist_sim. eapply Forall2_impl; [apply Hs|]. by intros d d' [].
  - unfold shr_ptrs. by rewrite (so_shared _ _ Hs).
Qed.

Lemma val_at_soft s s' k h v : soft s s' -> val_at s' k h v <-> val_at s k h v.
Proof. intros Hs. apply val_at_ext; [by apply soft_tbl|apply Hs]. Qed.

Lemma soft_num s s' : soft s s' -> num s' = num s.
Proof.
  intros Hs. unfold num. rewrite !live_split, (soft_pri_ptrs _ _ Hs). unfold shr_ptrs.
  by rewrite (so_shared _ _ Hs).
Qed.

Lemma ctl_soft D s s' : soft s s' -> ctl s' = ctl s -> be s' = be s -> ctl_gen D s -> ctl_gen D s'.
Proof.
  intros Hs Hc Hb. apply ctl_gen_env; try done; [apply Hs|by apply soft_domids|].
  by rewrite (so_cfg _ _ Hs).
Qed.

Definition softly s s' : Prop := soft s s' /\ ctl_ok s'.

Lemma soft_same s s' : mcd_data s' = mcd_data s -> heap s' = heap s -> shared s' = shared s ->
  doms s' = doms s -> next_ptr s' = next_ptr s -> xdoms s' = xdoms s -> cfg s' = cfg s -> sd s' = sd s ->
  soft s s'.
Proof.
  intros H1 H2 H3 H4 H5 H6 H7 H8. split; rewrite ?H4, ?H7, ?H8; try done; try lia; [|by destruct (cfg s)].
  apply Forall2_refl. intros d. by split.
Qed.

(** A soft change of one domain. *)
Lemma soft_alter_dom s domid f : (forall d, dom_soft d (f d)) -> soft s (s <| doms ::= alter_dom domid f |>).
Proof.
  intros Hf. split; try done; [|by cbn; destruct (cfg s)]. cbn.
  induction (doms s) as [|d ds IH]; cbn; [constructor|].
  destruct (_ =? _); constructor; [apply Hf|apply Forall2_refl; intros ?; by split|by split|done].
Qed.

(** Sizes of the arguments, and guest buffers that hold what they say. *)
Record arg_ok (op : mcd_arg) : Prop := {
  ao_key : urange 32 (op_key_size op);
  ao_val : urange 32 (op_val_size op);
  ao_key_buf : op_key_size op <= Z.of_nat (length (op_key op));
}.

Definition put_arg_ok (op : mcd_arg) : Prop :=
  arg_ok op /\ op_val_size op <= Z.of_nat (length (op_val op)).

Lemma key_hash_range op : urange 32 (key_hash op).
Proof. apply SFH.getHash_range. Qed.

End Frame.

Section Find.
Context {B : Type} `{!Minf B, !MinfLaws B} (tol : fault -> Prop).
Implicit Types (s : gstate B) (p q : ptr) (e : mcd_hashT) (d : mcd_domain) (k : option Z) (h : Z) (v : list Z).

(** The answer of a look-up for [h] in table [k]. *)
Definition found s k h (r : option ptr) : Prop :=
  match r with
  | Some p => p ∈ tbl s k /\ exists e, heap s !! p = Some e /\ mh_hash e = h
  | None => forall p e, p ∈ tbl s k -> heap s !! p = Some e -> mh_hash e <> h
  end.

Lemma find_spec ps h s : (forall p, p ∈ ps -> is_Some (heap s !! p)) ->
  wp tol (find_mcd_hashT ps h) (fun r s' => s' = s /\
    match r with
    | Some p => p ∈ ps /\ exists e, heap s !! p = Some e /\ mh_hash e = h
    | None => forall p e, p ∈ ps -> heap s !! p = Some e -> mh_hash e <> h
    end) s.
Proof.
  induction ps as [|p ps IH]; intros Hl; cbn [find_mcd_hashT].
  - wp_steps. split; [done|]. intros p e Hp. set_solver.
  - destruct (Hl p) as [e He]; [set_solver|]. wp_steps. eapply wp_load; [done|].
    destruct (Z.eqb_spec (mh_hash e) h) as [Hh|Hh]; wp_steps.
    + split; [done|]. split; [set_solver|eauto].
    + eapply wp_mono; [apply IH; set_solver|]. intros [q|] s' (-> & H); (split; [done|]).
      * destruct H. split; [set_solver|done].
      * intros q e' [->|Hq]%elem_of_cons He'; [congruence|by eapply H].
Qed.

Lemma shared_find_spec h s : wf s ->
  wp tol (find_mcd_hashT (bucket_list s (bucket h)) h) (fun r s' => s' = s /\ found s None h r) s.
Proof.
  intros Hwf.
  eapply wp_mono; [apply find_spec|].
  { intros p Hp%bucket_in_shr. destruct (live_entry s p Hwf); [apply elem_of_app; by left|eauto]. }
  intros [p|] s' (-> & H); (split; [done|]).
  - destruct H as [Hp H]. split; [by eapply bucket_in_shr|done].
  - intros p e (ps & Hps & Hp)%elem_of_concat He Hh. apply list_elem_of_lookup in Hps as [i Hi].
    pose proof (ix_bucket _ (wf_index _ _ _ Hwf) i ps p e Hi Hp He) as Hb. rewrite Hh in Hb.
    apply (H p e); [|done..]. unfold bucket_list. by rewrite Hb, Hi.
Qed.

Lemma wp_dom_list domid (Q : list ptr -> gstate B -> Prop) s : domid ∈ domids s ->
  Q (dlist s domid) s -> wp tol (dom_list (DomAt domid)) Q s.
Proof.
  intros Hin HQ. unfold dom_list. wp_steps. apply wp_dom_load; [done|]. intros d _ _ Hof. wp_steps.
  by rewrite <- (dlist_dom _ _ _ Hof).
Qed.

Lemma wp_mcd_dom_id domid (Q : Z -> gstate B -> Prop) s : domid ∈ domids s ->
  Q domid s -> wp tol (mcd_dom_id (Some domid)) Q s.
Proof. intros Hin HQ. cbn. wp_steps. apply wp_dom_load; [done|]. intros d _ -> _. by wp_steps. Qed.

Lemma dom_find_spec domid h s : wf s ->
  wp tol (find_mcd_hashT (dlist s domid) h) (fun r s' => s' = s /\ found s (Some domid) h r) s.
Proof.
  intros Hwf. eapply wp_mono; [apply find_spec; by apply dlist_live|].
  intros r s' (-> & H). by destruct r.
Qed.

(** The answer of a look-up in a list of mini headers. *)
Definition mch_found s (qs : list ptr) h (r : option ptr) : Prop :=
  match r with
  | Some q => q ∈ qs /\ q ∈ mc_ptrs (ctl s) /\ exists c, mc_heap (ctl s) !! q = Some c /\ mch_hash c = h
  | None => forall q c, q ∈ qs -> mc_heap (ctl s) !! q = Some c -> mch_hash c <> h
  end.

Lemma find_mch_spec qs h s : ctl_ok s -> (forall q, q ∈ qs -> q ∈ mc_ptrs (ctl s)) ->
  wp tol (find_mcdctl_hashT qs h) (fun r s' => s' = s /\ mch_found s qs h r) s.
Proof.
  intros Hc. induction qs as [|q qs IH]; intros Hl; cbn [find_mcdctl_hashT].
  - wp_steps. split; [done|]. intros q c Hq. set_solver.
  - destruct (ct_live _ _ (ct_base _ _ Hc) q) as [c Hq]; [apply elem_of_app; left; apply Hl; set_solver|].
    unfold mch_load. wp_steps. rewrite Hq. wp_steps.
    destruct (Z.eqb_spec (mch_hash c) h) as [Hh|Hh]; wp_steps.
    + split; [done|]. split_and!; [set_solver|apply Hl; set_solver|eauto].
    + eapply wp_mono; [apply IH; intros q' Hq'; apply Hl; set_solver|].
      intros [q'|] s' (-> & H); (split; [done|]).
      * destruct H. split; [set_solver|done].
      * intros q' c' [->|Hq']%elem_of_cons Hc'; [congruence|by eapply H].
Qed.

Lemma shared_find_mch_spec h s : ctl_ok s -> let qs := default [] (mc_shared (ctl s) !! bucket h) in
  wp tol (find_mcdctl_hashT qs h) (fun r s' => s' = s /\ mch_found s qs h r) s.
Proof.
  intros Hc qs. apply find_mch_spec; [done|].
  intros q Hq. unfold mc_ptrs. apply elem_of_app. left. apply elem_of_concat. unfold qs in Hq.
  destruct (mc_shared (ctl s) !! bucket h) as [l|] eqn:Hi; cbn in Hq; [|set_solver].
  exists l. split; [by eapply list_elem_of_lookup_2|done].
Qed.

Lemma dom_find_mch_spec (domid : Z) h s : ctl_ok s -> let qs := default [] (mc_doms (ctl s) !! domid) in
  wp tol (find_mcdctl_hashT qs h) (fun r s' => s' = s /\ mch_found s qs h r) s.
Proof.
  intros Hc qs. apply find_mch_spec; [done|].
  intros q Hq. unfold mc_ptrs. apply elem_of_app. right. by eapply in_map_concat.
Qed.

(** ** The second tier *)

(** Unlinking a mini header to the free list. *)
Lemma ctl_unlink q s s' : ctl_ok s -> q ∈ mc_ptrs (ctl s) ->
  ctl s' = (ctl s) <| mc_shared ::= fmap (unlink q) |> <| mc_doms ::= fmap (unlink q) |>
                   <| mc_freelist ::= cons q |> ->
  be s' = be s -> next_ptr s' = next_ptr s -> domids s' = domids s -> cfg s' = cfg s -> ctl_ok s'.
Proof.
  intros [[Hl Hd Hv Hf Hm] Hh Ho Hms Hmp] Hq Hctl Hbe Hn Hdi Hcfg. rewrite app_nil_r in *.
  assert (Hp : mc_ptrs (ctl s') ≡ₚ unlink q (mc_ptrs (ctl s))).
  { rewrite Hctl. unfold mc_ptrs. cbn. by rewrite drop_elem_app, map_concat_drop, drop_elem_concat. }
  assert (Hall : mc_ptrs (ctl s') ++ mc_freelist (ctl s') ≡ₚ mc_ptrs (ctl s) ++ mc_freelist (ctl s)).
  { rewrite Hp, Hctl. cbn. rewrite <- Permutation_middle. apply NoDup_app in Hd as (Hd & _ & _).
    by rewrite (drop_elem_perm q (mc_ptrs (ctl s))) at 2. }
  assert (Hhe : mc_heap (ctl s') = mc_heap (ctl s)) by (by rewrite Hctl).
  split; [split|..]; rewrite ?app_nil_r, ?Hhe, ?Hn, ?Hbe, ?Hdi, ?Hcfg, ?Hall; try done.
  - rewrite Hctl. cbn. by rewrite length_fmap.
  - intros q'. rewrite Hall. apply Hv.
  - intros q' c. rewrite Hp, elem_of_drop_elem. intros [Hq' _]. by apply Hh.
  - rewrite Hctl. cbn. intros k q' c. rewrite lookup_fmap. intros Hq' Hc'. apply (Ho k q'); [|done].
    destruct (mc_doms (ctl s) !! k) as [l|]; cbn in *; [|set_solver]. by apply elem_of_drop_elem in Hq' as [? _].
  - intros H. apply Permutation_nil_r. rewrite Hctl. cbn. by rewrite map_concat_drop, (Hms H).
  - intros H. rewrite Hctl. cbn. by rewrite <- drop_elem_concat, (Hmp H).
Qed.

Lemma mcdctl_free_spec q s : ctl_ok s -> q ∈ mc_ptrs (ctl s) ->
  wp tol (mcdctl_free (Some q)) (fun _ => softly s) s.
Proof.
  intros Hc Hq. unfold mcdctl_free, mc_list_del, mch_load. wp_steps.
  destruct (negb _); wp_steps; [by split|].
  destruct (ct_live _ _ (ct_base _ _ Hc) q) as [c Hqc]; [apply elem_of_app; by left|]. rewrite Hqc. wp_steps.
  rewrite decide_True by done. wp_steps. split; [by apply soft_same|]. by eapply ctl_unlink.
Qed.

Lemma mcdctl_forget_spec q s : ctl_ok s -> q ∈ mc_ptrs (ctl s) ->
  wp tol (mcdctl_forget q) (fun _ => softly s) s.
Proof.
  intros Hc Hq. unfold mcdctl_forget, mch_load. wp_steps.
  destruct (ct_live _ _ (ct_base _ _ Hc) q) as [c Hqc]; [apply elem_of_app; by left|]. rewrite Hqc. wp_steps.
  eapply wp_mono; [apply (minf_spec tol _ [] s (minf_del_ok _ _) Hc)|]. intros rc s1 (Hs1 & Hc1 & _).
  destruct (sim_mc _ _ Hs1 q c Hq Hqc) as [Hq1 _].
  eapply wp_mono; [by apply mcdctl_free_spec|]. intros u s2 [Hs2 Hc2]. split; [|done].
  eapply soft_trans; [by apply sim_soft|done].
Qed.

Lemma forget_some_spec (mch : option ptr) s : ctl_ok s -> (forall q, mch = Some q -> q ∈ mc_ptrs (ctl s)) ->
  wp tol (forget_some mch) (fun _ => softly s) s.
Proof.
  intros Hc Hq. destruct mch as [q|]; cbn; [by apply mcdctl_forget_spec; auto|]. wp_steps. by split.
Qed.

End Find.

Section Detached.
Context {B : Type} `{!Minf B, !MinfLaws B}.
Implicit Types (s : gstate B) (p q : ptr) (e : mcd_hashT) (d : mcd_domain) (k : option Z) (h : Z) (v : list Z).

(** Entry [e] was made at [p] and is on no list; otherwise entries of [s] at
    most disappeared. *)
Record detached s p e s' : Prop := {
  dt_wf : wf_det (is_shared s) p s';
  dt_ctl : ctl_ok s';
  dt_heap : heap s' !! p = Some e;
  dt_frame : frame s s';
  dt_num : (num s' <= num s)%nat;
  dt_old : forall k q e', q ∈ tbl s' k -> heap s' !! q = Some e' -> q ∈ tbl s k /\ heap s !! q = Some e';
}.

Lemma detached_off s p e s' k : detached s p e s' -> p ∉ tbl s' k.
Proof.
  intros Hd Hp%tbl_in_live. pose proof (lo_nodup _ _ _ (wf_lists _ _ _ (dt_wf _ _ _ _ Hd))) as Hnd.
  unfold all_ptrs in Hnd. apply NoDup_app in Hnd as ((_ & H1 & _)%NoDup_app & H2 & (_ & H3 & _)%NoDup_app).
  destruct (is_shared s); set_solver.
Qed.

Lemma detached_upd s p e e' s' : detached s p e s' -> entry_ok e' -> mh_domain e' = mh_domain e ->
  mh_nr_bytes e' = mh_nr_bytes e -> mh_nr_pages e' = mh_nr_pages e -> detached s p e' (upd p e' s').
Proof.
  intros Hdet Hok Hd Hb Hg. pose proof (fun k => detached_off s p e s' k Hdet) as Hoff.
  destruct Hdet as [H1 H2 H3 H4 H5 H6]. split.
  - apply (wf_update _ _ p e); try done. right. destruct (is_shared s); set_solver.
  - eapply ctl_gen_env; [..|exact H2]; done.
  - cbn. by rewrite lookup_insert_eq.
  - destruct H4. by split.
  - done.
  - intros k q e1 Hq He. unfold upd in He. cbn in He. apply lookup_insert_Some in He as [[<- <-]|[_ He]]; [|by apply H6].
    by destruct (Hoff k).
Qed.

Lemma detached_soft s p e s1 s2 : detached s p e s1 -> softly s1 s2 -> detached s p e s2.
Proof.
  intros [H1 H2 H3 H4 H5 H6] [Hs Hc]. split.
  - by eapply wf_soft.
  - done.
  - by rewrite (so_heap _ _ Hs).
  - etransitivity; [done|by apply soft_frame].
  - by rewrite (soft_num _ _ Hs).
  - intros k q e'. rewrite (soft_tbl _ _ k Hs), (so_heap _ _ Hs). apply H6.
Qed.

Lemma softly_same_ctl s s' : soft s s' -> ctl s' = ctl s -> be s' = be s -> ctl_ok s -> softly s s'.
Proof. intros Hs Hc Hb H. split; [done|]. by eapply ctl_soft. Qed.

(** Entry [e] was made and put into table [k]. *)
Record linked s k p e s' : Prop := {
  lk_inv : Inv s';
  lk_heap : heap s' !! p = Some e;
  lk_tbl : p ∈ tbl s' k;
  lk_frame : frame s s';
  lk_num : (num s' <= S (num s))%nat;
  lk_old : forall k' q e', q ∈ tbl s' k' -> heap s' !! q = Some e' ->
    (k' = k /\ q = p) \/ (q ∈ tbl s k' /\ heap s !! q = Some e');
}.

Lemma linked_view s k p e s' k' h' v' : linked s k p e s' -> val_at s' k' h' v' ->
  (k' = k /\ h' = mh_hash e /\ v' = entry_val e) \/ val_at s k' h' v'.
Proof.
  intros [H1 H2 H3 H4 H5 H6] (q & e' & Hq & He & <- & <-).
  destruct (H6 _ _ _ Hq He) as [[-> ->]|[Hq' He']]; [left|right; by exists q, e'].
  rewrite H2 in He. by injection He as <-.
Qed.

Lemma linked_at s k p e s' : linked s k p e s' -> val_at s' k (mh_hash e) (entry_val e).
Proof. intros [H1 H2 H3 H4 H5 H6]. by exists p, e. Qed.

Lemma link_num (s s' : gstate B) p : live s' ≡ₚ live s ++ [p] -> num s' = S (num s).
Proof. intros H. unfold num. rewrite H, length_app. cbn. lia. Qed.

Lemma shr_live s s' p : shr_ptrs s' ≡ₚ shr_ptrs s ++ [p] -> pri_ptrs s' = pri_ptrs s ->
  live s' ≡ₚ live s ++ [p].
Proof.
  intros H1 H2. rewrite !live_split, H1, H2, <- !app_assoc. f_equiv. apply Permutation_app_comm.
Qed.

Lemma pri_live s s' p : pri_ptrs s' ≡ₚ pri_ptrs s ++ [p] -> shr_ptrs s' = shr_ptrs s ->
  live s' ≡ₚ live s ++ [p].
Proof. intros H1 H2. by rewrite !live_split, H1, H2, <- !app_assoc. Qed.

Context (tol : fault -> Prop).

Lemma link_shared_spec s p e s1 : detached s p e s1 -> is_shared s = true ->
  found s None (mh_hash e) None ->
  wp tol (link_shared (mh_hash e) p) (fun _ s' => linked s None p e s') s1.
Proof.
  intros Hd Hm Hnew. pose proof (dt_wf _ _ _ _ Hd) as Hwf. rewrite Hm in Hwf.
  unfold link_shared. wp_steps.
  assert (Hb : (bucket (mh_hash e) < length (shared s1))%nat).
  { rewrite (lo_len _ _ _ (wf_lists _ _ _ Hwf)). unfold bucket.
    pose proof (Z.mod_pos_bound (mh_hash e) MAX_LIST_HEAD eq_refl). lia. }
  set (s' := s1 <| shared ::= _ |>).
  assert (Hshr : shr_ptrs s' ≡ₚ shr_ptrs s1 ++ [p]).
  { unfold shr_ptrs. cbn. rewrite concat_alter_snoc by done. apply Permutation_cons_append. }
  destruct Hd as [H1 H2 H3 H4 H5 H6]. split.
  - split; [|by eapply ctl_gen_env; [..|exact H2]]. apply wf_link_shr; [done..|].
    intros q e' Hq He'. destruct (H6 None q e' Hq He') as [Hq0 He0]. by apply (Hnew q e').
  - done.
  - change (p ∈ shr_ptrs s'). rewrite Hshr. set_solver.
  - destruct H4. by split.
  - pose proof (link_num s1 s' p (shr_live s1 s' p Hshr eq_refl)). lia.
  - intros [domid|] q e' Hq He'; [right; by apply (H6 (Some domid))|].
    change (q ∈ shr_ptrs s') in Hq. rewrite Hshr in Hq. apply elem_of_app in Hq as [Hq|Hq]; [right; by apply (H6 None)|left].
    by apply list_elem_of_singleton in Hq.
Qed.

Lemma dlist_alter s domid (k : Z) f : (forall d, md_domid (f d) = md_domid d) ->
  dlist (s <| doms ::= alter_dom domid f |>) k =
  if decide (k = domid) then from_option (fun d => md_hash_list (f d)) [] (dom_of (doms s) k) else dlist s k.
Proof.
  intros Hf. unfold dlist.
  change (doms (s <| doms ::= alter_dom domid f |>)) with (alter_dom domid f (doms s)).
  induction (doms s) as [|d ds IH]; cbn [alter_dom]; [by case_decide|].
  destruct (Z.eqb_spec (md_domid d) domid) as [Heq|Hne]; rewrite !dom_of_cons, ?Hf.
  - subst domid. destruct (decide (md_domid d = k)) as [<-|Hk]; [by rewrite decide_True|].
    by rewrite decide_False by congruence.
  - destruct (decide (md_domid d = k)); [|done]. by rewrite decide_False by congruence.
Qed.

Lemma link_private_spec s p e s1 : detached s p e s1 -> is_shared s = false -> mh_domain e ∈ domids s ->
  found s (Some (mh_domain e)) (mh_hash e) None ->
  wp tol (link_private (mh_domain e) p) (fun _ s' => linked s (Some (mh_domain e)) p e s') s1.
Proof.
  intros Hd Hm Hin Hnew. pose proof (dt_wf _ _ _ _ Hd) as Hwf. rewrite Hm in Hwf.
  rewrite <- (fr_domids _ _ (dt_frame _ _ _ _ Hd)) in Hin.
  unfold link_private. apply wp_dom_update; [done|].
  set (f := fun d => d <| md_hash_list ::= _ |>). set (s' := s1 <| doms ::= _ |>).
  assert (Hpri : pri_ptrs s' ≡ₚ pri_ptrs s1 ++ [p]).
  { apply alter_dom_snoc; [apply (wf_lists _ _ _ Hwf)|done]. }
  assert (Hdl : forall k : Z, dlist s' k = if decide (k = mh_domain e) then dlist s1 k ++ [p] else dlist s1 k).
  { intros k. unfold s'. rewrite dlist_alter by done. case_decide as Hk; [|done]. subst k. unfold dlist.
    destruct (dom_of_is_Some _ _ Hin) as [d ->]. done. }
  destruct Hd as [H1 H2 H3 H4 H5 H6]. split.
  - split.
    + apply wf_link_pri; [done..|]. intros q e' Hq He'.
      destruct (H6 (Some (mh_domain e)) q e' Hq He') as [Hq0 He0]. by apply (Hnew q e').
    + eapply ctl_gen_env; [..|exact H2]; try done. by apply alter_dom_same.
  - done.
  - cbn [tbl]. rewrite Hdl, decide_True by done. set_solver.
  - destruct H4 as [K1 K2 K3]. split; [done| |done]. rewrite <- K2. by apply alter_dom_same.
  - pose proof (link_num s1 s' p (pri_live s1 s' p Hpri eq_refl)). lia.
  - intros [domid|] q e' Hq He'; [|right; by apply (H6 None)].
    cbn [tbl] in Hq. rewrite Hdl in Hq. case_decide as Hk; [subst domid|right; by apply (H6 (Some domid))].
    apply elem_of_app in Hq as [Hq|Hq]; [right; by apply (H6 (Some (mh_domain e)))|left].
    by apply list_elem_of_singleton in Hq.
Qed.

End Detached.
