(* ===== verification/OpsMake.v ===== *)
(** Making the entries the cache operations put into the tables: from a guest
    request, for [check], and from the second tier. *)
From S2P Require Import Prelude CMonad Hash Types State Core Evict Inv Remove Evicted EvictShared EvictPart Alloc Create Ops View OpsLib.

(** ** Buffers *)

Lemma length_blit off src dst : (off + length src <= length dst)%nat ->
  length (blit off src dst) = length dst.
Proof. intros. unfold blit. rewrite !length_app, length_take, length_drop. lia. Qed.

Lemma blit_key_val key val buf : length buf = (length key + length val)%nat ->
  blit (length key) val (blit 0 key buf) = key ++ val.
Proof.
  intros Hl. unfold blit. rewrite take_0, app_nil_l. rewrite take_app_length. f_equal.
  rewrite drop_ge; [by rewrite app_nil_r|]. rewrite length_app, length_drop. lia.
Qed.

Lemma length_from_guest buf n : 0 <= n <= Z.of_nat (length buf) -> length (from_guest buf n) = Z.to_nat n.
Proof. intros. unfold from_guest. rewrite length_take. lia. Qed.

(** The hash of a buffer that starts with the key is the hash of the key. *)
Lemma getHash_key op rest : arg_ok op ->
  SFH.getHash (guest_key op ++ rest) (s32 (op_key_size op)) = key_hash op.
Proof.
  intros [[Hk1 Hk2] _ Hb]. unfold key_hash.
  assert (Hlen : length (guest_key op) = Z.to_nat (op_key_size op)) by (apply length_from_guest; lia).
  destruct (decide (op_key_size op < 2 ^ 31)) as [Hs|Hs].
  - assert (s32 (op_key_size op) = op_key_size op) as ->.
    { unfold swrap. rewrite Z.mod_small; lia. }
    replace (op_key_size op) with (Z.of_nat (length (guest_key op))) by lia. apply SFH.getHash_app.
  - assert (s32 (op_key_size op) <= 0).
    { unfold swrap. rewrite <- (Z_mod_plus_full _ (-1)), Z.mod_small; lia. }
    unfold SFH.getHash. by rewrite (proj2 (Z.leb_le _ _)).
Qed.

Section Make.
Context {B : Type} `{!Minf B, !MinfLaws B} (env : Env) (tol : fault -> Prop).
Context (Hmini : forall b : B, mcdctl_enabled b = true -> tol NullDeref).
Context (Hnow : forall n, env_now env n <> 0).
Implicit Types (s : gstate B) (p q : ptr) (e : mcd_hashT) (d : mcd_domain) (k : option Z) (h : Z) (v : list Z).

Lemma created_detached domid ks vs s p s' : created env domid ks vs s p s' -> urange 32 ks -> urange 32 vs ->
  domid ∈ domids s -> (exists t, detached s p (made env domid ks vs t p) s') /\ mc_keep s s'.
Proof.
  intros Hcr Hk Hv Hin. destruct (created_wf _ _ _ _ _ _ _ Hcr Hk Hv Hin) as (Hwf & Hc & _).
  destruct Hcr as (s1 & t & [Hwf1 Hc1] & Hev & [Hfr Hn] & -> & _).
  split; [exists t|eapply mc_keep_trans; [apply Hev|by apply mc_keep_same]].
  set (e := made _ _ _ _ _ _). assert (Hmap : pri_ptrs (add_entry (is_shared s) p e s1) = pri_ptrs s1) by apply add_pri_ptrs.
  split; try done.
  - cbn. by rewrite lookup_insert_eq.
  - destruct (evicted_frame _ _ Hev) as [H1 H2 H3]. split; [done| |done]. rewrite <- H2. apply add_domids.
  - pose proof (evicted_num _ _ Hev). unfold num in *. rewrite !live_split, Hmap in *. done.
  - intros k q e' Hq He'.
    assert (Ht : tbl (add_entry (is_shared s) p e s1) k = tbl s1 k).
    { destruct k as [dk|]; cbn [tbl]; [|done].
      transitivity (dlist (s1 <| doms ::= alter_dom (mh_domain e) (dom_charge e) |>) dk); [done|].
      rewrite dlist_alter by done. case_decide; [|done]. unfold dlist. by destruct (dom_of _ _). }
    rewrite Ht in Hq. pose proof (tbl_in_live _ _ _ Hq) as Hl. apply (live_entry s1 q Hwf1) in Hl as [e1 He1].
    assert (q <> p). { intros ->. specialize (Hfr p). rewrite He1 in Hfr. specialize (Hfr ltac:(eauto)). lia. }
    cbn in He'. rewrite lookup_insert_ne in He' by done. split; [by eapply tbl_evicted|].
    by apply (lookup_weaken (heap s1)), Hev.
Qed.

(** [create_mcd_hashT], with the limit on the used memory left out. *)
Lemma create_detached domid ks vs s : Inv s -> mode_ok s -> (num s < env_fuel env)%nat -> domid ∈ domids s ->
  urange 32 ks -> urange 32 vs ->
  wp tol (create_mcd_hashT env domid ks vs) (fun r s' =>
    match r with
    | Some p => (exists t, detached s p (made env domid ks vs t p) s') /\ mc_keep s s'
    | None => Inv s' /\ evicted s s'
    end) s.
Proof using Hmini Hnow.
  intros HI Hm Hf Hin Hk Hv. eapply wp_mono; [by apply (create_spec env tol Hmini Hnow)|].
  intros [p|] s' H; [|done]. by apply created_detached.
Qed.

Lemma soft_rvs s (o : option Z) : soft s (s <| out_rvs := o |>).
Proof. by apply soft_same. Qed.

Definition from_op (op : mcd_arg) (domid : Z) e : Prop :=
  entry_ok e /\ mh_domain e = domid /\ mh_hash e = key_hash op /\ mh_key_size e = op_key_size op.

Lemma create_hashT_spec op domid s : Inv s -> mode_ok s -> (num s < env_fuel env)%nat ->
  domid ∈ domids s -> put_arg_ok op ->
  wp tol (create_hashT env op domid) (fun r s' =>
    match r with
    | Some p => exists e, detached s p e s' /\ from_op op domid e /\
        mh_val_size e = op_val_size op /\ entry_val e = from_guest (op_val op) (op_val_size op)
    | None => Inv s' /\ evicted s s'
    end) s.
Proof using Hmini Hnow.
  intros HI Hm Hf Hin [Ha Hb]. pose proof Ha as [Hk Hv Hkb]. unfold create_hashT. wp_steps.
  eapply wp_mono; [by apply create_detached|]. intros [p|] s1 Hd; wp_steps; [|done].
  destruct Hd as [[t Hd] _]. eapply wp_load; [apply Hd|]. wp_steps. unfold copy_r_val_size, store. wp_steps.
  set (e0 := made _ _ _ _ _ _) in *. cbn [mh_val_size mh_key_val].
  pose proof (made_ok env domid _ _ t p Hk Hv) as (H1 & H2 & H3 & H4 & H5 & H6 & H7 & H8).
  fold e0 in H1, H2, H3, H4, H5, H6, H7, H8. unfold urange in Hk, Hv.
  assert (Hlk : length (guest_key op) = Z.to_nat (op_key_size op)) by (apply length_from_guest; lia).
  assert (Hlv : length (from_guest (op_val op) (op_val_size op)) = Z.to_nat (op_val_size op))
    by (apply length_from_guest; lia).
  assert (Hl0 : Z.of_nat (length (mh_key_val e0)) = op_key_size op + op_val_size op) by exact H7.
  rewrite <- Hlk, blit_key_val by lia. rewrite getHash_key by done.
  set (e := e0 <| mh_key_val := _ |> <| mh_hash := _ |>).
  assert (Hok : entry_ok e).
  { split_and!; try done; [apply key_hash_range|]. cbn. rewrite length_app. lia. }
  exists e. split_and!; try done.
  - set (s2 := s1 <| out_rvs := _ |>).
    assert (Hd2 : detached s p e0 s2).
    { eapply detached_soft; [exact Hd|]. apply softly_same_ctl; [apply soft_rvs|done..|apply Hd]. }
    apply (detached_upd _ _ _ e _ Hd2); done.
  - unfold entry_val. cbn. rewrite <- Hlk, drop_app_length, take_ge by lia. done.
Qed.

Lemma check_entry_spec op domid s : Inv s -> mode_ok s -> (num s < env_fuel env)%nat ->
  domid ∈ domids s -> arg_ok op ->
  wp tol (check_entry env op domid) (fun r s' =>
    match r with
    | Some p => exists e, detached s p e s' /\ from_op op domid e /\ entry_val e = []
    | None => Inv s' /\ evicted s s'
    end) s.
Proof using Hmini Hnow.
  intros HI Hm Hf Hin Ha. pose proof Ha as [Hk Hv Hkb]. unfold check_entry. wp_steps.
  assert (H0 : urange 32 0) by (unfold urange; lia).
  eapply wp_mono; [by apply create_detached|]. intros [p|] s1 Hd; wp_steps; [|done].
  destruct Hd as [[t Hd] _]. eapply wp_load; [apply Hd|]. unfold store. wp_steps.
  pose proof (made_ok env domid _ _ t p Hk H0) as (H1 & H2 & H3 & H4 & H5 & H6 & H7 & H8).
  set (e0 := made _ _ _ _ _ _) in *. unfold urange in Hk.
  assert (Hlk : length (guest_key op) = Z.to_nat (op_key_size op)) by (apply length_from_guest; lia).
  assert (Hl0 : Z.of_nat (length (mh_key_val e0)) = op_key_size op + 0) by exact H7.
  set (e := e0 <| mh_hash := _ |> <| mh_key_val := _ |>).
  assert (Hok : entry_ok e).
  { split_and!; try done; [apply key_hash_range|]. cbn [e mh_key_val mh_key_size mh_val_size].
    change (Z.of_nat (length (blit 0 (guest_key op) (mh_key_val e0))) = op_key_size op + 0).
    rewrite length_blit; lia. }
  exists e. split_and!; try done. by apply (detached_upd _ _ e0).
Qed.

(** The bookkeeping of a [put]. *)
Lemma P_REC_AVG_CAL_spec domid ms s : tol DivByZero -> domid ∈ domids s ->
  wp tol (P_REC_AVG_CAL domid ms) (fun _ s' => soft s s' /\ ctl s' = ctl s /\ be s' = be s) s.
Proof.
  intros Hdiv Hin. unfold P_REC_AVG_CAL. wp_steps. apply wp_dom_load; [done|]. intros d _ _ _. wp_steps.
  unfold div_or_trap. destruct (_ =? 0); wp_steps; [done|]. apply wp_dom_update; [done|].
  split; [|done]. by apply soft_alter_dom.
Qed.

Lemma set_query_time_spec domid p e ms s s1 : tol DivByZero -> detached s p e s1 -> entry_ok e -> domid ∈ domids s ->
  wp tol (set_query_time domid p ms) (fun _ s' => detached s p (e <| mh_query_time_ms := ms |>) s') s1.
Proof.
  intros Hdiv Hd Hok Hin. rewrite <- (fr_domids _ _ (dt_frame _ _ _ _ Hd)) in Hin.
  unfold set_query_time, store. wp_steps. eapply wp_load; [apply Hd|]. wp_steps.
  set (e' := e <| mh_query_time_ms := ms |>).
  pose proof (detached_upd _ _ _ e' _ Hd Hok eq_refl eq_refl eq_refl) as Hd2.
  set (s2 := (_ : gstate B) <| sd ::= _ |>). assert (Hs : soft (upd p e' s1) s2).
  { split; try done; [apply Forall2_refl; intros d; by split|by cbn; destruct (cfg s1)|].
    cbn. destruct (Z.ltb_spec (query_max (sd_mem (sd s1))) ms); lia. }
  eapply wp_mono; [by apply P_REC_AVG_CAL_spec|]. intros _ s3 (Hs3 & Hc3 & Hb3).
  eapply detached_soft; [exact Hd2|]. apply softly_same_ctl; [by eapply soft_trans|by rewrite Hc3|by rewrite Hb3|apply Hd2].
Qed.

(** ** From the second tier *)

Lemma minf_in_spec e s : buffer_ok e -> ctl_ok s ->
  wp tol (minf (minf_page_in e)) (fun r s' => sim s s' /\ ctl_ok s' /\ ctl s' = ctl s /\
    length (snd r) = length (mh_key_val e)) s.
Proof.
  intros Hbuf [[H1 H2 H3 H4 H5] H6 H7 H8 H9]. apply wp_zoom. pose proof (minf_in_ok e (be s) Hbuf H5) as H.
  unfold wp, no_fault in *. destruct (minf_page_in e (be s)) as [r b'| |]; [|done..].
  destruct H as (K1 & K2 & K3). split_and!; [solve_sim|split; [by split|done..]|done..].
Qed.

Lemma mcd_page_in_spec q c s : Inv s -> mode_ok s -> (num s < env_fuel env)%nat ->
  q ∈ mc_ptrs (ctl s) -> mc_heap (ctl s) !! q = Some c ->
  wp tol (mcd_page_in env q) (fun r s' =>
    match r with
    | Some p => exists e, detached s p e s' /\ entry_ok e /\
        mh_hash e = mch_hash c /\ mh_domain e = mch_domain c /\ mh_val_size e = mch_val_size c
    | None => Inv s' /\ evicted s s'
    end) s.
Proof using Hmini Hnow.
  intros HI Hm Hf Hq Hqc. destruct (ct_hdr _ _ (proj2 HI) q c Hq Hqc) as [(Hh & Hk & Hv & Hv0) Hin].
  unfold mcd_page_in, mch_load. wp_steps. destruct (negb _); wp_steps; [by split|].
  rewrite Hqc. wp_steps. eapply wp_mono; [by apply create_detached|].
  intros [p|] s1 Hd; wp_steps; [|done]. destruct Hd as [[t Hd] Hmc].
  destruct (Hmc q c Hq Hqc) as [Hq1 Hqc1]. rewrite Hqc1. wp_steps.
  eapply wp_load; [apply Hd|]. wp_steps. set (e0 := made _ _ _ _ _ _) in *. set (e1 := e0 <| mh_hash := _ |>).
  pose proof (made_ok env (mch_domain c) _ _ t p Hk Hv) as (H1 & H2 & H3 & H4 & H5 & H6 & H7 & H8).
  assert (Hbuf : buffer_ok e1) by (by split_and!).
  eapply wp_mono; [apply minf_in_spec; [exact Hbuf|apply Hd]|]. intros r s2 (Hs2 & Hc2 & Hctl & Hlen). unfold store. wp_steps.
  pose proof (detached_soft _ _ _ _ _ Hd (conj (sim_soft _ _ Hs2) Hc2)) as Hd2.
  set (e2 := e1 <| mh_key_val := snd r |>).
  assert (Hok : entry_ok e2). { split_and!; try done. cbn. rewrite Hlen. exact H7. }
  pose proof (detached_upd _ _ _ e2 _ Hd2 Hok eq_refl eq_refl eq_refl) as Hd3.
  assert (Hfl : mh_flags e1 = MCD_HASHT_NORMAL).
  { cbn. destruct (Z.eqb_spec (mch_val_size c) 0); [done|done]. }
  rewrite Hfl. replace (Z.land MCD_HASHT_NORMAL MCD_MINF_ERROR =? 0) with true by done. wp_steps.
  rewrite <- Hctl in Hq1.
  eapply wp_mono; [apply (mcdctl_free_spec tol q (upd p e2 s2)); [apply Hd3|exact Hq1]|].
  intros u s3 Hs3. wp_steps. exists e2. split_and!; try done. by eapply detached_soft.
Qed.

End Make.
