(* ===== verification/OpsSpec.v ===== *)
(** The cache operations against the abstract map: [put] stores, [get]
    delivers, [remove] deletes, [check] reports, and all of them keep the
    invariant. What eviction does shows as a smaller map. *)
From S2P Require Import Prelude CMonad Hash Types State Core Evict Inv Remove Evicted EvictShared EvictPart Alloc Create Ops View OpsLib OpsMake.

Section OpsSpec.
Context {B : Type} `{!Minf B, !MinfLaws B} (env : Env) (tol : fault -> Prop).
Context (Hmini : forall b : B, mcdctl_enabled b = true -> tol NullDeref).
Context (Hnow : forall n, env_now env n <> 0).
Implicit Types (s : gstate B) (p q : ptr) (e : mcd_hashT) (d : mcd_domain) (k : option Z) (h : Z) (v : list Z).

(** What every operation keeps. *)
Record kept s s' : Prop := {
  kp_inv : Inv s';
  kp_frame : frame s s';
  kp_num : (num s' <= S (num s))%nat;
}.

(** The row of [(k, h)] is gone, the others stay. *)
Record cleared k h s s' : Prop := {
  cl_inv : Inv s';
  cl_frame : frame s s';
  cl_num : (num s' <= num s)%nat;
  cl_view : forall k' h' v, val_at s' k' h' v <-> val_at s k' h' v /\ (k', h') <> (k, h);
}.

Lemma cleared_kept k h s s' : cleared k h s s' -> kept s s'.
Proof. intros []. split; [done..|lia]. Qed.

Lemma cleared_abs k h s s' : Inv s -> cleared k h s s' -> abs s' = delete (k, h) (abs s).
Proof.
  intros [Hwf _] [[Hwf' _] _ _ Hv]. apply map_eq. intros [k' h']. apply option_eq. intros v.
  rewrite lookup_delete_Some, !abs_lookup, Hv by done. naive_solver.
Qed.

Lemma cleared_found k h s s' : cleared k h s s' -> found s' k h None.
Proof.
  intros [_ _ _ Hv] p e Hp He Hh. destruct (proj1 (Hv k h (entry_val e))) as [_ H]; [by exists p, e|done].
Qed.

Lemma cleared_soft k h s s1 s2 : cleared k h s s1 -> softly s1 s2 -> cleared k h s s2.
Proof.
  intros [[Hwf Hc] Hf Hn Hv] [Hs Hc2]. split.
  - split; [by eapply wf_soft|done].
  - etransitivity; [done|by apply soft_frame].
  - by rewrite (soft_num _ _ Hs).
  - intros k' h' v. by rewrite (val_at_soft _ _ _ _ _ Hs).
Qed.

(** Nothing was there. *)
Lemma not_found_cleared k h s : Inv s -> found s k h None -> cleared k h s s.
Proof.
  intros HI Hf. split; [done..|]. intros k' h' v. split; [|naive_solver]. intros Hv. split; [done|].
  intros Heq. injection Heq as -> ->. destruct Hv as (p & e & Hp & He & Hh & _). by apply (Hf p e).
Qed.

Lemma drop_cleared (shr : bool) k p e s s' : Inv s -> p ∈ tbl s k -> heap s !! p = Some e ->
  p ∈ (if shr then shr_ptrs s else pri_ptrs s) ->
  sim (drop_entry shr p e s) s' -> ctl_ok s' -> cleared k (mh_hash e) s s'.
Proof.
  intros [Hwf Hc] Hp He Hin Hs Hc'. pose proof (lo_domids _ _ _ (wf_lists _ _ _ Hwf)) as Hnd. split.
  - split; [by apply (step_wf shr p e s)|done].
  - etransitivity; [by apply (drop_frame shr p e)|]. by apply soft_frame, sim_soft.
  - pose proof (step_num shr p e s s' Hwf He Hin Hs). lia.
  - intros k' h' v. by apply (val_at_drop shr k p e).
Qed.

Lemma cleared_trans_soft k h s s1 s2 : Inv s -> softly s s1 -> cleared k h s1 s2 -> cleared k h s s2.
Proof.
  intros _ [Hs _] [H1 H2 H3 H4]. split; [done| | |].
  - etransitivity; [by apply soft_frame|done].
  - by rewrite <- (soft_num _ _ Hs).
  - intros k' h' v. by rewrite H4, (val_at_soft _ _ _ _ _ Hs).
Qed.

Lemma softly_Inv s s' : Inv s -> softly s s' -> Inv s'.
Proof. intros [Hwf _] [Hs Hc]. split; [by eapply wf_soft|done]. Qed.

Lemma softly_refl s : Inv s -> softly s s.
Proof. intros [_ Hc]. by split. Qed.

Lemma softly_trans s1 s2 s3 : softly s1 s2 -> softly s2 s3 -> softly s1 s3.
Proof. intros [H1 _] [H2 H3]. split; [by eapply soft_trans|done]. Qed.

Lemma softly_abs s s' : Inv s -> softly s s' -> abs s' = abs s.
Proof.
  intros HI Hs. apply abs_eq; [apply HI|by apply (softly_Inv s)|]. intros k h v. by apply val_at_soft, Hs.
Qed.

Lemma softly_kept s s' : Inv s -> softly s s' -> kept s s'.
Proof.
  intros HI Hs. split; [by apply (softly_Inv s)|apply soft_frame, Hs|]. rewrite (soft_num _ _ (proj1 Hs)). lia.
Qed.

Lemma quiet_softly s s' : quiet s s' -> softly s s'.
Proof. intros [H1 H2]. split; [by apply sim_soft|done]. Qed.

Lemma softly_found s s' k h r : softly s s' -> found s k h r -> found s' k h r.
Proof. intros [Hs _]. unfold found. by rewrite (soft_tbl _ _ _ Hs), (so_heap _ _ Hs). Qed.

Lemma softly_st s f : Inv s -> softly s (s <| st ::= f |>).
Proof. intros [_ Hc]. apply softly_same_ctl; [by apply soft_same|done..]. Qed.

(** A table and the side it is charged to. *)
Lemma tbl_side s k p : p ∈ tbl s k -> p ∈ (if bool_decide (k = None) then shr_ptrs s else pri_ptrs s).
Proof. destruct k; cbn; [by apply dlist_in_pri|done]. Qed.

(** ** Removal of what a look-up found *)

Lemma s_remove_cleared p e flag s : Inv s -> p ∈ shr_ptrs s -> heap s !! p = Some e ->
  wp tol (s_remove_hashT env (Some p) flag) (fun _ s' => cleared None (mh_hash e) s s') s.
Proof using Hmini.
  intros HI Hp He. pose proof HI as [Hwf Hc].
  eapply wp_mono; [by apply (s_remove_spec env tol p e flag s (Hmini (be s)))|].
  intros b s' (_ & Hs & Hc'). by apply (drop_cleared true None p e).
Qed.

Lemma p_remove_cleared domid p e flag s : Inv s -> p ∈ dlist s domid -> heap s !! p = Some e ->
  wp tol (p_remove_hashT env domid (Some p) flag) (fun _ s' => cleared (Some domid) (mh_hash e) s s') s.
Proof using Hmini.
  intros HI Hp He. pose proof HI as [Hwf Hc]. rewrite <- (dlist_owner _ _ _ _ Hwf Hp He).
  pose proof (dlist_in_pri _ _ _ Hp) as Hpri.
  eapply wp_mono; [by apply (p_remove_spec env tol p e flag s (Hmini (be s)))|].
  intros b s' (_ & Hs & Hc'). rewrite <- (dlist_owner _ _ _ _ Hwf Hp He) in Hp.
  by apply (drop_cleared false (Some (mh_domain e)) p e).
Qed.

(** ** [remove] *)

Lemma s_mcd_remove_spec md op s : Inv s ->
  wp tol (s_mcd_remove env md op) (fun rc s' => rc = - ERR_NO /\ cleared None (key_hash op) s s') s.
Proof using Hmini.
  intros HI. unfold s_mcd_remove, shared_list, mcdctl_shared_list. wp_steps.
  eapply wp_mono; [apply shared_find_spec, HI|]. intros [p|] s1 [-> Hf]; wp_steps.
  - destruct Hf as [Hp (e & He & <-)]. eapply wp_mono; [by apply s_remove_cleared|].
    intros b s' Hcl. by wp_steps.
  - eapply wp_mono; [apply shared_find_mch_spec, HI|]. intros mch s1 [-> Hq]. wp_steps.
    eapply wp_mono; [apply forget_some_spec; [apply HI|]|].
    { intros q ->. apply Hq. }
    intros u s' Hs. wp_steps. split; [done|]. eapply cleared_soft; [by apply not_found_cleared|done].
Qed.

Lemma p_mcd_remove_spec domid op s : Inv s -> domid ∈ domids s ->
  wp tol (p_mcd_remove env (Some domid) op)
    (fun rc s' => rc = - ERR_NO /\ cleared (Some domid) (key_hash op) s s') s.
Proof using Hmini.
  intros HI Hin. unfold p_mcd_remove, mcdctl_dom_list. wp_steps. apply wp_mcd_dom_id; [done|]. wp_steps.
  apply wp_dom_list; [done|]. wp_steps.
  eapply wp_mono; [apply dom_find_spec, HI|]. intros [p|] s1 [-> Hf]; wp_steps.
  - destruct Hf as [Hp (e & He & <-)]. eapply wp_mono; [by apply p_remove_cleared|].
    intros b s' Hcl. by wp_steps.
  - eapply wp_mono; [apply dom_find_mch_spec, HI|]. intros mch s1 [-> Hq]. wp_steps.
    eapply wp_mono; [apply forget_some_spec; [apply HI|]|].
    { intros q ->. apply Hq. }
    intros u s' Hs. wp_steps. split; [done|]. eapply cleared_soft; [by apply not_found_cleared|done].
Qed.

(** ** [put] *)

(** A new row, possibly at the cost of others. *)
Definition stored k h v s s' : Prop :=
  kept s s' /\ abs s' ⊆ <[(k, h) := v]> (abs s) /\ abs s' !! (k, h) = Some v.

Lemma linked_stored k p e s s' : Inv s -> linked s k p e s' ->
  stored k (mh_hash e) (entry_val e) s s'.
Proof.
  intros [Hwf _] Hl. pose proof (lk_inv _ _ _ _ _ Hl) as [Hwf' _]. split_and!.
  - split; [apply Hl..|]. apply Hl.
  - apply map_subseteq_spec. intros [k' h'] v'. rewrite abs_lookup by done. intros Hv.
    destruct (linked_view _ _ _ _ _ _ _ _ Hl Hv) as [(-> & -> & ->)|Hv0].
    + by rewrite lookup_insert_eq.
    + destruct (decide ((k', h') = (k, mh_hash e))) as [[= -> ->]|Hne].
      * rewrite lookup_insert_eq. f_equal. apply (val_at_unique s' k (mh_hash e)); [done|by eapply linked_at|done].
      * rewrite lookup_insert_ne by done. by apply abs_lookup.
  - apply abs_lookup; [done|]. by eapply linked_at.
Qed.

Lemma stored_soft k h v s s1 s2 : stored k h v s s1 -> softly s1 s2 -> stored k h v s s2.
Proof.
  intros ([HI Hf Hn] & H1 & H2) Hs. pose proof (softly_Inv _ _ HI Hs) as HI2. destruct Hs as [Hs Hc].
  assert (Habs : abs s2 = abs s1). { apply abs_eq; [apply HI|apply HI2|]. intros. by apply val_at_soft. }
  rewrite <- Habs in *. split_and!; [|done..]. split; [done| |by rewrite (soft_num _ _ Hs)].
  etransitivity; [done|by apply soft_frame].
Qed.

Lemma evicted_kept s s' : Inv s' -> evicted s s' -> kept s s'.
Proof. intros HI Hev. split; [done|by apply evicted_frame|]. pose proof (evicted_num _ _ Hev). lia. Qed.

Lemma evicted_abs s s' : Inv s -> Inv s' -> evicted s s' -> abs s' ⊆ abs s.
Proof.
  intros [Hwf _] [Hwf' _] Hev. apply abs_subseteq; [done..|]. intros k h v. by apply val_at_evicted.
Qed.

(** The end of both [put] functions; [link] is the list it links to. *)
Section PutTail.
Context (Hdiv : tol DivByZero) (op : mcd_arg) (domid ms : Z) (k : option Z) (link : ptr -> M (gstate B) unit).
Context (s : gstate B) (HI : Inv s) (Hmode : mode_ok s) (Hf : (num s < env_fuel env)%nat).
Context (Hin : domid ∈ domids s) (Ha : put_arg_ok op).
Context (Hlink : forall p e s1, detached s p e s1 -> from_op op domid e ->
  wp tol (link p) (fun _ s' => linked s k p e s') s1).

Lemma put_tail_spec :
  wp tol (mh ← create_hashT env op domid;
          match mh with
          | None => mret (- ERR_MCDFAULT)
          | Some p =>
              set_query_time domid p ms;;
              link p;;
              e ← load p;
              copy_r_val_size (mh_val_size e);;
              mret (- ERR_NO)
          end)
    (fun rc s' =>
      rc = - ERR_NO /\ out_rvs s' = Some (op_val_size op) /\
        stored k (key_hash op) (from_guest (op_val op) (op_val_size op)) s s' \/
      rc = - ERR_MCDFAULT /\ kept s s' /\ abs s' ⊆ abs s) s.
Proof using All.
  wp_steps. eapply wp_mono; [by apply (create_hashT_spec env tol Hmini Hnow)|].
  intros [p|] s1 Hd; wp_steps.
  2: { right. destruct Hd as [HI1 Hev]. split_and!; [done|by apply evicted_kept|by apply evicted_abs]. }
  destruct Hd as (e & Hd & (Hok & Hdom & Hh & Hks) & Hvs & Hval).
  eapply wp_mono; [by apply (set_query_time_spec tol domid p e ms s)|]. intros u s2 Hd2. wp_steps.
  set (e' := e <| mh_query_time_ms := ms |>) in *.
  eapply wp_mono; [by apply (Hlink p e')|]. intros u' s3 Hl. wp_steps.
  eapply wp_load; [apply Hl|]. unfold copy_r_val_size. wp_steps. left. split_and!; [done| |].
  - cbn. rewrite Hvs, wrap_id by apply Ha. done.
  - rewrite <- Hval, <- Hh. change (entry_val e) with (entry_val e'). change (mh_hash e) with (mh_hash e').
    eapply stored_soft; [by apply (linked_stored k p e' s s3)|].
    apply softly_same_ctl; [apply soft_rvs|done..|apply Hl].
Qed.
End PutTail.

(** What a [put] answers and does. *)
Definition put_post k (op : mcd_arg) s (rc : Z) s' : Prop :=
  let h := key_hash op in
  let v := from_guest (op_val op) (op_val_size op) in
  rc = - ERR_NO /\ out_rvs s' = Some (op_val_size op) /\ stored k h v s s' \/
  rc = - ERR_MCDFAULT /\ kept s s' /\ abs s' ⊆ delete (k, h) (abs s).

Lemma kept_cleared k h s s1 s' : cleared k h s s1 -> kept s1 s' -> kept s s'.
Proof. intros [H1 H2 H3 H4] [K1 K2 K3]. split; [done|by etransitivity|lia]. Qed.

Lemma put_post_cleared k op s s1 rc s' : Inv s -> cleared k (key_hash op) s s1 ->
  rc = - ERR_NO /\ out_rvs s' = Some (op_val_size op) /\
    stored k (key_hash op) (from_guest (op_val op) (op_val_size op)) s1 s' \/
  rc = - ERR_MCDFAULT /\ kept s1 s' /\ abs s' ⊆ abs s1 -> put_post k op s rc s'.
Proof.
  intros HI Hcl. rewrite (cleared_abs _ _ _ _ HI Hcl).
  intros [(-> & Hr & Hk & H1 & H2)|(-> & Hk & H1)]; [left|right]; split_and!; try done;
    try by eapply kept_cleared. split; [by eapply kept_cleared|].
  rewrite (cleared_abs _ _ _ _ HI Hcl), insert_delete_eq in H1. done.
Qed.

Lemma time_diff_spec p e s : Inv s -> heap s !! p = Some e ->
  wp tol (time_diff_ns env p) (fun _ => softly s) s.
Proof.
  intros [Hwf Hc] He. unfold time_diff_ns. wp_steps. eapply wp_mono; [by apply NOW_spec|].
  intros t s' [-> Hq]. wp_steps. eapply wp_load; [by rewrite (sim_heap _ _ (proj1 Hq))|]. wp_steps.
  by apply quiet_softly.
Qed.

Lemma bump_ok size i f s : Inv s -> 0 <= i < size -> wp tol (bump size i f) (fun _ => softly s) s.
Proof.
  intros HI Hi. unfold bump. rewrite (proj2 (Z.leb_le _ _)), (proj2 (Z.ltb_lt _ _)) by lia. cbn. wp_steps.
  by apply softly_st.
Qed.

Lemma put_time_stats_spec ns s : Inv s -> wp tol (put_time_stats ns) (fun _ => softly s) s.
Proof.
  intros HI. unfold put_time_stats, bump_query_time. wp_steps.
  set (s1 := s <| st ::= _ |>). assert (Hs1 : softly s s1) by (by apply softly_st).
  pose proof (softly_Inv _ _ HI Hs1) as HI1. pose proof (u32_range (ns / 1000000)). unfold ms_of.
  destruct (Z.leb_spec MAX_QUERY_TIME (u32 (ns / 1000000)));
    (eapply wp_mono; [apply bump_ok; [done|unfold MAX_QUERY_TIME in *; lia]|]);
    intros u s2 Hs2; by eapply softly_trans.
Qed.

Lemma s_mcd_put_spec op domid s : tol DivByZero -> Inv s -> is_shared s = true ->
  (num s < env_fuel env)%nat -> domid ∈ domids s -> put_arg_ok op ->
  wp tol (s_mcd_put env (Some domid) op) (put_post None op s) s.
Proof using Hmini Hnow.
  intros Hdiv HI Hm Hf Hin Ha. unfold s_mcd_put, shared_list, mcdctl_shared_list. wp_steps.
  eapply wp_mono; [apply shared_find_spec, HI|]. intros mh s0 [-> Hfd]. wp_steps.
  eapply wp_mono with (Q := fun _ s' => cleared None (key_hash op) s s').
  { destruct mh as [p|]; wp_steps.
    - destruct Hfd as [Hp (e & He & <-)]. eapply wp_mono; [by apply (time_diff_spec p e)|].
      intros ns s1 Hs1. wp_steps. pose proof (softly_Inv _ _ HI Hs1) as HI1.
      eapply wp_mono; [by apply put_time_stats_spec|]. intros u s2 Hs2. wp_steps.
      pose proof (softly_trans _ _ _ Hs1 Hs2) as Hs12. pose proof (softly_Inv _ _ HI Hs12) as HI2.
      eapply wp_mono; [apply (s_remove_cleared p e); [done| |]|].
      + change (p ∈ tbl s2 None). by rewrite (soft_tbl _ _ _ (proj1 Hs12)).
      + by rewrite (so_heap _ _ (proj1 Hs12)).
      + intros b s3 Hcl. wp_steps. by eapply cleared_trans_soft.
    - eapply wp_mono; [apply shared_find_mch_spec, HI|]. intros mch s1 [-> Hq]. wp_steps.
      eapply wp_mono; [apply forget_some_spec; [apply HI|]|].
      { intros q ->. apply Hq. }
      intros u s' Hs. wp_steps. eapply cleared_soft; [by apply not_found_cleared|done]. }
  intros ms s1 Hcl. unfold put_length_stats. wp_steps. set (s2 := s1 <| st ::= _ |>).
  assert (Hcl2 : cleared None (key_hash op) s s2).
  { eapply cleared_soft; [done|]. apply softly_st, Hcl. }
  pose proof (cl_inv _ _ _ _ Hcl2) as HI2. pose proof (cl_frame _ _ _ _ Hcl2) as Hfr.
  rewrite <- (fr_domids _ _ Hfr) in Hin. destruct (frame_modes _ _ Hfr) as [Hm2 Hmode].
  apply wp_mcd_dom_id; [done|].
  eapply wp_mono; [apply (put_tail_spec Hdiv op domid ms None (link_shared (key_hash op)) s2)|].
  - done.
  - left. apply Z.eqb_eq. change (is_shared s2 = true). by rewrite Hm2.
  - pose proof (cl_num _ _ _ _ Hcl2). lia.
  - done.
  - done.
  - intros p e s3 Hd (_ & _ & Hh & _). rewrite <- Hh.
    apply (link_shared_spec _ s2); [done|by rewrite Hm2|]. rewrite Hh. by eapply cleared_found.
  - intros rc s3 H. by apply (put_post_cleared None op s s2).
Qed.

Lemma p_mcd_put_spec op domid s : tol DivByZero -> Inv s -> is_shared s = false -> mode_ok s ->
  (num s < env_fuel env)%nat -> domid ∈ domids s -> put_arg_ok op ->
  wp tol (p_mcd_put env (Some domid) op) (put_post (Some domid) op s) s.
Proof using Hmini Hnow.
  intros Hdiv HI Hm Hmo Hf Hin Ha. unfold p_mcd_put, mcdctl_dom_list. wp_steps.
  apply wp_mcd_dom_id; [done|]. wp_steps. apply wp_dom_list; [done|]. wp_steps.
  eapply wp_mono; [apply dom_find_spec, HI|]. intros mh s0 [-> Hfd]. wp_steps.
  eapply wp_mono with (Q := fun _ s' => cleared (Some domid) (key_hash op) s s').
  { destruct mh as [p|]; wp_steps.
    - destruct Hfd as [Hp (e & He & <-)]. eapply wp_mono; [by apply (time_diff_spec p e)|].
      intros ns s1 Hs1. wp_steps. pose proof (softly_Inv _ _ HI Hs1) as HI1.
      eapply wp_mono; [apply (p_remove_cleared domid p e); [done| |]|].
      + change (p ∈ tbl s1 (Some domid)). by rewrite (soft_tbl _ _ _ (proj1 Hs1)).
      + by rewrite (so_heap _ _ (proj1 Hs1)).
      + intros b s3 Hcl. wp_steps. by apply (cleared_trans_soft _ _ s s1).
    - eapply wp_mono; [apply dom_find_mch_spec, HI|]. intros mch s1 [-> Hq]. wp_steps.
      eapply wp_mono; [apply forget_some_spec; [apply HI|]|].
      { intros q ->. apply Hq. }
      intros u s' Hs. wp_steps. eapply cleared_soft; [by apply not_found_cleared|done]. }
  intros ms s2 Hcl2.
  pose proof (cl_inv _ _ _ _ Hcl2) as HI2. pose proof (cl_frame _ _ _ _ Hcl2) as Hfr.
  rewrite <- (fr_domids _ _ Hfr) in Hin. destruct (frame_modes _ _ Hfr) as [Hm2 Hmode].
  eapply wp_mono; [apply (put_tail_spec Hdiv op domid ms (Some domid) (link_private domid) s2)|].
  - done.
  - by apply Hmode.
  - pose proof (cl_num _ _ _ _ Hcl2). lia.
  - done.
  - done.
  - intros p e s3 Hd (_ & <- & Hh & _).
    apply (link_private_spec _ s2); [done|by rewrite Hm2|done|]. rewrite Hh. by eapply cleared_found.
  - intros rc s3 H. by apply (put_post_cleared (Some domid) op s s2).
Qed.

(** ** [get] *)

Lemma entry_val_length e : entry_ok e -> Z.of_nat (length (entry_val e)) = mh_val_size e.
Proof.
  intros (_ & _ & _ & _ & [Hk _] & [Hv _] & Hl & _). unfold entry_val. rewrite length_take, length_drop. lia.
Qed.

(** Delivering entry [e], the value of row [(k, h)]. *)
Definition delivered (op : mcd_arg) v hit s (rc : Z) s' : Prop :=
  Inv s' /\ frame s s' /\ num s' = num s /\ abs s' = abs s /\
  if Z.of_nat (length v) <=? op_val_size op
  then rc = hit /\ out_val s' = Some v /\ out_rvs s' = Some (Z.of_nat (length v))
  else rc = - ERR_MCDFAULT /\ out_val s' = out_val s /\ out_rvs s' = out_rvs s.

Lemma deliver_spec op k p e hit s : Inv s -> p ∈ tbl s k -> heap s !! p = Some e ->
  wp tol (deliver env op p hit) (delivered op (entry_val e) hit s) s.
Proof.
  intros HI Hp He. pose proof HI as [Hwf Hc].
  pose proof (lo_entry _ _ _ (wf_lists _ _ _ Hwf) p e He) as Hok. pose proof (entry_val_length e Hok) as Hlen.
  unfold deliver. wp_steps. eapply wp_load; [done|]. wp_steps.
  eapply wp_mono; [by apply NOW_spec|]. intros t s1 [-> Hq]. unfold store. wp_steps.
  pose proof (quiet_Inv _ _ HI Hq) as HI1. pose proof (quiet_softly _ _ Hq) as Hs1.
  set (e' := e <| mh_ref := _ |> <| mh_put_time := _ |>). set (s2 := s1 <| heap ::= _ |>).
  assert (He1 : heap s1 !! p = Some e) by (by rewrite (sim_heap _ _ (proj1 Hq))).
  assert (Hok' : entry_ok e').
  { destruct Hok as (? & ? & ? & Hr). split_and!; try done; try apply Hr. apply u32_range. }
  assert (HI2 : Inv s2).
  { split; [apply (wf_update _ _ p e e' s1); try done; [apply HI1|by left]|].
    eapply ctl_gen_env; [..|apply HI1]; done. }
  assert (Habs : abs s2 = abs s).
  { apply abs_eq; [done|apply HI2|]. intros k' h v.
    change (val_at (upd p e' s1) k' h v <-> val_at s k' h v). rewrite (val_at_update p e e' s1) by done.
    by apply val_at_soft, Hs1. }
  assert (Hfr : frame s s2).
  { etransitivity; [apply soft_frame, Hs1|]. split; try done. by cbn; destruct (cfg s1). }
  assert (Hnum : num s2 = num s) by (rewrite <- (soft_num _ _ (proj1 Hs1)); done).
  unfold delivered. rewrite Hlen.
  destruct (Z.ltb_spec (op_val_size op) (mh_val_size e)) as [Hlt|Hle].
  - rewrite (proj2 (Z.leb_gt _ _)) by lia. wp_steps. split_and!; try done; apply (proj1 Hq).
  - rewrite (proj2 (Z.leb_le _ _)) by lia. unfold copy_r_val_size, copy_val. wp_steps.
    set (s3 := _ <| out_val := _ |>).
    assert (Hs3 : softly s2 s3) by (apply softly_same_ctl; [by apply soft_same|done..|apply HI2]).
    assert (HI3 : Inv s3) by (by apply (softly_Inv s2)).
    split_and!; [done| | | |done|done|].
    + etransitivity; [done|apply soft_frame, Hs3].
    + rewrite <- Hnum. by apply soft_num, Hs3.
    + rewrite <- Habs. apply abs_eq; [apply HI2|apply HI3|]. intros. by apply val_at_soft, Hs3.
    + cbn. f_equal. rewrite wrap_id; [done|]. apply Hok.
Qed.

(** Statistics: soft, and nothing is answered. *)
Definition counted s s' : Prop :=
  softly s s' /\ out_rvs s' = out_rvs s /\ out_val s' = out_val s.

Lemma counted_trans s1 s2 s3 : counted s1 s2 -> counted s2 s3 -> counted s1 s3.
Proof. intros (H1 & H2 & H3) (K1 & K2 & K3). split_and!; [by eapply softly_trans|congruence..]. Qed.

Lemma counted_st s f : Inv s -> counted s (s <| st ::= f |>).
Proof. intros HI. split; [by apply softly_st|done]. Qed.

Lemma counted_delivered op v hit s s1 rc s' : Inv s -> counted s s1 ->
  delivered op v hit s1 rc s' -> delivered op v hit s rc s'.
Proof.
  intros HI (Hs & Hr & Hv) (H1 & H2 & H3 & H4 & H5). pose proof (softly_Inv _ _ HI Hs) as HI1.
  split_and!; [done|etransitivity; [apply soft_frame, Hs|done]| | |].
  - by rewrite H3, (soft_num _ _ (proj1 Hs)).
  - rewrite H4. apply abs_eq; [apply HI|apply HI1|]. intros. by apply val_at_soft, Hs.
  - by rewrite <- Hr, <- Hv.
Qed.

Lemma bump_counted size i f s : Inv s -> tol OutOfBounds -> wp tol (bump size i f) (fun _ => counted s) s.
Proof. intros HI Ho. unfold bump. destruct (_ && _); wp_steps; [by apply counted_st|done]. Qed.

Lemma get_time_stats_spec p e s : Inv s -> heap s !! p = Some e -> tol OutOfBounds ->
  wp tol (get_time_stats env p) (fun _ => counted s) s.
Proof.
  intros HI He Ho. unfold get_time_stats, time_diff_ns. wp_steps.
  eapply wp_mono; [apply NOW_spec, HI|]. intros t s1 [-> Hq]. wp_steps.
  assert (He1 : heap s1 !! p = Some e) by (by rewrite (sim_heap _ _ (proj1 Hq))).
  eapply wp_load; [done|]. wp_steps. pose proof (quiet_Inv _ _ HI Hq) as HI1.
  assert (Hc1 : counted s s1) by (split; [by apply quiet_softly|split; apply (proj1 Hq)]).
  eapply wp_mono with (Q := fun _ => counted s1).
  { unfold bump_reaccess, bump_reaccess_ms. repeat (destruct (_ =? 0) || destruct (_ <=? _)); by apply bump_counted. }
  intros u s2 Hc2. wp_steps. eapply wp_load; [by rewrite (so_heap _ _ (proj1 (proj1 Hc2)))|]. wp_steps.
  apply (counted_trans s s1); [done|]. apply (counted_trans s1 s2); [done|]. apply counted_st.
  apply (softly_Inv s1); [done|apply Hc2].
Qed.

Lemma found_abs s k h p e : Inv s -> p ∈ tbl s k -> heap s !! p = Some e -> mh_hash e = h ->
  abs s !! (k, h) = Some (entry_val e).
Proof. intros [Hwf _] Hp He Hh. apply abs_lookup; [done|]. by exists p, e. Qed.

Lemma not_found_abs s k h : Inv s -> found s k h None -> abs s !! (k, h) = None.
Proof.
  intros HI Hf. destruct (abs s !! (k, h)) as [v|] eqn:Hv; [|done].
  apply abs_lookup in Hv as (p & e & Hp & He & Hh & _); [|apply HI]. by destruct (Hf p e Hp He).
Qed.

(** What a [get] answers and does: a row of the map is delivered, unless the
    buffer of the caller is too small for it; a missing one is an error, or
    comes from the second tier and becomes a row. *)
Definition get_post k (op : mcd_arg) s (rc : Z) s' : Prop :=
  let h := key_hash op in
  match abs s !! (k, h) with
  | Some v => delivered op v RET_GET_MEM s rc s'
  | None =>
      kept s s' /\ rc = - ERR_MCDFAULT /\ abs s' ⊆ abs s \/
      exists v, stored k h v s s' /\
        (rc = RET_GET_SSD /\ out_val s' = Some v \/ rc = - ERR_MCDFAULT)
  end.

Lemma delivered_ssd k h v op s s1 rc s' : stored k h v s s1 -> delivered op v RET_GET_SSD s1 rc s' ->
  exists v', stored k h v' s s' /\ (rc = RET_GET_SSD /\ out_val s' = Some v' \/ rc = - ERR_MCDFAULT).
Proof.
  intros ([H1 H2 H3] & H4 & H5) (K1 & K2 & K3 & K4 & K5). exists v. split.
  - split; [split; [done|by etransitivity|lia]|]. by rewrite K4.
  - destruct (_ <=? _); naive_solver.
Qed.

(** Bringing the row in from the second tier; [link] is the list. *)
Lemma page_in_spec k op q c (link : ptr -> M (gstate B) unit) s : Inv s -> mode_ok s ->
  (num s < env_fuel env)%nat -> q ∈ mc_ptrs (ctl s) -> mc_heap (ctl s) !! q = Some c ->
  mch_hash c = key_hash op ->
  (forall p e s1, detached s p e s1 -> mh_hash e = key_hash op -> mh_domain e = mch_domain c ->
     wp tol (link p) (fun _ s' => linked s k p e s') s1) ->
  wp tol (mh ← mcd_page_in env q;
          match mh with
          | Some p => link p;; mret (mh, RET_GET_SSD)
          | None => mret (None, RET_GET_SSD)
          end)
    (fun x s' => match x with
      | (Some p, rc) => rc = RET_GET_SSD /\ exists e, linked s k p e s' /\ mh_hash e = key_hash op
      | (None, _) => Inv s' /\ evicted s s'
      end) s.
Proof using Hmini Hnow.
  intros HI Hm Hf Hq Hqc Hh Hlink. wp_steps.
  eapply wp_mono; [by apply (mcd_page_in_spec env tol Hmini Hnow q c)|].
  intros [p|] s1 H; wp_steps; [|done]. destruct H as (e & Hd & Hok & Hhash & Hdom & _).
  eapply wp_mono; [by apply (Hlink p e); [|congruence|]|]. intros u s2 Hl. wp_steps.
  split; [done|]. exists e. split; [done|congruence].
Qed.

Lemma s_mcd_get_spec md op s : tol OutOfBounds -> Inv s -> is_shared s = true ->
  (num s < env_fuel env)%nat -> wp tol (s_mcd_get env md op) (get_post None op s) s.
Proof using Hmini Hnow.
  intros Hoob HI Hm Hf. unfold s_mcd_get, shared_list, mcdctl_shared_list, get_count_stats. wp_steps.
  eapply wp_mono; [apply shared_find_spec, HI|]. intros mh s0 [-> Hfd]. wp_steps. unfold get_post.
  destruct mh as [p|]; wp_steps.
  - destruct Hfd as [Hp (e & He & Hh)]. rewrite (found_abs s None _ p e) by done.
    eapply wp_mono; [by apply (get_time_stats_spec p e)|]. intros u s1 Hc1. wp_steps.
    pose proof (softly_Inv _ _ HI (proj1 Hc1)) as HI1. set (s2 := s1 <| st ::= _ |>).
    assert (Hc2 : counted s s2) by (apply (counted_trans s s1); [done|by apply counted_st]).
    pose proof (softly_Inv _ _ HI (proj1 Hc2)) as HI2. destruct Hc2 as [[Hso Hct] Hout].
    eapply wp_mono; [apply (deliver_spec op None p e); [done|..]|].
    + by rewrite (soft_tbl _ _ _ Hso).
    + by rewrite (so_heap _ _ Hso).
    + intros rc s3 Hdl. by apply (counted_delivered _ _ _ s s2); [|split|].
  - rewrite (not_found_abs s None) by done.
    eapply wp_mono; [apply shared_find_mch_spec, HI|]. intros mch s1 [-> Hq]. wp_steps.
    destruct mch as [q|]; cbv iota.
    2: { wp_steps. left. set (s2 := s <| st ::= _ |>). assert (Hs2 : softly s s2) by (by apply softly_st).
      split_and!; [by apply softly_kept|done|by rewrite (softly_abs s s2)]. }
    destruct Hq as (_ & Hq & c & Hqc & Hh).
    eapply wp_mono; [apply (page_in_spec None op q c (link_shared (key_hash op))); try done; [by left; apply Z.eqb_eq|]|].
    { intros p e s1 Hd He _. rewrite <- He in *. by apply (link_shared_spec _ s). }
    intros [[p|] rc0] s1 H1; wp_steps.
    + destruct H1 as (-> & e & Hl & He). pose proof (lk_inv _ _ _ _ _ Hl) as HI1.
      eapply wp_mono; [apply (get_time_stats_spec p e); [done|apply Hl|done]|]. intros u s2 Hc2. wp_steps.
      pose proof (softly_Inv _ _ HI1 (proj1 Hc2)) as HI2. set (s3 := s2 <| st ::= _ |>).
      assert (Hc3 : counted s1 s3) by (apply (counted_trans s1 s2); [done|by apply counted_st]).
      pose proof (softly_Inv _ _ HI1 (proj1 Hc3)) as HI3. pose proof Hc3 as [[Hso _] _].
      eapply wp_mono; [apply (deliver_spec op None p e); [done|..]|].
      * rewrite (soft_tbl _ _ _ Hso). apply Hl.
      * rewrite (so_heap _ _ Hso). apply Hl.
      * intros rc s4 Hdl. right. apply (delivered_ssd _ _ (entry_val e) op s s1);
          [rewrite <- He; by apply (linked_stored _ p)|by apply (counted_delivered _ _ _ s1 s3)].
    + destruct H1 as [HI1 Hev]. left. set (s2 := s1 <| st ::= _ |>).
      assert (Hs2 : softly s1 s2) by (by apply softly_st). destruct (softly_kept _ _ HI1 Hs2) as [K1 K2 K3].
      split_and!; [split; [done|etransitivity; [by apply evicted_frame|done]|]|done|].
      * pose proof (evicted_num _ _ Hev). pose proof (soft_num _ _ (proj1 Hs2)). lia.
      * rewrite (softly_abs s1 s2) by done. by apply evicted_abs.
Qed.

Lemma p_mcd_get_spec domid op s : Inv s -> is_shared s = false -> mode_ok s -> domid ∈ domids s ->
  (num s < env_fuel env)%nat ->
  wp tol (p_mcd_get env (Some domid) op) (get_post (Some domid) op s) s.
Proof using Hmini Hnow.
  intros HI Hm Hmo Hin Hf. unfold p_mcd_get, mcdctl_dom_list. wp_steps.
  apply wp_mcd_dom_id; [done|]. wp_steps. apply wp_dom_list; [done|]. wp_steps.
  eapply wp_mono; [apply dom_find_spec, HI|]. intros mh s0 [-> Hfd]. wp_steps. unfold get_post.
  destruct mh as [p|]; wp_steps.
  - destruct Hfd as [Hp (e & He & Hh)]. rewrite (found_abs s (Some domid) _ p e) by done.
    by apply (deliver_spec op (Some domid)).
  - rewrite (not_found_abs s (Some domid)) by done.
    eapply wp_mono; [apply dom_find_mch_spec, HI|]. intros mch s1 [-> Hq]. wp_steps.
    destruct mch as [q|]; cbv iota.
    2: { wp_steps. left. split_and!; [by apply softly_kept, softly_refl|done..]. }
    destruct Hq as (Hl & Hq & c & Hqc & Hh).
    pose proof (ct_own _ _ (proj2 HI) domid q c Hl Hqc) as Hdom.
    eapply wp_mono; [apply (page_in_spec (Some domid) op q c (link_private domid)); try done|].
    { intros p e s1 Hd He Hde. rewrite Hdom in Hde. rewrite <- Hde in *. rewrite <- He in Hfd.
      by apply (link_private_spec _ s). }
    intros [[p|] rc0] s1 H1; wp_steps.
    + destruct H1 as (-> & e & Hlk & He). pose proof (lk_inv _ _ _ _ _ Hlk) as HI1.
      eapply wp_mono; [apply (deliver_spec op (Some domid) p e); [done|apply Hlk..]|].
      intros rc s4 Hdl. right. apply (delivered_ssd _ _ (entry_val e) op s s1); [|done].
      rewrite <- He. by apply (linked_stored _ p).
    + destruct H1 as [HI1 Hev]. left. split_and!; [by apply evicted_kept|done|by apply evicted_abs].
Qed.

(** ** [check] *)

(** A row is reported; for a missing one a row with the empty value may be
    left behind. *)
Definition check_post k (op : mcd_arg) mem ssd s (rc : Z) s' : Prop :=
  let h := key_hash op in
  match abs s !! (k, h) with
  | Some v => rc = mem /\ out_rvs s' = Some (Z.of_nat (length v)) /\ kept s s' /\ abs s' = abs s
  | None => (rc = - ERR_NO \/ rc = ssd) /\ kept s s' /\ abs s' ⊆ <[(k, h) := []]> (abs s)
  end.

Lemma check_mem_spec k p e s : Inv s -> p ∈ tbl s k -> heap s !! p = Some e ->
  wp tol (check_answer (Some p) None) (fun rc s' => rc = RET_GET_MEM /\ softly s s' /\
    out_rvs s' = Some (Z.of_nat (length (entry_val e)))) s.
Proof.
  intros HI Hp He. pose proof (lo_entry _ _ _ (wf_lists _ _ _ (proj1 HI)) p e He) as Hok.
  cbn. wp_steps. eapply wp_load; [done|]. unfold copy_r_val_size. wp_steps. split_and!; [done| |].
  - apply softly_same_ctl; [apply soft_rvs|done..|apply HI].
  - cbn. rewrite entry_val_length, wrap_id by (done || apply Hok). done.
Qed.

Lemma check_none_spec (mch : option ptr) qs h s : Inv s -> mch_found s qs h mch ->
  wp tol (check_answer None mch) (fun rc s' => softly s s' /\
    rc = match mch with Some _ => RET_GET_SSD | None => - ERR_NO end) s.
Proof.
  intros HI Hq. destruct mch as [q|]; cbn; unfold mch_load, copy_r_val_size; wp_steps.
  - destruct Hq as (_ & _ & c & Hqc & _). rewrite Hqc. wp_steps.
    split; [|done]. apply softly_same_ctl; [apply soft_rvs|done..|apply HI].
  - split; [|done]. apply softly_same_ctl; [apply soft_rvs|done..|apply HI].
Qed.

(** Leaving the entry that times the next [put]. *)
Lemma check_tail_spec k op domid (link : ptr -> M (gstate B) unit) (rc : Z) s s1 : Inv s -> softly s s1 ->
  mode_ok s -> (num s < env_fuel env)%nat -> domid ∈ domids s -> arg_ok op -> found s k (key_hash op) None ->
  (forall p e s2, detached s1 p e s2 -> from_op op domid e ->
     wp tol (link p) (fun _ s' => linked s1 k p e s') s2) ->
  wp tol (mh ← check_entry env op domid;
          match mh with
          | Some p => link p;; mret rc
          | None => mret rc
          end)
    (fun rc' s' => rc' = rc /\ kept s s' /\ abs s' ⊆ <[(k, key_hash op) := []]> (abs s)) s1.
Proof using Hmini Hnow.
  intros HI Hs Hmo Hf Hin Ha Hfd Hlink. pose proof (softly_Inv _ _ HI Hs) as HI1.
  pose proof (soft_frame _ _ (proj1 Hs)) as Hfr. rewrite <- (softly_abs s s1) by done. wp_steps.
  pose proof (soft_num _ _ (proj1 Hs)) as Hn. destruct (frame_modes _ _ Hfr) as [_ Hmo1].
  eapply wp_mono; [apply (check_entry_spec env tol Hmini Hnow); try done|].
  - by apply Hmo1.
  - by rewrite Hn.
  - by rewrite (fr_domids _ _ Hfr).
  - intros [p|] s2 H; wp_steps.
    + destruct H as (e & Hd & Hfo & Hv). pose proof Hfo as (_ & _ & Hh & _).
      eapply wp_mono; [by apply (Hlink p e)|]. intros u s3 Hl. wp_steps.
      pose proof (linked_stored _ _ _ _ _ HI1 Hl) as ([K1 K2 K3] & Hsub & _). rewrite Hv, Hh in Hsub.
      split_and!; [done|split; [done|by etransitivity|lia]|done].
    + destruct H as [HI2 Hev]. pose proof (evicted_num _ _ Hev).
      split_and!; [done|split; [done|etransitivity; [done|by apply evicted_frame]|lia]|].
      transitivity (abs s1); [by apply evicted_abs|]. apply insert_subseteq.
      apply not_found_abs; [done|]. by eapply softly_found.
Qed.

Lemma s_mcd_check_spec domid op s : Inv s -> is_shared s = true ->
  (num s < env_fuel env)%nat -> domid ∈ domids s -> arg_ok op ->
  wp tol (s_mcd_check env (Some domid) op) (check_post None op (- ERR_NO) (- ERR_NO) s) s.
Proof using Hmini Hnow.
  intros HI Hm Hf Hin Ha. unfold s_mcd_check, shared_list, mcdctl_shared_list, check_post. wp_steps.
  eapply wp_mono; [apply shared_find_spec, HI|]. intros mh s0 [-> Hfd].
  assert (Hmo : mode_ok s) by (by left; apply Z.eqb_eq). destruct mh as [p|]; wp_steps.
  - destruct Hfd as [Hp (e & He & Hh)]. rewrite (found_abs s None _ p e) by done.
    eapply wp_mono; [by apply (check_mem_spec None p e)|]. intros rc s1 (-> & Hs & Hr). wp_steps.
    split_and!; [done..|by apply softly_kept|by apply softly_abs].
  - rewrite (not_found_abs s None) by done.
    eapply wp_mono; [apply shared_find_mch_spec, HI|]. intros mch s1 [-> Hq]. wp_steps.
    eapply wp_mono; [by eapply check_none_spec|]. intros rc s1 [Hs Hrc]. wp_steps.
    pose proof (soft_domids _ _ (proj1 Hs)) as Hdi. apply wp_mcd_dom_id; [by rewrite Hdi|].
    eapply wp_mono; [apply (check_tail_spec None op domid (link_shared (key_hash op)) (- ERR_NO) s); try done|].
    + intros p e s2 Hd (_ & _ & Hh & _). rewrite <- Hh. apply (link_shared_spec _ s1); [done| |].
      * by destruct (frame_modes _ _ (soft_frame _ _ (proj1 Hs))) as [-> _].
      * rewrite Hh. by eapply softly_found.
    + intros rc' s3 (-> & Hk & Hsub). wp_steps. by split_and!; [left| |].
Qed.

Lemma p_mcd_check_spec domid op s : Inv s -> is_shared s = false -> mode_ok s ->
  (num s < env_fuel env)%nat -> domid ∈ domids s -> arg_ok op ->
  wp tol (p_mcd_check env (Some domid) op) (check_post (Some domid) op RET_GET_MEM RET_GET_SSD s) s.
Proof using Hmini Hnow.
  intros HI Hm Hmo Hf Hin Ha. unfold p_mcd_check, mcdctl_dom_list, check_post. wp_steps.
  apply wp_mcd_dom_id; [done|]. wp_steps. apply wp_dom_list; [done|]. wp_steps.
  eapply wp_mono; [apply dom_find_spec, HI|]. intros mh s0 [-> Hfd]. destruct mh as [p|]; wp_steps.
  - destruct Hfd as [Hp (e & He & Hh)]. rewrite (found_abs s (Some domid) _ p e) by done.
    eapply wp_mono; [by apply (check_mem_spec (Some domid) p e)|]. intros rc s1 (-> & Hs & Hr).
    split_and!; [done..|by apply softly_kept|by apply softly_abs].
  - rewrite (not_found_abs s (Some domid)) by done.
    eapply wp_mono; [apply dom_find_mch_spec, HI|]. intros mch s1 [-> Hq]. wp_steps.
    eapply wp_mono; [by eapply check_none_spec|]. intros rc s1 [Hs Hrc].
    eapply wp_mono; [apply (check_tail_spec (Some domid) op domid (link_private domid) rc s); try done|].
    + intros p e s2 Hd (_ & <- & Hh & _). apply (link_private_spec _ s1); [done| | |].
      * by destruct (frame_modes _ _ (soft_frame _ _ (proj1 Hs))) as [-> _].
      * by rewrite (soft_domids _ _ (proj1 Hs)).
      * rewrite Hh. by eapply softly_found.
    + intros rc' s3 (-> & Hk & Hsub). split_and!; [|done..]. rewrite Hrc. destruct mch; auto.
Qed.

End OpsSpec.
