(* ===== verification/Flush.v ===== *)
(** Flushing: the loops over a table and over the lists of mini headers empty
    them, whatever the cache mode says at that moment (the mode is switched
    before the old table is flushed). *)
From S2P Require Import Prelude CMonad Hash Types State Core Evict Inv Remove Evicted EvictShared EvictPart Alloc Create Ops View OpsLib OpsMake OpsSpec.

Section Flush.
Context {B : Type} `{!Minf B, !MinfLaws B} (env : Env) (tol : fault -> Prop).
Implicit Types (s : gstate B) (p q : ptr) (e : mcd_hashT) (d : mcd_domain) (k : option Z) (h : Z) (v : list Z).

(** The loop frees the elements of the list in order. *)
Lemma flush_list_spec (free : option ptr -> M (gstate B) unit) ps (J : list ptr -> gstate B -> Prop) s :
  J ps s ->
  (forall p qs s, J (p :: qs) s -> wp tol (free (Some p)) (fun _ s' => J qs s') s) ->
  wp tol (flush_list free ps) (fun _ s' => J [] s') s.
Proof.
  intros HJ Hfree. unfold flush_list. wp_steps.
  eapply wp_mono with (Q := fun prev s' => J (late_list prev) s').
  - apply (wp_for_each _ _ (fun qs prev s' => J (late_list prev ++ qs) s')); [done| |].
    + intros prev s' H. by rewrite app_nil_r in H.
    + intros curr qs [p|] s1 H; cbn; wp_steps; [|done].
      eapply wp_mono; [apply (Hfree p (curr :: qs)); exact H|]. intros u s2 H2. by wp_steps.
  - intros [p|] s1 H; [by apply (Hfree p [])|by wp_steps].
Qed.

(** ** Steps that leave the second tier alone *)

Record same_tier s s' : Prop := {
  sm_ctl : ctl s' = ctl s;
  sm_be : be s' = be s;
  sm_next : next_ptr s' = next_ptr s;
}.

#[export] Instance same_tier_preorder : PreOrder same_tier.
Proof. split; [by split|]. intros s1 s2 s3 [] []. split; congruence. Qed.

Lemma same_tier_base D s s' : same_tier s s' -> ctl_base D s -> ctl_base D s'.
Proof. intros [H1 H2 H3] []. split; rewrite ?H1, ?H2, ?H3; done. Qed.

Definition still s s' : Prop := sim s s' /\ same_tier s s'.

Lemma still_trans s1 s2 s3 : still s1 s2 -> still s2 s3 -> still s1 s3.
Proof. intros [] []. split; by etransitivity. Qed.

Lemma tick_still s : still s (s <| tick ::= S |>).
Proof. split; [solve_sim|by split]. Qed.

Lemma get_tot_mem_size_still s : wp tol (get_tot_mem_size env) (fun _ => still s) s.
Proof.
  unfold get_tot_mem_size, get_free_sys_mem, avail_domheap_pages. wp_steps. apply tick_still.
Qed.

Lemma get_free_mem_size_still s : wp tol (get_free_mem_size env) (fun _ => still s) s.
Proof.
  unfold get_free_mem_size. wp_steps. eapply wp_mono; [apply get_tot_mem_size_still|].
  intros n s1 H. by wp_steps.
Qed.

Lemma dom_usage_update_still domid s : NoDup (domids s) -> domid ∈ domids s ->
  wp tol (dom_usage_update env domid) (fun _ => still s) s.
Proof.
  intros Hnd Hin. unfold dom_usage_update. wp_steps.
  eapply wp_mono; [apply get_tot_mem_size_still|]. intros total s1 Hs1.
  rewrite <- (sim_domids _ _ (proj1 Hs1)) in Hnd, Hin. wp_steps.
  apply wp_dom_load; [done|]. intros d _ _ _. apply wp_dom_update; [done|].
  apply (still_trans s s1); [done|]. split; [|by split]. apply sim_set_curr; [done|]. by intros [].
Qed.

(** Removing an entry without moving it out. *)
Definition dropped shr p e s s' : Prop := sim (drop_entry shr p e s) s' /\ same_tier s s'.

Lemma remove_nomove_spec p e s : heap s !! p = Some e -> mh_magic e = MAGIC -> p ∈ shr_ptrs s ++ pri_ptrs s ->
  wp tol (remove_with_flag env p e DO_NOT_MOVE_TO_SSD)
    (fun _ s' => sim (unlinked p s) s' /\ same_tier s s') s.
Proof.
  intros He Hmg Hin. unfold remove_with_flag. cbn. unfold remove_hashT_wo_page_out. wp_steps.
  eapply wp_load; [done|]. rewrite Hmg, Z.eqb_refl. wp_steps. apply wp_list_del; [done|].
  unfold store, xfree. wp_steps. split; [|by split].
  solve_sim. by rewrite delete_insert_eq.
Qed.

Lemma charged_nomove (shr : bool) (g : g_mcd_data -> g_mcd_data) p e s : wf s -> heap s !! p = Some e ->
  p ∈ shr_ptrs s ++ pri_ptrs s ->
  g (mcd_data s) = (if shr then data_uncharge_shr e else data_uncharge_pri e) (mcd_data s) ->
  wp tol (remove_with_flag env p e DO_NOT_MOVE_TO_SSD) (fun _ => dropped shr p e s)
    (s <| mcd_data ::= g |> <| doms ::= alter_dom (mh_domain e) (dom_uncharge e) |>).
Proof.
  intros Hwf He Hin Hg. pose proof (lo_entry _ _ _ (wf_lists _ _ _ Hwf) p e He) as Hok.
  eapply wp_mono; [apply remove_nomove_spec; [done|apply Hok|]|].
  - unfold pri_ptrs, shr_ptrs. cbn. by rewrite alter_dom_pri_ptrs.
  - intros _ s' [[] Hsm]. split; [|by destruct Hsm]. split; cbn in *; try done. congruence.
Qed.

Lemma s_remove_nomove p e s : wf s -> heap s !! p = Some e -> p ∈ shr_ptrs s ->
  wp tol (s_remove_hashT env (Some p) DO_NOT_MOVE_TO_SSD) (fun _ => dropped true p e s) s.
Proof.
  intros Hwf He Hin. pose proof (lo_entry _ _ _ (wf_lists _ _ _ Hwf) p e He) as Hok.
  pose proof (lo_owner _ _ _ (wf_lists _ _ _ Hwf) p e He) as Hown.
  unfold s_remove_hashT. wp_steps. eapply wp_load; [done|]. rewrite (proj1 Hok), Z.eqb_refl. wp_steps.
  apply wp_find_mcd_dom; [done|]. wp_steps. apply wp_dom_update; [done|]. wp_steps.
  eapply wp_mono; [apply (charged_nomove true); [done..|set_solver|done]|]. intros u s' H. by wp_steps.
Qed.

Lemma p_remove_nomove domid p e s : wf s -> heap s !! p = Some e -> p ∈ dlist s domid ->
  wp tol (p_remove_hashT env domid (Some p) DO_NOT_MOVE_TO_SSD) (fun _ => dropped false p e s) s.
Proof.
  intros Hwf He Hin. pose proof (lo_entry _ _ _ (wf_lists _ _ _ Hwf) p e He) as Hok.
  pose proof (lo_owner _ _ _ (wf_lists _ _ _ Hwf) p e He) as Hown.
  pose proof (dlist_owner _ _ _ _ Hwf Hin He) as <-. pose proof (dlist_in_pri _ _ _ Hin) as Hpri.
  unfold p_remove_hashT. wp_steps. eapply wp_load; [done|]. rewrite (proj1 Hok), Z.eqb_refl. wp_steps.
  apply wp_dom_update; [done|]. wp_steps.
  eapply wp_mono; [apply (charged_nomove false); [done..|set_solver|done]|].
  intros u s' [Hs' Hsm]. wp_steps.
  pose proof (lo_domids _ _ _ (wf_lists _ _ _ Hwf)) as Hnd.
  pose proof (drop_entry_domids false p e s Hnd) as Hdi.
  eapply wp_mono; [apply dom_usage_update_still; rewrite (sim_domids _ _ Hs'), Hdi; done|].
  intros u' s2 [Hs2 Hsm2]. wp_steps. split; by etransitivity.
Qed.

(** ** A table *)

(** What is left of a flush of table [k] in which [ps] remain. *)
Record flushing k s ps s' : Prop := {
  fl_wf : wf s';
  fl_tier : same_tier s s';
  fl_frame : frame s s';
  fl_num : (num s' <= num s)%nat;
  fl_live : forall p, p ∈ ps -> p ∈ tbl s' k;
  fl_nodup : NoDup ps;
  fl_view : forall k' h' v, val_at s' k' h' v -> val_at s k' h' v;
  fl_other : forall k' h' v, k' <> k -> val_at s k' h' v -> val_at s' k' h' v;
  fl_heap : heap s' ⊆ heap s;
  fl_shr : shr_ptrs s' ⊆ shr_ptrs s;
}.

Lemma flushing_step (shr : bool) k s p e ps s1 s2 : flushing k s (p :: ps) s1 -> heap s1 !! p = Some e ->
  p ∈ (if shr then shr_ptrs s1 else pri_ptrs s1) -> dropped shr p e s1 s2 -> flushing k s ps s2.
Proof.
  intros [H1 H2 H3 H4 H5 H6 H7 H8 H9 H10] He Hin [Hs Hsm].
  assert (Hp : p ∈ tbl s1 k) by (apply H5; set_solver). apply NoDup_cons in H6 as [Hnp Hnd].
  pose proof (fun k' h' v => val_at_drop shr k p e s1 s2 k' h' v H1 Hp He Hs) as Hv. split.
  - by apply (step_wf shr p e s1).
  - by etransitivity.
  - etransitivity; [done|]. etransitivity; [apply (drop_frame shr p e); apply (wf_lists _ _ _ H1)|].
    by apply soft_frame, sim_soft.
  - pose proof (step_num shr p e s1 s2 H1 He Hin Hs). lia.
  - intros q Hq. assert (Hq1 : q ∈ tbl s1 k) by (apply H5; set_solver).
    assert (Ht : tbl s2 k = unlink p (tbl s1 k)).
    { destruct k as [domid|]; cbn; [by apply (dlist_step shr p e)|].
      rewrite (sim_shr_ptrs _ _ Hs). apply drop_entry_shr_ptrs. }
    rewrite Ht. apply elem_of_drop_elem. split; [done|]. by intros ->.
  - done.
  - intros k' h' v Hval. apply H7. by apply Hv in Hval as [? _].
  - intros k' h' v Hne Hval. apply Hv. split; [by apply H8|]. congruence.
  - rewrite (sim_heap _ _ Hs). etransitivity; [apply delete_subseteq|done].
  - rewrite (sim_shr_ptrs _ _ Hs), drop_entry_shr_ptrs. etransitivity; [|done].
    intros q Hq. by apply elem_of_drop_elem in Hq as [? _].
Qed.

Lemma flush_table_spec k ps (rm : option ptr -> M (gstate B) unit) s0 s (T : gstate B -> list ptr)
    (P : gstate B -> Prop) :
  (forall p e s1, wf s1 -> heap s1 !! p = Some e -> p ∈ tbl s1 k ->
     wp tol (rm (Some p)) (fun _ => dropped (bool_decide (k = None)) p e s1) s1) ->
  (forall p e s1 s2, wf s1 -> dropped (bool_decide (k = None)) p e s1 s2 ->
     T s2 = unlink p (T s1) /\ (P s1 -> P s2)) ->
  flushing k s0 ps s -> T s = ps -> P s ->
  wp tol (flush_list rm ps) (fun _ s' => flushing k s0 [] s' /\ T s' = [] /\ P s') s.
Proof.
  intros Hrm HT HF Hps HP.
  apply (flush_list_spec _ _ (fun qs s' => flushing k s0 qs s' /\ T s' = qs /\ P s')); [done|].
  intros p qs s1 (H1 & HT1 & HP1). assert (Hp : p ∈ tbl s1 k) by (apply H1; set_solver).
  pose proof (tbl_in_live _ _ _ Hp) as Hl. destruct (live_entry s1 p (fl_wf _ _ _ _ H1) Hl) as [e He].
  eapply wp_mono; [by apply Hrm; [apply H1|..]|]. intros u s2 Hd.
  destruct (HT p e s1 s2 (fl_wf _ _ _ _ H1) Hd) as [HT2 HP2]. split_and!; [| |by apply HP2].
  - by apply (flushing_step _ k s0 p e qs s1 s2 H1 He (tbl_side s1 k p Hp)).
  - rewrite HT2, HT1. apply drop_elem_cons.
    pose proof (fl_nodup _ _ _ _ H1) as Hnd. by apply NoDup_cons in Hnd as [? _].
Qed.

Lemma flushing_start k s ps s' : flushing k s [] s' -> NoDup ps -> (forall p, p ∈ ps -> p ∈ tbl s' k) ->
  flushing k s ps s'.
Proof. intros []. by split. Qed.

Lemma flushing_refl k s : wf s -> flushing k s [] s.
Proof. intros H. split; try done; [by intros p ?%elem_of_nil|constructor]. Qed.

(** ** The shared table *)

Lemma bucket_dropped shr p e s s' i : dropped shr p e s s' -> bucket_list s' i = unlink p (bucket_list s i).
Proof.
  intros [Hs _]. unfold bucket_list. rewrite (sim_shared _ _ Hs). cbn. rewrite list_lookup_fmap.
  by destruct (shared s !! i).
Qed.

Lemma bucket_flushing k s ps s' i : flushing k s ps s' -> (i < Z.to_nat MAX_LIST_HEAD)%nat ->
  shared s' !! i = Some (bucket_list s' i).
Proof.
  intros HF Hi. unfold bucket_list.
  rewrite <- (lo_len _ _ _ (wf_lists _ _ _ (fl_wf _ _ _ _ HF))) in Hi.
  by apply lookup_lt_is_Some in Hi as [l ->].
Qed.

Lemma s_flush_bucket_spec s0 s i : flushing None s0 [] s -> (i < Z.to_nat MAX_LIST_HEAD)%nat ->
  wp tol (s_flush_bucket env i tt) (fun c s' => c = Continue tt /\ flushing None s0 [] s' /\
    bucket_list s' i = [] /\ forall j, bucket_list s j = [] -> bucket_list s' j = []) s.
Proof.
  intros HF Hi. unfold s_flush_bucket. wp_steps. pose proof (fl_wf _ _ _ _ HF) as Hwf.
  eapply wp_mono; [apply (flush_table_spec None _ _ s0 s (fun s' => bucket_list s' i)
    (fun s' => forall j, bucket_list s j = [] -> bucket_list s' j = []))|].
  - intros p e s1 Hwf1 He Hp. wp_steps. eapply wp_mono; [by apply (s_remove_nomove p e)|].
    intros b s2 Hd. by wp_steps.
  - intros p e s1 s2 _ Hd. split; [by eapply bucket_dropped|]. intros HP j Hj.
    by rewrite (bucket_dropped _ _ _ _ _ j Hd), HP.
  - apply flushing_start; [done|by apply bucket_nodup|]. intros p. apply bucket_in_shr.
  - done.
  - done.
  - intros u s1 (HF1 & Hb & Hj). wp_steps.
    assert (Hsame : <[i := []]> (shared s1) = shared s1).
    { apply list_insert_id. by rewrite (bucket_flushing _ _ _ _ i HF1 Hi), Hb. }
    assert (Heq : s1 <| shared ::= <[i := []]> |> = s1).
    { transitivity (eta s1); [|by destruct s1]. cbv beta delta [setter]. by rewrite Hsame. }
    rewrite Heq. done.
Qed.

Lemma s_flush_all_buckets s : wf s ->
  wp tol (for_each buckets (s_flush_bucket env) tt)
    (fun _ s' => flushing None s [] s' /\ shr_ptrs s' = []) s.
Proof.
  intros Hwf.
  apply (wp_for_each _ _ (fun iks _ s' => flushing None s [] s' /\
    (exists n, iks = seq n (Z.to_nat MAX_LIST_HEAD - n)%nat /\ (n <= Z.to_nat MAX_LIST_HEAD)%nat /\
     forall j, (j < n)%nat -> bucket_list s' j = []))).
  - split; [by apply flushing_refl|]. exists 0%nat. split_and!; [done|lia|]. intros; lia.
  - intros _ s' [HF (n & Hn & Hle & Hj)]. split; [done|].
    assert (n = Z.to_nat MAX_LIST_HEAD) as ->.
    { destruct (Z.to_nat MAX_LIST_HEAD - n)%nat eqn:E; [lia|done]. }
    unfold shr_ptrs. apply elem_of_nil_inv. intros p (l & Hl & Hp)%elem_of_concat.
    apply list_elem_of_lookup in Hl as [i Hi]. pose proof (lookup_lt_Some _ _ _ Hi) as Hlt.
    rewrite (lo_len _ _ _ (wf_lists _ _ _ (fl_wf _ _ _ _ HF))) in Hlt. specialize (Hj i Hlt).
    unfold bucket_list in Hj. rewrite Hi in Hj. cbn in Hj. subst l. set_solver.
  - intros i iks [] s1 [HF (n & Hn & Hle & Hj)].
    destruct (Z.to_nat MAX_LIST_HEAD - n)%nat as [|m] eqn:E; [done|]. cbn in Hn. injection Hn as -> ->.
    eapply wp_mono; [apply (s_flush_bucket_spec s); [done|lia]|]. intros c s2 (-> & HF2 & Hb & Hk).
    split; [done|]. exists (S n). split_and!; [f_equal; lia|lia|]. intros j Hlt.
    destruct (decide (j = n)) as [->|]; [done|]. apply Hk, Hj. lia.
Qed.

(** ** The table of a domain *)

Lemma alter_dom_id domid f (ds : list mcd_domain) d : dom_of ds domid = Some d -> f d = d ->
  alter_dom domid f ds = ds.
Proof.
  intros Hd Hf. induction ds as [|d0 ds IH]; [done|]. rewrite dom_of_cons in Hd. cbn.
  destruct (Z.eqb_spec (md_domid d0) domid) as [Heq|Hne]; case_decide; try done; [congruence|].
  f_equal. by apply IH.
Qed.

Lemma p_flush_table domid s : wf s -> domid ∈ domids s ->
  wp tol (ps ← dom_list (DomAt domid);
          flush_list (fun mh => p_remove_hashT env domid mh DO_NOT_MOVE_TO_SSD;; mret tt) ps;;
          dom_update (DomAt domid) (fun d => d <| md_hash_list := [] |>))
    (fun _ s' => flushing (Some domid) s [] s' /\ dlist s' domid = []) s.
Proof.
  intros Hwf Hin. wp_steps. apply wp_dom_list; [done|]. wp_steps.
  eapply wp_mono; [apply (flush_table_spec (Some domid) _ _ s s (fun s' => dlist s' domid) (fun _ => True))|].
  - intros p e s1 Hwf1 He Hp. wp_steps. eapply wp_mono; [by apply (p_remove_nomove domid p e)|].
    intros b s2 Hd. by wp_steps.
  - intros p e s1 s2 Hwf1 [Hs _]. split; [|done]. by apply (dlist_step (bool_decide (Some domid = None)) p e).
  - apply flushing_start; [by apply flushing_refl|by apply dlist_nodup|done].
  - done.
  - done.
  - intros u s1 (HF & Hdl & _). rewrite <- (fr_domids _ _ (fl_frame _ _ _ _ HF)) in Hin.
    apply wp_dom_update; [done|]. destruct (dom_of_is_Some _ _ Hin) as [d Hd].
    assert (Heq : s1 <| doms ::= alter_dom domid (fun d => d <| md_hash_list := [] |>) |> = s1).
    { rewrite (dlist_dom _ _ _ Hd) in Hdl. transitivity (eta s1); [|by destruct s1]. cbv beta delta [setter].
      rewrite (alter_dom_id _ _ _ d Hd); [done|]. destruct d; cbn in *. by subst. }
    rewrite Heq. done.
Qed.

(** ** The mini headers *)

(** Only mini headers disappeared from their lists. *)
Record mc_shrunk s s' : Prop := {
  ms_soft : soft s s';
  ms_base : ctl_base [] s';
  ms_heap : mc_heap (ctl s') = mc_heap (ctl s);
  ms_shared : Forall2 (flip sublist) (mc_shared (ctl s)) (mc_shared (ctl s'));
  ms_doms : forall k : Z, default [] (mc_doms (ctl s') !! k) `sublist_of` default [] (mc_doms (ctl s) !! k);
}.

Lemma mc_shrunk_refl s : ctl_base [] s -> mc_shrunk s s.
Proof. intros H. by split. Qed.

Lemma mc_shrunk_trans s1 s2 s3 : mc_shrunk s1 s2 -> mc_shrunk s2 s3 -> mc_shrunk s1 s3.
Proof.
  intros [H1 H2 H3 H4 H5] [K1 K2 K3 K4 K5]. split; [by eapply soft_trans|done|congruence| |].
  - eapply Forall2_trans; [|done..]. intros l1 l2 l3 ??. by transitivity l2.
  - intros k. transitivity (default [] (mc_doms (ctl s2) !! k)); [apply K5|apply H5].
Qed.

Lemma mc_shrunk_doms s s' q : mc_shrunk s s' -> q ∈ map_concat (mc_doms (ctl s')) -> q ∈ map_concat (mc_doms (ctl s)).
Proof.
  intros Hs. unfold map_concat at 1. intros (l & Hl & Hq)%elem_of_concat.
  apply list_elem_of_fmap in Hl as ([k l'] & -> & Hk%elem_of_map_to_list).
  apply (in_map_concat _ k). apply (sublist_subseteq _ _ (ms_doms _ _ Hs k)). by rewrite Hk.
Qed.

Lemma mc_shrunk_ptrs s s' q : mc_shrunk s s' -> q ∈ mc_ptrs (ctl s') -> q ∈ mc_ptrs (ctl s).
Proof.
  intros Hs. unfold mc_ptrs. rewrite !elem_of_app. intros [Hq|Hq]; [left|right; by eapply mc_shrunk_doms].
  by apply (sublist_subseteq _ _ (concat_sublist _ _ (ms_shared _ _ Hs))).
Qed.

Lemma mc_shrunk_ok s s' : mc_shrunk s s' -> ctl_ok s -> ctl_ok s'.
Proof.
  intros Hs [Hb Hh Ho Hms Hmp]. assert (Hmode : cache_mode (cfg s') = cache_mode (cfg s)).
  { by rewrite (so_cfg _ _ (ms_soft _ _ Hs)). }
  split; [apply Hs|..]; rewrite ?Hmode, ?(ms_heap _ _ Hs), ?(soft_domids _ _ (ms_soft _ _ Hs)).
  - intros q c Hq. apply Hh. by eapply mc_shrunk_ptrs.
  - intros k q c Hq. apply (Ho k q). by apply (sublist_subseteq _ _ (ms_doms _ _ Hs k)).
  - intros Hc. apply elem_of_nil_inv. intros q Hq%(mc_shrunk_doms _ _ _ Hs). rewrite Hms in Hq by done. set_solver.
  - intros Hc. pose proof (concat_sublist _ _ (ms_shared _ _ Hs)) as Hsub. rewrite Hmp in Hsub by done.
    by apply sublist_nil_r in Hsub.
Qed.

Lemma fmap_unlink_default (m : gmap Z (list ptr)) q (k : Z) :
  default [] ((unlink q <$> m) !! k) = unlink q (default [] (m !! k)).
Proof. rewrite lookup_fmap. by destruct (m !! k). Qed.

Lemma mcdctl_free_shrunk q s : ctl_base [] s -> q ∈ mc_ptrs (ctl s) ->
  wp tol (mcdctl_free (Some q)) (fun _ s' => mc_shrunk s s' /\
    forall q', q' <> q -> q' ∈ mc_ptrs (ctl s) -> q' ∈ mc_ptrs (ctl s')) s.
Proof.
  intros Hc Hq. unfold mcdctl_free, mc_list_del, mch_load. wp_steps.
  destruct (negb _); wp_steps; [split; [by apply mc_shrunk_refl|done]|].
  destruct (ct_live _ _ Hc q) as [c Hqc]; [apply elem_of_app; by left|]. rewrite Hqc. wp_steps.
  rewrite decide_True by done. wp_steps. set (s' := _ <| ctl ::= _ |>). destruct Hc as [Hl Hd Hv Hf Hm].
  assert (Hp : mc_ptrs (ctl s') ≡ₚ unlink q (mc_ptrs (ctl s))).
  { unfold mc_ptrs. cbn. by rewrite drop_elem_app, map_concat_drop, drop_elem_concat. }
  rewrite app_nil_r in *.
  assert (Hall : mc_ptrs (ctl s') ++ mc_freelist (ctl s') ≡ₚ mc_ptrs (ctl s) ++ mc_freelist (ctl s)).
  { rewrite Hp. cbn. rewrite <- Permutation_middle. apply NoDup_app in Hd as (Hd & _ & _).
    by rewrite (drop_elem_perm q (mc_ptrs (ctl s))) at 2. }
  split; [|intros q' Hne Hq'; rewrite Hp; by apply elem_of_drop_elem]. split.
  - by apply soft_same.
  - split; rewrite ?app_nil_r, ?Hall; try done; [cbn; by rewrite length_fmap|].
    intros q'. rewrite Hall. apply Hv.
  - done.
  - cbn. apply Forall2_fmap_r. generalize (mc_shared (ctl s)). intros ls.
    induction ls; constructor; [apply drop_elem_sublist|done].
  - intros k. cbn. rewrite fmap_unlink_default. apply drop_elem_sublist.
Qed.

Lemma mc_flush_list_spec qs s0 s : mc_shrunk s0 s -> NoDup qs -> (forall q, q ∈ qs -> q ∈ mc_ptrs (ctl s)) ->
  wp tol (flush_list mcdctl_free qs) (fun _ s' => mc_shrunk s0 s') s.
Proof.
  intros Hs Hnd Hin.
  eapply wp_mono; [apply (flush_list_spec _ qs (fun qs s' => mc_shrunk s0 s' /\ NoDup qs /\
    forall q, q ∈ qs -> q ∈ mc_ptrs (ctl s')))|by intros u s' [? _]]; [done|].
  intros q qs' s1 (H1 & [Hnq Hnd1]%NoDup_cons & H3).
  eapply wp_mono; [apply mcdctl_free_shrunk; [apply H1|apply H3; set_solver]|].
  intros u s2 [H4 H5]. split_and!; [by eapply mc_shrunk_trans|done|].
  intros q' Hq'. apply H5; [by intros ->|]. apply H3. set_solver.
Qed.

(** Re-initialising lists. *)
Lemma ctl_base_shrink s s' : ctl_base [] s -> length (mc_shared (ctl s')) = length (mc_shared (ctl s)) ->
  mc_heap (ctl s') = mc_heap (ctl s) -> mc_freelist (ctl s') = mc_freelist (ctl s) ->
  mc_ptrs (ctl s') ⊆+ mc_ptrs (ctl s) -> be s' = be s -> next_ptr s' = next_ptr s -> ctl_base [] s'.
Proof.
  intros [Hl Hd Hv Hf Hm] H1 H2 H3 H4 H5 H6. rewrite app_nil_r in *.
  assert (Hsub : mc_ptrs (ctl s') ++ mc_freelist (ctl s') ⊆+ mc_ptrs (ctl s) ++ mc_freelist (ctl s)).
  { rewrite H3. by apply submseteq_skips_r. }
  split; rewrite ?app_nil_r, ?H1, ?H2, ?H5, ?H6; try done.
  - apply submseteq_Permutation in Hsub as [l Hl']. rewrite Hl' in Hd. by apply NoDup_app in Hd as (? & _).
  - intros q Hq. apply Hv. by apply (elem_of_submseteq _ _ q Hq).
Qed.

Lemma insert_nil_shrinks {A} (ls : list (list A)) i : Forall2 (flip sublist) ls (<[i := []]> ls).
Proof.
  revert i. induction ls as [|l ls IH]; intros [|i]; cbn; try constructor; try done. apply sublist_nil_l.
Qed.

Lemma mcdctl_flush_bucket_spec s0 s i : mc_shrunk s0 s -> (i < Z.to_nat MAX_LIST_HEAD)%nat ->
  wp tol (mcdctl_flush_bucket i tt) (fun c s' => c = Continue tt /\ mc_shrunk s0 s' /\
    mc_shared (ctl s') !! i = Some [] /\
    forall j, mc_shared (ctl s) !! j = Some [] -> mc_shared (ctl s') !! j = Some []) s.
Proof.
  intros Hs Hi. unfold mcdctl_flush_bucket. wp_steps.
  set (qs := default [] (mc_shared (ctl s) !! i)). pose proof (ms_base _ _ Hs) as Hb.
  assert (Hsub : qs `sublist_of` concat (mc_shared (ctl s))).
  { unfold qs. destruct (mc_shared (ctl s) !! i) as [l|] eqn:Hl; [|apply sublist_nil_l]. cbn.
    apply list_elem_of_split_length in Hl as (l1 & l2 & -> & _). rewrite concat_app. cbn.
    apply sublist_inserts_l, sublist_inserts_r. done. }
  assert (Hnd : NoDup (concat (mc_shared (ctl s)))).
  { pose proof (ct_nodup _ _ Hb) as Hnd. by apply NoDup_app in Hnd as ((? & _)%NoDup_app & _). }
  eapply wp_mono; [apply (mc_flush_list_spec qs s s); [by apply mc_shrunk_refl|by eapply sublist_NoDup|]|].
  { intros q Hq. unfold mc_ptrs. apply elem_of_app. left. by apply (sublist_subseteq _ _ Hsub). }
  intros u s1 Hs1. wp_steps. set (s2 := s1 <| ctl ::= _ |>). pose proof (ms_base _ _ Hs1) as Hb1.
  assert (Hlen : (i < length (mc_shared (ctl s1)))%nat) by (by rewrite (ct_len _ _ Hb1)).
  assert (H12 : mc_shrunk s1 s2).
  { split; [by apply soft_same| |done| |done].
    - apply (ctl_base_shrink s1); try done; [cbn; by rewrite length_insert|].
      apply submseteq_skips_r, sublist_submseteq, concat_sublist, insert_nil_shrinks.
    - apply insert_nil_shrinks. }
  split_and!; [done|apply (mc_shrunk_trans s0 s); [done|by apply (mc_shrunk_trans s s1)]| |].
  - cbn. by rewrite list_lookup_insert_eq.
  - intros j Hj. cbn. destruct (decide (i = j)) as [<-|Hne]; [by rewrite list_lookup_insert_eq|].
    rewrite list_lookup_insert_ne by done.
    eapply Forall2_lookup_l in Hj as (l & Hl & Hsl); [|apply (ms_shared _ _ Hs1)].
    cbn in Hsl. apply sublist_nil_r in Hsl. by rewrite Hl, Hsl.
Qed.

Lemma mcdctl_flush_buckets s : ctl_base [] s ->
  wp tol (for_each buckets mcdctl_flush_bucket tt)
    (fun _ s' => mc_shrunk s s' /\ concat (mc_shared (ctl s')) = []) s.
Proof.
  intros Hb.
  apply (wp_for_each _ _ (fun iks _ s' => mc_shrunk s s' /\
    (exists n, iks = seq n (Z.to_nat MAX_LIST_HEAD - n)%nat /\ (n <= Z.to_nat MAX_LIST_HEAD)%nat /\
     forall j, (j < n)%nat -> mc_shared (ctl s') !! j = Some []))).
  - split; [by apply mc_shrunk_refl|]. exists 0%nat. split_and!; [done|lia|]. intros; lia.
  - intros _ s' [Hs (n & Hn & Hle & Hj)]. split; [done|].
    assert (n = Z.to_nat MAX_LIST_HEAD) as ->.
    { destruct (Z.to_nat MAX_LIST_HEAD - n)%nat eqn:E; [lia|done]. }
    apply elem_of_nil_inv. intros p (l & Hl & Hp)%elem_of_concat.
    apply list_elem_of_lookup in Hl as [i Hi]. pose proof (lookup_lt_Some _ _ _ Hi) as Hlt.
    rewrite (ct_len _ _ (ms_base _ _ Hs)) in Hlt. rewrite (Hj i Hlt) in Hi. injection Hi as <-. set_solver.
  - intros i iks [] s1 [Hs (n & Hn & Hle & Hj)].
    destruct (Z.to_nat MAX_LIST_HEAD - n)%nat as [|m] eqn:E; [done|]. cbn in Hn. injection Hn as -> ->.
    eapply wp_mono; [apply (mcdctl_flush_bucket_spec s); [done|lia]|]. intros c s2 (-> & Hs2 & Hb2 & Hk).
    split; [done|]. exists (S n). split_and!; [f_equal; lia|lia|]. intros j Hlt.
    destruct (decide (j = n)) as [->|]; [done|]. apply Hk, Hj. lia.
Qed.

(** A request to the transport, when only the base part of the invariant of
    the second tier holds. *)
Lemma minf_base {A} (m : M B A) s : (forall b, minf_inv b ->
    wp no_fault m (fun _ b' => minf_inv b' /\ mcdctl_enabled b' = mcdctl_enabled b) b) ->
  ctl_base [] s -> wp tol (minf m) (fun _ s' => mc_shrunk s s' /\ ctl s' = ctl s) s.
Proof.
  intros Hm [H1 H2 H3 H4 H5]. apply wp_zoom. specialize (Hm _ H5). unfold wp, no_fault in *.
  destruct (m (be s)) as [a b'| |]; [|done..]. destruct Hm as [H9 H10]. split; [|done].
  split; [by apply soft_same|by split|done..].
Qed.

(** The second tier is empty. *)
Definition ctl_empty s : Prop := ctl_base [] s /\ mc_ptrs (ctl s) = [].

Lemma ctl_empty_ok s : ctl_empty s -> ctl_ok s.
Proof.
  intros [Hb Hp]. pose proof Hp as Hp2. apply app_nil in Hp2 as [H1 H2].
  split; [done|..]; rewrite ?Hp; [set_solver| |done..].
  intros k q c Hq. apply in_map_concat in Hq. rewrite H2 in Hq. set_solver.
Qed.

Lemma mcdctl_flush_spec s : ctl_base [] s -> map_concat (mc_doms (ctl s)) = [] ->
  wp tol mcdctl_flush (fun _ s' => soft s s' /\ ctl_empty s') s.
Proof.
  intros Hb Hd. unfold mcdctl_flush. wp_steps. eapply wp_mono; [by apply mcdctl_flush_buckets|].
  intros u s1 [Hs1 Hc1]. wp_steps.
  eapply wp_mono; [apply (minf_base minf_page_flush); [apply minf_flush_ok|apply Hs1]|].
  intros rc s2 [Hs2 Hctl]. unfold exit_mcdctl. wp_steps.
  pose proof (mc_shrunk_trans _ _ _ Hs1 Hs2) as Hs12. pose proof (ms_base _ _ Hs12) as [H1 H2 H3 H4 H5].
  assert (Hdoms : map_concat (mc_doms (ctl s2)) = []).
  { apply elem_of_nil_inv. intros q Hq%(mc_shrunk_doms _ _ _ Hs12). rewrite Hd in Hq. set_solver. }
  assert (Hptrs : mc_ptrs (ctl s2) = []) by (unfold mc_ptrs; by rewrite Hdoms, Hctl, Hc1).
  split.
  - eapply soft_trans; [apply Hs12|]. by apply soft_same.
  - set (s3 := s2 <| ctl ::= _ |>). assert (Hp3 : mc_ptrs (ctl s3) = []) by exact Hptrs. split; [|done].
    split; rewrite ?Hp3; [exact H1|constructor| | |exact H5].
    + intros q Hq. by apply elem_of_nil in Hq.
    + cbn. intros q [c Hq]. by rewrite lookup_empty in Hq.
Qed.

(** ** The flush operations *)

Record flushed k s s' : Prop := {
  fd_wf : wf s';
  fd_frame : frame s s';
  fd_num : (num s' <= num s)%nat;
  fd_tbl : tbl s' k = [];
  fd_view : forall k' h' v, val_at s' k' h' v <-> val_at s k' h' v /\ k' <> k;
  fd_heap : heap s' ⊆ heap s;
  fd_shr : shr_ptrs s' ⊆ shr_ptrs s;
}.

Lemma flushing_flushed k s s1 s2 : flushing k s [] s1 -> tbl s1 k = [] -> soft s1 s2 -> flushed k s s2.
Proof.
  intros [H1 H2 H3 H4 H5 H6 H7 H8 H9 H10] Ht Hs. split.
  - by eapply wf_soft.
  - etransitivity; [done|by apply soft_frame].
  - by rewrite (soft_num _ _ Hs).
  - by rewrite (soft_tbl _ _ _ Hs).
  - intros k' h' v. rewrite (val_at_soft _ _ _ _ _ Hs). split; [|intros []; by apply H8].
    intros Hv. split; [by apply H7|]. intros ->. destruct Hv as (p & e & Hp & _). rewrite Ht in Hp. set_solver.
  - by rewrite (so_heap _ _ Hs).
  - unfold shr_ptrs. by rewrite (so_shared _ _ Hs).
Qed.

Lemma flushed_abs k s s' : wf s -> flushed k s s' -> abs s' = filter (fun x => x.1.1 <> k) (abs s).
Proof.
  intros Hwf Hf. apply map_eq. intros [k' h']. apply option_eq. intros v.
  rewrite map_lookup_filter_Some, !abs_lookup by (done || apply Hf). cbn. apply Hf.
Qed.

Lemma s_mcd_flush_spec s : wf s -> ctl_base [] s -> map_concat (mc_doms (ctl s)) = [] ->
  wp tol (s_mcd_flush env) (fun rc s' => rc = - ERR_NO /\ flushed None s s' /\ ctl_empty s') s.
Proof.
  intros Hwf Hb Hd. unfold s_mcd_flush. wp_steps. eapply wp_mono; [by apply s_flush_all_buckets|].
  intros u s1 [HF Hp]. wp_steps. pose proof (fl_tier _ _ _ _ HF) as Hsm.
  eapply wp_mono; [apply mcdctl_flush_spec; [by eapply same_tier_base|by rewrite (sm_ctl _ _ Hsm)]|].
  intros u' s2 [Hs He]. wp_steps. split_and!; [done|by eapply flushing_flushed|done].
Qed.

Lemma mcdctl_dom_flush_spec (domid : Z) s : ctl_base [] s ->
  wp tol (mcdctl_dom_flush domid) (fun _ s' => mc_shrunk s s' /\ default [] (mc_doms (ctl s') !! domid) = []) s.
Proof.
  intros Hb. unfold mcdctl_dom_flush, mcdctl_dom_list. wp_steps.
  set (qs := default [] (mc_doms (ctl s) !! domid)).
  assert (Hnd : NoDup qs).
  { pose proof (ct_nodup _ _ Hb) as Hnd. apply NoDup_app in Hnd as ((_ & _ & Hnd)%NoDup_app & _).
    rewrite (map_concat_split _ domid) in Hnd. by apply NoDup_app in Hnd as (? & _). }
  eapply wp_mono; [apply (mc_flush_list_spec qs s s); [by apply mc_shrunk_refl|done|]|].
  { intros q Hq. unfold mc_ptrs. apply elem_of_app. right. by eapply in_map_concat. }
  intros u s1 Hs1. wp_steps. set (s2 := s1 <| ctl ::= _ |>).
  assert (H12 : mc_shrunk s1 s2).
  { split; [by apply soft_same| |done|done|].
    - apply (ctl_base_shrink s1); try done; [apply Hs1|]. apply submseteq_skips_l. cbn.
      rewrite (map_concat_split (<[domid := []]> _) domid), (map_concat_split (mc_doms (ctl s1)) domid).
      rewrite lookup_insert_eq, delete_insert_eq. cbn. by apply submseteq_inserts_l.
    - intros k. cbn. destruct (decide (domid = k)) as [<-|]; [|by rewrite lookup_insert_ne].
      rewrite lookup_insert_eq. apply sublist_nil_l. }
  pose proof (mc_shrunk_trans _ _ _ Hs1 H12) as Hs2.
  eapply wp_mono; [apply (minf_base (minf_page_dom_flush domid)); [apply minf_dom_flush_ok|apply Hs2]|].
  intros rc s3 [Hs3 Hctl]. wp_steps. split; [by eapply mc_shrunk_trans|].
  rewrite Hctl. cbn. by rewrite lookup_insert_eq.
Qed.

Lemma p_mcd_flush_spec domid s : wf s -> ctl_base [] s -> domid ∈ domids s ->
  wp tol (p_mcd_flush env (Some domid)) (fun rc s' => rc = - ERR_NO /\ flushed (Some domid) s s' /\
    exists s1, same_tier s s1 /\ mc_shrunk s1 s' /\ default [] (mc_doms (ctl s') !! domid) = []) s.
Proof.
  intros Hwf Hb Hin. pose proof (p_flush_table domid s Hwf Hin) as Ht.
  unfold p_mcd_flush. apply wp_bind_inv in Ht. apply wp_bind. eapply wp_mono; [exact Ht|].
  clear Ht. intros ps s1 Ht. apply wp_bind_inv in Ht. wp_steps. eapply wp_mono; [exact Ht|].
  clear Ht. intros u s2 Ht. wp_steps. eapply wp_mono; [exact Ht|]. clear Ht. intros u' s3 [HF Hdl]. wp_steps.
  pose proof (fl_tier _ _ _ _ HF) as Hsm.
  eapply wp_mono; [apply mcdctl_dom_flush_spec; by eapply same_tier_base|]. intros u2 s4 [Hs4 Hd]. wp_steps.
  split_and!; [done| |by exists s3]. apply (flushing_flushed _ s s3); [done..|apply Hs4].
Qed.

End Flush.
