(* ===== verification/Display.v ===== *)
(** The text output of xen/common/mcd.c: the [mcdc_*] functions and
    [display_stats], which write lines at increasing offsets of a guest
    buffer, and the proof that they stay inside it. *)
From S2P Require Import Prelude CMonad Hash Types State Core Evict Inv Remove Evicted.
From Stdlib Require Import Ascii.

(** * Formatting *)

Module Fmt.
Definition str (s : string) : list Z :=
  (fun a => Z.of_nat (nat_of_ascii a)) <$> String.list_ascii_of_string s.

Definition digit (d : Z) : Z := if d <? 10 then 48 + d else 87 + d.

(** The digits of [n] in front of [acc]; 64 of them are enough for any
    64-bit number in any base. *)
Fixpoint digits (fuel : nat) (base n : Z) (acc : list Z) : list Z :=
  match fuel with
  | O => acc
  | S f => if n <? base then digit n :: acc else digits f base (n / base) (digit (n mod base) :: acc)
  end.

(** [%u] and [%lu], [%d], [%lx]. *)
Definition dec (n : Z) : list Z := digits 64 10 n [].
Definition sdec (n : Z) : list Z := if n <? 0 then 45 :: dec (- n) else dec n.
Definition hex (n : Z) : list Z := digits 64 16 n [].

(** [scnprintf(buf, size, ...)] keeps [size - 1] characters. *)
Definition scn (size : nat) (text : list Z) : list Z := take (size - 1) text.
End Fmt.

Definition BSIZE : nat := 1024.
Definition MCD_DOM_ID_NULL : Z := 65535.

(** A write of bytes at an offset of the guest's text buffer. *)
Definition write : Type := Z * list Z.

(** [if ( sum + n >= len ) return sum; copy n+1 bytes; return sum + n;] *)
Definition emit (off len : Z) (text : list Z) : list write * Z :=
  let info := Fmt.scn BSIZE text in
  let n := Z.of_nat (length info) in
  if len <=? n then ([], 0) else ([(off, info ++ [0])], n).

Section Display.
Context {B : Type} `{!Minf B} (env : Env).
Abbreviation G := (M (gstate B)).
Implicit Types (s : gstate B) (p : ptr) (e : mcd_hashT).

Definition replace_name (mode : Z) : list Z :=
if mode =? MCD_REPLACE_MODE_LFRU then Fmt.str "lfru"
else if mode =? MCD_REPLACE_MODE_FAST then Fmt.str "fast"
else if mode =? MCD_REPLACE_MODE_SCORE then Fmt.str "score"
else Fmt.str "<NULL>".

Definition partition_name (mode : Z) : list Z :=
if mode =? MCD_PARTITION_MODE_BE then Fmt.str "best-effort"
else if mode =? MCD_PARTITION_MODE_WB then Fmt.str "weight-based"
else if mode =? MCD_PARTITION_MODE_AD then Fmt.str "adaptive-dynamic"
else Fmt.str "<NULL>".

Definition connected_name (b : bool) : list Z := if b then Fmt.str "connected" else Fmt.str "not connected".

Definition header_text (s : gstate B) : list Z :=
Fmt.str "Memcached Statistics (" ++ replace_name (replacement_mode (cfg s)) ++ Fmt.str " | " ++
partition_name (partition_mode (cfg s)) ++ Fmt.str " | mcd " ++ connected_name (ctl_enabled s) ++ Fmt.str ") " ++ [10].

Definition mcdc_header (off len : Z) : G (list write * Z) :=
s ← get;
mret (emit off len (header_text s)).

Definition stat_text (free : Z) (s : gstate B) : list Z :=
Fmt.str "shared_p:" ++ Fmt.sdec (s32 (get_num_shared_page (be s))) ++
Fmt.str ",tot_bytes_used:" ++ Fmt.dec (TOT_USED_BYTES s) ++
Fmt.str "(" ++ Fmt.dec (pri_nr_bytes (mcd_data s)) ++ Fmt.str ":" ++ Fmt.dec (shr_nr_bytes (mcd_data s)) ++
Fmt.str "),tot_bytes_free(" ++ Fmt.dec (max_mem_bytes (cfg s) / 1000000) ++ Fmt.str "M):" ++ Fmt.dec free ++
Fmt.str ",nr_keys:" ++ Fmt.dec (TOT_USED_KEYS s) ++ [10].

Definition mcdc_stat_display (off len : Z) : G (list write * Z) :=
free ← get_free_mem_size env;
s ← get;
mret (emit off len (stat_text free s)).

Definition domain_text (d : mcd_domain) : list Z :=
  Fmt.str "dom:" ++ Fmt.sdec (md_domid d) ++ Fmt.str ",weight:" ++ Fmt.sdec (s32 (md_weight d)) ++
  Fmt.str ",ratio:" ++ Fmt.sdec (s32 (md_ratio d)) ++ Fmt.str ",bytes:" ++ Fmt.sdec (s64 (md_nr_used_bytes d)) ++
   Fmt.str ",missrate:" ++ Fmt.sdec (s32 (MISSRATE d)) ++ Fmt.str "(" ++ Fmt.dec (md_get_succ d) ++
   Fmt.str "/" ++ Fmt.dec (md_get_fail d) ++ Fmt.str ")" ++ [10].

Definition mcdc_domain_header (d : mcd_domain) (off len : Z) : list write * Z := emit off len (domain_text d).

Definition mcdc_shared_header (off len : Z) : list write * Z := emit off len (Fmt.str "shared:,").

Definition entry_text (now : Z) e : list Z :=
  Fmt.str "nr_pages:" ++ Fmt.dec (mh_nr_pages e) ++ Fmt.str ",ref:" ++ Fmt.dec (mh_ref e) ++
   Fmt.str ",passed_time:" ++ Fmt.hex (u64 (now - mh_put_time e)) ++ Fmt.str ",hash:" ++ Fmt.dec (mh_hash e) ++
   Fmt.str ",key_size:" ++ Fmt.dec (mh_key_size e) ++ Fmt.str ",val_size:" ++ Fmt.dec (mh_val_size e) ++
   Fmt.str ",key:" ++ take (Z.to_nat (mh_key_size e)) (mh_key_val e) ++ [10].

Definition mcdc_hashT_display p (off len : Z) : G (list write * Z) :=
now ← NOW env;
e ← load p;
mret (emit off len (entry_text now e)).

(** The text written so far and the offset behind it. *)
Definition put_line (len : Z) (f : Z -> Z -> G (list write * Z)) (x : list write * Z) : G (list write * Z) :=
r ← f (snd x) (u32 (len - snd x));
mret (fst x ++ fst r, snd x + snd r).

Definition entry_lines (len : Z) (ps : list ptr) (x : list write * Z) : G (list write * Z) :=
for_each ps (fun p x => x ← put_line len (mcdc_hashT_display p) x; mret (Continue x)) x.

Definition domain_lines (len : Z) (use_long : bool) (x : list write * Z) : G (list write * Z) :=
s ← get;
for_each (doms s) (fun d x =>
  x ← put_line len (fun off l => mret (mcdc_domain_header d off l)) x;
  x ← (if use_long then entry_lines len (md_hash_list d) x else mret x);
  mret (Continue x)) x.

(** [display_stats]: the text the guest gets. *)
Definition display_stats (dom_id len : Z) (use_long : bool) : G (list write) :=
x ← put_line len mcdc_header ([], 0);
x ← put_line len mcdc_stat_display x;
x ← (if dom_id =? MCD_DOM_ID_NULL then domain_lines len use_long x else mret x);
x ← (if use_long then
       x ← put_line len (fun off l => mret (mcdc_shared_header off l)) x;
       s ← get;
       entry_lines len (concat (shared s)) x
     else mret x);
mret (fst x).

(** [mcd_display]: [domid_t] has 16 bits, [bool_t] 8. *)
Definition mcd_display (domid option buf_len : Z) : G (list write) :=
display_stats (u16 domid) buf_len (negb (wrap 8 option =? 0)).

End Display.

(** * The lines stay inside the buffer *)

(** A line that lies in the first [len] bytes and ends with a zero. *)
Definition inside (len : Z) (w : write) : Prop :=
  0 <= fst w /\ fst w + Z.of_nat (length (snd w)) <= len /\ last (snd w) = Some 0.

(** The text so far fits, and so does the offset. *)
Definition fits (len : Z) (x : list write * Z) : Prop := Forall (inside len) (fst x) /\ 0 <= snd x <= len.

Lemma emit_fits off len text : 0 <= off -> 0 <= len ->
  Forall (inside (off + len)) (fst (emit off len text)) /\ 0 <= snd (emit off len text) <= len.
Proof.
  intros Ho Hl. unfold emit. generalize (Fmt.scn BSIZE text). intros info.
  destruct (Z.leb_spec len (Z.of_nat (length info))); cbn [fst snd]; [split; [constructor|lia]|].
  split; [|lia]. constructor; [|constructor]. split_and!; cbn [fst snd]; [done| |by rewrite last_snoc].
  rewrite length_app. cbn [length]. lia.
Qed.

Section DisplaySpec.
Context {B : Type} `{!Minf B, !MinfLaws B} (env : Env) (tol : fault -> Prop).
Implicit Types (s : gstate B) (p : ptr).

Definition shows (len : Z) s (x : list write * Z) s' : Prop := quiet s s' /\ fits len x.

(** A line: it looks at the state and emits. *)
Definition line s (f : Z -> Z -> M (gstate B) (list write * Z)) : Prop := forall off len,
wp tol (f off len) (fun r s' => quiet s s' /\ exists text, r = emit off len text) s.

Lemma put_line_spec len f x s0 s : 0 <= len < 2 ^ 32 -> shows len s0 x s -> line s f ->
wp tol (put_line len f x) (shows len s0) s.
Proof.
intros Hl [Hq [Hx1 Hx2]] Hf. unfold put_line. wp_steps. eapply wp_mono; [apply Hf|].
intros r s1 [Hq1 [text ->]]. wp_steps. split; [by eapply quiet_trans|].
rewrite wrap_id by (unfold urange; lia).
destruct (emit_fits (snd x) (len - snd x) text) as [H1 H2]; [lia..|].
split; cbn; [|lia]. apply Forall_app. split; [done|].
replace (snd x + (len - snd x)) with len in H1 by lia. done.
Qed.

Lemma pure_line s f : ctl_ok s -> (forall off len, exists text, f off len = emit off len text) ->
line s (fun off len => mret (f off len)).
Proof. intros Hc Hf off len. wp_steps. split; [by apply quiet_refl|done]. Qed.

Lemma header_line s : ctl_ok s -> line s mcdc_header.
Proof. intros Hc off len. unfold mcdc_header. wp_steps. split; [by apply quiet_refl|eauto]. Qed.

Lemma stat_line s : ctl_ok s -> line s (mcdc_stat_display env).
Proof.
intros Hc off len. unfold mcdc_stat_display. wp_steps.
eapply wp_mono; [by apply get_free_mem_size_spec|]. intros n s1 Hq. wp_steps. eauto.
Qed.

Lemma hashT_line s p : ctl_ok s -> is_Some (heap s !! p) -> line s (mcdc_hashT_display env p).
Proof.
intros Hc [e He] off len. unfold mcdc_hashT_display. wp_steps.
eapply wp_mono; [by apply NOW_spec|]. intros t s1 [-> Hq]. wp_steps.
eapply wp_load; [by rewrite (sim_heap _ _ (proj1 Hq))|]. wp_steps. eauto.
Qed.

Lemma entry_lines_spec len ps x s0 s : 0 <= len < 2 ^ 32 -> shows len s0 x s ->
(forall p, p ∈ ps -> is_Some (heap s0 !! p)) ->
wp tol (entry_lines env len ps x) (shows len s0) s.
Proof.
intros Hl Hs Hps. unfold entry_lines.
apply (wp_for_each _ _ (fun qs x s' => shows len s0 x s' /\ forall p, p ∈ qs -> p ∈ ps)).
- by split.
- by intros x' s' [? _].
- intros p qs x1 s1 [H1 H2]. wp_steps.
  eapply wp_mono; [apply (put_line_spec len _ x1 s0); [done..|]|].
  { apply hashT_line; [apply H1|]. rewrite (sim_heap _ _ (proj1 (proj1 H1))). apply Hps, H2. set_solver. }
  intros x2 s2 H3. wp_steps. split; [done|]. set_solver.
Qed.

Lemma domain_lines_spec len long x s0 s : 0 <= len < 2 ^ 32 -> Inv s0 -> shows len s0 x s ->
wp tol (domain_lines env len long x) (shows len s0) s.
Proof.
intros Hl [Hwf _] Hs. unfold domain_lines. wp_steps.
assert (Hwfs : wf s) by (eapply wf_sim; [apply Hs|done]).
apply (wp_for_each _ _ (fun ds x s' => shows len s0 x s' /\ forall d, d ∈ ds -> d ∈ doms s)).
- by split.
- by intros x' s' [? _].
- intros d ds x1 s1 [H1 H2]. wp_steps.
  eapply wp_mono; [apply (put_line_spec len _ x1 s0); [done..|]|].
  { apply pure_line; [apply H1|]. unfold mcdc_domain_header. eauto. }
  intros x2 s2 H3. wp_steps.
  eapply wp_mono with (Q := shows len s0).
  { destruct long; wp_steps; [|done]. apply entry_lines_spec; [done..|]. intros p Hp.
    rewrite <- (sim_heap s0 s) by apply Hs. apply (live_entry s p Hwfs).
    apply elem_of_app. right. eapply dom_list_in_pri; [|done]. apply H2. set_solver. }
  intros x3 s3 H4. wp_steps. split; [done|]. set_solver.
Qed.

Lemma display_stats_spec dom_id len long s : Inv s -> 0 <= len < 2 ^ 32 ->
wp tol (display_stats env dom_id len long) (fun ws s' => quiet s s' /\ Forall (inside len) ws) s.
Proof.
intros HI Hl. pose proof HI as [Hwf Hc]. unfold display_stats. wp_steps.
eapply wp_mono; [apply (put_line_spec len _ _ s); [done| |by apply header_line]|].
{ split; [by apply quiet_refl|]. split; cbn; [constructor|lia]. }
intros x1 s1 H1. wp_steps.
eapply wp_mono; [apply (put_line_spec len _ _ s); [done..|apply stat_line, H1]|].
intros x2 s2 H2. wp_steps.
eapply wp_mono with (Q := shows len s).
{ destruct (_ =? _); wp_steps; [by apply domain_lines_spec|done]. }
intros x3 s3 H3. wp_steps.
eapply wp_mono with (Q := shows len s).
{ destruct long; wp_steps; [|done].
  eapply wp_mono; [apply (put_line_spec len _ _ s); [done..|]|].
  { apply pure_line; [apply H3|]. unfold mcdc_shared_header. eauto. }
  intros x4 s4 H4. wp_steps. apply entry_lines_spec; [done..|]. intros p Hp.
  apply (live_entry s p Hwf). apply elem_of_app. left. unfold shr_ptrs.
  by rewrite <- (sim_shared s s4) by apply H4. }
intros x4 s4 [Hq [Hf _]]. wp_steps. done.
Qed.

End DisplaySpec.
