(* ===== verification/Admin.v ===== *)
(** The control operations of xen/common/mcd.c ([set_memsize], [set_weight],
    [set_cache_mode], [set_param]), the life cycle of client domains, the
    initialisation and the hypercall [do_mcd_op]. *)
From S2P Require Import Prelude CMonad Hash Types State Core Evict Ops Display.

(** The commands of [do_mcd_op]; [None] is a failing [copy_from_guest]. *)
Inductive mcd_cmd (C : Type) : Type :=
  | XENMCD_cache_get (op : option mcd_arg)
  | XENMCD_stat_get (op : option mcd_arg)
  | XENMCD_cache_put (op : option mcd_arg)
  | XENMCD_cache_remove (op : option mcd_arg)
  | XENMCD_cache_check (op : option mcd_arg)
  | XENMCD_cache_getsize (op : option mcd_arg)
  | XENMCD_cache_flush (op : option mcd_arg)
  | XENMCD_display_stats (disp : option (Z * Z * Z))
  | XENMCD_memsize (memsize : option Z)
  | XENMCD_weight (weight : option (Z * Z))
  | XENMCD_cache_mode (mode : option (Z * Z))
  | XENMCD_param (param : option (Z * Z * Z))
  | XENMCD_mcdctl_op (ctl : C)
  | XENMCD_hypercall_test
  | XENMCD_other.
Arguments XENMCD_cache_get {C} op.
Arguments XENMCD_stat_get {C} op.
Arguments XENMCD_cache_put {C} op.
Arguments XENMCD_cache_remove {C} op.
Arguments XENMCD_cache_check {C} op.
Arguments XENMCD_cache_getsize {C} op.
Arguments XENMCD_cache_flush {C} op.
Arguments XENMCD_display_stats {C} disp.
Arguments XENMCD_memsize {C} memsize.
Arguments XENMCD_weight {C} weight.
Arguments XENMCD_cache_mode {C} mode.
Arguments XENMCD_param {C} param.
Arguments XENMCD_mcdctl_op {C} ctl.
Arguments XENMCD_hypercall_test {C}.
Arguments XENMCD_other {C}.

Section Admin.
Context {B C : Type} `{!Minf B} (env : Env).
Abbreviation G := (M (gstate B)).
Implicit Types (s : gstate B) (p : ptr).

(** ** Flushing everything of a side *)

(** Domain 0 keeps its table; then every page of mini headers is freed. *)
Definition p_mcd_flush_all : G unit :=
  s ← get;
  for_each (domids s)
    (fun domid _ => (if domid =? 0 then mret tt else p_mcd_flush env (Some domid);; mret tt);; mret (Continue tt)) tt;;
  exit_mcdctl.

Definition s_mcd_flush_all : G unit := s_mcd_flush env;; mret tt.

Definition flush_old_side : G unit :=
  s ← get;
  if cache_mode (cfg s) =? MCD_CACHE_MODE_SHARED then p_mcd_flush_all else s_mcd_flush_all.

Definition mcd_dom_params_reset : G unit :=
  s ← get;
  for_each (domids s)
    (fun domid _ =>
       if domid =? 0 then mret (Continue tt)
       else
         now ← NOW env;
         dom_update (DomAt domid) (fun d =>
           d <| md_reset := now |> <| md_get_succ := 0 |> <| md_get_fail := 0 |> <| md_hitrate := 0 |>);;
         mret (Continue tt)) tt.

(** ** The control operations *)

Definition info (text : list Z) : list write := [(0, Fmt.scn BSIZE text)].

Definition set_max_mem (memsize : Z) : G unit :=
  modify (fun s => s <| cfg ::= fun c => c <| max_mem_bytes := u64 (u64 memsize * 1000000) |> |>).

(** [memsize] is a signed number of megabytes; the result of the eviction is
    not looked at. *)
Definition set_memsize (memsize : Z) : G (list write) :=
  set_max_mem memsize;;
  s ← get;
  let max := max_mem_bytes (cfg s) in
  (if negb (max =? 0) && (max <? TOT_USED_BYTES s) then
     rc ← cache_free env (u64 (TOT_USED_BYTES s - max)) 0; mret tt
   else mret tt);;
  dom_usage_update_all env;;
  mret (info (Fmt.str "Maximum memory size is set to " ++ Fmt.sdec memsize ++ Fmt.str " MB")).

Definition set_weight (domid weight : Z) : G (list write) :=
  dp ← find_mcd_dom domid;
  d ← dom_load dp;
  modify (fun s => s <| cfg ::= fun c =>
    c <| total_weight ::= fun tw => u32 (tw + u32 (weight - md_weight d)) |> |>);;
  dom_update dp (fun d => d <| md_weight := weight |>);;
  dom_weight_update;;
  mret (info (Fmt.str "Weight of dom " ++ Fmt.sdec domid ++ Fmt.str " is set to " ++ Fmt.sdec (s32 weight))).

Definition put_cache_mode (mode : Z) : G unit :=
  modify (fun s => s <| cfg ::= fun c => c <| cache_mode := mode |> |>).

(** Setting the cache mode; what the other side holds is flushed when the
    mode changes. *)
Definition switch_cache_mode (mode : Z) : G unit :=
  s ← get;
  put_cache_mode mode;;
  if negb (cache_mode (cfg s) =? mode) then flush_old_side else mret tt.

Definition set_cache_mode (which mode : Z) : G (list write) :=
  (if which =? 0 then
     switch_cache_mode (if MCD_CACHE_MODE_MAX <=? mode then MCD_CACHE_MODE_SHARED else mode);;
     mret (if mode =? MCD_CACHE_MODE_SHARED then Fmt.str "shared" else Fmt.str "private")
   else if which =? 1 then
     let m := if MCD_REPLACE_MODE_MAX <=? mode then MCD_REPLACE_MODE_LFRU else mode in
     modify (fun s => s <| cfg ::= fun c => c <| replacement_mode := m |> |>);;
     mret (replace_name m)
   else if which =? 2 then
     let m := if MCD_PARTITION_MODE_MAX <=? mode then MCD_PARTITION_MODE_BE else mode in
     modify (fun s => s <| cfg ::= fun c => c <| partition_mode := m |> |>);;
     switch_cache_mode (if m =? MCD_PARTITION_MODE_BE then MCD_CACHE_MODE_SHARED else MCD_CACHE_MODE_PARTITION);;
     mret (partition_name m)
   else mret (Fmt.str "error")) ≫= fun name =>
  mret (info (Fmt.str "Set to " ++ name ++ Fmt.str " mode")).

Definition params_text s : list Z :=
  Fmt.str "Params is set to (mem (" ++ Fmt.dec (alpha (sd_mem (sd s))) ++ Fmt.str ", " ++
  Fmt.dec (beta (sd_mem (sd s))) ++ Fmt.str "), ssd (" ++ Fmt.dec (alpha (sd_ssd (sd s))) ++ Fmt.str ", " ++
  Fmt.dec (beta (sd_ssd (sd s))) ++ Fmt.str "))".

Definition put_score (which mode param : Z) (x : g_score_data) : g_score_data :=
  let put g := if mode =? 0 then g <| alpha := param |> else if mode =? 1 then g <| beta := param |> else g in
  if which =? 0 then x <| sd_mem ::= put |> else x <| sd_ssd ::= put |>.

Definition set_param (which mode param : Z) : G (Z * list write) :=
  ret ← (if (which =? 0) || (which =? 1) then
           modify (fun s => s <| sd ::= put_score which mode param |>);; mret (- ERR_NO)
         else if which =? 2 then
           modify (fun s => s <| cfg ::= fun c => c <| reset_time := param |> |>);; mret (- ERR_NO)
         else if which =? 25 then
           if param =? 1 then
             mcd_dom_params_reset;;
             s ← get;
             (if cache_mode (cfg s) =? MCD_CACHE_MODE_SHARED then s_mcd_flush_all else p_mcd_flush_all);;
             mret (- ERR_NO)
           else if param =? 2 then
             modify (fun s => s <| cfg ::= fun c => c <| mcdctl_user_enabled ::= negb |> |>);;
             mret (- ERR_NO)
           else if param =? 3 then minf (minf_increase_shared_page 1)
           else mret (- ERR_NO)
         else mret (- ERR_NO));
  s ← get;
  mret (ret, info (params_text s)).

(** [mcd_stat_get]: the total and the free memory as text. *)
Definition mcd_stat_get (op : mcd_arg) : G Z :=
  tot ← get_tot_mem_size env;
  free ← get_free_mem_size env;
  let buf := Fmt.dec tot ++ Fmt.str "," ++ Fmt.dec free in
  let size := Z.of_nat (length buf) in
  if op_val_size op <? size then mret (- ERR_MCDFAULT)
  else copy_r_val_size size;; copy_val buf;; mret (- ERR_NO).

(** ** The hypercall *)

Definition is_private : G bool := gets (fun s => negb (cache_mode (cfg s) =? MCD_CACHE_MODE_SHARED)).

(** [mcd_sub_call]: the function for the cache mode. *)
Definition mcd_sub_call (p_fn s_fn : option Z -> mcd_arg -> G Z) (md : option Z) (op : option mcd_arg) : G Z :=
  match op with
  | None => mret (- ERR_XENFAULT)
  | Some op => private ← is_private; if private : bool then p_fn md op else s_fn md op
  end.

Definition mcd_get := mcd_sub_call (p_mcd_get env) (s_mcd_get env).
Definition mcd_put := mcd_sub_call (p_mcd_put env) (s_mcd_put env).
Definition mcd_remove := mcd_sub_call (p_mcd_remove env) (s_mcd_remove env).
Definition mcd_check := mcd_sub_call (p_mcd_check env) (s_mcd_check env).
Definition mcd_flush := mcd_sub_call (fun md _ => p_mcd_flush env md) (fun _ _ => s_mcd_flush env).

(** The commands that answer with a text for the buffer of the caller;
    [domid_t] has 16 bits, the fields of the arguments 32, and [memsize] is an
    [int]. *)
Definition text {A} (arg : option A) (k : A -> G (list write)) : G (Z * list write) :=
  match arg with
  | None => mret (- ERR_XENFAULT, [])
  | Some a => w ← k a; mret (- ERR_NO, w)
  end.

Definition mcd_memsize arg := text arg (fun memsize => set_memsize (s32 memsize)).
Definition mcd_weight arg := text arg (fun '(domid, weight) => set_weight (u16 domid) weight).
Definition mcd_cache_mode arg := text arg (fun '(which, mode) => set_cache_mode which mode).
Definition mcd_param (arg : option (Z * Z * Z)) : G (Z * list write) :=
  match arg with
  | None => mret (- ERR_XENFAULT, [])
  | Some (which, mode, param) => set_param which mode param
  end.

(** The first [switch] of [do_mcd_op]. *)
Definition dispatch (mcdctl_op : C -> G Z) (md : option Z) (cmd : mcd_cmd C) : G (Z * list write) :=
  let plain (m : G Z) : G (Z * list write) := rc ← m; mret (rc, []) in
  match cmd with
  | XENMCD_cache_get op => plain (mcd_get md op)
  | XENMCD_stat_get op =>
      plain (match op with Some op => mcd_stat_get op | None => mret (- ERR_XENFAULT) end)
  | XENMCD_cache_put op => plain (mcd_put md op)
  | XENMCD_cache_remove op => plain (mcd_remove md op)
  | XENMCD_cache_check op | XENMCD_cache_getsize op => plain (mcd_check md op)
  | XENMCD_cache_flush op => plain (mcd_flush md op)
  | XENMCD_display_stats disp => text disp (fun '(domid, option, len) => mcd_display env domid option len)
  | XENMCD_memsize memsize => mcd_memsize memsize
  | XENMCD_weight weight => mcd_weight weight
  | XENMCD_cache_mode mode => mcd_cache_mode mode
  | XENMCD_param param => mcd_param param
  | XENMCD_mcdctl_op c => plain (mcdctl_op c)
  | XENMCD_hypercall_test | XENMCD_other => mret (0, [])
  end.

Definition md_ptr (md : option Z) : G dom_ptr :=
  match md with
  | Some domid => mret (DomAt domid)
  | None => raise NullDeref
  end.

(** [HIT], [MISS] and [SET_HITRATE]. *)
Definition count_access (md : option Z) (hit : bool) : G unit :=
  dp ← md_ptr md;
  dom_update dp (fun d =>
    if hit then d <| md_get_succ ::= fun n => u32 (n + 1) |> else d <| md_get_fail ::= fun n => u32 (n + 1) |>);;
  d ← dom_load dp;
  rate ← div_or_trap (u32 (md_get_succ d * 100)) (u32 (md_get_succ d + md_get_fail d));
  dom_update dp (fun d => d <| md_hitrate := rate |>).

(** The second [switch] of [do_mcd_op]. *)
Definition other_works (md : option Z) (cmd : mcd_cmd C) (rc : Z) : G unit :=
  match cmd with
  | XENMCD_cache_put _ | XENMCD_cache_remove _ | XENMCD_cache_flush _
  | XENMCD_memsize _ | XENMCD_weight _ => dom_usage_update_all env
  | XENMCD_cache_check _ | XENMCD_cache_get _ =>
      count_access md ((rc =? RET_GET_MEM) || (rc =? RET_GET_SSD))
  | _ => mret tt
  end.

(** [mcd_dom_is_dying] goes through the client domain to its owner. *)
Definition mcd_dom_is_dying (domid : Z) : G bool :=
  d ← dom_load (DomAt domid);
  s ← get;
  match xdoms s !! md_domid d with
  | Some x => mret (xd_is_dying x)
  | None => raise NullDeref
  end.

(** [do_mcd_op], called by domain [caller]. *)
Definition do_mcd_op (mcdctl_op : C -> G Z) (caller : Z) (cmd : mcd_cmd C) : G (Z * list write) :=
  s ← get;
  let md := xdoms s !! caller ≫= xd_mcd in
  if negb (mcd_enabled_flag (cfg s)) then mret (- ERR_NOMCD, [])
  else
    dying ← (match md with
             | Some domid => mcd_dom_is_dying domid
             | None => mret false
             end);
    if dying : bool then mret (- ERR_XENFAULT, [])
    else
      r ← dispatch mcdctl_op md cmd;
      other_works md cmd (fst r);;
      mret r.

(** ** Client domains *)

Definition attach_mcd (domid : Z) : G Z :=
  s ← get;
  match xdoms s !! domid with
  | None => mret (- ERR_XENFAULT)
  | Some x =>
      (if xd_is_dying x then mret tt
       else modify (fun s => s <| xdoms ::= <[domid := x <| xd_mcd := Some domid |>]> |>));;
      mret (- ERR_NO)
  end.

Definition mcd_domain_free (md : option Z) : G unit :=
  match md with
  | None => mret tt
  | Some domid =>
      p_mcd_flush env md;;
      modify (fun s => s <| doms ::= filter (fun d => md_domid d <> domid) |>
                         <| ctl ::= fun c => c <| mc_doms ::= delete domid |> |>)
  end.

Definition new_domain (domid reset : Z) : mcd_domain :=
  {| md_domid := domid; md_nr_avail := 0; md_nr_keys := 0; md_nr_used_pages := 0; md_nr_used_bytes := 0;
     md_weight := if 0 <? domid then DOM_WEIGHT_DEFAULT else 0;
     md_ratio := 0; md_curr := 0; md_reset := reset; md_get_succ := 1; md_get_fail := 1; md_hitrate := 0;
     md_rec_cost_avg := 0; md_hash_list := [] |}.

(** Both results of [attach_mcd] count as success: the branch of the failing
    one is never taken. *)
Definition mcd_domain_create (domid : Z) : G Z :=
  mcd_dom ← mcd_malloc env (sizeof_mcd_domain env) domid;
  match mcd_dom with
  | None => mcd_domain_free None;; mret (- ERR_XENFAULT)
  | Some _ =>
      rc ← attach_mcd domid;
      if rc =? 0 then mcd_domain_free (Some domid);; mret (- ERR_XENFAULT)
      else
        (if 0 <? domid then
           modify (fun s => s <| cfg ::= fun c => c <| total_weight ::= fun w => u32 (w + DOM_WEIGHT_DEFAULT) |> |>)
         else mret tt);;
        now ← NOW env;
        modify (fun s => s <| doms ::= fun ds => ds ++ [new_domain domid now] |>
                           <| ctl ::= fun c => c <| mc_doms ::= <[domid := []]> |> |>);;
        (if 0 <? domid then dom_weight_update else mret tt);;
        minf (minf_page_dom_create domid);;
        mret (- ERR_NO)
  end.

Definition mcd_destroy (dom : option Z) : G unit :=
  s ← get;
  match dom ≫= fun k => (fun x => (k, x)) <$> xdoms s !! k with
  | None => mret tt
  | Some (k, x) =>
      if negb (xd_is_dying x) then mret tt
      else
        minf (minf_page_dom_destroy k);;
        dp ← md_ptr (xd_mcd x);
        d ← dom_load dp;
        modify (fun s => s <| cfg ::= fun c => c <| total_weight ::= fun w => u32 (w - md_weight d) |> |>);;
        mcd_domain_free (Some (md_domid d));;
        dom_weight_update
  end.

(** [mcd_mem_upt_trap]: the memory the domain may still claim. *)
Definition mcd_mem_upt_trap (dom : option Z) : G unit :=
  s ← get;
  match dom ≫= fun k => xdoms s !! k with
  | None => mret tt
  | Some x =>
      dp ← md_ptr (xd_mcd x);
      let avail := if xd_max_pages x =? 2 ^ 32 - 1 then 0 else u32 (xd_max_pages x - xd_tot_pages x) in
      dom_update dp (fun d =>
        d <| md_nr_avail := if (avail <? 0) || (xd_max_pages x <? avail) then 0 else avail |>)
  end.

(** The other two hooks of the memory management do nothing. *)
Definition mcd_mem_inc_trap (dom nr_pages : Z) : G unit := mret tt.
Definition mcd_mem_dec_trap (dom nr_pages : Z) : G unit := mret tt.

(** ** Initialisation *)

Definition score_init (a b : Z) : g_score_param := mk_score_param a b 1 1.

(** [mcd_start] on the static variables. *)
Definition mcd_start : G Z :=
  modify (fun s =>
    s <| mcd_data := mk_mcd_data 0 0 0 0 0 0 |>
      <| sd := mk_score_data (score_init SCORE_MEM_ALPHA_DEF SCORE_MEM_BETA_DEF)
                             (score_init SCORE_SSD_ALPHA_DEF SCORE_SSD_BETA_DEF) |>
      <| cfg ::= fun c => c <| max_mem_bytes := 0 |> |>
      <| doms := [] |>
      <| shared := replicate (Z.to_nat MAX_LIST_HEAD) [] |>);;
  mcdctl_start;;
  mret (- ERR_NO).

(** [init_mcd], with the boot parameter [use_mcd]. *)
Definition init_mcd (use_mcd : bool) : G Z :=
  if negb use_mcd then mret (- ERR_NOMCD)
  else
    rc ← mcd_start;
    (if negb (rc =? 0) then modify (fun s => s <| cfg ::= fun c => c <| mcd_enabled_flag := true |> |>)
     else mret tt);;
    mret (- ERR_NO).

End Admin.

(** The values of the static variables when the hypervisor starts. *)
Definition static_cfg : config :=
  {| cache_mode := MCD_CACHE_MODE_SHARED; replacement_mode := MCD_REPLACE_MODE_LFRU;
     partition_mode := MCD_PARTITION_MODE_BE; max_mem_bytes := 0; total_weight := 0;
     current_free_memory_bytes := 0; reset_time := 60; mcdctl_user_enabled := true;
     mcd_enabled_flag := false |}.

Definition static_stats : stats :=
  {| max_get_put_time := 0; min_get_put_time := 2 ^ 64 - 1; max_val_length := 0; min_val_length := 2 ^ 64 - 1;
     max_key_length := 0; min_key_length := 2 ^ 64 - 1; hit_total := 1; hit_success := 0;
     num_get_request := 0; num_put_request := 0; query_time := ∅; reaccess_time_ms := ∅;
     reaccess_time := ∅; ftm := [] |}.

Definition static_state {B} (xd : gmap Z xen_domain) (b : B) : gstate B :=
  {| mcd_data := mk_mcd_data 0 0 0 0 0 0;
     sd := mk_score_data (mk_score_param 0 0 0 0) (mk_score_param 0 0 0 0);
     cfg := static_cfg; st := static_stats; heap := ∅; shared := []; doms := [];
     ctl := {| mc_heap := ∅; mc_shared := []; mc_doms := ∅; mc_freelist := []; mc_pages := [] |};
     xdoms := xd; be := b; tick := 0; next_ptr := 1; out_rvs := None; out_val := None |}.
