(* ===== verification/AdminSpec.v ===== *)
(** The control operations and the life cycle of client domains keep the
    invariant: [tuned] is what changing the configuration may do. *)
From S2P Require Import Prelude CMonad Hash Types State Core Evict Inv Remove Evicted EvictShared EvictPart Alloc Create Ops View OpsLib OpsMake OpsSpec Flush Display Admin.

Section Tuned.
Context {B : Type} `{!Minf B, !MinfLaws B}.
Implicit Types (s : gstate B) (p q : ptr) (e : mcd_hashT) (d : mcd_domain) (k : option Z) (h : Z) (v : list Z).

(** ** Changing the configuration *)

Record dom_tuned d d' : Prop := {
  dt_domid : md_domid d' = md_domid d;
  dt_list : md_hash_list d' = md_hash_list d;
  dt_bytes : md_nr_used_bytes d' = md_nr_used_bytes d;
  dt_pages : md_nr_used_pages d' = md_nr_used_pages d;
  dt_ratio : 0 <= md_ratio d < 2 ^ 32 - 1 -> 0 <= md_ratio d' < 2 ^ 32 - 1;
}.

Record tuned s s' : Prop := {
  tn_data : mcd_data s' = mcd_data s;
  tn_heap : heap s' = heap s;
  tn_shared : shared s' = shared s;
  tn_doms : Forall2 dom_tuned (doms s) (doms s');
  tn_next : next_ptr s' = next_ptr s;
  tn_ctl : ctl s' = ctl s;
  tn_be : be s' = be s;
  tn_xdoms : xdoms s' = xdoms s;
  tn_cache : cache_mode (cfg s') = cache_mode (cfg s);
  tn_enabled : mcd_enabled_flag (cfg s') = mcd_enabled_flag (cfg s);
  tn_cfg : cfg_ok s -> 0 <= replacement_mode (cfg s') < MCD_REPLACE_MODE_MAX /\
                       0 <= partition_mode (cfg s') < MCD_PARTITION_MODE_MAX;
  tn_query : query_max (sd_mem (sd s')) = query_max (sd_mem (sd s));
  tn_val : val_max (sd_mem (sd s')) = val_max (sd_mem (sd s));
}.

#[export] Instance dom_tuned_refl : Reflexive dom_tuned.
Proof. intros d. by split. Qed.

Lemma tuned_domids s s' : tuned s s' -> domids s' = domids s.
Proof.
  intros H. induction (tn_doms _ _ H) as [|d d' ds ds' Hd _ IH]; cbn; [done|].
  f_equal; [apply Hd|done].
Qed.

Lemma tuned_pri_ptrs s s' : tuned s s' -> pri_ptrs s' = pri_ptrs s.
Proof.
  intros H. unfold pri_ptrs. induction (tn_doms _ _ H) as [|d d' ds ds' Hd _ IH]; cbn; [done|].
  f_equal; [apply Hd|done].
Qed.

Lemma tuned_dom s s' d' : tuned s s' -> d' ∈ doms s' -> exists d, d ∈ doms s /\ dom_tuned d d'.
Proof.
  intros H Hd. apply list_elem_of_lookup in Hd as [i Hi].
  eapply Forall2_lookup_r in Hi as (d & Hi & Hs); [|apply H].
  exists d. split; [|done]. by eapply list_elem_of_lookup_2.
Qed.

Lemma tuned_Inv s s' : tuned s s' -> Inv s -> Inv s'.
Proof.
  intros Hs [[Hl Hi Ha Hc] Hctl]. assert (Hdi : md_domid <$> doms s' = md_domid <$> doms s) by apply (tuned_domids _ _ Hs).
  pose proof (tuned_pri_ptrs _ _ Hs) as Hpp. pose proof (tn_next _ _ Hs) as Hnx.
  assert (Hsp : shr_ptrs s' = shr_ptrs s) by (unfold shr_ptrs; by rewrite (tn_shared _ _ Hs)).
  assert (Hap : all_ptrs [] [] s' = all_ptrs [] [] s) by (unfold all_ptrs; by rewrite Hpp, Hsp).
  split; [split|].
  - destruct Hl. split; rewrite ?Hdi, ?Hap, ?(tn_heap _ _ Hs), ?(tn_shared _ _ Hs), ?Hnx; done.
  - destruct Hi. split; rewrite ?Hsp, ?(tn_heap _ _ Hs), ?(tn_shared _ _ Hs); try done.
    + intros d' p e (d & Hd & [-> -> _ _ _])%(tuned_dom _ _ _ Hs). by apply ix_priv.
    + intros d' p q e e' (d & Hd & [_ -> _ _ _])%(tuned_dom _ _ _ Hs). by apply ix_pri_uniq.
  - destruct Ha. split; rewrite ?Hsp, ?Hpp, ?Hap, ?(tn_heap _ _ Hs), ?(tn_data _ _ Hs); try done.
    intros d' (d & Hd & [-> _ -> -> _])%(tuned_dom _ _ _ Hs). by apply ac_dom.
  - destruct (tn_cfg _ _ Hs Hc) as [H1 H2]. destruct Hc.
    split; rewrite ?(tn_cache _ _ Hs), ?(tn_query _ _ Hs), ?(tn_val _ _ Hs); try done.
    intros d' (d & Hd & Ht)%(tuned_dom _ _ _ Hs). apply Ht. auto.
  - apply (ctl_gen_env [] s); [apply Hs|apply Hs|by rewrite Hnx|done|apply Hs|done].
Qed.

Lemma tuned_view s s' : tuned s s' -> abs s' = abs s /\ num s' = num s.
Proof.
  intros H. pose proof (tuned_pri_ptrs _ _ H) as Hpp.
  assert (Hsp : shr_ptrs s' = shr_ptrs s) by (unfold shr_ptrs; by rewrite (tn_shared _ _ H)).
  split.
  - unfold abs, rows, row. rewrite Hsp, (tn_heap _ _ H). do 3 f_equal.
    induction (tn_doms _ _ H) as [|d d' ds ds' Hd _ IH]; cbn; [done|]. by rewrite IH, (dt_domid _ _ Hd), (dt_list _ _ Hd).
  - unfold num. by rewrite !live_split, Hpp, Hsp.
Qed.

(** A step that rewrites the configuration record and the score parameters. *)
Lemma tuned_cfg s s' : mcd_data s' = mcd_data s -> heap s' = heap s -> shared s' = shared s ->
  doms s' = doms s -> next_ptr s' = next_ptr s -> ctl s' = ctl s -> be s' = be s -> xdoms s' = xdoms s ->
  cache_mode (cfg s') = cache_mode (cfg s) -> mcd_enabled_flag (cfg s') = mcd_enabled_flag (cfg s) ->
  (cfg_ok s -> 0 <= replacement_mode (cfg s') < MCD_REPLACE_MODE_MAX /\
               0 <= partition_mode (cfg s') < MCD_PARTITION_MODE_MAX) ->
  query_max (sd_mem (sd s')) = query_max (sd_mem (sd s)) ->
  val_max (sd_mem (sd s')) = val_max (sd_mem (sd s)) -> tuned s s'.
Proof. intros ??? Hd *. split; try done. rewrite Hd. apply Forall2_refl, _. Qed.

End Tuned.

(** The new share of a domain is even modulo 2^32 over a divisor: it is never
    the largest 32-bit number. *)
Lemma ratio_range w tw : 0 < tw -> 0 <= u32 (w * 100) / tw < 2 ^ 32 - 1.
Proof.
  intros Htw. assert (Hr : 0 <= u32 (w * 100) <= 2 ^ 32 - 2).
  { unfold u32, wrap. pose proof (Z.mod_pos_bound (w * 100) (2 ^ 32) ltac:(lia)).
    enough ((w * 100) mod 2 ^ 32 <> 2 ^ 32 - 1) by lia. intros Heq.
    pose proof (Z.div_mod (w * 100) (2 ^ 32) ltac:(lia)). lia. }
  split; [apply Z.div_pos; lia|]. apply Z.le_lt_trans with (u32 (w * 100)); [|lia].
  apply Z.div_le_upper_bound; nia.
Qed.

Section Flushes.
Context {B : Type} `{!Minf B, !MinfLaws B} (env : Env) (tol : fault -> Prop).
Implicit Types (s : gstate B) (p q : ptr) (e : mcd_hashT) (d : mcd_domain) (k : option Z) (h : Z) (v : list Z).

(** ** Flushing every domain but domain 0 *)

(** What is left when the domains of [rest] are still to be visited. *)
Record emptying (rest : list Z) s s' : Prop := {
  em_wf : wf s';
  em_base : ctl_base [] s';
  em_frame : frame s s';
  em_num : (num s' <= num s)%nat;
  em_shared : concat (mc_shared (ctl s')) = [];
  em_hdrs : forall domid : Z, default [] (mc_doms (ctl s') !! domid) `sublist_of` default [] (mc_doms (ctl s) !! domid);
  em_done : forall domid : Z, domid ∈ domids s -> domid ∉ rest -> domid <> 0 -> default [] (mc_doms (ctl s') !! domid) = [];
  em_view : forall k h v, val_at s' k h v <->
    val_at s k h v /\ (k = None \/ k = Some 0 \/ exists domid, k = Some domid /\ domid ∈ rest);
}.

Lemma val_at_domain s (domid h : Z) v : val_at s (Some domid) h v -> domid ∈ domids s.
Proof.
  intros (p & e & Hp & _). cbn in Hp. unfold dlist in Hp.
  destruct (dom_of (doms s) domid) as [d|] eqn:Hd; [|cbn in Hp; set_solver].
  apply dom_of_Some in Hd as [Hd <-]. set_solver.
Qed.

Lemma emptying_start s : wf s -> ctl_base [] s -> concat (mc_shared (ctl s)) = [] ->
  emptying (domids s) s s.
Proof.
  intros Hwf Hb Hc. split; try done. intros k h v. split; [|by intros []].
  intros Hv. split; [done|]. destruct k as [domid|]; [|by left]. right; right.
  exists domid. split; [done|by eapply val_at_domain].
Qed.

Lemma emptying_skip rest s s' : emptying (0 :: rest) s s' -> emptying rest s s'.
Proof.
  intros []. split; try done.
  - intros domid Hin Hr Hne. apply em_done0; [done| |done]. set_solver.
  - intros k h v. rewrite em_view0. split; intros [Hv H]; (split; [done|]); [|set_solver].
    destruct H as [?|[?|(domid & -> & [->|Hin]%elem_of_cons)]]; eauto.
Qed.

Lemma emptying_visit domid rest s s1 : emptying (domid :: rest) s s1 -> domid ∈ domids s -> domid <> 0 ->
  (domid ∉ rest) ->
  wp tol (p_mcd_flush env (Some domid)) (fun _ s' => emptying rest s s') s1.
Proof.
  intros [H1 H2 H3 H4 H5 H6 H7 H8] Hin Hne Hnd.
  assert (Hin1 : domid ∈ domids s1) by (by rewrite (fr_domids _ _ H3)).
  eapply wp_mono; [by apply (p_mcd_flush_spec env tol domid)|].
  intros rc s2 (-> & [F1 F2 F3 F4 F5 _ _] & s1' & Hsm & Hms & Hd). split; try done.
  - apply Hms.
  - by etransitivity.
  - lia.
  - pose proof (concat_sublist _ _ (ms_shared _ _ Hms)) as Hsub. rewrite (sm_ctl _ _ Hsm), H5 in Hsub.
    by apply sublist_nil_r in Hsub.
  - intros k. etransitivity; [apply (ms_doms _ _ Hms)|]. rewrite (sm_ctl _ _ Hsm). apply H6.
  - intros k Hk Hr Hk0. destruct (decide (k = domid)) as [->|]; [done|].
    pose proof (ms_doms _ _ Hms k) as Hsub. rewrite (sm_ctl _ _ Hsm) in Hsub.
    rewrite H7 in Hsub by set_solver. by apply sublist_nil_r in Hsub.
  - intros k h v. rewrite F5, H8. split.
    + intros [[Hv [?|[?|(j & -> & [->|Hj]%elem_of_cons)]]] Hk]; (split; [done|]); [eauto..|done|eauto].
    + intros [Hv Hk]. split; [split; [done|]|].
      * destruct Hk as [?|[?|(j & -> & Hj)]]; [eauto..|right; right; exists j; set_solver].
      * intros ->. destruct Hk as [?|[?|(j & ? & Hj)]]; naive_solver.
Qed.

(** What survives: the shared rows and those of domain 0. *)
Definition spared k : Prop := k = None \/ k = Some 0.
#[export] Instance spared_dec k : Decision (spared k).
Proof. unfold spared. apply _. Defined.

Record all_flushed s s' : Prop := {
  af_wf : wf s';
  af_empty : ctl_empty s';
  af_frame : frame s s';
  af_num : (num s' <= num s)%nat;
  af_view : forall k h v, val_at s' k h v <-> val_at s k h v /\ spared k;
}.

(** Mini headers only for known domains, none for domain 0. *)
Definition dom0_clean s : Prop := default [] (mc_doms (ctl s) !! 0) = [].
Definition known_hdrs s : Prop :=
  forall domid : Z, default [] (mc_doms (ctl s) !! domid) <> [] -> domid ∈ domids s.

Lemma ctl_known_hdrs s : ctl_ok s -> known_hdrs s.
Proof.
  intros Hc domid Hne. destruct (default [] (mc_doms (ctl s) !! domid)) as [|q qs] eqn:Hq; [done|].
  assert (Hin : q ∈ default [] (mc_doms (ctl s) !! domid)) by (rewrite Hq; set_solver).
  assert (Hp : q ∈ mc_ptrs (ctl s)).
  { unfold mc_ptrs. apply elem_of_app. right. by eapply in_map_concat. }
  destruct (ct_live _ _ (ct_base _ _ Hc) q) as [c Hqc]; [apply elem_of_app; by left|].
  rewrite <- (ct_own _ _ Hc _ _ _ Hin Hqc). by apply (ct_hdr _ _ Hc q).
Qed.

Lemma exit_flushed s s1 : known_hdrs s -> dom0_clean s -> emptying [] s s1 ->
  wp tol exit_mcdctl (fun _ s' => all_flushed s s') s1.
Proof.
  intros Hk H0 [H1 [L N V F M] H3 H4 H5 H6 H7 H8]. unfold exit_mcdctl. wp_steps. set (s2 := s1 <| ctl ::= _ |>).
  assert (Hnil : map_concat (mc_doms (ctl s1)) = []).
  { apply elem_of_nil_inv. unfold map_concat. intros q (l & Hl & Hq)%elem_of_concat.
    apply list_elem_of_fmap in Hl as ([k l'] & -> & Hkl%elem_of_map_to_list). cbn in Hq.
    assert (Hd : default [] (mc_doms (ctl s1) !! k) = l') by by rewrite Hkl.
    destruct (decide (k = 0)) as [->|Hne].
    { pose proof (H6 0) as Hsub. rewrite H0 in Hsub. apply sublist_nil_r in Hsub.
      rewrite Hsub in Hd. rewrite <- Hd in Hq. by apply elem_of_nil in Hq. }
    pose proof (H6 k) as Hsub. rewrite Hd in Hsub.
    assert (k ∈ domids s).
    { apply Hk. intros Hn. rewrite Hn in Hsub. apply sublist_nil_r in Hsub. rewrite Hsub in Hq. by apply elem_of_nil in Hq. }
    rewrite H7 in Hd; [|done|apply not_elem_of_nil|done]. rewrite <- Hd in Hq. by apply elem_of_nil in Hq. }
  assert (Hp : mc_ptrs (ctl s2) = []) by (unfold mc_ptrs; cbn; by rewrite Hnil, H5).
  assert (Hs : soft s1 s2) by by apply soft_same.
  split.
  - by eapply wf_soft.
  - split; [|done]. split; rewrite ?Hp; [exact L|constructor| | |exact M].
    + intros q Hq. by apply elem_of_nil in Hq.
    + cbn. intros q [c Hq]. by rewrite lookup_empty in Hq.
  - etransitivity; [done|by apply soft_frame].
  - by rewrite (soft_num _ _ Hs).
  - intros k h v. rewrite (val_at_soft _ _ _ _ _ Hs), H8. unfold spared. split; intros [Hv Hx]; (split; [done|]);
      [|tauto]. destruct Hx as [?|[?|(j & _ & Hj)]]; [by left|by right|by apply elem_of_nil in Hj].
Qed.

Lemma p_mcd_flush_all_spec s : wf s -> ctl_base [] s -> known_hdrs s -> dom0_clean s ->
  concat (mc_shared (ctl s)) = [] ->
  wp tol (p_mcd_flush_all env) (fun _ s' => all_flushed s s') s.
Proof.
  intros Hwf Hb Hk H0 Hc. unfold p_mcd_flush_all. wp_steps.
  eapply wp_mono with (Q := fun _ s' => emptying [] s s'); [|intros u s1 He; by apply exit_flushed].
  apply (wp_for_each _ _ (fun rest _ s' => emptying rest s s' /\ NoDup rest /\ forall j, j ∈ rest -> j ∈ domids s)).
  - split_and!; [by apply emptying_start|apply (wf_lists _ _ _ Hwf)|done].
  - by intros u s' [].
  - intros domid rest u s1 (He & [Hnd Hnd']%NoDup_cons & Hin). wp_steps.
    destruct (Z.eqb_spec domid 0) as [->|Hne]; wp_steps.
    { split_and!; [by apply emptying_skip|done|set_solver]. }
    eapply wp_mono; [apply (emptying_visit domid rest s); [done|set_solver|done|done]|].
    intros rc s2 He2. wp_steps. split_and!; [done|done|set_solver].
Qed.

Lemma all_flushed_abs s s' : wf s -> all_flushed s s' ->
  abs s' = filter (fun x => spared x.1.1) (abs s).
Proof.
  intros Hwf Hf. apply map_eq. intros [k h]. apply option_eq. intros v.
  rewrite map_lookup_filter_Some, !abs_lookup by (done || apply Hf). cbn. apply Hf.
Qed.

Lemma all_flushed_Inv s s' : all_flushed s s' -> Inv s'.
Proof. intros Hf. split; [apply Hf|]. apply ctl_empty_ok, Hf. Qed.

End Flushes.

Section Control.
Context {B : Type} `{!Minf B, !MinfLaws B} (env : Env) (tol : fault -> Prop).
Context (Hmini : forall b : B, mcdctl_enabled b = true -> tol NullDeref).
Context (Hnow : forall n, env_now env n <> 0).
Implicit Types (s : gstate B) (p q : ptr) (e : mcd_hashT) (d : mcd_domain) (k : option Z) (h : Z) (v : list Z).

(** ** The control operations *)

(** What every control operation keeps. *)
Record managed s s' : Prop := {
  ma_inv : Inv s';
  ma_domids : domids s' = domids s;
  ma_xdoms : xdoms s' = xdoms s;
  ma_num : (num s' <= num s)%nat;
  ma_enabled : mcd_enabled_flag (cfg s') = mcd_enabled_flag (cfg s);
}.

Lemma managed_refl s : Inv s -> managed s s.
Proof. intros H. by split. Qed.

Lemma managed_trans s1 s2 s3 : managed s1 s2 -> managed s2 s3 -> managed s1 s3.
Proof. intros [] []. split; try congruence. lia. Qed.

Lemma frame_managed s s' : Inv s' -> frame s s' -> (num s' <= num s)%nat -> managed s s'.
Proof. intros HI [Hc Hd Hx] Hn. split; try done. by rewrite Hc. Qed.

Lemma tuned_managed s s' : Inv s -> tuned s s' -> managed s s'.
Proof.
  intros HI H. split; [by apply (tuned_Inv s)|by apply tuned_domids|apply H|..].
  - by destruct (tuned_view _ _ H) as [_ ->].
  - apply H.
Qed.

Lemma evicted_managed s s' : Inv s' -> evicted s s' -> managed s s'.
Proof.
  intros HI H. split; [done|by apply evicted_domids|apply H|by apply evicted_num|].
  by rewrite (evi_cfg _ _ H).
Qed.

Lemma quiet_managed s s' : Inv s -> quiet s s' -> managed s s'.
Proof. intros HI H. apply evicted_managed; [by eapply quiet_Inv|apply sim_evicted, H]. Qed.

Lemma softly_managed s s' : Inv s -> softly s s' -> managed s s'.
Proof.
  intros HI [Hs Hc]. split; [split; [by eapply wf_soft; [|apply HI]|done]|by apply soft_domids|apply Hs|..].
  - by rewrite (soft_num _ _ Hs).
  - by rewrite (so_cfg _ _ Hs).
Qed.

Definition modes s : Z * Z * Z := (cache_mode (cfg s), replacement_mode (cfg s), partition_mode (cfg s)).

Lemma modes_ok s s' : modes s' = modes s -> mode_ok s -> mode_ok s'.
Proof. unfold modes, mode_ok. intros [= -> -> ->]. done. Qed.

Lemma frame_same_modes s s' : frame s s' -> modes s' = modes s.
Proof. intros H. unfold modes. by rewrite (fr_cfg _ _ H). Qed.

(** *** Memory size *)

Lemma set_max_mem_tuned m s : tuned s (s <| cfg ::= fun c => c <| max_mem_bytes := m |> |>).
Proof. apply tuned_cfg; try done. intros Hc. split; [apply (co_replace _ Hc)|apply (co_partition _ Hc)]. Qed.

Definition mem_limit (memsize : Z) : Z := u64 (u64 memsize * 1000000).

Record memsized (memsize : Z) s s' : Prop := {
  mz_managed : managed s s';
  mz_max : max_mem_bytes (cfg s') = mem_limit memsize;
  mz_modes : modes s' = modes s;
  mz_abs : abs s' ⊆ abs s;
  mz_fits : is_shared s = true -> mem_limit memsize <> 0 -> bytes s < 2 ^ 64 ->
    bytes s' <= mem_limit memsize \/ shr_ptrs s' = [];
}.

Lemma shrink_spec s : Inv s -> mode_ok s -> (num s < env_fuel env)%nat -> covers 0 s ->
  let max := max_mem_bytes (cfg s) in 0 <= max ->
  wp tol (if negb (max =? 0) && (max <? TOT_USED_BYTES s) then
            cache_free env (u64 (TOT_USED_BYTES s - max)) 0;; mret tt
          else mret tt)
    (fun _ s' => Inv s' /\ evicted s s' /\ (is_shared s = true -> max <> 0 -> bytes s < 2 ^ 64 ->
       bytes s' <= max \/ shr_ptrs s' = [])) s.
Proof using Hmini Hnow.
  intros HI Hmo Hf Hcov max Hmax. pose proof (tot_used_bytes s (proj1 HI)) as Htot.
  pose proof (bytes_nonneg s (proj1 HI)) as Hb0.
  destruct (Z.eqb_spec max 0) as [H0|H0]; cbn; wp_steps; [by split_and!|].
  destruct (Z.ltb_spec max (TOT_USED_BYTES s)) as [Hlt|Hge]; wp_steps.
  2:{ split_and!; [done..|]. intros _ _ Hb. left. rewrite Htot, wrap_id in Hge; unfold urange; lia. }
  destruct (is_shared s) eqn:Hsh.
  - unfold cache_free. wp_steps. unfold is_shared in Hsh. rewrite Hsh.
    eapply wp_mono; [by apply (shared_cache_free_spec env tol Hmini Hnow)|].
    intros rc s' (HI' & Hev & _ & Hres). wp_steps. split_and!; [done..|]. intros _ _ Hb.
    destruct Hres as [[_ Ham]|(_ & _ & ?)]; [left|by right].
    pose proof (evicted_bytes _ _ (proj1 HI) (proj1 HI') Hev).
    assert (Hid : u64 (bytes s) = bytes s) by (apply wrap_id; unfold urange; lia).
    rewrite Htot, Hid in Ham, Hlt.
    rewrite (wrap_id 64 (bytes s - max)), (wrap_id 64 (bytes s - bytes s')) in Ham; unfold urange; lia.
  - eapply wp_mono; [by apply (cache_free_spec env tol Hmini Hnow)|].
    intros rc s' (H1 & H2 & _). wp_steps. by split_and!.
Qed.

Lemma mem_limit_range memsize : urange 64 (mem_limit memsize).
Proof. apply wrap_range. lia. Qed.

Lemma set_memsize_spec memsize s : Inv s -> mode_ok s -> (num s < env_fuel env)%nat -> covers 0 s ->
  wp tol (set_memsize env memsize) (fun _ s' => memsized memsize s s') s.
Proof using Hmini Hnow.
  intros HI Hmo Hf Hcov. unfold set_memsize, set_max_mem. wp_steps.
  set (s1 := s <| cfg ::= _ |>). pose proof (set_max_mem_tuned (mem_limit memsize) s) as Ht.
  destruct (tuned_view _ _ Ht) as [Ha Hn]. pose proof (tuned_Inv _ _ Ht HI) as HI1.
  change (s <| cfg ::= _ |>) with s1 in Ht, Ha, Hn, HI1.
  eapply wp_mono; [apply (shrink_spec s1); [done|done|by rewrite Hn|exact Hcov|apply mem_limit_range]|].
  intros u s2 (HI2 & Hev & Hfit). wp_steps.
  eapply wp_mono; [by apply dom_usage_update_all_spec|]. intros u' s3 Hq. wp_steps.
  assert (Hev3 : evicted s1 s3) by (etransitivity; [done|apply sim_evicted, Hq]).
  pose proof (quiet_Inv _ _ HI2 Hq) as HI3. split.
  - apply (managed_trans s s1); [by apply tuned_managed|by apply evicted_managed].
  - by rewrite (evi_cfg _ _ Hev3).
  - rewrite (frame_same_modes s1 s3); [done|by apply evicted_frame].
  - rewrite <- Ha. by apply evicted_abs.
  - intros Hsh Hm Hb. rewrite (quiet_bytes _ _ Hq), (sim_shr_ptrs _ _ (proj1 Hq)). by apply Hfit.
Qed.

(** *** Weights *)

Definition weights s : list Z := md_weight <$> doms s.

Lemma dom_weight_update_spec s : wp tol dom_weight_update
  (fun _ s' => tuned s s' /\ weights s' = weights s /\ modes s' = modes s /\
     total_weight (cfg s') = Z.max 0 (total_weight (cfg s)) /\
     (0 < total_weight (cfg s) -> forall d, d ∈ doms s' ->
        md_ratio d = u32 (md_weight d * 100) / total_weight (cfg s))) s.
Proof.
  unfold dom_weight_update. wp_steps. destruct (Z.leb_spec (total_weight (cfg s)) 0) as [Hle|Hlt]; wp_steps.
  - split_and!; try done; [|cbn; lia|lia]. apply tuned_cfg; try done.
    intros Hc. split; [apply (co_replace _ Hc)|apply (co_partition _ Hc)].
  - split_and!; try done.
    + split; try done; [|by intros Hc; split; [apply (co_replace _ Hc)|apply (co_partition _ Hc)]].
      cbn. apply Forall2_fmap_r. apply Forall2_same_length_lookup_2; [done|].
      intros i d d' -> [= <-]. split; try done. intros _. by apply ratio_range.
    + unfold weights. cbn. by rewrite <- list_fmap_compose.
    + cbn. lia.
    + cbn. intros _ d (d0 & -> & _)%list_elem_of_fmap. done.
Qed.

Lemma dom_tuned_weight d w : dom_tuned d (d <| md_weight := w |>).
Proof. by split. Qed.

Lemma alter_dom_Forall2 (R : mcd_domain -> mcd_domain -> Prop) `{!Reflexive R} domid f ds :
  (forall d, R d (f d)) -> Forall2 R ds (alter_dom domid f ds).
Proof.
  intros Hf. induction ds as [|d ds IH]; cbn; [constructor|].
  destruct (_ =? _); constructor; auto. apply Forall2_refl, _.
Qed.

(** The weight of a domain changes and the total changes by as much. *)
Lemma set_weight_spec domid weight s : Inv s -> domid ∈ domids s ->
  wp tol (set_weight domid weight) (fun _ s' => managed s s' /\ abs s' = abs s /\ modes s' = modes s /\
    exists d, d ∈ doms s /\ md_domid d = domid /\
      total_weight (cfg s') = u32 (total_weight (cfg s) + (weight - md_weight d)) /\
      weights s' = md_weight <$> alter_dom domid (fun d => d <| md_weight := weight |>) (doms s)) s.
Proof.
  intros HI Hin. unfold set_weight. wp_steps. apply wp_find_mcd_dom; [done|]. wp_steps.
  apply wp_dom_load; [done|]. intros d Hd Hdi _. wp_steps.
  set (s1 := s <| cfg ::= _ |>). apply wp_dom_update; [done|]. set (s2 := s1 <| doms ::= _ |>).
  assert (Ht : tuned s s2).
  { split; try done; [|by intros Hc; split; [apply (co_replace _ Hc)|apply (co_partition _ Hc)]].
    apply alter_dom_Forall2; [apply _|]. intros d'. apply dom_tuned_weight. }
  wp_steps. eapply wp_mono; [apply dom_weight_update_spec|].
  intros u s3 (Ht3 & Hw & Hm & Htw & _). wp_steps.
  pose proof (tuned_Inv _ _ Ht HI) as HI2. destruct (tuned_view _ _ Ht) as [Ha _].
  destruct (tuned_view _ _ Ht3) as [Ha3 _]. split_and!.
  - apply (managed_trans s s2); by apply tuned_managed.
  - congruence.
  - by rewrite Hm.
  - exists d. split_and!; [done|done| |by rewrite Hw]. rewrite Htw. cbn.
    pose proof (wrap_range 32 ltac:(lia) (total_weight (cfg s) + u32 (weight - md_weight d))) as [? _].
    rewrite Z.max_r by done. by rewrite wrap_add_r.
Qed.

(** *** Modes *)

(** The rows that survive a change of the cache mode from [old] to [new]. *)
Definition mode_keeps (old new : Z) k : Prop :=
  if old =? new then True else if new =? MCD_CACHE_MODE_SHARED then spared k else k <> None.
#[export] Instance mode_keeps_dec old new k : Decision (mode_keeps old new k).
Proof. unfold mode_keeps. destruct (old =? new), (new =? MCD_CACHE_MODE_SHARED); apply _. Defined.

Record switched (mode : Z) s s' : Prop := {
  sw_managed : managed s s';
  sw_mode : modes s' = (mode, replacement_mode (cfg s), partition_mode (cfg s));
  sw_abs : abs s' = filter (fun x => mode_keeps (cache_mode (cfg s)) mode x.1.1) (abs s);
}.

Lemma filter_all {A} (m : gmap (option Z * Z) A) (P : (option Z * Z) * A -> Prop) `{!forall x, Decision (P x)} :
  (forall x, P x) -> filter P m = m.
Proof. intros HP. apply map_eq. intros i. apply option_eq. intros v. rewrite map_lookup_filter_Some. naive_solver. Qed.

(** Only the mode changes: the table and the second tier are as they were. *)
Lemma put_cache_mode_wf mode s : mode = MCD_CACHE_MODE_SHARED \/ mode = MCD_CACHE_MODE_PARTITION ->
  wf s -> wf (s <| cfg ::= fun c => c <| cache_mode := mode |> |>).
Proof.
  intros Hm [H1 H2 H3 []]. split; [by destruct H1|by destruct H2|by destruct H3|by split].
Qed.

Lemma switch_cache_mode_spec mode s : Inv s ->
  mode = MCD_CACHE_MODE_SHARED \/ mode = MCD_CACHE_MODE_PARTITION ->
  (mode = MCD_CACHE_MODE_SHARED -> is_shared s = false -> dom0_clean s) ->
  wp tol (switch_cache_mode env mode) (fun _ s' => switched mode s s') s.
Proof.
  intros HI Hmode H0. pose proof HI as [Hwf Hctl]. unfold switch_cache_mode, put_cache_mode. wp_steps.
  set (s1 := s <| cfg ::= _ |>). pose proof (put_cache_mode_wf mode s Hmode Hwf) as Hwf1.
  change (wf s1) in Hwf1. assert (Hb1 : ctl_base [] s1) by by destruct (ct_base _ _ Hctl).
  destruct (Z.eqb_spec (cache_mode (cfg s)) mode) as [Heq|Hne]; cbn [negb]; wp_steps.
  { assert (Hs1 : s1 = s).
    { transitivity (eta s1); [|by destruct s as [? ? [] ? ? ? ? ? ? ? ? ? ?]; cbn in *; subst].
      by destruct s as [? ? [] ? ? ? ? ? ? ? ? ? ?]; cbn in *; subst. }
    rewrite Hs1. split; [by apply managed_refl|unfold modes; by rewrite Heq|].
    symmetry. apply filter_all. intros x. unfold mode_keeps. by rewrite Heq, Z.eqb_refl. }
  unfold flush_old_side. wp_steps. change (cache_mode (cfg s1)) with mode.
  destruct (Z.eqb_spec mode MCD_CACHE_MODE_SHARED) as [Hs|Hp].
  - assert (Hpri : cache_mode (cfg s) <> MCD_CACHE_MODE_SHARED) by congruence.
    eapply wp_mono; [apply (p_mcd_flush_all_spec env tol s1); try done|].
    + exact (ctl_known_hdrs s Hctl).
    + apply H0; [done|]. by apply Z.eqb_neq.
    + by apply (ct_mode_pri _ _ Hctl).
    + intros u s' Hf. split.
      * destruct (frame_managed s1 s') as [? ? ? ? ?]; [by apply (all_flushed_Inv s1)|apply Hf|apply (af_num _ _ Hf)|by split].
      * rewrite (frame_same_modes s1 s'); [done|apply Hf].
      * rewrite (all_flushed_abs s1) by done. change (abs s1) with (abs s). apply map_filter_ext.
        intros x v _. unfold mode_keeps. rewrite Hs. by rewrite (proj2 (Z.eqb_neq _ _)) by done.
  - unfold s_mcd_flush_all. wp_steps.
    assert (Hsh : cache_mode (cfg s) = MCD_CACHE_MODE_SHARED).
    { destruct (co_cache _ (wf_cfg _ _ _ Hwf)), Hmode; congruence. }
    eapply wp_mono; [apply (s_mcd_flush_spec env tol s1); [done|done|by apply (ct_mode_shr _ _ Hctl)]|].
    intros rc s' (_ & Hf & He). wp_steps. split.
    + destruct (frame_managed s1 s') as [? ? ? ? ?]; [split; [apply Hf|by apply ctl_empty_ok]|apply Hf|apply (fd_num _ _ _ Hf)|by split].
    + rewrite (frame_same_modes s1 s'); [done|apply Hf].
    + rewrite (flushed_abs None s1) by done. change (abs s1) with (abs s). apply map_filter_ext.
      intros x v _. unfold mode_keeps. rewrite (proj2 (Z.eqb_neq _ _)) by done.
      by rewrite (proj2 (Z.eqb_neq _ _)) by done.
Qed.

(** The mode that [set_cache_mode] makes of its arguments. *)
Definition target_mode (which mode : Z) s : Z * Z * Z :=
  let '(c, r, p) := modes s in
  if which =? 0 then (if MCD_CACHE_MODE_MAX <=? mode then MCD_CACHE_MODE_SHARED else mode, r, p)
  else if which =? 1 then (c, if MCD_REPLACE_MODE_MAX <=? mode then MCD_REPLACE_MODE_LFRU else mode, p)
  else if which =? 2 then
    let m := if MCD_PARTITION_MODE_MAX <=? mode then MCD_PARTITION_MODE_BE else mode in
    (if m =? MCD_PARTITION_MODE_BE then MCD_CACHE_MODE_SHARED else MCD_CACHE_MODE_PARTITION, r, m)
  else (c, r, p).

Record mode_set (which mode : Z) s s' : Prop := {
  mt_managed : managed s s';
  mt_modes : modes s' = target_mode which mode s;
  mt_abs : abs s' = filter (fun x => mode_keeps (cache_mode (cfg s)) (cache_mode (cfg s')) x.1.1) (abs s);
}.

Lemma unchanged_abs (old new : Z) (m : gmap (option Z * Z) (list Z)) : new = old ->
  m = filter (fun x => mode_keeps old new x.1.1) m.
Proof. intros ->. symmetry. apply filter_all. intros x. unfold mode_keeps. by rewrite Z.eqb_refl. Qed.

Lemma switched_set which mode m s s1 s' : tuned s s1 -> cache_mode (cfg s1) = cache_mode (cfg s) ->
  switched m s1 s' -> Inv s ->
  (m, replacement_mode (cfg s1), partition_mode (cfg s1)) = target_mode which mode s -> mode_set which mode s s'.
Proof.
  intros Ht Hc [H1 H2 H3] HI Heq. destruct (tuned_view _ _ Ht) as [Ha Hn]. split.
  - apply (managed_trans s s1); [by apply tuned_managed|done].
  - congruence.
  - unfold modes in H2. injection H2 as Hm _ _. by rewrite H3, Ha, Hc, Hm.
Qed.

Lemma set_cache_mode_spec which mode s : Inv s -> 0 <= mode ->
  (fst (fst (target_mode which mode s)) = MCD_CACHE_MODE_SHARED -> is_shared s = false -> dom0_clean s) ->
  wp tol (set_cache_mode env which mode) (fun _ s' => mode_set which mode s s') s.
Proof.
  intros HI Hm H0. pose proof (wf_cfg _ _ _ (proj1 HI)) as Hco.
  unfold set_cache_mode, target_mode, modes in *. wp_steps.
  destruct (which =? 0) eqn:E0; [|destruct (which =? 1) eqn:E1; [|destruct (which =? 2) eqn:E2]]; wp_steps.
  - set (m := if MCD_CACHE_MODE_MAX <=? mode then _ else _).
    eapply wp_mono; [apply (switch_cache_mode_spec m); [done| |by apply H0]|].
    { unfold m, MCD_CACHE_MODE_MAX, MCD_CACHE_MODE_SHARED, MCD_CACHE_MODE_PARTITION.
      destruct (Z.leb_spec 2 mode); lia. }
    intros u s' Hsw. wp_steps. apply (switched_set _ _ m s s); try done; [by apply tuned_cfg; try done; destruct Hco|].
    unfold target_mode, modes. by rewrite E0.
  - split; [| |by apply unchanged_abs].
    + apply tuned_managed; [done|]. apply tuned_cfg; try done. intros _. cbn. split; [|apply Hco].
      unfold MCD_REPLACE_MODE_MAX, MCD_REPLACE_MODE_LFRU in *. destruct (Z.leb_spec 3 mode); lia.
    + unfold modes, target_mode, modes. cbn. by rewrite E0, E1.
  - set (m := if MCD_PARTITION_MODE_MAX <=? mode then _ else _). set (c := if m =? MCD_PARTITION_MODE_BE then _ else _).
    set (s1 := s <| cfg ::= _ |>). assert (Ht : tuned s s1).
    { apply tuned_cfg; try done. intros _. cbn. split; [apply Hco|].
      unfold m, MCD_PARTITION_MODE_MAX, MCD_PARTITION_MODE_BE in *. destruct (Z.leb_spec 3 mode); lia. }
    eapply wp_mono; [apply (switch_cache_mode_spec c s1); [by apply (tuned_Inv s)| |exact H0]|].
    { unfold c. destruct (m =? _); auto. }
    intros u s' Hsw. wp_steps. apply (switched_set _ _ c s s1); try done.
    unfold target_mode, modes. cbn. by rewrite E0, E1, E2.
  - split; [by apply managed_refl| |by apply unchanged_abs]. unfold target_mode, modes. by rewrite E0, E1, E2.
Qed.

End Control.
