(* ===== verification/Lifecycle.v ===== *)
(** The life cycle of client domains: creation and destruction keep the
    invariant, and the initial state establishes it. *)
From S2P Require Import Prelude CMonad Hash Types State Core Evict Inv Remove Evicted EvictShared EvictPart Alloc Create Ops View OpsLib OpsMake OpsSpec Flush Display Admin AdminSpec.

(** ** A new domain *)

Section New.
Context {B : Type} `{!Minf B, !MinfLaws B}.
Implicit Types (s : gstate B) (p q : ptr) (e : mcd_hashT) (d : mcd_domain) (h : Z) (v : list Z).

Definition with_domain (domid reset : Z) s : gstate B :=
  s <| doms ::= fun ds => ds ++ [new_domain domid reset] |>
    <| ctl ::= fun c => c <| mc_doms ::= <[domid := []]> |> |>.

Context (domid reset : Z) (s : gstate B) (HI : Inv s) (Hnew : domid ∉ domids s).

Lemma with_domids : domids (with_domain domid reset s) = domids s ++ [domid].
Proof using All. unfold with_domain. cbn. by rewrite fmap_app. Qed.

Lemma with_pri_ptrs : pri_ptrs (with_domain domid reset s) = pri_ptrs s.
Proof using All. unfold pri_ptrs, with_domain. cbn. by rewrite fmap_app, concat_app, app_nil_r. Qed.

Lemma with_all_ptrs : all_ptrs [] [] (with_domain domid reset s) = all_ptrs [] [] s.
Proof using All. unfold all_ptrs. by rewrite with_pri_ptrs. Qed.

Lemma with_dom d : d ∈ doms (with_domain domid reset s) -> d ∈ doms s \/ d = new_domain domid reset.
Proof using All. cbn. rewrite elem_of_app. set_solver. Qed.

Lemma with_owned f : hsum (heap s) (owned f domid) (all_ptrs [] [] s) = 0.
Proof using All.
  apply hsum_zero. intros p Hp.
  destruct (heap s !! p) as [e|] eqn:He; [|done]. cbn. unfold owned.
  destruct (Z.eqb_spec (mh_domain e) domid) as [Heq|]; [|done]. destruct Hnew. rewrite <- Heq.
  by apply (lo_owner _ _ _ (wf_lists _ _ _ (proj1 HI)) p).
Qed.

Lemma with_wf : wf (with_domain domid reset s).
Proof using All.
  destruct HI as [[Hl Hi Ha Hc] _]. split.
  - destruct Hl. split; rewrite ?with_domids, ?with_all_ptrs; try done.
    + apply NoDup_app. split_and!; [done| |apply NoDup_singleton]. set_solver.
    + intros p e He. apply elem_of_app. left. by eapply lo_owner.
  - destruct Hi. split; try done.
    + intros d p e [Hd| ->]%with_dom; [by apply ix_priv|]. cbn. set_solver.
    + intros d p q e e' [Hd| ->]%with_dom; [by apply ix_pri_uniq|]. cbn. set_solver.
  - destruct Ha. split; rewrite ?with_pri_ptrs, ?with_all_ptrs; try done.
    intros d [Hd| ->]%with_dom; [by apply ac_dom|].
    pose proof (with_owned mh_nr_bytes) as H1. pose proof (with_owned mh_nr_pages) as H2.
    change (heap (with_domain domid reset s)) with (heap s). cbn [new_domain md_domid md_nr_used_bytes md_nr_used_pages].
    by rewrite H1, H2.
  - destruct Hc. split; try done. intros d [Hd| ->]%with_dom; [auto|]. cbn. lia.
Qed.

Lemma with_mc_doms (k : Z) : default [] (mc_doms (ctl (with_domain domid reset s)) !! k) = default [] (mc_doms (ctl s) !! k).
Proof using All.
  cbn. destruct (decide (domid = k)) as [<-|Hne]; [|by rewrite lookup_insert_ne].
  rewrite lookup_insert_eq. cbn. pose proof (ctl_known_hdrs s (proj2 HI) domid) as Hk.
  destruct (default [] _) eqn:E; [done|]. destruct Hnew. by apply Hk.
Qed.

Lemma with_mc_concat : map_concat (mc_doms (ctl (with_domain domid reset s))) ≡ₚ map_concat (mc_doms (ctl s)).
Proof using All.
  rewrite (map_concat_split _ domid), (map_concat_split (mc_doms (ctl s)) domid), with_mc_doms.
  cbn. by rewrite delete_insert_eq.
Qed.

Lemma with_mc_ptrs : mc_ptrs (ctl (with_domain domid reset s)) ≡ₚ mc_ptrs (ctl s).
Proof using All. unfold mc_ptrs. by rewrite with_mc_concat. Qed.

Lemma with_ctl : ctl_ok (with_domain domid reset s).
Proof using All.
  destruct HI as [_ [[L N V F M] Hh Ho Hs Hp]]. split; [split|..]; try done.
  - by rewrite with_mc_ptrs.
  - intros q. rewrite with_mc_ptrs. apply V.
  - intros q c. rewrite with_mc_ptrs, with_domids. intros Hq Hc. destruct (Hh q c Hq Hc).
    split; [done|]. apply elem_of_app. by left.
  - intros k q c. rewrite with_mc_doms. apply Ho.
  - intros Hm. apply Permutation_nil_r. by rewrite with_mc_concat, Hs.
Qed.

Lemma with_Inv : Inv (with_domain domid reset s).
Proof using All. split; [apply with_wf|apply with_ctl]. Qed.

Lemma with_view : abs (with_domain domid reset s) = abs s /\ num (with_domain domid reset s) = num s.
Proof using All.
  split.
  - unfold abs, rows. cbn. rewrite fmap_app, concat_app. cbn. by rewrite app_nil_r.
  - unfold num, live. by rewrite with_all_ptrs.
Qed.
End New.

(** ** Dropping a domain *)

Definition without_domain {B} (domid : Z) (s : gstate B) : gstate B :=
  s <| doms ::= filter (fun d => md_domid d <> domid) |>
    <| ctl ::= fun c => c <| mc_doms ::= delete domid |> |>.

Section Without.
Context {B : Type} `{!Minf B, !MinfLaws B}.
Implicit Types (s : gstate B) (p q : ptr) (e : mcd_hashT) (d : mcd_domain) (h : Z) (v : list Z).

(** Nothing in the shared table or behind it belongs to the domain. *)
Record no_orphans (domid : Z) s : Prop := {
  or_entry : forall p e, p ∈ shr_ptrs s -> heap s !! p = Some e -> mh_domain e <> domid;
  or_hdr : forall q c, q ∈ concat (mc_shared (ctl s)) -> mc_heap (ctl s) !! q = Some c -> mch_domain c <> domid;
}.

Context (domid : Z) (s : gstate B) (HI : Inv s) (Ho : no_orphans domid s).
Context (Hempty : dlist s domid = []) (Hmc : default [] (mc_doms (ctl s) !! domid) = []).

Lemma without_dom d : d ∈ doms (without_domain domid s) <-> d ∈ doms s /\ md_domid d <> domid.
Proof using All. cbn. rewrite list_elem_of_filter. tauto. Qed.

Lemma without_domids : domids (without_domain domid s) = filter (fun k => k <> domid) (domids s).
Proof using All.
  cbn. induction (doms s) as [|d ds IH]; [done|]. rewrite fmap_cons, !filter_cons.
  destruct (decide (md_domid d <> domid)); [by rewrite fmap_cons, IH|done].
Qed.

Lemma without_pri_ptrs : pri_ptrs (without_domain domid s) = pri_ptrs s.
Proof using All.
  pose proof (lo_domids _ _ _ (wf_lists _ _ _ (proj1 HI))) as Hnd.
  assert (H : forall d, d ∈ doms s -> md_domid d = domid -> md_hash_list d = []).
  { intros d Hd <-. by rewrite <- (dlist_dom s (md_domid d) d) by by apply dom_of_elem. }
  unfold pri_ptrs. cbn. revert H. clear. induction (doms s) as [|d ds IH]; intros H; [done|].
  rewrite fmap_cons, filter_cons. cbn [concat].
  destruct (decide (md_domid d <> domid)) as [|Hn]; cbn.
  - rewrite IH; [done|]. intros d' Hd'. apply H. by right.
  - rewrite (H d) by (by left || tauto || lia). apply IH. intros d' Hd'. apply H. by right.
Qed.

Lemma without_all_ptrs : all_ptrs [] [] (without_domain domid s) = all_ptrs [] [] s.
Proof using All. unfold all_ptrs. by rewrite without_pri_ptrs. Qed.

Lemma without_owner p e : heap s !! p = Some e -> mh_domain e <> domid.
Proof using All.
  intros He. destruct HI as [Hwf _]. pose proof Hwf as [Hl Hi _ _].
  assert (Hp : p ∈ all_ptrs [] [] s) by (apply (lo_live _ _ _ Hl); eauto).
  change (p ∈ live s) in Hp. rewrite live_split, elem_of_app in Hp. destruct Hp as [Hp|Hp].
  { by apply (or_entry _ _ Ho p). }
  unfold pri_ptrs in Hp. apply elem_of_concat in Hp as (l & (d & -> & Hd)%list_elem_of_fmap & Hp).
  rewrite (ix_priv _ Hi d p e) by done. intros Heq.
  rewrite <- Heq, (dlist_dom _ _ d) in Hempty by (apply dom_of_elem; [apply Hl|done]).
  rewrite Hempty in Hp. set_solver.
Qed.

Lemma without_wf : wf (without_domain domid s).
Proof using All.
  pose proof HI as [[Hl Hi Ha Hc] _]. split.
  - pose proof without_owner as Hown. destruct Hl. split; rewrite ?without_domids, ?without_all_ptrs; try done.
    + by apply NoDup_filter.
    + intros p e He. apply list_elem_of_filter. split; [by apply (Hown p)|by eapply lo_owner].
  - destruct Hi. split; try done.
    + intros d p e [Hd _]%without_dom. by apply ix_priv.
    + intros d p q e e' [Hd _]%without_dom. by apply ix_pri_uniq.
  - destruct Ha. split; rewrite ?without_pri_ptrs, ?without_all_ptrs; try done.
    intros d [Hd _]%without_dom. by apply ac_dom.
  - destruct Hc. split; try done. intros d [Hd _]%without_dom. auto.
Qed.

Lemma without_mc_doms (k : Z) :
  default [] (mc_doms (ctl (without_domain domid s)) !! k) = default [] (mc_doms (ctl s) !! k).
Proof using All.
  cbn. destruct (decide (domid = k)) as [<-|Hne]; [|by rewrite lookup_delete_ne].
  by rewrite lookup_delete_eq, Hmc.
Qed.

Lemma without_mc_concat : map_concat (mc_doms (ctl (without_domain domid s))) ≡ₚ map_concat (mc_doms (ctl s)).
Proof using All.
  rewrite (map_concat_split _ domid), (map_concat_split (mc_doms (ctl s)) domid), without_mc_doms.
  cbn. by rewrite delete_delete_eq.
Qed.

Lemma without_mc_ptrs : mc_ptrs (ctl (without_domain domid s)) ≡ₚ mc_ptrs (ctl s).
Proof using All. unfold mc_ptrs. by rewrite without_mc_concat. Qed.

Lemma without_hdr q c : q ∈ mc_ptrs (ctl s) -> mc_heap (ctl s) !! q = Some c -> mch_domain c <> domid.
Proof using All.
  intros Hq Hc. unfold mc_ptrs in Hq. rewrite elem_of_app in Hq. destruct Hq as [Hq|Hq].
  { by apply (or_hdr _ _ Ho q). }
  unfold map_concat in Hq. apply elem_of_concat in Hq as (l & ([k l'] & -> & Hk%elem_of_map_to_list)%list_elem_of_fmap & Hq).
  cbn in Hq. rewrite (ct_own _ _ (proj2 HI) k q c); [|by rewrite Hk|done].
  intros ->. rewrite Hk in Hmc. cbn in Hmc. subst l'. by apply elem_of_nil in Hq.
Qed.

Lemma without_ctl : ctl_ok (without_domain domid s).
Proof using All.
  pose proof without_hdr as Hown. pose proof HI as [_ [[L N V F M] Hh Hw Hs Hp]]. split; [split|..]; try done.
  - by rewrite without_mc_ptrs.
  - intros q. rewrite without_mc_ptrs. apply V.
  - intros q c. rewrite without_mc_ptrs, without_domids. intros Hq Hc. destruct (Hh q c Hq Hc).
    split; [done|]. apply list_elem_of_filter. split; [by apply (Hown q)|done].
  - intros k q c. rewrite without_mc_doms. apply Hw.
  - intros Hm. apply Permutation_nil_r. by rewrite without_mc_concat, Hs.
Qed.

Lemma without_Inv : Inv (without_domain domid s).
Proof using All. split; [apply without_wf|apply without_ctl]. Qed.

Lemma without_num : num (without_domain domid s) = num s.
Proof using All. unfold num, live. by rewrite without_all_ptrs. Qed.

Lemma without_val_at k h v : val_at (without_domain domid s) k h v <-> val_at s k h v.
Proof using All.
  destruct k as [k|]; [|done]. unfold val_at. cbn [tbl].
  assert (Hdl : dlist (without_domain domid s) k = dlist s k); [|by rewrite Hdl].
  pose proof (lo_domids _ _ _ (wf_lists _ _ _ (proj1 HI))) as Hnd.
  destruct (decide (k = domid)) as [->|Hne].
  - rewrite Hempty. unfold dlist. destruct (dom_of (doms (without_domain domid s)) domid) as [d|] eqn:Hd; [|done].
    apply dom_of_Some in Hd as [[_ Hd]%without_dom ?]. done.
  - destruct (dom_of (doms s) k) as [d|] eqn:Hd.
    + pose proof (dom_of_Some _ _ _ Hd) as [Hin <-]. rewrite (dlist_dom _ _ d Hd).
      apply dlist_dom, dom_of_elem; [rewrite without_domids; by apply NoDup_filter|].
      by apply without_dom.
    + unfold dlist at 2. rewrite Hd. unfold dlist.
      destruct (dom_of (doms (without_domain domid s)) k) as [d|] eqn:Hd'; [|done].
      apply dom_of_Some in Hd' as [[Hd' _]%without_dom <-]. apply dom_of_None in Hd. destruct Hd. set_solver.
Qed.

Lemma without_abs : abs (without_domain domid s) = abs s.
Proof using All. apply abs_eq; [apply HI|apply without_wf|]. intros k h v. apply without_val_at. Qed.

End Without.

(** ** The operations *)

Section Lifecycle.
Context {B : Type} `{!Minf B, !MinfLaws B} (env : Env) (tol : fault -> Prop).
Context (Hmini : forall b : B, mcdctl_enabled b = true -> tol NullDeref).
Context (Hnow : forall n, env_now env n <> 0).
Implicit Types (s : gstate B) (p q : ptr) (e : mcd_hashT) (d : mcd_domain) (h : Z) (v : list Z).

Definition attach (domid : Z) s : gmap Z xen_domain := alter (fun x => x <| xd_mcd := Some domid |>) domid (xdoms s).

Lemma attached_Inv xd s : Inv s -> Inv (s <| xdoms := xd |>) /\ abs (s <| xdoms := xd |>) = abs s.
Proof. intros [[[] [] [] []] [[] ? ? ? ?]]. split; [|done]. split; [split; by split|split; [by split|done..]]. Qed.

Lemma minf_managed {A} (m : M B A) s : minf_req A m -> Inv s ->
  wp tol (minf m) (fun _ s' => managed s s' /\ modes s' = modes s /\ abs s' = abs s /\ quiet s s' /\ ctl s' = ctl s) s.
Proof.
  intros Hm HI. pose proof (minf_spec (fun _ => False) m [] s Hm (proj2 HI)) as Hw.
  unfold minf in *. apply wp_zoom. unfold wp, zoom in *.
  destruct (m (be s)) as [a b| |]; [|done..]. destruct Hw as (Hs & Hc & _). cbn in *.
  assert (Hq : quiet s (s <| be := b |>)) by done. split_and!; [by apply quiet_managed|done..].
Qed.

Record domain_added (domid : Z) s s' : Prop := {
  da_inv : Inv s';
  da_domids : domids s' = domids s ++ [domid];
  da_xdoms : xdoms s' = attach domid s;
  da_modes : modes s' = modes s;
  da_enabled : mcd_enabled_flag (cfg s') = mcd_enabled_flag (cfg s);
  da_abs : abs s' ⊆ abs s;
  da_num : (num s' <= num s)%nat;
}.

Lemma weight_added f s : Inv s ->
  tuned s (s <| cfg ::= fun c => c <| total_weight ::= f |> |>).
Proof. intros [[_ _ _ Hc] _]. apply tuned_cfg; try done. intros _. split; apply Hc. Qed.

(** The tail of [mcd_domain_create], from the attachment on. *)
Lemma domain_tail domid s : Inv s -> (domid ∉ domids s) ->
  wp tol ((if 0 <? domid then
             modify (fun s => s <| cfg ::= fun c => c <| total_weight ::= fun w => u32 (w + DOM_WEIGHT_DEFAULT) |> |>)
           else mret tt);;
          now ← NOW env;
          modify (fun s => s <| doms ::= fun ds => ds ++ [new_domain domid now] |>
                             <| ctl ::= fun c => c <| mc_doms ::= <[domid := []]> |> |>);;
          (if 0 <? domid then dom_weight_update else mret tt);;
          minf (minf_page_dom_create domid);;
          mret (- ERR_NO))
    (fun rc s' => rc = - ERR_NO /\ Inv s' /\ domids s' = domids s ++ [domid] /\ xdoms s' = xdoms s /\
       modes s' = modes s /\ mcd_enabled_flag (cfg s') = mcd_enabled_flag (cfg s) /\ abs s' = abs s /\ num s' = num s) s.
Proof.
  intros HI Hnew. wp_steps.
  eapply wp_mono with (Q := fun _ s' => tuned s s' /\ modes s' = modes s).
  { destruct (0 <? domid); wp_steps; [by split; [apply weight_added|]|].
    split; [|done]. apply tuned_cfg; try done. intros Hc. split; apply Hc. }
  intros u s1 [Ht1 Hm1]. pose proof (tuned_Inv _ _ Ht1 HI) as HI1. wp_steps.
  eapply wp_mono; [apply NOW_spec, HI1|]. intros now s2 [-> Hq]. wp_steps. set (now := env_now env _).
  pose proof (quiet_Inv _ _ HI1 Hq) as HI2. pose proof (quiet_managed _ _ HI1 Hq) as M2.
  assert (Hnew2 : domid ∉ domids s2).
  { rewrite (ma_domids _ _ M2), (tuned_domids _ _ Ht1). done. }
  change (s2 <| doms ::= _ |> <| ctl ::= _ |>) with (with_domain domid now s2).
  pose proof (with_Inv domid now s2 HI2 Hnew2) as HI3. set (s3 := with_domain _ _ _) in *.
  eapply wp_mono with (Q := fun _ s' => tuned s3 s' /\ modes s' = modes s3).
  { destruct (0 <? domid); wp_steps.
    - eapply wp_mono; [apply dom_weight_update_spec|]. intros u' s4 (H1 & _ & H2 & _). done.
    - split; [|done]. apply tuned_cfg; try done. intros Hc. split; apply Hc. }
  intros u' s4 [Ht4 Hm4]. pose proof (tuned_Inv _ _ Ht4 HI3) as HI4. wp_steps.
  eapply wp_mono; [by apply (minf_managed _ s4 (minf_create_ok domid))|].
  intros a s5 (M5 & Hm5 & Ha5 & Hq5 & _). wp_steps.
  destruct (tuned_view _ _ Ht1) as [Ha1 Hn1]. destruct (tuned_view _ _ Ht4) as [Ha4 Hn4].
  destruct (with_view domid now s2 HI2 Hnew2) as [Ha3 Hn3].
  assert (Ha2 : abs s2 = abs s1) by (apply softly_abs; [done|by apply quiet_softly]).
  split_and!; [done|apply M5| | | | | |].
  - rewrite (ma_domids _ _ M5), (tuned_domids _ _ Ht4). unfold s3. rewrite with_domids by done.
    by rewrite (ma_domids _ _ M2), (tuned_domids _ _ Ht1).
  - rewrite (ma_xdoms _ _ M5), (tn_xdoms _ _ Ht4). change (xdoms s3) with (xdoms s2).
    by rewrite (ma_xdoms _ _ M2), (tn_xdoms _ _ Ht1).
  - rewrite Hm5, Hm4. change (modes s3) with (modes s2).
    rewrite (frame_same_modes s1 s2); [done|by apply evicted_frame, sim_evicted, Hq].
  - rewrite (ma_enabled _ _ M5), (tn_enabled _ _ Ht4). change (cfg s3) with (cfg s2).
    by rewrite (ma_enabled _ _ M2), (tn_enabled _ _ Ht1).
  - unfold s3 in *. congruence.
  - rewrite (quiet_num _ _ Hq5), Hn4. unfold s3. rewrite Hn3, (quiet_num _ _ Hq). done.
Qed.

Lemma mcd_domain_create_spec domid s x : Inv s -> mode_ok s -> (num s < env_fuel env)%nat -> covers domid s ->
  domid ∉ domids s -> xdoms s !! domid = Some x -> xd_is_dying x = false ->
  wp tol (mcd_domain_create env domid) (fun rc s' =>
    rc = - ERR_NO /\ domain_added domid s s' \/
    rc = - ERR_XENFAULT /\ managed s s' /\ modes s' = modes s /\ abs s' ⊆ abs s) s.
Proof using Hmini Hnow.
  intros HI Hmo Hf Hcov Hnew Hx Hdy. unfold mcd_domain_create. wp_steps.
  eapply wp_mono; [by apply (mcd_malloc_spec env tol Hmini Hnow)|].
  intros r s1 (HI1 & Hev & _). pose proof (evicted_managed _ _ HI1 Hev) as M1.
  pose proof (frame_same_modes _ _ (evicted_frame _ _ Hev)) as Hm1. pose proof (evicted_abs _ _ HI HI1 Hev) as Ha1.
  destruct r as [p|]; [|unfold mcd_domain_free; wp_steps; by right]. wp_steps.
  unfold attach_mcd. wp_steps. rewrite (evi_xdoms _ _ Hev), Hx, Hdy. wp_steps.
  change (- ERR_NO =? 0) with false. cbn [negb].
  set (s2 := s1 <| xdoms ::= _ |>). destruct (attached_Inv (xdoms s2) s1 HI1) as [HI2 Ha2].
  change (s1 <| xdoms := xdoms s2 |>) with s2 in HI2, Ha2.
  eapply wp_mono; [apply (domain_tail domid s2); [done|by rewrite <- (ma_domids _ _ M1) in Hnew]|].
  intros rc s' (-> & HI' & Hd & Hxd & Hm & He & Ha & Hn). left. split; [done|]. split; [done|..].
  - rewrite Hd. change (domids s2) with (domids s1). by rewrite (ma_domids _ _ M1).
  - rewrite Hxd. cbn. rewrite (evi_xdoms _ _ Hev). unfold attach. apply map_eq. intros k.
    destruct (decide (k = domid)) as [->|Hne].
    + by rewrite lookup_insert_eq, lookup_alter_eq, Hx.
    + by rewrite lookup_insert_ne, lookup_alter_ne.
  - by rewrite Hm.
  - rewrite He. apply M1.
  - by rewrite Ha, Ha2.
  - rewrite Hn. apply M1.
Qed.

(** ** Destruction *)

Lemma flushed_Inv k s s1 s' : Inv s -> same_tier s s1 -> flushed k s s' -> mc_shrunk s1 s' -> Inv s'.
Proof.
  intros [_ Hc] Hsm Hf Hms. split; [apply Hf|]. apply (mc_shrunk_ok s1); [done|].
  pose proof (soft_frame _ _ (ms_soft _ _ Hms)) as Hf1. pose proof (fd_frame _ _ _ Hf) as Hf2.
  destruct Hsm as [H1 H2 H3]. apply (ctl_gen_env [] s); [done|done|by rewrite H3| | |done].
  - by rewrite <- (fr_domids _ _ Hf1), (fr_domids _ _ Hf2).
  - transitivity (cache_mode (cfg s')); [by rewrite (fr_cfg _ _ Hf1)|by rewrite (fr_cfg _ _ Hf2)].
Qed.

Lemma no_orphans_shrunk domid s1 s2 s3 : no_orphans domid s1 ->
  shr_ptrs s3 ⊆ shr_ptrs s1 -> heap s3 ⊆ heap s1 -> mc_shrunk s2 s3 -> ctl s2 = ctl s1 -> no_orphans domid s3.
Proof.
  intros [H1 H2] Hsub Hh Hms Hc. split.
  - intros p e Hp He. apply (H1 p); [by apply Hsub|by eapply lookup_weaken].
  - intros q c Hq Hqc. rewrite (ms_heap _ _ Hms), Hc in Hqc. apply (H2 q); [|done].
    rewrite <- Hc. by apply (sublist_subseteq _ _ (concat_sublist _ _ (ms_shared _ _ Hms))).
Qed.

Record domain_gone (domid : Z) s s' : Prop := {
  dg_inv : Inv s';
  dg_domids : domids s' = filter (fun k => k <> domid) (domids s);
  dg_xdoms : xdoms s' = xdoms s;
  dg_modes : modes s' = modes s;
  dg_enabled : mcd_enabled_flag (cfg s') = mcd_enabled_flag (cfg s);
  dg_abs : abs s' = filter (fun x => x.1.1 <> Some domid) (abs s);
  dg_num : (num s' <= num s)%nat;
}.

Lemma mcd_domain_free_spec domid s : Inv s -> domid ∈ domids s -> no_orphans domid s ->
  wp tol (mcd_domain_free env (Some domid)) (fun _ s' => domain_gone domid s s') s.
Proof.
  intros HI Hin Ho. unfold mcd_domain_free. wp_steps.
  eapply wp_mono; [apply (p_mcd_flush_spec env tol domid); [apply HI|apply HI|done]|].
  intros rc s2 (_ & Hf & s1 & Hsm & Hms & Hmc). wp_steps.
  change (s2 <| doms ::= _ |> <| ctl ::= _ |>) with (without_domain domid s2).
  pose proof (flushed_Inv _ _ _ _ HI Hsm Hf Hms) as HI2.
  assert (Ho2 : no_orphans domid s2).
  { apply (no_orphans_shrunk domid s s1); [done|apply Hf|apply Hf|done|apply Hsm]. }
  pose proof (fd_frame _ _ _ Hf) as Hfr. pose proof (fd_tbl _ _ _ Hf) as Ht.
  split.
  - by apply without_Inv.
  - rewrite without_domids by done. by rewrite (fr_domids _ _ Hfr).
  - apply (fr_xdoms _ _ Hfr).
  - apply (frame_same_modes s s2 Hfr).
  - change (mcd_enabled_flag (cfg s2) = mcd_enabled_flag (cfg s)). by rewrite (fr_cfg _ _ Hfr).
  - rewrite without_abs by done. apply flushed_abs; [apply HI|done].
  - rewrite without_num by done. apply Hf.
Qed.

Lemma mcd_destroy_spec domid s x : Inv s -> xdoms s !! domid = Some x -> xd_is_dying x = true ->
  xd_mcd x = Some domid -> domid ∈ domids s -> no_orphans domid s ->
  wp tol (mcd_destroy env (Some domid)) (fun _ s' => domain_gone domid s s') s.
Proof.
  intros HI Hx Hdy Hmd Hin Ho. unfold mcd_destroy. wp_steps. cbn [mbind option_bind]. rewrite Hx. cbn [fmap option_fmap option_map].
  rewrite Hdy. wp_steps.
  eapply wp_mono; [by apply (minf_managed _ s (minf_destroy_ok domid))|].
  intros a s1 (M1 & Hm1 & Ha1 & Hq1 & Hc1). wp_steps. unfold md_ptr. rewrite Hmd. wp_steps.
  assert (Hin1 : domid ∈ domids s1) by (by rewrite (ma_domids _ _ M1)).
  apply wp_dom_load; [done|]. intros d Hd Hdi _. wp_steps. set (s2 := s1 <| cfg ::= _ |>).
  pose proof (weight_added (fun w => u32 (w - md_weight d)) s1 (ma_inv _ _ M1)) as Ht2. change (tuned s1 s2) in Ht2.
  pose proof (tuned_Inv _ _ Ht2 (ma_inv _ _ M1)) as HI2. rewrite Hdi.
  assert (Ho2 : no_orphans domid s2).
  { destruct Ho as [H1 H2], Hq1 as [Hs1 _]. split; cbn; rewrite ?(sim_heap _ _ Hs1).
    - intros p e Hp. apply H1. by rewrite <- (sim_shr_ptrs _ _ Hs1).
    - by rewrite Hc1. }
  eapply wp_mono; [apply (mcd_domain_free_spec domid s2); done|]. intros u s3 [G1 G2 G3 G4 Ge G5 G6].
  destruct (tuned_view _ _ Ht2) as [Ha2 Hn2].
  eapply wp_mono; [apply dom_weight_update_spec|]. intros u' s4 (Ht4 & _ & Hm4 & _).
  destruct (tuned_view _ _ Ht4) as [Ha4 Hn4]. split.
  - by apply (tuned_Inv s3).
  - rewrite (tuned_domids _ _ Ht4), G2. change (domids s2) with (domids s1). by rewrite (ma_domids _ _ M1).
  - rewrite (tn_xdoms _ _ Ht4), G3. apply M1.
  - rewrite Hm4, G4. apply Hm1.
  - rewrite (tn_enabled _ _ Ht4), Ge. apply M1.
  - by rewrite Ha4, G5, Ha2, Ha1.
  - rewrite Hn4. pose proof (ma_num _ _ M1). lia.
Qed.

(** ** Initialisation *)

Record booted s : Prop := {
  bt_inv : Inv s;
  bt_enabled : mcd_enabled_flag (cfg s) = true;
  bt_abs : abs s = ∅;
  bt_num : num s = 0%nat;
  bt_domids : domids s = [];
  bt_modes : modes s = (MCD_CACHE_MODE_SHARED, MCD_REPLACE_MODE_LFRU, MCD_PARTITION_MODE_BE);
  bt_max : max_mem_bytes (cfg s) = 0;
}.

Lemma empty_buckets (n : nat) : concat (replicate n ([] : list ptr)) = [].
Proof. by induction n. Qed.

Lemma booted_wf (s : gstate B) : heap s = ∅ -> shared s = replicate (Z.to_nat MAX_LIST_HEAD) [] -> doms s = [] ->
  mcd_data s = mk_mcd_data 0 0 0 0 0 0 -> cfg_ok s -> wf s.
Proof.
  intros Hh Hs Hd Hm Hc.
  assert (Hsp : shr_ptrs s = []) by (unfold shr_ptrs; rewrite Hs; apply empty_buckets).
  assert (Hpp : pri_ptrs s = []) by (unfold pri_ptrs; by rewrite Hd).
  assert (Hap : all_ptrs [] [] s = []) by (unfold all_ptrs; by rewrite Hsp, Hpp).
  split; [| | |done].
  - split; rewrite ?Hap, ?Hh, ?Hd, ?Hs; try (intros p; rewrite lookup_empty; by intros []); try done; try apply NoDup_nil_2.
    intros p. rewrite lookup_empty. split; [by intros ?%elem_of_nil|by intros []].
  - split; rewrite ?Hh, ?Hd; intros *; try (by rewrite lookup_empty); by intros ?%elem_of_nil.
  - split; rewrite ?Hsp, ?Hpp, ?Hd, ?Hm; try done. by intros d ?%elem_of_nil.
Qed.

Lemma booted_ctl (s : gstate B) : mc_shared (ctl s) = replicate (Z.to_nat MAX_LIST_HEAD) [] ->
  mc_doms (ctl s) = ∅ -> mc_freelist (ctl s) = [] -> mc_heap (ctl s) = ∅ -> minf_inv (be s) -> ctl_ok s.
Proof.
  intros Hs Hd Hf Hh Hm. apply ctl_empty_ok.
  assert (Hp : mc_ptrs (ctl s) = []) by (unfold mc_ptrs; by rewrite Hs, Hd, empty_buckets).
  split; [|done]. split; rewrite ?Hp, ?Hs, ?Hf, ?Hh; try done.
  - constructor.
  - by intros q ?%elem_of_nil.
  - intros q. rewrite lookup_empty. by intros [].
Qed.

Lemma init_mcd_spec xd (b : B) : minf_inv b ->
  wp tol (init_mcd true) (fun rc s' => rc = - ERR_NO /\ booted s' /\ xdoms s' = xd) (static_state xd b).
Proof.
  intros Hb. unfold init_mcd, mcd_start, mcdctl_start. cbn [negb]. wp_steps.
  change (- ERR_NO =? 0) with false. cbn [negb]. wp_steps. set (s := _ <| cfg ::= _ |>).
  split_and!; [done| |done].
  assert (Hwf : wf s).
  { apply booted_wf; try done.
    split; cbn; [by left|by split|by split|done|done|by intros d ?%elem_of_nil]. }
  split; try done. split; [done|by apply booted_ctl].
Qed.

End Lifecycle.
