(* ===== verification/Hypercall.v ===== *)
(** The hypercall [do_mcd_op]: every command keeps the invariant, and the
    cache operations refine the abstract map whatever the cache mode. *)
From S2P Require Import Prelude CMonad Hash Types State Core Evict Inv Remove Evicted EvictShared EvictPart Alloc Create Ops View OpsLib OpsMake OpsSpec Flush Display Admin AdminSpec.

Section After.
Context {B : Type} `{!Minf B, !MinfLaws B} (tol : fault -> Prop).
Implicit Types (s : gstate B) (p q : ptr) (e : mcd_hashT) (d : mcd_domain) (k : option Z) (h : Z) (v : list Z).

(** ** Steps that keep what an operation promised *)

Definition afterwards s s' : Prop := softly s s' /\ out_rvs s' = out_rvs s /\ out_val s' = out_val s.

Lemma is_private_spec s : wp tol is_private (fun b s' => b = negb (is_shared s) /\ s' = s) s.
Proof. unfold is_private. by wp_steps. Qed.

Lemma sub_call_wp p_fn s_fn caller op (Q : Z -> gstate B -> Prop) s :
  (is_shared s = false -> wp tol (p_fn (Some caller) op) Q s) ->
  (is_shared s = true -> wp tol (s_fn (Some caller) op) Q s) ->
  wp tol (mcd_sub_call p_fn s_fn (Some caller) (Some op)) Q s.
Proof.
  intros Hp Hs. unfold mcd_sub_call. wp_steps. eapply wp_mono; [apply is_private_spec|].
  intros b s' [-> ->]. destruct (is_shared s); cbn; auto.
Qed.

Lemma kept_softly s s1 s2 : kept s s1 -> softly s1 s2 -> kept s s2.
Proof.
  intros [H1 H2 H3] Hs. destruct (softly_kept _ _ H1 Hs) as [K1 K2 K3]. split; [done|by etransitivity|].
  rewrite (soft_num _ _ (proj1 Hs)). done.
Qed.

Lemma put_after k op s rc s1 s2 : put_post k op s rc s1 -> afterwards s1 s2 -> put_post k op s rc s2.
Proof.
  intros Hp (Hs & Hr & Hv). destruct Hp as [(H1 & H2 & H3)|(H1 & H2 & H3)]; [left|right].
  - split_and!; [done|congruence|by eapply stored_soft].
  - split_and!; [done|by eapply kept_softly|]. by rewrite (softly_abs s1 s2); [|apply H2|].
Qed.

Lemma put_post_kept k op s rc s' : put_post k op s rc s' -> kept s s'.
Proof. intros [(_ & _ & [H _])|(_ & H & _)]; done. Qed.

Lemma delivered_after op v hit s rc s1 s2 : delivered op v hit s rc s1 -> afterwards s1 s2 -> delivered op v hit s rc s2.
Proof.
  intros (H1 & H2 & H3 & H4 & H5) (Hs & Hr & Hv). split_and!.
  - by eapply softly_Inv.
  - etransitivity; [done|by apply soft_frame, Hs].
  - by rewrite (soft_num _ _ (proj1 Hs)).
  - by rewrite (softly_abs s1 s2).
  - by rewrite Hv, Hr.
Qed.

Lemma get_after k op s rc s1 s2 : get_post k op s rc s1 -> afterwards s1 s2 -> get_post k op s rc s2.
Proof.
  unfold get_post. intros Hg Ha. destruct (abs s !! _) as [v|]; [by eapply delivered_after|].
  pose proof Ha as (Hs & Hr & Hv). destruct Hg as [(H1 & H2 & H3)|(v & H1 & H2)]; [left|right].
  - split_and!; [by eapply kept_softly|done|]. by rewrite (softly_abs s1 s2); [|apply H1|].
  - exists v. split; [by eapply stored_soft|]. by rewrite Hv.
Qed.

Lemma get_post_inv k op s rc s' : get_post k op s rc s' -> kept s s'.
Proof.
  unfold get_post. destruct (abs s !! _) as [v|].
  - intros (H1 & H2 & H3 & _). split; [done|done|lia].
  - intros [(H & _)|(v & [H _] & _)]; done.
Qed.

End After.

Section Hypercall.
Context {B : Type} `{!Minf B, !MinfLaws B} (env : Env) (tol : fault -> Prop).
Implicit Types (s : gstate B) (p q : ptr) (e : mcd_hashT) (d : mcd_domain) (k : option Z) (h : Z) (v : list Z).

(** ** Parameters *)

(** A soft step that leaves the second tier and the answers alone. *)
Definition tuning s s' : Prop :=
  soft s s' /\ same_tier s s' /\ out_rvs s' = out_rvs s /\ out_val s' = out_val s.

Lemma tuning_trans s1 s2 s3 : tuning s1 s2 -> tuning s2 s3 -> tuning s1 s3.
Proof.
  intros (H1 & H2 & H3 & H4) (K1 & K2 & K3 & K4).
  split_and!; [by eapply soft_trans|by etransitivity|congruence..].
Qed.

Lemma tuning_softly s s' : Inv s -> tuning s s' -> softly s s'.
Proof. intros [_ Hc] (Hs & [H1 H2 H3] & _). split; [done|by apply (ctl_soft [] s)]. Qed.

Lemma NOW_tuning s : wp tol (NOW env) (fun _ s' => tuning s s') s.
Proof. unfold NOW. wp_steps. split_and!; [by apply soft_same|by split|done..]. Qed.

Lemma dom_update_tuning domid f s : domid ∈ domids s -> (forall d, dom_soft d (f d)) ->
  wp tol (dom_update (DomAt domid) f) (fun _ s' => tuning s s') s.
Proof.
  intros Hin Hf. apply wp_dom_update; [done|]. split_and!; [by apply soft_alter_dom|by split|done..].
Qed.

Lemma mcd_dom_params_reset_spec s : wp tol (mcd_dom_params_reset env) (fun _ s' => tuning s s') s.
Proof.
  unfold mcd_dom_params_reset. wp_steps.
  apply (wp_for_each _ _ (fun ks _ s' => tuning s s' /\ forall j, j ∈ ks -> j ∈ domids s)).
  - split; [|done]. split_and!; [apply soft_refl|by split|done..].
  - by intros _ s' [].
  - intros j ks _ s1 [Ht Hin]. destruct (j =? 0); wp_steps; [split; [done|set_solver]|].
    eapply wp_mono; [apply NOW_tuning|]. intros now s2 H2. wp_steps.
    assert (Hj : j ∈ domids s2).
    { rewrite (soft_domids _ _ (proj1 H2)), (soft_domids _ _ (proj1 Ht)). apply Hin. set_solver. }
    eapply wp_mono; [apply dom_update_tuning; [done|by intros d; split]|].
    intros u s3 H3. wp_steps. split; [|set_solver]. apply (tuning_trans s s1); [done|by apply (tuning_trans s1 s2)].
Qed.

(** The rows a flush of the current side leaves. *)
Definition flush_keeps (cm : Z) k : Prop :=
  if cm =? MCD_CACHE_MODE_SHARED then k <> None else spared k.
#[export] Instance flush_keeps_dec cm k : Decision (flush_keeps cm k).
Proof. unfold flush_keeps. destruct (_ =? _); apply _. Defined.

Record side_flushed s s' : Prop := {
  sf_managed : managed s s';
  sf_modes : modes s' = modes s;
  sf_abs : abs s' = filter (fun x => flush_keeps (cache_mode (cfg s)) x.1.1) (abs s);
}.

Lemma flush_side_spec s : Inv s -> (is_shared s = false -> dom0_clean s) ->
  wp tol (if cache_mode (cfg s) =? MCD_CACHE_MODE_SHARED then s_mcd_flush_all env else p_mcd_flush_all env)
    (fun _ s' => side_flushed s s') s.
Proof.
  intros HI H0. pose proof HI as [Hwf Hc]. unfold is_shared in H0.
  destruct (Z.eqb_spec (cache_mode (cfg s)) MCD_CACHE_MODE_SHARED) as [Hm|Hm].
  - unfold s_mcd_flush_all. wp_steps.
    eapply wp_mono; [apply (s_mcd_flush_spec env tol s); [done|apply Hc|by apply (ct_mode_shr _ _ Hc)]|].
    intros rc s' (_ & Hf & He). wp_steps. split.
    + apply frame_managed; [split; [apply Hf|by apply ctl_empty_ok]|apply Hf|apply (fd_num _ _ _ Hf)].
    + apply frame_same_modes, Hf.
    + rewrite (flushed_abs None s) by done. apply map_filter_ext. intros x v _. unfold flush_keeps. by rewrite Hm.
  - eapply wp_mono; [apply (p_mcd_flush_all_spec env tol s); [done|apply Hc|by apply ctl_known_hdrs|by apply H0|by apply (ct_mode_pri _ _ Hc)]|].
    intros u s' Hf. split.
    + apply frame_managed; [by apply (all_flushed_Inv s)|apply Hf|apply (af_num _ _ Hf)].
    + apply frame_same_modes, Hf.
    + rewrite (all_flushed_abs s) by done. apply map_filter_ext. intros x v _. unfold flush_keeps.
      by rewrite (proj2 (Z.eqb_neq _ _)) by done.
Qed.

(** What [set_param] does to the map. *)
Definition resets (which param : Z) : bool := (which =? 25) && (param =? 1).

Record param_set (which param : Z) s s' : Prop := {
  ps_managed : managed s s';
  ps_modes : modes s' = modes s;
  ps_abs : abs s' = if resets which param
                    then filter (fun x => flush_keeps (cache_mode (cfg s)) x.1.1) (abs s) else abs s;
}.

Lemma tuned_param which param s s' : resets which param = false -> Inv s -> tuned s s' -> modes s' = modes s ->
  param_set which param s s'.
Proof.
  intros Hr HI Ht Hm. split; [by apply tuned_managed|done|]. rewrite Hr. apply (tuned_view _ _ Ht).
Qed.

Lemma reset_spec s : Inv s -> (is_shared s = false -> dom0_clean s) ->
  wp tol (mcd_dom_params_reset env;;
          s ← get;
          (if cache_mode (cfg s) =? MCD_CACHE_MODE_SHARED then s_mcd_flush_all env else p_mcd_flush_all env);;
          mret (- ERR_NO))
    (fun _ s' => side_flushed s s') s.
Proof.
  intros HI H0. wp_steps. eapply wp_mono; [apply mcd_dom_params_reset_spec|]. intros u s1 Ht. wp_steps.
  pose proof (tuning_softly _ _ HI Ht) as Hs. pose proof (softly_Inv _ _ HI Hs) as HI1.
  pose proof (soft_frame _ _ (proj1 Hs)) as Hfr. pose proof (frame_same_modes _ _ Hfr) as Hm1.
  assert (Hcm : cache_mode (cfg s1) = cache_mode (cfg s)) by (unfold modes in Hm1; congruence).
  eapply wp_mono; [apply (flush_side_spec s1); [done|]|].
  { unfold is_shared, dom0_clean. rewrite Hcm, (sm_ctl _ _ (proj1 (proj2 Ht))). apply H0. }
  intros u' s2 [M2 Hm2 Ha2]. wp_steps. split; [|congruence|by rewrite Ha2, Hcm, (softly_abs s)].
  apply (managed_trans s s1); [by apply softly_managed|done].
Qed.

Lemma put_score_tuned which mode param s : Inv s -> tuned s (s <| sd ::= put_score which mode param |>).
Proof.
  intros [[_ _ _ Hc] _]. apply tuned_cfg; try done; [by intros _; split; apply Hc|..];
  cbn; unfold put_score; destruct (which =? 0), (mode =? 0), (mode =? 1); done.
Qed.

Lemma minf_keeps {A} (m : M B A) s : minf_req A m -> Inv s ->
  wp tol (minf m) (fun _ s' => softly s s' /\ out_rvs s' = out_rvs s /\ out_val s' = out_val s) s.
Proof.
  intros Hm [_ Hc]. eapply wp_mono; [by apply (minf_spec tol m [])|]. intros a s' (Hs & Hc' & _).
  split_and!; [split; [by apply sim_soft|done]|apply Hs..].
Qed.

Lemma softly_param which param s s' : resets which param = false -> Inv s -> softly s s' -> param_set which param s s'.
Proof.
  intros Hr HI Hs. split; [by apply softly_managed|apply frame_same_modes, soft_frame, Hs|].
  rewrite Hr. by apply softly_abs.
Qed.

Lemma set_param_spec which mode param s : Inv s ->
  (resets which param = true -> is_shared s = false -> dom0_clean s) ->
  wp tol (set_param env which mode param) (fun _ s' => param_set which param s s') s.
Proof.
  intros HI H0. pose proof (wf_cfg _ _ _ (proj1 HI)) as Hco. unfold set_param. apply wp_bind.
  eapply wp_mono with (Q := fun _ s' => param_set which param s s'); [|intros ret s' H; by wp_steps].
  assert (Hsame : resets which param = false -> param_set which param s s).
  { intros Hr. apply softly_param; [done..|by apply softly_refl]. }
  destruct (_ || _) eqn:E; wp_steps.
  { apply tuned_param; [|done|by apply put_score_tuned|done]. unfold resets.
    destruct (Z.eqb_spec which 25) as [->|]; [|done]. done. }
  destruct (Z.eqb_spec which 2) as [->|]; wp_steps.
  { apply tuned_param; [done..| |done]. apply tuned_cfg; try done. intros _. split; apply Hco. }
  unfold resets in *. destruct (Z.eqb_spec which 25) as [->|]; cbn [andb] in *; [|wp_steps; by apply Hsame].
  destruct (Z.eqb_spec param 1) as [->|]; wp_steps.
  { pose proof (reset_spec s HI (H0 eq_refl)) as Hr. apply wp_bind_inv in Hr.
    eapply wp_mono; [exact Hr|]. intros u s1 H1. wp_steps. apply wp_bind_inv in H1. wp_steps.
    eapply wp_mono; [apply wp_bind_inv in H1; exact H1|]. intros u' s2 [? ? ?]. wp_steps. by split. }
  destruct (Z.eqb_spec param 2) as [->|]; wp_steps.
  { apply tuned_param; [done..| |done]. apply tuned_cfg; try done. intros _. split; apply Hco. }
  destruct (Z.eqb_spec param 3) as [->|]; wp_steps; [|by apply Hsame].
  eapply wp_mono; [by apply (minf_keeps _ s (minf_increase_ok 1))|]. intros rc s' [Hs _].
  by apply softly_param.
Qed.

(** ** The memory figures *)

Lemma mcd_stat_get_spec op s : Inv s ->
  wp tol (mcd_stat_get env op) (fun rc s' => softly s s' /\
    (rc = - ERR_MCDFAULT /\ out_val s' = out_val s \/
     rc = - ERR_NO /\ exists tot free, out_val s' = Some (Fmt.dec tot ++ Fmt.str "," ++ Fmt.dec free) /\
       Z.of_nat (length (Fmt.dec tot ++ Fmt.str "," ++ Fmt.dec free)) <= op_val_size op)) s.
Proof.
  intros HI. unfold mcd_stat_get. wp_steps.
  eapply wp_mono; [apply get_tot_mem_size_spec, HI|]. intros tot s1 Hq1. pose proof (quiet_Inv _ _ HI Hq1) as HI1. wp_steps.
  eapply wp_mono; [apply get_free_mem_size_spec, HI1|]. intros free s2 Hq2. pose proof (quiet_Inv _ _ HI1 Hq2) as HI2. wp_steps.
  pose proof (quiet_trans _ _ _ Hq1 Hq2) as Hq. set (buf := Fmt.dec tot ++ _).
  destruct (Z.ltb_spec (op_val_size op) (Z.of_nat (length buf))); unfold copy_r_val_size, copy_val; wp_steps.
  - split; [by apply quiet_softly|left]. split; [done|]. apply (sim_val _ _ (proj1 Hq)).
  - split.
    + apply (softly_trans s s2); [by apply quiet_softly|]. apply softly_same_ctl; [by apply soft_same|done|done|apply HI2].
    + right. split; [done|]. by exists tot, free.
Qed.

(** ** The bookkeeping after the command *)

Lemma quiet_afterwards s s' : quiet s s' -> afterwards s s'.
Proof. intros Hq. split; [by apply quiet_softly|]. split; apply (proj1 Hq). Qed.

Lemma count_access_spec domid hit s : tol DivByZero -> Inv s -> domid ∈ domids s ->
  wp tol (count_access (Some domid) hit) (fun _ s' => afterwards s s') s.
Proof.
  intros Hdiv HI Hin. unfold count_access, md_ptr. wp_steps.
  eapply wp_mono; [apply dom_update_tuning; [done|]|].
  { intros d. by destruct hit; split. }
  intros u s1 H1. wp_steps.
  assert (Hin1 : domid ∈ domids s1) by (by rewrite (soft_domids _ _ (proj1 H1))).
  apply wp_dom_load; [done|]. intros d _ _ _. wp_steps.
  unfold div_or_trap at 1. destruct (_ =? 0); [done|]. wp_steps.
  eapply wp_mono; [apply dom_update_tuning; [done|by intros d'; split]|]. intros u' s2 H2.
  pose proof (tuning_trans _ _ _ H1 H2) as Ht. split; [by apply tuning_softly|apply Ht].
Qed.

Lemma other_works_spec {C} domid (cmd : mcd_cmd C) rc s : tol DivByZero -> Inv s -> domid ∈ domids s ->
  wp tol (other_works env (Some domid) cmd rc) (fun _ s' => afterwards s s') s.
Proof.
  intros Hdiv HI Hin. assert (Hr : afterwards s s) by (split; [by apply softly_refl|done]).
  assert (Hu : wp tol (dom_usage_update_all env) (fun _ s' => afterwards s s') s).
  { eapply wp_mono; [by apply dom_usage_update_all_spec|]. intros u s'. apply quiet_afterwards. }
  destruct cmd; cbn [other_works]; try done; by apply count_access_spec.
Qed.

(** ** The hypercall *)

(** A running domain with its client domain attached. *)
Record caller_ok (caller : Z) s : Prop := {
  cr_enabled : mcd_enabled_flag (cfg s) = true;
  cr_domain : exists x, xdoms s !! caller = Some x /\ xd_is_dying x = false /\ xd_mcd x = Some caller;
  cr_known : caller ∈ domids s;
}.

Lemma kept_caller caller s s' : caller_ok caller s -> kept s s' -> caller_ok caller s'.
Proof.
  intros [H1 H2 H3] [_ Hf _]. split; [by rewrite (fr_cfg _ _ Hf)|by rewrite (fr_xdoms _ _ Hf)|by rewrite (fr_domids _ _ Hf)].
Qed.

Section Op.
Context (Hmini : forall b : B, mcdctl_enabled b = true -> tol NullDeref).
Context (Hnow : forall n, env_now env n <> 0).
Context {C : Type} (mcdctl_op : C -> M (gstate B) Z) (Hdiv : tol DivByZero).
Implicit Types cmd : mcd_cmd C.

Lemma do_mcd_op_wp caller cmd (Q : Z * list write -> gstate B -> Prop) s : caller_ok caller s ->
  wp tol (dispatch env mcdctl_op (Some caller) cmd) (fun r s1 => Inv s1 /\ domids s1 = domids s /\
    forall s', afterwards s1 s' -> Q r s') s ->
  wp tol (do_mcd_op env mcdctl_op caller cmd) Q s.
Proof using All.
  intros [He (x & Hx & Hdy & Hmd) Hk] Hd. unfold do_mcd_op. wp_steps. rewrite He. cbn [negb].
  assert (Hmd' : xdoms s !! caller ≫= xd_mcd = Some caller) by (rewrite Hx; cbn; by rewrite Hmd).
  rewrite Hmd'. wp_steps. unfold mcd_dom_is_dying. wp_steps. apply wp_dom_load; [done|].
  intros d _ -> _. wp_steps. rewrite Hx. wp_steps. rewrite Hdy. wp_steps.
  eapply wp_mono; [exact Hd|]. intros r s1 (HI1 & Hdi & HQ). wp_steps.
  eapply wp_mono; [apply (other_works_spec caller cmd (fst r) s1); [done|done|by rewrite Hdi]|].
  intros u s' Ha. wp_steps. by apply HQ.
Qed.

(** Calls that come to nothing. *)
Lemma do_mcd_op_refused caller cmd s :
  (mcd_enabled_flag (cfg s) = false -> do_mcd_op env mcdctl_op caller cmd s = Ret (- ERR_NOMCD, []) s) /\
  (forall x d, mcd_enabled_flag (cfg s) = true -> xdoms s !! caller = Some x -> xd_mcd x = Some caller ->
     dom_of (doms s) caller = Some d -> xd_is_dying x = true ->
     do_mcd_op env mcdctl_op caller cmd s = Ret (- ERR_XENFAULT, []) s).
Proof.
  split.
  - intros He. unfold do_mcd_op, mbind, M_bind, get. by rewrite He.
  - intros x d He Hx Hmd Hd Hdy. unfold do_mcd_op, mbind, M_bind, get. cbn. rewrite He. cbn. rewrite Hx. cbn.
    rewrite Hmd. cbn. unfold mcd_dom_is_dying, dom_load, mbind, M_bind, get. rewrite Hd. cbn.
    destruct (dom_of_Some _ _ _ Hd) as [_ ->]. by rewrite Hx, Hdy.
Qed.

(** *** The cache operations on the table of the current mode *)

Definition table (caller : Z) s : option Z := if is_shared s then None else Some caller.

(** [put], the way a guest sees it. *)
Lemma cache_put_spec caller op s : caller_ok caller s -> Inv s -> mode_ok s -> (num s < env_fuel env)%nat ->
  put_arg_ok op ->
  wp tol (do_mcd_op env mcdctl_op caller (XENMCD_cache_put (Some op)))
    (fun r s' => put_post (table caller s) op s (fst r) s') s.
Proof using All.
  intros Hc HI Hmo Hf Ha. apply do_mcd_op_wp; [done|]. cbn [dispatch]. unfold mcd_put, mcd_get, mcd_remove. wp_steps.
  apply wp_mono with (Q := put_post (table caller s) op s).
  - apply sub_call_wp; unfold table; intros Hm; rewrite Hm.
    + apply p_mcd_put_spec; try done. apply Hc.
    + apply s_mcd_put_spec; try done. apply Hc.
  - intros rc s1 Hp. wp_steps. pose proof (put_post_kept _ _ _ _ _ Hp) as Hk.
    split_and!; [apply Hk|apply (fr_domids _ _ (kp_frame _ _ Hk))|]. intros s'. by apply put_after.
Qed.

Lemma cache_get_spec caller op s : tol OutOfBounds -> caller_ok caller s -> Inv s -> mode_ok s ->
  (num s < env_fuel env)%nat ->
  wp tol (do_mcd_op env mcdctl_op caller (XENMCD_cache_get (Some op)))
    (fun r s' => get_post (table caller s) op s (fst r) s') s.
Proof using All.
  intros Ho Hc HI Hmo Hf. apply do_mcd_op_wp; [done|]. cbn [dispatch]. unfold mcd_put, mcd_get, mcd_remove. wp_steps.
  apply wp_mono with (Q := get_post (table caller s) op s).
  - apply sub_call_wp; unfold table; intros Hm; rewrite Hm.
    + apply p_mcd_get_spec; try done. apply Hc.
    + apply s_mcd_get_spec; done.
  - intros rc s1 Hp. wp_steps. pose proof (get_post_inv _ _ _ _ _ Hp) as Hk.
    split_and!; [apply Hk|apply (fr_domids _ _ (kp_frame _ _ Hk))|]. intros s'. by apply get_after.
Qed.

(** [remove] deletes the row, and only that row. *)
Definition removed k h s (rc : Z) s' : Prop := rc = - ERR_NO /\ kept s s' /\ abs s' = delete (k, h) (abs s).

Lemma cache_remove_spec caller op s : caller_ok caller s -> Inv s ->
  wp tol (do_mcd_op env mcdctl_op caller (XENMCD_cache_remove (Some op)))
    (fun r s' => removed (table caller s) (key_hash op) s (fst r) s') s.
Proof using All.
  intros Hc HI. apply do_mcd_op_wp; [done|]. cbn [dispatch]. unfold mcd_put, mcd_get, mcd_remove. wp_steps.
  apply wp_mono with (Q := fun rc s' => rc = - ERR_NO /\ cleared (table caller s) (key_hash op) s s').
  - apply sub_call_wp; unfold table; intros Hm; rewrite Hm.
    + apply p_mcd_remove_spec; try done. apply Hc.
    + by apply s_mcd_remove_spec.
  - intros rc s1 [-> Hcl]. wp_steps. split_and!; [apply Hcl|apply (fr_domids _ _ (cl_frame _ _ _ _ Hcl))|].
    intros s' (Hs & _). pose proof (cleared_soft _ _ _ _ _ Hcl Hs) as Hcl'.
    split_and!; [done|by eapply cleared_kept|by apply cleared_abs].
Qed.

End Op.
End Hypercall.
