(* ===== verification/Reach.v ===== *)
(** The cache over its whole life: the hooks of the hypervisor
    (xen/common/domain.c, xen/common/memory.c) and the hypercalls as the steps
    of a transition system, the invariant of its reachable states, and the
    absence of other faults than the known ones. *)
From S2P Require Import Prelude CMonad Hash Types State Core Evict Inv Remove Evicted EvictShared EvictPart Alloc Create Ops View OpsLib OpsMake OpsSpec Flush Display Admin AdminSpec Lifecycle Hypercall.

(** ** Steps *)

Inductive event (C : Type) : Type :=
  | EvCall (caller : Z) (cmd : mcd_cmd C)
  | EvStart (domid max_pages tot_pages : Z)
  | EvKill (domid : Z)
  | EvPages (domid tot_pages : Z).
Arguments EvCall {C}.
Arguments EvStart {C}.
Arguments EvKill {C}.
Arguments EvPages {C}.

Section Step.
Context {B C : Type} `{!Minf B} (env : Env) (mcdctl_op : C -> M (gstate B) Z).

(** The end of [domain_create]. *)
Definition domain_create (domid max_pages tot_pages : Z) : M (gstate B) unit :=
  modify (fun s => s <| xdoms ::= <[domid := mk_xen_domain false None max_pages tot_pages]> |>);;
  mcd_domain_create env domid;;
  mret tt.

(** [domain_kill] of a running domain. *)
Definition domain_kill (domid : Z) : M (gstate B) unit :=
  modify (fun s => s <| xdoms ::= alter (fun x => x <| xd_is_dying := true |>) domid |>);;
  mcd_destroy env (Some domid).

(** The end of the memory hypercalls, after the pages were counted. *)
Definition memory_op (domid tot_pages : Z) : M (gstate B) unit :=
  modify (fun s => s <| xdoms ::= alter (fun x => x <| xd_tot_pages := tot_pages |>) domid |>);;
  mcd_mem_upt_trap (Some domid).

Definition do_event (ev : event C) : M (gstate B) unit :=
  match ev with
  | EvCall caller cmd => do_mcd_op env mcdctl_op caller cmd;; mret tt
  | EvStart domid max_pages tot_pages => domain_create domid max_pages tot_pages
  | EvKill domid => domain_kill domid
  | EvPages domid tot_pages => memory_op domid tot_pages
  end.

Fixpoint run (evs : list (event C)) : M (gstate B) unit :=
  match evs with
  | [] => mret tt
  | ev :: evs => do_event ev;; run evs
  end.
End Step.

Section Safe.
Context {B : Type} `{!Minf B, !MinfLaws B} (env : Env) (tol : fault -> Prop).
Context (Hmini : forall b : B, mcdctl_enabled b = true -> tol NullDeref).
Context (Hnow : forall n, env_now env n <> 0) (Hdiv : tol DivByZero) (Hoob : tol OutOfBounds).
Context {C : Type} (mcdctl_op : C -> M (gstate B) Z).
Implicit Types (s : gstate B) (cmd : mcd_cmd C).

(** The configurations in which eviction terminates, as a set of modes. *)
Definition mode_fine (m : Z * Z * Z) : Prop :=
  let '(c, r, p) := m in
  c = MCD_CACHE_MODE_SHARED \/ p <> MCD_PARTITION_MODE_WB \/ r <> MCD_REPLACE_MODE_LFRU.

Lemma mode_fine_ok s : mode_fine (modes s) <-> mode_ok s.
Proof using. done. Qed.

(** What a well-behaved guest or toolstack asks for. *)
Definition cmd_ok cmd s : Prop :=
  match cmd with
  | XENMCD_cache_put (Some op) => put_arg_ok op
  | XENMCD_cache_check (Some op) | XENMCD_cache_getsize (Some op) => arg_ok op
  | XENMCD_display_stats (Some (_, _, len)) => 0 <= len < 2 ^ 32
  | XENMCD_memsize (Some _) => covers 0 s
  | XENMCD_weight (Some (domid, _)) => u16 domid ∈ domids s
  | XENMCD_cache_mode (Some (which, mode)) =>
      0 <= mode /\ mode_fine (target_mode which mode s) /\
      ((target_mode which mode s).1.1 = MCD_CACHE_MODE_SHARED -> is_shared s = false -> dom0_clean s)
  | XENMCD_param (Some (which, _, param)) => resets which param = true -> is_shared s = false -> dom0_clean s
  | XENMCD_mcdctl_op _ => False
  | _ => True
  end.

(** What every command keeps. *)
Record sane s s' : Prop := {
  sa_inv : Inv s';
  sa_mode : mode_ok s';
  sa_domids : domids s' = domids s;
  sa_xdoms : xdoms s' = xdoms s;
  sa_enabled : mcd_enabled_flag (cfg s') = mcd_enabled_flag (cfg s);
  sa_num : (num s' <= S (num s))%nat;
}.

Lemma kept_sane s s' : mode_ok s -> kept s s' -> sane s s'.
Proof using Type.
  intros Hm [HI Hf Hn]. split; try apply Hf; try done; [by apply (frame_modes s s')|].
  by rewrite (fr_cfg _ _ Hf).
Qed.

Lemma managed_sane s s' : managed s s' -> mode_ok s' -> sane s s'.
Proof using. intros [] Hm. split; try done. lia. Qed.

Lemma sane_softly s s1 s2 : sane s s1 -> softly s1 s2 -> sane s s2.
Proof using Type.
  intros [H1 H2 H3 H4 H5 H6] Hs. pose proof (soft_frame _ _ (proj1 Hs)) as Hf. split.
  - by eapply softly_Inv.
  - by apply (frame_modes s1 s2).
  - by rewrite (fr_domids _ _ Hf).
  - by rewrite (fr_xdoms _ _ Hf).
  - by rewrite (fr_cfg _ _ Hf).
  - by rewrite (soft_num _ _ (proj1 Hs)).
Qed.

Lemma softly_sane s s' : Inv s -> mode_ok s -> softly s s' -> sane s s'.
Proof using. intros HI Hm Hs. apply kept_sane; [done|by apply softly_kept]. Qed.

Lemma check_post_kept k op m d s rc s' : check_post k op m d s rc s' -> kept s s'.
Proof using. unfold check_post. destruct (abs s !! _); intros H; apply H. Qed.

(** The cache operations, whatever the mode. *)
Lemma sub_call_sane (p_fn s_fn : option Z -> mcd_arg -> M (gstate B) Z) caller (op : option mcd_arg) s :
  Inv s -> mode_ok s ->
  (forall o, op = Some o -> is_shared s = false -> wp tol (p_fn (Some caller) o) (fun _ => sane s) s) ->
  (forall o, op = Some o -> is_shared s = true -> wp tol (s_fn (Some caller) o) (fun _ => sane s) s) ->
  wp tol (mcd_sub_call p_fn s_fn (Some caller) op) (fun _ => sane s) s.
Proof using Type.
  intros HI Hm Hp Hs. destruct op as [o|]; [by apply sub_call_wp; auto|].
  cbn. wp_steps. apply softly_sane; [done..|by apply softly_refl].
Qed.

Lemma flush_sane k s s' : mode_ok s -> flushed k s s' -> ctl_ok s' -> sane s s'.
Proof using Type.
  intros Hm Hf Hc. apply kept_sane; [done|]. split; [split; [apply Hf|done]|apply Hf|].
  pose proof (fd_num _ _ _ Hf). lia.
Qed.

Lemma check_sane caller op s : Inv s -> mode_ok s -> (num s < env_fuel env)%nat -> caller ∈ domids s ->
  (forall o, op = Some o -> arg_ok o) ->
  wp tol (mcd_sub_call (p_mcd_check env) (s_mcd_check env) (Some caller) op) (fun _ => sane s) s.
Proof using Hmini Hnow.
  intros HI Hm Hf Hin Ha. apply sub_call_sane; [done..| |]; intros o -> Hsh.
  - eapply wp_mono; [apply (p_mcd_check_spec env tol Hmini Hnow); auto|].
    intros rc s' H. by eapply kept_sane, check_post_kept.
  - eapply wp_mono; [apply (s_mcd_check_spec env tol Hmini Hnow); auto|].
    intros rc s' H. by eapply kept_sane, check_post_kept.
Qed.

Lemma dispatch_sane caller cmd s : Inv s -> mode_ok s -> (num s < env_fuel env)%nat -> caller ∈ domids s ->
  cmd_ok cmd s -> wp tol (dispatch env mcdctl_op (Some caller) cmd) (fun _ => sane s) s.
Proof using All.
  intros HI Hm Hf Hin Hok. assert (Hid : sane s s) by (by apply softly_sane; [..|apply softly_refl]).
  assert (Hplain : forall (m : M (gstate B) Z), wp tol m (fun _ => sane s) s ->
    wp tol (rc ← m; mret (rc, [] : list write)) (fun _ => sane s) s).
  { intros m Hw. wp_steps. eapply wp_mono; [exact Hw|]. intros rc s' H. by wp_steps. }
  assert (Htext : forall (m : M (gstate B) (list write)), wp tol m (fun _ => sane s) s ->
    wp tol (w ← m; mret (- ERR_NO, w)) (fun _ => sane s) s).
  { intros m Hw. wp_steps. eapply wp_mono; [exact Hw|]. intros rc s' H. by wp_steps. }
  unfold dispatch, mcd_memsize, mcd_weight, mcd_cache_mode, mcd_param, text, mcd_get, mcd_put, mcd_remove, mcd_check, mcd_flush.
  destruct cmd as [op|[op|]|op|op|op|op|op|[[[domid opt] len]|]|[msz|]|[[domid w]|]|[[which mode]|]|[[[which mode] param]|]|c| |];
    cbn [cmd_ok] in *; try done; try apply Hplain; try apply Htext.
  - apply sub_call_sane; [done..| |]; intros o -> Hsh.
    + eapply wp_mono; [by apply (p_mcd_get_spec env tol Hmini Hnow)|]. intros rc s' H. by eapply kept_sane, get_post_inv.
    + eapply wp_mono; [by apply (s_mcd_get_spec env tol Hmini Hnow)|]. intros rc s' H. by eapply kept_sane, get_post_inv.
  - eapply wp_mono; [by apply mcd_stat_get_spec|]. intros rc s' [H _]. by apply softly_sane.
  - apply sub_call_sane; [done..| |]; intros o -> Hsh.
    + eapply wp_mono; [by apply (p_mcd_put_spec env tol Hmini Hnow)|]. intros rc s' H. by eapply kept_sane, put_post_kept.
    + eapply wp_mono; [by apply (s_mcd_put_spec env tol Hmini Hnow)|]. intros rc s' H. by eapply kept_sane, put_post_kept.
  - apply sub_call_sane; [done..| |]; intros o -> Hsh.
    + eapply wp_mono; [by apply (p_mcd_remove_spec env tol Hmini)|]. intros rc s' [_ H]. by eapply kept_sane, cleared_kept.
    + eapply wp_mono; [by apply (s_mcd_remove_spec env tol Hmini)|]. intros rc s' [_ H]. by eapply kept_sane, cleared_kept.
  - apply check_sane; try done. intros o ->. done.
  - apply check_sane; try done. intros o ->. done.
  - apply sub_call_sane; [done..| |]; intros o -> Hsh.
    + eapply wp_mono; [apply (p_mcd_flush_spec env tol caller s); [apply HI|apply HI|done]|].
      intros rc s' (_ & Hfl & s1 & Hsm & Hms & _). pose proof (flushed_Inv _ _ _ _ HI Hsm Hfl Hms) as [_ ?].
      by apply (flush_sane (Some caller)).
    + eapply wp_mono; [apply (s_mcd_flush_spec env tol s); [apply HI|apply HI|]|].
      { apply (ct_mode_shr _ _ (proj2 HI)). by apply Z.eqb_eq. }
      intros rc s' (_ & Hfl & He). apply (flush_sane None); [done..|by apply ctl_empty_ok].
  - unfold mcd_display. eapply wp_mono; [by apply display_stats_spec|].
    intros ws s' [Hq _]. apply softly_sane; [done..|by apply quiet_softly].
  - eapply wp_mono; [by apply (set_memsize_spec env tol Hmini Hnow)|].
    intros ws s' H. apply managed_sane; [apply H|]. eapply modes_ok; [apply H|done].
  - eapply wp_mono; [by apply set_weight_spec|].
    intros ws s' (H1 & _ & H2 & _). apply managed_sane; [done|]. by eapply modes_ok.
  - destruct Hok as (H1 & H2 & H3). eapply wp_mono; [by apply set_cache_mode_spec|].
    intros ws s' H. apply managed_sane; [apply H|]. apply (proj1 (mode_fine_ok _)). by rewrite (mt_modes _ _ _ _ H).
  - eapply wp_mono; [by apply set_param_spec|].
    intros ws s' H. apply managed_sane; [apply H|]. eapply modes_ok; [apply H|done].
Qed.

(** [check], the way a guest sees it. *)
Lemma check_after k op mem ssd s rc s1 s2 :
  check_post k op mem ssd s rc s1 -> afterwards s1 s2 -> check_post k op mem ssd s rc s2.
Proof using Type.
  unfold check_post. intros Hp (Hs & Hr & _). destruct (abs s !! _) as [v|].
  - destruct Hp as (H1 & H2 & H3 & H4). split_and!; [done|by rewrite Hr|by eapply kept_softly|].
    by rewrite (softly_abs s1 s2); [|apply H3|].
  - destruct Hp as (H1 & H2 & H3). split_and!; [done|by eapply kept_softly|]. by rewrite (softly_abs s1 s2); [|apply H2|].
Qed.

(** The shared table answers [-ERR_NO] to every check. *)
Definition check_answers (k : option Z) : Z * Z := match k with None => (- ERR_NO, - ERR_NO) | Some _ => (RET_GET_MEM, RET_GET_SSD) end.

Lemma cache_check_spec caller op s : caller_ok caller s -> Inv s -> mode_ok s -> (num s < env_fuel env)%nat ->
  arg_ok op ->
  wp tol (do_mcd_op env mcdctl_op caller (XENMCD_cache_check (Some op)))
    (fun r s' => let k := table caller s in check_post k op (check_answers k).1 (check_answers k).2 s (fst r) s') s.
Proof using Hmini Hnow Hdiv.
  intros Hc HI Hm Hf Ha. apply do_mcd_op_wp; [done..|]. cbn [dispatch]. unfold mcd_check. wp_steps.
  apply wp_mono with (Q := let k := table caller s in check_post k op (check_answers k).1 (check_answers k).2 s).
  - apply sub_call_wp; unfold table; intros Hs; rewrite Hs.
    + apply (p_mcd_check_spec env tol Hmini Hnow); try done. apply Hc.
    + eapply (s_mcd_check_spec env tol Hmini Hnow); try done. apply Hc.
  - intros rc s1 Hp. wp_steps. pose proof (check_post_kept _ _ _ _ _ _ _ Hp) as Hk.
    split_and!; [apply Hk|apply (fr_domids _ _ (kp_frame _ _ Hk))|]. intros s'. by apply check_after.
Qed.

(** [flush] empties the table of the mode. *)
Lemma cache_flush_spec caller op s : caller_ok caller s -> Inv s ->
  wp tol (do_mcd_op env mcdctl_op caller (XENMCD_cache_flush (Some op)))
    (fun r s' => fst r = - ERR_NO /\ kept s s' /\ abs s' = filter (fun x => x.1.1 <> table caller s) (abs s)) s.
Proof using Hmini Hnow Hdiv.
  intros Hc HI. apply do_mcd_op_wp; [done..|]. cbn [dispatch]. unfold mcd_flush. wp_steps.
  apply wp_mono with (Q := fun rc s' => rc = - ERR_NO /\ flushed (table caller s) s s' /\ ctl_ok s').
  - apply sub_call_wp; unfold table; intros Hs; rewrite Hs.
    + eapply wp_mono; [apply (p_mcd_flush_spec env tol caller s); [apply HI|apply HI|apply Hc]|].
      intros rc s' (-> & Hfl & s1 & Hsm & Hms & _). split_and!; [done..|]. by apply (flushed_Inv _ _ _ _ HI Hsm Hfl Hms).
    + eapply wp_mono; [apply (s_mcd_flush_spec env tol s); [apply HI|apply HI|]|].
      { apply (ct_mode_shr _ _ (proj2 HI)). by apply Z.eqb_eq. }
      intros rc s' (-> & Hfl & He). split_and!; [done..|by apply ctl_empty_ok].
  - intros rc s1 (-> & Hfl & Hct). wp_steps.
    assert (Hk : kept s s1) by (pose proof (fd_num _ _ _ Hfl); split; [split; [apply Hfl|done]|apply Hfl|lia]).
    split_and!; [apply Hk|apply (fr_domids _ _ (kp_frame _ _ Hk))|]. intros s' (Hs & _).
    split_and!; [done|by eapply kept_softly|]. rewrite (softly_abs s1 s'); [|apply Hk|done]. by apply flushed_abs; [apply HI|].
Qed.

Lemma do_mcd_op_sane caller cmd s : caller_ok caller s -> Inv s -> mode_ok s -> (num s < env_fuel env)%nat ->
  cmd_ok cmd s -> wp tol (do_mcd_op env mcdctl_op caller cmd) (fun _ => sane s) s.
Proof using All.
  intros Hc HI Hm Hf Hok. apply do_mcd_op_wp; [done..|].
  eapply wp_mono; [apply dispatch_sane; try done; apply Hc|].
  intros r s1 Hs1. split_and!; [apply Hs1|apply Hs1|]. intros s' (Hs & _). by apply (sane_softly s s1 s').
Qed.
End Safe.

(** ** Reachable states *)

Section Reach.
Context {B : Type} `{!Minf B, !MinfLaws B} (env : Env) (tol : fault -> Prop).
Context (Hmini : forall b : B, mcdctl_enabled b = true -> tol NullDeref).
Context (Hnow : forall n, env_now env n <> 0) (Hdiv : tol DivByZero) (Hoob : tol OutOfBounds).
Context {C : Type} (mcdctl_op : C -> M (gstate B) Z).
Implicit Types (s : gstate B) (ev : event C).

(** The invariant of the whole: a running domain with a client domain has its
    own one, and the cache knows it. *)
Record hv_ok s : Prop := {
  hv_inv : Inv s;
  hv_mode : mode_ok s;
  hv_enabled : mcd_enabled_flag (cfg s) = true;
  hv_attached : forall domid x domid', xdoms s !! domid = Some x -> xd_is_dying x = false ->
    xd_mcd x = Some domid' -> domid' = domid /\ domid ∈ domids s;
}.

Definition running domid s : Prop :=
  exists x, xdoms s !! domid = Some x /\ xd_is_dying x = false /\ xd_mcd x = Some domid.

Definition event_ok ev s : Prop :=
  match ev with
  | EvCall caller cmd => running caller s /\ cmd_ok cmd s
  | EvStart domid _ _ => (domid ∉ domids s) /\ covers domid s
  | EvKill domid => running domid s /\ no_orphans domid s
  | EvPages domid _ => running domid s
  end.

Lemma hv_caller s domid : hv_ok s -> running domid s -> caller_ok domid s.
Proof.
  intros [_ _ He Ha] (x & Hx & Hdy & Hmd). split; [done|by exists x|]. by destruct (Ha _ _ _ Hx Hdy Hmd).
Qed.

Definition goes s s' : Prop := hv_ok s' /\ (num s' <= S (num s))%nat.

Lemma goes_call caller cmd s : hv_ok s -> (num s < env_fuel env)%nat -> running caller s -> cmd_ok cmd s ->
  wp tol (do_event env mcdctl_op (EvCall caller cmd)) (fun _ => goes s) s.
Proof using All.
  intros Hv Hf Hr Hok. cbn [do_event]. wp_steps.
  eapply wp_mono; [apply (do_mcd_op_sane env tol Hmini Hnow Hdiv Hoob); try done; [by apply hv_caller|apply Hv..]|].
  intros r s' [H1 H2 H3 H4 H5 H6]. wp_steps. split; [|done]. split; try done.
  - rewrite H5. apply Hv.
  - intros domid x domid'. rewrite H4, H3. apply Hv.
Qed.

Lemma goes_start domid maxp totp s : hv_ok s -> (num s < env_fuel env)%nat -> (domid ∉ domids s) -> covers domid s ->
  wp tol (do_event env mcdctl_op (EvStart domid maxp totp)) (fun _ => goes s) s.
Proof using All.
  intros [HI Hm He Ha] Hf Hn Hc. cbn [do_event]. unfold domain_create. wp_steps. set (s1 := s <| xdoms ::= _ |>).
  assert (HI1 : Inv s1) by apply (attached_Inv (xdoms s1) s HI).
  set (x := mk_xen_domain false None maxp totp).
  assert (Hx1 : xdoms s1 !! domid = Some x) by apply lookup_insert_eq.
  assert (Hold : forall k x' k', xdoms s1 !! k = Some x' -> xd_is_dying x' = false -> xd_mcd x' = Some k' ->
    k' = k /\ k ∈ domids s).
  { intros k x' k' Hk. destruct (decide (k = domid)) as [->|Hne].
    - rewrite Hx1 in Hk. injection Hk as <-. by intros _ [=].
    - cbn in Hk. rewrite lookup_insert_ne in Hk by done. by apply Ha. }
  eapply wp_mono; [apply (mcd_domain_create_spec env tol Hmini Hnow domid s1 x); try done|].
  intros rc s' Hpost. wp_steps.
  destruct Hpost as [(_ & [G1 G2 G3 G4 Ge G5 G6])|(_ & [G1 G2 G3 G4 G5] & G6 & _)].
  - split; [|change (num s1) with (num s) in G6; lia]. split; [done|by eapply modes_ok|by rewrite Ge|].
    intros k x' k'. rewrite G3, G2. unfold attach. destruct (decide (k = domid)) as [->|Hne].
    + rewrite lookup_alter_eq, Hx1. intros [= <-] _ [= <-]. split; [done|]. set_solver.
    + rewrite lookup_alter_ne by done. intros H1 H2 H3. destruct (Hold _ _ _ H1 H2 H3). set_solver.
  - split; [|change (num s1) with (num s) in G4; lia]. split; [done|by eapply modes_ok|by rewrite G5|].
    intros k x' k'. rewrite G3, G2. apply Hold.
Qed.

Lemma goes_kill domid s : hv_ok s -> running domid s -> no_orphans domid s ->
  wp tol (do_event env mcdctl_op (EvKill domid)) (fun _ => goes s) s.
Proof using All.
  intros [HI Hm He Ha] (x & Hx & Hdy & Hmd) Ho. destruct (Ha _ _ _ Hx Hdy Hmd) as [_ Hin].
  cbn [do_event]. unfold domain_kill. wp_steps. set (s1 := s <| xdoms ::= _ |>).
  assert (HI1 : Inv s1) by apply (attached_Inv (xdoms s1) s HI).
  eapply wp_mono; [apply (mcd_destroy_spec env tol domid s1 (x <| xd_is_dying := true |>)); try done|].
  - cbn. by rewrite lookup_alter_eq, Hx.
  - by destruct Ho.
  - intros u s' [G1 G2 G3 G4 Ge G5 G6]. split; [|change (num s1) with (num s) in G6; lia].
    split; [done|by eapply modes_ok|by rewrite Ge|].
    intros k x' k'. rewrite G3, G2. cbn. destruct (decide (k = domid)) as [->|Hne].
    + rewrite lookup_alter_eq, Hx. cbn. intros [= <-]. done.
    + rewrite lookup_alter_ne by done. intros H1 H2 H3. destruct (Ha _ _ _ H1 H2 H3). split; [done|].
      by apply list_elem_of_filter.
Qed.

Lemma goes_pages domid totp s : hv_ok s -> running domid s ->
  wp tol (do_event env mcdctl_op (EvPages domid totp)) (fun _ => goes s) s.
Proof using All.
  intros [HI Hm He Ha] (x & Hx & Hdy & Hmd). destruct (Ha _ _ _ Hx Hdy Hmd) as [_ Hin].
  cbn [do_event]. unfold memory_op, mcd_mem_upt_trap. wp_steps. set (s1 := s <| xdoms ::= _ |>).
  assert (HI1 : Inv s1) by apply (attached_Inv (xdoms s1) s HI).
  assert (Hx1 : xdoms s1 !! domid = Some (x <| xd_tot_pages := totp |>)) by (cbn; by rewrite lookup_alter_eq, Hx).
  cbn [mbind option_bind]. rewrite Hx1. unfold md_ptr.
  change (xd_mcd (x <| xd_tot_pages := totp |>)) with (xd_mcd x). rewrite Hmd. wp_steps.
  eapply wp_mono; [apply dom_update_tuning; [done|by intros d; split]|]. intros u s2 Ht.
  pose proof (tuning_softly _ _ HI1 Ht) as Hs. pose proof (soft_frame _ _ (proj1 Hs)) as Hf. split.
  - split; [by apply (softly_Inv s1)|by apply (frame_modes s1)|by rewrite (fr_cfg _ _ Hf)|].
    intros k x' k'. rewrite (fr_xdoms _ _ Hf), (fr_domids _ _ Hf). cbn. destruct (decide (k = domid)) as [->|Hne].
    + rewrite lookup_alter_eq, Hx. cbn. intros [= <-] _. cbn. rewrite Hmd. by intros [= <-].
    + rewrite lookup_alter_ne by done. apply Ha.
  - rewrite (soft_num _ _ (proj1 Hs)). change (num s1) with (num s). lia.
Qed.

(** One admissible step. *)
Lemma do_event_goes ev s : hv_ok s -> (num s < env_fuel env)%nat -> event_ok ev s ->
  wp tol (do_event env mcdctl_op ev) (fun _ => goes s) s.
Proof using All.
  intros Hv Hf Hok. destruct ev; cbn [event_ok] in Hok.
  - destruct Hok. by apply goes_call.
  - destruct Hok. by apply goes_start.
  - destruct Hok. by apply goes_kill.
  - by apply goes_pages.
Qed.

(** [reach n s]: [s] is reached from the state [init_mcd] leaves by [n]
    admissible steps. *)
Inductive reach (xd : gmap Z xen_domain) : nat -> gstate B -> Prop :=
  | reach_boot b s : minf_inv b -> init_mcd true (static_state xd b) = Ret (- ERR_NO) s -> reach xd 0 s
  | reach_step n s ev s' : reach xd n s -> event_ok ev s -> do_event env mcdctl_op ev s = Ret tt s' ->
      reach xd (S n) s'.

Lemma reach_ok xd n s : (forall domid x, xd !! domid = Some x -> xd_mcd x = None) -> (n <= env_fuel env)%nat ->
  reach xd n s -> hv_ok s /\ (num s <= n)%nat.
Proof using All.
  intros Hxd Hn Hr. induction Hr as [b s Hb Hboot|n s ev s' Hr IH Hok Hev].
  - pose proof (init_mcd_spec no_fault xd b Hb) as Hw. unfold wp in Hw. rewrite Hboot in Hw.
    destruct Hw as (_ & [H1 H2 H3 H4 H5 H6 H7] & Hx). split; [|lia]. split; [done| |done|].
    + left. by injection H6.
    + intros k x k'. rewrite Hx. intros Hk _. by rewrite (Hxd _ _ Hk).
  - destruct IH as [Hv Hnum]; [lia|]. pose proof (do_event_goes ev s Hv ltac:(lia) Hok) as Hw.
    unfold wp in Hw. rewrite Hev in Hw. destruct Hw. split; [done|lia].
Qed.

End Reach.
