(* ===== verification/Demo.v ===== *)
(** Concrete runs: a small machine without a daemon, its state after two
    domains were created and a few values were stored, and the facts about
    these states that instantiate the theorems. *)
From S2P Require Import Prelude CMonad Hash Types State Core Evict Inv Remove Evicted EvictShared EvictPart Alloc Create Ops View OpsLib OpsMake OpsSpec Flush Display Admin AdminSpec Lifecycle Hypercall Reach.

Import NoDaemon.

Definition env0 : Env := {|
  env_now := fun n => 1000000 * (1 + Z.of_nat n);
  env_xmalloc := fun _ _ => true;
  env_avail_pages := fun _ => 3000;
  env_garbage := fun _ _ => 0;
  env_fuel := 64;
  sizeof_mcd_hashT := 96;
  sizeof_mcd_domain := 200;
|}.

Definition known : fault -> Prop := fun f => f = DivByZero \/ f = OutOfBounds.

Lemma env0_now n : env_now env0 n <> 0.
Proof. cbn. lia. Qed.
Lemma no_mini (b : unit) : mcdctl_enabled b = true -> known NullDeref.
Proof. done. Qed.

(** No toolstack. *)
Definition no_ctl : Empty_set -> M (gstate unit) Z := fun c => match c with end.

Definition outcome_state {A} (o : outcome (gstate unit) A) : gstate unit :=
  match o with Ret _ s => s | _ => static_state ∅ tt end.
Definition after {A} (m : M (gstate unit) A) (s : gstate unit) : gstate unit := outcome_state (m s).

Definition boot0 : gstate unit := Eval vm_compute in after (init_mcd true) (static_state ∅ tt).
Definition two_doms : list (event Empty_set) := [EvStart 0 (2 ^ 32 - 1) 1000; EvStart 1 1024 512].
Definition demo : gstate unit := Eval vm_compute in after (run env0 no_ctl two_doms) boot0.

(** The key [abc] with the value [hello]. *)
Definition key_abc : list Z := [97; 98; 99].
Definition op_hello : mcd_arg := mk_arg 0 3 5 key_abc [104; 101; 108; 108; 111].
Definition put_hello : event Empty_set := EvCall 1 (XENMCD_cache_put (Some op_hello)).
Definition demo_put : gstate unit := Eval vm_compute in after (run env0 no_ctl [put_hello]) demo.
Definition to_private : event Empty_set := EvCall 0 (XENMCD_cache_mode (Some (2, MCD_PARTITION_MODE_AD))).
Definition demo_ad : gstate unit := Eval vm_compute in after (run env0 no_ctl [to_private]) demo.
Definition demo_ad_put : gstate unit := Eval vm_compute in after (run env0 no_ctl [put_hello]) demo_ad.

(** *** The invariant holds in these states *)

Lemma demo_step (ev : event Empty_set) s s' : hv_ok s -> (num s < 64)%nat -> event_ok ev s ->
  do_event env0 no_ctl ev s = Ret tt s' -> hv_ok s' /\ (num s' <= S (num s))%nat.
Proof.
  intros Hv Hf Hok Hs.
  pose proof (do_event_goes env0 known no_mini env0_now (or_introl eq_refl) (or_intror eq_refl) no_ctl ev s Hv Hf Hok) as Hw.
  unfold wp in Hw. by rewrite Hs in Hw.
Qed.

Lemma demo_covers domid (s : gstate unit) : cache_mode (cfg s) = MCD_CACHE_MODE_SHARED -> covers domid s.
Proof. intros H. by right; left. Qed.

Lemma boot0_booted : booted boot0.
Proof.
  pose proof (init_mcd_spec known ∅ tt I) as Hw. unfold wp in Hw.
  replace (init_mcd true (static_state ∅ tt)) with (Ret (- ERR_NO) boot0 : outcome (gstate unit) Z) in Hw
    by (vm_compute; reflexivity).
  apply Hw.
Qed.

Lemma boot0_ok : hv_ok boot0.
Proof.
  destruct boot0_booted as [H1 H2 H3 H4 H5 H6 H7]. split; [done|by left|done|].
  intros k x k' Hk. by vm_compute in Hk.
Qed.

Definition demo_dom0 : gstate unit :=
  Eval vm_compute in after (do_event env0 no_ctl (EvStart 0 (2 ^ 32 - 1) 1000)) boot0.

Lemma demo_dom0_ok : hv_ok demo_dom0.
Proof.
  apply (demo_step (EvStart 0 (2 ^ 32 - 1) 1000) boot0); [apply boot0_ok|by vm_compute; lia| |by vm_compute].
  split; [|by apply demo_covers]. apply not_elem_of_nil.
Qed.

Lemma demo_ok : hv_ok demo.
Proof.
  apply (demo_step (EvStart 1 1024 512) demo_dom0); [apply demo_dom0_ok|by vm_compute; lia| |by vm_compute].
  split; [|by apply demo_covers]. cbn. set_solver.
Qed.

Lemma running_1 (s : gstate unit) : xdoms s = xdoms demo -> running 1 s.
Proof. intros H. unfold running. rewrite H. eexists. split; [by vm_compute|done]. Qed.

Lemma running_0 (s : gstate unit) : xdoms s = xdoms demo -> running 0 s.
Proof. intros H. unfold running. rewrite H. eexists. split; [by vm_compute|done]. Qed.

Lemma op_hello_ok : put_arg_ok op_hello.
Proof. split; [split|]; cbn; unfold urange; lia. Qed.

Lemma demo_put_ok : hv_ok demo_put.
Proof.
  apply (demo_step put_hello demo); [apply demo_ok|vm_compute; lia| |by vm_compute].
  split; [by apply running_1|apply op_hello_ok].
Qed.

Lemma demo_ad_ok : hv_ok demo_ad.
Proof.
  apply (demo_step to_private demo); [apply demo_ok|vm_compute; lia| |by vm_compute].
  split; [by apply running_0|]. cbn. split_and!; [done| |done]. right; left. done.
Qed.

Lemma demo_ad_put_ok : hv_ok demo_ad_put.
Proof.
  apply (demo_step put_hello demo_ad); [apply demo_ad_ok|vm_compute; lia| |by vm_compute].
  split; [by apply running_1|apply op_hello_ok].
Qed.
