(* ===== verification/Ring.v ===== *)
(** The shared producer-consumer ring of xen/include/public/io/ring.h: the
    macros on the indices, which run free modulo 2^32 and are masked on each
    access, and the two FIFO queues they implement. *)
From S2P Require Import Prelude.

(** * The size of a ring *)

Definition RD2 (x : Z) : Z := if negb (Z.land x 0x2 =? 0) then 0x2 else Z.land x 0x1.
Definition RD4 (x : Z) : Z :=
  if negb (Z.land x 0xc =? 0) then Z.shiftl (RD2 (Z.shiftr x 2)) 2 else RD2 x.
Definition RD8 (x : Z) : Z :=
  if negb (Z.land x 0xf0 =? 0) then Z.shiftl (RD4 (Z.shiftr x 4)) 4 else RD4 x.
Definition RD16 (x : Z) : Z :=
  if negb (Z.land x 0xff00 =? 0) then Z.shiftl (RD8 (Z.shiftr x 8)) 8 else RD8 x.
Definition RD32 (x : Z) : Z :=
  if negb (Z.land x 0xffff0000 =? 0) then Z.shiftl (RD16 (Z.shiftr x 16)) 16 else RD16 x.

(** [offsetof(sring, ring)]: four indices, four bytes private to the user of
    the ring and 44 bytes of padding. *)
Definition sring_header : Z := 4 * 4 + 4 + 44.

Definition RING_SIZE_OF (size entry : Z) : Z := RD32 ((size - sring_header) / entry).

(** One level of the macros: with [f] right below [2^k], the test of the
    upper half makes it right below [2^(2k)]. *)
Lemma rd_level k (f : Z -> Z) x : 0 < k ->
  (forall y, 0 < y < 2 ^ k -> f y = 2 ^ Z.log2 y) -> 0 < x < 2 ^ (2 * k) ->
  (if negb (Z.land x (Z.shiftl (Z.ones k) k) =? 0) then Z.shiftl (f (Z.shiftr x k)) k else f x)
  = 2 ^ Z.log2 x.
Proof.
  intros Hk Hf Hx.
  assert (Hland : Z.land x (Z.shiftl (Z.ones k) k) = Z.shiftl (Z.shiftr x k) k).
  { apply Z.bits_inj'. intros n Hn. rewrite Z.land_spec.
    destruct (Z.lt_ge_cases n k) as [Hnk|Hnk].
    - rewrite !Z.shiftl_spec_low by lia. by rewrite andb_false_r.
    - rewrite !Z.shiftl_spec, Z.shiftr_spec by lia. replace (n - k + k) with n by lia.
      destruct (Z.lt_ge_cases (n - k) k).
      + rewrite Z.ones_spec_low by lia. by rewrite andb_true_r.
      + rewrite Z.ones_spec_high, andb_false_r by lia. symmetry.
        apply Z.bits_above_log2; [lia|]. destruct Hx as [Hx Hx'].
        apply Z.log2_lt_pow2 in Hx'; lia. }
  rewrite Hland, Z.shiftl_mul_pow2, Z.shiftr_div_pow2 by lia.
  assert (Hp : 0 < 2 ^ k) by lia.
  destruct (Z.lt_ge_cases x (2 ^ k)) as [Hlt|Hge].
  - rewrite Z.div_small by lia. cbn [Z.mul Z.eqb negb]. apply Hf. lia.
  - assert (0 < x / 2 ^ k) by (apply Z.div_str_pos; lia).
    destruct (Z.eqb_spec (x / 2 ^ k * 2 ^ k) 0); [nia|]. cbn [negb].
    rewrite Z.shiftl_mul_pow2 by lia. rewrite Hf.
    + rewrite <- Z.pow_add_r by (try apply Z.log2_nonneg; lia). f_equal.
      rewrite <- Z.shiftr_div_pow2 by lia. rewrite Z.log2_shiftr by lia.
      assert (k <= Z.log2 x) by (apply Z.log2_le_pow2; lia). lia.
    + split; [done|]. apply Z.div_lt_upper_bound; [done|].
      rewrite <- Z.pow_add_r by lia. replace (k + k) with (2 * k) by lia. lia.
Qed.

(** [RD32] rounds down to a power of two. *)
Lemma RD32_spec x : 0 < x < 2 ^ 32 -> RD32 x = 2 ^ Z.log2 x.
Proof.
  assert (H2 : forall y, 0 < y < 2 ^ 2 -> RD2 y = 2 ^ Z.log2 y).
  { intros y Hy. assert (y = 1 \/ y = 2 \/ y = 3) as [->|[-> | ->]] by lia; done. }
  assert (H4 : forall y, 0 < y < 2 ^ 4 -> RD4 y = 2 ^ Z.log2 y) by (intros; by apply (rd_level 2)).
  assert (H8 : forall y, 0 < y < 2 ^ 8 -> RD8 y = 2 ^ Z.log2 y) by (intros; by apply (rd_level 4)).
  assert (H16 : forall y, 0 < y < 2 ^ 16 -> RD16 y = 2 ^ Z.log2 y) by (intros; by apply (rd_level 8)).
  intros; by apply (rd_level 16).
Qed.

(** * The ring and its two ends

    The slots hold a union of a request and a response, of one type [A] here
    because the users of the ring in this program use one structure for both. *)

Record sring {A : Type} := mk_sring {
  req_prod : Z;
  req_event : Z;
  rsp_prod : Z;
  rsp_event : Z;
  ring : list A;
}.
Arguments sring A : clear implicits.
#[export] Instance eta_sring A : Eta (sring A) := fun r =>
  mk_sring _ (req_prod r) (req_event r) (rsp_prod r) (rsp_event r) (ring r).

Record front_ring := mk_front { req_prod_pvt : Z; rsp_cons : Z; front_nr_ents : Z }.
#[export] Instance eta_front_ring : Eta front_ring := fun r =>
  mk_front (req_prod_pvt r) (rsp_cons r) (front_nr_ents r).

Record back_ring := mk_back { rsp_prod_pvt : Z; req_cons : Z; back_nr_ents : Z }.
#[export] Instance eta_back_ring : Eta back_ring := fun r =>
  mk_back (rsp_prod_pvt r) (req_cons r) (back_nr_ents r).

Section Macros.
Context {A : Type}.
Implicit Types (s : sring A) (f : front_ring) (b : back_ring).

Definition SHARED_RING_INIT s : sring A :=
  s <| req_prod := 0 |> <| rsp_prod := 0 |> <| req_event := 1 |> <| rsp_event := 1 |>.

Definition FRONT_RING_INIT (size entry : Z) : front_ring := mk_front 0 0 (RING_SIZE_OF size entry).
Definition BACK_RING_INIT (size entry : Z) : back_ring := mk_back 0 0 (RING_SIZE_OF size entry).

(** Attaching to a ring in use, for recovery. *)
Definition FRONT_RING_ATTACH s (size entry : Z) : front_ring :=
  mk_front (req_prod s) (rsp_prod s) (RING_SIZE_OF size entry).
Definition BACK_RING_ATTACH s (size entry : Z) : back_ring :=
  mk_back (rsp_prod s) (req_prod s) (RING_SIZE_OF size entry).

Definition RING_FREE_REQUESTS f : Z :=
  u32 (front_nr_ents f - u32 (req_prod_pvt f - rsp_cons f)).
Definition RING_FULL f : bool := RING_FREE_REQUESTS f =? 0.

Definition RING_HAS_UNCONSUMED_RESPONSES s f : Z := u32 (rsp_prod s - rsp_cons f).
Definition RING_HAS_UNCONSUMED_REQUESTS s b : Z :=
  let req := u32 (req_prod s - req_cons b) in
  let rsp := u32 (back_nr_ents b - u32 (req_cons b - rsp_prod_pvt b)) in
  if req <? rsp then req else rsp.

(** The slot an index selects, and the entry in it. *)
Definition slot (nr idx : Z) : nat := Z.to_nat (Z.land idx (u32 (nr - 1))).
Definition RING_GET_REQUEST s (nr idx : Z) : option A := ring s !! slot nr idx.
Definition RING_GET_RESPONSE s (nr idx : Z) : option A := ring s !! slot nr idx.
Definition ring_store s (nr idx : Z) (x : A) : sring A := s <| ring ::= <[slot nr idx := x]> |>.

Definition RING_REQUEST_CONS_OVERFLOW b (cons : Z) : bool :=
  back_nr_ents b <=? u32 (cons - rsp_prod_pvt b).

Definition RING_PUSH_REQUESTS s f : sring A := s <| req_prod := req_prod_pvt f |>.
Definition RING_PUSH_RESPONSES s b : sring A := s <| rsp_prod := rsp_prod_pvt b |>.

Definition RING_PUSH_REQUESTS_AND_CHECK_NOTIFY s f : sring A * bool :=
  let old := req_prod s in
  let new := req_prod_pvt f in
  (s <| req_prod := new |>, u32 (new - req_event s) <? u32 (new - old)).
Definition RING_PUSH_RESPONSES_AND_CHECK_NOTIFY s b : sring A * bool :=
  let old := rsp_prod s in
  let new := rsp_prod_pvt b in
  (s <| rsp_prod := new |>, u32 (new - rsp_event s) <? u32 (new - old)).

Definition RING_FINAL_CHECK_FOR_REQUESTS s b : sring A * Z :=
  let work := RING_HAS_UNCONSUMED_REQUESTS s b in
  if negb (work =? 0) then (s, work)
  else
    let s := s <| req_event := u32 (req_cons b + 1) |> in
    (s, RING_HAS_UNCONSUMED_REQUESTS s b).
Definition RING_FINAL_CHECK_FOR_RESPONSES s f : sring A * Z :=
  let work := RING_HAS_UNCONSUMED_RESPONSES s f in
  if negb (work =? 0) then (s, work)
  else
    let s := s <| rsp_event := u32 (rsp_cons f + 1) |> in
    (s, RING_HAS_UNCONSUMED_RESPONSES s f).

(** What the users of the ring do with the macros: the four transfers. *)

Definition front_put (x : A) s f : sring A * front_ring :=
  let prod := req_prod_pvt f in
  let s := ring_store s (front_nr_ents f) prod x in
  let f := f <| req_prod_pvt := u32 (prod + 1) |> in
  (RING_PUSH_REQUESTS s f, f).

Definition front_get s f : option A * sring A * front_ring :=
  let cons := rsp_cons f in
  (RING_GET_RESPONSE s (front_nr_ents f) cons,
   s <| rsp_event := u32 (u32 (cons + 1) + 1) |>, f <| rsp_cons := u32 (cons + 1) |>).

Definition back_get s b : option A * sring A * back_ring :=
  let cons := req_cons b in
  (RING_GET_REQUEST s (back_nr_ents b) cons,
   s <| req_event := u32 (u32 (cons + 1) + 1) |>, b <| req_cons := u32 (cons + 1) |>).

Definition back_put (x : A) s b : sring A * back_ring :=
  let prod := rsp_prod_pvt b in
  let s := ring_store s (back_nr_ents b) prod x in
  let b := b <| rsp_prod_pvt := u32 (prod + 1) |> in
  (RING_PUSH_RESPONSES s b, b).
End Macros.

(** * The two queues

    The abstract ring: requests on their way to the back end, responses on
    their way to the front end, and the number of requests the back end took
    and has not answered. A slot is in use from its request to the moment the
    front end takes the response that reuses it. *)

Record queues {A : Type} := mk_queues { q_reqs : list A; q_rsps : list A; q_busy : nat }.
Arguments queues A : clear implicits.
Arguments mk_queues {A}.

Definition q_used {A} (q : queues A) : Z :=
  Z.of_nat (length (q_reqs q)) + Z.of_nat (length (q_rsps q)) + Z.of_nat (q_busy q).

Section Windows.
Context {A : Type} (k : Z) (Hk : 0 <= k <= 32).
Implicit Types (l : list A) (i j : Z) (x : A).

Abbreviation n := (2 ^ k).

Lemma slot_mod i : slot n (u32 i) = Z.to_nat (i mod n).
Proof using Hk.
  unfold slot. f_equal. unfold wrap.
  rewrite (Z.mod_small (n - 1)) by (pose proof (Z.pow_le_mono_r 2 k 32); lia).
  replace (n - 1) with (Z.ones k) by (rewrite Z.ones_equiv; lia).
  rewrite Z.land_ones by lia. apply Z.mod_mod_divide.
  exists (2 ^ (32 - k)). rewrite <- Z.pow_add_r by lia. f_equal. lia.
Qed.

Lemma slot_lt i : (slot n (u32 i) < Z.to_nat n)%nat.
Proof using Hk.
  rewrite slot_mod. pose proof (Z.mod_pos_bound i n). lia.
Qed.

Lemma slot_inj i j : slot n (u32 i) = slot n (u32 j) -> Z.abs (i - j) < n -> i = j.
Proof using Hk.
  rewrite !slot_mod. intros He Hd.
  pose proof (Z.mod_pos_bound i n ltac:(lia)). pose proof (Z.mod_pos_bound j n ltac:(lia)).
  assert (Hm : i mod n = j mod n) by lia.
  pose proof (Z.div_mod i n ltac:(lia)). pose proof (Z.div_mod j n ltac:(lia)).
  assert (Hij : i - j = n * (i / n - j / n)) by lia. rewrite Hij in Hd.
  destruct (Z.eq_dec (i / n - j / n) 0) as [Hz|Hz]; [rewrite Hz in Hij; lia|].
  rewrite Z.abs_mul in Hd. assert (1 <= Z.abs (i / n - j / n)) by lia. nia.
Qed.

(** The slots from index [i] on hold [l]. *)
Definition window (r : list A) i l : Prop :=
  forall m x, l !! m = Some x -> r !! slot n (u32 (i + Z.of_nat m)) = Some x.

Lemma window_insert r i l j x : window r i l ->
  (forall m, (m < length l)%nat -> i + Z.of_nat m <> j /\ Z.abs (i + Z.of_nat m - j) < n) ->
  window (<[slot n (u32 j) := x]> r) i l.
Proof using Hk.
  intros Hw Hd m y Hy. rewrite list_lookup_insert_ne; [by apply Hw|].
  intros He. apply lookup_lt_Some in Hy. destruct (Hd m Hy) as [Hne Ha].
  apply slot_inj in He; lia.
Qed.

Lemma window_snoc r i l x : (Z.to_nat n <= length r)%nat -> window r i l ->
  Z.of_nat (length l) < n ->
  window (<[slot n (u32 (i + Z.of_nat (length l))) := x]> r) i (l ++ [x]).
Proof using Hk.
  intros Hr Hw Hl m y Hy. apply lookup_app_Some in Hy as [Hy|[Hm Hy]].
  - eapply window_insert; [done| |done]. lia.
  - apply list_lookup_singleton_Some in Hy as [Hm' <-].
    replace m with (length l) by lia. apply list_lookup_insert_eq.
    pose proof (slot_lt (i + Z.of_nat (length l))). lia.
Qed.

Lemma window_head r i x l : window r i (x :: l) -> r !! slot n (u32 i) = Some x.
Proof using. intros Hw. specialize (Hw O x eq_refl). by rewrite Z.add_0_r in Hw. Qed.

Lemma window_tail r i x l : window r i (x :: l) -> window r (i + 1) l.
Proof using.
  intros Hw m y Hy. specialize (Hw (S m) y Hy).
  by replace (i + 1 + Z.of_nat m) with (i + Z.of_nat (S m)) by lia.
Qed.

(** * The representation

    [c] counts the responses taken since the ring was set up, without
    wrapping; the other indices follow from the lengths of the queues. *)

Record ring_rep (c : Z) (s : sring A) (f : front_ring) (b : back_ring) (q : queues A) : Prop := {
  rr_c : 0 <= c;
  rr_nf : front_nr_ents f = n;
  rr_nb : back_nr_ents b = n;
  rr_len : (Z.to_nat n <= length (ring s))%nat;
  rr_used : q_used q <= n;
  rr_rsp_cons : rsp_cons f = u32 c;
  rr_rsp_prod : rsp_prod s = u32 (c + Z.of_nat (length (q_rsps q)));
  rr_rsp_pvt : rsp_prod_pvt b = rsp_prod s;
  rr_req_cons : req_cons b = u32 (c + Z.of_nat (length (q_rsps q)) + Z.of_nat (q_busy q));
  rr_req_prod : req_prod s = u32 (c + q_used q);
  rr_req_pvt : req_prod_pvt f = req_prod s;
  rr_rsps : window (ring s) c (q_rsps q);
  rr_reqs : window (ring s) (c + Z.of_nat (length (q_rsps q)) + Z.of_nat (q_busy q)) (q_reqs q);
}.

Definition ring_rel s f b q : Prop := exists c, ring_rep c s f b q.

Lemma u32_diff a b : 0 <= a - b < 2 ^ 32 -> u32 (u32 a - u32 b) = a - b.
Proof using.
  intros H. autorewrite with wrapdb. by apply wrap_id.
Qed.

Lemma u32_succ a : u32 (u32 a + 1) = u32 (a + 1).
Proof using. by rewrite wrap_add_l. Qed.

Lemma ring_init_rel s : k < 32 -> (Z.to_nat n <= length (ring s))%nat ->
  ring_rel (SHARED_RING_INIT s) (mk_front 0 0 n) (mk_back 0 0 n) (mk_queues [] [] 0).
Proof using Hk.
  intros Hk' Hl. exists 0. split; try done; [unfold q_used; cbn; lia|by intros m x H..].
Qed.

Lemma free_requests_rel s f b q : k < 32 -> ring_rel s f b q ->
  RING_FREE_REQUESTS f = n - q_used q.
Proof using Hk.
  intros Hk' [c []]. unfold RING_FREE_REQUESTS.
  assert (n <= 2 ^ 31) by (apply Z.pow_le_mono_r; lia).
  rewrite rr_req_pvt0, rr_rsp_cons0, rr_req_prod0, rr_nf0.
  assert (0 <= q_used q) by (unfold q_used; lia).
  rewrite (u32_diff (c + q_used q) c) by lia. rewrite wrap_id by (unfold urange; lia). lia.
Qed.

Lemma unconsumed_requests_rel s f b q : k < 32 -> ring_rel s f b q ->
  RING_HAS_UNCONSUMED_REQUESTS s b = Z.of_nat (length (q_reqs q)).
Proof using Hk.
  intros Hk' [c []]. unfold RING_HAS_UNCONSUMED_REQUESTS.
  assert (n <= 2 ^ 31) by (apply Z.pow_le_mono_r; lia).
  rewrite rr_rsp_pvt0, rr_req_cons0, rr_req_prod0, rr_rsp_prod0, rr_nb0.
  unfold q_used in *. rewrite !u32_diff by lia. rewrite wrap_id by (unfold urange; lia).
  destruct (Z.ltb_spec (c + (Z.of_nat (length (q_reqs q)) + Z.of_nat (length (q_rsps q)) +
    Z.of_nat (q_busy q)) - (c + Z.of_nat (length (q_rsps q)) + Z.of_nat (q_busy q)))
    (n - (c + Z.of_nat (length (q_rsps q)) + Z.of_nat (q_busy q) - (c + Z.of_nat (length (q_rsps q)))))); lia.
Qed.

Lemma unconsumed_responses_rel s f b q : ring_rel s f b q -> k < 32 ->
  RING_HAS_UNCONSUMED_RESPONSES s f = Z.of_nat (length (q_rsps q)).
Proof using Hk.
  intros [c []] Hk'. unfold RING_HAS_UNCONSUMED_RESPONSES.
  assert (n <= 2 ^ 31) by (apply Z.pow_le_mono_r; lia).
  rewrite rr_rsp_prod0, rr_rsp_cons0. unfold q_used in *. rewrite u32_diff by lia. lia.
Qed.

Lemma front_put_rel x s f b q : ring_rel s f b q -> q_used q < n ->
  let '(s', f') := front_put x s f in
  ring_rel s' f' b (mk_queues (q_reqs q ++ [x]) (q_rsps q) (q_busy q)).
Proof using Hk.
  intros [c []] Hu. cbn. exists c.
  rewrite rr_req_pvt0, rr_req_prod0, rr_nf0, u32_succ in *.
  unfold q_used in *. split; cbn; rewrite ?length_app, ?length_insert; cbn; try done; try lia.
  - unfold q_used. cbn. rewrite length_app. cbn. lia.
  - f_equal. unfold q_used. cbn. rewrite length_app. cbn. lia.
  - apply window_insert; [done|]. intros m Hm. lia.
  - replace (c + _) with (c + Z.of_nat (length (q_rsps q)) + Z.of_nat (q_busy q) + Z.of_nat (length (q_reqs q))) by lia.
    apply window_snoc; [done..|lia].
Qed.

Lemma back_get_rel x reqs s f b q : ring_rel s f b q -> q_reqs q = x :: reqs ->
  let '(y, s', b') := back_get s b in
  y = Some x /\ ring_rel s' f b' (mk_queues reqs (q_rsps q) (S (q_busy q))).
Proof using Hk.
  intros [c []] Hq. cbn. rewrite Hq in *. unfold RING_GET_REQUEST. rewrite rr_req_cons0, rr_nb0.
  split; [by eapply window_head|]. exists c. rewrite ?u32_succ. unfold q_used in *. rewrite Hq in *. cbn in *.
  split; cbn; rewrite ?u32_succ; try done; try (unfold q_used; cbn; lia); try (f_equal; unfold q_used; cbn; lia).
  - rewrite rr_req_prod0. f_equal. unfold q_used. cbn. lia.
  - apply window_tail in rr_reqs0.
    by replace (c + Z.of_nat (length (q_rsps q)) + Z.of_nat (S (q_busy q)))
      with (c + Z.of_nat (length (q_rsps q)) + Z.of_nat (q_busy q) + 1) by lia.
Qed.

Lemma back_put_rel x m s f b q : ring_rel s f b q -> q_busy q = S m ->
  let '(s', b') := back_put x s b in
  ring_rel s' f b' (mk_queues (q_reqs q) (q_rsps q ++ [x]) m).
Proof using Hk.
  intros [c []] Hq. cbn. exists c. rewrite rr_rsp_pvt0, rr_rsp_prod0, rr_nb0, u32_succ in *.
  unfold q_used in *. rewrite Hq in *.
  split; cbn; rewrite ?length_app, ?length_insert; cbn; try done; try lia;
    try (unfold q_used; cbn; rewrite ?length_app; cbn; lia);
    try (f_equal; unfold q_used; cbn; rewrite ?length_app; cbn; lia).
  - rewrite rr_req_cons0. f_equal. lia.
  - rewrite rr_req_prod0. f_equal. unfold q_used. cbn. rewrite length_app. cbn. lia.
  - apply window_snoc; [done..|lia].
  - replace (c + Z.of_nat (length (q_rsps q) + 1) + Z.of_nat m)
      with (c + Z.of_nat (length (q_rsps q)) + Z.of_nat (S m)) by lia.
    apply window_insert; [done|]. intros j Hj. lia.
Qed.

Lemma front_get_rel x rsps s f b q : ring_rel s f b q -> q_rsps q = x :: rsps ->
  let '(y, s', f') := front_get s f in
  y = Some x /\ ring_rel s' f' b (mk_queues (q_reqs q) rsps (q_busy q)).
Proof using Hk.
  intros [c []] Hq. cbn. rewrite Hq in *. unfold RING_GET_RESPONSE. rewrite rr_rsp_cons0, rr_nf0.
  split; [by eapply window_head|]. exists (c + 1). rewrite ?u32_succ. unfold q_used in *. rewrite Hq in *. cbn in *.
  split; cbn; rewrite ?u32_succ; try done; try (unfold q_used; cbn; lia); try (f_equal; unfold q_used; cbn; lia).
  - rewrite rr_rsp_prod0. f_equal. lia.
  - rewrite rr_req_cons0. f_equal. lia.
  - rewrite rr_req_prod0. f_equal. unfold q_used. cbn. lia.
  - by apply window_tail in rr_rsps0.
  - by replace (c + 1 + Z.of_nat (length rsps) + Z.of_nat (q_busy q))
      with (c + Z.of_nat (S (length rsps)) + Z.of_nat (q_busy q)) by lia.
Qed.
End Windows.

(** * Programs of transfers

    A sequence of transfers run on the ring, and the same sequence run on the
    queues, which refuse a transfer the protocol does not allow: a request
    when all slots are in use, taking from an empty queue, a response nobody
    waits for. *)

Inductive ring_op {A : Type} :=
  | PutRequest (x : A) | TakeRequest | PutResponse (x : A) | TakeResponse | FreeRequests | PendingRequests.
Arguments ring_op A : clear implicits.

Inductive ring_ans {A : Type} := Done | Entry (x : option A) | Count (z : Z).
Arguments ring_ans A : clear implicits.

Record ring_sys {A : Type} := mk_ring_sys { rs_s : sring A; rs_f : front_ring; rs_b : back_ring }.
Arguments ring_sys A : clear implicits.
Arguments mk_ring_sys {A}.

Section Programs.
Context {A : Type}.
Implicit Types (op : ring_op A) (r : ring_sys A) (q : queues A).

Definition do_ring op r : ring_ans A * ring_sys A :=
  match op with
  | PutRequest x => let '(s, f) := front_put x (rs_s r) (rs_f r) in (Done, mk_ring_sys s f (rs_b r))
  | TakeRequest => let '(x, s, b) := back_get (rs_s r) (rs_b r) in (Entry x, mk_ring_sys s (rs_f r) b)
  | PutResponse x => let '(s, b) := back_put x (rs_s r) (rs_b r) in (Done, mk_ring_sys s (rs_f r) b)
  | TakeResponse => let '(x, s, f) := front_get (rs_s r) (rs_f r) in (Entry x, mk_ring_sys s f (rs_b r))
  | FreeRequests => (Count (RING_FREE_REQUESTS (rs_f r)), r)
  | PendingRequests => (Count (RING_HAS_UNCONSUMED_REQUESTS (rs_s r) (rs_b r)), r)
  end.

Definition do_queues (size : Z) op q : option (ring_ans A * queues A) :=
  match op with
  | PutRequest x =>
      if q_used q <? size then Some (Done, mk_queues (q_reqs q ++ [x]) (q_rsps q) (q_busy q)) else None
  | TakeRequest =>
      match q_reqs q with
      | x :: l => Some (Entry (Some x), mk_queues l (q_rsps q) (S (q_busy q)))
      | [] => None
      end
  | PutResponse x =>
      match q_busy q with
      | S m => Some (Done, mk_queues (q_reqs q) (q_rsps q ++ [x]) m)
      | O => None
      end
  | TakeResponse =>
      match q_rsps q with
      | x :: l => Some (Entry (Some x), mk_queues (q_reqs q) l (q_busy q))
      | [] => None
      end
  | FreeRequests => Some (Count (size - q_used q), q)
  | PendingRequests => Some (Count (Z.of_nat (length (q_reqs q))), q)
  end.

Fixpoint run_ring (ops : list (ring_op A)) r : list (ring_ans A) * ring_sys A :=
  match ops with
  | [] => ([], r)
  | op :: ops => let '(a, r) := do_ring op r in let '(l, r) := run_ring ops r in (a :: l, r)
  end.

Fixpoint run_queues (size : Z) (ops : list (ring_op A)) q : option (list (ring_ans A) * queues A) :=
  match ops with
  | [] => Some ([], q)
  | op :: ops =>
      '(a, q) ← do_queues size op q;
      '(l, q) ← run_queues size ops q;
      Some (a :: l, q)
  end.

Definition sys_rel (k : Z) r q : Prop := ring_rel k (rs_s r) (rs_f r) (rs_b r) q.

Lemma do_ring_simulates k op r q a q' : 0 <= k < 32 -> sys_rel k r q ->
  do_queues (2 ^ k) op q = Some (a, q') ->
  exists r', do_ring op r = (a, r') /\ sys_rel k r' q'.
Proof.
  unfold sys_rel. intros Hk Hr Hq. destruct op as [x| |x| | |]; cbn [do_queues do_ring] in *.
  - destruct (Z.ltb_spec (q_used q) (2 ^ k)); [|done]. simplify_eq.
    pose proof (front_put_rel k ltac:(lia) x _ _ _ q Hr ltac:(done)) as H'.
    destruct (front_put x (rs_s r) (rs_f r)) as [s f]. by eexists.
  - destruct (q_reqs q) as [|x l] eqn:He; [done|]. simplify_eq.
    pose proof (back_get_rel k ltac:(lia) x l _ _ _ q Hr He) as H'.
    destruct (back_get (rs_s r) (rs_b r)) as [[y s] b]. destruct H' as [-> H']. by eexists.
  - destruct (q_busy q) as [|m] eqn:He; [done|]. simplify_eq.
    pose proof (back_put_rel k ltac:(lia) x m _ _ _ q Hr He) as H'.
    destruct (back_put x (rs_s r) (rs_b r)) as [s b]. by eexists.
  - destruct (q_rsps q) as [|x l] eqn:He; [done|]. simplify_eq.
    pose proof (front_get_rel k ltac:(lia) x l _ _ _ q Hr He) as H'.
    destruct (front_get (rs_s r) (rs_f r)) as [[y s] f]. destruct H' as [-> H']. by eexists.
  - simplify_eq. exists r. by rewrite (free_requests_rel k ltac:(lia) _ _ _ _ ltac:(lia) Hr).
  - simplify_eq. exists r. by rewrite (unconsumed_requests_rel k ltac:(lia) _ _ _ _ ltac:(lia) Hr).
Qed.

Lemma run_ring_simulates k ops : forall r q answers q', 0 <= k < 32 -> sys_rel k r q ->
  run_queues (2 ^ k) ops q = Some (answers, q') ->
  exists r', run_ring ops r = (answers, r') /\ sys_rel k r' q'.
Proof.
  induction ops as [|op ops IH]; intros r q answers q' Hk Hr Hq; cbn [run_queues run_ring] in *.
  - simplify_eq. by exists r.
  - destruct (do_queues (2 ^ k) op q) as [[a q1]|] eqn:Ho; [|done]. cbn in Hq.
    destruct (run_queues (2 ^ k) ops q1) as [[l q2]|] eqn:Hrun; [|done]. cbn in Hq. simplify_eq.
    destruct (do_ring_simulates k op r q a q1 Hk Hr Ho) as (r1 & -> & Hr1).
    destruct (IH r1 q1 l q' Hk Hr1 Hrun) as (r2 & -> & Hr2). by exists r2.
Qed.
End Programs.
