(* ===== verification/FileOps.v ===== *)
(** The files of the daemon (tools/mcd/file_ops.c): the system calls it makes,
    on a file system with directories, inodes and open files, and the
    operations built on them. *)
From S2P Require Import Prelude CMonad Types.

(** * The operating system

    A path is the list of its components. An open file is an inode and an
    offset, and survives the removal of its name. [io_ok] says whether the
    n-th system call or allocation is granted at all, [io_count] how many of
    the bytes asked for a read or a write transfers, [io_errno] the error
    number it leaves. *)

Abbreviation path := (list (list Z)).

Inductive node : Type := FDir | FFile (ino : Z).
#[export] Instance node_eq_dec : EqDecision node.
Proof. solve_decision. Defined.

Record OsEnv := mk_os_env {
  io_ok : nat -> bool;
  io_count : nat -> nat -> nat;
  io_errno : nat -> Z;
}.

Record os := mk_os {
  fs : gmap path node;
  inodes : gmap Z (list Z);
  fds : gmap Z (Z * Z);
  next_ino : Z;
  os_tick : nat;
}.
#[export] Instance eta_os : Eta os := fun r =>
  mk_os (fs r) (inodes r) (fds r) (next_ino r) (os_tick r).

Definition parent (p : path) : path := take (length p - 1) p.

(** The name under which [k] is an entry of the directory [p]. *)
Definition entry_of (p k : path) : option (list Z) :=
  if decide (take (length p) k = p /\ length k = S (length p)) then last k else None.

Definition dir_entries (m : gmap path node) (p : path) : list (list Z) :=
  omap (entry_of p) (map_to_list m).*1.

(** The longest path of the file system, a bound on the depth of a walk. *)
Definition depth (m : gmap path node) : nat := foldr (fun k n => max (length k) n) O (map_to_list m).*1.

(** Storing [bytes] at offset [o] of [data]; a gap reads as zeros. *)
Definition splice (o : nat) (bytes data : list Z) : list Z :=
  take o (data ++ replicate (o - length data) 0) ++ bytes ++ drop (o + length bytes) data.

Section Calls.
Context (oe : OsEnv).
Abbreviation U := (M os).

Definition tick_os : U nat :=
  s ← get;
  modify (fun s => s <| os_tick ::= S |>);;
  mret (os_tick s).

Definition granted : U bool := n ← tick_os; mret (io_ok oe n).
Definition errno : U Z := n ← tick_os; mret (io_errno oe n).

Definition stat (p : path) : U (option node) := gets (fun s => fs s !! p).

Definition mkdir (p : path) : U Z :=
  ok ← granted;
  s ← get;
  if ok && bool_decide (fs s !! parent p = Some FDir) && bool_decide (fs s !! p = None) && negb (bool_decide (p = []))
  then modify (fun s => s <| fs ::= <[p := FDir]> |>);; mret 0
  else mret (-1).

Definition rmdir (p : path) : U Z :=
  ok ← granted;
  s ← get;
  if ok && bool_decide (fs s !! p = Some FDir) && bool_decide (dir_entries (fs s) p = [])
  then modify (fun s => s <| fs ::= delete p |>);; mret 0
  else mret (-1).

Definition unlink (p : path) : U Z :=
  ok ← granted;
  s ← get;
  match fs s !! p with
  | Some (FFile _) => if (ok : bool) then modify (fun s => s <| fs ::= delete p |>);; mret 0 else mret (-1)
  | _ => mret (-1)
  end.

(** The lowest descriptor not in use, above the three standard ones. *)
Definition new_fd (m : gmap Z (Z * Z)) : Z :=
  default (3 + Z.of_nat (size m)) (list_find (fun fd => m !! fd = None) (seqZ 3 (Z.of_nat (S (size m)))) ≫= fun r => Some (snd r)).

(** [open] with [O_CREAT | O_TRUNC | O_RDWR]. *)
Definition open_trunc (p : path) : U Z :=
  ok ← granted;
  s ← get;
  let fd := new_fd (fds s) in
  match fs s !! p with
  | Some FDir => mret (-1)
  | Some (FFile ino) =>
      if (ok : bool) then
        modify (fun s => s <| inodes ::= <[ino := []]> |> <| fds ::= <[fd := (ino, 0)]> |>);;
        mret fd
      else mret (-1)
  | None =>
      if ok && bool_decide (fs s !! parent p = Some FDir) then
        let ino := next_ino s in
        modify (fun s => s <| fs ::= <[p := FFile ino]> |> <| inodes ::= <[ino := []]> |>
                           <| fds ::= <[fd := (ino, 0)]> |> <| next_ino ::= Z.succ |>);;
        mret fd
      else mret (-1)
  end.

Definition close (fd : Z) : U unit := modify (fun s => s <| fds ::= delete fd |>).

Definition lseek (fd off : Z) : U Z :=
  s ← get;
  match fds s !! fd with
  | Some (ino, _) => modify (fun s => s <| fds ::= <[fd := (ino, off)]> |>);; mret off
  | None => mret (-1)
  end.

(** [read] gives the bytes it stored at the start of the buffer. *)
Definition read (fd : Z) (count : nat) : U (Z * list Z) :=
  n ← tick_os;
  s ← get;
  match fds s !! fd with
  | Some (ino, off) =>
      let data := take (min count (io_count oe n count)) (drop (Z.to_nat off) (default [] (inodes s !! ino))) in
      modify (fun s => s <| fds ::= <[fd := (ino, off + Z.of_nat (length data))]> |>);;
      mret (Z.of_nat (length data), data)
  | None => mret (-1, [])
  end.

Definition write (fd : Z) (bytes : list Z) : U Z :=
  n ← tick_os;
  s ← get;
  match fds s !! fd with
  | Some (ino, off) =>
      let data := take (io_count oe n (length bytes)) bytes in
      modify (fun s => s <| inodes ::= <[ino := splice (Z.to_nat off) data (default [] (inodes s !! ino))]> |>
                         <| fds ::= <[fd := (ino, off + Z.of_nat (length data))]> |>);;
      mret (Z.of_nat (length data))
  | None => mret (-1)
  end.

(** * file_ops.c *)

Definition my_read (fd : Z) (count : nat) : U (Z * list Z) := read fd count.
Definition my_write (fd : Z) (bytes : list Z) : U Z := write fd bytes.

Definition find_and_read (fd start_byte : Z) (count : nat) : U (Z * list Z) :=
  lseek fd start_byte;;
  read fd count.

(** Overwriting the buffer from [off] on with [bytes]. *)
Definition fill (off : nat) (bytes buf : list Z) : list Z :=
  take off buf ++ bytes ++ drop (off + length bytes) buf.

Definition PAGE_SHIFT : Z := 12.
Definition page_len : nat := Z.to_nat PAGE_SIZE.

(** [file_op]: [fn] is called on what is left of the page until the whole
    page is transferred. The bound on the calls is the size of the page: every
    call but the last transfers at least one byte. *)
Definition file_op (fd : Z) (page : list Z) (i : Z) (fn : nat -> list Z -> U (Z * list Z)) : U (Z * list Z) :=
  lseek fd (s32 (Z.shiftl i PAGE_SHIFT));;
  r ← while (S page_len) (fun '(total, ret, _) => total <? PAGE_SIZE)
    (fun '(total, ret, page) =>
       r ← fn (Z.to_nat total) page;
       let '(bytes, page) := r in
       if bytes <=? 0 then e ← errno; mret (Break (total, - e, page))
       else mret (Continue (total + bytes, ret, page))) (0, 0, page);
  let '(_, ret, page) := r in mret (ret, page).

Definition read_fn (fd : Z) (total : nat) (page : list Z) : U (Z * list Z) :=
  r ← my_read fd (page_len - total);
  let '(n, bytes) := r in mret (n, fill total bytes page).

Definition write_fn (fd : Z) (total : nat) (page : list Z) : U (Z * list Z) :=
  n ← write fd (take (page_len - total) (drop total page));
  mret (n, page).

Definition read_page (fd : Z) (page : list Z) (i : Z) : U (Z * list Z) := file_op fd page i (read_fn fd).
Definition write_page (fd : Z) (page : list Z) (i : Z) : U (Z * list Z) := file_op fd page i (write_fn fd).

(** One entry of the directory: [loop] removes a sub-directory. *)
Definition del_entry (del : path -> U Z) (p : path) (name : list Z) : U Z :=
  ok ← granted;
  let buf := p ++ [name] in
  if (ok : bool) then
    st ← stat buf;
    match st with
    | Some FDir => del buf
    | Some (FFile _) => unlink buf
    | None => mret (-1)
    end
  else mret (-1).

Fixpoint del_dir_at (fuel : nat) (p : path) : U Z :=
  match fuel with
  | O => nofuel
  | S fuel =>
      ok ← granted;
      s ← get;
      r ← (if ok && bool_decide (fs s !! p = Some FDir) then
             for_each (dir_entries (fs s) p)
               (fun name r =>
                  r2 ← del_entry (del_dir_at fuel) p name;
                  mret (if r2 =? 0 then Continue r2 else Break r2)) 0
           else mret (-1));
      if r =? 0 then rmdir p else mret r
  end.

(** [del_dir]; a directory is never deeper than the longest path. *)
Definition del_dir (p : path) : U Z :=
  s ← get;
  del_dir_at (S (depth (fs s))) p.

Definition chk_dir_and_create (p : path) : U Z :=
  st ← stat p;
  (match st with None => mkdir p;; mret tt | Some _ => mret tt end);;
  mret 0.

Definition chk_dir_and_clean_create (p : path) : U Z :=
  st ← stat p;
  (match st with
   | None => mkdir p;; mret tt
   | Some _ => del_dir p;; mkdir p;; mret tt
   end);;
  mret 0.

Definition del_file (p : path) : U Z := unlink p.
End Calls.
