(* ===== verification/FileSpec.v ===== *)
(** Facts about the file operations of the daemon: the removal of a directory
    tree terminates and removes exactly the tree; the page transfers terminate
    and read back what was written. *)
From S2P Require Import Prelude CMonad Types FileOps.

(** * Paths and directories *)

(** Every name is in a directory. *)
Definition fs_wf (m : gmap path node) : Prop :=
  forall p name, is_Some (m !! (p ++ [name])) -> m !! p = Some FDir.

Lemma parent_snoc (p : path) name : parent (p ++ [name]) = p.
Proof. unfold parent. rewrite length_app. cbn. rewrite Nat.add_sub. by rewrite take_app_length. Qed.

Lemma entry_of_spec p k name : entry_of p k = Some name <-> k = p ++ [name].
Proof.
  unfold entry_of. split.
  - case_decide as H; [|done]. destruct H as [Ht Hl]. intros Hlast.
    apply last_Some in Hlast as [l' ->]. rewrite length_app in Hl. cbn in Hl.
    assert (length l' = length p) by lia. f_equal. rewrite <- Ht. by rewrite take_app_length'.
  - intros ->. rewrite decide_True.
    + by rewrite last_snoc.
    + rewrite length_app. cbn. split; [by apply take_app_length|lia].
Qed.

Lemma dir_entries_spec m p name : name ∈ dir_entries m p <-> is_Some (m !! (p ++ [name])).
Proof.
  unfold dir_entries. rewrite list_elem_of_omap. split.
  - intros (k & Hk & He). apply entry_of_spec in He as ->.
    apply list_elem_of_fmap in Hk as ([k' nd] & -> & Hk). apply elem_of_map_to_list in Hk. by eexists.
  - intros [nd Hnd]. exists (p ++ [name]). split; [|by apply entry_of_spec].
    apply list_elem_of_fmap. exists (p ++ [name], nd). split; [done|by apply elem_of_map_to_list].
Qed.

Lemma dir_entries_NoDup m p : NoDup (dir_entries m p).
Proof.
  unfold dir_entries. pose proof (NoDup_fst_map_to_list m) as Hnd. revert Hnd.
  generalize ((map_to_list m).*1). intros ks. induction ks as [|k ks IH]; intros Hnd; [constructor|].
  apply NoDup_cons in Hnd as [Hk Hnd]. cbn.
  destruct (entry_of p k) as [name|] eqn:He; [|by apply IH].
  constructor; [|by apply IH]. intros (k' & Hk' & He')%list_elem_of_omap.
  apply entry_of_spec in He as ->. by apply entry_of_spec in He' as ->.
Qed.

Lemma dir_entries_nil m p : (forall name, m !! (p ++ [name]) = None) -> dir_entries m p = [].
Proof.
  intros H. destruct (dir_entries m p) as [|name l] eqn:He; [done|].
  assert (Hin : name ∈ dir_entries m p) by (rewrite He; left).
  apply dir_entries_spec in Hin as [nd Hnd]. by rewrite H in Hnd.
Qed.

Lemma foldr_max_ge (ks : list path) k : k ∈ ks ->
  (length k <= foldr (fun k n => max (length k) n) O ks)%nat.
Proof. induction 1; cbn; lia. Qed.

Lemma depth_ge m k : is_Some (m !! k) -> (length k <= depth m)%nat.
Proof.
  intros [nd Hnd]. apply foldr_max_ge, list_elem_of_fmap.
  exists (k, nd). split; [done|by apply elem_of_map_to_list].
Qed.

Lemma foldr_max_le (ks : list path) n : (forall k, k ∈ ks -> (length k <= n)%nat) ->
  (foldr (fun k n => max (length k) n) O ks <= n)%nat.
Proof.
  induction ks as [|k ks IH]; intros H; cbn; [lia|].
  assert (length k <= n)%nat by (apply H; left).
  assert (foldr (fun k n => max (length k) n) O ks <= n)%nat by (apply IH; intros; apply H; by right). lia.
Qed.

Lemma depth_mono m m' : m' ⊆ m -> (depth m' <= depth m)%nat.
Proof.
  intros Hm. apply foldr_max_le. intros k ([k' nd] & -> & Hk)%list_elem_of_fmap.
  apply elem_of_map_to_list in Hk. apply depth_ge. exists nd. by eapply lookup_weaken.
Qed.

(** The tree below [p], [p] included. *)
Definition below (p k : path) : Prop := p `prefix_of` k.
#[export] Instance below_dec p k : Decision (below p k).
Proof. unfold below. apply _. Defined.

Lemma below_refl p : below p p.
Proof. by exists []; rewrite app_nil_r. Qed.

Lemma below_snoc p k : below p k -> k = p \/ exists name, below (p ++ [name]) k.
Proof.
  intros [l ->]. destruct l as [|name l]; [left; by rewrite app_nil_r|right].
  exists name, l. by rewrite <- app_assoc.
Qed.

Lemma below_closed m p k : fs_wf m -> below p k -> is_Some (m !! k) -> k <> p -> m !! p = Some FDir.
Proof.
  intros Hwf [l ->]. induction l as [|name l IH] using rev_ind; [by rewrite app_nil_r|].
  intros Hk _. rewrite app_assoc in Hk. apply Hwf in Hk.
  destruct (decide (p ++ l = p)) as [He|He]; [by rewrite He in Hk|]. apply IH; [by eexists|done].
Qed.

Lemma below_child m p name k : fs_wf m -> below (p ++ [name]) k -> is_Some (m !! k) ->
  is_Some (m !! (p ++ [name])).
Proof.
  intros Hwf Hb Hk. destruct (decide (k = p ++ [name])) as [->|Hne]; [done|].
  exists FDir. by eapply below_closed.
Qed.

Lemma new_fd_ge m : 3 <= new_fd m.
Proof.
  unfold new_fd. destruct (list_find _ _) as [[i x]|] eqn:E; cbn; [|lia].
  apply list_find_Some in E as (Hx & _ & _). apply list_elem_of_lookup_2, elem_of_seqZ in Hx. lia.
Qed.

Section Spec.
Context (oe : OsEnv).
Implicit Types (s : os) (p k : path).

(** Everything but the number of system calls. *)
Definition os_same s s' : Prop :=
  fs s' = fs s /\ inodes s' = inodes s /\ fds s' = fds s /\ next_ino s' = next_ino s.

(** Names only disappear; the open files stay. *)
Definition shrinks s s' : Prop :=
  fs s' ⊆ fs s /\ inodes s' = inodes s /\ fds s' = fds s /\ next_ino s' = next_ino s.

#[export] Instance shrinks_preorder : PreOrder shrinks.
Proof.
  split; [done|]. intros s1 s2 s3 (H1 & H2 & H3 & H4) (H5 & H6 & H7 & H8).
  split; [by etransitivity|]. split; [congruence|]. split; congruence.
Qed.

Lemma os_same_shrinks s s' : os_same s s' -> shrinks s s'.
Proof. unfold shrinks. intros (-> & H2). split; [reflexivity|done]. Qed.

Lemma granted_spec tol (Q : bool -> os -> Prop) s :
  (forall s', os_same s s' -> Q (io_ok oe (os_tick s)) s') -> wp tol (granted oe) Q s.
Proof. intros H. unfold granted, tick_os. wp_steps. by apply H. Qed.

Lemma rmdir_total tol p s : wp tol (rmdir oe p) (fun _ s' => shrinks s s') s.
Proof.
  unfold rmdir. wp_steps. apply granted_spec. intros s' (H1 & H2 & H3 & H4). wp_steps.
  destruct (_ && _); wp_steps; (split; [|done]); cbn; rewrite H1; [apply delete_subseteq|done].
Qed.

Lemma unlink_total tol p s : wp tol (unlink oe p) (fun _ s' => shrinks s s') s.
Proof.
  unfold unlink. wp_steps. apply granted_spec. intros s' (H1 & H2 & H3 & H4). wp_steps.
  destruct (fs s' !! p) as [[]|]; [| |]; try destruct (io_ok _ _); wp_steps; (split; [|done]); cbn;
    rewrite H1; [done|apply delete_subseteq|done..].
Qed.

Lemma del_entry_total tol del p name s :
  (forall s', shrinks s s' -> fs s' !! (p ++ [name]) = Some FDir ->
     wp tol (del (p ++ [name])) (fun _ s'' => shrinks s' s'') s') ->
  wp tol (del_entry oe del p name) (fun _ s' => shrinks s s') s.
Proof.
  intros Hdel. unfold del_entry. wp_steps. apply granted_spec. intros s1 Hs%os_same_shrinks.
  destruct (io_ok _ _); wp_steps; [|done]. unfold stat. wp_steps.
  destruct (fs s1 !! (p ++ [name])) as [[]|] eqn:He; [| |wp_steps; done].
  - eapply wp_mono; [by apply Hdel|]. intros r s2 H. by etransitivity.
  - eapply wp_mono; [apply unlink_total|]. intros r s2 H. by etransitivity.
Qed.

Lemma del_dir_at_total tol fuel : forall p s, (depth (fs s) < fuel + length p)%nat -> fuel <> O ->
  wp tol (del_dir_at oe fuel p) (fun _ s' => shrinks s s') s.
Proof.
  induction fuel as [|fuel IH]; intros p s Hd Hf; [done|]. cbn [del_dir_at].
  wp_steps. apply granted_spec. intros s1 Hs%os_same_shrinks. wp_steps.
  eapply (wp_mono _ _ (fun _ s' => shrinks s s')).
  - destruct (_ && _); [|by wp_steps].
    eapply (wp_for_each _ _ (fun _ _ s' => shrinks s s')); [done|by intros ? ? ?|].
    intros name names r s2 Hs2. wp_steps. eapply wp_mono.
    { apply del_entry_total. intros s3 Hs3 Hdir.
      assert (Hm : fs s3 ⊆ fs s) by (etransitivity; [apply Hs3|apply Hs2]).
      pose proof (depth_ge (fs s3) (p ++ [name]) ltac:(by eexists)) as Hl.
      pose proof (depth_mono _ _ Hm). rewrite length_app in Hl. cbn in Hl.
      apply IH; [rewrite length_app; cbn|]; lia. }
    intros r2 s3 Hs3. wp_steps. by destruct (r2 =? 0); etransitivity.
  - intros r s2 Hs2. destruct (r =? 0); [|by wp_steps].
    eapply wp_mono; [apply rmdir_total|]. intros r3 s3 Hs3. by etransitivity.
Qed.

(** [del_dir] always comes back, whatever the system calls answer. *)
Lemma del_dir_total tol p s : wp tol (del_dir oe p) (fun _ s' => shrinks s s') s.
Proof. unfold del_dir. wp_steps. apply del_dir_at_total; lia. Qed.

(** ** The removal of a tree, when every call is granted *)

Section Granted.
Context (Hok : forall n, io_ok oe n = true).

Lemma granted_ok tol (Q : bool -> os -> Prop) s :
  (forall s', os_same s s' -> Q true s') -> wp tol (granted oe) Q s.
Proof using Hok. intros H. apply granted_spec. intros s' Hs. rewrite Hok. by apply H. Qed.

Definition keeps_open s s' : Prop := inodes s' = inodes s /\ fds s' = fds s /\ next_ino s' = next_ino s.

(** Exactly the names below one of [ps] are gone. *)
Definition removed (ps : list path) s s' : Prop :=
  keeps_open s s' /\ forall k, fs s' !! k = if bool_decide (Exists (fun p => below p k) ps) then None else fs s !! k.

Lemma removed_nil s s' : os_same s s' -> removed [] s s'.
Proof using.
  intros (H1 & H2 & H3 & H4). split; [done|]. intros k. rewrite bool_decide_eq_false_2 by by inversion 1.
  by rewrite H1.
Qed.

Lemma removed_wf ps s s' : removed ps s s' -> fs_wf (fs s) -> fs_wf (fs s').
Proof using.
  intros [_ H] Hwf p name. rewrite !H. case_bool_decide as Hn; [by intros []|].
  intros Hs. rewrite bool_decide_eq_false_2; [by eapply Hwf|].
  intros He. apply Hn. eapply Exists_impl; [done|]. intros q [l ->]. exists (l ++ [name]). by rewrite app_assoc.
Qed.

Lemma removed_snoc ps p s s' s'' : removed ps s s' -> removed [p] s' s'' -> removed (ps ++ [p]) s s''.
Proof using.
  intros [(H1 & H2 & H3) H] [(H1' & H2' & H3') H']. split; [split; [congruence|split; congruence]|].
  intros k. rewrite H', H.
  case_bool_decide as Ha; [rewrite bool_decide_eq_true_2; [done|apply Exists_app; by right]|].
  case_bool_decide as Hb; [rewrite bool_decide_eq_true_2; [done|apply Exists_app; by left]|].
  rewrite bool_decide_eq_false_2; [done|]. rewrite Exists_app. tauto.
Qed.
Lemma removed_sub ps s s' : removed ps s s' -> fs s' ⊆ fs s.
Proof using.
  intros [_ H]. apply map_subseteq_spec. intros k nd. rewrite H. by case_bool_decide.
Qed.

Lemma removed_other ps s s' k : removed ps s s' -> (forall p, p ∈ ps -> ~ below p k) -> fs s' !! k = fs s !! k.
Proof using.
  intros [_ H] Hps. rewrite H. rewrite bool_decide_eq_false_2; [done|].
  intros (p & Hp & Hb)%Exists_exists. by apply (Hps p).
Qed.

Lemma below_sibling p name name' k : below (p ++ [name]) k -> below (p ++ [name']) k -> name = name'.
Proof using.
  intros [l ->] [l' He]. rewrite <- !app_assoc in He. cbn in He. apply app_inv_head in He. by injection He.
Qed.

(** Removing a file, which has nothing below it. *)
Lemma unlink_removes tol p ino s : fs_wf (fs s) -> fs s !! p = Some (FFile ino) ->
  wp tol (unlink oe p) (fun r s' => r = 0 /\ removed [p] s s') s.
Proof using Hok.
  intros Hwf Hp. unfold unlink. wp_steps. apply granted_ok. intros s1 (H1 & H2 & H3 & H4). wp_steps.
  rewrite H1, Hp. wp_steps. split; [done|]. split; [done|]. cbn. intros k. rewrite H1.
  case_bool_decide as Hk.
  - apply Exists_cons in Hk as [Hk|Hk]; [|by inversion Hk].
    destruct (decide (k = p)) as [->|Hne]; [apply lookup_delete_eq|]. rewrite lookup_delete_ne by done.
    destruct (fs s !! k) as [nd|] eqn:He; [|done].
    assert (fs s !! p = Some FDir) by (by eapply below_closed). congruence.
  - rewrite lookup_delete_ne; [done|]. intros ->. apply Hk. left. apply below_refl.
Qed.

(** The last step: the emptied directory itself. *)
Lemma rmdir_removes tol p ps s s' : fs_wf (fs s) -> fs s !! p = Some FDir -> removed ps s s' ->
  (forall q, q ∈ ps -> exists name, q = p ++ [name]) ->
  (forall name, is_Some (fs s !! (p ++ [name])) -> (p ++ [name]) ∈ ps) ->
  wp tol (rmdir oe p) (fun r s'' => r = 0 /\ removed [p] s s'') s'.
Proof using Hok.
  intros Hwf Hp Hrm Hps Hall. unfold rmdir. wp_steps. apply granted_ok. intros s1 (H1 & H2 & H3 & H4). wp_steps.
  pose proof (removed_wf _ _ _ Hrm Hwf) as Hwf'.
  assert (Hnone : forall name, fs s' !! (p ++ [name]) = None).
  { intros name. destruct Hrm as [_ Hrm]. rewrite Hrm. case_bool_decide as He; [done|].
    destruct (fs s !! (p ++ [name])) eqn:Hn; [|done]. exfalso. apply He, Exists_exists.
    exists (p ++ [name]). split; [apply Hall; by rewrite Hn|apply below_refl]. }
  rewrite H1. rewrite (removed_other _ _ _ p Hrm); last first.
  { intros q Hq [l Hl]. destruct (Hps q Hq) as [name ->]. rewrite <- app_assoc in Hl.
    apply (f_equal length) in Hl. rewrite !length_app in Hl. cbn in Hl. lia. }
  rewrite Hp, !bool_decide_eq_true_2 by (by try apply dir_entries_nil). cbn [andb]. wp_steps. split; [done|].
  destruct Hrm as [(K1 & K2 & K3) Hrm]. split; cbn; [split; [cbn; congruence|split; cbn; congruence]|]. rewrite H1. intros k.
  destruct (decide (k = p)) as [->|Hne].
  { rewrite lookup_delete_eq, bool_decide_eq_true_2; [done|]. left. apply below_refl. }
  rewrite lookup_delete_ne by done. case_bool_decide as Hk.
  - apply Exists_cons in Hk as [Hk|Hk]; [|by inversion Hk].
    destruct (below_snoc _ _ Hk) as [->|[name Hb]]; [done|].
    destruct (fs s' !! k) eqn:He; [|done].
    assert (Hc : is_Some (fs s' !! (p ++ [name]))) by (eapply below_child; [done..|by rewrite He]).
    rewrite Hnone in Hc. by destruct Hc.
  - rewrite Hrm. rewrite bool_decide_eq_false_2; [done|]. intros (q & Hq & [l Hl])%Exists_exists.
    destruct (Hps q Hq) as [name ->]. apply Hk. left. exists ([name] ++ l). by rewrite Hl, app_assoc.
Qed.

Definition removes (del : path -> M os Z) s p : Prop :=
  forall s', fs s' ⊆ fs s -> fs_wf (fs s') -> fs s' !! p = Some FDir ->
  wp no_fault (del p) (fun r s'' => r = 0 /\ removed [p] s' s'') s'.

Lemma del_entry_removes del p name s s' : fs s' ⊆ fs s -> fs_wf (fs s') ->
  is_Some (fs s' !! (p ++ [name])) -> removes del s (p ++ [name]) ->
  wp no_fault (del_entry oe del p name) (fun r s'' => r = 0 /\ removed [p ++ [name]] s' s'') s'.
Proof using Hok.
  intros Hsub Hwf Hin Hdel. unfold del_entry. wp_steps. apply granted_ok. intros s1 (H1 & H2 & H3 & H4).
  unfold stat. wp_steps. destruct (fs s1 !! (p ++ [name])) as [[|ino]|] eqn:He.
  - eapply wp_mono; [apply Hdel; [by rewrite H1..|done]|]. intros r s2 [-> [(K1 & K2 & K3) Hr]].
    split; [done|]. split; [split; [congruence|split; congruence]|]. by rewrite <- H1.
  - eapply wp_mono; [eapply unlink_removes; [by rewrite H1|done]|]. intros r s2 [-> [(K1 & K2 & K3) Hr]].
    split; [done|]. split; [split; [congruence|split; congruence]|]. by rewrite <- H1.
  - rewrite H1 in He. rewrite He in Hin. by destruct Hin.
Qed.

Lemma del_dir_at_removes fuel : forall p s, fs_wf (fs s) -> fs s !! p = Some FDir ->
  (depth (fs s) < fuel + length p)%nat -> fuel <> O ->
  wp no_fault (del_dir_at oe fuel p) (fun r s' => r = 0 /\ removed [p] s s') s.
Proof using Hok.
  induction fuel as [|fuel IH]; intros p s Hwf Hp Hd Hf; [done|]. cbn [del_dir_at].
  wp_steps. apply granted_ok. intros s1 Hs1. wp_steps. destruct Hs1 as (H1 & Hs1') eqn:E. clear E.
  rewrite H1, Hp. rewrite bool_decide_eq_true_2 by done. cbn [andb].
  eapply (wp_mono _ _ (fun r s' => r = 0 /\ removed ((fun n => p ++ [n]) <$> dir_entries (fs s) p) s s')).
  - eapply (wp_for_each _ _ (fun names r s' => r = 0 /\ exists gone, dir_entries (fs s) p = gone ++ names /\
      removed ((fun n => p ++ [n]) <$> gone) s s')).
    + split; [done|]. exists []. split; [done|]. by apply removed_nil.
    + intros r s' (-> & gone & He & Hr). rewrite app_nil_r in He. by rewrite He.
    + intros name names r s' (-> & gone & He & Hr). wp_steps.
      pose proof (removed_sub _ _ _ Hr) as Hsub. pose proof (dir_entries_NoDup (fs s) p) as Hnd.
      rewrite He in Hnd. apply NoDup_app in Hnd as (_ & Hnd & _).
      eapply wp_mono; [apply (del_entry_removes _ _ _ s)|].
      * done.
      * by eapply removed_wf.
      * rewrite (removed_other _ _ _ _ Hr).
        { apply dir_entries_spec. rewrite He. apply elem_of_app. right. left. }
        intros q (n & -> & Hn)%list_elem_of_fmap Hb.
        assert (n = name) as -> by (by eapply (below_sibling p); [|apply below_refl]). by apply (Hnd name Hn); left.
      * intros s2 Hs2 Hwf2 Hdir. pose proof (depth_mono _ _ Hs2).
        pose proof (depth_ge (fs s2) (p ++ [name]) ltac:(by eexists)) as Hl.
        rewrite length_app in Hl. cbn in Hl. apply IH; [done..| |]; [rewrite length_app; cbn|]; lia.
      * intros r s2 [-> Hr2]. wp_steps. split; [done|]. exists (gone ++ [name]).
        rewrite He, <- app_assoc. split; [done|]. rewrite fmap_app. cbn. by eapply removed_snoc.
  - intros r s2 [-> Hr]. cbn [Z.eqb]. eapply rmdir_removes; [done..| |].
    + intros q (n & -> & _)%list_elem_of_fmap. by eexists.
    + intros name Hn. apply list_elem_of_fmap. exists name. split; [done|]. by apply dir_entries_spec.
Qed.

Lemma del_dir_removes p s : fs_wf (fs s) -> fs s !! p = Some FDir ->
  wp no_fault (del_dir oe p) (fun r s' => r = 0 /\ removed [p] s s') s.
Proof using Hok. intros Hwf Hp. unfold del_dir. wp_steps. apply del_dir_at_removes; [done..|lia|lia]. Qed.
End Granted.
End Spec.

(** * Transfers *)

Lemma splice_pre_length o (data : list Z) : length (take o (data ++ replicate (o - length data) 0)) = o.
Proof. rewrite length_take, length_app, length_replicate. lia. Qed.

Lemma splice_nil_end (data : list Z) bytes : splice (length data) bytes data = data ++ bytes.
Proof.
  unfold splice. rewrite Nat.sub_diag. cbn. rewrite app_nil_r, take_ge by lia.
  rewrite drop_ge by lia. by rewrite app_nil_r.
Qed.

(** Two adjacent writes are one. *)
Lemma splice_splice o b1 b2 data :
  splice (o + length b1) b2 (splice o b1 data) = splice o (b1 ++ b2) data.
Proof.
  unfold splice. set (pre := take o (data ++ replicate (o - length data) 0)).
  assert (Hpre : length pre = o) by apply splice_pre_length.
  rewrite (take_app_le (pre ++ _)) by (rewrite !length_app; lia).
  rewrite (assoc_L (++) pre b1). rewrite (take_app_le (pre ++ b1)) by (rewrite length_app; lia).
  rewrite take_ge by (rewrite length_app; lia).
  rewrite <- !(assoc_L (++)). do 3 apply f_equal. rewrite !(assoc_L (++)).
  replace (o + length b1 + length b2)%nat with (length (pre ++ b1) + length b2)%nat by (rewrite length_app; lia).
  rewrite drop_app_add. rewrite drop_drop. rewrite !length_app. f_equal. lia.
Qed.

Lemma splice_whole o bytes data : take (length bytes) (drop o (splice o bytes data)) = bytes.
Proof.
  unfold splice. rewrite drop_app_length' by by rewrite splice_pre_length. by rewrite take_app_length.
Qed.

Section Transfers.
Context (oe : OsEnv).
Implicit Types (s : os).

Lemma write_spec tol fd bytes ino off s : fds s !! fd = Some (ino, Z.of_nat off) ->
  wp tol (write oe fd bytes) (fun r s' => exists m, (m <= length bytes)%nat /\ r = Z.of_nat m /\
    (io_count oe (os_tick s) (length bytes) <= m \/ m = length bytes)%nat /\
    fs s' = fs s /\ next_ino s' = next_ino s /\
    inodes s' = <[ino := splice off (take m bytes) (default [] (inodes s !! ino))]> (inodes s) /\
    fds s' = <[fd := (ino, Z.of_nat (off + m))]> (fds s)) s.
Proof.
  intros Hfd. unfold write, tick_os. wp_steps. cbn. rewrite Hfd. wp_steps. rewrite Nat2Z.id.
  set (c := io_count oe (os_tick s) (length bytes)). exists (length (take c bytes)).
  rewrite length_take. split; [lia|]. split; [lia|]. split; [lia|]. split; [done|]. split; [done|]. cbn.
  destruct (Nat.le_ge_cases c (length bytes)).
  - rewrite (Nat.min_l c) by lia. split; [done|]. f_equal. f_equal. lia.
  - rewrite (Nat.min_r c) by lia. rewrite !(take_ge bytes) by lia. split; [done|]. f_equal. f_equal. lia.
Qed.

Lemma read_spec tol fd count ino off s : fds s !! fd = Some (ino, Z.of_nat off) ->
  wp tol (read oe fd count) (fun r s' => exists m, (m <= count)%nat /\ fst r = Z.of_nat (length (snd r)) /\
    snd r = take m (drop off (default [] (inodes s !! ino))) /\
    (io_count oe (os_tick s) count <= m \/ m = count)%nat /\
    fs s' = fs s /\ next_ino s' = next_ino s /\ inodes s' = inodes s /\
    fds s' = <[fd := (ino, Z.of_nat (off + length (snd r)))]> (fds s)) s.
Proof.
  intros Hfd. unfold read, tick_os. wp_steps. cbn. rewrite Hfd. wp_steps. rewrite Nat2Z.id. cbn.
  exists (min count (io_count oe (os_tick s) count)). split; [lia|]. split; [done|]. split; [done|].
  split; [lia|]. repeat split. f_equal. f_equal. lia.
Qed.

(** A file slot is a page-aligned offset that fits the [int] of the source. *)
Definition slot_offset (i : Z) : nat := Z.to_nat (i * PAGE_SIZE).
Definition slot_ok (i : Z) : Prop := 0 <= i < 2 ^ 19.

Lemma lseek_slot tol fd i ino off s (Q : Z -> os -> Prop) : slot_ok i -> fds s !! fd = Some (ino, off) ->
  (forall r, Q r (s <| fds ::= <[fd := (ino, Z.of_nat (slot_offset i))]> |>)) ->
  wp tol (lseek fd (s32 (Z.shiftl i PAGE_SHIFT))) Q s.
Proof.
  intros Hi Hfd HQ. unfold lseek. wp_steps. rewrite Hfd. wp_steps.
  rewrite Z.shiftl_mul_pow2 by (unfold PAGE_SHIFT; lia).
  assert (s32 (i * 2 ^ PAGE_SHIFT) = Z.of_nat (slot_offset i)) as ->; [|apply HQ].
  unfold swrap, slot_offset, PAGE_SHIFT, PAGE_SIZE, slot_ok in *. rewrite Z.mod_small; lia.
Qed.

Context (Hprogress : forall n c, (0 < c)%nat -> (0 < io_count oe n c)%nat).

(** Short writes do not matter: the whole page gets there. *)
Lemma write_page_spec tol fd page i ino off s : slot_ok i -> length page = page_len ->
  fds s !! fd = Some (ino, off) ->
  wp tol (write_page oe fd page i) (fun r s' => r = (0, page) /\ fs s' = fs s /\ next_ino s' = next_ino s /\
    inodes s' = <[ino := splice (slot_offset i) page (default [] (inodes s !! ino))]> (inodes s) /\
    exists off', fds s' = <[fd := (ino, off')]> (fds s)) s.
Proof using Hprogress.
  intros Hi Hp Hfd. unfold write_page, file_op. wp_steps. eapply lseek_slot; [done..|]. intros _. wp_steps.
  set (data := default [] (inodes s !! ino)).
  eapply (wp_while _ _ _ (fun '(total, ret, pg) s' => exists t : nat, total = Z.of_nat t /\ (t <= page_len)%nat /\
      ret = 0 /\ pg = page /\ fs s' = fs s /\ next_ino s' = next_ino s /\
      (t = O \/ inodes s' = <[ino := splice (slot_offset i) (take t page) data]> (inodes s)) /\
      (t = O -> inodes s' = inodes s) /\
      fds s' = <[fd := (ino, Z.of_nat (slot_offset i + t))]> (fds s))
    (fun '(total, _, _) _ => (page_len - Z.to_nat total)%nat)).
  - exists O. rewrite Nat.add_0_r. repeat split; [lia|by left].
  - change (Z.to_nat 0) with O. lia.
  - intros [[total ret] pg] s' (t & -> & Ht & -> & -> & Hfs & Hno & [->|Hin] & Hin0 & Hfds) Hc.
    + apply Z.ltb_ge in Hc. done.
    + apply Z.ltb_ge in Hc. assert (t = page_len) as -> by (unfold page_len in *; lia). wp_steps.
      rewrite take_ge in Hin by lia. repeat split; eauto.
  - intros [[total ret] pg] s' (t & -> & Ht & -> & -> & Hfs & Hno & Hin & Hin0 & Hfds) Hc.
    apply Z.ltb_lt in Hc. wp_steps. unfold write_fn. wp_steps. rewrite Nat2Z.id.
    eapply wp_mono; [apply (write_spec _ _ _ ino (slot_offset i + t)); by rewrite Hfds, lookup_insert_eq|].
    intros r s2 (m & Hm & -> & Hm' & Hfs2 & Hno2 & Hin2 & Hfds2). wp_steps.
    set (rest := take (page_len - t) (drop t page)) in *.
    assert (Hrest : length rest = (page_len - t)%nat) by (unfold rest; rewrite length_take, length_drop; lia).
    assert (Hlt : (t < page_len)%nat) by (unfold page_len; lia).
    specialize (Hprogress (os_tick s') (length rest) ltac:(lia)).
    destruct (Z.leb_spec (Z.of_nat m) 0); [lia|]. wp_steps. split; [|lia].
    exists (t + m)%nat. split; [lia|]. split; [lia|]. split; [done|]. split; [done|].
    split; [congruence|]. split; [congruence|]. split; [right|split; [lia|]].
    + rewrite Hin2.
      assert (Htake : take (t + m) page = take t page ++ take m rest).
      { unfold rest. rewrite take_take, Nat.min_l by lia. by rewrite take_take_drop. }
      assert (Hsp : splice (slot_offset i + t) (take m rest) (default [] (inodes s' !! ino)) =
                    splice (slot_offset i) (take (t + m) page) data).
      { rewrite Htake. destruct (decide (t = O)) as [->|Hne].
        - rewrite Hin0 by done. by rewrite Nat.add_0_r.
        - destruct Hin as [|Hin]; [done|]. rewrite Hin, lookup_insert_eq. cbn.
          rewrite <- splice_splice, length_take, Nat.min_l by lia. done. }
      rewrite Hsp. destruct (decide (t = O)) as [->|Hne].
      * by rewrite Hin0.
      * destruct Hin as [|Hin]; [done|]. rewrite Hin. by rewrite insert_insert_eq.
    + rewrite Hfds2, Hfds, insert_insert_eq. f_equal. f_equal. lia.
Qed.

(** Short reads do not matter either. *)
Lemma read_page_spec tol fd page buf i ino off s : slot_ok i -> length buf = page_len -> length page = page_len ->
  fds s !! fd = Some (ino, off) ->
  take page_len (drop (slot_offset i) (default [] (inodes s !! ino))) = page ->
  wp tol (read_page oe fd buf i) (fun r s' => r = (0, page) /\ inodes s' = inodes s) s.
Proof using Hprogress.
  intros Hi Hb Hp Hfd Hdata. unfold read_page, file_op. wp_steps. eapply lseek_slot; [done..|]. intros _. wp_steps.
  eapply (wp_while _ _ _ (fun '(total, ret, pg) s' => exists t : nat, total = Z.of_nat t /\ (t <= page_len)%nat /\
      ret = 0 /\ pg = take t page ++ drop t buf /\ inodes s' = inodes s /\
      fds s' = <[fd := (ino, Z.of_nat (slot_offset i + t))]> (fds s))
    (fun '(total, _, _) _ => (page_len - Z.to_nat total)%nat)).
  - exists O. rewrite Nat.add_0_r. repeat split; lia.
  - change (Z.to_nat 0) with O. lia.
  - intros [[total ret] pg] s' (t & -> & Ht & -> & -> & Hin & Hfds) Hc.
    apply Z.ltb_ge in Hc. assert (t = page_len) as -> by (unfold page_len in *; lia). wp_steps.
    rewrite take_ge, drop_ge, app_nil_r by lia. done.
  - intros [[total ret] pg] s' (t & -> & Ht & -> & -> & Hin & Hfds) Hc.
    apply Z.ltb_lt in Hc. wp_steps. unfold read_fn, my_read. wp_steps. rewrite Nat2Z.id.
    eapply wp_mono; [apply (read_spec _ _ _ ino (slot_offset i + t)); by rewrite Hfds, lookup_insert_eq|].
    intros [r bytes] s2 (m & Hm & Hr & Hbytes & Hm' & Hfs2 & Hno2 & Hin2 & Hfds2).
    cbn [fst snd] in *. subst r. wp_steps.
    assert (Hlt : (t < page_len)%nat) by (unfold page_len; lia).
    specialize (Hprogress (os_tick s') (page_len - t) ltac:(lia)).
    assert (Hb2 : bytes = take m (drop t page)).
    { rewrite Hbytes, Hin, <- Hdata. rewrite skipn_firstn_comm, take_take, drop_drop. by rewrite Nat.min_l by lia. }
    assert (Hl : length bytes = m) by (rewrite Hb2, length_take, length_drop; lia).
    destruct (Z.leb_spec (Z.of_nat (length bytes)) 0); [lia|]. wp_steps. split; [|lia].
    exists (t + m)%nat. split; [lia|]. split; [lia|]. split; [done|]. split.
    + unfold fill. rewrite take_app_le, take_ge by (rewrite length_take; lia).
      rewrite Hl, drop_app_ge by (rewrite length_take; lia). rewrite length_take, Nat.min_l by lia.
      rewrite drop_drop, app_assoc, Hb2, take_take_drop. f_equal. f_equal. lia.
    + split; [congruence|]. rewrite Hfds2, Hfds, insert_insert_eq, Hl. f_equal. f_equal. lia.
Qed.
End Transfers.
