(* ===== verification/Mcdctl.v ===== *)
(** The transport to the daemon: xen/common/mcdctl.c, which keeps a ring and
    shared pages per domain ([struct mcd_event_domain] of xen/sched.h), turns
    the requests of the cache into ring messages and continues a transfer when
    the daemon resumes it. *)
From S2P Require Import Prelude CMonad Types State Core Ring FileOps.

(** * Messages *)

Record mcd_event_st := mk_event {
  ev_type : Z;
  ev_domain : Z;
  ev_flags : Z;
  ev_hash : Z;
  ev_totsize : Z;
  ev_accsize : Z;
  ev_cursize : Z;
  ev_fd : Z;
  ev_mcd_data : option ptr;
}.
#[export] Instance eta_mcd_event_st : Eta mcd_event_st := fun r =>
  mk_event (ev_type r) (ev_domain r) (ev_flags r) (ev_hash r) (ev_totsize r) (ev_accsize r)
    (ev_cursize r) (ev_fd r) (ev_mcd_data r).

(** Four bytes, six words, a hole of four bytes and a pointer. *)
Definition sizeof_mcd_event_st : Z := 2 + 2 + 6 * 4 + 4 + 8.

Definition MCD_EVENT_OP_PUT : Z := 0.
Definition MCD_EVENT_OP_GET : Z := 1.
Definition MCD_EVENT_OP_DEL : Z := 2.
Definition MCD_EVENT_OP_DOM_CREATE : Z := 3.
Definition MCD_EVENT_OP_DOM_FLUSH : Z := 4.
Definition MCD_EVENT_OP_DOM_DESTROY : Z := 5.
Definition MCD_EVENT_OP_FLUSH_ALL : Z := 6.
Definition MCD_EVENT_REQ_ADD_SHARED_PAGE : Z := 11.

Definition MCD_EVENT_OP_FLAGS_NEW : Z := Z.shiftl 1 0.
Definition MCD_EVENT_OP_FLAGS_CONT : Z := Z.shiftl 1 1.
Definition MCD_EVENT_OP_FLAGS_FINAL : Z := Z.shiftl 1 2.
Definition MCD_EVENT_OP_FLAGS_END : Z := Z.shiftl 1 3.
Definition MCD_EVENT_OP_FLAGS_ERROR : Z := Z.shiftl 1 4.

Definition if_set (f b : Z) : bool := negb (Z.land f b =? 0).
Definition st_bit (b : Z) (req : mcd_event_st) : mcd_event_st := req <| ev_flags ::= Z.lor b |>.
Definition cl_bit (b : Z) (req : mcd_event_st) : mcd_event_st := req <| ev_flags ::= fun f => Z.ldiff f b |>.

(** [memset(&req, 0, sizeof(req))] *)
Definition zero_event : mcd_event_st := mk_event 0 0 0 0 0 0 0 0 None.

Definition MAX_SHARED_PAGES : Z := 1280.
Definition MCD_EVENT_RING_THRESHOLD : Z := 4.

(** * The state

    Machine frames are numbers; a frame holds a page of data or the ring. The
    array [shared_page] is the map of its cells that are not NULL. *)

Record mcd_event_domain := mk_event_domain {
  num_shared_page : Z;
  shared_page : gmap Z Z;
  ring_page : option Z;
  event_front : front_ring;
  xen_port : Z;
}.
#[export] Instance eta_mcd_event_domain : Eta mcd_event_domain := fun r =>
  mk_event_domain (num_shared_page r) (shared_page r) (ring_page r) (event_front r) (xen_port r).

(** A domain structure starts out as zeros. *)
Definition zero_event_domain : mcd_event_domain := mk_event_domain 0 ∅ None (mk_front 0 0 0) 0.

(** The daemon's [mcd_event_t]. *)
Record daemon := mk_daemon {
  dm_num_shared_page : Z;
  dm_shared_page : gmap Z Z;
  dm_ring_page : Z;
  dm_back : back_ring;
  dm_port : Z;
  dm_root : path;
}.
#[export] Instance eta_daemon : Eta daemon := fun r =>
  mk_daemon (dm_num_shared_page r) (dm_shared_page r) (dm_ring_page r) (dm_back r) (dm_port r) (dm_root r).

(** [t_mem] holds the entries that [mcd_data] may point to, [t_put] and
    [t_get] say that [minf_put_lock_v] and [minf_get_lock_v] are held. *)
Record tstate := mk_tstate {
  t_enabled : bool;
  t_events : gmap Z mcd_event_domain;
  t_frames : gmap Z (list Z);
  t_rings : gmap Z (sring mcd_event_st);
  t_put : bool;
  t_get : bool;
  t_mem : gmap ptr mcd_hashT;
  t_next : ptr;
  t_daemon : option daemon;
  t_os : os;
}.
#[export] Instance eta_tstate : Eta tstate := fun r =>
  mk_tstate (t_enabled r) (t_events r) (t_frames r) (t_rings r) (t_put r) (t_get r) (t_mem r)
    (t_next r) (t_daemon r) (t_os r).

(** What the rest of the hypervisor says: the machine frame behind an address
    of the calling domain ([None]: not valid), whether a frame can be mapped,
    the port of a new event channel, whether a domain has a vcpu. *)
Record XenEnv := mk_xen_env {
  xe_frame : Z -> option Z;
  xe_map : Z -> bool;
  xe_evtchn : Z;
  xe_vcpu : Z -> bool;
}.

Definition int_bytes (z : Z) : list Z :=
  (fun i => Z.land (Z.shiftr (u32 z) (8 * i)) 255) <$> [0; 1; 2; 3].

Section Mcdctl.
Context (xe : XenEnv).
Abbreviation T := (M tstate).
Implicit Types (t : tstate) (d : Z).

(** ** Memory *)

Definition event_of d : T mcd_event_domain :=
  gets (fun t => default zero_event_domain (t_events t !! d)).
Definition set_event d (ev : mcd_event_domain) : T unit :=
  modify (fun t => t <| t_events ::= <[d := ev]> |>).

Definition ring_of (page : option Z) : T (sring mcd_event_st) :=
  t ← get;
  match page with
  | None => raise NullDeref
  | Some m => match t_rings t !! m with Some r => mret r | None => raise UseAfterFree end
  end.

Definition set_ring (page : option Z) (r : sring mcd_event_st) : T unit :=
  match page with
  | None => raise NullDeref
  | Some m => modify (fun t => t <| t_rings ::= <[m := r]> |>)
  end.

(** The frame of a shared page, by its index. *)
Definition page_of (pages : gmap Z Z) (i : Z) : T Z :=
  match pages !! i with Some m => mret m | None => raise NullDeref end.

Definition frame_load (m : Z) : T (list Z) :=
  t ← get;
  match t_frames t !! m with Some data => mret data | None => raise UseAfterFree end.

Definition frame_store (m : Z) (data : list Z) : T unit := modify (fun t => t <| t_frames ::= <[m := data]> |>).

Definition mh_load (mh : option ptr) : T mcd_hashT :=
  t ← get;
  match mh with
  | None => raise NullDeref
  | Some p => match t_mem t !! p with Some e => mret e | None => raise UseAfterFree end
  end.

(** [memcpy(page->data, mh->key_val + off, n)] *)
Definition copy_out (mh : option ptr) (m off n : Z) : T unit :=
  e ← mh_load mh;
  page ← frame_load m;
  if Z.of_nat (length (mh_key_val e)) <? off + n then raise OutOfBounds
  else frame_store m (fill 0 (take (Z.to_nat n) (drop (Z.to_nat off) (mh_key_val e))) page).

(** [memcpy(mh->key_val + off, page->data, n)] *)
Definition copy_in (mh : option ptr) (m off n : Z) : T unit :=
  e ← mh_load mh;
  page ← frame_load m;
  if Z.of_nat (length (mh_key_val e)) <? off + n then raise OutOfBounds
  else match mh with
       | None => raise NullDeref
       | Some p => modify (fun t => t <| t_mem ::=
           <[p := e <| mh_key_val ::= fill (Z.to_nat off) (take (Z.to_nat n) page) |>]> |>)
       end.

(** ** The ring *)

Definition mcd_event_put_request d (req : mcd_event_st) : T unit :=
  ev ← event_of d;
  s ← ring_of (ring_page ev);
  let f := event_front ev in
  if Z.of_nat (length (ring s)) <=? Z.of_nat (slot (front_nr_ents f) (req_prod_pvt f)) then raise OutOfBounds
  else
    let '(s, f) := front_put req s f in
    set_ring (ring_page ev) s;;
    set_event d (ev <| event_front := f |>).

Definition mcd_event_get_response d : T mcd_event_st :=
  ev ← event_of d;
  s ← ring_of (ring_page ev);
  let '(rsp, s, f) := front_get s (event_front ev) in
  set_ring (ring_page ev) s;;
  set_event d (ev <| event_front := f |>);;
  match rsp with Some rsp => mret rsp | None => raise OutOfBounds end.

Definition mcd_event_check_ring d : T Z :=
  ev ← event_of d;
  match ring_page ev with
  | None => mret (-1)
  | Some _ =>
      let free_requests := s32 (RING_FREE_REQUESTS (event_front ev)) in
      mret (if free_requests <? MCD_EVENT_RING_THRESHOLD then 1 else 0)
  end.

(** A request that is sent when the ring has room. *)
Definition send_request (req : mcd_event_st) : T Z :=
  full ← mcd_event_check_ring 0;
  if negb (full =? 0) then mret (-1)
  else mcd_event_put_request 0 req;; mret 0.

(** ** Transfers *)

Definition mh_totsize (e : mcd_hashT) : Z := u32 (mh_key_size e + mh_val_size e).

(** One shared page of an outgoing transfer. *)
Definition page_out_step (mh : option ptr) (pages : gmap Z Z) (num_page : Z) (req : mcd_event_st)
    : T (loopctl mcd_event_st) :=
  let left := u32 (ev_totsize req - ev_accsize req) in
  m ← page_of pages num_page;
  if PAGE_SIZE <? left then
    copy_out mh m (ev_accsize req) PAGE_SIZE;;
    let req := req <| ev_cursize ::= fun n => u32 (n + PAGE_SIZE) |>
                   <| ev_accsize ::= fun n => u32 (n + PAGE_SIZE) |> in
    let req := st_bit MCD_EVENT_OP_FLAGS_CONT req in
    mret (if u32 (ev_totsize req - ev_accsize req) <=? 0 then Break (st_bit MCD_EVENT_OP_FLAGS_FINAL req)
          else Continue req)
  else
    copy_out mh m (ev_accsize req) left;;
    let req := req <| ev_cursize ::= fun n => u32 (n + left) |> <| ev_accsize ::= fun n => u32 (n + left) |> in
    mret (Break (st_bit MCD_EVENT_OP_FLAGS_FINAL req)).

Definition mcdctl_page_out (mh : option ptr) (rsp : option mcd_event_st) : T Z :=
  full ← mcd_event_check_ring 0;
  if negb (full =? 0) then mret (-1)
  else
    e ← mh_load mh;
    let req := zero_event <| ev_type := MCD_EVENT_OP_PUT |> <| ev_domain := mh_domain e |> in
    let req := match rsp with
               | None => st_bit MCD_EVENT_OP_FLAGS_NEW req
               | Some rsp => req <| ev_accsize := ev_accsize rsp |> <| ev_fd := ev_fd rsp |>
               end in
    let req := req <| ev_mcd_data := mh |> <| ev_hash := mh_hash e |> <| ev_totsize := mh_totsize e |>
                   <| ev_cursize := 0 |> in
    ev ← event_of 0;
    req ← for_each (seqZ 0 (num_shared_page ev)) (page_out_step mh (shared_page ev)) req;
    mcd_event_put_request 0 req;;
    mret 0.

(** One shared page of an incoming transfer; what is left of the response is
    in [ev_cursize]. The last, partial page is accounted with the size of the
    whole response. *)
Definition page_in_step (mh : option ptr) (pages : gmap Z Z) (rsp : mcd_event_st) (num_page : Z)
    (req : mcd_event_st) : T (loopctl mcd_event_st) :=
  m ← page_of pages num_page;
  if PAGE_SIZE <=? ev_cursize req then
    copy_in mh m (ev_accsize req) PAGE_SIZE;;
    let req := req <| ev_accsize ::= fun n => u32 (n + PAGE_SIZE) |>
                   <| ev_cursize ::= fun n => u32 (n - PAGE_SIZE) |> in
    mret (if ev_cursize req <=? 0 then Break req else Continue req)
  else
    copy_in mh m (ev_accsize req) (ev_cursize req);;
    mret (Break (req <| ev_accsize ::= fun n => u32 (n + ev_cursize rsp) |>
                     <| ev_cursize ::= fun n => u32 (n - ev_cursize rsp) |>)).

Definition mcdctl_page_in (mh : option ptr) (rsp : option mcd_event_st) : T Z :=
  full ← mcd_event_check_ring 0;
  if negb (full =? 0) then mret (-1)
  else
    e ← mh_load mh;
    let req := zero_event <| ev_type := MCD_EVENT_OP_GET |> <| ev_domain := mh_domain e |>
                 <| ev_hash := mh_hash e |> <| ev_totsize := mh_totsize e |> <| ev_mcd_data := mh |> in
    match rsp with
    | None =>
        mcd_event_put_request 0 (st_bit MCD_EVENT_OP_FLAGS_NEW req <| ev_accsize := 0 |>);;
        mret 0
    | Some rsp =>
        if ev_cursize rsp =? 0 then mret (-1)
        else
          let req := req <| ev_accsize := ev_accsize rsp |> <| ev_cursize := ev_cursize rsp |> in
          ev ← event_of 0;
          req ← for_each (seqZ 0 (num_shared_page ev)) (page_in_step mh (shared_page ev) rsp) req;
          if if_set (ev_flags rsp) MCD_EVENT_OP_FLAGS_FINAL then mret 0
          else mcd_event_put_request 0 (req <| ev_fd := ev_fd rsp |>);; mret 0
    end.

(** ** Requests without an answer the cache waits for *)

Definition mcdctl_page_del (domid hash : Z) : T Z :=
  send_request (zero_event <| ev_type := MCD_EVENT_OP_DEL |> <| ev_domain := domid |> <| ev_hash := hash |>).
Definition mcdctl_page_dom_create (domid : Z) : T Z :=
  send_request (zero_event <| ev_type := MCD_EVENT_OP_DOM_CREATE |> <| ev_domain := domid |>).
Definition mcdctl_page_dom_destroy (domid : Z) : T Z :=
  send_request (zero_event <| ev_type := MCD_EVENT_OP_DOM_DESTROY |> <| ev_domain := domid |>).
Definition mcdctl_page_dom_flush (domid : Z) : T Z :=
  send_request (zero_event <| ev_type := MCD_EVENT_OP_DOM_FLUSH |> <| ev_domain := domid |>).
Definition mcdctl_page_flush : T Z := send_request (zero_event <| ev_type := MCD_EVENT_OP_FLUSH_ALL |>).

Definition increase_shared_page (num : Z) : T Z :=
  full ← mcd_event_check_ring 0;
  if negb (full =? 0) || (num <=? 0) || (MAX_SHARED_PAGES <=? num) then mret (-1)
  else
    mcd_event_put_request 0 (zero_event <| ev_type := MCD_EVENT_REQ_ADD_SHARED_PAGE |> <| ev_domain := 0 |>
      <| ev_hash := 0 |> <| ev_totsize := num |> <| ev_mcd_data := None |>);;
    mret 0.

(** ** The daemon resumes *)

Definition minf_put_unlock : T unit := modify (fun t => t <| t_put := false |>).
Definition minf_get_unlock : T unit := modify (fun t => t <| t_get := false |>).

Definition resume_final (rsp : mcd_event_st) : T unit :=
  if ev_type rsp =? MCD_EVENT_OP_PUT then minf_put_unlock
  else if ev_type rsp =? MCD_EVENT_OP_GET then minf_get_unlock
  else mret tt.

Definition mcd_event_resume d : T Z :=
  rsp ← mcd_event_get_response d;
  (if ev_flags rsp =? 0 then resume_final rsp
   else if if_set (ev_flags rsp) MCD_EVENT_OP_FLAGS_ERROR then resume_final rsp
   else if if_set (ev_flags rsp) MCD_EVENT_OP_FLAGS_END then mret tt
   else
     rc ← (if ev_type rsp =? MCD_EVENT_OP_GET then mcdctl_page_in (ev_mcd_data rsp) (Some rsp) else mret 0);
     if negb (rc =? 0) then resume_final rsp
     else if if_set (ev_flags rsp) MCD_EVENT_OP_FLAGS_FINAL then resume_final rsp
     else
       rc ← (if ev_type rsp =? MCD_EVENT_OP_PUT then mcdctl_page_out (ev_mcd_data rsp) (Some rsp) else mret 0);
       if negb (rc =? 0) then resume_final rsp else mret tt);;
  mret 0.

(** ** Setting up and tearing down *)

Definition map_domain_page (m : Z) : option Z := if xe_map xe m then Some m else None.

(** [mcd_event_enable] up to the call of [init_mcdctl]. *)
Definition mcd_event_map d (ring_mfn shared_mfn : Z) : T Z :=
  ev ← event_of d;
  match map_domain_page ring_mfn with
  | None => set_event d (ev <| ring_page := None |>);; mret 1
  | Some ring =>
      match map_domain_page shared_mfn with
      | None =>
          set_event d (ev <| num_shared_page := 1 |> <| shared_page ::= delete 0 |> <| ring_page := None |>);;
          mret 1
      | Some page =>
          if xe_evtchn xe <? 0 then
            set_event d (ev <| num_shared_page := 1 |> <| shared_page ::= delete 0 |> <| ring_page := None |>);;
            mret 1
          else
            data ← frame_load page;
            frame_store page (fill 0 (int_bytes (xe_evtchn xe)) data);;
            set_event d (ev <| num_shared_page := 1 |> <| shared_page ::= <[0 := page]> |>
              <| ring_page := Some ring |> <| xen_port := xe_evtchn xe |>
              <| event_front := FRONT_RING_INIT PAGE_SIZE sizeof_mcd_event_st |>);;
            mret 0
      end
  end.

(** [mcd_event_disable] up to the call of [exit_mcdctl]; [num_shared_page]
    keeps its value. *)
Definition mcd_event_unmap d : T unit :=
  ev ← event_of d;
  set_event d (ev <| ring_page := None |>
    <| shared_page ::= filter (fun '(i, _) => ~ (0 <= i < num_shared_page ev)) |>).

Definition mcd_event_add_shared_page d (shared_mfn : Z) : T Z :=
  ev ← event_of d;
  let curr_num := num_shared_page ev in
  if (curr_num <? 0) || (MAX_SHARED_PAGES <=? curr_num) then mret 1
  else match map_domain_page shared_mfn with
       | None => set_event d (ev <| shared_page ::= delete curr_num |>);; mret 1
       | Some page =>
           set_event d (ev <| shared_page ::= <[curr_num := page]> |> <| num_shared_page := curr_num + 1 |>);;
           mret 0
       end.
End Mcdctl.
