(* ===== verification/Daemon.v ===== *)
(** The user-space daemon (tools/mcd/mcd.c, tools/mcd/xc.c): it takes the
    requests off the ring, keeps every entry that was moved out in a file
    [root/mcd/<domain>/<hash>], and resumes the hypervisor. *)
From S2P Require Import Prelude CMonad Types State Core Display Ring FileOps Mcdctl.

(** What the daemon gets from the system besides files: the content of a
    freshly allocated page, and [xc_mcd_event_add_shared_page], which tools/mcd
    calls and no library of the repository defines. *)
Record DaemonEnv := mk_daemon_env {
  de_os : OsEnv;
  de_garbage : Z -> nat -> Z;
  de_add : Z -> M tstate Z;
}.

Section Daemon.
Context (de : DaemonEnv).
Abbreviation T := (M tstate).
Implicit Types (t : tstate) (req : mcd_event_st).

Definition sys {A} (m : M os A) : T A := zoom t_os (fun o t => t <| t_os := o |>) m.

Definition the_daemon : T daemon :=
  t ← get;
  match t_daemon t with Some dm => mret dm | None => raise NullDeref end.
Definition set_daemon (f : daemon -> daemon) : T unit :=
  modify (fun t => t <| t_daemon ::= fmap f |>).

(** ** Pages *)

Definition init_page : T (option Z) :=
  ok ← sys (granted (de_os de));
  if (ok : bool) then
    t ← get;
    let m := fresh (dom (t_frames t)) in
    modify (fun t => t <| t_frames ::= <[m := de_garbage de m <$> seq 0 page_len]> |>);;
    locked ← sys (granted (de_os de));
    if (locked : bool) then mret (Some m)
    else modify (fun t => t <| t_frames ::= delete m |>);; mret None
  else mret None.

Definition mcd_add_shared_page (num : Z) : T Z :=
  dm ← the_daemon;
  let num_curr := dm_num_shared_page dm in
  if MAX_SHARED_PAGES <=? num_curr then mret (-1)
  else
    let num_add := if u32 (MAX_SHARED_PAGES - num_curr) <? num then u32 (MAX_SHARED_PAGES - num_curr) else num in
    for_each (seqZ num_curr num_add)
      (fun i _ =>
         page ← init_page;
         match page with
         | None => set_daemon (fun dm => dm <| dm_shared_page ::= delete i |>);; mret (Break tt)
         | Some m =>
             set_daemon (fun dm => dm <| dm_shared_page ::= <[i := m]> |>);;
             rc ← de_add de m;
             if negb (rc =? 0) then mret (Break tt)
             else set_daemon (fun dm => dm <| dm_num_shared_page ::= Z.succ |>);; mret (Continue tt)
         end) tt;;
    mret 0.

(** ** The ring *)

Definition get_request : T mcd_event_st :=
  dm ← the_daemon;
  s ← ring_of (Some (dm_ring_page dm));
  let '(req, s, b) := back_get s (dm_back dm) in
  set_ring (Some (dm_ring_page dm)) s;;
  set_daemon (fun dm => dm <| dm_back := b |>);;
  match req with Some req => mret req | None => raise OutOfBounds end.

Definition put_response (rsp : mcd_event_st) : T Z :=
  dm ← the_daemon;
  s ← ring_of (Some (dm_ring_page dm));
  if Z.of_nat (length (ring s)) <=? Z.of_nat (slot (back_nr_ents (dm_back dm)) (rsp_prod_pvt (dm_back dm)))
  then raise OutOfBounds
  else
    let '(s, b) := back_put rsp s (dm_back dm) in
    set_ring (Some (dm_ring_page dm)) s;;
    set_daemon (fun dm => dm <| dm_back := b |>);;
    mret 0.

Definition mcd_resume_page (rsp : mcd_event_st) : T Z :=
  ret ← put_response rsp;
  if negb (ret =? 0) then mret ret
  else mcd_event_resume 0;; mret ret.

(** ** Files *)

Definition dom_dir (root : path) (domid : Z) : path := root ++ [Fmt.dec domid].
Definition entry_file (root : path) (domid hash : Z) : path := root ++ [Fmt.dec domid; Fmt.dec hash].

(** Opening the file of a new transfer; without a file the request is marked. *)
Definition open_new (root : path) req : T (bool * mcd_event_st) :=
  if if_set (ev_flags req) MCD_EVENT_OP_FLAGS_NEW then
    let req := cl_bit MCD_EVENT_OP_FLAGS_NEW req in
    fd ← sys (open_trunc (de_os de) (entry_file root (ev_domain req) (ev_hash req)));
    if fd <? 0 then mret (false, st_bit MCD_EVENT_OP_FLAGS_ERROR req)
    else mret (true, req <| ev_fd := fd |>)
  else mret (true, req).

Definition close_fd req : T mcd_event_st :=
  if negb (ev_fd req =? 0) then sys (close (ev_fd req));; mret (req <| ev_fd := 0 |>) else mret req.

Definition write_from (fd m n : Z) : T unit :=
  data ← frame_load m;
  sys (my_write (de_os de) fd (take (Z.to_nat n) data));;
  mret tt.

(** [find_and_read] into a shared page. *)
Definition read_into (fd m start n : Z) : T unit :=
  data ← frame_load m;
  r ← sys (find_and_read (de_os de) fd start (Z.to_nat n));
  frame_store m (fill 0 (snd r) data).

Definition put_step (pages : gmap Z Z) (num_page : Z) req : T (loopctl mcd_event_st) :=
  m ← page_of pages num_page;
  if PAGE_SIZE <=? ev_cursize req then
    write_from (ev_fd req) m PAGE_SIZE;;
    let req := req <| ev_cursize ::= fun n => u32 (n - PAGE_SIZE) |> in
    mret (if ev_cursize req <=? 0 then Break req else Continue req)
  else
    write_from (ev_fd req) m (ev_cursize req);;
    mret (Break (req <| ev_cursize := 0 |>)).

Definition op_put (dm : daemon) req : T mcd_event_st :=
  r ← open_new (dm_root dm) req;
  let '(ok, req) := r in
  if negb ok then mret req
  else
    req ← for_each (seqZ 0 (dm_num_shared_page dm)) (put_step (dm_shared_page dm)) req;
    if if_set (ev_flags req) MCD_EVENT_OP_FLAGS_FINAL then close_fd req else mret req.

(** The locals of the loop of [MCD_EVENT_OP_GET]. *)
Record get_loc := mk_get_loc { gl_req : mcd_event_st; gl_left : Z; gl_start : Z }.
#[local] Instance eta_get_loc : Eta get_loc := fun r => mk_get_loc (gl_req r) (gl_left r) (gl_start r).

Definition get_step (pages : gmap Z Z) (num_page : Z) (l : get_loc) : T (loopctl get_loc) :=
  m ← page_of pages num_page;
  let req := gl_req l in
  if PAGE_SIZE <=? gl_left l then
    read_into (ev_fd req) m (gl_start l) PAGE_SIZE;;
    let left := u32 (gl_left l - PAGE_SIZE) in
    let req := st_bit MCD_EVENT_OP_FLAGS_CONT (req <| ev_cursize ::= fun n => u32 (n + PAGE_SIZE) |>) in
    let start := u32 (gl_start l + PAGE_SIZE) in
    mret (if left <=? 0 then Break (mk_get_loc (st_bit MCD_EVENT_OP_FLAGS_FINAL req) left start)
          else Continue (mk_get_loc req left start))
  else
    read_into (ev_fd req) m (gl_start l) (gl_left l);;
    let req := req <| ev_cursize ::= fun n => u32 (n + gl_left l) |> in
    mret (Break (mk_get_loc (st_bit MCD_EVENT_OP_FLAGS_FINAL req) 0 (gl_start l))).

Definition op_get (dm : daemon) req : T mcd_event_st :=
  r ← open_new (dm_root dm) req;
  let '(ok, req) := r in
  if negb ok then mret req
  else
    let left_size := u32 (ev_totsize req - ev_accsize req) in
    let start_byte := if ev_accsize req =? 0 then 0 else u32 (ev_accsize req + 1) in
    l ← for_each (seqZ 0 (dm_num_shared_page dm)) (get_step (dm_shared_page dm))
          (mk_get_loc (req <| ev_cursize := 0 |>) left_size start_byte);
    let req := gl_req l in
    if if_set (ev_flags req) MCD_EVENT_OP_FLAGS_FINAL then
      req ← close_fd req;
      sys (del_file (de_os de) (entry_file (dm_root dm) (ev_domain req) (ev_hash req)));;
      mret req
    else mret req.

Definition mark (rc : Z) req : mcd_event_st := if negb (rc =? 0) then st_bit MCD_EVENT_OP_FLAGS_ERROR req else req.
Definition finish req : mcd_event_st := st_bit MCD_EVENT_OP_FLAGS_END req.

Definition op_del (dm : daemon) req : T mcd_event_st :=
  rc ← sys (del_file (de_os de) (entry_file (dm_root dm) (ev_domain req) (ev_hash req)));
  mret (finish (mark rc req)).

Definition op_dom_create (dm : daemon) req : T mcd_event_st :=
  rc ← sys (chk_dir_and_clean_create (de_os de) (dom_dir (dm_root dm) (ev_domain req)));
  mret (finish (mark rc req)).

(** Emptying a directory: removed with all it holds and made anew. *)
Definition op_clean (dir : path) req : T mcd_event_st :=
  rc ← sys (del_dir (de_os de) dir);
  rc' ← sys (chk_dir_and_create (de_os de) dir);
  mret (finish (mark rc' (mark rc req))).

Definition op_dom_destroy (dm : daemon) req : T mcd_event_st :=
  rc ← sys (del_dir (de_os de) (dom_dir (dm_root dm) (ev_domain req)));
  mret (finish (mark rc req)).

(** The [switch] of [main]; the flag says whether the request is answered. *)
Definition serve (dm : daemon) req : T (mcd_event_st * bool) :=
  let answer (m : T mcd_event_st) : T (mcd_event_st * bool) := rsp ← m; mret (rsp, true) in
  let type := ev_type req in
  if type =? MCD_EVENT_OP_PUT then answer (op_put dm req)
  else if type =? MCD_EVENT_OP_GET then answer (op_get dm req)
  else if type =? MCD_EVENT_OP_DEL then answer (op_del dm req)
  else if type =? MCD_EVENT_OP_DOM_CREATE then answer (op_dom_create dm req)
  else if type =? MCD_EVENT_OP_DOM_FLUSH then answer (op_clean (dom_dir (dm_root dm) (ev_domain req)) req)
  else if type =? MCD_EVENT_OP_DOM_DESTROY then answer (op_dom_destroy dm req)
  else if type =? MCD_EVENT_OP_FLUSH_ALL then answer (op_clean (dm_root dm) req)
  else if type =? MCD_EVENT_REQ_ADD_SHARED_PAGE then
    mcd_add_shared_page (ev_totsize req);;
    mret (finish req, false)
  else mret (finish req, true).

(** [RING_HAS_UNCONSUMED_REQUESTS], the condition of the inner loop of [main]. *)
Definition has_requests (t : tstate) : bool :=
  match t_daemon t with
  | Some dm =>
      match t_rings t !! dm_ring_page dm with
      | Some s => negb (RING_HAS_UNCONSUMED_REQUESTS s (dm_back dm) =? 0)
      | None => false
      end
  | None => false
  end.

(** One pass of that loop. *)
Definition daemon_turn : T unit :=
  t ← get;
  match t_daemon t with
  | None => mret tt
  | Some dm =>
      s ← ring_of (Some (dm_ring_page dm));
      if RING_HAS_UNCONSUMED_REQUESTS s (dm_back dm) =? 0 then mret tt
      else
        req ← get_request;
        (if negb (ev_domain req =? 0)
         then sys (chk_dir_and_create (de_os de) (dom_dir (dm_root dm) (ev_domain req)));; mret tt
         else mret tt);;
        r ← serve dm req;
        let '(rsp, resume_need) := r in
        if (resume_need : bool) then mcd_resume_page rsp;; mret tt else mret tt
  end.
End Daemon.
