(* ===== verification/Exchange.v ===== *)
(** The interface of the transport to the cache: the [minf_*] functions of
    xen/common/mcdctl.c, with the spin locks on which the cache waits for the
    end of a transfer. While a processor spins, the daemon runs. *)
From S2P Require Import Prelude CMonad Types State Core Display Ring FileOps Mcdctl Daemon.

Section Exchange.
Context (de : DaemonEnv).
Abbreviation T := (M tstate).
Implicit Types (t : tstate) (e : mcd_hashT).

(** The turns of the daemon a wait can take: what is on the ring, and one
    turn per page of the entry. *)
Definition spin_fuel t e : nat :=
  S (S (match t_daemon t with
        | Some dm => Z.to_nat (back_nr_ents (dm_back dm)) + Z.to_nat (mh_totsize e / PAGE_SIZE)
        | None => O
        end)).

(** [spin_lock]: the loop ends when the lock is free. *)
Definition spin (e : mcd_hashT) (held : tstate -> bool) : T unit :=
  t ← get;
  while (spin_fuel t e) (fun b : bool => b)
    (fun _ => daemon_turn de;; t ← get; mret (Continue (held t))) (held t);;
  mret tt.

Definition minf_put_lock e : T unit := spin e t_put;; modify (fun t => t <| t_put := true |>).
Definition minf_get_lock e : T unit := spin e t_get;; modify (fun t => t <| t_get := true |>).

Definition minf_page_out e (mh : option ptr) : T Z :=
  t ← get;
  if negb (t_enabled t) || bool_decide (mh = None) then mret (-1)
  else
    minf_put_lock e;;
    rc ← mcdctl_page_out mh None;
    (if negb (rc =? 0) then minf_put_unlock else mret tt);;
    mret rc.

Definition minf_page_in e (mh : option ptr) : T Z :=
  t ← get;
  if negb (t_enabled t) || bool_decide (mh = None) then mret (-1)
  else
    minf_get_lock e;;
    rc ← mcdctl_page_in mh None;
    (if negb (rc =? 0) then minf_get_unlock else mret tt);;
    mret rc.

Definition minf_page_del (domid hash : Z) : T Z :=
  t ← get;
  if negb (t_enabled t) then mret (-1) else mcdctl_page_del domid hash.

(** These drop the result of the request. *)
Definition enabled_do (m : T Z) : T Z :=
  t ← get;
  if negb (t_enabled t) then mret (-1) else m;; mret 0.

Definition minf_page_dom_create (domid : Z) : T Z := enabled_do (mcdctl_page_dom_create domid).
Definition minf_page_dom_flush (domid : Z) : T Z := enabled_do (mcdctl_page_dom_flush domid).
Definition minf_page_dom_destroy (domid : Z) : T Z := enabled_do (mcdctl_page_dom_destroy domid).
Definition minf_page_flush : T Z := enabled_do mcdctl_page_flush.

Definition get_num_shared_page t : Z := num_shared_page (default zero_event_domain (t_events t !! 0)).

(** ** What the cache does around a transfer *)

(** The entry at the address the request carries. *)
Definition mh_alloc e : T ptr :=
  t ← get;
  modify (fun t => t <| t_mem ::= <[t_next t := e]> |> <| t_next ::= Z.succ |>);;
  mret (t_next t).
Definition mh_release (p : ptr) : T unit := modify (fun t => t <| t_mem ::= delete p |>).

(** [mcd_page_out]: request, then wait for the lock and release it. *)
Definition page_out_wait e : T Z :=
  p ← mh_alloc e;
  rc ← minf_page_out e (Some p);
  (if rc =? 0 then minf_put_lock e;; minf_put_unlock else mret tt);;
  mh_release p;;
  mret rc.

(** [mcd_page_in]; the buffer is read back when the wait is over. *)
Definition page_in_wait e : T (Z * list Z) :=
  p ← mh_alloc e;
  rc ← minf_page_in e (Some p);
  (if rc =? 0 then minf_get_lock e;; minf_get_unlock else mret tt);;
  e' ← mh_load (Some p);
  mh_release p;;
  mret (rc, mh_key_val e').

#[export] Instance minf_transport : Minf tstate := {|
  mcdctl_enabled := t_enabled;
  State.minf_page_out := page_out_wait;
  State.minf_page_in := page_in_wait;
  State.minf_page_del := minf_page_del;
  State.minf_page_flush := minf_page_flush;
  State.minf_page_dom_create := minf_page_dom_create;
  State.minf_page_dom_flush := minf_page_dom_flush;
  State.minf_page_dom_destroy := minf_page_dom_destroy;
  minf_increase_shared_page := increase_shared_page;
  State.get_num_shared_page := get_num_shared_page;
|}.
End Exchange.
