(* ===== verification/Link.v ===== *)
(** The link between the hypervisor and the daemon: both ends of the ring
    agree on its queues and on the shared pages. What each end's access to
    the ring does to the link; the shared pages as one buffer, and flags of the
    messages as bits. *)
From S2P Require Import Prelude CMonad Types State Core Display Ring FileOps FileSpec Mcdctl Daemon Exchange.

(** The ring of one page has [2^6] slots. *)
Definition ring_log : Z := 6.

Lemma event_ring_size : RING_SIZE_OF PAGE_SIZE sizeof_mcd_event_st = 2 ^ ring_log.
Proof. reflexivity. Qed.

(** [link root pages q t]: the daemon whose files are under [root] serves
    domain 0; the shared pages are the frames [pages], in order, on both
    sides; the ring holds the queues [q]. *)
Record link_at (root : path) (pages : list Z) (q : queues mcd_event_st) (t : tstate)
    (ev : mcd_event_domain) (dm : daemon) (s : sring mcd_event_st) : Prop := {
  lk_daemon : t_daemon t = Some dm;
  lk_event : t_events t !! 0 = Some ev;
  lk_ring_page : ring_page ev = Some (dm_ring_page dm);
  lk_ring : t_rings t !! dm_ring_page dm = Some s;
  lk_rel : ring_rel ring_log s (event_front ev) (dm_back dm) q;
  lk_root : dm_root dm = root;
  lk_num : num_shared_page ev = Z.of_nat (length pages);
  lk_dm_num : dm_num_shared_page dm = Z.of_nat (length pages);
  lk_pages : forall i m, pages !! i = Some m -> shared_page ev !! Z.of_nat i = Some m;
  lk_dm_pages : forall i m, pages !! i = Some m -> dm_shared_page dm !! Z.of_nat i = Some m;
}.

Definition link root pages q t : Prop := exists ev dm s, link_at root pages q t ev dm s.

(** The pages hold [datas]. *)
Definition holds (pages : list Z) (datas : list (list Z)) t : Prop :=
  Forall2 (fun m d => t_frames t !! m = Some d /\ length d = page_len) pages datas.

(** Nothing but the ring and its indices changes. *)
Record quiet t t' : Prop := {
  qu_enabled : t_enabled t' = t_enabled t;
  qu_frames : t_frames t' = t_frames t;
  qu_put : t_put t' = t_put t;
  qu_get : t_get t' = t_get t;
  qu_mem : t_mem t' = t_mem t;
  qu_next : t_next t' = t_next t;
  qu_os : t_os t' = t_os t;
}.

#[export] Instance quiet_preorder : PreOrder quiet.
Proof. split; [done|]. intros ??? [] []. split; congruence. Qed.

Lemma holds_frames pages datas t t' : t_frames t' = t_frames t -> holds pages datas t -> holds pages datas t'.
Proof. intros H. unfold holds. by rewrite H. Qed.

Section Link.
Implicit Types (t : tstate) (q : queues mcd_event_st) (req rsp : mcd_event_st).
Context (root : path) (tol : fault -> Prop).

(** The link does not depend on the rest of the state. *)
Lemma link_frame pages q t t' : t_daemon t' = t_daemon t -> t_events t' = t_events t -> t_rings t' = t_rings t ->
  link root pages q t -> link root pages q t'.
Proof.
  intros H1 H2 H3 (ev & dm & s & []). exists ev, dm, s. split; rewrite ?H1, ?H2, ?H3; done.
Qed.

Lemma link_used pages q t : link root pages q t -> 0 <= q_used q <= 2 ^ ring_log.
Proof. intros (ev & dm & s & []). destruct lk_rel0 as [c []]. unfold q_used in *. lia. Qed.

Lemma slot_in_ring s f b q idx : ring_rel ring_log s f b q -> idx = u32 idx ->
  Z.of_nat (length (ring s)) <=? Z.of_nat (slot (2 ^ ring_log) idx) = false.
Proof.
  intros [c []] Hi. apply Z.leb_gt. rewrite Hi. pose proof (slot_lt ring_log ltac:(done) idx). lia.
Qed.

Lemma put_request_spec pages q req t (Q : unit -> tstate -> Prop) :
  link root pages q t -> q_used q < 2 ^ ring_log ->
  (forall t', quiet t t' -> link root pages (mk_queues (q_reqs q ++ [req]) (q_rsps q) (q_busy q)) t' -> Q tt t') ->
  wp tol (mcd_event_put_request 0 req) Q t.
Proof.
  intros (ev & dm & s & Hl) Hu HQ. pose proof Hl as []. unfold mcd_event_put_request, event_of, set_event.
  wp_steps. rewrite lk_event0. cbn [default from_option id]. unfold ring_of, set_ring. wp_steps.
  rewrite lk_ring_page0, lk_ring0. wp_steps.
  assert (Hn : front_nr_ents (event_front ev) = 2 ^ ring_log) by (by destruct lk_rel0 as [c []]).
  assert (Hi : req_prod_pvt (event_front ev) = u32 (req_prod_pvt (event_front ev))).
  { destruct lk_rel0 as [c []]. rewrite rr_req_pvt, rr_req_prod. by rewrite wrap_idem. }
  rewrite Hn, (slot_in_ring _ _ _ _ _ lk_rel0 Hi).
  pose proof (front_put_rel ring_log ltac:(done) req _ _ _ q lk_rel0 Hu) as Hr.
  destruct (front_put req s (event_front ev)) as [s' f'] eqn:E. wp_steps.
  apply HQ; [done|]. exists (ev <| event_front := f' |>), dm, s'.
  split; cbn; try done; by rewrite lookup_insert_eq.
Qed.

Lemma get_response_spec pages q rsp rsps t (Q : mcd_event_st -> tstate -> Prop) :
  link root pages q t -> q_rsps q = rsp :: rsps ->
  (forall t', quiet t t' -> link root pages (mk_queues (q_reqs q) rsps (q_busy q)) t' -> Q rsp t') ->
  wp tol (mcd_event_get_response 0) Q t.
Proof.
  intros (ev & dm & s & Hl) Hq HQ. pose proof Hl as []. unfold mcd_event_get_response, event_of, set_event.
  wp_steps. rewrite lk_event0. cbn [default from_option id]. unfold ring_of, set_ring. wp_steps.
  rewrite lk_ring_page0, lk_ring0. wp_steps.
  pose proof (front_get_rel ring_log ltac:(done) rsp rsps _ _ _ q lk_rel0 Hq) as Hr.
  destruct (front_get s (event_front ev)) as [[x s'] f'] eqn:E. destruct Hr as [-> Hr]. wp_steps.
  apply HQ; [done|]. exists (ev <| event_front := f' |>), dm, s'.
  split; cbn; try done; by rewrite lookup_insert_eq.
Qed.

Lemma get_request_spec pages q req reqs t (Q : mcd_event_st -> tstate -> Prop) :
  link root pages q t -> q_reqs q = req :: reqs ->
  (forall t', quiet t t' -> link root pages (mk_queues reqs (q_rsps q) (S (q_busy q))) t' -> Q req t') ->
  wp tol get_request Q t.
Proof.
  intros (ev & dm & s & Hl) Hq HQ. pose proof Hl as []. unfold get_request, the_daemon, set_daemon.
  wp_steps. rewrite lk_daemon0. unfold ring_of, set_ring. wp_steps. rewrite lk_ring0. wp_steps.
  pose proof (back_get_rel ring_log ltac:(done) req reqs _ _ _ q lk_rel0 Hq) as Hr.
  destruct (back_get s (dm_back dm)) as [[x s'] b'] eqn:E. destruct Hr as [-> Hr]. wp_steps.
  apply HQ; [done|]. exists ev, (dm <| dm_back := b' |>), s'.
  split; cbn; try done; [by rewrite lk_daemon0|by rewrite lookup_insert_eq].
Qed.

Lemma put_response_spec pages q rsp n t (Q : Z -> tstate -> Prop) :
  link root pages q t -> q_busy q = S n ->
  (forall t', quiet t t' -> link root pages (mk_queues (q_reqs q) (q_rsps q ++ [rsp]) n) t' -> Q 0 t') ->
  wp tol (put_response rsp) Q t.
Proof.
  intros (ev & dm & s & Hl) Hq HQ. pose proof Hl as []. unfold put_response, the_daemon, set_daemon.
  wp_steps. rewrite lk_daemon0. unfold ring_of, set_ring. wp_steps. rewrite lk_ring0. wp_steps.
  assert (Hn : back_nr_ents (dm_back dm) = 2 ^ ring_log) by (by destruct lk_rel0 as [c []]).
  assert (Hi : rsp_prod_pvt (dm_back dm) = u32 (rsp_prod_pvt (dm_back dm))).
  { destruct lk_rel0 as [c []]. rewrite rr_rsp_pvt, rr_rsp_prod. by rewrite wrap_idem. }
  rewrite Hn, (slot_in_ring _ _ _ _ _ lk_rel0 Hi).
  pose proof (back_put_rel ring_log ltac:(done) rsp n _ _ _ q lk_rel0 Hq) as Hr.
  destruct (back_put rsp s (dm_back dm)) as [s' b'] eqn:E. wp_steps.
  apply HQ; [done|]. exists ev, (dm <| dm_back := b' |>), s'.
  split; cbn; try done; [by rewrite lk_daemon0|by rewrite lookup_insert_eq].
Qed.

(** A request is refused when fewer than four slots are free. *)
Definition room q : bool := q_used q <=? 2 ^ ring_log - MCD_EVENT_RING_THRESHOLD.

Lemma check_ring_spec pages q t (Q : Z -> tstate -> Prop) :
  link root pages q t -> Q (if room q then 0 else 1) t -> wp tol (mcd_event_check_ring 0) Q t.
Proof.
  intros Hl HQ. pose proof (link_used _ _ _ Hl) as Hu. destruct Hl as (ev & dm & s & []).
  unfold mcd_event_check_ring, event_of. wp_steps. rewrite lk_event0. cbn [default from_option id].
  rewrite lk_ring_page0. wp_steps. rewrite (free_requests_rel ring_log ltac:(done) _ _ _ _ ltac:(done) lk_rel0).
  unfold room, MCD_EVENT_RING_THRESHOLD in *. change (2 ^ ring_log) with 64 in *.
  unfold swrap. rewrite Z.mod_small by lia.
  destruct (Z.ltb_spec (64 - q_used q + 2 ^ (32 - 1) - 2 ^ (32 - 1)) 4), (Z.leb_spec (q_used q) (64 - 4)); by try lia.
Qed.

(** ** The shared pages *)

Lemma frame_load_spec m d t (Q : list Z -> tstate -> Prop) :
  t_frames t !! m = Some d -> Q d t -> wp tol (frame_load m) Q t.
Proof. intros H HQ. unfold frame_load. wp_steps. rewrite H. by wp_steps. Qed.

Lemma holds_lookup pages datas t i m : holds pages datas t -> pages !! i = Some m ->
  exists d, datas !! i = Some d /\ t_frames t !! m = Some d /\ length d = page_len.
Proof.
  intros H Hm. destruct (Forall2_lookup_l _ _ _ _ _ H Hm) as (d & Hd & H1 & H2). by exists d.
Qed.

(** Storing into one page leaves the others alone. *)
Lemma holds_store pages datas t i m d : NoDup pages -> holds pages datas t -> pages !! i = Some m ->
  length d = page_len -> holds pages (<[i := d]> datas) (t <| t_frames ::= <[m := d]> |>).
Proof.
  intros Hnd H Hm Hd. apply Forall2_same_length_lookup. pose proof (Forall2_length _ _ _ H) as Hlen.
  rewrite length_insert. split; [done|]. intros j m' d' Hm' Hd'. cbn.
  destruct (decide (i = j)) as [->|Hij].
  - rewrite list_lookup_insert_eq in Hd' by (apply lookup_lt_Some in Hm; lia). simplify_eq.
    by rewrite lookup_insert_eq.
  - rewrite list_lookup_insert_ne in Hd' by done.
    destruct (Forall2_lookup_lr _ _ _ _ _ _ H Hm' Hd'). rewrite lookup_insert_ne; [done|].
    intros ->. by apply Hij, (NoDup_lookup pages i j m').
Qed.
End Link.

(** * Buffers *)

Lemma fill_length o b (buf : list Z) : (o + length b <= length buf)%nat -> length (fill o b buf) = length buf.
Proof. intros H. unfold fill. rewrite !length_app, length_take, length_drop. lia. Qed.

Lemma fill_nil o (buf : list Z) : fill o [] buf = buf.
Proof. unfold fill. cbn. rewrite Nat.add_0_r. apply take_drop. Qed.

Lemma fill_fill o b1 b2 (buf : list Z) : (o + length b1 <= length buf)%nat ->
  fill (o + length b1) b2 (fill o b1 buf) = fill o (b1 ++ b2) buf.
Proof.
  intros H. unfold fill. assert (Hp : length (take o buf) = o) by (rewrite length_take; lia).
  rewrite (assoc_L (++) (take o buf) b1). rewrite (take_app_le (take o buf ++ b1)) by (rewrite length_app; lia).
  rewrite take_ge by (rewrite length_app; lia). rewrite <- !(assoc_L (++)). do 3 apply f_equal.
  rewrite (assoc_L (++) (take o buf) b1). rewrite drop_app_ge by (rewrite length_app; lia).
  rewrite drop_drop, !length_app, Hp. f_equal. lia.
Qed.

Lemma take_fill o b n (buf : list Z) : (o + length b <= length buf)%nat -> (n <= o)%nat ->
  take n (fill o b buf) = take n buf.
Proof.
  intros H Hn. unfold fill. rewrite take_app_le by (rewrite length_take; lia).
  by rewrite take_take, Nat.min_l.
Qed.

Lemma take_fill_0 b (buf : list Z) : take (length b) (fill 0 b buf) = b.
Proof. unfold fill. rewrite take_0, app_nil_l. by rewrite take_app_length. Qed.

(** * Pages *)

Definition sized (datas : list (list Z)) : Prop := Forall (fun d => length d = page_len) datas.

Lemma holds_sized pages datas t : holds pages datas t -> sized datas.
Proof. induction 1 as [|m d ? ? []]; by constructor. Qed.

Lemma sized_length datas : sized datas -> length (concat datas) = (length datas * page_len)%nat.
Proof. induction 1 as [|d datas Hd _ IH]; [done|]. cbn [concat length]. rewrite length_app, IH, Hd. lia. Qed.

Lemma sized_lookup datas i d : sized datas -> datas !! i = Some d ->
  take page_len (drop (i * page_len) (concat datas)) = d.
Proof.
  intros H. revert i. induction H as [|d' datas Hd _ IH]; intros i Hi; [done|]. destruct i as [|i]; cbn [concat].
  - cbn in Hi. injection Hi as ->. cbn [Nat.mul]. rewrite drop_0, <- Hd. by rewrite take_app_length.
  - rewrite <- (IH i Hi). rewrite drop_app_ge by lia. f_equal. f_equal. lia.
Qed.

Lemma concat_fill datas i d b : sized datas -> datas !! i = Some d -> (length b <= page_len)%nat ->
  concat (<[i := fill 0 b d]> datas) = fill (i * page_len) b (concat datas).
Proof.
  intros H. revert i. induction H as [|d' datas Hd Hs IH]; intros i Hi Hb; [done|]. destruct i as [|i]; cbn [concat insert list_insert].
  - cbn in Hi. injection Hi as ->. unfold fill. cbn [Nat.mul Nat.add take]. rewrite !app_nil_l.
    rewrite drop_app_le by lia. by rewrite (assoc_L (++)).
  - rewrite IH by done. unfold fill.
    rewrite take_app_ge, drop_app_ge by lia. rewrite Hd.
    replace (S i * page_len - page_len)%nat with (i * page_len)%nat by lia.
    replace (S i * page_len + length b - page_len)%nat with (i * page_len + length b)%nat by lia.
    by rewrite (assoc_L (++)).
Qed.

(** * Flags *)

Lemma if_set_bit f k : 0 <= k -> if_set f (Z.shiftl 1 k) = Z.testbit f k.
Proof.
  intros Hk. unfold if_set. rewrite Z.shiftl_1_l. destruct (Z.testbit f k) eqn:E.
  - apply negb_true_iff, Z.eqb_neq. intros H. apply (f_equal (fun z => Z.testbit z k)) in H.
    rewrite Z.land_spec, E, Z.pow2_bits_true, Z.bits_0 in H by done. done.
  - apply negb_false_iff, Z.eqb_eq. apply Z.bits_inj'. intros j Hj. rewrite Z.land_spec, Z.bits_0.
    destruct (Z.eq_dec j k) as [->|Hne]; [by rewrite E|].
    rewrite Z.pow2_bits_false by done. by rewrite andb_false_r.
Qed.

(** What the flags of a message in transfer say: whether it opens the
    transfer and whether it is the last one; it is no error. *)
Record flagged (f : Z) (new final : bool) : Prop := {
  fl_new : Z.testbit f 0 = new;
  fl_final : Z.testbit f 2 = final;
  fl_end : Z.testbit f 3 = false;
  fl_error : Z.testbit f 4 = false;
}.

Lemma flag_new f : if_set f MCD_EVENT_OP_FLAGS_NEW = Z.testbit f 0.
Proof. by apply if_set_bit. Qed.
Lemma flag_final f : if_set f MCD_EVENT_OP_FLAGS_FINAL = Z.testbit f 2.
Proof. by apply if_set_bit. Qed.
Lemma flag_end f : if_set f MCD_EVENT_OP_FLAGS_END = Z.testbit f 3.
Proof. by apply if_set_bit. Qed.
Lemma flag_error f : if_set f MCD_EVENT_OP_FLAGS_ERROR = Z.testbit f 4.
Proof. by apply if_set_bit. Qed.

Lemma testbit_st k f j : 0 <= k -> 0 <= j -> Z.testbit (Z.lor (Z.shiftl 1 k) f) j = (k =? j) || Z.testbit f j.
Proof.
  intros Hk Hj. rewrite Z.lor_spec, Z.shiftl_1_l. f_equal. destruct (Z.eqb_spec k j) as [->|Hne].
  - by apply Z.pow2_bits_true.
  - apply Z.pow2_bits_false. lia.
Qed.

Lemma testbit_cl k f j : 0 <= k -> 0 <= j -> Z.testbit (Z.ldiff f (Z.shiftl 1 k)) j = Z.testbit f j && negb (k =? j).
Proof.
  intros Hk Hj. rewrite Z.ldiff_spec, Z.shiftl_1_l. f_equal. f_equal. destruct (Z.eqb_spec k j) as [->|Hne].
  - by apply Z.pow2_bits_true.
  - apply Z.pow2_bits_false. lia.
Qed.

Lemma flags_nonzero f k : Z.testbit f k = true -> (f =? 0) = false.
Proof. intros H. apply Z.eqb_neq. intros ->. by rewrite Z.bits_0 in H. Qed.

(** Evaluates the flags of a message built with [st_bit] and [cl_bit]. *)
Ltac flag_bits :=
  cbn [ev_flags st_bit cl_bit setter];
  unfold MCD_EVENT_OP_FLAGS_NEW, MCD_EVENT_OP_FLAGS_CONT, MCD_EVENT_OP_FLAGS_FINAL,
    MCD_EVENT_OP_FLAGS_END, MCD_EVENT_OP_FLAGS_ERROR;
  rewrite ?testbit_st, ?testbit_cl by done.
