(* ===== verification/PageOut.v ===== *)
(** Moving an entry out, chunk by chunk: the hypervisor fills the shared
    pages, the daemon appends them to the file, until the whole entry is
    there. *)
From S2P Require Import Prelude CMonad Types State Core Display Ring FileOps FileSpec Mcdctl Daemon Exchange Link.

(** Nothing but the ring and the contents of pages changes. *)
Record calm (t t' : tstate) : Prop := {
  ca_enabled : t_enabled t' = t_enabled t;
  ca_put : t_put t' = t_put t;
  ca_get : t_get t' = t_get t;
  ca_mem : t_mem t' = t_mem t;
  ca_next : t_next t' = t_next t;
  ca_os : t_os t' = t_os t;
}.
#[export] Instance calm_preorder : PreOrder calm.
Proof. split; [done|]. intros ??? [] []. split; congruence. Qed.
Lemma quiet_calm t t' : quiet t t' -> calm t t'.
Proof. by intros []. Qed.

(** Only page contents change. *)
Definition paged (t t' : tstate) : Prop :=
  calm t t' /\ t_events t' = t_events t /\ t_rings t' = t_rings t /\ t_daemon t' = t_daemon t.
#[export] Instance paged_preorder : PreOrder paged.
Proof.
  split; [done|]. intros ??? (H1 & H2 & H3 & H4) (H5 & H6 & H7 & H8).
  split; [by etransitivity|]. split; [congruence|]. split; congruence.
Qed.

Definition tot_len (e : mcd_hashT) : nat := Z.to_nat (mh_totsize e).

Lemma tot_len_Z e : Z.of_nat (tot_len e) = mh_totsize e.
Proof. unfold tot_len, mh_totsize. pose proof (u32_range (mh_key_size e + mh_val_size e)). lia. Qed.

Lemma tot_len_u32 e : Z.of_nat (tot_len e) < 2 ^ 32.
Proof. rewrite tot_len_Z. unfold mh_totsize. apply u32_range. Qed.

Lemma tot_len_fits e : buffer_ok e -> (tot_len e <= length (mh_key_val e))%nat.
Proof.
  intros (H1 & H2 & H3). unfold tot_len, mh_totsize, wrap. unfold urange in *.
  pose proof (Z.mod_le (mh_key_size e + mh_val_size e) (2 ^ 32) ltac:(lia) ltac:(lia)). lia.
Qed.

Lemma page_len_Z : PAGE_SIZE = Z.of_nat page_len.
Proof. reflexivity. Qed.

Lemma page_len_pos : (0 < page_len)%nat.
Proof. unfold page_len, PAGE_SIZE. lia. Qed.

#[global] Opaque page_len.

(** The bytes of a chunk that starts at [acc], with [n] shared pages. *)
Definition chunk (e : mcd_hashT) (n acc : nat) : nat := min (tot_len e - acc) (n * page_len).

Record put_msg (p : ptr) (e : mcd_hashT) (n acc : nat) (fd : Z) (new : bool) (x : mcd_event_st) : Prop := {
  pm_type : ev_type x = MCD_EVENT_OP_PUT;
  pm_domain : ev_domain x = mh_domain e;
  pm_hash : ev_hash x = mh_hash e;
  pm_tot : ev_totsize x = mh_totsize e;
  pm_acc : ev_accsize x = Z.of_nat (acc + chunk e n acc);
  pm_cur : ev_cursize x = Z.of_nat (chunk e n acc);
  pm_fd : ev_fd x = fd;
  pm_data : ev_mcd_data x = Some p;
  pm_flags : flagged (ev_flags x) new (bool_decide (acc + chunk e n acc = tot_len e)%nat);
  pm_some : Z.testbit (ev_flags x) 1 || Z.testbit (ev_flags x) 2 = true;
}.

Section PageOut.
Context (root : path) (tol : fault -> Prop) (pages : list Z) (Hnd : NoDup pages) (Hn : pages <> []).
Implicit Types (t : tstate) (q : queues mcd_event_st) (e : mcd_hashT) (p : ptr).

Abbreviation n := (length pages).

Lemma n_pos : (0 < n)%nat.
Proof using Hn. apply Nat.neq_0_lt_0. by intros H%length_zero_iff_nil. Qed.

Lemma copy_out_spec p e i m datas off len t (Q : unit -> tstate -> Prop) :
  t_mem t !! p = Some e -> pages !! i = Some m -> holds pages datas t ->
  (off + len <= length (mh_key_val e))%nat -> (len <= page_len)%nat ->
  (forall t' datas', paged t t' -> holds pages datas' t' ->
     concat datas' = fill (i * page_len) (take len (drop off (mh_key_val e))) (concat datas) -> Q tt t') ->
  wp tol (copy_out (Some p) m (Z.of_nat off) (Z.of_nat len)) Q t.
Proof using Hnd.
  intros He Hm Hh Ho Hl HQ. destruct (holds_lookup _ _ _ _ _ Hh Hm) as (d & Hd & Hf & Hdl).
  unfold copy_out, mh_load. wp_steps. rewrite He. wp_steps. eapply frame_load_spec; [done|]. wp_steps.
  destruct (Z.ltb_spec (Z.of_nat (length (mh_key_val e))) (Z.of_nat off + Z.of_nat len)); [lia|].
  unfold frame_store. wp_steps. rewrite !Nat2Z.id.
  set (b := take len (drop off (mh_key_val e))).
  assert (Hb : length b = len) by (unfold b; rewrite length_take, length_drop; lia).
  apply (HQ _ (<[i := fill 0 b d]> datas)).
  - done.
  - apply holds_store; [done..|]. rewrite fill_length; [done|lia].
  - apply concat_fill; [by eapply holds_sized|done|fold b; lia].
Qed.

(** The contents of the pages when the first [len] bytes from [acc] on were
    copied. *)
Definition filled e acc len datas (datas' : list (list Z)) : Prop :=
  concat datas' = fill 0 (take len (drop acc (mh_key_val e))) (concat datas).

Lemma filled_step e acc len len' i datas datas1 datas2 t : holds pages datas t ->
  len = (i * page_len)%nat -> (i < n)%nat -> (acc + len <= length (mh_key_val e))%nat ->
  filled e acc len datas datas1 ->
  concat datas2 = fill (i * page_len) (take len' (drop (acc + len) (mh_key_val e))) (concat datas1) ->
  filled e acc (len + len') datas datas2.
Proof using.
  unfold filled. intros Hh -> Hi Hl H1 H2.
  assert (Htl : length (take (i * page_len) (drop acc (mh_key_val e))) = (0 + i * page_len)%nat).
  { rewrite length_take, length_drop. lia. }
  pose proof (sized_length datas (holds_sized _ _ _ Hh)) as Hs. pose proof (Forall2_length _ _ _ Hh) as Hpl.
  rewrite H2, H1. cbn [Nat.add] in Htl. rewrite <- Htl at 1.
  change (length (take (i * page_len) (drop acc (mh_key_val e))))
    with (0 + length (take (i * page_len) (drop acc (mh_key_val e))))%nat at 1.
  rewrite fill_fill by (rewrite Htl, Hs; nia). f_equal. rewrite <- drop_drop, take_take_drop. done.
Qed.

(** A request whose fields for the progress of the transfer have moved on. *)
Definition moved (req x : mcd_event_st) (acc cur : nat) : Prop :=
  x = req <| ev_accsize := Z.of_nat acc |> <| ev_cursize := Z.of_nat cur |> <| ev_flags := ev_flags x |>.

(** The loop over the shared pages after [i] of them. *)
Record out_inv e acc req datas t (i : nat) (x : mcd_event_st) t' (datas' : list (list Z)) : Prop := {
  oi_i : (i <= n)%nat;
  oi_paged : paged t t';
  oi_holds : holds pages datas' t';
  oi_left : i = O \/ (i * page_len < tot_len e - acc)%nat;
  oi_filled : filled e acc (i * page_len) datas datas';
  oi_msg : moved req x (acc + i * page_len) (i * page_len);
  oi_bits : forall j, 0 <= j -> j <> 1 -> Z.testbit (ev_flags x) j = Z.testbit (ev_flags req) j;
  oi_cont : i = O \/ Z.testbit (ev_flags x) 1 = true;
}.

(** The loop is done: the chunk is in the pages and the message says so. *)
Record out_done e acc req datas t (x : mcd_event_st) t' : Prop := {
  od_paged : paged t t';
  od_holds : exists datas', holds pages datas' t' /\ filled e acc (chunk e n acc) datas datas';
  od_msg : moved req x (acc + chunk e n acc) (chunk e n acc);
  od_bits : forall j, 0 <= j -> j <> 1 -> j <> 2 -> Z.testbit (ev_flags x) j = Z.testbit (ev_flags req) j;
  od_final : Z.testbit (ev_flags x) 2 =
    Z.testbit (ev_flags req) 2 || bool_decide (acc + chunk e n acc = tot_len e)%nat;
  od_some : Z.testbit (ev_flags x) 1 || Z.testbit (ev_flags x) 2 = true;
}.

Lemma out_inv_end e acc req datas t x t' datas' : (acc <= tot_len e)%nat ->
  out_inv e acc req datas t n x t' datas' -> out_done e acc req datas t x t'.
Proof using Hn.
  intros Ha []. pose proof page_len_pos as HP0. pose proof n_pos as Hn0.
  destruct oi_left0 as [|Hlt]; [lia|]. destruct oi_cont0 as [|Hcont]; [lia|].
  assert (Hck : chunk e n acc = (n * page_len)%nat) by (unfold chunk; lia).
  split; rewrite ?Hck; [done|by exists datas'|done| | |].
  - intros j Hj Hj1 _. by apply oi_bits0.
  - rewrite bool_decide_eq_false_2 by lia. rewrite orb_false_r. by apply oi_bits0.
  - by rewrite Hcont.
Qed.

Lemma page_out_page p e acc req pgs datas t i x t' datas' :
  t_mem t !! p = Some e -> buffer_ok e -> (acc <= tot_len e)%nat -> holds pages datas t ->
  (forall i m, pages !! i = Some m -> pgs !! Z.of_nat i = Some m) -> ev_totsize req = mh_totsize e ->
  out_inv e acc req datas t i x t' datas' -> (i < n)%nat ->
  wp tol (page_out_step (Some p) pgs (Z.of_nat i) x) (fun c t2 =>
    match c with
    | Continue x' => exists datas2, out_inv e acc req datas t (S i) x' t2 datas2
    | Break x' => out_done e acc req datas t x' t2
    end) t'.
Proof using Hnd.
  intros He Hb Hacc Hh Hp Htot [] Hi. rename oi_msg0 into Hx. unfold moved in Hx.
  pose proof (tot_len_fits e Hb) as Hfit. pose proof (tot_len_u32 e) as Hu. pose proof (tot_len_Z e) as HZ.
  pose proof page_len_Z as HP. pose proof page_len_pos as HP0.
  destruct (lookup_lt_is_Some_2 pages i ltac:(lia)) as [m Hm].
  unfold page_out_step, page_of. wp_steps. rewrite (Hp _ _ Hm). wp_steps.
  assert (Hmem : t_mem t' !! p = Some e) by (destruct oi_paged0 as [[] _]; congruence).
  assert (Hxa : ev_accsize x = Z.of_nat (acc + i * page_len)) by (by rewrite Hx).
  assert (Hxt : ev_totsize x = Z.of_nat (tot_len e)) by (rewrite Hx; cbn; congruence).
  rewrite Hxa, Hxt. rewrite (wrap_id _ (_ - _)) by (unfold urange; lia).
  destruct (Z.ltb_spec PAGE_SIZE (Z.of_nat (tot_len e) - Z.of_nat (acc + i * page_len))) as [Hbig|Hsmall].
  - wp_steps. rewrite HP. eapply copy_out_spec; [done..|lia|lia|]. intros t2 datas2 Hpt2 Hh2 Hcc2. wp_steps.
    cbn [ev_totsize ev_accsize ev_cursize setter st_bit]. rewrite Hxa, Hxt.
    rewrite !(wrap_id _ (Z.of_nat _ + _)) by (unfold urange; lia).
    rewrite (wrap_id _ (_ - _)) by (unfold urange; lia).
    destruct (Z.leb_spec (Z.of_nat (tot_len e) - (Z.of_nat (acc + i * page_len) + Z.of_nat page_len)) 0); [lia|].
    exists datas2. split; [lia|by etransitivity|done|right; lia| | | |].
    + replace (S i * page_len)%nat with (i * page_len + page_len)%nat by lia. eapply filled_step; [done..|lia|done|done].
    + unfold moved. rewrite Hx. unfold st_bit, setter. cbn.
      rewrite ?(wrap_id _ (Z.of_nat _ + _)) by (unfold urange; lia). f_equal; lia.
    + intros j Hj Hj1. flag_bits. rewrite oi_bits0 by done. destruct (Z.eqb_spec 1 j); [lia|done].
    + right. flag_bits. done.
  - wp_steps. rewrite <- Nat2Z.inj_sub by lia.
    eapply copy_out_spec; [done..|lia|lia|]. intros t2 datas2 Hpt2 Hh2 Hcc2. wp_steps.
    assert (Hck : chunk e n acc = (tot_len e - acc)%nat) by (unfold chunk; nia).
    assert (Hsum : (i * page_len + (tot_len e - (acc + i * page_len)) = tot_len e - acc)%nat) by lia.
    split; rewrite ?Hck; [by etransitivity| | | | |].
    + exists datas2. split; [done|]. rewrite <- Hsum. eapply filled_step; [done..|lia|done|done].
    + unfold moved. rewrite Hx. unfold st_bit, setter. cbn.
      rewrite !(wrap_id _ (Z.of_nat _ + _)) by (unfold urange; lia). f_equal; lia.
    + intros j Hj Hj1 Hj2. flag_bits. rewrite oi_bits0 by done. destruct (Z.eqb_spec 2 j); [lia|done].
    + flag_bits. rewrite bool_decide_eq_true_2 by lia. by rewrite orb_true_r.
    + flag_bits. by rewrite orb_true_r.
Qed.

Lemma page_out_loop p e acc req pgs datas t :
  t_mem t !! p = Some e -> buffer_ok e -> (acc <= tot_len e)%nat -> holds pages datas t ->
  (forall i m, pages !! i = Some m -> pgs !! Z.of_nat i = Some m) ->
  ev_totsize req = mh_totsize e -> ev_accsize req = Z.of_nat acc -> ev_cursize req = 0 ->
  wp tol (for_each (seqZ 0 (Z.of_nat n)) (page_out_step (Some p) pgs) req)
    (out_done e acc req datas t) t.
Proof using Hnd Hn.
  intros He Hb Hacc Hh Hp Htot Ha Hc. pose proof n_pos as Hn0.
  eapply (wp_for_each _ _ (fun xs x t' => exists i datas', xs = seqZ (Z.of_nat i) (Z.of_nat n - Z.of_nat i) /\
    out_inv e acc req datas t i x t' datas')).
  - exists O, datas. split; [by rewrite Z.sub_0_r|].
    split; [lia|done|done|by left| | |done|by left].
    + unfold filled. by rewrite take_0, fill_nil.
    + unfold moved. rewrite Nat.add_0_r. cbn. destruct req; cbn in *. by subst.
  - intros x t' (i & datas' & Hxs & Hi). assert (i = n) as ->; [|by eapply out_inv_end].
    destruct (decide (i = n)) as [|Hne]; [done|]. destruct Hi.
    rewrite (seqZ_cons _ (Z.of_nat n - Z.of_nat i)) in Hxs by lia. done.
  - intros y ys x t' (i & datas' & Hxs & Hi).
    destruct (decide (i = n)) as [->|Hne]; [by rewrite Z.sub_diag in Hxs|]. pose proof (oi_i _ _ _ _ _ _ _ _ _ Hi).
    rewrite seqZ_cons in Hxs by lia. injection Hxs as -> ->.
    eapply wp_mono; [eapply page_out_page; [done..|lia]|]. intros [x'|x'] t2; [|done].
    intros [datas2 H2]. exists (S i), datas2. split; [f_equal; lia|done].
Qed.

(** ** The hypervisor sends a chunk *)

(** The request before the pages are filled. *)
Record put_req (p : ptr) e (acc : nat) (fd : Z) (new : bool) (req : mcd_event_st) : Prop := {
  pr_type : ev_type req = MCD_EVENT_OP_PUT;
  pr_domain : ev_domain req = mh_domain e;
  pr_hash : ev_hash req = mh_hash e;
  pr_tot : ev_totsize req = mh_totsize e;
  pr_acc : ev_accsize req = Z.of_nat acc;
  pr_cur : ev_cursize req = 0;
  pr_fd : ev_fd req = fd;
  pr_data : ev_mcd_data req = Some p;
  pr_flags : flagged (ev_flags req) new false;
}.

Lemma put_msg_of_done p e acc fd new req datas t x t' : put_req p e acc fd new req ->
  out_done e acc req datas t x t' -> put_msg p e n acc fd new x.
Proof using.
  intros [] []. destruct pr_flags0. unfold moved in od_msg0.
  split; try (rewrite od_msg0; cbn; done); try done.
  split; rewrite ?od_bits0, ?od_final0 by done; try done. by rewrite fl_final.
Qed.

(** The response that continues a transfer has it at [acc] with file [fd]. *)
Definition continues (rsp : option mcd_event_st) (acc : nat) (fd : Z) : Prop :=
  match rsp with
  | None => acc = O /\ fd = 0
  | Some r => ev_accsize r = Z.of_nat acc /\ ev_fd r = fd
  end.

Definition sent q (x : mcd_event_st) : queues mcd_event_st := mk_queues (q_reqs q ++ [x]) (q_rsps q) (q_busy q).

Lemma mcdctl_page_out_spec p e acc fd rsp q datas t :
  link root pages q t -> room q = true -> t_mem t !! p = Some e -> buffer_ok e -> (acc <= tot_len e)%nat ->
  holds pages datas t -> continues rsp acc fd ->
  wp tol (mcdctl_page_out (Some p) rsp) (fun rc t' => rc = 0 /\ calm t t' /\
    exists x datas', put_msg p e n acc fd (bool_decide (rsp = None)) x /\ link root pages (sent q x) t' /\
      holds pages datas' t' /\ filled e acc (chunk e n acc) datas datas') t.
Proof using Hnd Hn.
  intros Hl Hroom He Hb Ha Hh Hc. unfold mcdctl_page_out. wp_steps.
  eapply check_ring_spec; [done|]. rewrite Hroom. cbn [Z.eqb negb]. wp_steps.
  unfold mh_load. wp_steps. rewrite He. wp_steps. unfold event_of. wp_steps.
  pose proof Hl as (ev & dm & s & []). rewrite lk_event. cbn [default from_option id]. rewrite lk_num.
  match goal with |- wp _ (for_each _ _ ?r) _ _ => set (req := r) end.
  assert (Hreq : put_req p e acc fd (bool_decide (rsp = None)) req).
  { destruct rsp as [r|]; cbn in Hc; destruct Hc as [Hc1 Hc2];
      [rewrite bool_decide_eq_false_2 by done|rewrite bool_decide_eq_true_2 by done];
      subst; by split; [..|split]. }
  pose proof Hreq as [].
  eapply wp_mono; [apply page_out_loop; eauto|]. intros x t' Hd. pose proof Hd as [].
  wp_steps. destruct od_paged0 as (Hcalm & Hev & Hrg & Hdm).
  eapply (put_request_spec root tol pages q).
  - by eapply link_frame.
  - apply Z.leb_le in Hroom. unfold MCD_EVENT_RING_THRESHOLD in Hroom. lia.
  - intros t2 Hq Hl2. wp_steps. split; [done|]. split; [etransitivity; [done|by apply quiet_calm]|].
    destruct od_holds0 as (datas' & Hh' & Hf). exists x, datas'.
    split; [by eapply put_msg_of_done|]. split; [done|]. split; [|done].
    eapply holds_frames; [|done]. apply qu_frames. done.
Qed.
End PageOut.
