(* ===== verification/PutFile.v ===== *)
(** The daemon's side of moving an entry out: what it needs of the file, as an
    interface, and the chunk it appends. *)
From S2P Require Import Prelude CMonad Types State Core Display Ring FileOps FileSpec Mcdctl Daemon Exchange Link PageOut.

(** What the transfer of one entry asks of the file system, for the file
    [dom/hash] under [root]. [pf_before] holds when the transfer starts,
    [pf_open bs fd] while the file is open as [fd] with the bytes [bs],
    [pf_closed bs] when it is complete, [pf_failed] when it could not be
    opened. *)
Class PutFiles (oe : OsEnv) (root : path) (dom hash : Z) := {
  pf_before : os -> Prop;
  pf_ready : os -> Prop;
  pf_open : list Z -> Z -> os -> Prop;
  pf_closed : list Z -> os -> Prop;
  pf_failed : os -> Prop;
  pf_dir0 : forall o, pf_before o -> dom = 0 -> pf_ready o;
  pf_dir : forall o, pf_before o -> dom <> 0 ->
    wp no_fault (chk_dir_and_create oe (dom_dir root dom)) (fun _ o' => pf_ready o') o;
  pf_dir_open : forall bs fd o, pf_open bs fd o -> dom <> 0 ->
    wp no_fault (chk_dir_and_create oe (dom_dir root dom)) (fun _ o' => pf_open bs fd o') o;
  pf_open_ok : forall o, pf_ready o ->
    wp no_fault (open_trunc oe (entry_file root dom hash))
      (fun fd o' => if fd <? 0 then pf_failed o' else pf_open [] fd o') o;
  pf_write_ok : forall bs fd o b, pf_open bs fd o ->
    wp no_fault (my_write oe fd b) (fun _ o' => pf_open (bs ++ b) fd o') o;
  pf_close_ok : forall bs fd o, pf_open bs fd o ->
    pf_closed bs (if fd =? 0 then o else o <| fds ::= delete fd |>);
}.

(** Only the files change. *)
Definition filed (t t' : tstate) : Prop := t' = t <| t_os := t_os t' |>.

Lemma filed_refl t : filed t t.
Proof. by destruct t. Qed.
Lemma filed_trans t1 t2 t3 : filed t1 t2 -> filed t2 t3 -> filed t1 t3.
Proof. unfold filed, setter. destruct t1, t2, t3. cbn. congruence. Qed.
Lemma filed_os t o : filed t (t <| t_os := o |>).
Proof. done. Qed.
Lemma filed_link root pages q t t' : filed t t' -> link root pages q t -> link root pages q t'.
Proof. intros -> Hl. by apply (link_frame root pages q t). Qed.
Lemma filed_holds pages datas t t' : filed t t' -> holds pages datas t -> holds pages datas t'.
Proof. intros -> Hh. by apply (holds_frames pages datas t). Qed.

Lemma wp_sys {A} tol (m : M os A) (Q : A -> tstate -> Prop) t :
  wp no_fault m (fun a o => Q a (t <| t_os := o |>)) (t_os t) -> wp tol (sys m) Q t.
Proof. intros H. unfold sys. apply wp_zoom. unfold wp, no_fault in *. by destruct (m (t_os t)). Qed.

Section PutFile.
Context (de : DaemonEnv) (root : path) (tol : fault -> Prop) (pages : list Z) (Hn : pages <> []).
Context (dom hash : Z) `{!PutFiles (de_os de) root dom hash}.
Implicit Types (t : tstate) (e : mcd_hashT) (x req : mcd_event_st).

Abbreviation n := (length pages).

Lemma write_from_spec bs fd m d len t (Q : unit -> tstate -> Prop) : t_frames t !! m = Some d ->
  pf_open bs fd (t_os t) ->
  (forall t', filed t t' -> pf_open (bs ++ take len d) fd (t_os t') -> Q tt t') ->
  wp tol (write_from de fd m (Z.of_nat len)) Q t.
Proof.
  intros Hm Ho HQ. unfold write_from. wp_steps. eapply frame_load_spec; [done|]. wp_steps. rewrite Nat2Z.id.
  apply wp_sys. eapply wp_mono; [by apply pf_write_ok|]. intros r o' Ho'. cbn. wp_steps. by apply HQ.
Qed.

(** The loop over the pages: [i] pages of the [len] bytes are written. *)
Lemma put_loop bs fd len pgs datas req t : holds pages datas t ->
  (forall i m, pages !! i = Some m -> pgs !! Z.of_nat i = Some m) ->
  ev_cursize req = Z.of_nat len -> (len <= n * page_len)%nat -> Z.of_nat len < 2 ^ 32 ->
  ev_fd req = fd -> pf_open bs fd (t_os t) ->
  wp tol (for_each (seqZ 0 (Z.of_nat n)) (put_step de pgs) req) (fun x t' =>
    x = req <| ev_cursize := 0 |> /\ filed t t' /\ pf_open (bs ++ take len (concat datas)) fd (t_os t')) t.
Proof using Hn.
  intros Hh Hp Hc Hl Hlt Hfd Ho. pose proof page_len_Z as HP. pose proof page_len_pos as HP0.
  assert (Hn0 : (0 < n)%nat) by (apply Nat.neq_0_lt_0; by intros H%length_zero_iff_nil).
  pose proof (holds_sized _ _ _ Hh) as Hs.
  eapply (wp_for_each _ _ (fun xs x t' => exists i, xs = seqZ (Z.of_nat i) (Z.of_nat n - Z.of_nat i) /\
    (i = O \/ i * page_len < len)%nat /\ (i <= n)%nat /\ filed t t' /\
    x = req <| ev_cursize := Z.of_nat (len - i * page_len) |> /\
    pf_open (bs ++ take (i * page_len) (concat datas)) fd (t_os t'))).
  - exists O. rewrite Z.sub_0_r. split; [done|]. split; [by left|]. split; [lia|]. split; [apply filed_refl|].
    split; [cbn; rewrite Nat.sub_0_r; destruct req; cbn in *; by subst|by rewrite take_0, app_nil_r].
  - intros x t' (i & Hxs & Hi & Hin & _). exfalso.
    destruct (decide (i = n)) as [->|Hne]; [lia|].
    rewrite (seqZ_cons _ (Z.of_nat n - Z.of_nat i)) in Hxs by lia. done.
  - intros y ys x t' (i & Hxs & Hi & Hin & Hf & Hx & Ho').
    destruct (decide (i = n)) as [->|Hne]; [by rewrite Z.sub_diag in Hxs|].
    rewrite seqZ_cons in Hxs by lia. injection Hxs as -> ->.
    destruct (lookup_lt_is_Some_2 pages i ltac:(lia)) as [m Hm].
    destruct (holds_lookup _ _ _ _ _ (filed_holds _ _ _ _ Hf Hh) Hm) as (d & Hd & Hfr & Hdl).
    assert (Hdc : forall k, (k <= page_len)%nat -> take k d = take k (drop (i * page_len) (concat datas))).
    { intros k Hk. rewrite <- (sized_lookup _ _ _ Hs Hd), take_take. by rewrite Nat.min_l by lia. }
    unfold put_step, page_of. wp_steps. rewrite (Hp _ _ Hm). wp_steps.
    assert (Hxc : ev_cursize x = Z.of_nat (len - i * page_len)) by (by rewrite Hx).
    assert (Hxf : ev_fd x = fd) by (by rewrite Hx). rewrite Hxc, Hxf.
    destruct (Z.leb_spec PAGE_SIZE (Z.of_nat (len - i * page_len))) as [Hbig|Hsmall].
    + wp_steps. rewrite HP. eapply write_from_spec; [done..|]. intros t2 Hf2 Ho2. wp_steps.
      cbn [ev_cursize setter]. rewrite Hxc. rewrite wrap_id by (unfold urange; lia).
      rewrite Hdc in Ho2 by lia. rewrite <- (assoc_L (++)), take_take_drop in Ho2.
      destruct (Z.leb_spec (Z.of_nat (len - i * page_len) - Z.of_nat page_len) 0) as [Hz|Hz].
      * split; [|split; [by eapply filed_trans|]].
        { rewrite Hx. unfold setter. cbn. rewrite wrap_id by (unfold urange; lia). f_equal; lia. }
        by replace len with (i * page_len + page_len)%nat by lia.
      * exists (S i). split; [f_equal; lia|]. split; [right; lia|]. split; [lia|]. split; [by eapply filed_trans|].
        split; [|by replace (S i * page_len)%nat with (i * page_len + page_len)%nat by lia].
        rewrite Hx. unfold setter. cbn. rewrite wrap_id by (unfold urange; lia). f_equal; lia.
    + wp_steps. eapply write_from_spec; [done..|]. intros t2 Hf2 Ho2. wp_steps.
      rewrite Hdc in Ho2 by lia. rewrite <- (assoc_L (++)), take_take_drop in Ho2.
      replace (i * page_len + (len - i * page_len))%nat with len in Ho2 by lia.
      split; [by rewrite Hx|]. split; [by eapply filed_trans|done].
Qed.

(** ** The answer of the daemon *)

(** The state of the file when a chunk arrives, and when it was appended. *)
Definition file_at (new : bool) (bs : list Z) (fd : Z) (o : os) : Prop :=
  if new then bs = [] /\ pf_ready o else pf_open bs fd o.

Definition file_after (final : bool) (bs : list Z) (fd : Z) (o : os) : Prop :=
  if final then pf_closed bs o else pf_open bs fd o.

(** The answer that reports a chunk, and the one that reports a failure. *)
Record put_ans (p : ptr) (acc : nat) (fd : Z) (final : bool) (r : mcd_event_st) : Prop := {
  pa_type : ev_type r = MCD_EVENT_OP_PUT;
  pa_data : ev_mcd_data r = Some p;
  pa_acc : ev_accsize r = Z.of_nat acc;
  pa_fd : final = false -> ev_fd r = fd;
  pa_flags : flagged (ev_flags r) false final;
  pa_some : (ev_flags r =? 0) = false;
}.

Definition put_error (r : mcd_event_st) : Prop :=
  ev_type r = MCD_EVENT_OP_PUT /\ Z.testbit (ev_flags r) 4 = true.

Lemma open_new_spec p e nq acc fd new x bs t : put_msg p e nq acc fd new x -> mh_domain e = dom -> mh_hash e = hash ->
  file_at new bs fd (t_os t) ->
  wp tol (open_new de root x) (fun r t' => filed t t' /\
    let '(ok, y) := r in
    if ok : bool then exists fd', (new = false -> fd' = fd) /\ pf_open bs fd' (t_os t') /\
      y = x <| ev_fd := fd' |> <| ev_flags := ev_flags y |> /\
      (forall j, 0 < j -> Z.testbit (ev_flags y) j = Z.testbit (ev_flags x) j) /\ Z.testbit (ev_flags y) 0 = false
    else new = true /\ pf_failed (t_os t') /\ put_error y) t.
Proof.
  intros [] Hd Hh Ho. unfold open_new. rewrite flag_new. destruct pm_flags. rewrite fl_new.
  destruct new; cbn [file_at] in Ho.
  - destruct Ho as [-> Ho]. wp_steps. apply wp_sys.
    assert (Hfile : entry_file root (ev_domain x) (ev_hash x) = entry_file root dom hash) by congruence.
    change (ev_domain (cl_bit _ x)) with (ev_domain x). change (ev_hash (cl_bit _ x)) with (ev_hash x). rewrite Hfile.
    eapply wp_mono; [by apply pf_open_ok|]. intros fd' o' Ho'. cbn beta in Ho' |- *. revert Ho'.
    destruct (Z.ltb_spec fd' 0); wp_steps; intros Ho'; (split; [done|]).
    + split; [done|]. split; [done|]. split; [done|]. flag_bits. done.
    + exists fd'. split; [done|]. split; [done|]. split; [by destruct x|].
      split; [|flag_bits; by rewrite andb_false_r]. intros j Hj. flag_bits. rewrite testbit_cl by lia.
      destruct (Z.eqb_spec 0 j); [lia|]. by rewrite andb_true_r.
  - wp_steps. split; [apply filed_refl|]. exists fd. split; [done|]. split; [done|].
    split; [destruct x; cbn in *; by subst|done].
Qed.

Lemma close_fd_spec bs fd y t (Q : mcd_event_st -> tstate -> Prop) : ev_fd y = fd -> pf_open bs fd (t_os t) ->
  (forall t', filed t t' -> pf_closed bs (t_os t') -> Q (y <| ev_fd := 0 |>) t') ->
  wp tol (close_fd y) Q t.
Proof.
  intros Hfd Ho HQ. unfold close_fd. rewrite Hfd. pose proof (pf_close_ok _ _ _ Ho) as Hc.
  destruct (Z.eqb_spec fd 0) as [->|Hne]; cbn [negb]; wp_steps.
  - assert (y = y <| ev_fd := 0 |>) as E by (destruct y; cbn in *; by subst). rewrite E.
    apply HQ; [apply filed_refl|done].
  - apply wp_sys. unfold close. wp_steps. by apply HQ.
Qed.

Lemma op_put_spec p e nq acc fd new x bs dm datas t : (nq <= n)%nat ->
  put_msg p e nq acc fd new x -> mh_domain e = dom -> mh_hash e = hash ->
  dm_root dm = root -> dm_num_shared_page dm = Z.of_nat n ->
  (forall i m, pages !! i = Some m -> dm_shared_page dm !! Z.of_nat i = Some m) ->
  holds pages datas t -> file_at new bs fd (t_os t) ->
  wp tol (op_put de dm x) (fun r t' => filed t t' /\
    let final := bool_decide (acc + chunk e nq acc = tot_len e)%nat in
    (new = true /\ pf_failed (t_os t') /\ put_error r \/
     exists fd', (new = false -> fd' = fd) /\ put_ans p (acc + chunk e nq acc) fd' final r /\
       file_after final (bs ++ take (chunk e nq acc) (concat datas)) fd' (t_os t'))) t.
Proof using Hn.
  intros Hnq Hm Hd Hh Hr Hnum Hp Hhd Ho. unfold op_put. rewrite Hr. wp_steps.
  eapply wp_mono; [by eapply open_new_spec|]. intros [ok y] t1 [Hf1 Hy].
  destruct ok; cbn [negb]; wp_steps; [|split; [done|by left]].
  destruct Hy as (fd' & Hfd & Ho1 & Hy & Hbits & Hb0). destruct Hm. rewrite Hnum.
  pose proof (tot_len_u32 e) as Hu.
  assert (Hyc : ev_cursize y = Z.of_nat (chunk e nq acc)) by (by rewrite Hy).
  eapply wp_mono; [apply (put_loop bs fd'); eauto; [by eapply filed_holds|unfold chunk; nia|unfold chunk; lia|by rewrite Hy]|].
  intros z t2 (Hz & Hf2 & Ho2). assert (Hzf : ev_flags z = ev_flags y) by (by rewrite Hz).
  rewrite flag_final, Hzf, Hbits by done. destruct pm_flags. rewrite fl_final.
  assert (Hzp : put_ans p (acc + chunk e nq acc) fd' (bool_decide (acc + chunk e nq acc = tot_len e)%nat) z).
  { split; [by rewrite Hz; cbn; rewrite Hy|by rewrite Hz; cbn; rewrite Hy|by rewrite Hz; cbn; rewrite Hy|
            by rewrite Hz; cbn; rewrite Hy| |].
    - rewrite Hzf. split; rewrite ?Hbits by done; done.
    - rewrite Hzf. apply orb_true_iff in pm_some as [H|H]; [apply (flags_nonzero _ 1)|apply (flags_nonzero _ 2)];
        by rewrite Hbits. }
  destruct (bool_decide _) eqn:Hfin.
  - eapply (close_fd_spec _ fd'); [by rewrite Hz; cbn; rewrite Hy|done|]. intros t3 Hf3 Ho3.
    split; [by eapply filed_trans; [|eapply filed_trans]|]. right. exists fd'. split; [done|]. split; [|done].
    destruct Hzp. by split.
  - wp_steps. split; [by eapply filed_trans|]. right. by exists fd'.
Qed.
End PutFile.
