(* ===== verification/Turns.v ===== *)
(** The turns of the daemon on the requests the cache does not wait for:
    removals, directories, flushes, and more shared pages. Each takes one
    request off the ring and leaves the link in order. *)
From S2P Require Import Prelude CMonad Types State Core Display Ring FileOps FileSpec Mcdctl Daemon Exchange Link PageOut PutFile.

(** * System calls always come back *)

Section Total.
Context (oe : OsEnv).
Implicit Types (o : os) (p : path).

Definition total {A} (m : M os A) : Prop := forall o, wp no_fault m (fun _ _ => True) o.

Lemma total_bind {A B} (m : M os A) (k : A -> M os B) : total m -> (forall a, total (k a)) -> total (mbind k m).
Proof using. intros Hm Hk o. wp_steps. eapply wp_mono; [apply Hm|]. intros a o' _. apply Hk. Qed.

Lemma granted_total : total (granted oe).
Proof using. intros o. by apply granted_spec. Qed.

Lemma mkdir_total p : total (mkdir oe p).
Proof using. intros o. unfold mkdir. wp_steps. apply granted_spec. intros o' _. wp_steps. by destruct (_ && _); wp_steps. Qed.

Lemma chk_dir_total p : total (chk_dir_and_create oe p).
Proof using.
  intros o. unfold chk_dir_and_create, stat. wp_steps. destruct (fs o !! p); wp_steps; [done|].
  eapply wp_mono; [apply mkdir_total|]. intros _ o' _. by wp_steps.
Qed.

Lemma del_dir_any p : total (del_dir oe p).
Proof using. intros o. eapply wp_mono; [apply del_dir_total|]. done. Qed.

Lemma chk_clean_total p : total (chk_dir_and_clean_create oe p).
Proof using.
  intros o. unfold chk_dir_and_clean_create, stat. wp_steps. destruct (fs o !! p); wp_steps.
  - eapply wp_mono; [apply del_dir_any|]. intros _ o1 _. wp_steps.
    eapply wp_mono; [apply mkdir_total|]. intros _ o' _. by wp_steps.
  - eapply wp_mono; [apply mkdir_total|]. intros _ o' _. by wp_steps.
Qed.

Lemma del_file_total p : total (del_file oe p).
Proof using. intros o. eapply wp_mono; [apply unlink_total|]. done. Qed.

Lemma open_total p : total (open_trunc oe p).
Proof using.
  intros o. unfold open_trunc. wp_steps. apply granted_spec. intros o' _. wp_steps.
  destruct (fs o' !! p) as [[|]|]; [by wp_steps|by destruct (io_ok _ _); wp_steps|by destruct (_ && _); wp_steps].
Qed.

Lemma write_total fd b : total (my_write oe fd b).
Proof using.
  intros o. unfold my_write, write, tick_os. wp_steps. cbn. by destruct (fds o !! fd) as [[]|]; wp_steps.
Qed.

(** A read never gives more than was asked for. *)
Lemma find_and_read_length fd start count o :
  wp no_fault (find_and_read oe fd start count) (fun r _ => (length (snd r) <= count)%nat) o.
Proof using.
  unfold find_and_read, lseek, read, tick_os. wp_steps. destruct (fds o !! fd) as [[ino off]|] eqn:E; wp_steps; cbn.
  - rewrite lookup_insert_eq. wp_steps. cbn. rewrite length_take. lia.
  - rewrite E. wp_steps. cbn. lia.
Qed.
End Total.

Create HintDb total.
#[export] Hint Resolve granted_total mkdir_total chk_dir_total del_dir_any chk_clean_total del_file_total
  open_total write_total : total.

(** * The link after a turn *)

(** The link, more shared pages at the end allowed. *)
Record linked (root : path) (pages : list Z) (datas : list (list Z)) (q : queues mcd_event_st) (t : tstate) : Prop := {
  li_link : link root pages q t;
  li_nodup : NoDup pages;
  li_holds : holds pages datas t;
}.

(** Neither the locks nor the entries in transfer change. *)
Record still (t t' : tstate) : Prop := {
  st_enabled : t_enabled t' = t_enabled t;
  st_put : t_put t' = t_put t;
  st_get : t_get t' = t_get t;
  st_mem : t_mem t' = t_mem t;
  st_next : t_next t' = t_next t;
}.
#[export] Instance still_preorder : PreOrder still.
Proof. split; [done|]. intros ??? [] []. split; congruence. Qed.

Lemma calm_still t t' : calm t t' -> still t t'.
Proof. by intros []. Qed.
Lemma quiet_still t t' : quiet t t' -> still t t'.
Proof. by intros []. Qed.
Lemma filed_still t t' : filed t t' -> still t t'.
Proof. by intros ->. Qed.

Definition extends {A} (l l' : list A) : Prop := prefix l l'.

Lemma extends_refl {A} (l : list A) : extends l l.
Proof. exists []. by rewrite app_nil_r. Qed.
#[export] Hint Resolve extends_refl : core.

Lemma linked_filed root pages datas q t t' : filed t t' -> linked root pages datas q t -> linked root pages datas q t'.
Proof. intros Hf []. split; [by eapply filed_link|done|by eapply filed_holds]. Qed.

Lemma linked_ring root pages datas q q' t t' : quiet t t' -> link root pages q' t' -> linked root pages datas q t ->
  linked root pages datas q' t'.
Proof. intros Hq Hl []. split; [done|done|]. eapply holds_frames; [by apply qu_frames|done]. Qed.

Section Turns.
Context (de : DaemonEnv) (xe : XenEnv) (root : path) (tol : fault -> Prop).
(** [xc_mcd_event_add_shared_page] makes the hypercall, or fails. *)
Context (Hadd : forall m t, de_add de m t = mcd_event_add_shared_page xe 0 m t \/
  exists rc, rc <> 0 /\ de_add de m t = Ret rc t).
Implicit Types (t : tstate) (q : queues mcd_event_st) (x : mcd_event_st) (pages : list Z).

Lemma sys_total {A} (m : M os A) (Q : A -> tstate -> Prop) t : total m ->
  (forall a t', filed t t' -> Q a t') -> wp tol (sys m) Q t.
Proof using.
  intros Hm HQ. apply wp_sys. eapply wp_mono; [apply Hm|]. intros a o _. by apply HQ.
Qed.

(** ** More shared pages *)

Lemma holds_snoc pages datas t m d : holds pages datas t -> t_frames t !! m = Some d -> length d = page_len ->
  holds (pages ++ [m]) (datas ++ [d]) t.
Proof using. intros H Hm Hd. apply Forall2_app; [done|]. by constructor. Qed.

Lemma init_page_spec pages datas q t (Q : option Z -> tstate -> Prop) : linked root pages datas q t ->
  (forall r t', still t t' -> linked root pages datas q t' ->
     match r with
     | Some m => (m ∉ pages) /\ exists d, t_frames t' !! m = Some d /\ length d = page_len
     | None => True
     end -> Q r t') ->
  wp tol (init_page de) Q t.
Proof using.
  intros Hl HQ. unfold init_page. wp_steps. apply sys_total; [auto with total|]. intros ok t1 Hf1.
  pose proof (linked_filed _ _ _ _ _ _ Hf1 Hl) as [Hl1 Hnd1 Hh1].
  destruct ok; [|wp_steps; apply HQ; [by apply filed_still|done|done]]. wp_steps.
  set (m := fresh (dom (t_frames t1))).
  assert (Hm : t_frames t1 !! m = None) by (apply not_elem_of_dom, is_fresh).
  assert (Hnm : m ∉ pages).
  { intros (i & Hi)%list_elem_of_lookup. destruct (holds_lookup _ _ _ _ _ Hh1 Hi) as (d & _ & Hd & _). congruence. }
  assert (Hh2 : forall d, holds pages datas (t1 <| t_frames ::= <[m := d]> |>)).
  { intros d. unfold holds. eapply Forall2_impl; [exact Hh1|]. intros m' d' [H1 H2]. split; [|done]. cbn.
    rewrite lookup_insert_ne; [done|]. by intros <-; congruence. }
  apply sys_total; [auto with total|]. intros locked t2 Hf2.
  assert (Hst : still t t2) by (etransitivity; [apply filed_still; exact Hf1|
    etransitivity; [|apply filed_still; exact Hf2]]; done).
  destruct locked; wp_steps.
  - apply HQ; [done| |].
    + eapply linked_filed; [done|]. split; [by apply (link_frame root pages q t1)|done|apply Hh2].
    + split; [done|]. eexists. rewrite Hf2. cbn. rewrite lookup_insert_eq. split; [done|].
      by rewrite length_fmap, length_seq.
  - apply HQ; [by destruct Hst; split| |done]. rewrite Hf2. split; [by apply (link_frame root pages q t1)|done|].
    unfold holds. eapply Forall2_impl; [exact Hh1|]. intros m' d' [H1 H2]. split; [|done]. cbn.
    rewrite delete_insert_id; done.
Qed.
(** The hypervisor's half of a new page. *)
Lemma add_page_spec pages datas q t m d (Q : Z -> tstate -> Prop) : linked root pages datas q t ->
  m ∉ pages -> t_frames t !! m = Some d -> length d = page_len ->
  dm_shared_page (default (mk_daemon 0 ∅ 0 (mk_back 0 0 0) 0 []) (t_daemon t)) !! Z.of_nat (length pages) = Some m ->
  (forall rc, rc <> 0 -> forall t', still t t' -> linked root pages datas q t' -> Q rc t') ->
  (forall t', still t t' ->
     linked root (pages ++ [m]) (datas ++ [d]) q (t' <| t_daemon ::= fmap (fun dm => dm <| dm_num_shared_page ::= Z.succ |>) |>) ->
     Q 0 t') ->
  wp tol (de_add de m) Q t.
Proof using Hadd.
  intros [Hl Hnd Hh] Hm Hd Hlen Hdm Hno Hyes. unfold wp.
  destruct (Hadd m t) as [-> | (rc & Hrc & ->)]; [|by apply Hno].
  change (wp tol (mcd_event_add_shared_page xe 0 m) Q t).
  pose proof Hl as (ev & dm & s & []). rewrite lk_daemon in Hdm. cbn in Hdm.
  unfold mcd_event_add_shared_page, event_of, set_event. wp_steps. rewrite lk_event. cbn [default from_option id].
  rewrite lk_num. destruct (_ || _); wp_steps; [by apply Hno|].
  unfold map_domain_page. destruct (xe_map xe m); wp_steps.
  - apply Hyes; [by split|]. split.
    + exists (ev <| shared_page ::= <[Z.of_nat (length pages) := m]> |> <| num_shared_page := Z.of_nat (length pages) + 1 |>),
        (dm <| dm_num_shared_page ::= Z.succ |>), s. split; cbn; rewrite ?lk_daemon; try done; rewrite ?lookup_insert_eq; try done;
        rewrite ?length_app; cbn; try lia.
      * intros i m' [Hi|[Hi Hi']]%lookup_app_Some.
        { rewrite lookup_insert_ne by (apply lookup_lt_Some in Hi; lia). by apply lk_pages. }
        apply list_lookup_singleton_Some in Hi' as [Hi' <-].
        replace i with (length pages) by lia. apply lookup_insert_eq.
      * intros i m' [Hi|[Hi Hi']]%lookup_app_Some; [by apply lk_dm_pages|].
        apply list_lookup_singleton_Some in Hi' as [Hi' <-]. by replace i with (length pages) by lia.
    + apply NoDup_app. split; [done|]. split; [|apply NoDup_singleton].
      intros y Hy ->%list_elem_of_singleton. done.
    + eapply holds_snoc; [by apply (holds_frames pages datas t)|done|done].
  - apply Hno; [done|by split|]. split; [|done|by apply (holds_frames pages datas t)].
    exists (ev <| shared_page ::= delete (Z.of_nat (length pages)) |>), dm, s.
    split; cbn; try done; rewrite ?lookup_insert_eq; try done.
    intros i m' Hi. rewrite lookup_delete_ne by (apply lookup_lt_Some in Hi; lia). by apply lk_pages.
Qed.

(** Setting a cell of the daemon's array past its end. *)
Lemma linked_set_page pages datas q t (f : gmap Z Z -> gmap Z Z) :
  (forall i m, pages !! i = Some m -> forall g, f g !! Z.of_nat i = g !! Z.of_nat i) ->
  linked root pages datas q t ->
  linked root pages datas q (t <| t_daemon ::= fmap (fun dm => dm <| dm_shared_page ::= f |>) |>).
Proof using.
  intros Hf [(ev & dm & s & []) Hnd Hh]. split; [|done|by apply (holds_frames pages datas t)].
  exists ev, (dm <| dm_shared_page ::= f |>), s. split; cbn; try done; [by rewrite lk_daemon|].
  intros i m Hi. rewrite (Hf _ _ Hi). by apply lk_dm_pages.
Qed.

Definition grown pages datas q t t' : Prop := still t t' /\ exists pages' datas',
  extends pages pages' /\ extends datas datas' /\ linked root pages' datas' q t'.

Lemma add_shared_spec num pages datas q t : linked root pages datas q t ->
  wp tol (mcd_add_shared_page de num) (fun _ t' => grown pages datas q t t') t.
Proof using Hadd.
  intros Hl. pose proof Hl as [(ev & dm & s & []) Hnd Hh]. unfold mcd_add_shared_page, the_daemon, set_daemon.
  wp_steps. rewrite lk_daemon. wp_steps. rewrite lk_dm_num.
  assert (H0 : grown pages datas q t t) by (split; [done|]; exists pages, datas; auto).
  destruct (Z.leb_spec MAX_SHARED_PAGES (Z.of_nat (length pages))); [by wp_steps|]. wp_steps.
  match goal with |- context [seqZ _ ?k] => generalize k; intros num_add end.
  eapply (wp_for_each _ _ (fun js _ t' => exists pages' datas', still t t' /\ extends pages pages' /\ extends datas datas' /\
    linked root pages' datas' q t' /\ exists k, js = seqZ (Z.of_nat (length pages')) k)).
  - exists pages, datas. split; [done|]. split; [done|].
    split; [done|]. split; [done|]. by eexists.
  - intros _ t' (pages' & datas' & Hst & Hp & Hd & Hl' & _). wp_steps. split; [done|]. by exists pages', datas'.
  - intros i js [] t' (pages' & datas' & Hst & Hp & Hd & Hl' & k & Hk).
    destruct (decide (0 < k)) as [Hk0|]; [|by rewrite seqZ_nil in Hk by lia].
    rewrite seqZ_cons in Hk by done. injection Hk as -> ->. wp_steps.
    assert (Hend : forall t2, still t' t2 -> linked root pages' datas' q t2 -> grown pages datas q t t2).
    { intros t2 Hst2 Hl2. split; [by etransitivity|]. by exists pages', datas'. }
    eapply init_page_spec; [done|]. intros [m|] t2 Hst2 Hl2 Hm; wp_steps.
    + destruct Hm as (Hm & d & Hfr & Hdl).
      eapply (add_page_spec pages' datas' q _ m d).
      * apply (linked_set_page _ _ _ _ (insert (Z.of_nat (length pages')) m)); [|done].
        intros i m' Hi g. apply lookup_insert_ne. apply lookup_lt_Some in Hi. lia.
      * done.
      * done.
      * done.
      * pose proof Hl2 as [(ev2 & dm2 & s2 & []) _ _]. cbn. rewrite lk_daemon0. cbn. apply lookup_insert_eq.
      * intros rc Hrc t3 Hst3 Hl3. wp_steps. destruct (Z.eqb_spec rc 0); [done|]. cbn [negb]. wp_steps.
        apply Hend; [|done]. etransitivity; [exact Hst2|]. by destruct Hst3; split.
      * intros t3 Hst3 Hl3. wp_steps. cbn [Z.eqb negb]. wp_steps.
        exists (pages' ++ [m]), (datas' ++ [d]). split; [|split; [|split; [|split]]].
        -- etransitivity; [exact Hst|]. etransitivity; [exact Hst2|]. by destruct Hst3; split.
        -- etransitivity; [exact Hp|]. by eexists.
        -- etransitivity; [exact Hd|]. by eexists.
        -- done.
        -- exists (Z.pred k). rewrite length_app. cbn. f_equal. lia.
    + apply Hend; [by destruct Hst2; split|]. apply (linked_set_page _ _ _ _ (delete (Z.of_nat (length pages')))); [|done].
      intros i m' Hi g. apply lookup_delete_ne. apply lookup_lt_Some in Hi. lia.
Qed.

(** ** A turn *)

(** The cache does not wait for the answer to these. *)
Definition simple x : Prop := ev_type x <> MCD_EVENT_OP_PUT /\ ev_type x <> MCD_EVENT_OP_GET.

(** What a handler uses of the daemon's state. *)
Record serves (dm : daemon) pages : Prop := {
  sv_root : dm_root dm = root;
  sv_num : dm_num_shared_page dm = Z.of_nat (length pages);
  sv_pages : forall i m, pages !! i = Some m -> dm_shared_page dm !! Z.of_nat i = Some m;
}.

(** What follows once the daemon has taken [x] off the ring. *)
Definition handle dm x : M tstate unit :=
  (if negb (ev_domain x =? 0)
   then sys (chk_dir_and_create (de_os de) (dom_dir (dm_root dm) (ev_domain x)));; mret tt
   else mret tt);;
  r ← serve de dm x;
  let '(rsp, resume_need) := r in
  if (resume_need : bool) then mcd_resume_page rsp;; mret tt else mret tt.

Lemma turn_spec pages datas x l rsps b t (Q : unit -> tstate -> Prop) :
  linked root pages datas (mk_queues (x :: l) rsps b) t ->
  (forall dm t1, quiet t t1 -> linked root pages datas (mk_queues l rsps (S b)) t1 -> serves dm pages ->
     wp tol (handle dm x) Q t1) ->
  wp tol (daemon_turn de) Q t.
Proof using.
  intros Hl HQ. pose proof Hl as [(ev & dm & s & []) _ _]. unfold daemon_turn. wp_steps.
  rewrite lk_daemon. unfold ring_of. wp_steps. rewrite lk_ring. wp_steps.
  rewrite (unconsumed_requests_rel ring_log ltac:(done) _ _ _ _ ltac:(done) lk_rel). cbn [q_reqs length].
  destruct (Z.eqb_spec (Z.of_nat (S (length l))) 0); [lia|]. wp_steps.
  eapply (get_request_spec root tol pages _ x l); [apply Hl|done|]. cbn [q_rsps q_busy]. intros t1 Hq Hl1.
  apply (HQ dm); [done|by eapply linked_ring|by split].
Qed.

Lemma dir_spec root' dom (Q : unit -> tstate -> Prop) t : (forall t', filed t t' -> Q tt t') ->
  wp tol (if negb (dom =? 0) then sys (chk_dir_and_create (de_os de) (dom_dir root' dom));; mret tt else mret tt) Q t.
Proof using.
  intros HQ. destruct (negb _); wp_steps; [|apply HQ, filed_refl].
  apply sys_total; [auto with total|]. intros r t' Hf. wp_steps. by apply HQ.
Qed.

(** A handler that only touches files. *)
Definition files_only (m : M tstate mcd_event_st) x : Prop := forall t,
  wp tol m (fun r t' => filed t t' /\ ev_type r = ev_type x) t.

Ltac files := repeat first [progress wp_steps | apply sys_total; [by auto with total|]; intros ? ? ?].

Lemma op_del_files dm x : files_only (op_del de dm x) x.
Proof using. intros t. unfold op_del. files. split; [done|]. unfold mark. by destruct (negb _). Qed.
Lemma op_dom_create_files dm x : files_only (op_dom_create de dm x) x.
Proof using. intros t. unfold op_dom_create. files. split; [done|]. unfold mark. by destruct (negb _). Qed.
Lemma op_dom_destroy_files dm x : files_only (op_dom_destroy de dm x) x.
Proof using. intros t. unfold op_dom_destroy. files. split; [done|]. unfold mark. by destruct (negb _). Qed.
Lemma op_clean_files dir x : files_only (op_clean de dir x) x.
Proof using.
  intros t. unfold op_clean. files. split; [by eapply filed_trans|]. unfold mark.
  by destruct (negb _), (negb _).
Qed.

(** An answer to a simple request changes nothing but the ring. *)
Lemma resume_simple pages datas l b r t (Q : Z -> tstate -> Prop) :
  linked root pages datas (mk_queues l [] (S b)) t -> simple r ->
  (forall t', quiet t t' -> linked root pages datas (mk_queues l [] b) t' -> Q 0 t') ->
  wp tol (mcd_resume_page r) Q t.
Proof using.
  intros Hl [Hp Hg] HQ. unfold mcd_resume_page. wp_steps.
  eapply (put_response_spec root tol pages _ r b); [apply Hl|done|]. cbn [q_reqs q_rsps app]. intros t1 Hq1 Hl1.
  cbn [Z.eqb negb]. wp_steps. unfold mcd_event_resume. wp_steps.
  eapply (get_response_spec root tol pages _ r []); [done..|]. cbn [q_reqs q_busy]. intros t2 Hq2 Hl2.
  assert (Hend : wp tol (mret tt) (fun _ => wp tol (mret 0) (fun _ => wp tol (mret 0) Q)) t2).
  { wp_steps. apply HQ; [by etransitivity|]. eapply linked_ring; [|done|exact Hl]. by etransitivity. }
  assert (Hfin : resume_final r = mret tt).
  { unfold resume_final. destruct (Z.eqb_spec (ev_type r) MCD_EVENT_OP_PUT), (Z.eqb_spec (ev_type r) MCD_EVENT_OP_GET); done. }
  rewrite Hfin. wp_steps. destruct (Z.eqb_spec (ev_type r) MCD_EVENT_OP_PUT), (Z.eqb_spec (ev_type r) MCD_EVENT_OP_GET); try done.
  repeat case_match; wp_steps; try done; cbn [Z.eqb negb]; wp_steps; repeat case_match; wp_steps; done.
Qed.

Lemma serve_simple pages datas q dm x t : linked root pages datas q t -> simple x ->
  wp tol (serve de dm x) (fun r t' => grown pages datas q t t' /\ (snd r = true -> simple (fst r))) t.
Proof using Hadd.
  intros Hl [Hp Hg]. unfold serve.
  assert (Hfo : forall m, files_only m x ->
    wp tol (rsp ← m; mret (rsp, true)) (fun r t' => grown pages datas q t t' /\ (snd r = true -> simple (fst r))) t).
  { intros m Hm. wp_steps. eapply wp_mono; [apply Hm|]. intros r t' [Hf Ht]. wp_steps. split.
    - split; [by apply filed_still|]. exists pages, datas. split; [done|]. split; [done|]. by eapply linked_filed.
    - intros _. unfold simple. cbn. by rewrite Ht. }
  destruct (Z.eqb_spec (ev_type x) MCD_EVENT_OP_PUT); [done|].
  destruct (Z.eqb_spec (ev_type x) MCD_EVENT_OP_GET); [done|].
  destruct (_ =? _); [apply Hfo, op_del_files|]. destruct (_ =? _); [apply Hfo, op_dom_create_files|].
  destruct (_ =? _); [apply Hfo, op_clean_files|]. destruct (_ =? _); [apply Hfo, op_dom_destroy_files|].
  destruct (_ =? _); [apply Hfo, op_clean_files|]. destruct (_ =? _).
  - wp_steps. eapply wp_mono; [by apply add_shared_spec|]. intros r t' Hg'. by wp_steps.
  - wp_steps. split; [|done]. split; [done|]. by exists pages, datas.
Qed.

Lemma simple_turn pages datas x l b t : linked root pages datas (mk_queues (x :: l) [] b) t -> simple x ->
  wp tol (daemon_turn de) (fun _ t' => exists b', (b' <= S b)%nat /\ grown pages datas (mk_queues l [] b') t t') t.
Proof using Hadd.
  intros Hl Hx. eapply turn_spec; [done|]. intros dm t1 Hq1 Hl1 Hsv. unfold handle. wp_steps.
  apply dir_spec. intros t2 Hf2. wp_steps.
  eapply wp_mono; [apply serve_simple; [by eapply linked_filed|done]|].
  intros [r need] t3 [(Hst3 & pages' & datas' & Hp & Hd & Hl3) Hr]. cbn [fst snd] in Hr.
  assert (Hst : still t t3).
  { etransitivity; [by apply quiet_still|]. etransitivity; [by apply filed_still|done]. }
  destruct need; wp_steps.
  - eapply resume_simple; [done|by apply Hr|]. intros t4 Hq4 Hl4. wp_steps. exists b. split; [lia|].
    split; [etransitivity; [done|by apply quiet_still]|]. by exists pages', datas'.
  - exists (S b). split; [lia|]. split; [done|]. by exists pages', datas'.
Qed.
End Turns.
