(* ===== verification/PutTurn.v ===== *)
(** The whole transfer of an entry to the daemon: the turns that append its
    chunks, and the wait of the cache for the last of them. Two instances of the
    interface [PutFiles]: the one that promises nothing, for an arbitrary
    operating system, and the one of a system that grants what it is asked, in
    which the file ends up with exactly the bytes of the entry and no other file
    changes. *)
From S2P Require Import Prelude CMonad Types State Core Display Ring FileOps FileSpec Mcdctl Daemon Exchange Link PageOut PutFile Turns.

(** Nothing changes but what the transfer of an entry may change. *)
Record apart (t t' : tstate) : Prop := {
  ap_enabled : t_enabled t' = t_enabled t;
  ap_get : t_get t' = t_get t;
  ap_mem : t_mem t' = t_mem t;
  ap_next : t_next t' = t_next t;
}.
#[export] Instance apart_preorder : PreOrder apart.
Proof. split; [done|]. intros ??? [] []. split; congruence. Qed.
Lemma still_apart t t' : still t t' -> apart t t'.
Proof. by intros []. Qed.
Lemma quiet_apart t t' : quiet t t' -> apart t t'.
Proof. by intros []. Qed.
Lemma filed_apart t t' : filed t t' -> apart t t'.
Proof. by intros ->. Qed.
Lemma calm_apart t t' : calm t t' -> apart t t'.
Proof. by intros []. Qed.

Section PutTurn.
Context (de : DaemonEnv) (xe : XenEnv) (root : path) (tol : fault -> Prop).
Context (Hadd : forall m t, de_add de m t = mcd_event_add_shared_page xe 0 m t \/
  exists rc, rc <> 0 /\ de_add de m t = Ret rc t).
Context (p : ptr) (e : mcd_hashT) `{!PutFiles (de_os de) root (mh_domain e) (mh_hash e)}.
Context (Hbuf : buffer_ok e).
Implicit Types (t : tstate) (x : mcd_event_st) (pages : list Z) (pre : list mcd_event_st).

Abbreviation kv := (mh_key_val e).
Abbreviation tot := (tot_len e).

(** How many pages the first chunk was given. *)
Context (first : nat).

(** A request of the transfer is last on the ring; [acc] bytes are in the
    file, and the pages hold the next ones. *)
Record putting (nq acc : nat) (fd : Z) (new : bool) x pages datas pre (b : nat) t : Prop := {
  pu_linked : linked root pages datas (mk_queues (pre ++ [x]) [] b) t;
  pu_used : (length pre + 1 + b <= 61)%nat;
  pu_simple : Forall simple pre;
  pu_pre : pre <> [] -> new = true /\ forall o, pf_before o;
  pu_msg : put_msg p e nq acc fd new x;
  pu_nq : (1 <= nq <= length pages)%nat;
  pu_mem : t_mem t !! p = Some e;
  pu_acc : (acc <= tot)%nat;
  pu_new : new = true -> acc = O;
  pu_first : acc = O -> nq = first;
  pu_single : (tot <= first * page_len)%nat -> acc = O;
  pu_chunk : take (chunk e nq acc) (concat datas) = take (chunk e nq acc) (drop acc kv);
  pu_file : if new then pf_before (t_os t) else pf_open (take acc kv) fd (t_os t);
}.

(** The transfer is over; the pages still hold its last chunk. *)
Definition put_over pages datas (b : nat) t : Prop :=
  linked root pages datas (mk_queues [] [] b) t /\ t_put t = false /\
  (pf_failed (t_os t) \/
   pf_closed (take tot kv) (t_os t) /\
   exists acc, (acc <= tot)%nat /\ ((tot <= first * page_len)%nat -> acc = O) /\
     take (tot - acc) (concat datas) = take (tot - acc) (drop acc kv)).

(** ** The hypervisor's answer to a resume *)

Lemma unlock_spec pages datas b r t (Q : unit -> tstate -> Prop) :
  linked root pages datas (mk_queues [] [] b) t -> ev_type r = MCD_EVENT_OP_PUT ->
  (forall t', apart t t' -> t_os t' = t_os t -> t_put t' = false ->
     linked root pages datas (mk_queues [] [] b) t' -> Q tt t') ->
  wp tol (resume_final r) Q t.
Proof using.
  intros [Hl Hnd Hh] Hr HQ. unfold resume_final. rewrite Hr. cbn [Z.eqb Pos.eqb]. unfold minf_put_unlock.
  change (MCD_EVENT_OP_PUT =? MCD_EVENT_OP_PUT) with true. cbn iota. wp_steps.
  apply HQ; [by split|done..|]. split; [by apply (link_frame root pages _ t)|done|by apply (holds_frames pages datas t)].
Qed.

(** The answer leaves the ring, and the hypervisor looks at it. *)
Lemma resume_spec pages datas b r t (Q : Z -> tstate -> Prop) :
  linked root pages datas (mk_queues [] [] (S b)) t ->
  (forall t', quiet t t' -> linked root pages datas (mk_queues [] [] b) t' ->
     wp tol (if ev_flags r =? 0 then resume_final r
             else if if_set (ev_flags r) MCD_EVENT_OP_FLAGS_ERROR then resume_final r
             else if if_set (ev_flags r) MCD_EVENT_OP_FLAGS_END then mret tt
             else
               rc ← (if ev_type r =? MCD_EVENT_OP_GET then mcdctl_page_in (ev_mcd_data r) (Some r) else mret 0);
               if negb (rc =? 0) then resume_final r
               else if if_set (ev_flags r) MCD_EVENT_OP_FLAGS_FINAL then resume_final r
               else
                 rc ← (if ev_type r =? MCD_EVENT_OP_PUT then mcdctl_page_out (ev_mcd_data r) (Some r) else mret 0);
                 if negb (rc =? 0) then resume_final r else mret tt) (fun _ t'' => Q 0 t'') t') ->
  wp tol (mcd_resume_page r) Q t.
Proof using.
  intros Hl HQ. unfold mcd_resume_page. wp_steps.
  eapply (put_response_spec root tol pages _ r b); [apply Hl|done|]. cbn [q_reqs q_rsps app]. intros t1 Hq1 Hl1.
  cbn [Z.eqb negb]. wp_steps. unfold mcd_event_resume. wp_steps.
  eapply (get_response_spec root tol pages _ r []); [done..|]. cbn [q_reqs q_busy]. intros t2 Hq2 Hl2.
  wp_steps. eapply wp_mono; [apply HQ|].
  - by etransitivity.
  - eapply linked_ring; [|done|exact Hl]. by etransitivity.
  - intros [] t3 H3. by wp_steps.
Qed.

Lemma resume_put_error pages datas b r t : linked root pages datas (mk_queues [] [] (S b)) t -> put_error r ->
  pf_failed (t_os t) ->
  wp tol (mcd_resume_page r) (fun _ t' => put_over pages datas b t' /\ apart t t') t.
Proof using.
  intros Hl [Hr He] Hf. eapply resume_spec; [done|]. intros t1 Hq1 Hl1.
  rewrite flag_error, He. rewrite (flags_nonzero _ 4 He). cbn iota.
  eapply unlock_spec; [done..|]. intros t2 Ha2 Ho2 Hp2 Hl2.
  split; [|etransitivity; [by apply quiet_apart|done]]. split; [done|]. split; [done|]. left.
  rewrite Ho2. by rewrite (qu_os _ _ Hq1).
Qed.

Lemma resume_put_final pages datas b acc fd r t : linked root pages datas (mk_queues [] [] (S b)) t ->
  put_ans p acc fd true r -> pf_closed (take tot kv) (t_os t) ->
  (exists acc, (acc <= tot)%nat /\ ((tot <= first * page_len)%nat -> acc = O) /\
     take (tot - acc) (concat datas) = take (tot - acc) (drop acc kv)) ->
  wp tol (mcd_resume_page r) (fun _ t' => put_over pages datas b t' /\ apart t t') t.
Proof using.
  intros Hl [] Hc Hd. eapply resume_spec; [done|]. intros t1 Hq1 Hl1. destruct pa_flags.
  rewrite flag_error, flag_end, flag_final, fl_error, fl_end, fl_final, pa_some, pa_type.
  change (MCD_EVENT_OP_PUT =? MCD_EVENT_OP_GET) with false. cbn iota. wp_steps. cbn [Z.eqb negb].
  eapply unlock_spec; [done..|]. intros t2 Ha2 Ho2 Hp2 Hl2.
  split; [|etransitivity; [by apply quiet_apart|done]]. split; [done|]. split; [done|]. right.
  rewrite Ho2, (qu_os _ _ Hq1). done.
Qed.

Lemma resume_put_more pages datas b acc fd r t : pages <> [] ->
  linked root pages datas (mk_queues [] [] (S b)) t -> (b <= 60)%nat ->
  put_ans p acc fd false r -> pf_open (take acc kv) fd (t_os t) -> t_mem t !! p = Some e ->
  (0 < acc <= tot)%nat -> ~ (tot <= first * page_len)%nat ->
  wp tol (mcd_resume_page r) (fun _ t' => apart t t' /\ t_put t' = t_put t /\
    exists x' datas', putting (length pages) acc fd false x' pages datas' [] b t') t.
Proof using Hbuf.
  intros Hn Hl Hb [] Ho Hm Hacc Hbig. eapply resume_spec; [done|]. intros t1 Hq1 Hl1. destruct pa_flags.
  rewrite flag_error, flag_end, flag_final, fl_error, fl_end, fl_final, pa_some, pa_type.
  change (MCD_EVENT_OP_PUT =? MCD_EVENT_OP_GET) with false. cbn iota. wp_steps. cbn [Z.eqb negb].
  change (MCD_EVENT_OP_PUT =? MCD_EVENT_OP_PUT) with true. cbn iota. wp_steps. rewrite pa_data.
  pose proof Hl1 as [Hl1' Hnd Hh].
  eapply wp_mono; [eapply (mcdctl_page_out_spec root tol pages Hnd Hn p e acc fd (Some r) _ datas)|].
  - done.
  - apply Z.leb_le. unfold q_used. cbn. change (2 ^ ring_log) with 64. unfold MCD_EVENT_RING_THRESHOLD. lia.
  - by rewrite (qu_mem _ _ Hq1).
  - done.
  - lia.
  - done.
  - split; [done|]. by apply pa_fd.
  - intros rc t2 (-> & Hc2 & x' & datas' & Hmsg & Hl2 & Hh2 & Hf2). cbn [Z.eqb negb]. wp_steps.
    split; [etransitivity; [by apply quiet_apart|by apply calm_apart]|].
    split; [rewrite (ca_put _ _ Hc2); by rewrite (qu_put _ _ Hq1)|].
    exists x', datas'. rewrite bool_decide_eq_false_2 in Hmsg by done.
    assert (1 <= length pages)%nat by (destruct pages; cbn; [done|lia]).
    split; cbn [length app]; try done; try lia.
    + rewrite (ca_mem _ _ Hc2), (qu_mem _ _ Hq1). done.
    + unfold filled in Hf2. rewrite Hf2.
      assert (Hk : length (take (chunk e (length pages) acc) (drop acc kv)) = chunk e (length pages) acc).
      { pose proof (tot_len_fits e Hbuf). rewrite length_take, length_drop. unfold chunk. lia. }
      rewrite <- Hk at 1. by rewrite take_fill_0.
    + cbn iota. rewrite (ca_os _ _ Hc2), (qu_os _ _ Hq1). done.
Qed.

(** ** One turn on a chunk *)

Lemma put_turn nq acc fd new x pages datas b t : putting nq acc fd new x pages datas [] b t ->
  wp tol (daemon_turn de) (fun _ t' => apart t t' /\
    (put_over pages datas b t' \/
     t_put t' = t_put t /\ exists fd' x' datas', (acc + page_len <= acc + chunk e nq acc)%nat /\
       putting (length pages) (acc + chunk e nq acc) fd' false x' pages datas' [] b t')) t.
Proof using Hbuf.
  intros []. cbn [app length] in *. pose proof (tot_len_fits e Hbuf) as Hfit. pose proof page_len_pos as HP0.
  assert (Hn : pages <> []) by (intros ->; cbn in *; lia).
  eapply turn_spec; [done|]. intros dm t1 Hq1 Hl1 Hsv. unfold handle. wp_steps. pose proof pu_msg0 as [].
  rewrite pm_domain. destruct Hsv as [Hsr Hsn Hsp].
  set (bs := take acc kv).
  eapply (wp_mono _ _ (fun _ t' => filed t1 t' /\ file_at de root (mh_domain e) (mh_hash e) new bs fd (t_os t'))).
  { assert (Ho1 : if new then pf_before (t_os t1) else pf_open bs fd (t_os t1)) by (by rewrite (qu_os _ _ Hq1)).
    rewrite Hsr. unfold file_at. destruct (Z.eqb_spec (mh_domain e) 0) as [Hz|Hz]; cbn [negb]; wp_steps.
    - split; [apply filed_refl|]. destruct new; [|done]. split; [|by apply pf_dir0].
      unfold bs. by rewrite pu_new0.
    - apply wp_sys. destruct new.
      + eapply wp_mono; [by apply pf_dir|]. intros r o' Ho'. wp_steps. split; [done|]. split; [|done].
        unfold bs. by rewrite pu_new0.
      + eapply wp_mono; [by apply pf_dir_open|]. intros r o' Ho'. by wp_steps. }
  intros [] t2 [Hf2 Ho2]. wp_steps. unfold serve. rewrite pm_type.
  change (MCD_EVENT_OP_PUT =? MCD_EVENT_OP_PUT) with true. cbn iota. wp_steps.
  pose proof (linked_filed _ _ _ _ _ _ Hf2 Hl1) as Hl2.
  eapply wp_mono.
  { eapply (op_put_spec de root tol pages Hn (mh_domain e) (mh_hash e) p e nq acc fd new x bs dm datas);
      try done; [lia|apply Hl2]. }
  intros r t3 [Hf3 Hr]. wp_steps. pose proof (linked_filed _ _ _ _ _ _ Hf3 Hl2) as Hl3.
  assert (Ha3 : apart t t3).
  { etransitivity; [by apply quiet_apart|]. etransitivity; by apply filed_apart. }
  assert (Hput3 : t_put t3 = t_put t) by (rewrite Hf3, Hf2; cbn; apply Hq1).
  assert (Hmem3 : t_mem t3 !! p = Some e) by (by rewrite (ap_mem _ _ Ha3)).
  destruct Hr as [(-> & Hfail & Herr)|(fd' & Hfd' & Hans & Hfile)].
  { eapply wp_mono; [by eapply resume_put_error|]. intros rc t4 [H4 Ha4]. wp_steps.
    split; [by etransitivity|by left]. }
  assert (Hbs : bs ++ take (chunk e nq acc) (concat datas) = take (acc + chunk e nq acc) kv).
  { rewrite pu_chunk0. unfold bs. by rewrite take_take_drop. }
  rewrite Hbs in Hfile. case_bool_decide as Hfin; cbn [file_after] in Hfile.
  - rewrite Hfin in Hfile. eapply wp_mono; [eapply resume_put_final; [done..|]|].
    + exists acc. split; [done|]. split; [done|]. by replace (tot - acc)%nat with (chunk e nq acc) by lia.
    + intros rc t4 [H4 Ha4]. wp_steps. split; [by etransitivity|by left].
  - assert (Hck : chunk e nq acc = (nq * page_len)%nat) by (unfold chunk in *; lia).
    eapply wp_mono; [eapply (resume_put_more pages datas b (acc + chunk e nq acc) fd'); try done; [lia| |]|].
    + unfold chunk in *. nia.
    + intros Hs. rewrite (pu_first0 (pu_single0 Hs)), (pu_single0 Hs) in *. unfold chunk in *. lia.
    + intros rc t4 (Ha4 & Hp4 & x' & datas' & H4). wp_steps. split; [by etransitivity|]. right.
      split; [congruence|]. exists fd', x', datas'. split; [nia|done].
Qed.

(** A turn on a request that was on the ring before. *)
Lemma put_pre_turn nq acc fd new x y pages datas pre b t : putting nq acc fd new x pages datas (y :: pre) b t ->
  wp tol (daemon_turn de) (fun _ t' => apart t t' /\ t_put t' = t_put t /\ exists pages' datas' b',
    (b' <= S b)%nat /\ extends pages pages' /\ putting nq acc fd new x pages' datas' pre b' t') t.
Proof using Hadd Hbuf.
  intros []. destruct (pu_pre0 ltac:(done)) as [-> Hpf]. apply Forall_cons in pu_simple0 as [Hy Hpre].
  eapply wp_mono; [eapply (simple_turn de xe root tol Hadd pages datas y (pre ++ [x]) b); [done|done]|].
  intros [] t' (b' & Hb' & Hst & pages' & datas' & Hp & Hd & Hl). cbn [length] in *.
  split; [by apply still_apart|]. split; [apply Hst|]. exists pages', datas', b'. split; [done|]. split; [done|].
  assert (Hlen : (length pages <= length pages')%nat) by (by apply prefix_length).
  split; try done; try lia.
  - by rewrite (st_mem _ _ Hst).
  - destruct Hd as [dd ->]. rewrite concat_app, take_app_le; [done|].
    destruct pu_linked0 as [_ _ Hh]. pose proof (Forall2_length _ _ _ Hh) as Hpl.
    rewrite (sized_length datas) by (by eapply holds_sized). unfold chunk. nia.
Qed.

Definition put_settled pages (b : nat) t t' : Prop := apart t t' /\ exists pages' datas' b',
  (b' <= b)%nat /\ extends pages pages' /\ put_over pages' datas' b' t'.

(** The cache spins until the transfer is over; every turn of the daemon
    takes a request off the ring or moves a page. *)
Lemma put_spin fuel : forall nq acc fd new x pages datas pre b t, putting nq acc fd new x pages datas pre b t ->
  t_put t = true -> (length pre + (tot - acc) / page_len + 1 < fuel)%nat ->
  wp tol (while fuel (fun b : bool => b)
    (fun _ => daemon_turn de;; t ← get; mret (Continue (t_put t))) true)
    (fun _ t' => put_settled pages (length pre + b) t t') t.
Proof using Hadd Hbuf.
  induction fuel as [|fuel IH]; intros nq acc fd new x pages datas pre b t Hp Hput Hf; [lia|]. cbn [while].
  wp_steps. destruct pre as [|y pre].
  - eapply wp_mono; [by eapply put_turn|]. intros [] t1 [Ha1 [Hover|(Hput1 & fd' & x' & datas' & Hck & Hp1)]]; wp_steps.
    + destruct Hover as (H1 & H2 & H3). rewrite H2. destruct fuel; [cbn in Hf; lia|]. cbn [while]. wp_steps.
      split; [done|]. exists pages, datas, b. split; [cbn; lia|]. split; [done|]. by split.
    + rewrite Hput1, Hput. pose proof page_len_pos as HP0. cbn [length Nat.add] in *.
      assert (Hacc : (acc + chunk e nq acc <= tot)%nat) by apply Hp1.
      eapply wp_mono; [eapply IH; [done|congruence|]|].
      * assert ((tot - (acc + chunk e nq acc)) / page_len + 1 <= (tot - acc) / page_len)%nat; [|cbn; lia].
        rewrite <- Nat.div_add by lia. apply Nat.Div0.div_le_mono. lia.
      * intros lk t2 (Ha2 & pages' & datas2 & b' & Hb' & He & Ho). cbn [length Nat.add] in *.
        split; [by etransitivity|]. by exists pages', datas2, b'.
  - eapply wp_mono; [by eapply put_pre_turn|]. intros [] t1 (Ha1 & Hput1 & pages' & datas' & b' & Hb' & He & Hp1).
    wp_steps. rewrite Hput1, Hput. cbn [length] in *.
    eapply wp_mono; [eapply IH; [done|congruence|lia]|].
    intros lk t2 (Ha2 & pages2 & datas2 & b2 & Hb2 & He2 & Ho). split; [by etransitivity|].
    exists pages2, datas2, b2. split; [lia|]. split; [by etransitivity|done].
Qed.
End PutTurn.

(** * The wait of the cache *)

Section PutWait.
Context (de : DaemonEnv) (xe : XenEnv) (root : path) (tol : fault -> Prop).
Context (Hadd : forall m t, de_add de m t = mcd_event_add_shared_page xe 0 m t \/
  exists rc, rc <> 0 /\ de_add de m t = Ret rc t).
Context (e : mcd_hashT) `{!PutFiles (de_os de) root (mh_domain e) (mh_hash e)}.
Context (Hbuf : buffer_ok e).
Implicit Types (t : tstate) (x : mcd_event_st) (pages : list Z) (pre : list mcd_event_st).

Lemma spin_free held t (Q : unit -> tstate -> Prop) : held t = false -> Q tt t -> wp tol (spin de e held) Q t.
Proof using.
  intros Hh HQ. unfold spin. wp_steps. rewrite Hh. unfold spin_fuel. cbn [while]. by wp_steps.
Qed.

Lemma spin_fuel_link pages datas q t : linked root pages datas q t ->
  spin_fuel t e = S (S (64 + Z.to_nat (mh_totsize e / PAGE_SIZE)))%nat.
Proof using.
  intros [(ev & dm & s & []) _ _]. unfold spin_fuel. rewrite lk_daemon. destruct lk_rel as [c []].
  by rewrite rr_nb.
Qed.

Lemma put_lock_wait p first nq acc fd new x pages datas pre b t :
  putting de root p e first nq acc fd new x pages datas pre b t -> t_put t = true ->
  wp tol (minf_put_lock de e) (fun _ t' => t_put t' = true /\ exists pages' datas' b',
    (b' <= length pre + b)%nat /\ extends pages pages' /\ apart t t' /\
    put_over de root e first pages' datas' b' (t' <| t_put := false |>)) t.
Proof using Hadd Hbuf.
  intros Hp Ht. unfold minf_put_lock, spin. wp_steps. rewrite Ht.
  rewrite (spin_fuel_link pages datas (mk_queues (pre ++ [x]) [] b)) by apply Hp.
  eapply wp_mono; [eapply (put_spin de xe root tol Hadd p e Hbuf first); [done|done|]|].
  - pose proof (pu_used _ _ _ _ _ _ _ _ _ _ _ _ _ _ _ Hp).
    assert ((tot_len e - acc) / page_len <= Z.to_nat (mh_totsize e / PAGE_SIZE))%nat; [|lia].
    rewrite <- tot_len_Z, page_len_Z, <- Nat2Z.inj_div, Nat2Z.id. apply Nat.Div0.div_le_mono. lia.
  - intros lk t1 (Ha1 & pages' & datas' & b' & Hb & He & Ho). wp_steps. split; [done|].
    exists pages', datas', b'. split; [done|]. split; [done|]. split; [by destruct Ha1; split|].
    replace ((t1 <| t_put := true |>) <| t_put := false |>) with t1; [done|].
    destruct Ho as (_ & Hput & _). destruct t1; cbn in *. by subst.
Qed.

(** What a whole transfer leaves as it was. *)
Record done_with (t t' : tstate) : Prop := {
  dw_enabled : t_enabled t' = t_enabled t;
  dw_put : t_put t' = false;
  dw_get : t_get t' = t_get t;
  dw_mem : t_mem t' = t_mem t;
  dw_next : t_next t' = Z.succ (t_next t);
}.

Lemma linked_upd pages datas q t t' : t_daemon t' = t_daemon t -> t_events t' = t_events t -> t_rings t' = t_rings t ->
  t_frames t' = t_frames t -> linked root pages datas q t -> linked root pages datas q t'.
Proof using. intros H1 H2 H3 H4 []. split; [by apply (link_frame root pages q t)|done|by apply (holds_frames pages datas t)]. Qed.

Definition q_of pre b : queues mcd_event_st := mk_queues pre [] b.

Lemma room_used pre b : room (q_of pre b) = true <-> (length pre + b <= 60)%nat.
Proof using. unfold room, q_used, q_of, MCD_EVENT_RING_THRESHOLD. cbn. change (2 ^ ring_log) with 64. rewrite Z.leb_le. lia. Qed.

(** The ring is full: the request is refused and nothing happens. *)
Lemma page_out_full pages datas pre b t : linked root pages datas (q_of pre b) t -> room (q_of pre b) = false ->
  t_enabled t = true -> t_put t = false -> t_mem t !! t_next t = None ->
  wp tol (page_out_wait de e) (fun rc t' => rc = -1 /\ done_with t t' /\ t_os t' = t_os t /\
    linked root pages datas (q_of pre b) t') t.
Proof using.
  intros Hl Hr He Hp Hm. unfold page_out_wait, mh_alloc. wp_steps. unfold minf_page_out. wp_steps. cbn. rewrite He.
  rewrite ?bool_decide_eq_false_2 by done. cbn [negb orb]. wp_steps. unfold minf_put_lock. wp_steps.
  apply spin_free; [done|]. wp_steps. unfold mcdctl_page_out. wp_steps.
  eapply check_ring_spec; [eapply linked_upd; [..|exact Hl]; done|]. rewrite Hr. cbn [Z.eqb negb]. wp_steps.
  unfold minf_put_unlock, mh_release. cbn [Z.eqb negb]. wp_steps. cbn [Z.eqb]. wp_steps.
  split; [done|]. split; [|split; [done|by apply (linked_upd _ _ _ t)]].
  split; cbn; try done. by rewrite delete_insert_id.
Qed.

Lemma page_out_wait_spec pages datas pre b t : linked root pages datas (q_of pre b) t ->
  room (q_of pre b) = true -> pages <> [] -> Forall simple pre ->
  (pre <> [] -> forall o, pf_before o) -> pf_before (t_os t) ->
  t_enabled t = true -> t_put t = false -> t_mem t !! t_next t = None ->
  wp tol (page_out_wait de e) (fun rc t' => rc = 0 /\ done_with t t' /\ exists pages' datas' b',
    (b' <= length pre + b)%nat /\ extends pages pages' /\
    put_over de root e (length pages) pages' datas' b' t') t.
Proof using Hadd Hbuf.
  intros Hl Hr Hn Hpre Hpf Hos He Hp Hm. pose proof (proj1 (room_used pre b) Hr) as Hu.
  pose proof (tot_len_fits e Hbuf) as Hfit.
  unfold page_out_wait, mh_alloc. wp_steps. unfold minf_page_out. wp_steps. cbn. rewrite He.
  rewrite ?bool_decide_eq_false_2 by done. cbn [negb orb]. wp_steps. unfold minf_put_lock at 1. wp_steps.
  apply spin_free; [done|]. wp_steps.
  set (t1 := _ <| t_put := true |>).
  assert (Hl1 : linked root pages datas (q_of pre b) t1) by (by apply (linked_upd _ _ _ t)).
  pose proof Hl1 as [Hlk1 Hnd1 Hh1].
  eapply wp_mono; [eapply (mcdctl_page_out_spec root tol pages Hnd1 Hn (t_next t) e O 0 None _ datas)|].
  1-2: done. 1: apply lookup_insert_eq. 1: done. 1: lia. 1-2: done.
  intros rc t2 (-> & Hc2 & x & datas2 & Hmsg & Hl2 & Hh2 & Hf2). cbn [Z.eqb negb]. wp_steps. cbn [Z.eqb].
  rewrite bool_decide_eq_true_2 in Hmsg by done. cbn [Nat.add] in *. wp_steps.
  assert (Hput : putting de root (t_next t) e (length pages) (length pages) O 0 true x pages datas2 pre b t2).
  { assert (1 <= length pages)%nat by (destruct pages; [done|cbn; lia]).
    split; try done; try lia.
    - intros Hne0. split; [done|]. by apply Hpf.
    - rewrite (ca_mem _ _ Hc2). apply lookup_insert_eq.
    - unfold filled in Hf2. rewrite Hf2.
      assert (Hk : length (take (chunk e (length pages) 0) (drop 0 (mh_key_val e))) = chunk e (length pages) 0).
      { rewrite length_take, length_drop. unfold chunk. lia. }
      rewrite <- Hk at 1. by rewrite take_fill_0.
    - rewrite (ca_os _ _ Hc2). done. }
  eapply wp_mono; [eapply put_lock_wait; [done|by rewrite (ca_put _ _ Hc2)]|].
  intros [] t3 (Hp3 & pages' & datas' & b' & Hb' & Hex & Ha3 & Ho). unfold minf_put_unlock, mh_release. wp_steps.
  split; [done|]. destruct Ho as (H1 & H2 & H3). split.
  - split; cbn; [by rewrite (ap_enabled _ _ Ha3), (ca_enabled _ _ Hc2)|done|by rewrite (ap_get _ _ Ha3), (ca_get _ _ Hc2)| |
      by rewrite (ap_next _ _ Ha3), (ca_next _ _ Hc2)].
    rewrite (ap_mem _ _ Ha3), (ca_mem _ _ Hc2). cbn. by rewrite delete_insert_id.
  - exists pages', datas', b'. split; [done|]. split; [done|]. split; [|by split].
    by apply (linked_upd _ _ _ (t3 <| t_put := false |>)).
Qed.
End PutWait.

(** * Any operating system *)

Definition any_files oe root dom hash : PutFiles oe root dom hash.
Proof.
  refine {| pf_before := fun _ => True; pf_ready := fun _ => True; pf_open := fun _ _ _ => True;
            pf_closed := fun _ _ => True; pf_failed := fun _ => True |}; try done.
  - intros o _ _. eapply wp_mono; [apply chk_dir_total|done].
  - intros _ _ o _ _. eapply wp_mono; [apply chk_dir_total|done].
  - intros o _. eapply wp_mono; [apply open_total|]. intros fd o' _. by destruct (_ <? _).
  - intros _ fd o b _. eapply wp_mono; [apply write_total|done].
Defined.

(** * Files *)

(** What a path names: the bytes of a file. *)
Definition contents (o : os) (p : path) : option (list Z) :=
  match fs o !! p with Some (FFile i) => inodes o !! i | _ => None end.

(** Every inode has one name, and the next one is new. *)
Record os_wf (o : os) : Prop := {
  ow_inj : forall p p' i, fs o !! p = Some (FFile i) -> fs o !! p' = Some (FFile i) -> p = p';
  ow_next : forall p i, fs o !! p = Some (FFile i) -> i < next_ino o;
}.

Lemma dom_dir_parent root dom : parent (dom_dir root dom) = root.
Proof. apply parent_snoc. Qed.

Lemma entry_file_parent root dom hash : parent (entry_file root dom hash) = dom_dir root dom.
Proof.
  unfold entry_file, dom_dir. change [Fmt.dec dom; Fmt.dec hash] with ([Fmt.dec dom] ++ [Fmt.dec hash]).
  rewrite (assoc_L (++)). apply parent_snoc.
Qed.

Lemma entry_file_dir root dom hash : entry_file root dom hash <> dom_dir root dom.
Proof. unfold entry_file, dom_dir. intros H. apply (f_equal length) in H. rewrite !length_app in H. cbn in H. lia. Qed.

Section Granted.
Context (oe : OsEnv) (Hok : forall n, io_ok oe n = true) (Hfull : forall n c, (c <= io_count oe n c)%nat).
Context (root : path) (dom hash : Z).

Abbreviation file := (entry_file root dom hash).
Abbreviation dir := (dom_dir root dom).

(** [snap] is what the other files hold. *)
Context (snap : path -> option (list Z)).

Definition others (o : os) : Prop := os_wf o /\ forall p, p <> file -> contents o p = snap p.

Definition can_store (o : os) : Prop :=
  others o /\ fs o !! root = Some FDir /\ fs o !! file <> Some FDir /\
  (if dom =? 0 then fs o !! dir = Some FDir else fs o !! dir = Some FDir \/ fs o !! dir = None /\ dir <> []).

Definition ready (o : os) : Prop := others o /\ fs o !! dir = Some FDir /\ fs o !! file <> Some FDir.

Definition being_stored (bs : list Z) (fd : Z) (o : os) : Prop :=
  others o /\ 3 <= fd /\ fs o !! dir = Some FDir /\
  exists ino, fs o !! file = Some (FFile ino) /\ inodes o !! ino = Some bs /\ fds o !! fd = Some (ino, Z.of_nat (length bs)).

Definition stored (bs : list Z) (o : os) : Prop := others o /\ contents o file = Some bs.

Lemma others_same o o' : fs o' = fs o -> next_ino o' = next_ino o -> inodes o' = inodes o -> others o -> others o'.
Proof using.
  intros H1 H2 H3 [[Hi Hn] Ho]. split.
  - split; rewrite ?H1, ?H2; done.
  - intros p Hp. unfold contents. rewrite H1, H3. by apply Ho.
Qed.

(** Storing into the file's own inode. *)
Lemma others_inode o o' ino b : fs o' = fs o -> next_ino o' = next_ino o -> inodes o' = <[ino := b]> (inodes o) ->
  fs o !! file = Some (FFile ino) -> others o -> others o'.
Proof using.
  intros H1 H2 H3 Hf [Hw Ho]. pose proof Hw as [Hi Hn]. split.
  - split; rewrite ?H1, ?H2; done.
  - intros p Hp. rewrite <- (Ho p Hp). unfold contents. rewrite H1, H3. destruct (fs o !! p) as [[|i]|] eqn:E; try done.
    rewrite lookup_insert_ne; [done|]. intros ->. by apply Hp, (Hi _ _ i).
Qed.

Lemma granted_true tol (Q : bool -> os -> Prop) o :
  (forall o', os_same o o' -> Q true o') -> wp tol (granted oe) Q o.
Proof using Hok. apply granted_ok, Hok. Qed.

Lemma chk_dir_store o : can_store o -> dom <> 0 ->
  wp no_fault (chk_dir_and_create oe dir) (fun _ o' => ready o') o.
Proof using Hok.
  intros (Ho & Hr & Hf & Hd) Hdom. destruct (Z.eqb_spec dom 0) as [|_]; [done|]. cbn iota in Hd.
  unfold chk_dir_and_create, stat. wp_steps. destruct Hd as [Hd|[Hd Hne]]; rewrite Hd; wp_steps; [done|].
  unfold mkdir. wp_steps. apply granted_true. intros o1 (H1 & H2 & H3 & H4). wp_steps.
  rewrite H1, dom_dir_parent, Hr, Hd, !bool_decide_eq_true_2, bool_decide_eq_false_2 by done. cbn [andb negb]. wp_steps.
  split; [|split; cbn; rewrite ?lookup_insert_eq, ?H1; [done|]].
  - destruct Ho as [[Hi Hn] Ho]. split; [split|]; cbn; rewrite ?H1, ?H4.
    + intros p p' i Hp Hp'. apply lookup_insert_Some in Hp as [[_ ?]|[_ Hp]]; [done|].
      apply lookup_insert_Some in Hp' as [[_ ?]|[_ Hp']]; [done|]. by eapply Hi.
    + intros p i Hp. apply lookup_insert_Some in Hp as [[_ ?]|[_ Hp]]; [done|]. by eapply Hn.
    + intros p Hp. rewrite <- (Ho p Hp). unfold contents. cbn. rewrite H1, H2.
      destruct (decide (p = dir)) as [->|Hpd]; [by rewrite lookup_insert_eq, Hd|by rewrite lookup_insert_ne].
  - rewrite lookup_insert_ne; [done|]. intros He. by apply (entry_file_dir root dom hash).
Qed.

Lemma chk_dir_storing bs fd o : being_stored bs fd o ->
  wp no_fault (chk_dir_and_create oe dir) (fun _ o' => being_stored bs fd o') o.
Proof using.
  intros Hb. pose proof Hb as (_ & _ & Hd & _). unfold chk_dir_and_create, stat. wp_steps. rewrite Hd. by wp_steps.
Qed.

Lemma open_store o : ready o -> wp no_fault (open_trunc oe file)
  (fun fd o' => if fd <? 0 then False else being_stored [] fd o') o.
Proof using Hok.
  intros (Ho & Hd & Hf). unfold open_trunc. wp_steps. apply granted_true. intros o1 (H1 & H2 & H3 & H4). wp_steps.
  set (fd := new_fd (fds o1)). pose proof (new_fd_ge (fds o1)) as Hfd. fold fd in Hfd.
  assert (Hlt : (fd <? 0) = false) by (apply Z.ltb_ge; lia).
  destruct (fs o1 !! file) as [[|ino]|] eqn:E; [by rewrite H1 in E| |].
  - wp_steps. rewrite Hlt. split; [|split; [done|split; [cbn; by rewrite H1|]]].
    + eapply (others_inode o _ ino []); cbn; rewrite ?H1, ?H2; try done. by rewrite H1 in E.
    + exists ino. cbn. rewrite !lookup_insert_eq. done.
  - rewrite entry_file_parent, H1, Hd, bool_decide_eq_true_2 by done. cbn [andb]. wp_steps. rewrite Hlt.
    rewrite H1 in E. destruct Ho as [[Hi Hn] Ho]. split; [|split; [done|split]].
    + assert (Hnew : forall p, fs o !! p <> Some (FFile (next_ino o))).
      { intros p Hp. apply Hn in Hp. lia. }
      split; [split|]; cbn; rewrite ?H1, ?H2, ?H4.
      * intros p p' i Hp Hp'. apply lookup_insert_Some in Hp as [[<- Hp]|[Hne Hp]];
          apply lookup_insert_Some in Hp' as [[<- Hp']|[Hne' Hp']]; [done| | |by eapply Hi]; simplify_eq.
        -- by destruct (Hnew p').
        -- by destruct (Hnew p).
      * intros p i Hp. apply lookup_insert_Some in Hp as [[<- Hp]|[Hne Hp]]; simplify_eq; [lia|].
        apply Hn in Hp. lia.
      * intros p Hp. rewrite <- (Ho p Hp). unfold contents. cbn. rewrite ?H1, ?H2, ?H4, lookup_insert_ne by done.
        destruct (fs o !! p) as [[|i]|] eqn:Ep; try done. rewrite lookup_insert_ne; [done|].
        intros Heq. apply (Hnew p). by rewrite Ep, Heq.
    + cbn. rewrite H1, lookup_insert_ne; [done|]. apply entry_file_dir.
    + exists (next_ino o1). cbn. rewrite !lookup_insert_eq. done.
Qed.

Lemma write_store bs fd o b : being_stored bs fd o ->
  wp no_fault (my_write oe fd b) (fun _ o' => being_stored (bs ++ b) fd o') o.
Proof using Hfull.
  intros (Ho & Hfd & Hd & ino & Hf & Hi & Hfds). unfold my_write.
  eapply wp_mono; [apply (write_spec oe no_fault fd b ino (length bs)); done|].
  intros r o' (m & Hm & -> & Hc & H1 & H4 & H2 & H3).
  assert (m = length b) as ->.
  { destruct Hc as [Hc|]; [|done]. specialize (Hfull (os_tick o) (length b)). lia. }
  rewrite Hi in H2. cbn in H2. rewrite take_ge, splice_nil_end in H2 by lia.
  split; [by eapply others_inode|]. split; [done|]. split; [by rewrite H1|].
  exists ino. rewrite H1, H2, H3, !lookup_insert_eq, length_app. done.
Qed.

Definition good_files : PutFiles oe root dom hash.
Proof using Hok Hfull snap.
  refine {| pf_before := can_store; pf_ready := ready; pf_open := being_stored;
            pf_closed := stored; pf_failed := fun _ => False |}.
  - intros o (Ho & Hr & Hf & Hd) Hz. destruct (Z.eqb_spec dom 0); [by split|done].
  - intros o Hb Hdom. by apply chk_dir_store.
  - intros bs fd o Hb _. by apply chk_dir_storing.
  - apply open_store.
  - apply write_store.
  - intros bs fd o (Ho & Hfd & Hd & ino & Hf & Hi & Hfds). destruct (Z.eqb_spec fd 0); [lia|].
    split; [by apply (others_same o)|]. unfold contents. cbn. by rewrite Hf.
Defined.
End Granted.
