(* ===== verification/GetTurn.v ===== *)
(** Moving an entry in: the daemon opens the file with truncation, so that it
    reads nothing, and the hypervisor copies what the shared pages happen to
    hold. *)
From S2P Require Import Prelude CMonad Types State Core Display Ring FileOps FileSpec Mcdctl Daemon Exchange Link PageOut PutFile Turns PutTurn.

(** * An emptied file *)

(** The descriptor is open on a file without contents. *)
Definition empty_at (fd : Z) (o : os) : Prop :=
  exists ino off, fds o !! fd = Some (ino, off) /\ inodes o !! ino = Some [].

Section EmptyFile.
Context (oe : OsEnv).
Implicit Types (o : os).

(** A regular file that the system lets the daemon open. *)
Definition opens (p : path) o : Prop := (forall n, io_ok oe n = true) /\ exists ino, fs o !! p = Some (FFile ino).

Lemma open_empties (F : Prop) p o : F \/ opens p o ->
  wp no_fault (open_trunc oe p) (fun fd o' => if fd <? 0 then F else empty_at fd o') o.
Proof using.
  intros HF. pose proof (new_fd_ge (fds o)) as Hfd.
  assert (Hlt : (new_fd (fds o) <? 0) = false) by (apply Z.ltb_ge; lia).
  unfold open_trunc, granted, tick_os. wp_steps. cbn [fs fds setter].
  destruct (fs o !! p) as [[|ino]|] eqn:E.
  - destruct HF as [HF|[_ [ino E']]]; [by wp_steps|congruence].
  - destruct (io_ok _ _) eqn:Eok; wp_steps.
    + rewrite Hlt. exists ino, 0. cbn. by rewrite !lookup_insert_eq.
    + destruct HF as [HF|[Hok _]]; [done|by rewrite Hok in Eok].
  - destruct HF as [HF|[_ [ino E']]]; [|congruence].
    destruct (_ && _); wp_steps; [|done]. rewrite Hlt. eexists _, 0. cbn. by rewrite !lookup_insert_eq.
Qed.

Lemma chk_dir_opens p d o : opens p o -> wp no_fault (chk_dir_and_create oe d) (fun _ o' => opens p o') o.
Proof using.
  intros [Hok [ino E]]. unfold chk_dir_and_create, stat. wp_steps. destruct (fs o !! d) eqn:Ed; wp_steps; [by split; [|exists ino]|].
  unfold mkdir. wp_steps. apply granted_spec. intros o1 (H1 & H2 & H3 & H4). wp_steps.
  destruct (_ && _); wp_steps; (split; [done|]); exists ino; cbn; rewrite H1; [|done].
  rewrite lookup_insert_ne; [done|]. intros ->. congruence.
Qed.

Lemma read_empty fd start count o : empty_at fd o ->
  wp no_fault (find_and_read oe fd start count) (fun r o' => snd r = [] /\ empty_at fd o') o.
Proof using.
  intros (ino & off & Hf & Hi). unfold find_and_read, lseek, read, tick_os. wp_steps. rewrite Hf. wp_steps. cbn.
  rewrite lookup_insert_eq. wp_steps. rewrite Hi. cbn. rewrite drop_nil, take_nil. split; [done|].
  exists ino. eexists. cbn. rewrite lookup_insert_eq. done.
Qed.

Lemma chk_dir_empty fd p o : empty_at fd o ->
  wp no_fault (chk_dir_and_create oe p) (fun _ o' => empty_at fd o') o.
Proof using.
  intros He. unfold chk_dir_and_create, stat. wp_steps. destruct (fs o !! p); wp_steps; [done|].
  unfold mkdir. wp_steps. apply granted_spec. intros o1 (H1 & H2 & H3 & H4). wp_steps.
  assert (empty_at fd o1) by (destruct He as (ino & off & ? & ?); exists ino, off; by rewrite H2, H3).
  by destruct (_ && _); wp_steps.
Qed.
End EmptyFile.

(** * Messages *)

Record get_msg (p : ptr) (e : mcd_hashT) (acc : nat) (fd : Z) (new : bool) (x : mcd_event_st) : Prop := {
  gm_type : ev_type x = MCD_EVENT_OP_GET;
  gm_domain : ev_domain x = mh_domain e;
  gm_hash : ev_hash x = mh_hash e;
  gm_tot : ev_totsize x = mh_totsize e;
  gm_acc : ev_accsize x = Z.of_nat acc;
  gm_fd : ev_fd x = fd;
  gm_data : ev_mcd_data x = Some p;
  gm_flags : flagged (ev_flags x) new false;
}.

Record get_ans (p : ptr) (acc cur : nat) (fd : Z) (final : bool) (r : mcd_event_st) : Prop := {
  ga_type : ev_type r = MCD_EVENT_OP_GET;
  ga_data : ev_mcd_data r = Some p;
  ga_acc : ev_accsize r = Z.of_nat acc;
  ga_cur : ev_cursize r = Z.of_nat cur;
  ga_fd : final = false -> ev_fd r = fd;
  ga_flags : flagged (ev_flags r) false final;
  ga_some : (ev_flags r =? 0) = false;
}.

Definition get_error (r : mcd_event_st) : Prop :=
  ev_type r = MCD_EVENT_OP_GET /\ Z.testbit (ev_flags r) 4 = true.

Section GetTurn.
Context (de : DaemonEnv) (root : path) (tol : fault -> Prop) (pages : list Z) (Hnd : NoDup pages) (Hn : pages <> []).
(** Under which condition opening the file may fail. *)
Context (F : Prop).
Implicit Types (t : tstate) (e : mcd_hashT) (x req : mcd_event_st) (p : ptr).

Abbreviation n := (length pages).

(** ** The daemon reads nothing *)

Lemma read_into_spec fd m d start len t (Q : unit -> tstate -> Prop) : t_frames t !! m = Some d ->
  empty_at fd (t_os t) -> (forall t', filed t t' -> empty_at fd (t_os t') -> Q tt t') ->
  wp tol (read_into de fd m start len) Q t.
Proof using.
  intros Hm He HQ. unfold read_into. wp_steps. eapply frame_load_spec; [done|]. wp_steps.
  apply wp_sys. eapply wp_mono; [by apply read_empty|]. intros r o' [Hr Ho]. unfold frame_store. wp_steps.
  rewrite Hr, fill_nil. apply HQ; [|done]. unfold filed, setter. cbn. by rewrite insert_id.
Qed.

(** What the loop does to the request. *)
Record got req (left : nat) x : Prop := {
  go_msg : x = req <| ev_cursize := Z.of_nat (min left (n * page_len)) |> <| ev_flags := ev_flags x |>;
  go_bits : forall j, 0 <= j -> j <> 1 -> j <> 2 -> Z.testbit (ev_flags x) j = Z.testbit (ev_flags req) j;
  go_final : Z.testbit (ev_flags x) 2 = Z.testbit (ev_flags req) 2 || bool_decide (left <= n * page_len)%nat;
  go_some : Z.testbit (ev_flags x) 1 || Z.testbit (ev_flags x) 2 = true;
}.

Record get_inv req (left i : nat) x (l : Z) : Prop := {
  gi_i : (i <= n)%nat;
  gi_more : i = O \/ (i * page_len < left)%nat;
  gi_left : l = Z.of_nat (left - i * page_len);
  gi_msg : x = req <| ev_cursize := Z.of_nat (i * page_len) |> <| ev_flags := ev_flags x |>;
  gi_bits : forall j, 0 <= j -> j <> 1 -> Z.testbit (ev_flags x) j = Z.testbit (ev_flags req) j;
  gi_cont : i = O \/ Z.testbit (ev_flags x) 1 = true;
}.

Lemma n_positive : (0 < n)%nat.
Proof using Hn. apply Nat.neq_0_lt_0. by intros H%length_zero_iff_nil. Qed.

Lemma get_inv_end req left x l : get_inv req left n x l -> got req left x.
Proof using Hn.
  intros []. pose proof page_len_pos as HP0. pose proof n_positive as Hn0.
  destruct gi_more0 as [|Hlt]; [lia|]. destruct gi_cont0 as [|Hcont]; [lia|].
  split; rewrite ?Nat.min_r by lia; [done| | |by rewrite Hcont].
  - intros j Hj Hj1 _. by apply gi_bits0.
  - rewrite bool_decide_eq_false_2 by lia. rewrite orb_false_r. by apply gi_bits0.
Qed.

Lemma get_page fd pgs datas req left i x l start t : holds pages datas t ->
  (forall i m, pages !! i = Some m -> pgs !! Z.of_nat i = Some m) ->
  Z.of_nat left < 2 ^ 32 -> ev_fd req = fd -> empty_at fd (t_os t) -> get_inv req left i x l -> (i < n)%nat ->
  wp tol (get_step de pgs (Z.of_nat i) (mk_get_loc x l start)) (fun c t' => filed t t' /\ empty_at fd (t_os t') /\
    match c with
    | Continue g => get_inv req left (S i) (gl_req g) (gl_left g)
    | Break g => got req left (gl_req g)
    end) t.
Proof using.
  intros Hh Hp Hl32 Hfd He [] Hi. rename gi_msg0 into Hx. pose proof page_len_Z as HP. pose proof page_len_pos as HP0.
  destruct (lookup_lt_is_Some_2 pages i ltac:(lia)) as [m Hm].
  destruct (holds_lookup _ _ _ _ _ Hh Hm) as (d & _ & Hd & _).
  assert (Hxf : ev_fd x = fd) by (by rewrite Hx). assert (Hxc : ev_cursize x = Z.of_nat (i * page_len)) by (by rewrite Hx).
  unfold get_step, page_of. wp_steps. rewrite (Hp _ _ Hm). wp_steps. cbn [gl_req gl_left gl_start].
  rewrite gi_left0, Hxf. destruct (Z.leb_spec PAGE_SIZE (Z.of_nat (left - i * page_len))) as [Hbig|Hsmall]; wp_steps.
  - eapply read_into_spec; [done..|]. intros t1 Hf1 He1. wp_steps. split; [done|]. split; [done|].
    rewrite HP in *. rewrite (wrap_id _ (Z.of_nat (left - _) - _)) by (unfold urange; lia).
    destruct (Z.leb_spec (Z.of_nat (left - i * page_len) - Z.of_nat page_len) 0); cbn [gl_req gl_left].
    + split.
      * rewrite Nat.min_l by nia. rewrite Hx. unfold st_bit, setter. cbn.
        rewrite wrap_id by (unfold urange; lia). f_equal; lia.
      * intros j Hj Hj1 Hj2. flag_bits. rewrite gi_bits0 by done.
        destruct (Z.eqb_spec 1 j), (Z.eqb_spec 2 j); [lia..|done].
      * flag_bits. rewrite bool_decide_eq_true_2 by nia. by rewrite orb_true_r.
      * flag_bits. by rewrite orb_true_r.
    + split; [lia|right; lia|lia| | |].
      * rewrite Hx. unfold st_bit, setter. cbn. rewrite wrap_id by (unfold urange; lia). f_equal; lia.
      * intros j Hj Hj1. flag_bits. rewrite gi_bits0 by done. destruct (Z.eqb_spec 1 j); [lia|done].
      * right. flag_bits. done.
  - eapply read_into_spec; [done..|]. intros t1 Hf1 He1. wp_steps. split; [done|]. split; [done|]. cbn [gl_req].
    split.
    + rewrite Nat.min_l by nia. rewrite Hx. unfold st_bit, setter. cbn.
      rewrite wrap_id by (unfold urange; lia). f_equal; lia.
    + intros j Hj Hj1 Hj2. flag_bits. rewrite gi_bits0 by done. destruct (Z.eqb_spec 2 j); [lia|done].
    + flag_bits. rewrite bool_decide_eq_true_2 by nia. by rewrite orb_true_r.
    + flag_bits. by rewrite orb_true_r.
Qed.

Lemma get_loop fd pgs datas req left start t : holds pages datas t ->
  (forall i m, pages !! i = Some m -> pgs !! Z.of_nat i = Some m) ->
  Z.of_nat left < 2 ^ 32 -> ev_fd req = fd -> ev_cursize req = 0 -> empty_at fd (t_os t) ->
  wp tol (for_each (seqZ 0 (Z.of_nat n)) (get_step de pgs) (mk_get_loc req (Z.of_nat left) start)) (fun g t' =>
    filed t t' /\ empty_at fd (t_os t') /\ got req left (gl_req g)) t.
Proof using Hn.
  intros Hh Hp Hl Hfd Hc He. pose proof n_positive as Hn0.
  eapply (wp_for_each _ _ (fun xs g t' => exists i, xs = seqZ (Z.of_nat i) (Z.of_nat n - Z.of_nat i) /\
    filed t t' /\ empty_at fd (t_os t') /\ get_inv req left i (gl_req g) (gl_left g))).
  - exists O. rewrite Z.sub_0_r. split; [done|]. split; [apply filed_refl|]. split; [done|]. cbn [gl_req gl_left].
    split; [lia|by left|by rewrite Nat.sub_0_r| |done|by left]. cbn. destruct req; cbn in *. by subst.
  - intros g t' (i & Hxs & Hf & He' & Hi). split; [done|]. split; [done|].
    assert (i = n) as ->; [|by eapply get_inv_end].
    destruct (decide (i = n)) as [|Hne]; [done|]. destruct Hi.
    rewrite (seqZ_cons _ (Z.of_nat n - Z.of_nat i)) in Hxs by lia. done.
  - intros y ys [x l st] t' (i & Hxs & Hf & He' & Hi). pose proof (gi_i _ _ _ _ _ Hi). cbn [gl_req gl_left] in *.
    destruct (decide (i = n)) as [->|Hne]; [by rewrite Z.sub_diag in Hxs|].
    rewrite seqZ_cons in Hxs by lia. injection Hxs as -> ->.
    eapply wp_mono; [eapply get_page; [by eapply filed_holds|done..|lia]|].
    intros [g|g] t2 (Hf2 & He2 & H2); [|split; [by eapply filed_trans|done]].
    exists (S i). split; [f_equal; lia|]. split; [by eapply filed_trans|done].
Qed.

(** ** The answer of the daemon *)

Definition finalp e acc : bool := bool_decide (acc + chunk e n acc = tot_len e)%nat.

Lemma get_open_spec p e acc fd new x t : get_msg p e acc fd new x ->
  (new = false -> empty_at fd (t_os t)) -> (new = true -> F \/ opens (de_os de) (entry_file root (mh_domain e) (mh_hash e)) (t_os t)) ->
  wp tol (open_new de root x) (fun r t' => filed t t' /\
    let '(ok, y) := r in
    if ok : bool then exists fd', (new = false -> fd' = fd) /\ empty_at fd' (t_os t') /\
      y = x <| ev_fd := fd' |> <| ev_flags := ev_flags y |> /\
      (forall j, 0 < j -> Z.testbit (ev_flags y) j = Z.testbit (ev_flags x) j) /\ Z.testbit (ev_flags y) 0 = false
    else new = true /\ F /\ get_error y) t.
Proof using.
  intros [] He HF. unfold open_new. rewrite flag_new. destruct gm_flags0. rewrite fl_new. destruct new.
  - wp_steps. apply wp_sys. eapply wp_mono; [apply (open_empties _ F); cbn; rewrite gm_domain0, gm_hash0; by apply HF|].
    intros fd' o' Ho'. cbn beta in Ho' |- *. revert Ho'. destruct (fd' <? 0) eqn:Hneg; intros Ho'; wp_steps; (split; [done|]).
    + split; [done|]. split; [done|]. split; [done|]. flag_bits. done.
    + exists fd'. split; [done|]. split; [done|]. split; [by destruct x|].
      split; [|flag_bits; by rewrite andb_false_r]. intros j Hj. flag_bits. rewrite testbit_cl by lia.
      destruct (Z.eqb_spec 0 j); [lia|]. by rewrite andb_true_r.
  - wp_steps. split; [apply filed_refl|]. exists fd. split; [done|]. split; [by apply He|].
    split; [destruct x; cbn in *; by subst|done].
Qed.

Lemma close_fd_any y t (Q : mcd_event_st -> tstate -> Prop) :
  (forall t', filed t t' -> Q (y <| ev_fd := 0 |>) t') -> wp tol (close_fd y) Q t.
Proof using.
  intros HQ. unfold close_fd. destruct (Z.eqb_spec (ev_fd y) 0) as [E|Hne]; cbn [negb]; wp_steps.
  - assert (y = y <| ev_fd := 0 |>) as Ey by (destruct y; cbn in *; by subst). rewrite Ey. apply HQ, filed_refl.
  - apply wp_sys. unfold close. wp_steps. by apply HQ.
Qed.

Lemma op_get_spec p e acc fd new x dm datas t : get_msg p e acc fd new x -> (acc <= tot_len e)%nat ->
  serves root dm pages -> holds pages datas t -> (new = false -> empty_at fd (t_os t)) ->
  (new = true -> F \/ opens (de_os de) (entry_file root (mh_domain e) (mh_hash e)) (t_os t)) ->
  wp tol (op_get de dm x) (fun r t' => filed t t' /\
    (new = true /\ F /\ get_error r \/ exists fd', get_ans p acc (chunk e n acc) fd' (finalp e acc) r /\
       (finalp e acc = false -> empty_at fd' (t_os t')))) t.
Proof using Hn.
  intros Hm Hacc [Hr Hnum Hp] Hh He HF. unfold op_get. rewrite Hr. wp_steps.
  eapply wp_mono; [by eapply get_open_spec|]. intros [ok y] t1 [Hf1 Hy].
  destruct ok; cbn [negb]; wp_steps; [|split; [done|by left]].
  destruct Hy as (fd' & Hfd & He1 & Hy & Hbits & Hb0). destruct Hm. rewrite Hnum.
  pose proof (tot_len_u32 e) as Hu. pose proof (tot_len_Z e) as HZ.
  assert (Hlz : u32 (ev_totsize y - ev_accsize y) = Z.of_nat (tot_len e - acc)).
  { rewrite Hy. cbn. rewrite gm_tot0, gm_acc0, <- HZ. rewrite wrap_id by (unfold urange; lia). lia. }
  rewrite Hlz. eapply wp_mono; [eapply (get_loop fd' (dm_shared_page dm) datas);
    [by eapply filed_holds|done|lia|by rewrite Hy|done|done]|].
  intros g t2 (Hf2 & He2 & [Hgm Hgb Hgf Hgs]). destruct gm_flags0.
  assert (Hgb' : forall j, 0 <= j -> j <> 1 -> j <> 2 -> Z.testbit (ev_flags (gl_req g)) j = Z.testbit (ev_flags y) j) by exact Hgb.
  assert (Hgf' : Z.testbit (ev_flags (gl_req g)) 2 = Z.testbit (ev_flags y) 2 || bool_decide (tot_len e - acc <= n * page_len)%nat)
    by exact Hgf.
  clear Hgb Hgf. rename Hgb' into Hgb, Hgf' into Hgf.
  assert (Hfin : Z.testbit (ev_flags (gl_req g)) 2 = finalp e acc).
  { rewrite Hgf, Hbits, fl_final by done. unfold finalp. rewrite orb_false_l. apply bool_decide_ext. unfold chunk. lia. }
  assert (Hans : get_ans p acc (chunk e n acc) fd' (finalp e acc) (gl_req g)).
  { split; try (rewrite Hgm; cbn; rewrite Hy; cbn; done).
    - by rewrite Hgm.
    - split; rewrite ?Hgb, ?Hbits by done; try done; cbn; rewrite ?Hb0, ?Hbits by done; done.
    - apply orb_true_iff in Hgs as [H|H]; by eapply flags_nonzero. }
  rewrite flag_final, Hfin. destruct (finalp e acc) eqn:Ef; wp_steps.
  - apply close_fd_any. intros t3 Hf3. wp_steps. apply sys_total; [auto with total|]. intros r t4 Hf4. wp_steps.
    split; [by eapply filed_trans; [eapply filed_trans; [eapply filed_trans|]|]|]. right. exists fd'.
    split; [|done]. destruct Hans. by split.
  - split; [by eapply filed_trans|]. right. by exists fd'.
Qed.

(** ** The hypervisor copies the pages *)

Definition with_bytes e (kv : list Z) : mcd_hashT := e <| mh_key_val := kv |>.

Lemma copy_in_spec p e m d off len t (Q : unit -> tstate -> Prop) : t_mem t !! p = Some e ->
  t_frames t !! m = Some d -> (off + len <= length (mh_key_val e))%nat ->
  Q tt (t <| t_mem ::= <[p := with_bytes e (fill off (take len d) (mh_key_val e))]> |>) ->
  wp tol (copy_in (Some p) m (Z.of_nat off) (Z.of_nat len)) Q t.
Proof using.
  intros He Hd Ho HQ. unfold copy_in, mh_load. wp_steps. rewrite He. wp_steps. eapply frame_load_spec; [done|].
  wp_steps. destruct (Z.ltb_spec (Z.of_nat (length (mh_key_val e))) (Z.of_nat off + Z.of_nat len)); [lia|].
  wp_steps. rewrite !Nat2Z.id. exact HQ.
Qed.

(** Only the entry at [p] changes. *)
Definition writes p e t t' : Prop := t' = t <| t_mem ::= <[p := e]> |>.

Record copied p e acc cur datas req t x t' : Prop := {
  cp_mem : writes p (with_bytes e (fill acc (take cur (concat datas)) (mh_key_val e))) t t';
  cp_msg : x = req <| ev_accsize := ev_accsize x |> <| ev_cursize := ev_cursize x |>;
  cp_acc : cur = (n * page_len)%nat -> ev_accsize x = Z.of_nat (acc + cur);
}.

Lemma page_in_loop p e acc cur pgs datas rsp req t : t_mem t !! p = Some e -> holds pages datas t ->
  (forall i m, pages !! i = Some m -> pgs !! Z.of_nat i = Some m) ->
  (acc + cur <= length (mh_key_val e))%nat -> (0 < cur <= n * page_len)%nat -> Z.of_nat (acc + cur) < 2 ^ 32 ->
  ev_accsize req = Z.of_nat acc -> ev_cursize req = Z.of_nat cur ->
  wp tol (for_each (seqZ 0 (Z.of_nat n)) (page_in_step (Some p) pgs rsp) req)
    (copied p e acc cur datas req t) t.
Proof using.
  intros He Hh Hp Hl Hc Hu Ha Hcur. pose proof page_len_Z as HP. pose proof page_len_pos as HP0.
  pose proof (holds_sized _ _ _ Hh) as Hs. pose proof (sized_length _ Hs) as Hsl.
  pose proof (Forall2_length _ _ _ Hh) as Hpl.
  eapply (wp_for_each _ _ (fun xs x t' => exists i, xs = seqZ (Z.of_nat i) (Z.of_nat n - Z.of_nat i) /\ (i <= n)%nat /\
    (i * page_len < cur)%nat /\
    writes p (with_bytes e (fill acc (take (i * page_len) (concat datas)) (mh_key_val e))) t t' /\
    x = req <| ev_accsize := Z.of_nat (acc + i * page_len) |> <| ev_cursize := Z.of_nat (cur - i * page_len) |>)).
  - exists O. rewrite Z.sub_0_r. split; [done|]. split; [lia|]. split; [lia|]. split.
    + rewrite take_0, fill_nil. unfold writes, with_bytes, setter. cbn. rewrite insert_id; [by destruct t|].
      rewrite He. by destruct e.
    + rewrite Nat.add_0_r, Nat.sub_0_r. cbn. destruct req; cbn in *. by subst.
  - intros x t' (i & Hxs & Hi & Hic & _). exfalso. destruct (decide (i = n)) as [->|Hne]; [lia|].
    rewrite (seqZ_cons _ (Z.of_nat n - Z.of_nat i)) in Hxs by lia. done.
  - intros y ys x t' (i & Hxs & Hi & Hic & Hw & Hx).
    destruct (decide (i = n)) as [->|Hne]; [lia|]. rewrite seqZ_cons in Hxs by lia. injection Hxs as -> ->.
    destruct (lookup_lt_is_Some_2 pages i ltac:(lia)) as [m Hm].
    destruct (holds_lookup _ _ _ _ _ Hh Hm) as (d & Hd & Hfr & Hdl).
    assert (Hdc : forall k, (k <= page_len)%nat -> take k d = take k (drop (i * page_len) (concat datas))).
    { intros k Hk. rewrite <- (sized_lookup _ _ _ Hs Hd), take_take. by rewrite Nat.min_l by lia. }
    set (e1 := with_bytes e (fill acc (take (i * page_len) (concat datas)) (mh_key_val e))) in *.
    assert (Htl : length (take (i * page_len) (concat datas)) = (i * page_len)%nat) by (rewrite length_take; nia).
    assert (He1 : t_mem t' !! p = Some e1) by (rewrite Hw; cbn; apply lookup_insert_eq).
    assert (Hl1 : length (mh_key_val e1) = length (mh_key_val e)).
    { unfold e1. cbn. apply fill_length. lia. }
    assert (Hstep : forall k t2, (k <= page_len)%nat ->
      t2 = t' <| t_mem ::= <[p := with_bytes e1 (fill (acc + i * page_len) (take k d) (mh_key_val e1))]> |> ->
      writes p (with_bytes e (fill acc (take (i * page_len + k) (concat datas)) (mh_key_val e))) t t2).
    { intros k t2 Hk ->. rewrite Hw. unfold writes, with_bytes, setter. cbn. rewrite insert_insert_eq.
      f_equal. f_equal. f_equal. rewrite Hdc by done. rewrite <- Htl at 1. rewrite fill_fill by lia.
      by rewrite take_take_drop. }
    unfold page_in_step, page_of. wp_steps. rewrite (Hp _ _ Hm). wp_steps.
    assert (Hxa : ev_accsize x = Z.of_nat (acc + i * page_len)) by (by rewrite Hx).
    assert (Hxc : ev_cursize x = Z.of_nat (cur - i * page_len)) by (by rewrite Hx).
    rewrite Hxa, Hxc. destruct (Z.leb_spec PAGE_SIZE (Z.of_nat (cur - i * page_len))) as [Hbig|Hsmall]; wp_steps.
    + rewrite HP in *. eapply (copy_in_spec p e1 m d); [done|by rewrite Hw|lia|]. wp_steps.
      cbn [ev_cursize setter]. rewrite Hxc. rewrite (wrap_id _ (_ - _)) by (unfold urange; lia).
      specialize (Hstep page_len _ ltac:(lia) eq_refl).
      destruct (Z.leb_spec (Z.of_nat (cur - i * page_len) - Z.of_nat page_len) 0).
      * assert (i * page_len + page_len = cur)%nat as E by lia. rewrite E in Hstep. split; [done| |].
        -- rewrite Hx. by unfold setter.
        -- intros _. cbn. rewrite Hxa, wrap_id by (unfold urange; lia). lia.
      * exists (S i). split; [f_equal; lia|]. split; [lia|]. split; [lia|].
        split; [by replace (S i * page_len)%nat with (i * page_len + page_len)%nat by lia|].
        rewrite Hx. unfold setter. cbn. rewrite !wrap_id by (unfold urange; lia). f_equal; lia.
    + rewrite HP in *. eapply (copy_in_spec p e1 m d); [done|by rewrite Hw|lia|]. wp_steps.
      specialize (Hstep (cur - i * page_len)%nat _ ltac:(lia) eq_refl).
      replace (i * page_len + (cur - i * page_len))%nat with cur in Hstep by lia.
      split; [done| |intros ->; nia]. rewrite Hx. by unfold setter.
Qed.
End GetTurn.
