(* ===== verification/GetWait.v ===== *)
(** The whole transfer of an entry back in, turn by turn, and the wait of the
    cache for its end: the transfer always ends, and the buffer ends up with
    what the shared pages held. *)
From S2P Require Import Prelude CMonad Types State Core Display Ring FileOps FileSpec Mcdctl Daemon Exchange Link PageOut PutFile Turns PutTurn GetTurn.

(** What the hypervisor copies when the daemon never writes the pages: their
    old contents, over and over. *)
Definition stale (tot : nat) (datas : list (list Z)) : list Z := concat (replicate (S tot) (concat datas)).

Lemma stale_more k cur tot datas : (k <= tot)%nat -> (cur <= length (concat datas))%nat ->
  take (k * length (concat datas) + cur) (stale tot datas) =
  take (k * length (concat datas)) (stale tot datas) ++ take cur (concat datas).
Proof.
  intros Hk Hc. unfold stale. set (flat := concat datas) in *.
  assert (Hr : replicate (S tot) flat = replicate k flat ++ flat :: replicate (tot - k) flat).
  { change (flat :: _) with (replicate (S (tot - k)) flat). rewrite <- replicate_add. f_equal. lia. }
  assert (Hl : length (concat (replicate k flat)) = (k * length flat)%nat).
  { clear. induction k as [|k IH]; cbn; [done|]. rewrite length_app, IH. lia. }
  rewrite Hr, concat_app. cbn [concat]. rewrite <- Hl.
  rewrite take_app_add, take_app_length, take_app_le by done. done.
Qed.

Lemma stale_length tot datas : length (stale tot datas) = (S tot * length (concat datas))%nat.
Proof.
  unfold stale. induction (S tot) as [|k IH]; [done|]. cbn [replicate concat]. rewrite length_app, IH. lia.
Qed.

(** One more round of pages. *)
Lemma fill_stale k acc cur tot datas kv : acc = (k * length (concat datas))%nat -> (k <= tot)%nat ->
  (cur <= length (concat datas))%nat -> (acc + cur <= length kv)%nat ->
  fill acc (take cur (concat datas)) (fill 0 (take acc (stale tot datas)) kv) =
  fill 0 (take (acc + cur) (stale tot datas)) kv.
Proof.
  intros -> Hk Hc Hl. rewrite (stale_more k) by done. rewrite <- fill_fill; rewrite length_take, stale_length.
  - f_equal. nia.
  - nia.
Qed.

(** ** What a transfer in may change *)

Record gapart (p : ptr) (t t' : tstate) : Prop := {
  gp_enabled : t_enabled t' = t_enabled t;
  gp_put : t_put t' = t_put t;
  gp_next : t_next t' = t_next t;
  gp_mem : delete p (t_mem t') = delete p (t_mem t);
}.
#[export] Instance gapart_preorder p : PreOrder (gapart p).
Proof. split; [done|]. intros ??? [] []. split; congruence. Qed.
Lemma still_gapart p t t' : still t t' -> gapart p t t'.
Proof. intros []. split; congruence. Qed.
Lemma quiet_gapart p t t' : quiet t t' -> gapart p t t'.
Proof. intros []. split; congruence. Qed.
Lemma filed_gapart p t t' : filed t t' -> gapart p t t'.
Proof. by intros ->. Qed.

Section GetWait.
Context (de : DaemonEnv) (xe : XenEnv) (root : path) (tol : fault -> Prop).
Context (Hadd : forall m t, de_add de m t = mcd_event_add_shared_page xe 0 m t \/
  exists rc, rc <> 0 /\ de_add de m t = Ret rc t).
Context (p : ptr) (e : mcd_hashT) (Hbuf : buffer_ok e).
(** Under which condition opening the file may fail. *)
Context (F : Prop).
Implicit Types (t : tstate) (x r : mcd_event_st) (pages : list Z) (pre : list mcd_event_st) (q : queues mcd_event_st).

Abbreviation kv := (mh_key_val e).
Abbreviation tot := (tot_len e).

(** ** The hypervisor's half *)

Lemma page_in_new pages q t : link root pages q t -> room q = true -> t_mem t !! p = Some e ->
  wp tol (mcdctl_page_in (Some p) None) (fun rc t' => rc = 0 /\ quiet t t' /\
    exists x, get_msg p e 0 0 true x /\ link root pages (sent q x) t') t.
Proof using.
  intros Hl Hr He. unfold mcdctl_page_in. wp_steps. eapply check_ring_spec; [done|]. rewrite Hr. cbn [Z.eqb negb].
  unfold mh_load. wp_steps. rewrite He. wp_steps. eapply (put_request_spec root tol pages q); [done| |].
  - apply Z.leb_le in Hr. unfold MCD_EVENT_RING_THRESHOLD in Hr. lia.
  - intros t' Hq Hl'. wp_steps. split; [done|]. split; [done|]. eexists. split; [|exact Hl']. by split; [..|split].
Qed.

(** The bytes of the entry during the transfer. *)
Definition at_mem (bytes : list Z) t : Prop :=
  t_mem t !! p = Some (with_bytes e bytes) /\ length bytes = length kv.

Lemma page_in_chunk pages q datas bytes acc cur fd final r t : link root pages q t -> room q = true ->
  at_mem bytes t -> holds pages datas t -> (acc + cur <= tot)%nat -> (0 < cur <= length pages * page_len)%nat ->
  get_ans p acc cur fd final r -> (final = false -> cur = (length pages * page_len)%nat) ->
  wp tol (mcdctl_page_in (Some p) (Some r)) (fun rc t' => rc = 0 /\ gapart p t t' /\
    at_mem (fill acc (take cur (concat datas)) bytes) t' /\ t_get t' = t_get t /\ t_os t' = t_os t /\
    holds pages datas t' /\
    if final then link root pages q t'
    else exists x, get_msg p e (acc + cur) fd false x /\ link root pages (sent q x) t') t.
Proof using Hbuf.
  intros Hl Hroom [He Hlen] Hh Hac Hcur Hans Hfc. pose proof Hans as []. pose proof (tot_len_fits e Hbuf) as Hfit.
  pose proof (tot_len_u32 e) as Hu. pose proof (sized_length _ (holds_sized _ _ _ Hh)) as Hsl.
  pose proof (Forall2_length _ _ _ Hh) as Hpl.
  unfold mcdctl_page_in. wp_steps. eapply check_ring_spec; [done|]. rewrite Hroom. cbn [Z.eqb negb].
  unfold mh_load. wp_steps. rewrite He. wp_steps. rewrite ga_cur. destruct (Z.eqb_spec (Z.of_nat cur) 0); [lia|].
  unfold event_of. wp_steps. pose proof Hl as (ev & dm & s & []). rewrite lk_event. cbn [default from_option id].
  rewrite lk_num. set (e1 := with_bytes e bytes) in *.
  match goal with |- wp _ (for_each _ _ ?q0) _ _ => set (req := q0) end.
  eapply wp_mono; [eapply (page_in_loop tol pages p e1 acc cur (shared_page ev) datas r req t);
    [done|done|done|cbn; lia|done|lia|by rewrite <- ga_acc|by rewrite <- ga_cur]|].
  intros y t1 [Hw Hy Hya]. wp_steps. rewrite flag_final. destruct ga_flags. rewrite fl_final.
  set (bytes' := fill acc (take cur (concat datas)) bytes).
  assert (Hb' : length bytes' = length kv).
  { unfold bytes'. rewrite fill_length; [done|]. rewrite length_take. lia. }
  assert (Hm1 : t_mem t1 = <[p := with_bytes e bytes']> (t_mem t)) by (rewrite Hw; done).
  assert (Ha1 : gapart p t t1).
  { rewrite Hw. split; try done. cbn. apply delete_insert_eq. }
  assert (Hl1 : link root pages q t1) by (rewrite Hw; by apply (link_frame root pages q t)).
  assert (Hh1 : holds pages datas t1) by (rewrite Hw; by apply (holds_frames pages datas t)).
  assert (Hg1 : t_get t1 = t_get t) by (by rewrite Hw). assert (Ho1 : t_os t1 = t_os t) by (by rewrite Hw).
  assert (Hat : forall t', t_mem t' = t_mem t1 -> at_mem bytes' t').
  { intros t' Ht. split; [|done]. rewrite Ht, Hm1. apply lookup_insert_eq. }
  destruct final; wp_steps.
  - split; [done|]. split; [done|]. split; [by apply Hat|]. done.
  - eapply (put_request_spec root tol pages q); [done| |].
    { apply Z.leb_le in Hroom. unfold MCD_EVENT_RING_THRESHOLD in Hroom. lia. }
    intros t2 Hq2 Hl2. wp_steps. split; [done|]. split; [etransitivity; [done|by apply quiet_gapart]|].
    split; [apply Hat, Hq2|]. split; [by rewrite (qu_get _ _ Hq2)|]. split; [by rewrite (qu_os _ _ Hq2)|].
    split; [eapply holds_frames; [by apply qu_frames|done]|]. eexists. split; [|exact Hl2].
    specialize (Hya (Hfc eq_refl)).
    assert (Hyf : ev_flags y = 0) by (by rewrite Hy).
    split; [by rewrite Hy..|exact Hya|by apply ga_fd|by rewrite Hy|]. cbn. rewrite Hyf. by split.
Qed.

(** ** The state of a transfer *)

(** The request of the transfer is last on the ring; [acc] bytes, [k] times
    the shared pages, are in the buffer. *)
Record getting (acc k : nat) (fd : Z) (new : bool) x pages datas pre (b : nat) t : Prop := {
  gt_linked : linked root pages datas (mk_queues (pre ++ [x]) [] b) t;
  gt_used : (length pre + 1 + b <= 61)%nat;
  gt_simple : Forall simple pre;
  gt_pre : pre <> [] -> new = true;
  gt_msg : get_msg p e acc fd new x;
  gt_pages : pages <> [];
  gt_new : new = true -> k = O;
  gt_k : acc = (k * (length pages * page_len))%nat;
  gt_acc : (acc <= tot)%nat;
  gt_mem : at_mem (fill 0 (take acc (stale tot datas)) kv) t;
  gt_file : new = false -> empty_at fd (t_os t);
  gt_opens : new = true -> F \/ pre = [] /\ opens (de_os de) (entry_file root (mh_domain e) (mh_hash e)) (t_os t);
}.

Definition get_over pages datas (b : nat) t : Prop :=
  linked root pages datas (mk_queues [] [] b) t /\ t_get t = false /\
  exists bytes, at_mem bytes t /\ (bytes = kv /\ F \/ bytes = fill 0 (take tot (stale tot datas)) kv).

Lemma unlock_get_spec pages datas q r t (Q : unit -> tstate -> Prop) :
  linked root pages datas q t -> ev_type r = MCD_EVENT_OP_GET ->
  (forall t', gapart p t t' -> t_mem t' = t_mem t -> t_get t' = false -> linked root pages datas q t' -> Q tt t') ->
  wp tol (resume_final r) Q t.
Proof using.
  intros [Hl Hnd Hh] Hr HQ. unfold resume_final. rewrite Hr.
  change (MCD_EVENT_OP_GET =? MCD_EVENT_OP_PUT) with false. change (MCD_EVENT_OP_GET =? MCD_EVENT_OP_GET) with true.
  cbn iota. unfold minf_get_unlock. wp_steps. apply HQ; [by split|done..|].
  split; [by apply (link_frame root pages q t)|done|by apply (holds_frames pages datas t)].
Qed.

Lemma at_mem_eq bytes t t' : t_mem t' = t_mem t -> at_mem bytes t -> at_mem bytes t'.
Proof using. intros H [H1 H2]. split; [by rewrite H|done]. Qed.

Lemma resume_get_error pages datas b r t : linked root pages datas (mk_queues [] [] (S b)) t -> get_error r ->
  at_mem kv t -> F -> wp tol (mcd_resume_page r) (fun _ t' => get_over pages datas b t' /\ gapart p t t') t.
Proof using.
  intros Hl [Hr He] Hm HF. eapply resume_spec; [done|]. intros t1 Hq1 Hl1.
  rewrite flag_error, He. rewrite (flags_nonzero _ 4 He). cbn iota.
  eapply unlock_get_spec; [done..|]. intros t2 Ha2 Hm2 Hg2 Hl2.
  split; [|etransitivity; [by apply quiet_gapart|done]]. split; [done|]. split; [done|]. exists kv.
  split; [|by left]. eapply at_mem_eq; [|exact Hm]. rewrite Hm2. apply Hq1.
Qed.

(** Nothing to copy: the response counts no bytes. *)
Lemma page_in_nothing pages q r t : link root pages q t -> room q = true -> is_Some (t_mem t !! p) -> ev_cursize r = 0 ->
  wp tol (mcdctl_page_in (Some p) (Some r)) (fun rc t' => rc = -1 /\ t' = t) t.
Proof using.
  intros Hl Hr [e' He] Hc. unfold mcdctl_page_in. wp_steps. eapply check_ring_spec; [done|]. rewrite Hr. cbn [Z.eqb negb].
  unfold mh_load. wp_steps. rewrite He. wp_steps. rewrite Hc. cbn [Z.eqb]. by wp_steps.
Qed.

Lemma resume_get pages datas b acc k fd final r t : pages <> [] ->
  linked root pages datas (mk_queues [] [] (S b)) t -> (b <= 60)%nat ->
  get_ans p acc (chunk e (length pages) acc) fd final r -> final = finalp pages e acc ->
  acc = (k * (length pages * page_len))%nat -> (acc <= tot)%nat ->
  at_mem (fill 0 (take acc (stale tot datas)) kv) t -> (final = false -> empty_at fd (t_os t)) ->
  wp tol (mcd_resume_page r) (fun _ t' => gapart p t t' /\
    (get_over pages datas b t' \/ t_get t' = t_get t /\ exists x',
       (acc + page_len <= acc + chunk e (length pages) acc)%nat /\
       getting (acc + chunk e (length pages) acc) (S k) fd false x' pages datas [] b t')) t.
Proof using Hbuf.
  intros Hn Hl Hb Hans Hfin Hk Hacc Hm Hf. pose proof Hans as []. pose proof page_len_pos as HP0.
  pose proof (tot_len_fits e Hbuf) as Hfit.
  eapply resume_spec; [done|]. intros t1 Hq1 Hl1. destruct ga_flags.
  rewrite flag_error, flag_end, flag_final, fl_error, fl_end, fl_final, ga_some, ga_type, ga_data.
  change (MCD_EVENT_OP_GET =? MCD_EVENT_OP_GET) with true. change (MCD_EVENT_OP_GET =? MCD_EVENT_OP_PUT) with false.
  cbn iota. pose proof Hl1 as [Hl1' Hnd Hh].
  pose proof (sized_length _ (holds_sized _ _ _ Hh)) as Hsl. pose proof (Forall2_length _ _ _ Hh) as Hpl.
  assert (Hn0 : (0 < length pages)%nat) by (destruct pages; cbn; [done|lia]).
  assert (Hm1 : at_mem (fill 0 (take acc (stale tot datas)) kv) t1) by (eapply at_mem_eq; [apply Hq1|done]).
  assert (Hroom : room (mk_queues [] [] b : queues mcd_event_st) = true).
  { apply Z.leb_le. unfold q_used. cbn. change (2 ^ ring_log) with 64. unfold MCD_EVENT_RING_THRESHOLD. lia. }
  set (cur := chunk e (length pages) acc) in *.
  assert (Hcur : (acc + cur <= tot)%nat /\ (cur <= length pages * page_len)%nat) by (unfold cur, chunk; lia).
  assert (Hfc : final = false -> cur = (length pages * page_len)%nat).
  { intros ->. symmetry in Hfin. apply bool_decide_eq_false in Hfin. fold cur in Hfin. unfold cur, chunk in *. lia. }
  wp_steps. destruct (decide (cur = O)) as [Hz|Hz].
  - assert (final = true) as ->.
    { destruct final; [done|]. specialize (Hfc eq_refl). nia. }
    assert (acc = tot) as Ht.
    { symmetry in Hfin. apply bool_decide_eq_true in Hfin. fold cur in Hfin. lia. }
    eapply wp_mono; [eapply page_in_nothing; [done|done|eexists; apply Hm1|by rewrite ga_cur, Hz]|].
    intros rc t2 [-> ->]. cbn [Z.eqb negb].
    eapply unlock_get_spec; [done..|]. intros t2 Ha2 Hm2 Hg2 Hl2.
    split; [etransitivity; [by apply quiet_gapart|done]|]. left. split; [done|]. split; [done|].
    eexists. split; [by eapply at_mem_eq|]. right. by rewrite Ht.
  - assert (Hkt : (k <= tot)%nat) by nia.
    eapply wp_mono; [eapply (page_in_chunk pages _ datas _ acc cur fd final r); [done|done|done|done|lia|lia|done|done]|].
    intros rc t2 (-> & Ha2 & Hm2 & Hg2 & Ho2 & Hh2 & H2). cbn [Z.eqb negb].
    rewrite (fill_stale k) in Hm2 by (rewrite ?Hsl, <- ?Hpl; lia).
    destruct final; wp_steps.
    + eapply unlock_get_spec; [by split|done|]. intros t3 Ha3 Hm3 Hg3 Hl3.
      split; [etransitivity; [by apply quiet_gapart|]; by etransitivity|]. left. split; [done|]. split; [done|].
      eexists. split; [by eapply at_mem_eq|]. right. symmetry in Hfin. apply bool_decide_eq_true in Hfin.
      fold cur in Hfin. by rewrite Hfin.
    + destruct H2 as (x & Hx & Hl2). change (MCD_EVENT_OP_GET =? MCD_EVENT_OP_PUT) with false. wp_steps.
      change (0 =? 0) with true. cbn [negb]. wp_steps.
      split; [etransitivity; [by apply quiet_gapart|done]|]. right. split; [by rewrite Hg2, (qu_get _ _ Hq1)|].
      specialize (Hfc eq_refl). exists x. split; [nia|].
      split; cbn [length app]; try done; try lia.
      * rewrite Ho2, (qu_os _ _ Hq1). auto.
Qed.

(** ** The turns of the daemon *)

Lemma get_turn acc k fd new x pages datas b t : getting acc k fd new x pages datas [] b t ->
  wp tol (daemon_turn de) (fun _ t' => gapart p t t' /\
    (get_over pages datas b t' \/ t_get t' = t_get t /\ exists acc' k' fd' x',
       (acc + page_len <= acc')%nat /\ getting acc' k' fd' false x' pages datas [] b t')) t.
Proof using Hbuf.
  intros []. cbn [app length] in *.
  eapply turn_spec; [done|]. intros dm t1 Hq1 Hl1 Hsv. unfold handle. wp_steps. pose proof gt_msg0 as [].
  assert (He1 : new = false -> empty_at fd (t_os t1)) by (by rewrite (qu_os _ _ Hq1)).
  set (file := entry_file root (mh_domain e) (mh_hash e)).
  assert (HF1 : new = true -> F \/ opens (de_os de) file (t_os t1)).
  { rewrite (qu_os _ _ Hq1). intros Hnew. destruct (gt_opens0 Hnew) as [|[_ ?]]; [by left|by right]. }
  eapply (wp_mono _ _ (fun _ t' => filed t1 t' /\ (new = false -> empty_at fd (t_os t')) /\
    (new = true -> F \/ opens (de_os de) file (t_os t')))).
  { destruct (negb _); wp_steps; [|by split; [apply filed_refl|]]. destruct new.
    - destruct (HF1 eq_refl) as [HF|Hop].
      + apply sys_total; [auto with total|]. intros r t' Hf. wp_steps. split; [done|]. split; [done|by left].
      + apply wp_sys. eapply wp_mono; [by apply chk_dir_opens|]. intros r o' Ho'. wp_steps.
        split; [done|]. split; [done|by right].
    - apply wp_sys. eapply wp_mono; [by apply chk_dir_empty, He1|]. intros r o' Ho'. by wp_steps. }
  intros [] t2 (Hf2 & He2 & HF2). wp_steps. unfold serve. rewrite gm_type.
  change (MCD_EVENT_OP_GET =? MCD_EVENT_OP_PUT) with false. change (MCD_EVENT_OP_GET =? MCD_EVENT_OP_GET) with true.
  cbn iota. wp_steps. pose proof (linked_filed _ _ _ _ _ _ Hf2 Hl1) as Hl2.
  eapply wp_mono; [eapply (op_get_spec de root tol pages gt_pages0 F p e acc fd new x dm datas); [done..|apply Hl2|done|done]|].
  intros r t3 [Hf3 Hr]. wp_steps. pose proof (linked_filed _ _ _ _ _ _ Hf3 Hl2) as Hl3.
  assert (Ha3 : gapart p t t3).
  { etransitivity; [by apply quiet_gapart|]. etransitivity; by apply filed_gapart. }
  assert (Hm3 : t_mem t3 = t_mem t) by (rewrite Hf3, Hf2; cbn; apply Hq1).
  assert (Hg3 : t_get t3 = t_get t) by (rewrite Hf3, Hf2; cbn; apply Hq1).
  destruct Hr as [(-> & HF & Herr)|(fd' & Hans & He3)].
  - rewrite gt_k0, gt_new0 in gt_mem0 by done. cbn [Nat.mul] in gt_mem0. rewrite take_0, fill_nil in gt_mem0.
    eapply wp_mono; [eapply resume_get_error; [done..|by eapply at_mem_eq|done]|].
    intros rc t4 [H4 Ha4]. wp_steps. split; [by etransitivity|by left].
  - eapply wp_mono; [eapply (resume_get pages datas b acc k fd'); try done; [lia|by eapply at_mem_eq]|].
    intros rc t4 (Ha4 & H4). wp_steps. split; [by etransitivity|].
    destruct H4 as [H4|(Hg4 & x' & Hlt & H4)]; [by left|right]. split; [congruence|].
    by exists (acc + chunk e (length pages) acc)%nat, (S k), fd', x'.
Qed.

Lemma get_pre_turn acc k fd new x y pages datas pre b t : getting acc k fd new x pages datas (y :: pre) b t ->
  wp tol (daemon_turn de) (fun _ t' => gapart p t t' /\ t_get t' = t_get t /\ exists pages' datas' b',
    (b' <= S b)%nat /\ extends pages pages' /\ extends datas datas' /\ getting acc k fd new x pages' datas' pre b' t') t.
Proof using Hadd.
  intros []. specialize (gt_pre0 ltac:(done)) as ->. apply Forall_cons in gt_simple0 as [Hy Hpre].
  eapply wp_mono; [eapply (simple_turn de xe root tol Hadd pages datas y (pre ++ [x]) b); [done|done]|].
  intros [] t' (b' & Hb' & Hst & pages' & datas' & Hp & Hd & Hl). cbn [length] in *.
  split; [by apply still_gapart|]. split; [apply Hst|]. exists pages', datas', b'. split; [done|]. split; [done|]. split; [done|].
  specialize (gt_new0 eq_refl). subst k. cbn [Nat.mul] in gt_k0. subst acc. rewrite take_0 in gt_mem0.
  split; try done; try lia.
  - intros ->. by apply prefix_nil_inv in Hp.
  - rewrite take_0. eapply at_mem_eq; [apply Hst|done].
  - intros _. destruct (gt_opens0 eq_refl) as [|[? _]]; [by left|done].
Qed.

Definition get_settled pages datas (b : nat) t t' : Prop := gapart p t t' /\ exists pages' datas' b',
  (b' <= b)%nat /\ extends pages pages' /\ extends datas datas' /\ get_over pages' datas' b' t'.

(** The cache spins until the transfer is over. *)
Lemma get_spin fuel : forall acc k fd new x pages datas pre b t, getting acc k fd new x pages datas pre b t ->
  t_get t = true -> (length pre + (tot - acc) / page_len + 1 < fuel)%nat ->
  wp tol (while fuel (fun b : bool => b)
    (fun _ => daemon_turn de;; t ← get; mret (Continue (t_get t))) true)
    (fun _ t' => get_settled pages datas (length pre + b) t t') t.
Proof using Hadd Hbuf.
  induction fuel as [|fuel IH]; intros acc k fd new x pages datas pre b t Hp Hget Hf; [lia|]. cbn [while].
  wp_steps. destruct pre as [|y pre].
  - eapply wp_mono; [by eapply get_turn|]. intros [] t1 [Ha1 [Hover|(Hget1 & acc' & k' & fd' & x' & Hck & Hp1)]]; wp_steps.
    + destruct Hover as (H1 & H2 & H3). rewrite H2. destruct fuel; [cbn in Hf; lia|]. cbn [while]. wp_steps.
      split; [done|]. exists pages, datas, b. split; [cbn; lia|]. split; [done|]. split; [done|]. by split.
    + rewrite Hget1, Hget. pose proof page_len_pos as HP0. cbn [length Nat.add] in *.
      assert (Hacc : (acc' <= tot)%nat) by apply Hp1.
      eapply wp_mono; [eapply IH; [done|congruence|]|].
      * assert ((tot - acc') / page_len + 1 <= (tot - acc) / page_len)%nat; [|cbn; lia].
        rewrite <- Nat.div_add by lia. apply Nat.Div0.div_le_mono. lia.
      * intros lk t2 (Ha2 & pages' & datas2 & b' & Hb' & He & Ho). cbn [length Nat.add] in *.
        split; [by etransitivity|]. by exists pages', datas2, b'.
  - eapply wp_mono; [by eapply get_pre_turn|]. intros [] t1 (Ha1 & Hget1 & pages' & datas' & b' & Hb' & He & Hed & Hp1).
    wp_steps. rewrite Hget1, Hget. cbn [length] in *.
    eapply wp_mono; [eapply IH; [done|congruence|lia]|].
    intros lk t2 (Ha2 & pages2 & datas2 & b2 & Hb2 & He2 & Hed2 & Ho). split; [by etransitivity|].
    exists pages2, datas2, b2. split; [lia|]. split; [by etransitivity|]. split; [by etransitivity|done].
Qed.

Lemma get_lock_wait acc k fd new x pages datas pre b t :
  getting acc k fd new x pages datas pre b t -> t_get t = true ->
  wp tol (minf_get_lock de e) (fun _ t' => t_get t' = true /\ exists pages' datas' b',
    (b' <= length pre + b)%nat /\ extends pages pages' /\ extends datas datas' /\ gapart p t t' /\
    get_over pages' datas' b' (t' <| t_get := false |>)) t.
Proof using Hadd Hbuf.
  intros Hp Ht. unfold minf_get_lock, spin. wp_steps. rewrite Ht.
  rewrite (spin_fuel_link root e pages datas (mk_queues (pre ++ [x]) [] b)) by apply Hp.
  eapply wp_mono; [eapply get_spin; [done|done|]|].
  - pose proof (gt_used _ _ _ _ _ _ _ _ _ _ Hp).
    assert ((tot - acc) / page_len <= Z.to_nat (mh_totsize e / PAGE_SIZE))%nat; [|lia].
    rewrite <- tot_len_Z, page_len_Z, <- Nat2Z.inj_div, Nat2Z.id. apply Nat.Div0.div_le_mono. lia.
  - intros lk t1 (Ha1 & pages' & datas' & b' & Hb & He & Hed & Ho). wp_steps. split; [done|].
    exists pages', datas', b'. split; [done|]. split; [done|]. split; [done|]. split; [by destruct Ha1; split|].
    replace ((t1 <| t_get := true |>) <| t_get := false |>) with t1; [done|].
    destruct Ho as (_ & Hget & _). destruct t1; cbn in *. by subst.
Qed.
End GetWait.

(** * The wait of the cache *)

Lemma with_own_bytes e : with_bytes e (mh_key_val e) = e.
Proof. by destruct e. Qed.

Section GetDone.
Context (de : DaemonEnv) (xe : XenEnv) (root : path) (tol : fault -> Prop).
Context (Hadd : forall m t, de_add de m t = mcd_event_add_shared_page xe 0 m t \/
  exists rc, rc <> 0 /\ de_add de m t = Ret rc t).
Context (e : mcd_hashT) (Hbuf : buffer_ok e) (F : Prop).
Implicit Types (t : tstate) (x : mcd_event_st) (pages : list Z) (pre : list mcd_event_st).

(** The ring is full: the request is refused and nothing happens. *)
Lemma page_in_full pages datas pre b t : linked root pages datas (q_of pre b) t -> room (q_of pre b) = false ->
  t_enabled t = true -> t_put t = false -> t_get t = false -> t_mem t !! t_next t = None ->
  wp tol (page_in_wait de e) (fun r t' => r = (-1, mh_key_val e) /\ done_with t t' /\ t_os t' = t_os t /\
    linked root pages datas (q_of pre b) t') t.
Proof using.
  intros Hl Hr He Hp Hg Hm. unfold page_in_wait, mh_alloc. wp_steps. unfold minf_page_in. wp_steps. cbn. rewrite He.
  rewrite ?bool_decide_eq_false_2 by done. cbn [negb orb]. wp_steps. unfold minf_get_lock. wp_steps.
  apply spin_free; [done|]. wp_steps. unfold mcdctl_page_in. wp_steps.
  eapply check_ring_spec; [eapply linked_upd; [..|exact Hl]; done|]. rewrite Hr. cbn [Z.eqb negb]. wp_steps.
  unfold minf_get_unlock, mh_load, mh_release. cbn [Z.eqb negb]. wp_steps. cbn [Z.eqb]. wp_steps. cbn [t_mem setter].
  rewrite lookup_insert_eq. wp_steps.
  split; [done|]. split; [|split; [done|by apply (linked_upd root pages datas _ t)]].
  split; cbn; try done. by rewrite delete_insert_id.
Qed.

Lemma page_in_wait_spec pages datas pre b t : linked root pages datas (q_of pre b) t ->
  room (q_of pre b) = true -> pages <> [] -> Forall simple pre ->
  t_enabled t = true -> t_put t = false -> t_get t = false -> t_mem t !! t_next t = None ->
  (F \/ pre = [] /\ opens (de_os de) (entry_file root (mh_domain e) (mh_hash e)) (t_os t)) ->
  wp tol (page_in_wait de e) (fun r t' => r.1 = 0 /\ done_with t t' /\ length r.2 = length (mh_key_val e) /\
    exists pages' datas' b', (b' <= length pre + b)%nat /\ extends pages pages' /\ extends datas datas' /\
      linked root pages' datas' (q_of [] b') t' /\
      (r.2 = mh_key_val e /\ F \/ r.2 = fill 0 (take (tot_len e) (stale (tot_len e) datas')) (mh_key_val e))) t.
Proof using Hadd Hbuf.
  intros Hl Hr Hn Hpre He Hp Hg Hm HF. pose proof (proj1 (room_used pre b) Hr) as Hu.
  unfold page_in_wait, mh_alloc. wp_steps. unfold minf_page_in. wp_steps. cbn. rewrite He.
  rewrite ?bool_decide_eq_false_2 by done. cbn [negb orb]. wp_steps. unfold minf_get_lock at 1. wp_steps.
  apply spin_free; [done|]. wp_steps.
  set (t1 := _ <| t_get := true |>). set (p := t_next t).
  assert (Hl1 : linked root pages datas (q_of pre b) t1) by (by apply (linked_upd root pages datas _ t)).
  pose proof Hl1 as [Hlk1 Hnd1 Hh1].
  eapply wp_mono; [eapply (page_in_new root tol p e pages _ t1 Hlk1 Hr); apply lookup_insert_eq|].
  intros rc t2 (-> & Hq2 & x & Hmsg & Hl2). cbn [Z.eqb negb]. wp_steps. cbn [Z.eqb]. wp_steps.
  assert (Hget : getting de root p e F 0 0 0 true x pages datas pre b t2).
  { split; try done; try lia.
    - split; [done|done|]. eapply holds_frames; [by apply qu_frames|done].
    - rewrite take_0, fill_nil. split; [|done]. rewrite (qu_mem _ _ Hq2), with_own_bytes. apply lookup_insert_eq.
    - by rewrite (qu_os _ _ Hq2). }
  eapply wp_mono; [eapply (get_lock_wait de xe root tol Hadd p e Hbuf F); [done|by rewrite (qu_get _ _ Hq2)]|].
  intros [] t3 (Hg3 & pages' & datas' & b' & Hb' & Hex & Hexd & Ha3 & Hl3 & _ & bytes & [Hmem Hlen] & Hbytes).
  unfold minf_get_unlock, mh_load, mh_release. wp_steps. rewrite Hmem. wp_steps.
  split; [done|]. split; [|split; [done|]].
  - split; cbn; [by rewrite (gp_enabled _ _ _ Ha3), (qu_enabled _ _ Hq2)|by rewrite (gp_put _ _ _ Ha3), (qu_put _ _ Hq2)|done| |
      by rewrite (gp_next _ _ _ Ha3), (qu_next _ _ Hq2)].
    rewrite (gp_mem _ _ _ Ha3), (qu_mem _ _ Hq2). cbn. by rewrite delete_insert_id.
  - exists pages', datas', b'. split; [done|]. split; [done|]. split; [done|]. split; [by apply (linked_upd root pages' datas' _ (t3 <| t_get := false |>))|done].
Qed.
End GetDone.
