(* ===== verification/TransportLaws.v ===== *)
(** The transport keeps what the cache relies on: the class [MinfLaws] for the
    state of mcdctl.c with a daemon behind the ring. Every request comes back,
    whatever the operating system does to the daemon's files. *)
From S2P Require Import Prelude CMonad Types State Core Display Ring FileOps FileSpec Mcdctl Daemon Exchange Link PageOut PutFile Turns PutTurn GetTurn GetWait.

Section TransportLaws.
Context (de : DaemonEnv) (xe : XenEnv).
Context (Hadd : forall m t, de_add de m t = mcd_event_add_shared_page xe 0 m t \/
  exists rc, rc <> 0 /\ de_add de m t = Ret rc t).
Implicit Types (t : tstate) (e : mcd_hashT) (x : mcd_event_st) (pages : list Z) (pre : list mcd_event_st).

(** The ring is shared with the daemon, and only requests nobody waits for
    are on it. *)
Definition up t : Prop := exists root pages datas pre b,
  linked root pages datas (q_of pre b) t /\ pages <> [] /\ Forall simple pre.

(** No ring, and nothing for a daemon to serve. *)
Definition down t : Prop :=
  t_enabled t = false /\ ring_page (default zero_event_domain (t_events t !! 0)) = None /\ has_requests t = false.

Record t_inv t : Prop := {
  ti_put : t_put t = false;
  ti_get : t_get t = false;
  ti_mem : forall p, t_next t <= p -> t_mem t !! p = None;
  ti_link : up t \/ down t;
}.

Lemma t_inv_enabled t : t_inv t -> t_enabled t = true -> up t.
Proof using. intros [_ _ _ [H|[H _]]]; [done|congruence]. Qed.

Lemma t_inv_free t : t_inv t -> t_mem t !! t_next t = None.
Proof using. intros []. by apply ti_mem0. Qed.

(** ** Requests without an answer *)

(** The request is sent when there is a ring with room for it. *)
Lemma send_spec x t : simple x -> t_inv t ->
  wp no_fault (send_request x) (fun _ t' => t_inv t' /\ t_enabled t' = t_enabled t) t.
Proof using.
  intros Hx [Hp Hg Hm [Hup|(He & Hr & Hdm)]]; unfold send_request; wp_steps.
  - destruct Hup as (root & pages & datas & pre & b & Hl & Hn & Hpre). pose proof Hl as [Hlk Hnd Hh].
    eapply check_ring_spec; [done|]. destruct (room (q_of pre b)) eqn:Er; cbn [Z.eqb negb]; wp_steps.
    + eapply (put_request_spec root no_fault pages); [done| |].
      { apply Z.leb_le in Er. unfold MCD_EVENT_RING_THRESHOLD in Er. lia. }
      intros t' Hq Hl'. wp_steps. split; [|apply Hq].
      split; rewrite ?(qu_put _ _ Hq), ?(qu_get _ _ Hq), ?(qu_next _ _ Hq), ?(qu_mem _ _ Hq); [done..|].
      left. exists root, pages, datas, (pre ++ [x]), b. split; [|split; [done|by apply Forall_app; split; [|constructor]]].
      split; [done|done|]. eapply holds_frames; [by apply qu_frames|done].
    + split; [|done]. split; [done..|]. left. by exists root, pages, datas, pre, b.
  - unfold mcd_event_check_ring, event_of. wp_steps. rewrite Hr. wp_steps. cbn [Z.eqb negb]. wp_steps.
    split; [|done]. split; [done..|]. by right.
Qed.

Lemma del_spec domid hash t : t_inv t ->
  wp no_fault (minf_page_del domid hash) (fun _ t' => t_inv t' /\ t_enabled t' = t_enabled t) t.
Proof using.
  intros Ht. unfold minf_page_del. wp_steps. destruct (negb _); wp_steps; [done|]. by apply send_spec.
Qed.

Lemma enabled_do_spec x t : simple x -> t_inv t ->
  wp no_fault (enabled_do (send_request x)) (fun _ t' => t_inv t' /\ t_enabled t' = t_enabled t) t.
Proof using.
  intros Hx Ht. unfold enabled_do. wp_steps. destruct (negb _); wp_steps; [done|].
  eapply wp_mono; [by apply send_spec|]. intros rc t' H. by wp_steps.
Qed.

Lemma check_ring_pure t : exists z, mcd_event_check_ring 0 t = Ret z t.
Proof using.
  unfold mcd_event_check_ring, event_of, gets. unfold mbind, M_bind.
  destruct (ring_page _); by eexists.
Qed.

Lemma increase_spec num t : t_inv t ->
  wp no_fault (increase_shared_page num) (fun _ t' => t_inv t' /\ t_enabled t' = t_enabled t) t.
Proof using.
  intros Ht. set (x := zero_event <| ev_type := MCD_EVENT_REQ_ADD_SHARED_PAGE |> <| ev_domain := 0 |>
    <| ev_hash := 0 |> <| ev_totsize := num |> <| ev_mcd_data := None |>).
  pose proof (send_spec x t ltac:(done) Ht) as Hs. unfold send_request in Hs. unfold increase_shared_page.
  fold x. destruct (check_ring_pure t) as [z Hz]. unfold mbind, M_bind, wp in *. rewrite Hz in *.
  destruct (negb (z =? 0)); [done|]. by destruct (_ || _).
Qed.

(** ** Transfers *)

Lemma done_inv t t' : t_inv t -> done_with t t' -> (up t' \/ down t') -> t_inv t' /\ t_enabled t' = t_enabled t.
Proof using.
  intros [] [] Hu. split; [|done]. split; [done|congruence| |done].
  intros p Hp. rewrite dw_mem. apply ti_mem0. lia.
Qed.

(** A transfer is refused when the transport is off. *)
Lemma down_inv t : t_inv t -> t_enabled t = false ->
  t_inv (t <| t_next ::= Z.succ |>).
Proof using.
  intros [] He. split; [done..| |].
  - intros p Hp. apply ti_mem0. cbn in Hp. lia.
  - destruct ti_link0 as [(root & pages & datas & pre & b & Hl & Hn)|Hd]; [left|by right].
    exists root, pages, datas, pre, b. split; [|done]. by apply (linked_upd root pages datas (q_of pre b) t).
Qed.

Lemma alloc_release e t : t_mem t !! t_next t = None ->
  t <| t_mem ::= <[t_next t := e]> |> <| t_next ::= Z.succ |> <| t_mem ::= delete (t_next t) |> = t <| t_next ::= Z.succ |>.
Proof using. intros H. unfold setter. cbn. by rewrite delete_insert_id by done. Qed.

Lemma out_spec e t : buffer_ok e -> t_inv t ->
  wp no_fault (page_out_wait de e) (fun _ t' => t_inv t' /\ t_enabled t' = t_enabled t) t.
Proof using Hadd.
  intros Hb Ht. pose proof (t_inv_free _ Ht) as Hm. destruct (t_enabled t) eqn:He.
  - destruct (t_inv_enabled _ Ht He) as (root & pages & datas & pre & b & Hl & Hn & Hpre). rewrite <- He.
    destruct (room (q_of pre b)) eqn:Er.
    + eapply wp_mono; [eapply (page_out_wait_spec de xe root no_fault Hadd e (PutFiles0 := any_files _ _ _ _) Hb);
        [done..|by apply Ht|done]|].
      intros rc t' (_ & Hd & pages' & datas' & b' & _ & Hex & Hl' & _). apply (done_inv t); [done..|]. left.
      exists root, pages', datas', [], b'. split; [done|]. split; [|done]. intros ->. by apply prefix_nil_inv in Hex.
    + eapply wp_mono; [by eapply (page_out_full de root no_fault e pages datas pre b t); [..|apply Ht|]|].
      intros rc t' (_ & Hd & _ & Hl'). apply (done_inv t); [done..|]. left. by exists root, pages, datas, pre, b.
  - unfold page_out_wait, mh_alloc, minf_page_out, mh_release. wp_steps. cbn. rewrite He. cbn [negb orb]. wp_steps.
    cbn [Z.eqb]. wp_steps. rewrite alloc_release by done. split; [by apply down_inv|done].
Qed.

Lemma in_spec e t : buffer_ok e -> t_inv t ->
  wp no_fault (page_in_wait de e) (fun r t' => t_inv t' /\ t_enabled t' = t_enabled t /\
    length r.2 = length (mh_key_val e)) t.
Proof using Hadd.
  intros Hb Ht. pose proof (t_inv_free _ Ht) as Hm. destruct (t_enabled t) eqn:He.
  - destruct (t_inv_enabled _ Ht He) as (root & pages & datas & pre & b & Hl & Hn & Hpre). rewrite <- He.
    destruct (room (q_of pre b)) eqn:Er.
    + eapply wp_mono; [eapply (page_in_wait_spec de xe root no_fault Hadd e Hb True pages datas pre b t); [done..|apply Ht|apply Ht|done|by left]|].
      intros rc t' (_ & Hd & Hlen & pages' & datas' & b' & _ & Hex & _ & Hl' & _).
      destruct (done_inv t t') as [H1 H2]; [done..| |by split_and!].
      left. exists root, pages', datas', [], b'. split; [done|]. split; [|done]. intros ->. by apply prefix_nil_inv in Hex.
    + eapply wp_mono; [by eapply (page_in_full de root no_fault e pages datas pre b t); [..|apply Ht|apply Ht|]|].
      intros rc t' (-> & Hd & _ & Hl').
      destruct (done_inv t t') as [H1 H2]; [done..| |by split_and!]. left. by exists root, pages, datas, pre, b.
  - unfold page_in_wait, mh_alloc, minf_page_in, mh_release, mh_load. wp_steps. cbn. rewrite He. cbn [negb orb]. wp_steps.
    cbn [Z.eqb]. wp_steps. cbn [t_mem setter]. rewrite lookup_insert_eq. wp_steps. rewrite alloc_release by done.
    split; [by apply down_inv|done].
Qed.

(** ** The interface of the cache *)

#[local] Hint Extern 0 (Minf tstate) => exact (minf_transport de) : typeclass_instances.

Lemma minf_simple x t : simple x -> t_inv t ->
  wp no_fault (enabled_do (send_request x)) (fun _ t' => t_inv t' /\ mcdctl_enabled t' = mcdctl_enabled t) t.
Proof using. apply enabled_do_spec. Qed.

Definition transport_laws : MinfLaws tstate.
Proof using Hadd de.
  refine {| minf_inv := t_inv |}.
  - intros e Hb t. by apply out_spec.
  - intros d h t. apply del_spec.
  - intros t. by apply minf_simple.
  - intros d t. by apply minf_simple.
  - intros d t. by apply minf_simple.
  - intros d t. by apply minf_simple.
  - intros n t. apply increase_spec.
  - intros e t. by apply in_spec.
Defined.
End TransportLaws.
