(* ===== verification/System.v ===== *)
(** The cache, the transport and the daemon put together: the control
    hypercall ([mcdctl_op] of xen/common/mcdctl.c), the library calls that make
    it (tools/libxc/xc_mcd.c), and the life of the daemon ([mcd_init],
    [mcd_teardown] and [main] of tools/mcd/mcd.c). *)
From S2P Require Import Prelude CMonad Types State Core Display Admin Ring FileOps Mcdctl Daemon Exchange.

Definition MCD_EVENT_OP_ENABLE : Z := 0.
Definition MCD_EVENT_OP_RESUME : Z := 1.
Definition MCD_EVENT_OP_DISABLE : Z := 2.
Definition MCD_EVENT_OP_ADD_SHARED_PAGE : Z := 3.
Definition XEN_MCDCTL_mcd_event_op : Z := 0.

Record mcd_event_op_t := mk_event_op { meo_op : Z; meo_mode : Z; meo_shared_addr : Z; meo_ring_addr : Z }.

Record xen_mcdctl := mk_mcdctl_op { xm_cmd : Z; xm_domain : Z; xm_event_op : mcd_event_op_t }.

(** What [poll] and the event channel library answer: a result with the
    error number that goes with it. *)
Record EventEnv := mk_event_env {
  ee_poll : Z * Z;
  ee_pending : Z * Z;
  ee_unmask : Z * Z;
}.

(** [xc_wait_for_event_or_timeout] of tools/mcd/xc.c. *)
Definition xc_wait_for_event_or_timeout (ee : EventEnv) : Z :=
  let '(rc, errno) := ee_poll ee in
  if rc =? -1 then if errno =? EINTR then 0 else - errno
  else if rc =? 1 then
    let '(port, errno) := ee_pending ee in
    if port =? -1 then - errno
    else
      let '(rc, errno) := ee_unmask ee in
      if negb (rc =? 0) then - errno else port
  else -1.

Section System.
Context (env : Env) (xe : XenEnv) (de : DaemonEnv).
#[local] Hint Extern 0 (Minf tstate) => exact (minf_transport de) : typeclass_instances.
Abbreviation G := (M (gstate tstate)).
Implicit Types (s : gstate tstate) (d : Z).

(** ** The hypercall *)

Definition mcd_event_enable d (ring_mfn shared_mfn : Z) : G Z :=
  rc ← minf (mcd_event_map xe d ring_mfn shared_mfn);
  if negb (rc =? 0) then mret rc
  else mcdctl_start;; mret 0.

Definition mcd_event_disable d : G Z :=
  minf (mcd_event_unmap d);;
  exit_mcdctl;;
  mret 0.

Definition set_enabled (b : bool) : G unit := minf (modify (fun t => t <| t_enabled := b |>)).

(** The frame behind an address of the caller: [guest_get_eff_l1e],
    [gfn_to_mfn] and [mfn_valid]. *)
Definition mcd_event_op d (x : xen_domain) (mec : mcd_event_op_t) : G Z :=
  if xd_is_dying x then mret 0
  else if negb (xe_vcpu xe d) then mret (- EINVAL)
  else
    ev ← minf (event_of d);
    if meo_op mec =? MCD_EVENT_OP_ENABLE then
      if bool_decide (ring_page ev <> None) then mret (- EBUSY)
      else match xe_frame xe (meo_ring_addr mec) with
           | None => mret (- EINVAL)
           | Some ring_mfn =>
               match xe_frame xe (meo_shared_addr mec) with
               | None => mret (- EINVAL)
               | Some shared_mfn =>
                   rc ← mcd_event_enable d ring_mfn shared_mfn;
                   if negb (rc =? 0) then mret (- EINVAL)
                   else set_enabled true;; mret 0
               end
           end
    else if meo_op mec =? MCD_EVENT_OP_RESUME then minf (mcd_event_resume d)
    else if meo_op mec =? MCD_EVENT_OP_DISABLE then
      rc ← mcd_event_disable d;
      set_enabled false;;
      mret rc
    else if meo_op mec =? MCD_EVENT_OP_ADD_SHARED_PAGE then
      if bool_decide (ring_page ev = None) then mret (- EBUSY)
      else match xe_frame xe (meo_shared_addr mec) with
           | None => mret (- EINVAL)
           | Some shared_mfn => minf (mcd_event_add_shared_page xe d shared_mfn)
           end
    else mret (- ENOSYS).

Definition mcdctl_op (op : option xen_mcdctl) : G Z :=
  match op with
  | None => mret (- EFAULT)
  | Some op =>
      if xm_cmd op =? XEN_MCDCTL_mcd_event_op then
        s ← get;
        match xdoms s !! xm_domain op with
        | None => mret (- ESRCH)
        | Some x => mcd_event_op (xm_domain op) x (xm_event_op op)
        end
      else mret 0
  end.

(** ** The library

    The calls come from the control domain; the bounce buffer of the
    hypercall can be unavailable. The system call behind a hypercall returns
    -1 for a negative answer. The result comes with what the hypervisor wrote
    into a buffer of the caller. *)

Definition xc_mcd_op (cmd : mcd_cmd (option xen_mcdctl)) : G (Z * list Display.write) :=
  ok ← minf (sys (granted (de_os de)));
  if negb (ok : bool) then mret (- EFAULT, [])
  else
    r ← do_mcd_op env mcdctl_op 0 cmd;
    mret (if fst r <? 0 then -1 else fst r, snd r).

Definition xc_mcd_event_control (domain_id op mode shared_page ring_page : Z) : G Z :=
  r ← xc_mcd_op (XENMCD_mcdctl_op (Some (mk_mcdctl_op XEN_MCDCTL_mcd_event_op domain_id
    (mk_event_op op mode shared_page ring_page))));
  mret (fst r).

Definition xc_mcd_event_enable (domain_id shared_page ring_page : Z) : G Z :=
  xc_mcd_event_control domain_id MCD_EVENT_OP_ENABLE 0 shared_page ring_page.
Definition xc_mcd_event_resume (domain_id : Z) : G Z :=
  xc_mcd_event_control domain_id MCD_EVENT_OP_RESUME 0 0 0.
Definition xc_mcd_event_disable (domain_id : Z) : G Z :=
  xc_mcd_event_control domain_id MCD_EVENT_OP_DISABLE 0 0 0.

(** ** The daemon starts and stops

    An address of the daemon's memory is the frame behind it. The page that
    becomes the ring keeps its place among the frames. *)

Definition free_page (m : Z) : M tstate unit :=
  modify (fun t => t <| t_frames ::= delete m |> <| t_rings ::= delete m |>).

Definition zero_ring : sring mcd_event_st :=
  mk_sring _ 0 0 0 0 (replicate (Z.to_nat (RING_SIZE_OF PAGE_SIZE sizeof_mcd_event_st)) zero_event).

Definition init_ring (m : Z) : M tstate unit :=
  modify (fun t => t <| t_rings ::= <[m := SHARED_RING_INIT zero_ring]> |>).

(** [err:] gives the pages back; the hypervisor is not told. *)
Definition init_failed (pages : list Z) : G bool :=
  minf (
    for_each pages (fun m _ => free_page m;; mret (Continue tt)) tt;;
    modify (fun t => t <| t_daemon := None |>));;
  mret false.

(** [mcd_init] once the interface of the library is open. *)
Definition mcd_init_pages (domain_id : Z) : G bool :=
  shared ← minf (init_page de);
  match shared with
  | None => mret false
  | Some shared =>
      ring ← minf (init_page de);
      match ring with
      | None => init_failed [shared]
      | Some ring =>
          minf (init_ring ring);;
          minf (modify (fun t => t <| t_daemon := Some (mk_daemon 1 {[0 := shared]} ring
            (BACK_RING_INIT PAGE_SIZE sizeof_mcd_event_st) 0 []) |>));;
          rc ← xc_mcd_event_enable domain_id shared ring;
          if negb (rc =? 0) then init_failed [shared; ring]
          else
            opened ← minf (sys (granted (de_os de)));
            if negb (opened : bool) then init_failed [shared; ring]
            else
              data ← minf (frame_load shared);
              bound ← minf (sys (granted (de_os de)));
              if negb (bound : bool) then init_failed [shared; ring]
              else
                minf (set_daemon (fun dm => dm <| dm_port := xe_evtchn xe |>));;
                mret true
      end
  end.

Definition mcd_init (domain_id : Z) : G bool :=
  opened ← minf (sys (granted (de_os de)));
  if negb (opened : bool) then mret false else mcd_init_pages domain_id.

Definition mcd_teardown : G Z :=
  t ← gets be;
  match t_daemon t with
  | None => mret 0
  | Some dm =>
      xc_mcd_event_disable 0;;
      minf (
        sys (del_dir (de_os de) (dm_root dm));;
        for_each (seqZ 0 (dm_num_shared_page dm))
          (fun i _ =>
             (match dm_shared_page dm !! i with Some m => free_page m | None => mret tt end);;
             mret (Continue tt)) tt;;
        free_page (dm_ring_page dm);;
        modify (fun t => t <| t_daemon := None |>));;
      mret 0
  end.

(** The inner loop of [main]: requests are served until none is left. *)
Definition drain (fuel : nat) : M tstate unit :=
  t ← get;
  while fuel (fun b : bool => b) (fun _ => daemon_turn de;; t ← get; mret (Continue (has_requests t))) (has_requests t);;
  mret tt.

(** The outer loop, over what the event channel says in each round until a
    signal interrupts it. *)
Fixpoint main_loop (fuel : nat) (rounds : list EventEnv) : G unit :=
  match rounds with
  | [] => mret tt
  | ee :: rounds =>
      let rc := xc_wait_for_event_or_timeout ee in
      if rc <? -1 then mret tt
      else minf (drain fuel);; main_loop fuel rounds
  end.

(** [main] up to its loop: the directory of the files is made anew. *)
Definition daemon_start (base : path) : G bool :=
  ok ← mcd_init 0;
  if negb (ok : bool) then mret false
  else
    minf (
      set_daemon (fun dm => dm <| dm_root := base |>);;
      sys (chk_dir_and_clean_create (de_os de) base);;
      mret tt);;
    mret true.

(** The flag says whether the daemon was attached; the exit status is not
    part of the model. *)
Definition main (fuel : nat) (base : path) (rounds : list EventEnv) : G bool :=
  ok ← daemon_start base;
  if negb (ok : bool) then mret false
  else
    main_loop fuel rounds;;
    mcd_teardown;;
    mret true.
End System.
