(* ===== verification/SystemSpec.v ===== *)
(** The whole system: the hypercalls of the daemon, its start and its end,
    and the service of what is on the ring keep the invariant of the cache and
    of the transport. *)
From S2P Require Import Prelude CMonad Hash Types State Core Evict Inv Remove Evicted EvictShared EvictPart Alloc Create Ops View OpsLib OpsMake OpsSpec Flush Display Admin AdminSpec Lifecycle Hypercall Reach Ring FileOps FileSpec Mcdctl Daemon Exchange Link PageOut PutFile Turns PutTurn GetTurn GetWait TransportLaws System.

(** * The daemon serves the ring *)

Section Drain.
Context (de : DaemonEnv) (xe : XenEnv) (root : path).
Context (Hadd : forall m t, de_add de m t = mcd_event_add_shared_page xe 0 m t \/
  exists rc, rc <> 0 /\ de_add de m t = Ret rc t).
Implicit Types (t : tstate).

Lemma has_requests_linked pages datas q t : linked root pages datas q t ->
  has_requests t = match q_reqs q with [] => false | _ => true end.
Proof using.
  intros [(ev & dm & s & []) _ _]. unfold has_requests. rewrite lk_daemon, lk_ring.
  rewrite (unconsumed_requests_rel ring_log ltac:(done) _ _ _ _ ltac:(done) lk_rel).
  destruct (q_reqs q); [done|]. cbn [length]. destruct (Z.eqb_spec (Z.of_nat (S (length l))) 0); [lia|done].
Qed.

(** Nothing is left of the queue; the slots of requests for more pages stay
    in use. *)
Definition drained pages (b : nat) t t' : Prop := still t t' /\ exists pages' datas' b',
  (b' <= b)%nat /\ extends pages pages' /\ linked root pages' datas' (q_of [] b') t'.

Lemma drain_loop fuel : forall pre pages datas b t, (length pre < fuel)%nat -> Forall simple pre ->
  linked root pages datas (q_of pre b) t ->
  wp no_fault (while fuel (fun b : bool => b) (fun _ => daemon_turn de;; t ← get; mret (Continue (has_requests t)))
    (has_requests t)) (fun _ t' => drained pages (length pre + b) t t') t.
Proof using Hadd.
  induction fuel as [|fuel IH]; intros pre pages datas b t Hf Hpre Hl; [lia|].
  rewrite (has_requests_linked _ _ _ _ Hl). destruct pre as [|x pre]; cbn [q_of q_reqs while]; wp_steps.
  - split; [done|]. by exists pages, datas, b.
  - apply Forall_cons in Hpre as [Hx Hpre].
    eapply wp_mono; [by apply (simple_turn de xe root no_fault Hadd pages datas x pre b)|].
    intros [] t1 (b1 & Hb1 & Hst & pages1 & datas1 & He1 & _ & Hl1). wp_steps. cbn [length] in *.
    eapply wp_mono; [apply (IH pre pages1 datas1 b1); [lia|done|done]|].
    intros lk t2 (Hst2 & pages2 & datas2 & b2 & Hb2 & He2 & Hl2). split; [by etransitivity|].
    exists pages2, datas2, b2. split; [lia|]. split; [by etransitivity|done].
Qed.

Lemma pending_bound pages datas pre b t : linked root pages datas (q_of pre b) t -> (length pre + b <= 64)%nat.
Proof using.
  intros [Hl _ _]. apply link_used in Hl. unfold q_used, q_of in Hl. cbn in Hl. change (2 ^ ring_log) with 64 in Hl. lia.
Qed.

Lemma ring_drain_spec pages datas pre b t : linked root pages datas (q_of pre b) t -> Forall simple pre ->
  wp no_fault (drain de 65) (fun _ t' => drained pages (length pre + b) t t') t.
Proof using Hadd.
  intros Hl Hpre. unfold drain. wp_steps. pose proof (pending_bound _ _ _ _ _ Hl).
  eapply wp_mono; [by apply (drain_loop 65 pre pages datas b); [lia|..]|]. intros lk t' H'. by wp_steps.
Qed.

End Drain.

Section DrainInv.
Context (de : DaemonEnv) (xe : XenEnv).
Context (Hadd : forall m t, de_add de m t = mcd_event_add_shared_page xe 0 m t \/
  exists rc, rc <> 0 /\ de_add de m t = Ret rc t).
Implicit Types (t : tstate).

Lemma still_inv t t' : t_inv t -> still t t' -> up t' \/ down t' -> t_inv t'.
Proof using. intros [] [] Hu. split; [congruence|congruence|by rewrite st_next, st_mem|done]. Qed.

Lemma drain_inv t : t_inv t ->
  wp no_fault (drain de 65) (fun _ t' => t_inv t' /\ t_enabled t' = t_enabled t /\ has_requests t' = false) t.
Proof using Hadd.
  intros Ht. destruct (ti_link _ Ht) as [(root & pages & datas & pre & b & Hl & Hn & Hpre)|(H1 & H2 & H3)].
  - eapply wp_mono; [by apply (ring_drain_spec de xe root Hadd pages datas pre b)|].
    intros _ t' (Hst & pages' & datas' & b' & Hb & He & Hl'). split_and!; [|apply Hst|by rewrite (has_requests_linked _ _ _ _ _ Hl')].
    eapply still_inv; [done..|]. left. exists root, pages', datas', [], b'. split; [done|]. split; [|done].
    intros ->. by apply prefix_nil_inv in He.
  - unfold drain. wp_steps. rewrite H3. cbn [while]. by wp_steps.
Qed.
End DrainInv.

(** * The daemon attaches *)

Section Attach.
Context (de : DaemonEnv) (xe : XenEnv).
Implicit Types (t : tstate).

(** A new page: nothing else changes but the files. *)
Definition allocated (r : option Z) t t' : Prop :=
  t' = t <| t_os := t_os t' |> <| t_frames := t_frames t' |> /\
  match r with
  | Some m => t_frames t !! m = None /\ exists d, length d = page_len /\ t_frames t' = <[m := d]> (t_frames t)
  | None => t_frames t' = t_frames t
  end.

Lemma init_page_any t : wp no_fault (init_page de) (fun r t' => allocated r t t') t.
Proof using.
  unfold init_page. wp_steps. apply sys_total; [auto with total|]. intros ok t1 Hf1.
  destruct ok; wp_steps; [|by rewrite Hf1]. apply sys_total; [auto with total|]. intros locked t2 Hf2.
  set (m := base.fresh (dom (t_frames t1))) in *.
  assert (Hm : t_frames t1 !! m = None) by (apply not_elem_of_dom, is_fresh).
  assert (Hft : t_frames t1 = t_frames t) by (by rewrite Hf1).
  destruct locked; wp_steps; unfold allocated; rewrite Hf2, Hf1; cbn.
  - split; [done|]. rewrite <- Hft. split; [done|]. eexists. split; [|done]. by rewrite length_fmap, length_seq.
  - split; [done|]. rewrite <- Hft. by apply delete_insert_id.
Qed.

(** The daemon's side of the link is ready. *)
Record waiting (shared ring : Z) (dm : daemon) t : Prop := {
  wt_daemon : t_daemon t = Some dm;
  wt_num : dm_num_shared_page dm = 1;
  wt_shared : dm_shared_page dm = {[0 := shared]};
  wt_ring : dm_ring_page dm = ring;
  wt_back : dm_back dm = mk_back 0 0 (2 ^ ring_log);
  wt_slots : exists s0, t_rings t !! ring = Some (SHARED_RING_INIT s0) /\ length (Ring.ring s0) = 64%nat;
  wt_page : exists d, t_frames t !! shared = Some d /\ length d = page_len;
}.

Lemma waiting_quiet shared ring dm t : waiting shared ring dm t -> has_requests t = false.
Proof using.
  intros [Hd _ _ Hr Hb (s0 & Hs & _) _]. unfold has_requests. by rewrite Hd, Hr, Hs, Hb.
Qed.

(** What the hypercall may change. *)
Record mapped t t' : Prop := {
  mp_still : still t t';
  mp_rings : t_rings t' = t_rings t;
  mp_daemon : t_daemon t' = t_daemon t;
}.

Lemma map_spec shared ring dm t : waiting shared ring dm t ->
  wp no_fault (mcd_event_map xe 0 ring shared) (fun rc t' => mapped t t' /\
    if rc =? 0 then exists d, linked (dm_root dm) [shared] [d] (q_of [] 0) t'
    else ring_page (default zero_event_domain (t_events t' !! 0)) = None) t.
Proof using.
  intros [Hd Hn Hs Hr Hb (s0 & Hs0 & Hlen) (d & Hf & Hdl)]. unfold mcd_event_map, event_of, set_event, map_domain_page.
  wp_steps. destruct (xe_map xe ring); wp_steps; [|cbn; by rewrite lookup_insert_eq].
  destruct (xe_map xe shared); wp_steps; [|cbn; by rewrite lookup_insert_eq].
  destruct (xe_evtchn xe <? 0); wp_steps; [cbn; by rewrite lookup_insert_eq|].
  eapply frame_load_spec; [done|]. unfold frame_store. wp_steps. split; [done|]. cbn [Z.eqb].
  exists (fill 0 (int_bytes (xe_evtchn xe)) d). split.
  - eexists _, dm, _. split; cbn; try done; [by rewrite lookup_insert_eq|by rewrite Hr|by rewrite Hr|..].
    + rewrite Hb. apply (ring_init_rel ring_log); [done|done|]. by rewrite Hlen.
    + reflexivity.
    + intros i m Hi. destruct i as [|i]; [|by destruct i]. injection Hi as <-. apply lookup_insert_eq.
    + intros i m Hi. destruct i as [|i]; [|by destruct i]. injection Hi as <-. rewrite Hs. apply lookup_insert_eq.
  - apply NoDup_singleton.
  - constructor; [|constructor]. cbn. rewrite lookup_insert_eq. split; [done|]. rewrite fill_length; [done|].
    cbn. rewrite Hdl. pose proof page_len_Z. unfold PAGE_SIZE in *. lia.
Qed.
End Attach.

(** * The cache with the transport behind it *)

Section Whole.
Context (env : Env) (xe : XenEnv) (de : DaemonEnv).
Context (Hadd : forall m t, de_add de m t = mcd_event_add_shared_page xe 0 m t \/
  exists rc, rc <> 0 /\ de_add de m t = Ret rc t).
#[local] Hint Extern 0 (Minf tstate) => exact (minf_transport de) : typeclass_instances.
#[local] Hint Extern 0 (MinfLaws tstate) => exact (transport_laws de xe Hadd) : typeclass_instances.
Context (tol : fault -> Prop) (Hnull : tol NullDeref).
Context (Hnow : forall n, env_now env n <> 0) (Hdiv : tol DivByZero) (Hoob : tol OutOfBounds).
Implicit Types (s : gstate tstate) (t : tstate).

(** Only the transport changes, or the lists of mini headers, and the new ones
    are in order. *)
Lemma hv_softly s s' : hv_ok s -> softly s s' -> hv_ok s' /\ num s' = num s.
Proof using.
  intros [HI Hm He Ha] Hs. pose proof (soft_frame _ _ (proj1 Hs)) as Hf. split; [|apply (soft_num _ _ (proj1 Hs))].
  split; [by eapply softly_Inv|by apply (frame_modes s s')|by rewrite (fr_cfg _ _ Hf)|].
  intros k x k'. rewrite (fr_xdoms _ _ Hf), (fr_domids _ _ Hf). apply Ha.
Qed.

Lemma be_softly s t : ctl_ok s -> t_inv t -> softly s (s <| be := t |>).
Proof using.
  intros [[H1 H2 H3 H4 H5] H6 H7 H8 H9] Ht. split; [by apply soft_same|].
  split; [by split|done..].
Qed.

Lemma wp_minf {A} (m : M tstate A) (Q : A -> gstate tstate -> Prop) s :
  wp no_fault m (fun a t' => Q a (s <| be := t' |>)) (be s) -> wp tol (minf m) Q s.
Proof using. intros Hm. apply wp_zoom. unfold wp, no_fault in *. by destruct (m (be s)). Qed.

Lemma filed_inv t t' : filed t t' -> t_inv t -> t_inv t'.
Proof using.
  intros Hf [H1 H2 H3 H4]. rewrite Hf. split; [done..|]. destruct H4 as [(rt & pages & datas & pre & b & Hl & Hn)|Hd]; [left|by right].
  exists rt, pages, datas, pre, b. split; [|done]. by eapply linked_filed; [apply filed_os|].
Qed.

Lemma hv_be s t : hv_ok s -> t_inv t -> hv_ok (s <| be := t |>) /\ num (s <| be := t |>) = num s.
Proof using. intros Hv Ht. apply hv_softly; [done|]. apply be_softly; [apply Hv|done]. Qed.

Lemma hv_t_inv s : hv_ok s -> t_inv (be s).
Proof using. intros Hv. exact (ct_minf _ _ (ct_base _ _ (proj2 (hv_inv _ Hv)))). Qed.

(** ** Attaching *)

(** The second tier has been emptied, or was never used. *)
Definition no_headers s : Prop := mc_ptrs (ctl s) = [].

Lemma start_softly s t : hv_ok s -> no_headers s -> t_inv t ->
  softly s (s <| be := t |> <| ctl ::= fun c =>
    c <| mc_shared := replicate (Z.to_nat MAX_LIST_HEAD) [] |> <| mc_freelist := [] |> <| mc_pages := [] |> |>).
Proof using.
  intros Hv Hn Ht. pose proof (proj2 (hv_inv _ Hv)) as [[H1 H2 H3 H4 H5] H6 H7 H8 H9].
  split; [by apply soft_same|]. apply ctl_empty_ok.
  assert (Hp : map_concat (mc_doms (ctl s)) = []) by (by apply app_eq_nil in Hn as [_ ?]).
  set (s' := s <| be := t |> <| ctl ::= _ |>).
  assert (Hp' : mc_ptrs (ctl s') = []).
  { unfold mc_ptrs. cbn. by rewrite Hp, empty_buckets. }
  split; [|done]. split; rewrite ?Hp'; try done.
  - cbn. constructor.
  - by intros q ?%elem_of_nil.
Qed.

Record attachable s : Prop := {
  at_running : running 0 s;
  at_vcpu : xe_vcpu xe 0 = true;
  at_frames : forall m, xe_frame xe m = Some m;
  at_empty : no_headers s;
  at_down : t_enabled (be s) = false;
  at_ring : ring_page (default zero_event_domain (t_events (be s) !! 0)) = None;
}.

Definition control_call (domid op mode shared ring : Z) : mcd_cmd (option xen_mcdctl) :=
  XENMCD_mcdctl_op (Some (mk_mcdctl_op XEN_MCDCTL_mcd_event_op domid (mk_event_op op mode shared ring))).

Lemma control_wp caller c (Q : Z * list Display.write -> gstate tstate -> Prop) s : caller_ok caller s ->
  wp tol (mcdctl_op xe c) (fun rc s' => Q (rc, []) s') s ->
  wp tol (do_mcd_op env (mcdctl_op xe) caller (XENMCD_mcdctl_op c)) Q s.
Proof using.
  intros [He (x & Hx & Hdy & Hmd) Hk] Hd. unfold do_mcd_op. wp_steps. rewrite He. cbn [negb].
  assert (Hmd' : xdoms s !! caller ≫= xd_mcd = Some caller) by (rewrite Hx; cbn; by rewrite Hmd).
  rewrite Hmd'. wp_steps. unfold mcd_dom_is_dying. wp_steps. apply wp_dom_load; [done|].
  intros d _ -> _. wp_steps. rewrite Hx. wp_steps. rewrite Hdy. wp_steps. unfold dispatch. wp_steps.
  eapply wp_mono; [exact Hd|]. intros r s1 HQ. by wp_steps.
Qed.

(** A control call on domain 0. *)
Lemma control_dom0_wp op mode shared ring x (Q : Z * list Display.write -> gstate tstate -> Prop) s :
  caller_ok 0 s -> xdoms s !! 0 = Some x ->
  wp tol (mcd_event_op xe 0 x (mk_event_op op mode shared ring)) (fun rc s' => Q (rc, []) s') s ->
  wp tol (do_mcd_op env (mcdctl_op xe) 0 (control_call 0 op mode shared ring)) Q s.
Proof using.
  intros Hc Hx Hw. apply control_wp; [done|]. cbn [mcdctl_op xm_cmd xm_domain xm_event_op].
  change (XEN_MCDCTL_mcd_event_op =? XEN_MCDCTL_mcd_event_op) with true. cbn iota. wp_steps. by rewrite Hx.
Qed.

Lemma be_id s : s <| be := be s |> = s.
Proof using. by destruct s. Qed.

Lemma mapped_down t t' : t_inv t -> t_enabled t = false -> has_requests t = false -> mapped t t' ->
  ring_page (default zero_event_domain (t_events t' !! 0)) = None -> t_inv t'.
Proof using.
  intros Ht He Hh [Hst Hr Hd] Hn. apply (still_inv t); [done..|]. right. split_and!; [by rewrite (st_enabled _ _ Hst)|done|].
  unfold has_requests in *. by rewrite Hd, Hr.
Qed.

Lemma enable_spec shared ring dm s : hv_ok s -> attachable s -> waiting shared ring dm (be s) ->
  wp tol (do_mcd_op env (mcdctl_op xe) 0 (control_call 0 MCD_EVENT_OP_ENABLE 0 shared ring))
    (fun r s' => hv_ok s' /\ num s' = num s /\ still (be s) ((be s') <| t_enabled := false |>) /\
       t_daemon (be s') = t_daemon (be s) /\
       if fst r =? 0 then t_enabled (be s') = true /\ exists d, linked (dm_root dm) [shared] [d] (q_of [] 0) (be s')
       else t_enabled (be s') = false /\ ring_page (default zero_event_domain (t_events (be s') !! 0)) = None) s.
Proof using Hdiv.
  intros Hv [(x & Hx & Hdy & Hmd) Hvc Hfr Hne He Hrg] Hw.
  pose proof (hv_caller s 0 Hv ltac:(by exists x)) as Hc.
  apply (control_dom0_wp _ _ _ _ x); [done..|].
  unfold mcd_event_op. rewrite Hdy, Hvc. cbn [negb meo_op meo_ring_addr meo_shared_addr]. wp_steps.
  apply wp_minf. unfold event_of at 1. wp_steps.
  change (MCD_EVENT_OP_ENABLE =? MCD_EVENT_OP_ENABLE) with true. cbn iota. rewrite Hrg.
  rewrite bool_decide_eq_false_2 by (by intros []). rewrite !Hfr. unfold mcd_event_enable. wp_steps. rewrite be_id.
  apply wp_minf. eapply wp_mono; [by apply (map_spec xe shared ring dm)|].
  intros rc t' (Hm & Hrc). pose proof (mp_still _ _ Hm) as Hst.
  destruct (Z.eqb_spec rc 0) as [->|Hne0]; cbn [negb]; wp_steps.
  - unfold mcdctl_start. wp_steps. cbn [Z.eqb negb]. unfold set_enabled. wp_steps. apply wp_minf. wp_steps. cbn [be setter].
    destruct Hrc as [d Hl]. set (t2 := t' <| t_enabled := true |>).
    assert (Hl2 : linked (dm_root dm) [shared] [d] (q_of [] 0) t2) by (by apply (linked_upd _ _ _ _ t')).
    assert (Ht2 : t_inv t2).
    { pose proof (hv_t_inv _ Hv) as []. destruct Hst. split; cbn; [congruence|congruence|by rewrite st_next, st_mem|].
      left. by exists (dm_root dm), [shared], [d], [], 0%nat. }
    destruct (hv_softly s _ Hv (start_softly s t2 Hv Hne Ht2)) as [Hv2 Hn2].
    split; [exact Hv2|]. split; [exact Hn2|]. split; [|split; [apply Hm|split; [done|by exists d]]].
    destruct Hst. split; cbn; try congruence.
  - destruct (Z.eqb_spec rc 0); [done|]. cbn [negb]. wp_steps.
    assert (Ht2 : t_inv t').
    { eapply mapped_down; [by apply hv_t_inv|done|by eapply waiting_quiet|done|done]. }
    destruct (hv_be s t' Hv Ht2) as [Hv2 Hn2]. split; [done|]. split; [done|]. split; [|split; [apply Hm|]].
    + destruct Hst. split; cbn; congruence.
    + cbn. split; [|done]. destruct Hst. congruence.
Qed.

(** ** The start of the daemon *)

(** Only the memory and the files of the daemon change. *)
Record idle t t' : Prop := {
  id_enabled : t_enabled t' = t_enabled t;
  id_events : t_events t' = t_events t;
  id_put : t_put t' = t_put t;
  id_get : t_get t' = t_get t;
  id_mem : t_mem t' = t_mem t;
  id_next : t_next t' = t_next t;
}.

Lemma allocated_idle r t t' : allocated r t t' -> idle t t' /\ t_rings t' = t_rings t /\ t_daemon t' = t_daemon t.
Proof using. intros [-> _]. done. Qed.

Lemma idle_inv t t' : t_inv t -> t_enabled t = false ->
  ring_page (default zero_event_domain (t_events t !! 0)) = None -> idle t t' -> has_requests t' = false -> t_inv t'.
Proof using.
  intros [] He Hr [] Hh. split; [congruence|congruence|by rewrite id_next0, id_mem0|]. right.
  split_and!; [congruence|by rewrite id_events0|done].
Qed.

(** The daemon is attached, with one shared page and an empty ring. *)
Definition attached s : Prop := t_enabled (be s) = true /\ exists dm shared d,
  t_daemon (be s) = Some dm /\ linked (dm_root dm) [shared] [d] (q_of [] 0) (be s).

(** The same, whatever happened since. *)
Definition attached_any s : Prop := t_enabled (be s) = true /\ exists root pages datas q,
  linked root pages datas q (be s).

(** Every page is gone but the hypervisor goes on using them. *)
Definition dangling s : Prop := t_enabled (be s) = true /\ t_daemon (be s) = None /\
  exists ev ring, t_events (be s) !! 0 = Some ev /\ ring_page ev = Some ring /\ t_rings (be s) !! ring = None.

Definition init_post (s : gstate tstate) (ok : bool) (s' : gstate tstate) : Prop :=
  if ok then hv_ok s' /\ num s' = num s /\ attached s'
  else hv_ok s' /\ num s' = num s /\ t_enabled (be s') = false \/ dangling s'.

Lemma init_failed_spec pages (Q : bool -> gstate tstate -> Prop) s :
  (forall t', idle (be s) t' -> t_daemon t' = None -> (forall m, m ∈ pages -> t_rings t' !! m = None) ->
     Q false (s <| be := t' |>)) ->
  wp tol (init_failed pages) Q s.
Proof using.
  intros HQ. unfold init_failed. wp_steps. apply wp_minf. wp_steps.
  eapply (wp_for_each _ _ (fun ms _ t' => idle (be s) t' /\ forall m, m ∈ pages -> m ∈ ms \/ t_rings t' !! m = None)).
  - split; [done|]. intros m Hm. by left.
  - intros [] t' [Hi Hr]. wp_steps. apply HQ; [by destruct Hi; split|done|].
    intros m Hm. destruct (Hr m Hm) as [Hn|]; [by apply elem_of_nil in Hn|done].
  - intros m ms [] t' [Hi Hr]. unfold free_page. wp_steps. split; [by destruct Hi; split|].
    intros m' Hm'. destruct (decide (m' = m)) as [->|Hne]; [right; apply lookup_delete_eq|].
    destruct (Hr m' Hm') as [[?|?]%elem_of_cons|Hn]; [done|by left|right]. cbn. by rewrite lookup_delete_ne.
Qed.

Lemma hv_idle s t : hv_ok s -> attachable s -> idle (be s) t -> has_requests t = false ->
  hv_ok (s <| be := t |>) /\ num (s <| be := t |>) = num s /\ t_enabled t = false.
Proof using.
  intros Hv [] Hi Hh. destruct (hv_be s t Hv) as [H1 H2].
  - eapply idle_inv; [by apply hv_t_inv|done..].
  - split; [done|]. split; [done|]. by rewrite (id_enabled _ _ Hi).
Qed.

Lemma idle_trans t1 t2 t3 : idle t1 t2 -> idle t2 t3 -> idle t1 t3.
Proof using. intros [] []. split; congruence. Qed.

Lemma no_daemon_quiet t : t_daemon t = None -> has_requests t = false.
Proof using. intros H. unfold has_requests. by rewrite H. Qed.

(** Failing before the hypervisor was told. *)
Lemma init_failed_early pages s t : hv_ok s -> attachable s -> idle (be s) t ->
  wp tol (init_failed pages) (init_post s) (s <| be := t |>).
Proof using.
  intros Hv Ha Hi. apply init_failed_spec. intros t' Hi' Hd _. left.
  apply (hv_idle s t'); [done..| |by apply no_daemon_quiet]. by eapply idle_trans.
Qed.

(** Failing afterwards. *)
Lemma init_failed_late pages s s' dm : hv_ok s' -> t_enabled (be s') = true ->
  (exists pgs datas, linked (dm_root dm) pgs datas (q_of [] 0) (be s')) -> t_daemon (be s') = Some dm ->
  dm_ring_page dm ∈ pages -> forall t, idle (be s') t -> 
  wp tol (init_failed pages) (init_post s) (s' <| be := t |>).
Proof using.
  intros Hv He (pgs & datas & [(ev & dm' & s0 & []) _ _]) Hd Hp t Hi. apply init_failed_spec. intros t' Hi' Hd' Hr. right.
  assert (dm' = dm) as -> by congruence. pose proof (idle_trans _ _ _ Hi Hi') as Hii.
  split; [by rewrite <- He, <- (id_enabled _ _ Hii)|]. split; [done|].
  exists ev, (dm_ring_page dm). cbn. rewrite (id_events _ _ Hii). split_and!; [done..|by apply Hr].
Qed.

Lemma filed_idle t t' : filed t t' -> idle t t'.
Proof using. by intros ->. Qed.

(** Once the hypervisor maps the pages. *)
Lemma mcd_init_rest s s1 shared ring dm d : hv_ok s1 -> num s1 = num s -> t_enabled (be s1) = true ->
  t_daemon (be s1) = Some dm -> dm_ring_page dm = ring -> linked (dm_root dm) [shared] [d] (q_of [] 0) (be s1) ->
  wp tol (opened ← minf (sys (granted (de_os de)));
          if negb (opened : bool) then init_failed [shared; ring]
          else
            data ← minf (frame_load shared);
            bound ← minf (sys (granted (de_os de)));
            if negb (bound : bool) then init_failed [shared; ring]
            else minf (set_daemon (fun dm => dm <| dm_port := xe_evtchn xe |>));; mret true) (init_post s) s1.
Proof using All.
  intros Hv Hnum He Hd Hr Hl. assert (Hin : dm_ring_page dm ∈ [shared; ring]) by (rewrite Hr; set_solver).
  assert (Hex : exists pgs datas, linked (dm_root dm) pgs datas (q_of [] 0) (be s1)) by by exists [shared], [d].
  wp_steps. apply wp_minf. apply sys_total; [auto with total|]. intros opened t1 Hf1.
  destruct opened; cbn [negb]; [|by eapply init_failed_late; [..|by apply filed_idle]]. wp_steps. apply wp_minf.
  pose proof Hl as [_ _ Hh]. destruct (holds_lookup _ _ _ 0 shared Hh eq_refl) as (d' & _ & Hfr & _).
  eapply frame_load_spec; [cbn; rewrite Hf1; exact Hfr|]. wp_steps. apply wp_minf. cbn [be setter].
  apply sys_total; [auto with total|]. intros bound t2 Hf2. pose proof (filed_trans _ _ _ Hf1 Hf2) as Hf.
  change (s1 <| be := t1 |> <| be := t1 |> <| be := t2 |>) with (s1 <| be := t2 |>).
  destruct bound; cbn [negb]; [|by eapply init_failed_late; [..|by apply filed_idle]]. wp_steps.
  apply wp_minf. unfold set_daemon. wp_steps. cbn [be setter].
  set (t3 := t2 <| t_daemon ::= _ |>).
  assert (Hl3 : linked (dm_root dm) [shared] [d] (q_of [] 0) t3).
  { pose proof (linked_filed _ _ _ _ _ _ Hf Hl) as [(ev & dm' & s0 & []) Hnd2 Hh2].
    split; [|done|by apply (holds_frames _ _ t2)]. exists ev, (dm' <| dm_port := xe_evtchn xe |>), s0.
    split; try done. cbn. by rewrite lk_daemon. }
  assert (Ht3 : t_inv t3).
  { pose proof (hv_t_inv _ Hv) as []. split; [unfold t3; by rewrite Hf..|]. left.
    by exists (dm_root dm), [shared], [d], [], 0%nat. }
  destruct (hv_be s1 t3 Hv Ht3) as [Hv3 Hn3].
  split; [exact Hv3|]. split; [by etransitivity; [exact Hn3|]|]. split; [by cbn; rewrite Hf|].
  exists (dm <| dm_port := xe_evtchn xe |>), shared, d. split; [|done]. cbn. rewrite Hf. cbn. by rewrite Hd.
Qed.

(** The system call changes the value of an error only. *)
Lemma answer_zero z : ((if z <? 0 then -1 else z) =? 0) = (z =? 0).
Proof using. destruct (Z.ltb_spec z 0); destruct (Z.eqb_spec z 0); lia. Qed.

Lemma attachable_quiet s : hv_ok s -> attachable s -> has_requests (be s) = false.
Proof using.
  intros Hv []. destruct (hv_t_inv _ Hv) as [_ _ _ [(rt & pages & datas & pre & b & [(ev & dm & s0 & []) _ _] & _)|(_ & _ & Hd)]]; [|done].
  rewrite lk_event in at_ring0. cbn in at_ring0. congruence.
Qed.

Lemma mcd_init_pages_spec s : hv_ok s -> attachable s -> wp tol (mcd_init_pages env xe de 0) (init_post s) s.
Proof using All.
  intros Hv Ha. pose proof (hv_t_inv _ Hv) as Hti.
  pose proof (attachable_quiet s Hv Ha) as Hq.
  unfold mcd_init_pages. wp_steps. apply wp_minf. eapply wp_mono; [apply init_page_any|]. intros [shared|] t1 Ha1; wp_steps.
  2:{ destruct (allocated_idle _ _ _ Ha1) as (Hi & Hr & Hd). left. apply (hv_idle s t1); [done..|].
      unfold has_requests in *. by rewrite Hr, Hd. }
  apply wp_minf. eapply wp_mono; [apply init_page_any|]. intros ring t2 Ha2.
  destruct (allocated_idle _ _ _ Ha1) as (Hi1 & Hr1 & Hd1). destruct (allocated_idle _ _ _ Ha2) as (Hi2 & Hr2 & Hd2).
  pose proof (idle_trans _ _ _ Hi1 Hi2) as Hi. change (s <| be := t1 |> <| be := t2 |>) with (s <| be := t2 |>).
  destruct ring as [ring|]; wp_steps; [|by apply init_failed_early].
  apply wp_minf. unfold init_ring. wp_steps. apply wp_minf. wp_steps. cbn [be setter].
  set (dm := mk_daemon _ _ _ _ _ _). set (t3 := t2 <| t_rings ::= _ |> <| t_daemon := _ |>).
  assert (Hi3 : idle (be s) t3) by (by destruct Hi; split).
  unfold xc_mcd_event_enable, xc_mcd_event_control, xc_mcd_op. wp_steps. apply wp_minf. cbn [be setter].
  apply sys_total; [auto with total|]. intros ok t4 Hf4.
  assert (Hi4 : idle (be s) t4) by (eapply idle_trans; [done|by apply filed_idle]).
  match goal with |- wp _ _ _ ?s0 => change s0 with (s <| be := t4 |>) end.
  destruct ok; cbn [negb]; wp_steps; [|cbn [Z.eqb Z.opp negb]; by apply init_failed_early].
  assert (Hw : waiting shared ring dm (be (s <| be := t4 |>))).
  { cbn. destruct Ha1 as [_ (Hn1 & d & Hdl & Hfr1)], Ha2 as [_ (Hn2 & d2 & _ & Hfr2)].
    rewrite Hf4. split; try done.
    - cbn. rewrite lookup_insert_eq. by eexists.
    - cbn. rewrite Hfr2. cbn in *. exists d. split; [|done]. rewrite lookup_insert_ne; [by rewrite Hfr1, lookup_insert_eq|].
      intros <-. rewrite Hfr1, lookup_insert_eq in Hn2. done. }
  destruct (hv_idle s t4 Hv Ha Hi4 (waiting_quiet _ _ _ _ Hw)) as (Hv4 & Hn4 & _).
  eapply wp_mono; [apply (enable_spec shared ring dm (s <| be := t4 |>)); [exact Hv4| |exact Hw]|].
  { destruct Ha. split; try done; [exact (eq_trans (id_enabled _ _ Hi4) at_down0)|]. cbn. by rewrite (id_events _ _ Hi4). }
  intros r s5 (Hv5 & Hn5 & Hst5 & Hd5 & Hr5). wp_steps. cbn [fst]. rewrite answer_zero. destruct (Z.eqb_spec (fst r) 0) as [E|Hne]; cbn [negb].
  - destruct Hr5 as (He5 & d & Hl5).
    apply (mcd_init_rest s s5 shared ring dm d); [done|congruence|done| |done|done].
    rewrite Hd5. apply Hw.
  - rewrite <- (be_id s5). apply init_failed_spec. intros t' Hi' Hdm _. left.
    assert (Ht' : t_inv t').
    { destruct Hr5 as [He5 Hrg5]. eapply idle_inv; [exact (hv_t_inv _ Hv5)|exact He5|exact Hrg5|exact Hi'|by apply no_daemon_quiet]. }
    destruct (hv_be s5 t' Hv5 Ht') as [Hv6 Hn6]. split; [exact Hv6|]. split; [exact (eq_trans Hn6 (eq_trans Hn5 Hn4))|].
    exact (eq_trans (id_enabled _ _ Hi') (proj1 Hr5)).
Qed.

Lemma mcd_init_spec s : hv_ok s -> attachable s -> wp tol (mcd_init env xe de 0) (init_post s) s.
Proof using All.
  intros Hv Ha. pose proof (attachable_quiet s Hv Ha) as Hq.
  unfold mcd_init. wp_steps. apply wp_minf. apply sys_total; [auto with total|]. intros opened t1 Hf1.
  assert (Hq1 : has_requests t1 = false) by (rewrite Hf1; exact Hq).
  destruct (hv_idle s t1 Hv Ha (filed_idle _ _ Hf1) Hq1) as (Hv1 & Hn1 & He1).
  destruct opened; cbn [negb]; wp_steps; [|by left].
  eapply wp_mono; [apply mcd_init_pages_spec; [exact Hv1|]|].
  - destruct Ha. split; try done. cbn. by rewrite Hf1.
  - intros ok s2. unfold init_post. by rewrite Hn1.
Qed.

(** ** The end of the daemon *)

Definition detached s : Prop := t_enabled (be s) = false /\ t_daemon (be s) = None /\
  ring_page (default zero_event_domain (t_events (be s) !! 0)) = None.

Definition exit_post (s s' : gstate tstate) : Prop :=
  hv_ok s' /\ num s' = num s /\ detached s' \/ dangling s'.

Lemma exit_softly s t : hv_ok s -> no_headers s -> t_inv t ->
  softly s (s <| be := t |> <| ctl ::= fun c => c <| mc_heap := ∅ |> <| mc_freelist := [] |> <| mc_pages := [] |> |>).
Proof using.
  intros Hv Hn Ht. pose proof (proj2 (hv_inv _ Hv)) as [[H1 H2 H3 H4 H5] H6 H7 H8 H9].
  split; [by apply soft_same|]. apply ctl_empty_ok. set (s' := s <| be := t |> <| ctl ::= _ |>).
  assert (Hp' : mc_ptrs (ctl s') = []) by exact Hn.
  split; [|done]. split; rewrite ?Hp'; try done.
  - cbn. constructor.
  - by intros q ?%elem_of_nil.
  - intros q. cbn. rewrite lookup_empty. by intros [].
Qed.

(** The daemon lets go of its files and its pages. *)
Lemma release_spec dm t : wp no_fault (
    sys (del_dir (de_os de) (dm_root dm));;
    for_each (seqZ 0 (dm_num_shared_page dm))
      (fun i _ =>
         (match dm_shared_page dm !! i with Some m => free_page m | None => mret tt end);;
         mret (Continue tt)) tt;;
    free_page (dm_ring_page dm);;
    modify (fun t => t <| t_daemon := None |>))
  (fun _ t' => idle t t' /\ t_daemon t' = None /\ t_rings t' !! dm_ring_page dm = None) t.
Proof using.
  wp_steps. apply sys_total; [auto with total|]. intros r t1 Hf1. wp_steps.
  eapply (wp_for_each _ _ (fun _ _ t' => idle t t')).
  - by apply filed_idle.
  - intros [] t2 Hi. unfold free_page. wp_steps. split; [by destruct Hi; split|]. split; [done|]. apply lookup_delete_eq.
  - intros i is' [] t2 Hi. destruct (dm_shared_page dm !! i); unfold free_page; wp_steps; [by destruct Hi; split|done].
Qed.

Lemma disable_spec s : hv_ok s -> running 0 s -> xe_vcpu xe 0 = true ->
  wp tol (do_mcd_op env (mcdctl_op xe) 0 (control_call 0 MCD_EVENT_OP_DISABLE 0 0 0)) (fun _ s' =>
    exists t', s' = s <| be := t' |> <| ctl ::= fun c => c <| mc_heap := ∅ |> <| mc_freelist := [] |> <| mc_pages := [] |> |> /\
      still (be s) (t' <| t_enabled := t_enabled (be s) |>) /\ t_enabled t' = false /\
      ring_page (default zero_event_domain (t_events t' !! 0)) = None /\ t_daemon t' = t_daemon (be s)) s.
Proof using Hdiv.
  intros Hv Hrun Hvc. pose proof (hv_caller s 0 Hv Hrun) as Hc. destruct Hrun as (x & Hx & Hdy & Hmd).
  apply (control_dom0_wp _ _ _ _ x); [done..|]. unfold mcd_event_op. rewrite Hdy, Hvc. cbn [negb meo_op]. wp_steps.
  apply wp_minf. unfold event_of at 1. wp_steps. rewrite be_id.
  change (MCD_EVENT_OP_DISABLE =? MCD_EVENT_OP_ENABLE) with false. change (MCD_EVENT_OP_DISABLE =? MCD_EVENT_OP_RESUME) with false.
  change (MCD_EVENT_OP_DISABLE =? MCD_EVENT_OP_DISABLE) with true. cbn iota. unfold mcd_event_disable. wp_steps.
  apply wp_minf. unfold mcd_event_unmap, event_of, set_event. wp_steps. unfold exit_mcdctl. wp_steps.
  unfold set_enabled. apply wp_minf. wp_steps. cbn [be setter]. eexists. split; [reflexivity|].
  split; [done|]. split; [done|]. split; [|done]. cbn. by rewrite lookup_insert_eq.
Qed.

Lemma mcd_teardown_spec s : hv_ok s -> running 0 s -> xe_vcpu xe 0 = true -> no_headers s -> attached_any s ->
  wp tol (mcd_teardown env xe de) (fun _ => exit_post s) s.
Proof using All.
  intros Hv Hrun Hvc Hne (He & root & pages & datas & q & Hl). pose proof (hv_t_inv _ Hv) as Ht.
  destruct Hl as [(ev & dm & s0 & []) _ _]. unfold mcd_teardown. wp_steps. rewrite lk_daemon. wp_steps.
  unfold xc_mcd_event_disable, xc_mcd_event_control, xc_mcd_op. wp_steps. apply wp_minf.
  apply sys_total; [auto with total|]. intros ok t1 Hf1. destruct (hv_be s t1 Hv (filed_inv _ _ Hf1 Ht)) as [Hv1 Hn1].
  destruct ok; cbn [negb]; wp_steps.
  - eapply wp_mono; [apply (disable_spec (s <| be := t1 |>)); done|].
    intros r s2 (t2 & -> & Hst2 & He2 & Hr2 & Hd2). wp_steps. apply wp_minf.
    eapply wp_mono; [apply release_spec|]. intros [] t3 (Hi3 & Hd3 & _). cbn in Hi3, Hst2. wp_steps. left.
    assert (Ht3 : t_inv t3).
    { destruct (filed_inv _ _ Hf1 Ht) as [I1 I2 I3 _]. destruct Hst2, Hi3; cbn in *.
      split; [congruence|congruence|intros p; rewrite id_next0, id_mem0, st_mem, st_next; apply I3|]. right.
      split; [congruence|]. split; [by rewrite id_events0|by apply no_daemon_quiet]. }
    destruct (hv_softly s _ Hv (exit_softly s t3 Hv Hne Ht3)) as [Hv3 Hn3].
    split; [exact Hv3|]. split; [exact Hn3|]. split; [exact (eq_trans (id_enabled _ _ Hi3) He2)|]. split; [exact Hd3|].
    cbn. by rewrite (id_events _ _ Hi3).
  - apply wp_minf. eapply wp_mono; [apply release_spec|]. intros [] t3 (Hi3 & Hd3 & Hr3). cbn in Hi3. wp_steps. right.
    pose proof (idle_trans _ _ _ (filed_idle _ _ Hf1) Hi3) as Hi.
    split; [exact (eq_trans (id_enabled _ _ Hi) He)|]. split; [exact Hd3|].
    exists ev, (dm_ring_page dm). cbn. rewrite (id_events _ _ Hi). done.
Qed.

Lemma daemon_start_spec base s : hv_ok s -> attachable s ->
  wp tol (daemon_start env xe de base) (init_post s) s.
Proof using All.
  intros Hv Ha. unfold daemon_start. wp_steps. eapply wp_mono; [by apply mcd_init_spec|].
  intros [|] s1 H1; cbn [negb]; wp_steps; [|done]. destruct H1 as (Hv1 & Hn1 & He1 & dm & shared & d & Hd & Hl).
  apply wp_minf. unfold set_daemon. wp_steps. apply sys_total; [auto with total|]. intros r t2 Hf2. wp_steps.
  set (t1 := (be s1) <| t_daemon ::= _ |>) in *.
  assert (Hl1 : linked base [shared] [d] (q_of [] 0) t1).
  { destruct Hl as [(ev & dm' & s0 & []) Hnd Hh]. split; [|done|by apply (holds_frames _ _ (be s1))].
    exists ev, (dm' <| dm_root := base |>), s0. split; try done. cbn. by rewrite lk_daemon. }
  pose proof (linked_filed _ _ _ _ _ _ Hf2 Hl1) as Hl2.
  assert (Ht2 : t_inv t2).
  { apply (filed_inv _ _ Hf2). pose proof (hv_t_inv _ Hv1) as []. split; try done. left.
    by exists base, [shared], [d], [], 0%nat. }
  destruct (hv_be s1 t2 Hv1 Ht2) as [Hv2 Hn2]. split; [exact Hv2|]. split; [exact (eq_trans Hn2 Hn1)|].
  split; [cbn; by rewrite Hf2|]. exists (dm <| dm_root := base |>), shared, d. split; [|done].
  cbn. rewrite Hf2. cbn. by rewrite Hd.
Qed.

(** ** The system as a transition system *)

Inductive sys_event : Type :=
  | SysCache (ev : event (option xen_mcdctl))
  | SysStart (base : path)
  | SysServe
  | SysStop.

Definition do_sys (e : sys_event) : M (gstate tstate) unit :=
  match e with
  | SysCache ev => do_event env (mcdctl_op xe) ev
  | SysStart base => daemon_start env xe de base;; mret tt
  | SysServe => minf (drain de 65)
  | SysStop => mcd_teardown env xe de;; mret tt
  end.

(** The daemon comes and goes while the second tier is empty. *)
Definition sys_event_ok (e : sys_event) s : Prop :=
  match e with
  | SysCache ev => event_ok ev s
  | SysStart _ => attachable s
  | SysServe => True
  | SysStop => running 0 s /\ xe_vcpu xe 0 = true /\ no_headers s /\ attached_any s
  end.

Lemma do_sys_spec e s : hv_ok s -> (num s < env_fuel env)%nat -> sys_event_ok e s ->
  wp tol (do_sys e) (fun _ s' => (hv_ok s' /\ (num s' <= S (num s))%nat) \/ dangling s') s.
Proof using All.
  intros Hv Hf Hok. destruct e as [ev|base| |]; cbn [do_sys sys_event_ok] in *.
  - eapply wp_mono; [apply (do_event_goes env tol (fun _ _ => Hnull) Hnow Hdiv Hoob (mcdctl_op xe) ev s); done|].
    intros [] s' H. by left.
  - wp_steps. eapply wp_mono; [by apply daemon_start_spec|]. intros [|] s' H'; wp_steps.
    + left. destruct H' as (H1 & H2 & _). split; [done|lia].
    + destruct H' as [(H1 & H2 & _)|H']; [left; split; [done|lia]|by right].
  - apply wp_minf. eapply wp_mono; [apply (drain_inv de xe Hadd), hv_t_inv, Hv|].
    intros [] t' (Ht & _). left. destruct (hv_be s t' Hv Ht) as [H1 H2]. split; [done|]. rewrite H2. lia.
  - destruct Hok as (H1 & H2 & H3 & H4). wp_steps. eapply wp_mono; [by apply mcd_teardown_spec|].
    intros r s' [(K1 & K2 & _)|K]; wp_steps; [left; split; [done|lia]|by right].
Qed.

(** The transport before anything happened. *)
Definition no_transport (o : os) : tstate := mk_tstate false ∅ ∅ ∅ false false ∅ 1 None o.

Lemma no_transport_inv o : t_inv (no_transport o).
Proof using. split; [done..|by intros p _|]. by right. Qed.

Inductive sys_reach (xd : gmap Z xen_domain) : nat -> gstate tstate -> Prop :=
  | sys_boot o s : init_mcd true (static_state xd (no_transport o)) = Ret (- ERR_NO) s -> sys_reach xd 0 s
  | sys_step n s e s' : sys_reach xd n s -> sys_event_ok e s -> do_sys e s = Ret tt s' -> ~ dangling s' ->
      sys_reach xd (S n) s'.

Lemma sys_reach_ok xd n s : (forall domid x, xd !! domid = Some x -> xd_mcd x = None) -> (n <= env_fuel env)%nat ->
  sys_reach xd n s -> hv_ok s /\ (num s <= n)%nat.
Proof using All.
  intros Hxd Hn Hr. induction Hr as [o s Hboot|n s e s' Hr IH Hok He Hd].
  - apply (reach_ok env tol (fun _ _ => Hnull) Hnow Hdiv Hoob (mcdctl_op xe) xd 0 s Hxd ltac:(lia)).
    eapply reach_boot; [|exact Hboot]. apply no_transport_inv.
  - destruct IH as [Hv Hnum]; [lia|]. pose proof (do_sys_spec e s Hv ltac:(lia) Hok) as Hw.
    unfold wp in Hw. rewrite He in Hw. destruct Hw as [[H1 H2]|?]; [|done]. split; [done|lia].
Qed.
End Whole.
