(* ===== verification/Slots.v ===== *)
(** The slots of the ring that requests for more shared pages use: the daemon
    never answers them ([resume_need] is false), so that the slots are never
    free again. *)
From S2P Require Import Prelude CMonad Types State Core Display Admin Ring FileOps FileSpec Mcdctl Daemon Exchange Link PageOut PutFile Turns PutTurn GetTurn GetWait TransportLaws System SystemSpec.

Section Slots.
Context (de : DaemonEnv) (xe : XenEnv).
Context (Hadd : forall m t, de_add de m t = mcd_event_add_shared_page xe 0 m t \/
  exists rc, rc <> 0 /\ de_add de m t = Ret rc t).
Implicit Types (t : tstate).

(** The turn on such a request takes it off the ring without an answer. *)
Lemma add_turn tol root pages datas x l b t : linked root pages datas (q_of (x :: l) b) t ->
  ev_type x = MCD_EVENT_REQ_ADD_SHARED_PAGE ->
  wp tol (daemon_turn de) (fun _ t' => grown root pages datas (q_of l (S b)) t t') t.
Proof using Hadd.
  intros Hl Hx. eapply turn_spec; [done|]. intros dm t1 Hq1 Hl1 Hsv. unfold handle. wp_steps.
  apply dir_spec. intros t2 Hf2. wp_steps. unfold serve. rewrite Hx.
  change (wp tol (mcd_add_shared_page de (ev_totsize x);; mret (finish x, false))
    (fun a => wp tol (let '(rsp, need) := a in if (need : bool) then mcd_resume_page rsp;; mret tt else mret tt)
      (fun _ t' => grown root pages datas (q_of l (S b)) t t')) t2).
  wp_steps. eapply wp_mono; [by apply (add_shared_spec de xe root tol Hadd _ pages datas); eapply linked_filed|].
  intros r t3 (Hst3 & H3). wp_steps. split; [|done].
  etransitivity; [by apply quiet_still|]. etransitivity; [by apply filed_still|done].
Qed.

(** One request for [num] pages, served. *)
Definition round (num : Z) : M tstate unit := increase_shared_page num;; drain de 65.

Fixpoint rounds (k : nat) (num : Z) : M tstate unit :=
  match k with
  | O => mret tt
  | S k => round num;; rounds k num
  end.

(** A state in which only the slots of [b] such requests are in use. *)
Record leaked (b : nat) t : Prop := {
  lq_put : t_put t = false;
  lq_get : t_get t = false;
  lq_mem : forall p, t_next t <= p -> t_mem t !! p = None;
  lq_link : exists root pages datas, linked root pages datas (q_of [] b) t;
}.

Lemma leaked_still b b' t t' : leaked b t -> still t t' ->
  (exists root pages datas, linked root pages datas (q_of [] b') t') -> leaked b' t'.
Proof using. intros [] [] H. split; [congruence|congruence|by rewrite st_next, st_mem|done]. Qed.

Lemma round_spec num b t : leaked b t -> (b <= 60)%nat -> 0 < num < MAX_SHARED_PAGES ->
  wp no_fault (round num) (fun _ t' => leaked (S b) t' /\ t_enabled t' = t_enabled t) t.
Proof using Hadd.
  intros Hlk Hb Hnum. destruct (lq_link _ _ Hlk) as (root & pages & datas & Hl). unfold round, increase_shared_page. wp_steps.
  pose proof Hl as [Hll Hnd Hh]. assert (Hr : room (q_of [] b) = true) by (apply room_used; cbn; lia).
  eapply check_ring_spec; [done|]. rewrite Hr. cbn [Z.eqb negb orb].
  destruct (Z.leb_spec num 0), (Z.leb_spec MAX_SHARED_PAGES num); [lia..|]. cbn [orb]. wp_steps.
  eapply (put_request_spec root no_fault pages); [done| |].
  { apply Z.leb_le in Hr. unfold MCD_EVENT_RING_THRESHOLD in Hr. lia. }
  intros t1 Hq1 Hl1. wp_steps. match type of Hl1 with link _ _ (mk_queues (_ ++ [?x]) _ _) _ => set (req := x) in * end.
  assert (Hl1' : linked root pages datas (q_of [req] b) t1) by (eapply linked_ring; done).
  unfold drain. wp_steps. rewrite (has_requests_linked _ _ _ _ _ Hl1'). cbn [q_of q_reqs while]. wp_steps.
  eapply wp_mono; [by eapply add_turn|]. intros [] t2 (Hst2 & pages' & datas' & _ & _ & Hl2). wp_steps.
  rewrite (has_requests_linked _ _ _ _ _ Hl2). cbn [q_of q_reqs while]. wp_steps.
  assert (Hst : still t t2) by (etransitivity; [by apply quiet_still|done]).
  split; [|apply Hst]. eapply leaked_still; [done..|by exists root, pages', datas'].
Qed.

Lemma rounds_spec num k : forall b t, leaked b t -> (b + k <= 61)%nat -> 0 < num < MAX_SHARED_PAGES ->
  wp no_fault (rounds k num) (fun _ t' => leaked (b + k) t' /\ t_enabled t' = t_enabled t) t.
Proof using Hadd.
  induction k as [|k IH]; intros b t Hl Hb Hnum; cbn [rounds]; wp_steps; [by rewrite Nat.add_0_r|].
  eapply wp_mono; [apply round_spec; [done|lia|done]|]. intros _ t1 [H1 He1].
  eapply wp_mono; [apply (IH (S b)); [done|lia|done]|]. intros _ t2 [H2 He2].
  split; [by replace (b + S k)%nat with (S b + k)%nat by lia|congruence].
Qed.

(** With 61 slots gone nothing is accepted any more. *)
Lemma full_refuses e t : leaked 61 t -> t_enabled t = true ->
  wp no_fault (page_out_wait de e) (fun rc t' => rc = -1 /\ leaked 61 t') t /\
  wp no_fault (page_in_wait de e) (fun r t' => r = (-1, mh_key_val e) /\ leaked 61 t') t /\
  forall x, wp no_fault (send_request x) (fun rc t' => rc = -1 /\ t' = t) t.
Proof using.
  intros [Hp Hg Hm (root & pages & datas & Hl)] He. assert (Hr : room (q_of [] 61) = false) by done.
  assert (Hfree : t_mem t !! t_next t = None) by (by apply Hm).
  assert (Hd : forall t', done_with t t' -> linked root pages datas (q_of [] 61) t' -> leaked 61 t').
  { intros t' [] Hl'. split; [done|congruence| |by exists root, pages, datas].
    intros p Hpp. rewrite dw_mem. apply Hm. lia. }
  split; [|split].
  - eapply wp_mono; [by eapply (page_out_full de root no_fault e pages datas [] 61 t)|].
    intros rc t' (-> & Hdw & _ & Hl'). split; [done|by apply Hd].
  - eapply wp_mono; [by eapply (page_in_full de root no_fault e pages datas [] 61 t)|].
    intros rc t' (-> & Hdw & _ & Hl'). split; [done|by apply Hd].
  - intros x. unfold send_request. wp_steps. eapply check_ring_spec; [apply Hl|]. rewrite Hr. cbn [Z.eqb negb]. by wp_steps.
Qed.

Lemma full_idle t : leaked 61 t -> wp no_fault (drain de 65) (fun _ t' => t' = t) t.
Proof using.
  intros [_ _ _ (root & pages & datas & Hl)]. unfold drain. wp_steps. rewrite (has_requests_linked _ _ _ _ _ Hl).
  cbn [q_of q_reqs while]. by wp_steps.
Qed.
End Slots.
