(* ===== verification/Toolstack.v ===== *)
(** The tool stack: the [mcd] commands of xl (tools/libxl/xl_cmdimpl.c), the
    [libxl_mcd*] functions (tools/libxl/libxl.c) and the [xc_mcd_*] functions
    (tools/libxc/xc_mcd.c) that make the hypercall for them. *)
From S2P Require Import Prelude CMonad Types State Core Display Admin Ring FileOps Mcdctl Daemon Exchange System.

(** * Command lines *)

Abbreviation bytes := (list Z).

Definition byte (s : string) : Z := default 0 (head (Fmt.str s)).

(** [strtol] in base 10, up to the first byte that is not a digit; [atoi] is
    its result as an [int]. *)
Definition isdigit (c : Z) : bool := (48 <=? c) && (c <=? 57).
Definition isspace (c : Z) : bool := (c =? 32) || ((9 <=? c) && (c <=? 13)).

Fixpoint digits_value (acc : Z) (s : bytes) : Z :=
  match s with
  | c :: s => if isdigit c then digits_value (10 * acc + (c - 48)) s else acc
  | [] => acc
  end.

Fixpoint skip_spaces (s : bytes) : bytes :=
  match s with
  | c :: s' => if isspace c then skip_spaces s' else s
  | [] => []
  end.

Definition LONG_MAX : Z := 2 ^ 63 - 1.
Definition ULONG_MAX : Z := 2 ^ 64 - 1.

Definition strtol (s : bytes) : Z :=
  match skip_spaces s with
  | c :: s' =>
      if c =? byte "-" then Z.max (- LONG_MAX - 1) (- digits_value 0 s')
      else if c =? byte "+" then Z.min LONG_MAX (digits_value 0 s')
      else Z.min LONG_MAX (digits_value 0 (c :: s'))
  | [] => 0
  end.
Definition atoi (s : bytes) : Z := s32 (strtol s).

(** [strtoul] of a string of digits. *)
Definition strtoul_digits (s : bytes) : Z := Z.min ULONG_MAX (digits_value 0 s).

(** [getopt]: what the calls for one command line return - an option with its
    argument, or a character that is not one (or misses its argument) - and
    the other arguments, which end up behind the options. The options are
    characters, with a flag for those that take an argument. *)
Inductive opt := Opt (c : Z) (arg : option bytes) | BadOpt (c : Z).

Abbreviation optstring := (list (Z * bool)).

Definition takes_arg (spec : optstring) (c : Z) : option bool :=
  snd <$> head (filter (fun o => fst o = c) spec).

(** The characters behind a dash; the last one may still want its argument. *)
Fixpoint cluster (spec : optstring) (cs : bytes) : list opt * option Z :=
  match cs with
  | [] => ([], None)
  | c :: cs =>
      match takes_arg spec c with
      | None => let '(os, p) := cluster spec cs in (BadOpt c :: os, p)
      | Some false => let '(os, p) := cluster spec cs in (Opt c None :: os, p)
      | Some true => match cs with [] => ([], Some c) | _ => ([Opt c (Some cs)], None) end
      end
  end.

Fixpoint getopt_from (spec : optstring) (wants : option Z) (args : list bytes) : list opt * list bytes :=
  match args with
  | [] => (match wants with Some c => [BadOpt c] | None => [] end, [])
  | a :: args =>
      match wants with
      | Some c => let '(os, rest) := getopt_from spec None args in (Opt c (Some a) :: os, rest)
      | None =>
          if decide (a = Fmt.str "--") then ([], args)
          else match a with
               | dash :: (_ :: _) as cs =>
                   if dash =? byte "-" then
                     let '(os, wants) := cluster spec (tail a) in
                     let '(os', rest) := getopt_from spec wants args in
                     (os ++ os', rest)
                   else let '(os, rest) := getopt_from spec None args in (os, a :: rest)
               | _ => let '(os, rest) := getopt_from spec None args in (os, a :: rest)
               end
      end
  end.
Definition getopt (spec : optstring) (args : list bytes) : list opt * list bytes := getopt_from spec None args.

(** What a command leaves on the terminal: its usage, a complaint, nothing
    but what the library logs, or a text. *)
Inductive shown := Usage | Unsupported (c : Z) | Complaint | Logged | Printed (text : bytes).

(** The option loop the commands share: [-h] and an unknown option end the
    command with status 0. *)
Fixpoint opt_loop {A} (f : A -> Z -> bytes -> A) (os : list opt) (a : A) : A + shown :=
  match os with
  | [] => inl a
  | BadOpt c :: _ => inr (Unsupported c)
  | Opt c arg :: os => if c =? byte "h" then inr Usage else opt_loop f os (f a c (default [] arg))
  end.

(** What xl gets from the rest of the tool stack: the domain with a name, and
    whether a domain exists. *)
Record ToolEnv := mk_tool_env {
  te_name_to_domid : bytes -> option Z;
  te_domain_exists : Z -> bool;
}.

Section Toolstack.
Context (env : Env) (xe : XenEnv) (de : DaemonEnv) (te : ToolEnv).
#[local] Hint Extern 0 (Minf tstate) => exact (minf_transport de) : typeclass_instances.
Abbreviation G := (M (gstate tstate)).
Implicit Types (s : gstate tstate).

(** * The libraries *)

(** What the hypervisor writes into the bounce buffer. *)
Definition store_writes (ws : list Display.write) (buf : bytes) : G bytes :=
  for_each ws
    (fun w buf =>
       if (fst w <? 0) || (Z.of_nat (length buf) <? fst w + Z.of_nat (length (snd w))) then raise OutOfBounds
       else mret (Continue (fill (Z.to_nat (fst w)) (snd w) buf))) buf.

(** The body the [xc_mcd_*] functions share. A bounce buffer comes zeroed; it
    is copied back whatever the hypercall says. *)
Definition xc_mcd_text (buf : option bytes) (cmd : mcd_cmd (option xen_mcdctl)) : G (Z * bytes) :=
  match buf with
  | None => mret (- EINVAL, [])
  | Some buf =>
      ok ← minf (sys (granted (de_os de)));
      if negb (ok : bool) then mret (- ENOMEM, buf)
      else
        r ← xc_mcd_op env xe de cmd;
        buf ← store_writes (snd r) (replicate (length buf) 0);
        mret (fst r, buf)
  end.

Definition buf_len (buf : option bytes) : Z := Z.of_nat (length (default [] buf)).

Definition xc_mcd_display_stats (domid : Z) (buf : option bytes) (is_detail : Z) : G (Z * bytes) :=
  xc_mcd_text buf (XENMCD_display_stats (Some (u16 domid, u32 is_detail, buf_len buf))).
Definition xc_mcd_memsize (buf : option bytes) (memsize : Z) : G (Z * bytes) :=
  xc_mcd_text buf (XENMCD_memsize (Some (u32 memsize))).
Definition xc_mcd_weight (domid : Z) (buf : option bytes) (weight : Z) : G (Z * bytes) :=
  xc_mcd_text buf (XENMCD_weight (Some (u16 domid, weight))).
Definition xc_mcd_cache_mode (buf : option bytes) (which cache_mode : Z) : G (Z * bytes) :=
  xc_mcd_text buf (XENMCD_cache_mode (Some (which, cache_mode))).
Definition xc_mcd_param (buf : option bytes) (which mode param : Z) : G (Z * bytes) :=
  xc_mcd_text buf (XENMCD_param (Some (which, mode, param))).

Definition BUF_LEN : nat := Z.to_nat 32768.

(** The string in front of the first zero; [strdup] reads past a buffer
    without one. *)
Fixpoint c_string (buf : bytes) : option bytes :=
  match buf with
  | [] => None
  | c :: buf => if c =? 0 then Some [] else cons c <$> c_string buf
  end.

Definition strdup (buf : bytes) : G (option bytes) :=
  match c_string buf with
  | None => raise OutOfBounds
  | Some s => ok ← minf (sys (granted (de_os de))); mret (if (ok : bool) then Some s else None)
  end.

(** The body the [libxl_mcd*] functions share, [garbage] being what the
    buffer on the stack holds. *)
Definition libxl_text (call : option bytes -> G (Z * bytes)) (garbage : bytes) : G (option bytes) :=
  r ← call (Some garbage);
  if fst r <? 0 then mret None else strdup (snd r).

Definition libxl_mcd (garbage : bytes) (domid is_detail : Z) : G (option bytes) :=
  libxl_text (fun buf => xc_mcd_display_stats domid buf is_detail) garbage.
Definition libxl_mcd_memsize (garbage : bytes) (memsize : Z) : G (option bytes) :=
  libxl_text (fun buf => xc_mcd_memsize buf memsize) garbage.
Definition libxl_mcd_weight (garbage : bytes) (domid weight : Z) : G (option bytes) :=
  libxl_text (fun buf => xc_mcd_weight domid buf weight) garbage.
Definition libxl_mcd_cache_mode (garbage : bytes) (which cache_mode : Z) : G (option bytes) :=
  libxl_text (fun buf => xc_mcd_cache_mode buf which cache_mode) garbage.
Definition libxl_mcd_param (garbage : bytes) (which mode param : Z) : G (option bytes) :=
  libxl_text (fun buf => xc_mcd_param buf which mode param) garbage.

(** * The commands

    The status a command returns and what it shows. *)

Definition print (buf : option bytes) : Z * shown :=
  match buf with
  | None => (-1, Logged)
  | Some text => (0, Printed (text ++ [10]))
  end.

(** [find_domain]: a number that names a domain, or a name; otherwise the
    process exits with status 2. *)
Definition qualifier_to_id (p : bytes) : option Z :=
  if forallb isdigit p && negb (bool_decide (p = [])) then Some (u32 (strtoul_digits p)) else None.
Definition domain_qualifier_to_domid (p : bytes) : option Z :=
  match qualifier_to_id p with
  | Some domid => if te_domain_exists te domid then Some domid else None
  | None => te_name_to_domid te p
  end.
Definition find_domain (p : bytes) : Z * shown + Z :=
  match domain_qualifier_to_domid p with
  | None => inl (2, Complaint)
  | Some domid => inr domid
  end.

Definition main_mcd_display (garbage : bytes) (args : list bytes) : G (Z * shown) :=
  let '(os, rest) := getopt [(byte "d", false); (byte "a", false); (byte "h", false)] args in
  match opt_loop (fun '(is_detail, all) c _ =>
          if c =? byte "d" then (1, all) else if c =? byte "a" then (is_detail, true) else (is_detail, all))
          os (0, false) with
  | inr x => mret (0, x)
  | inl (is_detail, all) =>
      let domid :=
        if all then inr (u32 (-1))
        else match rest with [] => inr (u32 (-1)) | dom :: _ => find_domain dom end in
      match domid with
      | inl r => mret r
      | inr domid => buf ← libxl_mcd garbage domid is_detail; mret (print buf)
      end
  end.

Definition main_mcd_memsize (garbage : bytes) (args : list bytes) : G (Z * shown) :=
  let '(os, _) := getopt [(byte "h", false); (byte "m", true)] args in
  match opt_loop (fun memsize c arg => if c =? byte "m" then atoi arg else memsize) os 0 with
  | inr x => mret (0, x)
  | inl memsize => buf ← libxl_mcd_memsize garbage memsize; mret (print buf)
  end.

Definition main_mcd_weight (garbage : bytes) (args : list bytes) : G (Z * shown) :=
  let '(os, _) := getopt [(byte "h", false); (byte "d", true); (byte "w", true)] args in
  match opt_loop (fun '(weight, domid) c arg =>
          if c =? byte "w" then (u32 (atoi arg), domid)
          else if c =? byte "d" then (weight, s32 (u32 (atoi arg))) else (weight, domid)) os (0, -1) with
  | inr x => mret (0, x)
  | inl (weight, input_domid) =>
      if input_domid <? 0 then mret (1, Complaint)
      else buf ← libxl_mcd_weight garbage input_domid weight; mret (print buf)
  end.

Definition main_mcd_cache_mode (garbage : bytes) (args : list bytes) : G (Z * shown) :=
  let '(os, _) := getopt [(byte "h", false); (byte "c", true); (byte "r", true); (byte "p", true)] args in
  match opt_loop (fun '(which, mode) c arg =>
          if c =? byte "c" then (0, u32 (atoi arg))
          else if c =? byte "r" then (1, u32 (atoi arg))
          else if c =? byte "p" then (2, u32 (atoi arg)) else (which, mode)) os (100, 0) with
  | inr x => mret (0, x)
  | inl (which, cache_mode) =>
      if which =? 100 then mret (0, Usage)
      else buf ← libxl_mcd_cache_mode garbage which cache_mode; mret (print buf)
  end.

Definition main_mcd_param (garbage : bytes) (args : list bytes) : G (Z * shown) :=
  let '(os, _) := getopt [(byte "h", false); (byte "z", false); (byte "a", true); (byte "b", true);
                          (byte "c", true); (byte "d", true); (byte "x", true)] args in
  match opt_loop (fun '(which, mode, param) c arg =>
          if c =? byte "a" then (0, 0, u32 (atoi arg))
          else if c =? byte "b" then (0, 1, u32 (atoi arg))
          else if c =? byte "c" then (1, 0, u32 (atoi arg))
          else if c =? byte "d" then (1, 1, u32 (atoi arg))
          else if c =? byte "z" then (2, mode, param)
          else if c =? byte "x" then (25, mode, u32 (atoi arg)) else (which, mode, param)) os (u32 (-1), 0, 0) with
  | inr x => mret (0, x)
  | inl (which, mode, param) =>
      if which =? u32 (-1) then mret (0, Usage)
      else buf ← libxl_mcd_param garbage which mode param; mret (print buf)
  end.
End Toolstack.
