(* ===== verification/ToolSpec.v ===== *)
(** Facts about the tool stack: numbers survive being printed and parsed, the
    texts of the hypervisor arrive as strings, and a call of the library is the
    hypercall. *)
From S2P Require Import Prelude CMonad Hash Types State Core Evict Inv Remove Evicted EvictShared EvictPart Alloc Create Ops View OpsLib OpsMake OpsSpec Flush Display Admin AdminSpec Lifecycle Hypercall Reach Ring FileOps FileSpec Mcdctl Daemon Exchange Link PageOut PutFile Turns PutTurn GetTurn GetWait TransportLaws System SystemSpec Toolstack.

(** * Numbers *)

Lemma digits_app f base n acc : Fmt.digits f base n acc = Fmt.digits f base n [] ++ acc.
Proof.
  revert n acc. induction f as [|f IH]; intros n acc; [done|]. cbn [Fmt.digits].
  destruct (n <? base); [done|]. rewrite IH, (IH _ [_]), <- (assoc_L (++)). done.
Qed.

Lemma digits_value_app ds ds' acc : forallb isdigit ds = true ->
  digits_value acc (ds ++ ds') = digits_value (digits_value acc ds) ds'.
Proof.
  revert acc. induction ds as [|d ds IH]; intros acc; cbn; [done|].
  intros [Hd Hds]%andb_true_iff. rewrite Hd. by apply IH.
Qed.

Lemma digit_ok d : 0 <= d < 10 -> isdigit (Fmt.digit d) = true /\ Fmt.digit d = 48 + d.
Proof.
  intros Hd. unfold Fmt.digit, isdigit. destruct (Z.ltb_spec d 10); [|lia]. split; [|done].
  apply andb_true_iff. split; apply Z.leb_le; lia.
Qed.

(** The digits of a number are digits, with the number as their value. *)
Lemma digits_spec f n : 0 <= n < 10 ^ Z.of_nat (S f) ->
  forallb isdigit (Fmt.digits (S f) 10 n []) = true /\ digits_value 0 (Fmt.digits (S f) 10 n []) = n /\
  Fmt.digits (S f) 10 n [] <> [].
Proof.
  revert n. induction f as [|f IH]; intros n Hn.
  - destruct (digit_ok n) as [H1 H2]; [lia|]. cbn. destruct (Z.ltb_spec n 10); [|lia].
    cbn. rewrite H1. split; [done|]. split; [lia|done].
  - remember (S f) as g eqn:Eg. cbn [Fmt.digits]. destruct (Z.ltb_spec n 10) as [Hs|Hb].
    + destruct (digit_ok n) as [H1 H2]; [lia|]. cbn. rewrite H1. split; [done|]. split; [lia|done].
    + assert (Hm : 0 <= n mod 10 < 10) by (apply Z.mod_pos_bound; lia).
      destruct (digit_ok (n mod 10) Hm) as [H1 H2]. rewrite digits_app. subst g.
      destruct (IH (n / 10)) as (I1 & I2 & I3).
      { rewrite Nat2Z.inj_succ, Z.pow_succ_r in Hn by lia. split; [apply Z.div_pos; lia|].
        apply Z.div_lt_upper_bound; lia. }
      rewrite forallb_app, digits_value_app, I1, I2 by done. cbn [forallb digits_value]. rewrite H1.
      split; [done|]. split; [pose proof (Z.div_mod n 10); lia|]. by intros [? _]%app_eq_nil.
Qed.

Lemma dec_spec n : 0 <= n < 2 ^ 64 ->
  forallb isdigit (Fmt.dec n) = true /\ digits_value 0 (Fmt.dec n) = n /\ Fmt.dec n <> [].
Proof. intros Hn. apply (digits_spec 63). cbn. lia. Qed.

Lemma digits_length f base n acc : (length (Fmt.digits f base n acc) <= f + length acc)%nat.
Proof.
  revert n acc. induction f as [|f IH]; intros n acc; cbn [Fmt.digits]; [lia|].
  destruct (n <? base); cbn [length]; [lia|]. specialize (IH (n / base) (Fmt.digit (n mod base) :: acc)).
  cbn [length] in IH. lia.
Qed.

Lemma dec_length n : (length (Fmt.dec n) <= 64)%nat.
Proof. pose proof (digits_length 64 10 n []). cbn [length] in *. unfold Fmt.dec. lia. Qed.

(** What [%u] prints, [atoi] reads. *)
Lemma atoi_dec n : 0 <= n < 2 ^ 31 -> atoi (Fmt.dec n) = n.
Proof.
  intros Hn. destruct (dec_spec n ltac:(lia)) as (H1 & H2 & H3).
  unfold atoi, strtol. destruct (Fmt.dec n) as [|c ds] eqn:E; [done|].
  cbn [forallb] in H1. apply andb_true_iff in H1 as [Hc _]. unfold isdigit in Hc. apply andb_true_iff in Hc as [Hc1 Hc2].
  apply Z.leb_le in Hc1, Hc2. assert (Hsp : isspace c = false).
  { unfold isspace. destruct (Z.eqb_spec c 32), (Z.leb_spec 9 c), (Z.leb_spec c 13); cbn; lia || done. }
  cbn [skip_spaces]. rewrite Hsp. change (byte "-") with 45. change (byte "+") with 43.
  destruct (Z.eqb_spec c 45), (Z.eqb_spec c 43); [lia..|]. rewrite H2. unfold LONG_MAX.
  rewrite Z.min_r by lia. apply s32_small. lia.
Qed.

(** * Texts *)

Lemma BUF_LEN_Z : Z.of_nat BUF_LEN = 32768.
Proof. apply Z2Nat.id. lia. Qed.

Definition no_zero (text : list Z) : Prop := Forall (fun c => c <> 0) text.

Lemma digit_nonzero d : 0 <= d -> Fmt.digit d <> 0.
Proof. intros Hd. unfold Fmt.digit. destruct (d <? 10); lia. Qed.

Lemma digits_nonzero f base n acc : 0 < base -> 0 <= n -> no_zero acc -> no_zero (Fmt.digits f base n acc).
Proof.
  intros Hb. revert n acc. induction f as [|f IH]; intros n acc Hn Hacc; cbn [Fmt.digits]; [done|].
  destruct (n <? base); [constructor; [by apply digit_nonzero|done]|].
  apply IH; [apply Z.div_pos; lia|]. constructor; [|done]. apply digit_nonzero, Z.mod_pos_bound. lia.
Qed.

Lemma dec_nonzero n : 0 <= n -> no_zero (Fmt.dec n).
Proof. intros Hn. apply digits_nonzero; [lia|done|constructor]. Qed.

Lemma sdec_dec n : 0 <= n -> Fmt.sdec n = Fmt.dec n.
Proof. intros Hn. unfold Fmt.sdec. destruct (Z.ltb_spec n 0); [lia|done]. Qed.

Lemma c_string_app text buf : no_zero text -> c_string (text ++ 0 :: buf) = Some text.
Proof.
  induction 1 as [|c text Hc Ht IH]; cbn; [done|]. destruct (Z.eqb_spec c 0); [done|]. by rewrite IH.
Qed.

Lemma scn_short text : (length text < BSIZE)%nat -> Fmt.scn BSIZE text = text.
Proof. intros Hl. unfold Fmt.scn. apply take_ge. lia. Qed.

Lemma for_each_single {S A L} (body : A -> L -> M S (loopctl L)) x l tol (Q : L -> S -> Prop) s :
  wp tol (body x l) (fun c s' => match c with Continue l => Q l s' | Break l => Q l s' end) s ->
  wp tol (for_each [x] body l) Q s.
Proof.
  intros Hb. cbn [for_each]. wp_steps. eapply wp_mono; [exact Hb|]. intros [l'|l'] s' H; by wp_steps.
Qed.

Ltac ret_inv H := repeat (apply bind_ret in H as (? & ? & _ & H)); injection H as <- _.

(** * Calls *)

Section Calls.
Context (env : Env) (xe : XenEnv) (de : DaemonEnv).
Context (Hadd : forall m t, de_add de m t = mcd_event_add_shared_page xe 0 m t \/
  exists rc, rc <> 0 /\ de_add de m t = Ret rc t).
#[local] Hint Extern 0 (Minf tstate) => exact (minf_transport de) : typeclass_instances.
#[local] Hint Extern 0 (MinfLaws tstate) => exact (transport_laws de xe Hadd) : typeclass_instances.
Context (tol : fault -> Prop) (Hnull : tol NullDeref) (Hnow : forall n, env_now env n <> 0).
Context (Hok : forall n, io_ok (de_os de) n = true).
Implicit Types (s : gstate tstate) (t : tstate).

Lemma sys_granted (Q : bool -> gstate tstate -> Prop) s :
  (forall t, filed (be s) t -> Q true (s <| be := t |>)) -> wp tol (minf (sys (granted (de_os de)))) Q s.
Proof using Hok.
  intros HQ. apply wp_minf. apply wp_sys. apply granted_ok; [done|]. intros o Ho. by apply HQ.
Qed.

(** The commands that only look after the work of the hypercall is done. *)
Definition administrative {C} (cmd : mcd_cmd C) : bool :=
  match cmd with
  | XENMCD_display_stats _ | XENMCD_memsize _ | XENMCD_weight _ | XENMCD_cache_mode _ | XENMCD_param _ => true
  | _ => false
  end.

Lemma admin_call_wp caller cmd (Q : Z * list Display.write -> gstate tstate -> Prop) s : caller_ok caller s ->
  administrative cmd = true ->
  wp tol (dispatch env (mcdctl_op xe) (Some caller) cmd) (fun r s1 => Inv s1 /\ forall s', Remove.quiet s1 s' -> Q r s') s ->
  wp tol (do_mcd_op env (mcdctl_op xe) caller cmd) Q s.
Proof using.
  intros [He (x & Hx & Hdy & Hmd) Hk] Had Hd. unfold do_mcd_op. wp_steps. rewrite He. cbn [negb].
  assert (Hmd' : xdoms s !! caller ≫= xd_mcd = Some caller) by (rewrite Hx; cbn; by rewrite Hmd).
  rewrite Hmd'. wp_steps. unfold mcd_dom_is_dying. wp_steps. apply wp_dom_load; [done|].
  intros d _ -> _. wp_steps. rewrite Hx. wp_steps. rewrite Hdy. wp_steps.
  eapply wp_mono; [exact Hd|]. intros r s1 [HI HQ]. wp_steps.
  assert (Hq : Remove.quiet s1 s1) by (apply Remove.quiet_refl, HI).
  destruct cmd; try done; cbn [other_works]; wp_steps; auto;
    (eapply wp_mono; [by apply dom_usage_update_all_spec|]; intros u s2 Hq2; wp_steps; auto).
Qed.

(** A call of the library whose hypercall answers with a short text. *)
Lemma text_call_wp cmd garbage (Q : option (list Z) -> gstate tstate -> Prop) s : length garbage = BUF_LEN ->
  (forall t, filed (be s) t -> wp tol (do_mcd_op env (mcdctl_op xe) 0 cmd) (fun r s1 =>
     exists text, r.1 = - ERR_NO /\ r.2 = info text /\ no_zero text /\ (length text < BSIZE)%nat /\
       forall t', filed (be s1) t' -> Q (Some text) (s1 <| be := t' |>)) (s <| be := t |>)) ->
  wp tol (libxl_text de (fun buf => xc_mcd_text env xe de buf cmd) garbage) Q s.
Proof using Hok.
  intros Hg Hc. unfold libxl_text, xc_mcd_text. wp_steps. apply sys_granted. intros t1 Hf1. cbn [negb]. wp_steps.
  unfold xc_mcd_op. wp_steps. apply sys_granted. intros t2 Hf2. cbn [negb]. wp_steps.
  pose proof (filed_trans _ _ _ Hf1 Hf2) as Hf. change (s <| be := t1 |> <| be := t2 |>) with (s <| be := t2 |>).
  eapply wp_mono; [by apply Hc|]. intros [rc ws] s1 (text & -> & -> & Hz & Hl & HQ). cbn [fst snd] in *. wp_steps.
  unfold store_writes, info. apply for_each_single. rewrite scn_short by done. cbn [fst snd].
  assert (HB : (BSIZE < BUF_LEN)%nat) by (apply Nat.ltb_lt; by vm_compute).
  rewrite Hg, length_replicate. cbn [Z.ltb Z.compare].
  destruct (Z.ltb_spec (Z.of_nat BUF_LEN) (0 + Z.of_nat (length text))); [lia|]. cbn [orb]. wp_steps.
  cbn [fst snd]. change (if - ERR_NO <? 0 then -1 else - ERR_NO) with 1. cbn [Z.ltb Z.compare]. unfold strdup.
  assert (Hfill : fill (Z.to_nat 0) text (replicate BUF_LEN 0) = text ++ 0 :: replicate (BUF_LEN - length text - 1) 0).
  { unfold fill. cbn [Z.to_nat take]. rewrite app_nil_l, Nat.add_0_l, drop_replicate. f_equal.
    change (0 :: replicate (BUF_LEN - length text - 1) 0) with (replicate (S (BUF_LEN - length text - 1)) 0).
    f_equal. lia. }
  rewrite Hfill, c_string_app by done. wp_steps. apply sys_granted. intros t3 Hf3. wp_steps. by apply HQ.
Qed.

(** The texts of the control operations. *)
Definition weight_text (domid weight : Z) : list Z :=
  Fmt.str "Weight of dom " ++ Fmt.dec domid ++ Fmt.str " is set to " ++ Fmt.dec weight.
Definition memsize_text (memsize : Z) : list Z :=
  Fmt.str "Maximum memory size is set to " ++ Fmt.dec memsize ++ Fmt.str " MB".
Definition mode_text (name : list Z) : list Z := Fmt.str "Set to " ++ name ++ Fmt.str " mode".

Lemma set_weight_text domid weight ws s s' : 0 <= domid -> 0 <= weight < 2 ^ 31 ->
  set_weight domid weight s = Ret ws s' -> ws = info (weight_text domid weight).
Proof using.
  intros Hd Hw H. unfold set_weight in H. ret_inv H. by rewrite s32_small, !sdec_dec by lia.
Qed.

Lemma set_memsize_text memsize ws s s' : 0 <= memsize -> set_memsize env memsize s = Ret ws s' ->
  ws = info (memsize_text memsize).
Proof using. intros Hm H. unfold set_memsize in H. ret_inv H. by rewrite sdec_dec by lia. Qed.

Lemma weight_call domid weight s : caller_ok 0 s -> Inv s -> domid ∈ domids s -> 0 <= domid < 2 ^ 16 -> 0 <= weight < 2 ^ 31 ->
  wp tol (do_mcd_op env (mcdctl_op xe) 0 (XENMCD_weight (Some (u16 domid, weight)))) (fun r s' =>
    r = (- ERR_NO, info (weight_text domid weight)) /\ managed s s' /\ abs s' = abs s /\
    weights s' = md_weight <$> alter_dom domid (fun d => d <| md_weight := weight |>) (doms s)) s.
Proof using.
  intros Hc HI Hin Hd Hw. apply admin_call_wp; [done..|]. cbn [dispatch]. unfold mcd_weight, text. wp_steps.
  rewrite !(wrap_id 16 domid) by (unfold urange; lia).
  eapply wp_mono; [eapply wp_and; [by apply set_weight_spec|intros ws s1 Hs1; by apply (set_weight_text domid weight ws s s1); [lia|..]]|].
  intros ws s1 (-> & Hma & Ha & _ & d & _ & _ & _ & Hws). wp_steps. split; [apply Hma|]. intros s2 Hq. split; [done|].
  split; [apply (managed_trans s s1); [done|apply quiet_managed; [apply Hma|done]]|].
  split; [rewrite <- Ha; apply (softly_abs s1); [apply Hma|by apply quiet_softly]|]. rewrite <- Hws. unfold weights.
  pose proof (sim_doms _ _ (proj1 Hq)) as HF. symmetry. induction HF as [|x y xs ys Hxy _ IH]; [done|]. cbn. rewrite IH.
  f_equal. by rewrite Hxy.
Qed.

Lemma quiet_modes s1 s2 : Remove.quiet s1 s2 -> modes s2 = modes s1.
Proof using. intros Hq. apply frame_same_modes. apply evicted_frame, sim_evicted, Hq. Qed.

Lemma quiet_mode_set which mode s s1 s2 : mode_set which mode s s1 -> Remove.quiet s1 s2 -> mode_set which mode s s2.
Proof using.
  intros [H1 H2 H3] Hq. pose proof (quiet_modes _ _ Hq) as Hm. split.
  - apply (managed_trans s s1); [done|]. apply quiet_managed; [apply H1|done].
  - by rewrite Hm.
  - assert (cache_mode (cfg s2) = cache_mode (cfg s1)) as -> by (by injection Hm).
    rewrite <- H3. apply softly_abs; [apply H1|by apply quiet_softly].
Qed.

Lemma quiet_memsized memsize s s1 s2 : memsized memsize s s1 -> Remove.quiet s1 s2 -> memsized memsize s s2.
Proof using.
  intros [H1 H2 H3 H4 H5] Hq. split.
  - apply (managed_trans s s1); [done|]. apply quiet_managed; [apply H1|done].
  - rewrite (sim_cfg _ _ (proj1 Hq)). done.
  - by rewrite (quiet_modes _ _ Hq).
  - rewrite <- H4. by rewrite (softly_abs s1 s2); [|apply H1|apply quiet_softly].
  - intros Hs Hm Hb. rewrite (quiet_bytes _ _ Hq), (sim_shr_ptrs _ _ (proj1 Hq)). auto.
Qed.

Lemma memsize_call memsize s : caller_ok 0 s -> Inv s -> mode_ok s -> (num s < env_fuel env)%nat -> covers 0 s ->
  0 <= memsize < 2 ^ 31 ->
  wp tol (do_mcd_op env (mcdctl_op xe) 0 (XENMCD_memsize (Some (u32 memsize)))) (fun r s' =>
    r = (- ERR_NO, info (memsize_text memsize)) /\ memsized memsize s s') s.
Proof using Hnull Hnow.
  intros Hc HI Hmo Hf Hcov Hm. apply admin_call_wp; [done..|]. cbn [dispatch]. unfold mcd_memsize, text. wp_steps.
  rewrite (wrap_id 32 memsize), s32_small by (unfold urange; lia).
  eapply wp_mono; [eapply wp_and; [by apply (set_memsize_spec env tol (fun _ _ => Hnull) Hnow)|
    intros ws s1 Hs1; by apply (set_memsize_text memsize ws s s1); [lia|..]]|].
  intros ws s1 [-> Hs]. wp_steps. split; [apply Hs|]. intros s2 Hq. split; [done|by eapply quiet_memsized].
Qed.

(** The name of a mode in the answer. *)
Definition mode_name (which mode : Z) : list Z :=
  if which =? 0 then if mode =? MCD_CACHE_MODE_SHARED then Fmt.str "shared" else Fmt.str "private"
  else if which =? 1 then replace_name (if MCD_REPLACE_MODE_MAX <=? mode then MCD_REPLACE_MODE_LFRU else mode)
  else if which =? 2 then partition_name (if MCD_PARTITION_MODE_MAX <=? mode then MCD_PARTITION_MODE_BE else mode)
  else Fmt.str "error".

Lemma set_mode_text which mode ws s s' : set_cache_mode env which mode s = Ret ws s' ->
  ws = info (mode_text (mode_name which mode)).
Proof using.
  intros H. unfold set_cache_mode in H. apply bind_ret in H as (name & s1 & Hn & H). injection H as <- _.
  unfold mode_text, mode_name. do 3 (case_match; [ret_inv Hn; done|]). by injection Hn as <- _.
Qed.

Lemma mode_call which mode s : caller_ok 0 s -> Inv s -> 0 <= mode ->
  (fst (fst (target_mode which mode s)) = MCD_CACHE_MODE_SHARED -> is_shared s = false -> dom0_clean s) ->
  wp tol (do_mcd_op env (mcdctl_op xe) 0 (XENMCD_cache_mode (Some (which, mode)))) (fun r s' =>
    r = (- ERR_NO, info (mode_text (mode_name which mode))) /\ mode_set which mode s s') s.
Proof using.
  intros Hc HI Hm H0. apply admin_call_wp; [done..|]. cbn [dispatch]. unfold mcd_cache_mode, text. wp_steps.
  eapply wp_mono; [eapply wp_and; [by apply set_cache_mode_spec|intros ws s1; apply set_mode_text]|].
  intros ws s1 [-> Hs]. wp_steps. split; [apply Hs|]. intros s2 Hq. split; [done|by eapply quiet_mode_set].
Qed.

(** Parameter 2 is the reset time. *)
Lemma reset_time_call mode time s : caller_ok 0 s -> Inv s ->
  wp tol (do_mcd_op env (mcdctl_op xe) 0 (XENMCD_param (Some (2, mode, time)))) (fun r s' =>
    r = (- ERR_NO, info (params_text s)) /\ managed s s' /\ abs s' = abs s /\ reset_time (cfg s') = time) s.
Proof using.
  intros Hc HI. apply admin_call_wp; [done..|]. cbn [dispatch]. unfold mcd_param. wp_steps.
  pose proof (set_param_spec env tol 2 mode time s HI ltac:(done)) as Hw. unfold wp in *.
  set (s1 := s <| cfg ::= fun c => c <| reset_time := time |> |>).
  assert (He : set_param env 2 mode time s = Ret (- ERR_NO, info (params_text s)) s1) by done.
  rewrite He in *. destruct Hw as [H1 H2 H3]. split; [apply H1|]. intros s2 Hq. split; [done|].
  split; [apply (managed_trans s s1); [done|apply quiet_managed; [apply H1|done]]|].
  split; [rewrite (softly_abs s1 s2); [exact H3|apply H1|by apply quiet_softly]|].
  by rewrite (sim_cfg _ _ (proj1 Hq)).
Qed.
End Calls.

(** * The statistics on the terminal *)

Lemma c_string_some buf : 0 ∈ buf -> exists text, c_string buf = Some text.
Proof.
  induction buf as [|c buf IH]; [by intros ?%elem_of_nil|]. cbn. intros Hin.
  destruct (Z.eqb_spec c 0) as [|Hne]; [by eexists|].
  apply elem_of_cons in Hin as [Hc|Hin]; [by destruct Hne|]. destruct (IH Hin) as [text ->]. by eexists.
Qed.

(** Lines that lie in the buffer and end with a zero leave one in it. *)
Lemma store_writes_spec ws buf s : Forall (inside (Z.of_nat (length buf))) ws -> 0 ∈ buf ->
  wp no_fault (store_writes ws buf) (fun buf' s' => s' = s /\ length buf' = length buf /\ 0 ∈ buf') s.
Proof.
  intros Hws H0. unfold store_writes.
  eapply (wp_for_each _ _ (fun ws buf' s' => Forall (inside (Z.of_nat (length buf))) ws /\
    s' = s /\ length buf' = length buf /\ 0 ∈ buf')); [done|by intros buf' s' [_ ?]|].
  intros [off bs] ws' buf' s' (Hall & -> & Hl & Hin). apply Forall_cons in Hall as [(H1 & H2 & H3) Hall].
  cbn [fst snd] in *. rewrite Hl.
  destruct (Z.ltb_spec off 0), (Z.ltb_spec (Z.of_nat (length buf)) (off + Z.of_nat (length bs))); [lia..|].
  cbn [orb]. wp_steps. split; [done|]. split; [done|]. split; [rewrite fill_length; lia|].
  unfold fill. rewrite !elem_of_app. right; left. by apply last_Some_elem_of.
Qed.

Section Shown.
Context (env : Env) (xe : XenEnv) (de : DaemonEnv).
Context (Hadd : forall m t, de_add de m t = mcd_event_add_shared_page xe 0 m t \/
  exists rc, rc <> 0 /\ de_add de m t = Ret rc t).
#[local] Hint Extern 0 (Minf tstate) => exact (minf_transport de) : typeclass_instances.
#[local] Hint Extern 0 (MinfLaws tstate) => exact (transport_laws de xe Hadd) : typeclass_instances.
Implicit Types (s : gstate tstate) (t : tstate).

Lemma filed_managed s t : Inv s -> filed (be s) t -> managed s (s <| be := t |>) /\ abs (s <| be := t |>) = abs s.
Proof using Hadd.
  intros HI Hf. pose proof (be_softly xe de Hadd s t (proj2 HI)) as Hs.
  assert (Ht : t_inv t) by (eapply filed_inv; [done|apply HI]).
  split; [apply softly_managed; auto|apply softly_abs; auto].
Qed.

Lemma granted_any tol (Q : bool -> gstate tstate -> Prop) s :
  (forall ok t, filed (be s) t -> Q ok (s <| be := t |>)) -> wp tol (minf (sys (granted (de_os de)))) Q s.
Proof using.
  intros HQ. apply wp_minf. apply sys_total; [auto with total|]. intros ok t Hf. by apply HQ.
Qed.

(** Nothing but the files and the usage figures changes. *)
Definition looked s s' : Prop := managed s s' /\ abs s' = abs s.

Lemma looked_trans s1 s2 s3 : looked s1 s2 -> looked s2 s3 -> looked s1 s3.
Proof using. intros [H1 H2] [H3 H4]. split; [by eapply managed_trans|congruence]. Qed.

Lemma strdup_spec buf s : Inv s -> 0 ∈ buf -> wp no_fault (strdup de buf) (fun _ s' => looked s s') s.
Proof using Hadd.
  intros HI H0. unfold strdup. destruct (c_string_some _ H0) as [text ->]. wp_steps.
  apply granted_any. intros ok t Hf. wp_steps. by apply filed_managed.
Qed.

Lemma display_call dom option len s : caller_ok 0 s -> Inv s -> 0 <= len < 2 ^ 32 ->
  wp no_fault (do_mcd_op env (mcdctl_op xe) 0 (XENMCD_display_stats (Some (dom, option, len)))) (fun r s' =>
    r.1 = - ERR_NO /\ Forall (inside len) r.2 /\ looked s s') s.
Proof using Hadd.
  intros Hc HI Hl. apply (admin_call_wp env xe de Hadd); [done..|]. cbn [dispatch]. unfold text, mcd_display. wp_steps.
  eapply wp_mono; [by apply display_stats_spec|]. intros ws s1 [Hq Hws]. wp_steps.
  split; [by apply (quiet_Inv s)|]. intros s2 Hq2. split; [done|]. split; [done|].
  pose proof (Remove.quiet_trans s s1 s2 Hq Hq2) as Hq3.
  split; [by apply quiet_managed|]. apply softly_abs; [done|by apply quiet_softly].
Qed.

Lemma libxl_mcd_spec garbage domid is_detail s : length garbage = BUF_LEN -> hv_ok s -> running 0 s ->
  wp no_fault (libxl_mcd env xe de garbage domid is_detail) (fun _ s' => looked s s') s.
Proof using Hadd.
  intros Hg Hv Hr. unfold libxl_mcd, libxl_text, xc_mcd_display_stats, xc_mcd_text. wp_steps.
  apply granted_any. intros ok t Hf. pose proof (filed_managed s t (hv_inv _ Hv) Hf) as Hm1.
  destruct ok; cbn [negb]; wp_steps; [|by cbn; wp_steps].
  unfold xc_mcd_op. wp_steps. apply granted_any. intros ok t2 Hf2.
  pose proof (filed_trans _ _ _ Hf Hf2) as Hf3. pose proof (filed_managed s t2 (hv_inv _ Hv) Hf3) as Hm2.
  change (s <| be := t |> <| be := t2 |>) with (s <| be := t2 |>).
  assert (H0 : 0 ∈ replicate (length garbage) 0).
  { rewrite Hg. apply elem_of_replicate. split; [done|]. pose proof BUF_LEN_Z. lia. }
  destruct ok; cbn [negb]; wp_steps; [|by cbn; wp_steps].
  assert (Hti : t_inv t2) by (eapply filed_inv; [done|by apply (hv_t_inv xe de Hadd)]).
  destruct (hv_be xe de Hadd s t2 Hv Hti) as [Hv2 _].
  eapply wp_mono; [apply (display_call (u16 domid) (u32 is_detail) (buf_len (Some garbage)) (s <| be := t2 |>));
    [apply (hv_caller _ 0 Hv2), Hr|apply Hv2|]|].
  { unfold buf_len. cbn [default from_option id]. rewrite Hg, BUF_LEN_Z. lia. }
  intros [rc ws] s1 (Hrc & Hws & Hl1). cbn [fst snd] in *. subst rc. wp_steps. cbn [fst snd].
  eapply wp_mono; [apply (store_writes_spec ws _ s1); [|exact H0]|].
  { unfold buf_len in Hws. cbn [default from_option id] in Hws. by rewrite length_replicate. }
  intros buf s2 (-> & _ & Hz). wp_steps. cbn [fst snd]. change (if - ERR_NO <? 0 then -1 else - ERR_NO) with 1.
  cbn [Z.ltb Z.compare]. eapply wp_mono; [apply strdup_spec; [apply Hl1|done]|].
  intros r s3 Hl3. eapply looked_trans; [exact Hm2|]. by eapply looked_trans.
Qed.
End Shown.
