(* ===== verification/TDemo.v ===== *)
(** A small machine with a daemon: the state of the whole system after the
    control domain was created and the daemon attached, and the facts about it
    that instantiate the theorems on the transport. *)
From S2P Require Import Prelude CMonad Hash Types State Core Evict Inv Remove Evicted EvictShared EvictPart Alloc Create Ops View OpsLib OpsMake OpsSpec Flush Display Admin AdminSpec Lifecycle Hypercall Reach Ring FileOps FileSpec Mcdctl Daemon Exchange Link PageOut PutFile Turns PutTurn GetTurn GetWait TransportLaws System SystemSpec.

(** An operating system that grants everything, and the memory of a machine on
    which every frame can be mapped. *)
Definition oe1 : OsEnv := mk_os_env (fun _ => true) (fun _ n => n) (fun _ => 0).
Definition xe1 : XenEnv := mk_xen_env Some (fun _ => true) 5 (fun _ => true).
Definition de1 : DaemonEnv := mk_daemon_env oe1 (fun _ _ => 7) (mcd_event_add_shared_page xe1 0).

Definition env1 : Env := {|
  env_now := fun n => 1000000 * (1 + Z.of_nat n);
  env_xmalloc := fun _ _ => true;
  env_avail_pages := fun _ => 3000;
  env_garbage := fun _ _ => 0;
  env_fuel := 64;
  sizeof_mcd_hashT := 96;
  sizeof_mcd_domain := 200;
|}.

Definition known1 : fault -> Prop := fun f => f = NullDeref \/ f = DivByZero \/ f = OutOfBounds.

Lemma env1_now n : env_now env1 n <> 0.
Proof. cbn. lia. Qed.

Lemma add1 m t : de_add de1 m t = mcd_event_add_shared_page xe1 0 m t \/
  exists rc, rc <> 0 /\ de_add de1 m t = Ret rc t.
Proof. by left. Qed.

(** The directory of the files is [/v]; the root directory is there. *)
Definition base1 : path := [[118]].
Definition os1 : os := mk_os {[ [] := FDir ]} ∅ ∅ 0 0.

#[local] Hint Extern 0 (Minf tstate) => exact (minf_transport de1) : typeclass_instances.
#[local] Hint Extern 0 (MinfLaws tstate) => exact (transport_laws de1 xe1 add1) : typeclass_instances.

#[global] Opaque state_after.

Definition demo_boot : gstate tstate := state_after (init_mcd true) (static_state ∅ (no_transport os1)).
Definition start_dom0 : sys_event := SysCache (EvStart 0 (2 ^ 32 - 1) 1000).
Definition sys_dom0 : gstate tstate := state_after (do_sys env1 xe1 de1 start_dom0) demo_boot.
Definition sys_up : gstate tstate := state_after (daemon_start env1 xe1 de1 base1) sys_dom0.

Lemma sys_boot_run : init_mcd true (static_state ∅ (no_transport os1)) = Ret (- ERR_NO) demo_boot.
Proof. by vm_compute. Qed.

Lemma reach1 n s : (n <= 64)%nat -> sys_reach env1 xe1 de1 ∅ n s -> hv_ok s /\ (num s <= n)%nat.
Proof.
  intros Hn Hr. apply (sys_reach_ok env1 xe1 de1 add1 known1 (or_introl eq_refl) env1_now (or_intror (or_introl eq_refl))
    (or_intror (or_intror eq_refl)) ∅ n s); [|done..]. intros domid x. by rewrite lookup_empty.
Qed.

Lemma sys_boot_reach : sys_reach env1 xe1 de1 ∅ 0 demo_boot.
Proof. by apply (sys_boot _ _ _ _ os1), sys_boot_run. Qed.

Lemma sys_dom0_run : returns (do_sys env1 xe1 de1 start_dom0) demo_boot (fun _ => true) = true.
Proof. by vm_compute. Qed.

Lemma sys_dom0_reach : sys_reach env1 xe1 de1 ∅ 1 sys_dom0.
Proof.
  destruct (returns_after _ _ _ sys_dom0_run) as ([] & _ & Hr).
  apply (sys_step _ _ _ _ 0 demo_boot start_dom0); [apply sys_boot_reach| |done|].
  - split; [apply not_elem_of_nil|]. right; left. by vm_compute.
  - intros [He _]. by vm_compute in He.
Qed.

Lemma sys_dom0_attachable : attachable xe1 sys_dom0.
Proof. split; try done; try by vm_compute. eexists. split; [by vm_compute|done]. Qed.

Lemma sys_up_run : returns (daemon_start env1 xe1 de1 base1) sys_dom0 id = true.
Proof. by vm_compute. Qed.

Lemma sys_up_post : hv_ok sys_up /\ num sys_up = num sys_dom0 /\ attached sys_up.
Proof.
  destruct (reach1 1 sys_dom0 ltac:(lia) sys_dom0_reach) as [Hv _].
  pose proof (daemon_start_spec env1 xe1 de1 add1 known1 (or_introl eq_refl) env1_now (or_intror (or_introl eq_refl))
    (or_intror (or_intror eq_refl)) base1 sys_dom0 Hv sys_dom0_attachable) as Hw.
  destruct (wp_after known1 (daemon_start env1 xe1 de1 base1) _ sys_dom0 id sys_up_run Hw) as ([|] & Hok & _ & HQ);
    [|discriminate Hok].
  unfold init_post in HQ. fold sys_up in HQ. exact HQ.
Qed.

Lemma sys_up_num : (num sys_up < env_fuel env1)%nat.
Proof. destruct sys_up_post as (_ & -> & _). destruct (reach1 1 sys_dom0 ltac:(lia) sys_dom0_reach) as [_ H]. cbn. lia. Qed.

Lemma sys_up_running : running 0 sys_up.
Proof. eexists. split; [by vm_compute|done]. Qed.

Lemma sys_up_caller : caller_ok 0 sys_up.
Proof. apply hv_caller; [apply sys_up_post|apply sys_up_running]. Qed.
