(* ===== verification/Evtchn.v ===== *)
(** Event channels (xen/common/event_channel.c): the ports of a domain, what
    they are bound to, the delivery of events, and polling
    ([do_poll] of xen/common/schedule.c). The transport of the cache notifies
    the daemon through such a channel. *)
From S2P Require Import Prelude CMonad.

Definition DOMID_SELF : Z := 32752.
Definition EVTCHNS_PER_BUCKET : Z := 128.
Definition NR_VIRQS : Z := 24.

(** * The state *)

(** What a port is bound to: the constants [ECS_*] with the member of the
    union that belongs to them. *)
Inductive ecs :=
  | ECS_FREE
  | ECS_RESERVED
  | ECS_UNBOUND (remote_domid : Z)
  | ECS_INTERDOMAIN (remote_dom remote_port : Z)
  | ECS_PIRQ (irq next_port prev_port : Z)
  | ECS_VIRQ (virq : Z)
  | ECS_IPI.

Record evtchn := mk_evtchn {
  ec_state : ecs;
  ec_xen : bool;       (** [consumer_is_xen] *)
  ec_notify : Z;       (** [notify_vcpu_id] *)
}.
#[export] Instance eta_evtchn : Eta evtchn := fun r => mk_evtchn (ec_state r) (ec_xen r) (ec_notify r).

(** A channel of a bucket that was just zeroed. *)
Definition zero_chn : evtchn := mk_evtchn ECS_FREE false 0.

(** A bucket of channels; the array of a domain may keep the address of one
    that was freed. *)
Inductive bucket := Live (chns : list evtchn) | Freed.

Record vcpu := mk_vcpu {
  vc_virqs : list Z;           (** [virq_to_evtchn] *)
  vc_pirq_head : Z;            (** [pirq_evtchn_head] *)
  vc_poll : Z;                 (** [poll_evtchn] *)
  vc_blocked : bool;           (** [_VPF_blocked] *)
  vc_blocked_in_xen : bool;    (** [_VPF_blocked_in_xen] *)
  vc_sel : gset Z;             (** [evtchn_pending_sel] *)
  vc_upcall : bool;            (** [evtchn_upcall_pending] *)
}.
#[export] Instance eta_vcpu : Eta vcpu := fun r =>
  mk_vcpu (vc_virqs r) (vc_pirq_head r) (vc_poll r) (vc_blocked r) (vc_blocked_in_xen r) (vc_sel r) (vc_upcall r).

Record edom := mk_edom {
  ed_dying : bool;
  ed_hvm : bool;
  ed_hvm_vector : bool;          (** events come as a vector ([is_hvm_pv_evtchn_domain]) *)
  ed_32bit : bool;               (** [has_32bit_shinfo] *)
  ed_buckets : gmap Z bucket;    (** [evtchn] *)
  ed_pirqs : list Z;             (** [pirq_to_evtchn], [nr_pirqs] long *)
  ed_max_vcpus : Z;
  ed_vcpus : gmap Z vcpu;
  ed_pending : gset Z;           (** [evtchn_pending] *)
  ed_mask : gset Z;              (** [evtchn_mask] *)
  ed_poll_mask : gset Z;
}.
#[export] Instance eta_edom : Eta edom := fun r =>
  mk_edom (ed_dying r) (ed_hvm r) (ed_hvm_vector r) (ed_32bit r) (ed_buckets r) (ed_pirqs r) (ed_max_vcpus r) (ed_vcpus r)
    (ed_pending r) (ed_mask r) (ed_poll_mask r).

(** The domains that exist, and a counter of allocations. *)
Record estate := mk_estate { es_doms : gmap Z edom; es_tick : nat }.
#[export] Instance eta_estate : Eta estate := fun r => mk_estate (es_doms r) (es_tick r).

(** What the rest of the hypervisor decides: the allocator, privileges, the
    security hooks, and the binding of physical interrupts. *)
Record EvtEnv := mk_evt_env {
  ee_xmalloc : nat -> bool;
  ee_priv : Z -> Z -> bool;                   (** [IS_PRIV_FOR] *)
  ee_xsm_alloc : Z -> Z -> bool;
  ee_xsm_unbound : Z -> Z -> Z -> Z;
  ee_xsm_interdomain : Z -> Z -> Z -> Z -> Z;
  ee_xsm_send : Z -> Z -> Z;
  ee_xsm_status : Z -> Z -> Z;
  ee_xsm_reset : Z -> Z -> Z;
  ee_irq_permitted : Z -> Z -> bool;
  ee_pirq_guest_bind : Z -> Z -> bool -> Z;
}.

Definition BITS_PER_EVTCHN_WORD (d : edom) : Z := if ed_32bit d then 32 else 64.
Definition MAX_EVTCHNS (d : edom) : Z := BITS_PER_EVTCHN_WORD d * BITS_PER_EVTCHN_WORD d.

Definition port_is_valid (d : edom) (p : Z) : bool :=
  (0 <=? p) && (p <? MAX_EVTCHNS d) && bool_decide (is_Some (ed_buckets d !! (p / EVTCHNS_PER_BUCKET))).

Definition slot_of (p : Z) : nat := Z.to_nat (Z.land p (EVTCHNS_PER_BUCKET - 1)).

Section Evtchn.
Context (env : EvtEnv).
Abbreviation E := (M estate).
Implicit Types (d port v : Z).

(** * Access

    A domain, a virtual processor or a channel that is not there is a NULL
    pointer; a domain that is gone leaves a dangling one. *)

Definition dom_read d : E edom :=
  s ← get;
  match es_doms s !! d with Some dd => mret dd | None => raise UseAfterFree end.
Definition dom_write d (f : edom -> edom) : E unit :=
  modify (fun s => s <| es_doms ::= alter f d |>).

Definition vcpu_read d v : E vcpu :=
  dd ← dom_read d;
  match ed_vcpus dd !! v with Some x => mret x | None => raise NullDeref end.
Definition vcpu_write d v (f : vcpu -> vcpu) : E unit := dom_write d (fun dd => dd <| ed_vcpus ::= alter f v |>).

Definition evtchn_from_port d port : E evtchn :=
  dd ← dom_read d;
  match ed_buckets dd !! (port / EVTCHNS_PER_BUCKET) with
  | None => raise NullDeref
  | Some Freed => raise UseAfterFree
  | Some (Live chns) => match chns !! slot_of port with Some c => mret c | None => raise OutOfBounds end
  end.

Definition put_chn port (f : evtchn -> evtchn) (dd : edom) : edom :=
  dd <| ed_buckets ::= alter (fun b => match b with
                                       | Live chns => Live (alter f (slot_of port) chns)
                                       | Freed => Freed
                                       end) (port / EVTCHNS_PER_BUCKET) |>.
Definition chn_write d port (f : evtchn -> evtchn) : E unit :=
  _ ← evtchn_from_port d port; dom_write d (put_chn port f).

(** Cells of the arrays of ports. *)
Definition cell (l : list Z) (i : Z) : E Z :=
  if i <? 0 then raise OutOfBounds
  else match l !! Z.to_nat i with Some x => mret x | None => raise OutOfBounds end.
Definition virq_read d v virq : E Z := x ← vcpu_read d v; cell (vc_virqs x) virq.
Definition virq_write d v virq port : E unit :=
  _ ← virq_read d v virq; vcpu_write d v (fun x => x <| vc_virqs ::= <[Z.to_nat virq := port]> |>).
Definition pirq_read d pirq : E Z := dd ← dom_read d; cell (ed_pirqs dd) pirq.
Definition pirq_write d pirq port : E unit :=
  _ ← pirq_read d pirq; dom_write d (fun dd => dd <| ed_pirqs ::= <[Z.to_nat pirq := port]> |>).

(** * Delivery *)

Definition virq_is_global (virq : Z) : bool := negb ((virq =? 0) || (virq =? 1) || (virq =? 7)).

(** The scheduler, which [vcpu_wake] tells, has no part in the state. *)
Definition vcpu_unblock d v : E unit :=
  x ← vcpu_read d v;
  if negb (vc_blocked x) then mret tt
  else
    vcpu_write d v (fun x => x <| vc_blocked := false |>);;
    if vc_poll x =? 0 then mret tt
    else
      vcpu_write d v (fun x => x <| vc_poll := 0 |>);;
      dd ← dom_read d;
      if bool_decide (v ∈ ed_poll_mask dd) then
        dom_write d (fun dd => dd <| ed_poll_mask ::= fun m => m ∖ {[v]} |>);;
        vcpu_write d v (fun x => x <| vc_blocked := false |>)
      else mret tt.

(** The interrupt that makes the processor look, on another processor, has no
    part in the state. *)
Definition vcpu_kick d v : E unit := vcpu_unblock d v.

(** The interrupt controllers that the events of an HVM domain otherwise go
    through have no part in the state. *)
Definition hvm_assert_evtchn_irq d v : E unit :=
  dd ← dom_read d;
  if ed_hvm_vector dd then vcpu_kick d v else mret tt.

Definition vcpu_mark_events_pending d v : E unit :=
  x ← vcpu_read d v;
  vcpu_write d v (fun x => x <| vc_upcall := true |>);;
  if vc_upcall x then mret tt
  else
    dd ← dom_read d;
    if ed_hvm dd then hvm_assert_evtchn_irq d v else vcpu_kick d v.

(** The visit of one poller. *)
Definition wake_poller d port (vcpuid : Z) (_ : unit) : E (loopctl unit) :=
  dd ← dom_read d;
  if bool_decide (vcpuid ∈ ed_poll_mask dd) then
    x ← vcpu_read d vcpuid;
    if (vc_poll x <=? 0) || (vc_poll x =? port) then
      dom_write d (fun dd => dd <| ed_poll_mask ::= fun m => m ∖ {[vcpuid]} |>);;
      vcpu_write d vcpuid (fun x => x <| vc_poll := 0 |>);;
      vcpu_unblock d vcpuid;;
      mret (Continue tt)
    else mret (Continue tt)
  else mret (Continue tt).

Definition vcpu_ids (dd : edom) : list Z := seqZ 0 (ed_max_vcpus dd).

Definition evtchn_set_pending d v port : E Z :=
  x ← vcpu_read d v;
  dd ← dom_read d;
  if bool_decide (port ∈ ed_pending dd) then mret 1
  else
    dom_write d (fun dd => dd <| ed_pending ::= fun m => m ∪ {[port]} |>);;
    let word := port / BITS_PER_EVTCHN_WORD dd in
    (if bool_decide (port ∈ ed_mask dd) then mret tt
     else
       vcpu_write d v (fun x => x <| vc_sel ::= fun m => m ∪ {[word]} |>);;
       if bool_decide (word ∈ vc_sel x) then mret tt else vcpu_mark_events_pending d v);;
    dd ← dom_read d;
    if forallb (fun i => bool_decide (i ∉ ed_poll_mask dd)) (vcpu_ids dd) then mret 0
    else
      for_each (vcpu_ids dd) (wake_poller d port) tt;;
      mret 0.

(** * Binding *)

(** The first free port below the first invalid one; or that one. *)
Fixpoint free_scan (n : nat) d port : E (Z + Z) :=
  dd ← dom_read d;
  if port_is_valid dd port then
    match n with
    | O => nofuel
    | S n =>
        c ← evtchn_from_port d port;
        match ec_state c with
        | ECS_FREE => mret (inl port)
        | _ => free_scan n d (port + 1)
        end
    end
  else mret (inr port).

Definition xmalloc : E bool :=
  s ← get;
  modify (fun s => s <| es_tick ::= S |>);;
  mret (ee_xmalloc env (es_tick s)).

Definition get_free_port d : E Z :=
  dd ← dom_read d;
  if ed_dying dd then mret (- EINVAL)
  else
    r ← free_scan (Z.to_nat (MAX_EVTCHNS dd)) d 0;
    match r with
    | inl port => mret port
    | inr port =>
        if port =? MAX_EVTCHNS dd then mret (- ENOSPC)
        else
          ok ← xmalloc;
          if negb (ok : bool) then mret (- ENOMEM)
          else
            let put b := dom_write d (fun dd => dd <| ed_buckets ::= <[port / EVTCHNS_PER_BUCKET := b]> |>) in
            put (Live (replicate (Z.to_nat EVTCHNS_PER_BUCKET) zero_chn));;
            if forallb (fun i => ee_xsm_alloc env d (port + i)) (seqZ 0 EVTCHNS_PER_BUCKET) then mret port
            else put Freed;; mret (- ENOMEM)
    end.

(** The domain an operation is meant for, or the error. *)
Definition rcu_lock_target_domain_by_id (cur dom : Z) : E (Z + Z) :=
  if dom =? DOMID_SELF then mret (inr cur)
  else
    s ← get;
    match es_doms s !! dom with
    | None => mret (inl (- ESRCH))
    | Some _ => mret (if ee_priv env cur dom then inr dom else inl (- EPERM))
    end.

(** The operations answer with their result and the port they set. *)
Definition evtchn_alloc_unbound (cur dom remote_dom : Z) : E (Z * Z) :=
  r ← rcu_lock_target_domain_by_id cur dom;
  match r with
  | inl rc => mret (rc, 0)
  | inr d =>
      port ← get_free_port d;
      if port <? 0 then mret (port, 0)
      else
        let rc := ee_xsm_unbound env d port remote_dom in
        if negb (rc =? 0) then mret (rc, 0)
        else
          let remote := if remote_dom =? DOMID_SELF then cur else remote_dom in
          chn_write d port (fun c => c <| ec_state := ECS_UNBOUND remote |>);;
          mret (0, port)
  end.

Definition evtchn_bind_interdomain (cur rdom rport : Z) : E (Z * Z) :=
  let rd := if rdom =? DOMID_SELF then cur else rdom in
  s ← get;
  match es_doms s !! rd with
  | None => mret (- ESRCH, 0)
  | Some _ =>
      lport ← get_free_port cur;
      if lport <? 0 then mret (lport, 0)
      else
        rdd ← dom_read rd;
        if negb (port_is_valid rdd rport) then mret (- EINVAL, 0)
        else
          rchn ← evtchn_from_port rd rport;
          match ec_state rchn with
          | ECS_UNBOUND remote =>
              if negb (remote =? cur) then mret (- EINVAL, 0)
              else
                let rc := ee_xsm_interdomain env cur lport rd rport in
                if negb (rc =? 0) then mret (rc, 0)
                else
                  chn_write cur lport (fun c => c <| ec_state := ECS_INTERDOMAIN rd (u16 rport) |>);;
                  chn_write rd rport (fun c => c <| ec_state := ECS_INTERDOMAIN cur (u16 lport) |>);;
                  lchn ← evtchn_from_port cur lport;
                  _ ← evtchn_set_pending cur (ec_notify lchn) lport;
                  mret (0, lport)
          | _ => mret (- EINVAL, 0)
          end
  end.

Definition has_vcpu (dd : edom) v : bool :=
  (0 <=? v) && (v <? ed_max_vcpus dd) && bool_decide (is_Some (ed_vcpus dd !! v)).

Definition evtchn_bind_virq (cur virq vcpu_id : Z) : E (Z * Z) :=
  if (virq <? 0) || (NR_VIRQS <=? virq) then mret (- EINVAL, 0)
  else if virq_is_global virq && negb (vcpu_id =? 0) then mret (- EINVAL, 0)
  else
    dd ← dom_read cur;
    if negb (has_vcpu dd vcpu_id) then mret (- ENOENT, 0)
    else
      old ← virq_read cur vcpu_id virq;
      if negb (old =? 0) then mret (- EEXIST, 0)
      else
        port ← get_free_port cur;
        if port <? 0 then mret (port, 0)
        else
          chn_write cur port (fun c => c <| ec_state := ECS_VIRQ (u16 virq) |> <| ec_notify := u16 vcpu_id |>);;
          virq_write cur vcpu_id virq (u16 port);;
          mret (0, port).

Definition evtchn_bind_ipi (cur vcpu_id : Z) : E (Z * Z) :=
  dd ← dom_read cur;
  if negb (has_vcpu dd vcpu_id) then mret (- ENOENT, 0)
  else
    port ← get_free_port cur;
    if port <? 0 then mret (port, 0)
    else
      chn_write cur port (fun c => c <| ec_state := ECS_IPI |> <| ec_notify := u16 vcpu_id |>);;
      mret (0, port).

(** Writing the links of a port; in a channel that is not bound to a physical
    interrupt this would write another member of the union. *)
Definition pirq_links d port (f : Z -> Z -> Z * Z) : E unit :=
  c ← evtchn_from_port d port;
  match ec_state c with
  | ECS_PIRQ irq n q => chn_write d port (fun c => c <| ec_state := ECS_PIRQ irq (fst (f n q)) (snd (f n q)) |>)
  | _ => raise BadList
  end.

Definition link_pirq_port d port v : E unit :=
  x ← vcpu_read d v;
  let head := vc_pirq_head x in
  pirq_links d port (fun _ _ => (u16 head, 0));;
  (if head =? 0 then mret tt else pirq_links d head (fun n _ => (n, u16 port)));;
  vcpu_write d v (fun x => x <| vc_pirq_head := port |>).

Definition unlink_pirq_port d port v : E unit :=
  c ← evtchn_from_port d port;
  match ec_state c with
  | ECS_PIRQ _ next prev =>
      (if prev =? 0 then vcpu_write d v (fun x => x <| vc_pirq_head := next |>)
       else pirq_links d prev (fun _ q => (next, q)));;
      (if next =? 0 then mret tt else pirq_links d next (fun n _ => (n, prev)))
  | _ => raise BadList
  end.

Definition evtchn_bind_pirq (cur pirq : Z) (will_share : bool) : E (Z * Z) :=
  dd ← dom_read cur;
  if (pirq <? 0) || (Z.of_nat (length (ed_pirqs dd)) <=? pirq) then mret (- EINVAL, 0)
  else if negb (ed_hvm dd) && negb (ee_irq_permitted env cur pirq) then mret (- EPERM, 0)
  else
    old ← pirq_read cur pirq;
    if negb (old =? 0) then mret (- EEXIST, 0)
    else
      port ← get_free_port cur;
      if port <? 0 then mret (port, 0)
      else
        pirq_write cur pirq (u16 port);;
        let rc := if ed_hvm dd then 0 else ee_pirq_guest_bind env cur pirq will_share in
        if negb (rc =? 0) then pirq_write cur pirq 0;; mret (rc, 0)
        else
          chn_write cur port (fun c => c <| ec_state := ECS_PIRQ (u16 pirq) 0 0 |>);;
          link_pirq_port cur port 0;;
          mret (0, port).

(** * Closing *)

(** The visit of one processor by the closing of a virtual interrupt. *)
Definition clear_virq d virq port (vcpuid : Z) (_ : unit) : E (loopctl unit) :=
  dd ← dom_read d;
  match ed_vcpus dd !! vcpuid with
  | None => mret (Continue tt)
  | Some x =>
      p ← cell (vc_virqs x) virq;
      if negb (p =? port) then mret (Continue tt)
      else virq_write d vcpuid virq 0;; mret (Continue tt)
  end.

(** The other end of an interdomain channel waits again for a binding. *)
Definition close_peer (d1 d2 port2 : Z) : E unit :=
  s ← get;
  match es_doms s !! d2 with
  | None => raise BugOn
  | Some dd2 =>
      if negb (port_is_valid dd2 port2) then raise BugOn
      else
        chn2 ← evtchn_from_port d2 port2;
        match ec_state chn2 with
        | ECS_INTERDOMAIN back _ =>
            if negb (back =? d1) then raise BugOn
            else chn_write d2 port2 (fun c => c <| ec_state := ECS_UNBOUND d1 |>)
        | _ => raise BugOn
        end
  end.

Definition __evtchn_close (d1 port1 : Z) : E Z :=
  dd ← dom_read d1;
  if negb (port_is_valid dd port1) then mret (- EINVAL)
  else
    chn1 ← evtchn_from_port d1 port1;
    if ec_xen chn1 then mret (- EINVAL)
    else
      let free :=
        dom_write d1 (fun dd => dd <| ed_pending ::= fun m => m ∖ {[port1]} |>);;
        chn_write d1 port1 (fun c => c <| ec_state := ECS_FREE |> <| ec_notify := 0 |>);;
        mret 0 in
      match ec_state chn1 with
      | ECS_FREE | ECS_RESERVED => mret (- EINVAL)
      | ECS_UNBOUND _ | ECS_IPI => free
      | ECS_PIRQ irq _ _ =>
          pirq_write d1 irq 0;;
          unlink_pirq_port d1 port1 (ec_notify chn1);;
          free
      | ECS_VIRQ virq => for_each (vcpu_ids dd) (clear_virq d1 virq port1) tt;; free
      | ECS_INTERDOMAIN d2 port2 => close_peer d1 d2 port2;; free
      end.

Definition evtchn_close (cur port : Z) : E Z := __evtchn_close cur port.

(** * Sending *)

Definition evtchn_send (ld lport : Z) : E Z :=
  dd ← dom_read ld;
  if negb (port_is_valid dd lport) then mret (- EINVAL)
  else
    lchn ← evtchn_from_port ld lport;
    if ec_xen lchn then mret (- EINVAL)
    else
      let rc := ee_xsm_send env ld lport in
      if negb (rc =? 0) then mret rc
      else match ec_state lchn with
        | ECS_INTERDOMAIN rd rport =>
            rchn ← evtchn_from_port rd rport;
            (if ec_xen rchn then
               _ ← vcpu_read rd (ec_notify rchn);
               vcpu_write rd (ec_notify rchn) (fun x => x <| vc_blocked_in_xen := false |>)
             else _ ← evtchn_set_pending rd (ec_notify rchn) rport; mret tt);;
            mret 0
        | ECS_IPI => _ ← evtchn_set_pending ld (ec_notify lchn) lport; mret 0
        | ECS_UNBOUND _ => mret 0
        | _ => mret (- EINVAL)
        end.

Definition guest_enabled_event d v virq : E bool :=
  dd ← dom_read d;
  match ed_vcpus dd !! v with
  | None => mret false
  | Some x => p ← cell (vc_virqs x) virq; mret (negb (p =? 0))
  end.

Definition send_guest_vcpu_virq d v virq : E unit :=
  if virq_is_global virq then raise BugOn
  else
    port ← virq_read d v virq;
    if port =? 0 then mret tt else _ ← evtchn_set_pending d v port; mret tt.

Definition send_guest_global_virq d virq : E unit :=
  if negb (virq_is_global virq) then raise BugOn
  else
    dd ← dom_read d;
    match ed_vcpus dd !! 0 with
    | None => mret tt
    | Some _ =>
        port ← virq_read d 0 virq;
        if port =? 0 then mret tt
        else
          chn ← evtchn_from_port d port;
          _ ← evtchn_set_pending d (ec_notify chn) port;
          mret tt
    end.

Definition send_guest_pirq d pirq : E Z :=
  port ← pirq_read d pirq;
  if port =? 0 then
    dd ← dom_read d;
    if ed_hvm dd then mret 0 else raise BugOn
  else
    chn ← evtchn_from_port d port;
    evtchn_set_pending d (ec_notify chn) port.

(** * Looking and moving *)

Inductive evtchn_stat :=
  | EVTCHNSTAT_closed
  | EVTCHNSTAT_unbound (dom : Z)
  | EVTCHNSTAT_interdomain (dom port : Z)
  | EVTCHNSTAT_pirq (pirq : Z)
  | EVTCHNSTAT_virq (virq : Z)
  | EVTCHNSTAT_ipi.

(** The status of a port and the processor it notifies. *)
Definition evtchn_status (cur dom port : Z) : E (Z * option (evtchn_stat * Z)) :=
  r ← rcu_lock_target_domain_by_id cur dom;
  match r with
  | inl rc => mret (rc, None)
  | inr d =>
      dd ← dom_read d;
      if negb (port_is_valid dd port) then mret (- EINVAL, None)
      else
        chn ← evtchn_from_port d port;
        let rc := ee_xsm_status env d port in
        if negb (rc =? 0) then mret (rc, None)
        else
          st ← (match ec_state chn with
                | ECS_FREE | ECS_RESERVED => mret EVTCHNSTAT_closed
                | ECS_UNBOUND remote => mret (EVTCHNSTAT_unbound remote)
                | ECS_INTERDOMAIN rd rport => _ ← dom_read rd; mret (EVTCHNSTAT_interdomain rd rport)
                | ECS_PIRQ irq _ _ => mret (EVTCHNSTAT_pirq irq)
                | ECS_VIRQ virq => mret (EVTCHNSTAT_virq virq)
                | ECS_IPI => mret EVTCHNSTAT_ipi
                end);
          mret (0, Some (st, ec_notify chn))
  end.

Definition evtchn_bind_vcpu (cur port vcpu_id : Z) : E Z :=
  dd ← dom_read cur;
  if negb (has_vcpu dd vcpu_id) then mret (- ENOENT)
  else if negb (port_is_valid dd port) then mret (- EINVAL)
  else
    chn ← evtchn_from_port cur port;
    if ec_xen chn then mret (- EINVAL)
    else
      let notify := chn_write cur port (fun c => c <| ec_notify := u16 vcpu_id |>) in
      match ec_state chn with
      | ECS_VIRQ virq => if virq_is_global virq then notify;; mret 0 else mret (- EINVAL)
      | ECS_UNBOUND _ | ECS_INTERDOMAIN _ _ => notify;; mret 0
      | ECS_PIRQ _ _ _ =>
          if ec_notify chn =? vcpu_id then mret 0
          else
            unlink_pirq_port cur port (ec_notify chn);;
            notify;;
            link_pirq_port cur port vcpu_id;;
            mret 0
      | _ => mret (- EINVAL)
      end.

Definition evtchn_unmask (cur port : Z) : E Z :=
  dd ← dom_read cur;
  if negb (port_is_valid dd port) then mret (- EINVAL)
  else
    chn ← evtchn_from_port cur port;
    let v := ec_notify chn in
    dom_write cur (fun dd => dd <| ed_mask ::= fun m => m ∖ {[port]} |>);;
    if bool_decide (port ∈ ed_mask dd) && bool_decide (port ∈ ed_pending dd) then
      x ← vcpu_read cur v;
      let word := port / BITS_PER_EVTCHN_WORD dd in
      vcpu_write cur v (fun x => x <| vc_sel ::= fun m => m ∪ {[word]} |>);;
      (if bool_decide (word ∈ vc_sel x) then mret tt else vcpu_mark_events_pending cur v);;
      mret 0
    else mret 0.

(** A loop over the ports of a domain up to the first that is not valid. *)
Fixpoint each_port (n : nat) d (f : Z -> E unit) port : E unit :=
  dd ← dom_read d;
  if port_is_valid dd port then
    match n with
    | O => nofuel
    | S n => f port;; each_port n d f (port + 1)
    end
  else mret tt.

Definition evtchn_reset (cur dom : Z) : E Z :=
  r ← rcu_lock_target_domain_by_id cur dom;
  match r with
  | inl rc => mret rc
  | inr d =>
      let rc := ee_xsm_reset env cur d in
      if negb (rc =? 0) then mret rc
      else
        dd ← dom_read d;
        each_port (Z.to_nat (MAX_EVTCHNS dd)) d (fun port => _ ← __evtchn_close d port; mret tt) 0;;
        mret 0
  end.

(** The interrupts whose affinity is set, in order. *)
Fixpoint pirq_walk (n : nat) d port (irqs : list Z) : E (list Z) :=
  if port =? 0 then mret irqs
  else match n with
    | O => nofuel
    | S n =>
        chn ← evtchn_from_port d port;
        match ec_state chn with
        | ECS_PIRQ irq next _ => pirq_walk n d next (irqs ++ [irq])
        | _ => raise BadList
        end
    end.
Definition evtchn_move_pirqs d v : E (list Z) :=
  dd ← dom_read d;
  x ← vcpu_read d v;
  pirq_walk (Z.to_nat (MAX_EVTCHNS dd)) d (vc_pirq_head x) [].

(** * Channels of the hypervisor *)

Definition alloc_unbound_xen_event_channel d v (remote_domid : Z) : E Z :=
  port ← get_free_port d;
  if port <? 0 then mret port
  else
    chn_write d port (fun c => c <| ec_state := ECS_UNBOUND remote_domid |> <| ec_xen := true |> <| ec_notify := u16 v |>);;
    mret port.

Definition free_xen_event_channel d port : E unit :=
  dd ← dom_read d;
  if ed_dying dd then mret tt
  else if negb (port_is_valid dd port) then raise BugOn
  else
    chn ← evtchn_from_port d port;
    if negb (ec_xen chn) then raise BugOn
    else
      chn_write d port (fun c => c <| ec_xen := false |>);;
      _ ← __evtchn_close d port;
      mret tt.

Definition notify_via_xen_event_channel (ld lport : Z) : E unit :=
  dd ← dom_read ld;
  if ed_dying dd then mret tt
  else if negb (port_is_valid dd lport) then raise BugOn
  else
    lchn ← evtchn_from_port ld lport;
    if negb (ec_xen lchn) then raise BugOn
    else match ec_state lchn with
      | ECS_INTERDOMAIN rd rport =>
          rchn ← evtchn_from_port rd rport;
          _ ← evtchn_set_pending rd (ec_notify rchn) rport;
          mret tt
      | _ => mret tt
      end.

(** * Domains *)

Definition evtchn_init d : E Z :=
  port ← get_free_port d;
  if negb (port =? 0) then mret (- EINVAL)
  else
    chn_write d 0 (fun c => c <| ec_state := ECS_RESERVED |>);;
    ok ← xmalloc;
    if negb (ok : bool) then mret (- ENOMEM)
    else dom_write d (fun dd => dd <| ed_poll_mask := ∅ |>);; mret 0.

Definition evtchn_destroy d : E unit :=
  dd ← dom_read d;
  if negb (ed_dying dd) then raise BugOn
  else
    each_port (Z.to_nat (MAX_EVTCHNS dd)) d
      (fun port => chn_write d port (fun c => c <| ec_xen := false |>);; _ ← __evtchn_close d port; mret tt) 0;;
    dom_write d (fun dd => dd <| ed_buckets := ∅ |>).

(** The bitmap of the pollers is freed with the domain. *)
Definition evtchn_destroy_final d : E unit := dom_write d (fun dd => dd <| ed_poll_mask := ∅ |>).

(** * Polling

    [deliver] is what [local_events_need_delivery] says, [okay] what
    [guest_handle_okay] says of the array of ports, of which a cell that does
    not copy is [None]. *)
Fixpoint poll_ports (dd : edom) (ports : list (option Z)) : option Z :=
  match ports with
  | [] => None
  | None :: _ => Some (- EFAULT)
  | Some port :: ports =>
      if MAX_EVTCHNS dd <=? port then Some (- EINVAL)
      else if bool_decide (port ∈ ed_pending dd) then Some 0
      else poll_ports dd ports
  end.

Definition do_poll d v (okay deliver : bool) (ports : list (option Z)) : E Z :=
  if 128 <? Z.of_nat (length ports) then mret (- EINVAL)
  else if negb okay then mret (- EFAULT)
  else
    _ ← vcpu_read d v;
    vcpu_write d v (fun x => x <| vc_blocked := true |> <| vc_poll := -1 |>);;
    dom_write d (fun dd => dd <| ed_poll_mask ::= fun m => m ∪ {[v]} |>);;
    dd ← dom_read d;
    let out rc :=
      vcpu_write d v (fun x => x <| vc_poll := 0 |> <| vc_blocked := false |>);;
      dom_write d (fun dd => dd <| ed_poll_mask ::= fun m => m ∖ {[v]} |>);;
      mret rc in
    if deliver then out 0
    else match poll_ports dd ports with
      | Some rc => out rc
      | None =>
          match ports with
          | [Some port] => vcpu_write d v (fun x => x <| vc_poll := port |>);; mret 0
          | _ => mret 0
          end
      end.

(** * The hypercall

    The argument of a command, or [None] when it cannot be read; [writable]
    says whether the answer can be written back. *)
Inductive evtchn_op :=
  | EVTCHNOP_alloc_unbound (dom remote_dom : Z)
  | EVTCHNOP_bind_interdomain (remote_dom remote_port : Z)
  | EVTCHNOP_bind_virq (virq vcpu_id : Z)
  | EVTCHNOP_bind_ipi (vcpu_id : Z)
  | EVTCHNOP_bind_pirq (pirq : Z) (will_share : bool)
  | EVTCHNOP_close (port : Z)
  | EVTCHNOP_send (port : Z)
  | EVTCHNOP_status (dom port : Z)
  | EVTCHNOP_bind_vcpu (port vcpu_id : Z)
  | EVTCHNOP_unmask (port : Z)
  | EVTCHNOP_reset (dom : Z)
  | EVTCHNOP_other.

(** What is written back. *)
Inductive evtchn_out := NoOut | OutPort (port : Z) | OutStatus (st : option (evtchn_stat * Z)).

Definition written (writable : bool) (rc : Z) (out : evtchn_out) : Z * evtchn_out :=
  if rc =? 0 then if writable then (0, out) else (- EFAULT, NoOut) else (rc, NoOut).

Definition do_event_channel_op (cur : Z) (writable : bool) (arg : option evtchn_op) : E (Z * evtchn_out) :=
  let back (m : E (Z * Z)) := r ← m; mret (written writable (fst r) (OutPort (snd r))) in
  let plain (m : E Z) := rc ← m; mret (rc, NoOut) in
  match arg with
  | None => mret (- EFAULT, NoOut)
  | Some op =>
      match op with
      | EVTCHNOP_alloc_unbound dom remote_dom => back (evtchn_alloc_unbound cur (u16 dom) (u16 remote_dom))
      | EVTCHNOP_bind_interdomain rdom rport => back (evtchn_bind_interdomain cur (u16 rdom) (s32 rport))
      | EVTCHNOP_bind_virq virq vcpu_id => back (evtchn_bind_virq cur (s32 virq) (s32 vcpu_id))
      | EVTCHNOP_bind_ipi vcpu_id => back (evtchn_bind_ipi cur (s32 vcpu_id))
      | EVTCHNOP_bind_pirq pirq share => back (evtchn_bind_pirq cur (s32 pirq) share)
      | EVTCHNOP_close port => plain (evtchn_close cur (s32 port))
      | EVTCHNOP_send port => plain (evtchn_send cur (u32 port))
      | EVTCHNOP_status dom port =>
          r ← evtchn_status cur (u16 dom) (s32 port); mret (written writable (fst r) (OutStatus (snd r)))
      | EVTCHNOP_bind_vcpu port vcpu_id => plain (evtchn_bind_vcpu cur (u32 port) (u32 vcpu_id))
      | EVTCHNOP_unmask port => plain (evtchn_unmask cur (u32 port))
      | EVTCHNOP_reset dom => plain (evtchn_reset cur (u16 dom))
      | EVTCHNOP_other => mret (- ENOSYS, NoOut)
      end
  end.
End Evtchn.
