(* ===== verification/EvtchnInv.v ===== *)
(** The invariant of the event channels: every domain's tables agree with its
    channels, and the two ends of an interdomain channel know each other. *)
From S2P Require Import Prelude CMonad Evtchn.

(** * Channels of a domain *)

Definition chn_at (dd : edom) (p : Z) : option evtchn :=
  match ed_buckets dd !! (p / EVTCHNS_PER_BUCKET) with
  | Some (Live chns) => chns !! slot_of p
  | _ => None
  end.

Lemma chn_slot_lt p : (slot_of p < Z.to_nat EVTCHNS_PER_BUCKET)%nat.
Proof.
  unfold slot_of, EVTCHNS_PER_BUCKET. change (128 - 1) with (Z.ones 7). rewrite Z.land_ones by lia.
  change (2 ^ 7) with 128. pose proof (Z.mod_pos_bound p 128). lia.
Qed.

Lemma slot_split p : p = EVTCHNS_PER_BUCKET * (p / EVTCHNS_PER_BUCKET) + Z.of_nat (slot_of p).
Proof.
  unfold slot_of, EVTCHNS_PER_BUCKET. change (128 - 1) with (Z.ones 7). rewrite Z.land_ones by lia.
  change (2 ^ 7) with 128. pose proof (Z.mod_pos_bound p 128). rewrite Z2Nat.id by lia. apply Z.div_mod. lia.
Qed.

Lemma chn_at_put p f dd q : chn_at (put_chn p f dd) q = if decide (p = q) then f <$> chn_at dd q else chn_at dd q.
Proof.
  unfold chn_at, put_chn. cbn. rewrite lookup_alter. case_decide as Hb.
  - rewrite Hb. destruct (ed_buckets dd !! _) as [[chns|]|]; cbn; [|by case_decide..].
    case_decide as Hpq.
    + subst q. by rewrite list_lookup_alter_eq.
    + rewrite list_lookup_alter_ne; [done|]. intros Hs. apply Hpq.
      rewrite (slot_split p), (slot_split q), Hb, Hs. done.
  - case_decide as Hpq; [by subst q|done].
Qed.

Record shape (dd : edom) : Prop := {
  sh_buckets : forall i b, ed_buckets dd !! i = Some b ->
    0 <= i < MAX_EVTCHNS dd / EVTCHNS_PER_BUCKET /\ exists chns, b = Live chns /\ length chns = Z.to_nat EVTCHNS_PER_BUCKET;
  sh_vcpus : forall i x, ed_vcpus dd !! i = Some x ->
    0 <= i < ed_max_vcpus dd /\ i < 2 ^ 16 /\ length (vc_virqs x) = Z.to_nat NR_VIRQS;
  sh_vcpu0 : is_Some (ed_vcpus dd !! 0);
  sh_pirqs : Z.of_nat (length (ed_pirqs dd)) <= 2 ^ 16;
  sh_poll : forall v, v ∈ ed_poll_mask dd -> is_Some (ed_vcpus dd !! v);
  sh_prefix : forall i j, is_Some (ed_buckets dd !! i) -> 0 <= j < i -> is_Some (ed_buckets dd !! j);
}.

Lemma max_evtchns dd : MAX_EVTCHNS dd = 1024 \/ MAX_EVTCHNS dd = 4096.
Proof. unfold MAX_EVTCHNS, BITS_PER_EVTCHN_WORD. destruct (ed_32bit dd); auto. Qed.

Lemma valid_chn dd p : shape dd -> port_is_valid dd p = bool_decide (is_Some (chn_at dd p)).
Proof.
  intros [Hb _ _ _ _ _]. unfold port_is_valid, chn_at.
  destruct (ed_buckets dd !! _) as [b|] eqn:Hl.
  - destruct (Hb _ _ Hl) as (Hi & chns & -> & Hlen).
    destruct (lookup_lt_is_Some_2 chns (slot_of p)) as [c ->]; [rewrite Hlen; apply chn_slot_lt|].
    rewrite !bool_decide_eq_true_2 by done. rewrite andb_true_r.
    assert (0 <= p < MAX_EVTCHNS dd).
    { pose proof (slot_split p) as H1. pose proof (chn_slot_lt p) as H2. unfold EVTCHNS_PER_BUCKET in *.
      destruct (max_evtchns dd) as [Hm|Hm]; rewrite Hm in *;
        [change (1024 / 128) with 8 in Hi|change (4096 / 128) with 32 in Hi]; lia. }
    apply andb_true_iff. split; [apply Z.leb_le|apply Z.ltb_lt]; lia.
  - rewrite !bool_decide_eq_false_2 by (by intros [? ?]). apply andb_false_r.
Qed.

Lemma chn_range dd p c : shape dd -> chn_at dd p = Some c -> 0 <= p < MAX_EVTCHNS dd.
Proof.
  intros Hs Hc. pose proof (valid_chn dd p Hs) as Hv. rewrite bool_decide_eq_true_2 in Hv by (by rewrite Hc).
  unfold port_is_valid in Hv. apply andb_true_iff in Hv as [Hv _]. apply andb_true_iff in Hv as [H1 H2].
  apply Z.leb_le in H1. apply Z.ltb_lt in H2. done.
Qed.

Lemma chn_u16 dd p c : shape dd -> chn_at dd p = Some c -> u16 p = p.
Proof.
  intros Hs Hc. pose proof (chn_range dd p c Hs Hc). apply wrap_id. unfold urange.
  destruct (max_evtchns dd) as [H1|H1]; rewrite H1 in *; lia.
Qed.

(** * What the tables of a domain say *)

Record chn_ok (dd : edom) (c : evtchn) : Prop := {
  co_notify : is_Some (ed_vcpus dd !! ec_notify c);
  co_free : ec_state c = ECS_FREE -> c = zero_chn;
  co_xen : ec_xen c = true -> match ec_state c with ECS_UNBOUND _ | ECS_INTERDOMAIN _ _ => True | _ => False end;
}.

(** The ports bound to physical interrupts that notify a processor. *)
Definition pirq_at (dd : edom) (i p : Z) : Prop :=
  exists c irq n q, chn_at dd p = Some c /\ ec_state c = ECS_PIRQ irq n q /\ ec_notify c = i.

(** A doubly linked list of ports: it starts at [head], the first port points
    back to [prev]. *)
Fixpoint pirq_list (dd : edom) (prev head : Z) (ps : list Z) : Prop :=
  match ps with
  | [] => head = 0
  | p :: ps => head = p /\ p <> 0 /\ exists c irq n, chn_at dd p = Some c /\ ec_state c = ECS_PIRQ irq n prev /\
      pirq_list dd p n ps
  end.

Record dom_ok (dd : edom) : Prop := {
  do_shape : shape dd;
  do_chns : forall p c, chn_at dd p = Some c -> chn_ok dd c;
  do_zero : forall c, chn_at dd 0 = Some c -> ec_state c = ECS_RESERVED;
  do_alive : ed_dying dd = false -> is_Some (chn_at dd 0);
  do_virq : forall i x v p, ed_vcpus dd !! i = Some x -> vc_virqs x !! v = Some p -> p <> 0 ->
    exists c, chn_at dd p = Some c /\ ec_state c = ECS_VIRQ (Z.of_nat v) /\
      (virq_is_global (Z.of_nat v) = false -> ec_notify c = i);
  do_virq_back : forall p c v, chn_at dd p = Some c -> ec_state c = ECS_VIRQ v -> 0 <= v < NR_VIRQS /\
    exists i x, ed_vcpus dd !! i = Some x /\ vc_virqs x !! Z.to_nat v = Some p;
  do_pirq : forall irq p, ed_pirqs dd !! irq = Some p -> p <> 0 ->
    exists c n q, chn_at dd p = Some c /\ ec_state c = ECS_PIRQ (Z.of_nat irq) n q;
  do_pirq_back : forall p c irq n q, chn_at dd p = Some c -> ec_state c = ECS_PIRQ irq n q ->
    0 <= irq /\ ed_pirqs dd !! Z.to_nat irq = Some p;
  do_list : forall i x, ed_vcpus dd !! i = Some x ->
    exists ps, NoDup ps /\ pirq_list dd 0 (vc_pirq_head x) ps /\ forall p, p ∈ ps <-> pirq_at dd i p;
}.

Definition peers (s : estate) : Prop := forall d dd p c rd rp, es_doms s !! d = Some dd -> chn_at dd p = Some c ->
  ec_state c = ECS_INTERDOMAIN rd rp ->
  exists rdd rc, es_doms s !! rd = Some rdd /\ chn_at rdd rp = Some rc /\ ec_state rc = ECS_INTERDOMAIN d p.

Record ewf (s : estate) : Prop := {
  ew_dom : forall d dd, es_doms s !! d = Some dd -> dom_ok dd;
  ew_peers : peers s;
}.

(** * Changes that leave the bindings alone *)

Definition vc_bind (x : vcpu) : list Z * Z := (vc_virqs x, vc_pirq_head x).

Record dsame (dd dd' : edom) : Prop := {
  ds_dying : ed_dying dd' = ed_dying dd;
  ds_hvm : ed_hvm dd' = ed_hvm dd;
  ds_32bit : ed_32bit dd' = ed_32bit dd;
  ds_buckets : ed_buckets dd' = ed_buckets dd;
  ds_pirqs : ed_pirqs dd' = ed_pirqs dd;
  ds_max : ed_max_vcpus dd' = ed_max_vcpus dd;
  ds_vcpus : forall i, vc_bind <$> ed_vcpus dd' !! i = vc_bind <$> ed_vcpus dd !! i;
  ds_poll : forall v, v ∈ ed_poll_mask dd' -> v ∈ ed_poll_mask dd \/ is_Some (ed_vcpus dd !! v);
}.

Lemma dsame_vcpu dd dd' i x : dsame dd dd' -> ed_vcpus dd' !! i = Some x ->
  exists y, ed_vcpus dd !! i = Some y /\ vc_virqs x = vc_virqs y /\ vc_pirq_head x = vc_pirq_head y.
Proof.
  intros Hs Hx. pose proof (ds_vcpus _ _ Hs i) as Hi. rewrite Hx in Hi. destruct (ed_vcpus dd !! i) as [y|]; [|done].
  injection Hi as H1 H2. by exists y.
Qed.

Lemma dsame_has dd dd' i : dsame dd dd' -> is_Some (ed_vcpus dd' !! i) <-> is_Some (ed_vcpus dd !! i).
Proof. intros Hs. by rewrite <- (fmap_is_Some vc_bind), (ds_vcpus _ _ Hs i), fmap_is_Some. Qed.

#[export] Instance dsame_preorder : PreOrder dsame.
Proof.
  split.
  - intros dd. split; auto.
  - intros d1 d2 d3 H1 H2. pose proof (dsame_has d1 d2) as Hh. destruct H1, H2. split; try congruence.
    intros v [Hv|Hv]%ds_poll1; [auto|]. right. apply Hh; [by split|done].
Qed.

Lemma dsame_chn dd dd' p : dsame dd dd' -> chn_at dd' p = chn_at dd p.
Proof. intros Hs. unfold chn_at. by rewrite (ds_buckets _ _ Hs). Qed.

Lemma dsame_max dd dd' : dsame dd dd' -> MAX_EVTCHNS dd' = MAX_EVTCHNS dd.
Proof. intros Hs. unfold MAX_EVTCHNS, BITS_PER_EVTCHN_WORD. by rewrite (ds_32bit _ _ Hs). Qed.

Lemma pirq_list_ext dd dd' prev head ps : (forall p, p ∈ ps -> chn_at dd' p = chn_at dd p) ->
  pirq_list dd prev head ps -> pirq_list dd' prev head ps.
Proof.
  revert prev head. induction ps as [|p ps IH]; intros prev head Hext; cbn; [done|].
  intros (-> & H0 & c & irq & n & Hc & Hst & Hl). split; [done|]. split; [done|]. exists c, irq, n.
  split; [rewrite Hext; [done|by left]|]. split; [done|]. apply IH; [|done]. intros q Hq. apply Hext. by right.
Qed.

Lemma pirq_at_ext dd dd' i p : chn_at dd' p = chn_at dd p -> pirq_at dd' i p <-> pirq_at dd i p.
Proof. intros Hc. unfold pirq_at. by rewrite Hc. Qed.

Lemma dsame_ok dd dd' : dsame dd dd' -> dom_ok dd -> dom_ok dd'.
Proof.
  intros Hs Hok. pose proof (fun p => dsame_chn dd dd' p Hs) as Hc. pose proof Hok as [Hsh H1 H2 H3 H4 H5 H6 H7 H8].
  split.
  - destruct Hsh as [S1 S2 S3 S4 S5 S6]. split.
    + rewrite (ds_buckets _ _ Hs), (dsame_max _ _ Hs). done.
    + intros i x Hx. destruct (dsame_vcpu _ _ _ _ Hs Hx) as (y & Hy & -> & _). rewrite (ds_max _ _ Hs). by apply S2.
    + by apply (dsame_has _ _ _ Hs).
    + by rewrite (ds_pirqs _ _ Hs).
    + intros v [Hv|Hv]%(ds_poll _ _ Hs); apply (dsame_has _ _ _ Hs); auto.
    + by rewrite (ds_buckets _ _ Hs).
  - intros p c Hp. rewrite Hc in Hp. destruct (H1 p c Hp). split; [by apply (dsame_has _ _ _ Hs)|done..].
  - intros c. rewrite Hc. apply H2.
  - rewrite Hc, (ds_dying _ _ Hs). apply H3.
  - intros i x v p Hx Hv Hp. destruct (dsame_vcpu _ _ _ _ Hs Hx) as (y & Hy & Hv' & _). rewrite Hv' in Hv. rewrite Hc. eauto.
  - intros p c v. rewrite Hc. intros Hp Hst. destruct (H5 p c v Hp Hst) as (Hr & i & y & Hy & Hv). split; [done|].
    pose proof (ds_vcpus _ _ Hs i) as Hi. rewrite Hy in Hi. destruct (ed_vcpus dd' !! i) as [x|] eqn:Hx; [|done].
    injection Hi as Hi _. exists i, x. by rewrite Hi.
  - intros irq p. rewrite (ds_pirqs _ _ Hs), Hc. apply H6.
  - intros p c irq n q. rewrite (ds_pirqs _ _ Hs), Hc. apply H7.
  - intros i x Hx. destruct (dsame_vcpu _ _ _ _ Hs Hx) as (y & Hy & _ & ->).
    destruct (H8 i y Hy) as (ps & Hnd & Hl & Hm). exists ps. split; [done|]. split; [eapply pirq_list_ext; [intros p _; apply Hc|done]|].
    intros p. rewrite Hm. symmetry. by apply pirq_at_ext.
Qed.

(** The same for the whole machine. *)
Definition esame (s s' : estate) : Prop := forall d, option_Forall2 dsame (es_doms s !! d) (es_doms s' !! d).

#[export] Instance esame_preorder : PreOrder esame.
Proof.
  split.
  - intros s d. destruct (es_doms s !! d); by constructor.
  - intros s1 s2 s3 H1 H2 d. specialize (H1 d). specialize (H2 d).
    inversion H1 as [x y Hxy Ex Ey|Ex Ey]; rewrite <- Ey in H2; inversion H2 as [y' z Hyz|]; constructor.
    by transitivity y.
Qed.

Lemma esame_back s s' d dd' : esame s s' -> es_doms s' !! d = Some dd' -> exists dd, es_doms s !! d = Some dd /\ dsame dd dd'.
Proof. intros Hs Hd. specialize (Hs d). rewrite Hd in Hs. inversion Hs; subst; eauto. Qed.

Lemma esame_forth s s' d dd : esame s s' -> es_doms s !! d = Some dd -> exists dd', es_doms s' !! d = Some dd' /\ dsame dd dd'.
Proof. intros Hs Hd. specialize (Hs d). rewrite Hd in Hs. inversion Hs; subst; eauto. Qed.

Lemma esame_ewf s s' : esame s s' -> ewf s -> ewf s'.
Proof.
  intros Hs [H1 H2]. split.
  - intros d dd' Hd. destruct (esame_back _ _ _ _ Hs Hd) as (dd & Hd0 & Hds). eapply dsame_ok; eauto.
  - intros d dd' p c rd rp Hd Hc Hst. destruct (esame_back _ _ _ _ Hs Hd) as (dd & Hd0 & Hds).
    rewrite (dsame_chn _ _ _ Hds) in Hc. destruct (H2 _ _ _ _ _ _ Hd0 Hc Hst) as (rdd & rc & Hrd & Hrc & Hrs).
    destruct (esame_forth _ _ _ _ Hs Hrd) as (rdd' & Hrd' & Hds'). exists rdd', rc.
    split; [done|]. by rewrite (dsame_chn _ _ _ Hds').
Qed.

Lemma esame_doms s s' : es_doms s' = es_doms s -> esame s s'.
Proof. intros Hs d. rewrite Hs. destruct (es_doms s !! d); by constructor. Qed.

(** A change of one domain that leaves its bindings alone. *)
Definition on (d : Z) (f : edom -> edom) (s : estate) : estate := s <| es_doms ::= alter f d |>.

Lemma on_eq d f s dd : es_doms s !! d = Some dd -> es_doms (on d f s) !! d = Some (f dd).
Proof. intros Hd. unfold on. cbn. by rewrite lookup_alter_eq, Hd. Qed.

Lemma on_ne d d' f s : d <> d' -> es_doms (on d f s) !! d' = es_doms s !! d'.
Proof. intros Hd. unfold on. cbn. by rewrite lookup_alter_ne. Qed.

Lemma on_same d f s : (forall dd, es_doms s !! d = Some dd -> dsame dd (f dd)) -> esame s (on d f s).
Proof.
  intros Hf d'. destruct (decide (d = d')) as [<-|Hne].
  - destruct (es_doms s !! d) as [dd|] eqn:Hd; [|unfold on; cbn; rewrite lookup_alter_eq, Hd; constructor].
    rewrite (on_eq d f s dd Hd). constructor. by apply Hf.
  - rewrite on_ne by done. destruct (es_doms s !! d'); by constructor.
Qed.

Lemma vcpu_same dd v f : (forall x, vc_bind (f x) = vc_bind x) -> dsame dd (dd <| ed_vcpus ::= alter f v |>).
Proof.
  intros Hf. split; cbn; auto. intros i. rewrite lookup_alter. case_decide as Hi; [subst v|done].
  destruct (ed_vcpus dd !! i) as [x|]; [|done].
  change (Some (vc_bind (f x)) = Some (vc_bind x)). by rewrite Hf.
Qed.

(** * Access *)

Section Access.
Context (tol : fault -> Prop).
Implicit Types (s : estate) (dd : edom) (c : evtchn) (d p v : Z).

Lemma wp_dom_read d dd Q s : es_doms s !! d = Some dd -> Q dd s -> wp tol (dom_read d) Q s.
Proof using. intros Hd HQ. unfold dom_read. wp_steps. rewrite Hd. by wp_steps. Qed.

Lemma wp_vcpu_read d v dd x Q s : es_doms s !! d = Some dd -> ed_vcpus dd !! v = Some x -> Q x s ->
  wp tol (vcpu_read d v) Q s.
Proof using. intros Hd Hx HQ. unfold vcpu_read. wp_steps. eapply wp_dom_read; [done|]. rewrite Hx. by wp_steps. Qed.

Lemma wp_chn d p dd c Q s : es_doms s !! d = Some dd -> chn_at dd p = Some c -> Q c s -> wp tol (evtchn_from_port d p) Q s.
Proof using.
  intros Hd Hc HQ. unfold evtchn_from_port. wp_steps. eapply wp_dom_read; [done|]. unfold chn_at in Hc.
  destruct (ed_buckets dd !! _) as [[chns|]|]; [|done..]. rewrite Hc. by wp_steps.
Qed.

Lemma wp_chn_write d p f dd c Q s : es_doms s !! d = Some dd -> chn_at dd p = Some c ->
  Q tt (on d (put_chn p f) s) -> wp tol (chn_write d p f) Q s.
Proof using. intros Hd Hc HQ. unfold chn_write. wp_steps. eapply wp_chn; [done..|]. by wp_steps. Qed.

Lemma wp_dom_write d f Q s : Q tt (on d f s) -> wp tol (dom_write d f) Q s.
Proof using. done. Qed.

Lemma wp_vcpu_write d v f Q s : Q tt (on d (fun dd => dd <| ed_vcpus ::= alter f v |>) s) -> wp tol (vcpu_write d v f) Q s.
Proof using. done. Qed.

Lemma wp_cell l i x Q s : 0 <= i -> l !! Z.to_nat i = Some x -> Q x s -> wp tol (cell l i) Q s.
Proof using. intros Hi Hx HQ. unfold cell. destruct (Z.ltb_spec i 0); [lia|]. rewrite Hx. by wp_steps. Qed.
End Access.

(** * Delivery *)

(** The machine with another state of one domain. *)
Definition set_dom (d : Z) (dd : edom) (s : estate) : estate := s <| es_doms ::= <[d := dd]> |>.

Lemma on_set d f s dd : es_doms s !! d = Some dd -> on d f s = set_dom d (f dd) s.
Proof.
  intros Hd. unfold on, set_dom. destruct s as [doms n]. unfold setter. cbn in *. f_equal.
  apply map_eq. intros i. rewrite lookup_alter, lookup_insert. case_decide; [by subst; rewrite Hd|done].
Qed.

Lemma set_dom_eq d dd s : es_doms (set_dom d dd s) !! d = Some dd.
Proof. unfold set_dom. cbn. apply lookup_insert_eq. Qed.

Lemma set_dom_ne d d' dd s : d <> d' -> es_doms (set_dom d dd s) !! d' = es_doms s !! d'.
Proof. intros Hd. unfold set_dom. cbn. by apply lookup_insert_ne. Qed.

Lemma set_set d dd dd' s : set_dom d dd' (set_dom d dd s) = set_dom d dd' s.
Proof. unfold set_dom. destruct s. unfold setter. cbn. f_equal. apply insert_insert_eq. Qed.

Lemma set_id d dd s : es_doms s !! d = Some dd -> set_dom d dd s = s.
Proof. intros Hd. unfold set_dom. destruct s. unfold setter. cbn in *. f_equal. by apply insert_id. Qed.

Lemma set_same d dd dd' s : es_doms s !! d = Some dd -> dsame dd dd' -> esame s (set_dom d dd' s).
Proof. intros Hd Hs. rewrite <- (on_set d (fun _ => dd') s dd) by done. apply on_same. intros y. rewrite Hd. by intros [= <-]. Qed.

(** Updates of one domain in a row become one. *)
Lemma on_set_dom d f dd s : on d f (set_dom d dd s) = set_dom d (f dd) s.
Proof. rewrite (on_set d f _ dd) by apply set_dom_eq. apply set_set. Qed.

Ltac fold_dom :=
  match goal with Hd : es_doms ?s !! ?d = Some ?dd |- context [on ?d ?f ?s] => rewrite (on_set d f s dd Hd) end;
  rewrite ?on_set_dom.

Section Deliver.
Context (tol : fault -> Prop).
Implicit Types (s : estate) (dd : edom) (c : evtchn) (d p v i : Z) (x : vcpu).

(** A processor that does not wait. *)
Definition awake dd i : Prop :=
  (i ∉ ed_poll_mask dd) /\ (exists x, ed_vcpus dd !! i = Some x /\ vc_blocked x = false).

(** What a processor sees of a delivery: its words of pending events and its
    upcall flag are only ever set, and it goes on waiting for what it waited
    for or has been woken. *)
Definition informed dd' i x x' : Prop :=
  vc_sel x ⊆ vc_sel x' /\ (vc_upcall x = true -> vc_upcall x' = true) /\
  (vc_poll x' = vc_poll x \/ awake dd' i).

(** A delivery changes nothing else. *)
Record woken dd dd' : Prop := {
  wk_same : dsame dd dd';
  wk_pending : ed_pending dd' = ed_pending dd;
  wk_mask : ed_mask dd' = ed_mask dd;
  wk_poll : ed_poll_mask dd' ⊆ ed_poll_mask dd;
  wk_left : forall i, i ∈ ed_poll_mask dd -> i ∈ ed_poll_mask dd' \/ awake dd' i;
  wk_awake : forall i, awake dd i -> awake dd' i;
  wk_vcpu : forall i x, ed_vcpus dd !! i = Some x -> exists x', ed_vcpus dd' !! i = Some x' /\ informed dd' i x x';
}.

Lemma woken_refl dd : woken dd dd.
Proof using. split; try done; auto. intros i x Hx. exists x. split; [done|]. split; [done|]. auto. Qed.

Lemma woken_trans (dd1 dd2 dd3 : edom) : woken dd1 dd2 -> woken dd2 dd3 -> woken dd1 dd3.
Proof using.
  intros [A1 A2 A3 A4 A7 A5 A6] [B1 B2 B3 B4 B7 B5 B6].
  split; [by transitivity dd2|congruence|congruence|set_solver| |auto|].
  { intros i [Hi|Hi]%A7; auto. }
  intros i x Hx. destruct (A6 i x Hx) as (y & Hy & Y1 & Y2 & Y3). destruct (B6 i y Hy) as (z & Hz & Z1 & Z2 & Z3).
  exists z. split; [done|]. split; [set_solver|]. split; [auto|]. destruct Y3 as [Y3|Y3]; [|auto].
  destruct Z3 as [Z3|Z3]; [left; congruence|auto].
Qed.

Lemma unblock_spec d v dd x s : es_doms s !! d = Some dd -> ed_vcpus dd !! v = Some x -> vc_poll x = 0 ->
  wp tol (vcpu_unblock d v) (fun _ s' => s' = on d (fun dd => dd <| ed_vcpus ::= alter (fun x => x <| vc_blocked := false |>) v |>) s) s.
Proof using.
  intros Hd Hx Hp. unfold vcpu_unblock. wp_steps. eapply wp_vcpu_read; [done..|].
  destruct (vc_blocked x) eqn:Hb; cbn [negb]; wp_steps.
  - apply wp_vcpu_write. rewrite Hp. cbn. by wp_steps.
  - destruct s as [doms n]. unfold on, setter. cbn in *. f_equal. rewrite (alter_id _ doms); [done|].
    intros y Hy. rewrite Hd in Hy. injection Hy as <-. destruct dd as [a1 a2 a3 a4 a5 a6 vcpus a8 a9 a10]. cbn in *. f_equal.
    apply alter_id. intros y Hy. rewrite Hx in Hy. injection Hy as <-. destruct x. cbn in *. congruence.
Qed.

(** The state of a domain in which a poller has been woken. *)
Definition roused i dd : edom :=
  dd <| ed_poll_mask ::= fun m => m ∖ {[i]} |>
     <| ed_vcpus ::= alter (fun x => x <| vc_poll := 0 |> <| vc_blocked := false |>) i |>.

Lemma roused_awake i dd : is_Some (ed_vcpus dd !! i) -> awake (roused i dd) i.
Proof using.
  intros [x Hx]. unfold awake, roused. cbn. split; [set_solver|]. rewrite lookup_alter_eq, Hx. by eexists.
Qed.

Lemma roused_woken i dd : is_Some (ed_vcpus dd !! i) -> woken dd (roused i dd).
Proof using.
  intros Hi. pose proof (roused_awake i dd Hi) as Ha. split; [|done|done|cbn; set_solver|..].
  - unfold roused. transitivity (dd <| ed_poll_mask ::= fun m => m ∖ {[i]} |>); [split; cbn; auto; set_solver|by apply vcpu_same].
  - intros j Hj. destruct (decide (i = j)) as [->|Hne]; [by right|left; cbn; set_solver].
  - intros j [Hj (x & Hx & Hb)]. destruct (decide (i = j)) as [->|Hne]; [done|]. unfold awake, roused. cbn.
    split; [set_solver|]. rewrite lookup_alter_ne by done. eauto.
  - intros j x Hx. destruct (decide (i = j)) as [->|Hne].
    + eexists. split; [unfold roused; cbn; by rewrite lookup_alter_eq, Hx|]. split; [done|]. split; [done|]. by right.
    + exists x. split; [unfold roused; cbn; by rewrite lookup_alter_ne|]. split; [done|]. auto.
Qed.

Definition waits_for p x : bool := (vc_poll x <=? 0) || (vc_poll x =? p).

Lemma wake_poller_spec d p i dd s : es_doms s !! d = Some dd -> (forall v, v ∈ ed_poll_mask dd -> is_Some (ed_vcpus dd !! v)) ->
  wp tol (wake_poller d p i tt) (fun r s' => r = Continue tt /\ exists dd', s' = set_dom d dd' s /\ woken dd dd' /\
    forall x, i ∈ ed_poll_mask dd -> ed_vcpus dd !! i = Some x -> waits_for p x = true -> awake dd' i) s.
Proof using.
  intros Hd Hpo. unfold wake_poller. wp_steps. eapply wp_dom_read; [done|].
  case_bool_decide as Hi; wp_steps.
  - destruct (Hpo i Hi) as [x Hx]. eapply wp_vcpu_read; [done..|]. fold (waits_for p x).
    destruct (waits_for p x) eqn:Hw; wp_steps.
    + apply wp_dom_write. wp_steps. apply wp_vcpu_write. wp_steps. fold_dom. eapply wp_mono.
      { eapply unblock_spec; [apply set_dom_eq|cbn; by rewrite lookup_alter_eq, Hx|done]. }
      intros _ s' ->. rewrite on_set_dom. wp_steps. split; [done|].
      exists (roused i dd). split.
      { f_equal. unfold roused, setter. cbn. f_equal. rewrite !alter_alter_eq. by apply alter_ext. }
      split; [by apply roused_woken|]. intros y _ _ _. by apply roused_awake.
    + split; [done|]. exists dd. split; [by rewrite set_id|]. split; [apply woken_refl|]. congruence.
  - split; [done|]. exists dd. split; [by rewrite set_id|]. split; [apply woken_refl|]. done.
Qed.

(** Everybody that waits for the port is woken. *)
Lemma wake_all_spec d p ids dd s : es_doms s !! d = Some dd -> (forall v, v ∈ ed_poll_mask dd -> is_Some (ed_vcpus dd !! v)) ->
  wp tol (for_each ids (wake_poller d p) tt) (fun _ s' => exists dd', s' = set_dom d dd' s /\ woken dd dd' /\
    forall i x, i ∈ ids -> i ∈ ed_poll_mask dd -> ed_vcpus dd !! i = Some x -> waits_for p x = true -> awake dd' i) s.
Proof using.
  intros Hd Hpo.
  set (Done := fun (l : list Z) dd' => forall i x, i ∈ ids -> (i ∉ l) -> i ∈ ed_poll_mask dd -> ed_vcpus dd !! i = Some x ->
    waits_for p x = true -> awake dd' i).
  eapply (wp_for_each _ _ (fun l _ s' => exists dd', s' = set_dom d dd' s /\ woken dd dd' /\ Done l dd')).
  - exists dd. split; [by rewrite set_id|]. split; [apply woken_refl|]. by intros i x Hi Hn.
  - intros [] s' (dd' & -> & Hw & HD). exists dd'. split; [done|]. split; [done|]. intros i x Hi. apply HD; [done|apply not_elem_of_nil].
  - intros i l [] s' (dd' & -> & Hw & HD). eapply wp_mono.
    { apply wake_poller_spec; [apply set_dom_eq|]. intros v Hv. apply (dsame_has _ _ _ (wk_same _ _ Hw)), Hpo.
      by apply (wk_poll _ _ Hw). }
    intros r s' (-> & dd2 & -> & Hw2 & Hi). exists dd2. split; [apply set_set|]. split; [by eapply woken_trans|].
    intros j x Hj Hn Hm Hx Hwt. destruct (decide (j = i)) as [->|Hne].
    + destruct (wk_vcpu _ _ Hw i x Hx) as (x' & Hx' & _ & _ & [Hp|Hp]); [|by apply (wk_awake _ _ Hw2)].
      destruct (wk_left _ _ Hw i Hm) as [Hm'|Hm']; [|by apply (wk_awake _ _ Hw2)].
      apply (Hi x'); [done..|]. unfold waits_for. by rewrite Hp.
    + apply (wk_awake _ _ Hw2), (HD j x); try done. by apply not_elem_of_cons.
Qed.

(** An event that arrives: the port is pending; when it was not and it is not
    masked, its word is selected in the processor, which gets an upcall unless
    the word was selected before; whoever polls the port is woken. *)
Record sent v p dd dd' : Prop := {
  se_same : dsame dd dd';
  se_pending : ed_pending dd' = ed_pending dd ∪ {[p]};
  se_mask : ed_mask dd' = ed_mask dd;
  se_upcall : (p ∉ ed_pending dd) -> (p ∉ ed_mask dd) -> forall x, ed_vcpus dd !! v = Some x ->
    let word := p / BITS_PER_EVTCHN_WORD dd in
    exists x', ed_vcpus dd' !! v = Some x' /\ word ∈ vc_sel x' /\ (word ∉ vc_sel x -> vc_upcall x' = true);
  se_woken : (p ∉ ed_pending dd) -> forall i x, ed_vcpus dd !! i = Some x -> i ∈ ed_poll_mask dd ->
    waits_for p x = true -> awake dd' i;
  se_awake : forall i, awake dd i -> awake dd' i;
}.

(** A write that only marks events or wakes. *)
Lemma raise_woken v f dd : (forall x, vc_bind (f x) = vc_bind x /\ vc_sel x ⊆ vc_sel (f x) /\
    (vc_upcall x = true -> vc_upcall (f x) = true) /\ vc_poll (f x) = vc_poll x /\ (vc_blocked x = false -> vc_blocked (f x) = false)) ->
  woken dd (dd <| ed_vcpus ::= alter f v |>).
Proof using.
  intros Hf. split; try done.
  - apply vcpu_same. intros x. apply Hf.
  - auto.
  - intros i [Hi (x & Hx & Hb)]. split; [done|]. cbn. rewrite lookup_alter. case_decide; [subst i|by exists x].
    rewrite Hx. exists (f x). split; [done|]. by apply Hf.
  - intros i x Hx. cbn. rewrite lookup_alter. case_decide; [subst i|].
    + rewrite Hx. exists (f x). destruct (Hf x) as (_ & H1 & H2 & H3 & _). split; [done|]. split; [done|]. auto.
    + exists x. split; [done|]. split; [done|]. auto.
Qed.

Lemma unblock_woken d v dd x s : es_doms s !! d = Some dd -> ed_vcpus dd !! v = Some x ->
  wp tol (vcpu_unblock d v) (fun _ s' => exists dd', s' = set_dom d dd' s /\ woken dd dd' /\
    ed_vcpus dd' !! v = Some (if vc_blocked x then x <| vc_poll := 0 |> <| vc_blocked := false |> else x)) s.
Proof using.
  intros Hd Hx. destruct (decide (vc_poll x = 0)) as [Hp|Hp].
  - eapply wp_mono; [by apply (unblock_spec d v dd x)|]. intros _ s' ->. fold_dom. eexists. split; [done|].
    split; [by apply raise_woken|]. cbn. rewrite lookup_alter_eq, Hx. destruct x as [? ? poll b ? ? ?]. cbn in *. subst poll. by destruct b.
  - unfold vcpu_unblock. wp_steps. eapply wp_vcpu_read; [done..|]. destruct (vc_blocked x) eqn:Hb; cbn [negb]; wp_steps.
    2:{ exists dd. split; [by rewrite set_id|]. split; [apply woken_refl|done]. }
    apply wp_vcpu_write. rewrite (proj2 (Z.eqb_neq _ _)) by done. wp_steps. apply wp_vcpu_write. fold_dom. wp_steps.
    eapply wp_dom_read; [apply set_dom_eq|].
    assert (Hv : ed_vcpus (roused v dd) !! v = Some (x <| vc_poll := 0 |> <| vc_blocked := false |>)).
    { unfold roused. cbn. by rewrite lookup_alter_eq, Hx. }
    assert (Hr : is_Some (ed_vcpus dd !! v)) by done.
    case_bool_decide as Hm; wp_steps.
    + apply wp_dom_write. wp_steps. apply wp_vcpu_write. rewrite !on_set_dom. exists (roused v dd). split; [|split; [by apply roused_woken|done]].
      f_equal. unfold roused, setter. cbn. f_equal. rewrite !alter_alter_eq. by apply alter_ext.
    + exists (roused v dd). split; [|split; [by apply roused_woken|done]].
      f_equal. unfold roused, setter. cbn in *. f_equal; [rewrite !alter_alter_eq; by apply alter_ext|].
      apply set_eq. intros i. rewrite elem_of_difference, elem_of_singleton. split; [|tauto]. intros Hi. split; [done|]. by intros ->.
Qed.

(** The processor sees that events are pending, and runs unless its interrupts
    come another way. *)
Lemma mark_spec d v dd x s : es_doms s !! d = Some dd -> ed_vcpus dd !! v = Some x ->
  wp tol (vcpu_mark_events_pending d v) (fun _ s' => exists dd', s' = set_dom d dd' s /\ woken dd dd' /\
    exists x', ed_vcpus dd' !! v = Some x' /\ vc_upcall x' = true) s.
Proof using.
  intros Hd Hx. unfold vcpu_mark_events_pending. wp_steps. eapply wp_vcpu_read; [done..|]. wp_steps. apply wp_vcpu_write. fold_dom.
  set (dd1 := dd <| ed_vcpus ::= _ |>). wp_steps.
  assert (Hw1 : woken dd dd1) by (by apply raise_woken).
  assert (Hx1 : ed_vcpus dd1 !! v = Some (x <| vc_upcall := true |>)) by (unfold dd1; cbn; by rewrite lookup_alter_eq, Hx).
  assert (Hstay : exists dd', set_dom d dd1 s = set_dom d dd' s /\ woken dd dd' /\
    exists x', ed_vcpus dd' !! v = Some x' /\ vc_upcall x' = true) by (exists dd1; split; [done|]; split; [done|by eexists]).
  assert (Hkick : wp tol (vcpu_kick d v) (fun _ s' => exists dd', s' = set_dom d dd' s /\ woken dd dd' /\
    exists x', ed_vcpus dd' !! v = Some x' /\ vc_upcall x' = true) (set_dom d dd1 s)).
  { eapply wp_mono; [eapply (unblock_woken d v dd1); [apply set_dom_eq|exact Hx1]|]. intros _ s' (dd2 & -> & Hw2 & Hx2).
    exists dd2. split; [apply set_set|]. split; [by eapply woken_trans|]. eexists. split; [exact Hx2|]. by case_match. }
  destruct (vc_upcall x); wp_steps; [done|]. eapply wp_dom_read; [apply set_dom_eq|]. destruct (ed_hvm dd1); [|done].
  unfold hvm_assert_evtchn_irq. wp_steps. eapply wp_dom_read; [apply set_dom_eq|]. by destruct (ed_hvm_vector dd1); [|wp_steps].
Qed.

(** A word of pending events is selected, and if it was not the processor is
    told. *)
Definition selected v word dd dd' : Prop := woken dd dd' /\ forall x, ed_vcpus dd !! v = Some x ->
  exists x', ed_vcpus dd' !! v = Some x' /\ word ∈ vc_sel x' /\ (word ∉ vc_sel x -> vc_upcall x' = true).

Lemma select_spec d v word dd x s : es_doms s !! d = Some dd -> ed_vcpus dd !! v = Some x ->
  wp tol (vcpu_write d v (fun x => x <| vc_sel ::= fun m => m ∪ {[word]} |>);;
       if bool_decide (word ∈ vc_sel x) then mret tt else vcpu_mark_events_pending d v)
    (fun _ s' => exists dd', s' = set_dom d dd' s /\ selected v word dd dd') s.
Proof using.
  intros Hd Hx. wp_steps. apply wp_vcpu_write. fold_dom. set (dd1 := dd <| ed_vcpus ::= _ |>).
  assert (Hw1 : woken dd dd1).
  { apply raise_woken. intros y. split; [done|]. split; [cbn; set_solver|]. done. }
  assert (Hx1 : ed_vcpus dd1 !! v = Some (x <| vc_sel ::= fun m => m ∪ {[word]} |>)) by (unfold dd1; cbn; by rewrite lookup_alter_eq, Hx).
  case_bool_decide as Hin; wp_steps.
  - exists dd1. split; [done|]. split; [done|]. intros y Hy. rewrite Hx in Hy. injection Hy as <-. eexists. split; [exact Hx1|].
    cbn. split; [set_solver|tauto].
  - eapply wp_mono; [eapply (mark_spec d v dd1); [apply set_dom_eq|exact Hx1]|]. intros _ s' (dd2 & -> & Hw2 & x2 & Hx2 & Hu).
    exists dd2. split; [apply set_set|]. split; [by eapply woken_trans|]. intros y Hy. exists x2. split; [done|]. split; [|done].
    destruct (wk_vcpu _ _ Hw2 v _ Hx1) as (x3 & Hx3 & Hs & _). rewrite Hx2 in Hx3. injection Hx3 as <-. apply Hs. cbn. set_solver.
Qed.

(** The port is pending. *)
Definition pend p dd : edom := dd <| ed_pending ::= fun m => m ∪ {[p]} |>.

Lemma pend_same p dd : dsame dd (pend p dd).
Proof using. split; cbn; auto. Qed.

Lemma evtchn_set_pending_spec d v p dd s : es_doms s !! d = Some dd -> shape dd -> is_Some (ed_vcpus dd !! v) ->
  wp tol (evtchn_set_pending d v p) (fun r s' => exists dd', s' = set_dom d dd' s /\ sent v p dd dd') s.
Proof using.
  intros Hd Hsh [x Hx]. unfold evtchn_set_pending. wp_steps. eapply wp_vcpu_read; [done..|]. wp_steps.
  eapply wp_dom_read; [done|]. case_bool_decide as Hp; wp_steps.
  - exists dd. split; [by rewrite set_id|]. split; [done|set_solver|done|tauto|tauto|done].
  - apply wp_dom_write. fold_dom. fold (pend p dd). wp_steps. set (dd1 := pend p dd).
    (* the processor is told, unless the port is masked *)
    eapply (wp_mono _ _ (fun _ s' => exists dd2, s' = set_dom d dd2 s /\ woken dd1 dd2 /\
      ((p ∉ ed_mask dd) -> selected v (p / BITS_PER_EVTCHN_WORD dd) dd1 dd2))).
    { case_bool_decide as Hm; wp_steps.
      - exists dd1. split; [done|]. split; [apply woken_refl|tauto].
      - apply wp_bind_inv. eapply wp_mono; [apply (select_spec d v _ dd1 x); [apply set_dom_eq|done]|].
        intros _ s' (dd2 & -> & Hs). exists dd2. split; [apply set_set|]. split; [apply Hs|done]. }
    intros _ s1 (dd2 & -> & Hw2 & Hsel). wp_steps. eapply wp_dom_read; [apply set_dom_eq|].
    (* then the pollers *)
    assert (Hend : forall dd3, woken dd2 dd3 -> (forall i y, ed_vcpus dd2 !! i = Some y -> i ∈ ed_poll_mask dd2 ->
      waits_for p y = true -> awake dd3 i) -> sent v p dd dd3).
    { intros dd3 Hw3 Hwa. pose proof (woken_trans _ _ _ Hw2 Hw3) as Hw. split.
      - transitivity dd1; [apply pend_same|apply Hw].
      - by rewrite (wk_pending _ _ Hw).
      - by rewrite (wk_mask _ _ Hw).
      - intros _ Hm y Hy. destruct (proj2 (Hsel Hm) y Hy) as (x2 & Hx2 & Hin & Hup).
        destruct (wk_vcpu _ _ Hw3 v x2 Hx2) as (x3 & Hx3 & H1 & H2 & _). exists x3. split; [done|]. split; [by apply H1|auto].
      - intros _ i y Hy Hi Hwt. destruct (wk_left _ _ Hw2 i Hi) as [Hi2|Ha]; [|by apply (wk_awake _ _ Hw3)].
        destruct (wk_vcpu _ _ Hw2 i y Hy) as (y2 & Hy2 & _ & _ & [Hpl|Ha]); [|by apply (wk_awake _ _ Hw3)].
        apply (Hwa i y2); [done|done|]. unfold waits_for. by rewrite Hpl.
      - intros i Hi. apply (wk_awake _ _ Hw). exact Hi. }
    assert (Hd2 : dsame dd dd2) by (transitivity dd1; [apply pend_same|apply Hw2]).
    assert (Hids : forall i y, ed_vcpus dd2 !! i = Some y -> i ∈ vcpu_ids dd2).
    { intros i y Hy. destruct (dsame_vcpu _ _ _ _ Hd2 Hy) as (z & Hz & _). destruct (sh_vcpus _ Hsh i z Hz).
      apply elem_of_seqZ. rewrite (ds_max _ _ Hd2). lia. }
    destruct (forallb _ _) eqn:Hall; wp_steps.
    + exists dd2. split; [done|]. apply Hend; [apply woken_refl|]. intros i y Hy Hi _. exfalso.
      rewrite forallb_forall in Hall. specialize (Hall i). rewrite bool_decide_eq_true in Hall. apply Hall; [|done].
      apply list_elem_of_In. by eapply Hids.
    + eapply wp_mono; [apply wake_all_spec; [apply set_dom_eq|]|].
      { intros i Hi. apply (dsame_has _ _ _ Hd2). apply (wk_poll _ _ Hw2) in Hi. by apply (sh_poll _ Hsh). }
      intros _ s' (dd' & -> & Hwk & Hwa). wp_steps. exists dd'. split; [apply set_set|]. apply Hend; [done|].
      intros i y Hy Hi Hwt. by apply (Hwa i y); [eapply Hids|..].
Qed.
End Deliver.
