(* ===== verification/EvtchnPorts.v ===== *)
(** Ports: the search for a free one, the growth of the table, and the change
    of one channel. *)
From S2P Require Import Prelude CMonad Evtchn EvtchnInv.

(** * Growth *)

Definition zero_bucket : bucket := Live (replicate (Z.to_nat EVTCHNS_PER_BUCKET) zero_chn).

Definition grow (i : Z) (dd : edom) : edom := dd <| ed_buckets ::= <[i := zero_bucket]> |>.

Definition grown (dd dd' : edom) : Prop := dd' = dd \/
  exists i, ed_buckets dd !! i = None /\ (0 <= i < MAX_EVTCHNS dd / EVTCHNS_PER_BUCKET /\
    forall j, 0 <= j < i -> is_Some (ed_buckets dd !! j)) /\ dd' = grow i dd.

Lemma chn_at_grow i dd p : chn_at (grow i dd) p = if decide (i = p / EVTCHNS_PER_BUCKET) then Some zero_chn else chn_at dd p.
Proof.
  unfold chn_at, grow. cbn. rewrite lookup_insert. case_decide; [|done]. cbn. apply lookup_replicate_2, chn_slot_lt.
Qed.

Lemma grown_old dd dd' p c : grown dd dd' -> chn_at dd p = Some c -> chn_at dd' p = Some c.
Proof.
  intros [->|(i & Hi & _ & ->)] Hc; [done|]. rewrite chn_at_grow. case_decide as He; [|done].
  unfold chn_at in Hc. by rewrite <- He, Hi in Hc.
Qed.

Lemma grown_new dd dd' p c : grown dd dd' -> chn_at dd' p = Some c -> chn_at dd p = Some c \/ c = zero_chn.
Proof.
  intros [->|(i & Hi & _ & ->)] Hc; [by left|]. rewrite chn_at_grow in Hc. case_decide; [|by left].
  injection Hc as <-. by right.
Qed.

Lemma grown_bound dd dd' p c : grown dd dd' -> chn_at dd' p = Some c -> ec_state c <> ECS_FREE -> chn_at dd p = Some c.
Proof. intros Hg Hc Hst. destruct (grown_new _ _ _ _ Hg Hc) as [| ->]; done. Qed.

(** Everything but the buckets stays. *)
Lemma grown_rest dd dd' : grown dd dd' -> dd' = dd <| ed_buckets := ed_buckets dd' |>.
Proof. intros [->|(i & _ & _ & ->)]; [by destruct dd|done]. Qed.

Lemma grown_shape dd dd' : grown dd dd' -> shape dd -> shape dd'.
Proof.
  intros Hg [S1 S2 S3 S4 S5 S6]. destruct Hg as [->|(i & Hi & [Hr Hpre] & ->)]; [by split|]. split; try done.
  2:{ intros j k [b Hb] Hk. unfold grow in *. cbn in *. rewrite lookup_insert. case_decide; [done|].
      rewrite lookup_insert in Hb. case_decide as Hij; [subst j; by apply Hpre|]. by eapply S6. }
  intros j b Hb. unfold grow in Hb. cbn in Hb. apply lookup_insert_Some in Hb as [[<- <-]|[_ Hb]]; [|by apply S1].
  split; [exact Hr|]. eexists. split; [done|]. apply length_replicate.
Qed.

Lemma pirq_at_grown dd dd' i p : grown dd dd' -> pirq_at dd' i p <-> pirq_at dd i p.
Proof.
  intros Hg. split; intros (c & irq & n & q & Hc & Hst & Hn); exists c, irq, n, q; split; try done.
  - eapply grown_bound; [done..|congruence].
  - by eapply grown_old.
Qed.

Lemma pirq_list_grown dd dd' prev head ps : grown dd dd' -> pirq_list dd prev head ps -> pirq_list dd' prev head ps.
Proof.
  intros Hg. revert prev head. induction ps as [|p ps IH]; intros prev head; cbn; [done|].
  intros (-> & H0 & c & irq & n & Hc & Hst & Hl). split; [done|]. split; [done|]. exists c, irq, n.
  split; [by eapply grown_old|]. split; [done|by apply IH].
Qed.

Lemma grown_ok dd dd' : grown dd dd' -> is_Some (chn_at dd 0) -> dom_ok dd -> dom_ok dd'.
Proof.
  intros Hg [c0 Hc0] [H0 H1 H2 H3 H4 H5 H6 H7 H8]. pose proof (grown_rest _ _ Hg) as Hr.
  assert (Hv : ed_vcpus dd' = ed_vcpus dd) by (by rewrite Hr). assert (Hp : ed_pirqs dd' = ed_pirqs dd) by (by rewrite Hr).
  split.
  - by eapply grown_shape.
  - intros p c Hc. destruct (grown_new _ _ _ _ Hg Hc) as [Ho| ->].
    + destruct (H1 p c Ho). split; [by rewrite Hv|done..].
    + split; [rewrite Hv; apply H0|done|done].
  - intros c Hc. rewrite (grown_old _ _ _ _ Hg Hc0) in Hc. injection Hc as <-. by apply H2.
  - intros _. exists c0. by eapply grown_old.
  - intros i x v p. rewrite Hv. intros Hx Hl Hne. destruct (H4 i x v p Hx Hl Hne) as (c & Hc & Hst). exists c.
    split; [by eapply grown_old|done].
  - intros p c v Hc Hst. rewrite Hv. apply (H5 p c v); [|done]. eapply grown_bound; [done..|congruence].
  - intros irq p. rewrite Hp. intros Hl Hne. destruct (H6 irq p Hl Hne) as (c & n & q & Hc & Hst). exists c, n, q.
    split; [by eapply grown_old|done].
  - intros p c irq n q Hc Hst. rewrite Hp. apply (H7 p c irq n q); [|done]. eapply grown_bound; [done..|congruence].
  - intros i x. rewrite Hv. intros Hx. destruct (H8 i x Hx) as (ps & Hnd & Hl & Hm). exists ps. split; [done|].
    split; [by eapply pirq_list_grown|]. intros p. by rewrite Hm, (pirq_at_grown dd dd').
Qed.

(** * The search *)

Definition in_use (dd : edom) (q : Z) : Prop := exists c, chn_at dd q = Some c /\ ec_state c <> ECS_FREE.

Section Free.
Context (env : EvtEnv) (tol : fault -> Prop) (Hxsm : forall d p, ee_xsm_alloc env d p = true).
Implicit Types (s : estate) (dd : edom) (d p q : Z).

Lemma free_scan_spec n d port dd s : es_doms s !! d = Some dd -> shape dd -> 0 <= port ->
  port + Z.of_nat n = MAX_EVTCHNS dd -> (forall q, 0 <= q < port -> in_use dd q) ->
  wp tol (free_scan n d port) (fun r s' => s' = s /\
    match r with
    | inl q => 0 <= q /\ (exists c, chn_at dd q = Some c /\ ec_state c = ECS_FREE) /\ forall q', 0 <= q' < q -> in_use dd q'
    | inr q => 0 <= q <= MAX_EVTCHNS dd /\ chn_at dd q = None /\ forall q', 0 <= q' < q -> in_use dd q'
    end) s.
Proof using.
  intros Hd Hsh. revert port. induction n as [|n IH]; intros port H0 Hn Hu; cbn [free_scan]; wp_steps;
    (eapply wp_dom_read; [done|]); rewrite valid_chn by done; case_bool_decide as Hv; wp_steps.
  - destruct Hv as [c Hc]. pose proof (chn_range _ _ _ Hsh Hc). lia.
  - split; [done|]. split; [lia|]. split; [|done]. by apply eq_None_not_Some.
  - destruct Hv as [c Hc]. eapply wp_chn; [done..|].
    destruct (ec_state c) eqn:Hst; wp_steps; [|apply IH; [lia|lia|]; intros q Hq;
      (destruct (decide (q = port)) as [->|]; [exists c; split; [done|congruence]|apply Hu; lia])..].
    split; [done|]. split; [done|]. split; [by exists c|done].
  - split; [done|]. split; [lia|]. split; [|done]. by apply eq_None_not_Some.
Qed.

(** What [get_free_port] comes back with. *)
Definition no_port dd (r : Z) : Prop :=
  r = - EINVAL /\ ed_dying dd = true \/
  r = - ENOSPC /\ (forall q, 0 <= q < MAX_EVTCHNS dd -> in_use dd q) \/
  r = - ENOMEM.

Definition new_port dd dd' (r : Z) : Prop :=
  ed_dying dd = false /\ 0 <= r /\ (forall q, 0 <= q < r -> in_use dd q) /\ grown dd dd' /\
  exists c, chn_at dd' r = Some c /\ ec_state c = ECS_FREE.

(** The bucket of the first port past the end starts at it. *)
Lemma end_aligned dd q : shape dd -> 0 <= q < MAX_EVTCHNS dd -> chn_at dd q = None ->
  ed_buckets dd !! (q / EVTCHNS_PER_BUCKET) = None.
Proof using.
  intros Hsh Hq Hc. unfold chn_at in Hc. destruct (ed_buckets dd !! _) as [b|] eqn:Hb; [|done].
  destruct (sh_buckets _ Hsh _ _ Hb) as (_ & chns & -> & Hl).
  destruct (lookup_lt_is_Some_2 chns (slot_of q)) as [c Hx]; [rewrite Hl; apply chn_slot_lt|]. by rewrite Hc in Hx.
Qed.

Lemma bucket_range dd q : 0 <= q < MAX_EVTCHNS dd -> 0 <= q / EVTCHNS_PER_BUCKET < MAX_EVTCHNS dd / EVTCHNS_PER_BUCKET.
Proof using.
  intros Hq. split; [apply Z.div_pos; [lia|done]|]. unfold EVTCHNS_PER_BUCKET.
  destruct (max_evtchns dd) as [H|H]; rewrite H in *;
    [change (1024 / 128) with 8|change (4096 / 128) with 32]; apply Z.div_lt_upper_bound; lia.
Qed.

(** The ports before it have their buckets. *)
Lemma used_bucket dd q j : (forall q', 0 <= q' < q -> in_use dd q') -> 0 <= j < q / EVTCHNS_PER_BUCKET ->
  is_Some (ed_buckets dd !! j).
Proof using.
  intros Hu Hj. destruct (Hu (EVTCHNS_PER_BUCKET * j)) as (c & Hc & _).
  { pose proof (slot_split q). unfold EVTCHNS_PER_BUCKET in *. lia. }
  unfold chn_at in Hc. rewrite Z.mul_comm, Z.div_mul in Hc by done. by destruct (ed_buckets dd !! j).
Qed.

Lemma get_free_port_spec d dd s : es_doms s !! d = Some dd -> shape dd ->
  wp tol (get_free_port env d) (fun r s' => r < 0 /\ no_port dd r /\ es_doms s' = es_doms s \/
    exists dd', new_port dd dd' r /\ es_doms s' = es_doms (set_dom d dd' s)) s.
Proof using Hxsm.
  intros Hd Hsh. unfold get_free_port. wp_steps. eapply wp_dom_read; [done|].
  destruct (ed_dying dd) eqn:Hdy; wp_steps; [left; split; [done|]; split; [by left|done]|].
  eapply wp_mono; [apply (free_scan_spec _ d 0 dd s Hd Hsh)|].
  - lia.
  - destruct (max_evtchns dd); lia.
  - intros q Hq. lia.
  - intros [q|q] s' (-> & Hq & HQ).
    + destruct HQ as [(c & Hc & Hst) Hu]. wp_steps. right. exists dd. split; [|by rewrite set_id].
      split; [done|]. split; [done|]. split; [done|]. split; [by left|by exists c].
    + destruct HQ as [Hnone Hu]. destruct (Z.eqb_spec q (MAX_EVTCHNS dd)) as [->|Hne]; wp_steps.
      { left. split; [done|]. split; [right; left; split; [done|exact Hu]|done]. }
      unfold xmalloc. wp_steps. destruct (ee_xmalloc env _); cbn [negb]; wp_steps;
        [|left; split; [done|]; split; [by right; right|done]].
      apply wp_dom_write. wp_steps. rewrite (proj2 (forallb_forall _ _)) by (intros; apply Hxsm). wp_steps. right.
      exists (grow (q / EVTCHNS_PER_BUCKET) dd). split.
      * split; [done|]. split; [lia|]. split; [done|]. split.
        { right. exists (q / EVTCHNS_PER_BUCKET). split; [by apply end_aligned; [|lia|]|].
          split; [|done]. split; [apply bucket_range; lia|]. intros j Hj. by apply (used_bucket dd q). }
        exists zero_chn. split; [|done]. rewrite chn_at_grow. by rewrite decide_True.
      * rewrite (on_set d _ _ dd) by done. done.
Qed.
End Free.

(** * One channel *)

Definition chn (s : estate) (d p : Z) : option evtchn := es_doms s !! d ≫= fun dd => chn_at dd p.

Lemma chn_Some s d p c : chn s d p = Some c <-> exists dd, es_doms s !! d = Some dd /\ chn_at dd p = Some c.
Proof. unfold chn. destruct (es_doms s !! d); cbn; naive_solver. Qed.

Lemma chn_doms s s' d p : es_doms s' = es_doms s -> chn s' d p = chn s d p.
Proof. intros Hs. unfold chn. by rewrite Hs. Qed.

Lemma chn_set d dd s d' p : chn (set_dom d dd s) d' p = if decide (d = d') then chn_at dd p else chn s d' p.
Proof.
  unfold chn. case_decide as Hd; [subst d'; by rewrite set_dom_eq|by rewrite set_dom_ne].
Qed.

Lemma chn_on d p f s d' q : chn (on d (put_chn p f) s) d' q =
  if decide (d = d' /\ p = q) then f <$> chn s d' q else chn s d' q.
Proof.
  unfold chn. destruct (decide (d = d')) as [<-|Hne].
  - unfold on. cbn. rewrite lookup_alter_eq. destruct (es_doms s !! d) as [dd|]; cbn; [|by case_decide].
    rewrite chn_at_put. repeat case_decide; naive_solver.
  - rewrite on_ne by done. rewrite decide_False; [done|naive_solver].
Qed.

Lemma peers_chn s : peers s <-> forall d p c rd rp, chn s d p = Some c -> ec_state c = ECS_INTERDOMAIN rd rp ->
  exists c', chn s rd rp = Some c' /\ ec_state c' = ECS_INTERDOMAIN d p.
Proof.
  split.
  - intros Hp d p c rd rp Hc Hst. apply chn_Some in Hc as (dd & Hd & Hc).
    destruct (Hp _ _ _ _ _ _ Hd Hc Hst) as (rdd & rc & H1 & H2 & H3). exists rc. split; [apply chn_Some; by exists rdd|done].
  - intros Hp d dd p c rd rp Hd Hc Hst. destruct (Hp d p c rd rp) as (rc & Hrc & H3); [apply chn_Some; by exists dd|done|].
    apply chn_Some in Hrc as (rdd & H1 & H2). by exists rdd, rc.
Qed.

Definition plain (c : evtchn) : Prop := match ec_state c with ECS_PIRQ _ _ _ | ECS_VIRQ _ => False | _ => True end.

Ltac not_plain Hst := unfold plain, not; rewrite Hst; tauto.

Lemma put_shape p f dd : shape dd -> shape (put_chn p f dd).
Proof.
  intros [S1 S2 S3 S4 S5 S6]. split; try done.
  2:{ intros i j. unfold put_chn. cbn. rewrite !lookup_alter_is_Some. apply S6. }
  intros i b Hb. unfold put_chn in Hb. cbn in Hb.
  apply lookup_alter_Some in Hb as [(<- & b' & Hb' & ->)|[_ Hb]]; [|by apply S1].
  destruct (S1 _ _ Hb') as (Hr & chns & -> & Hl). split; [exact Hr|]. eexists. split; [done|]. by rewrite length_alter.
Qed.

Lemma pirq_at_put p f dd c i q : chn_at dd p = Some c -> plain c -> plain (f c) ->
  pirq_at (put_chn p f dd) i q <-> pirq_at dd i q.
Proof.
  intros Hc Hp Hp'. unfold pirq_at. rewrite chn_at_put. case_decide as Hq; [|done]. subst q. rewrite Hc. cbn.
  split; intros (c' & irq & n & q & [= <-] & Hst & _); unfold plain in *; by rewrite Hst in *.
Qed.

Lemma pirq_list_put p f dd c prev head ps : chn_at dd p = Some c -> plain c ->
  pirq_list dd prev head ps -> pirq_list (put_chn p f dd) prev head ps.
Proof.
  intros Hc Hp. revert prev head. induction ps as [|q ps IH]; intros prev head; cbn; [done|].
  intros (-> & H0 & c' & irq & n & Hc' & Hst & Hl). split; [done|]. split; [done|]. exists c', irq, n.
  rewrite chn_at_put. case_decide as Hq.
  - subst q. rewrite Hc in Hc'. injection Hc' as <-. unfold plain in Hp. by rewrite Hst in Hp.
  - split; [done|]. split; [done|by apply IH].
Qed.

Lemma chn_ok_ext dd dd' c : ed_vcpus dd' = ed_vcpus dd -> chn_ok dd c -> chn_ok dd' c.
Proof. intros Hv [H1 H2 H3]. split; [by rewrite Hv|done..]. Qed.

(** A channel outside the tables of interrupts may change. *)
Lemma put_ok p f dd c : dom_ok dd -> chn_at dd p = Some c -> plain c -> plain (f c) -> chn_ok dd (f c) ->
  (p = 0 -> ec_state (f c) = ECS_RESERVED) -> dom_ok (put_chn p f dd).
Proof.
  intros [H0 H1 H2 H3 H4 H5 H6 H7 H8] Hc Hp Hp' Hok Hz.
  assert (Hat : forall q, chn_at (put_chn p f dd) q = if decide (p = q) then Some (f c) else chn_at dd q).
  { intros q. rewrite chn_at_put. case_decide; [subst q; by rewrite Hc|done]. }
  assert (Hne : forall q c', chn_at dd q = Some c' -> ~ plain c' -> p <> q) by (intros q c' Hq Hn ->; congruence).
  assert (Hback : forall q c', chn_at (put_chn p f dd) q = Some c' -> ~ plain c' -> chn_at dd q = Some c').
  { intros q c' Hq Hn. rewrite Hat in Hq. case_decide; [|done]. congruence. }
  split.
  - by apply put_shape.
  - intros q c'. rewrite Hat. intros Hq. apply (chn_ok_ext dd); [done|]. case_decide; [|by eapply H1].
    by injection Hq as <-.
  - intros c'. rewrite Hat. case_decide; [|apply H2]. intros [= <-]. by apply Hz.
  - intros Hd. rewrite Hat. case_decide; [done|by apply H3].
  - intros i x v q Hx Hv Hq. destruct (H4 i x v q Hx Hv Hq) as (c' & Hc' & Hst & Hn). exists c'.
    rewrite Hat, decide_False; [done|]. apply (Hne q c' Hc'). by not_plain Hst.
  - intros q c' v Hq Hst. apply (H5 q c' v); [|done]. apply Hback; [done|]. by not_plain Hst.
  - intros irq q Hq H0'. destruct (H6 irq q Hq H0') as (c' & n & r & Hc' & Hst). exists c', n, r.
    rewrite Hat, decide_False; [done|]. apply (Hne q c' Hc'). by not_plain Hst.
  - intros q c' irq n r Hq Hst. apply (H7 q c' irq n r); [|done]. apply Hback; [done|]. by not_plain Hst.
  - intros i x Hx. destruct (H8 i x Hx) as (ps & Hnd & Hl & Hm). exists ps. split; [done|].
    split; [by eapply pirq_list_put|]. intros q. rewrite Hm. symmetry. by eapply pirq_at_put.
Qed.

Definition paired (c : evtchn) : Prop := match ec_state c with ECS_INTERDOMAIN _ _ => True | _ => False end.

(** Neither end of a pair is touched. *)
Lemma on_peers d p f s c : chn s d p = Some c -> ~ paired c -> ~ paired (f c) -> peers s -> peers (on d (put_chn p f) s).
Proof.
  intros Hc Hp Hp' Hps. apply peers_chn. rewrite peers_chn in Hps. intros d' q c' rd rp. rewrite chn_on.
  case_decide as Heq.
  - destruct Heq as [-> ->]. rewrite Hc. intros [= <-] Hst. unfold paired in Hp'. by rewrite Hst in Hp'.
  - intros Hc' Hst. destruct (Hps _ _ _ _ _ Hc' Hst) as (rc & Hrc & Hrs). exists rc. rewrite chn_on, decide_False; [done|].
    intros [-> ->]. rewrite Hc in Hrc. injection Hrc as <-. unfold paired in Hp. by rewrite Hrs in Hp.
Qed.

Lemma on_ewf d p f s dd c : ewf s -> es_doms s !! d = Some dd -> chn_at dd p = Some c ->
  dom_ok (put_chn p f dd) -> ~ paired c -> ~ paired (f c) -> ewf (on d (put_chn p f) s).
Proof.
  intros [H1 H2] Hd Hc Hok Hp Hp'. split.
  - intros d' dd' Hd'. destruct (decide (d = d')) as [<-|Hne].
    + rewrite (on_eq d _ s dd Hd) in Hd'. by injection Hd' as <-.
    + rewrite on_ne in Hd' by done. by eapply H1.
  - apply (on_peers d p f s c); [|done..]. apply chn_Some. by exists dd.
Qed.

(** * The view of the guests

    What is bound to each port of each domain, without the links of the lists
    of interrupts. *)

Definition bound (c : evtchn) : option evtchn :=
  match ec_state c with
  | ECS_FREE => None
  | ECS_PIRQ irq _ _ => Some (c <| ec_state := ECS_PIRQ irq 0 0 |>)
  | _ => Some c
  end.

Definition eview : Type := Z -> Z -> option evtchn.
Definition view (s : estate) : eview := fun d p => chn s d p ≫= bound.

Abbreviation veq := (pointwise_relation Z (pointwise_relation Z (@eq (option evtchn)))).

Definition upd (d p : Z) (o : option evtchn) (V : eview) : eview :=
  fun d' q => if decide (d = d' /\ p = q) then o else V d' q.

#[export] Instance upd_proper d p o : Proper (veq ==> veq) (upd d p o).
Proof. intros V V' HV d' q. unfold upd. by case_decide; [|apply HV]. Qed.

Lemma view_doms s s' : es_doms s' = es_doms s -> veq (view s') (view s).
Proof. intros Hs d p. unfold view. by rewrite (chn_doms s s'). Qed.

Lemma view_same s s' : esame s s' -> veq (view s') (view s).
Proof.
  intros Hs d p. unfold view, chn. specialize (Hs d). inversion Hs as [dd dd' Hds E1 E2|E1 E2]; cbn; [|done].
  by rewrite (dsame_chn _ _ _ Hds).
Qed.

Lemma view_on d p f s c : chn s d p = Some c -> veq (view (on d (put_chn p f) s)) (upd d p (bound (f c)) (view s)).
Proof.
  intros Hc d' q. unfold view, upd. rewrite chn_on. case_decide as Heq; [|done]. destruct Heq as [<- <-]. by rewrite Hc.
Qed.

Lemma view_grown d dd dd' s : es_doms s !! d = Some dd -> grown dd dd' -> veq (view (set_dom d dd' s)) (view s).
Proof.
  intros Hd Hg d' q. unfold view. rewrite chn_set. case_decide as Heq; [subst d'|done]. unfold chn. rewrite Hd. cbn.
  destruct (chn_at dd' q) as [c|] eqn:Hc; cbn.
  - destruct (grown_new _ _ _ _ Hg Hc) as [->| ->]; [done|]. destruct (chn_at dd q) as [c'|] eqn:Hc'; [|done].
    rewrite (grown_old _ _ _ _ Hg Hc') in Hc. by injection Hc as ->.
  - destruct (chn_at dd q) as [c'|] eqn:Hc'; [|done]. by rewrite (grown_old _ _ _ _ Hg Hc') in Hc.
Qed.

Lemma grown_ewf d dd dd' s s' : ewf s -> es_doms s !! d = Some dd -> grown dd dd' -> is_Some (chn_at dd 0) ->
  es_doms s' = es_doms (set_dom d dd' s) -> ewf s'.
Proof.
  intros [H1 H2] Hd Hg Hz Hs. split.
  - intros d' x. rewrite Hs. destruct (decide (d = d')) as [<-|Hne].
    + rewrite set_dom_eq. intros [= <-]. eapply grown_ok; [done..|]. by eapply H1.
    + rewrite set_dom_ne by done. apply H1.
  - apply peers_chn. rewrite peers_chn in H2. intros d' p c rd rp Hc Hst.
    assert (Hback : chn s d' p = Some c).
    { rewrite (chn_doms (set_dom d dd' s)), chn_set in Hc by done. case_decide; [subst d'|done].
      apply chn_Some. exists dd. split; [done|]. eapply grown_bound; [done..|congruence]. }
    destruct (H2 _ _ _ _ _ Hback Hst) as (rc & Hrc & Hrs). exists rc. split; [|done].
    rewrite (chn_doms (set_dom d dd' s)), chn_set by done. case_decide; [subst rd|done].
    apply chn_Some in Hrc as (dd0 & Hd0 & Hrc). rewrite Hd in Hd0. injection Hd0 as <-. by eapply grown_old.
Qed.

Section Fresh.
Context (env : EvtEnv) (tol : fault -> Prop) (Hxsm : forall d p, ee_xsm_alloc env d p = true).
Implicit Types (s : estate) (dd : edom) (d p q : Z).

(** A fresh port, in a state of the same view. *)
Record fresh d dd r s s1 dd1 : Prop := {
  fr_new : new_port dd dd1 r;
  fr_doms : es_doms s1 = es_doms (set_dom d dd1 s);
  fr_dom : es_doms s1 !! d = Some dd1;
  fr_pos : 0 < r;
  fr_max : r < MAX_EVTCHNS dd;
  fr_zero : chn_at dd1 r = Some zero_chn;
  fr_u16 : u16 r = r;
  fr_none : view s d r = None;
}.

Lemma get_free_port_wf d dd s : ewf s -> es_doms s !! d = Some dd ->
  wp tol (get_free_port env d) (fun r s1 => ewf s1 /\ veq (view s1) (view s) /\
    (r < 0 /\ no_port dd r /\ es_doms s1 = es_doms s \/ exists dd1, fresh d dd r s s1 dd1)) s.
Proof using Hxsm.
  intros Hw Hd. pose proof (ew_dom _ Hw _ _ Hd) as Hok.
  eapply wp_mono; [by apply (get_free_port_spec env tol Hxsm d dd); [|apply Hok]|].
  intros r s1 [(Hr & Hn & Hs)|(dd1 & Hnew & Hs)].
  - split; [|split; [by apply view_doms|by left]]. destruct Hw as [W1 W2]. split; [by rewrite Hs|].
    apply peers_chn. rewrite peers_chn in W2. intros d' p c rd rp. rewrite !(chn_doms s s1) by done.
    apply W2.
  - destruct Hnew as (Hdy & H0 & Hu & Hg & c & Hc & Hst). pose proof (do_alive _ Hok Hdy) as [z Hz].
    assert (Hw1 : ewf s1) by (by eapply grown_ewf).
    assert (Hd1 : es_doms s1 !! d = Some dd1) by (by rewrite Hs, set_dom_eq).
    pose proof (ew_dom _ Hw1 _ _ Hd1) as Hok1. pose proof (co_free _ _ (do_chns _ Hok1 _ _ Hc) Hst) as ->.
    split; [done|]. split; [intros d' p; rewrite (view_doms (set_dom d dd1 s) s1 Hs); by apply (view_grown d dd)|].
    right. exists dd1. pose proof (chn_range _ _ _ (do_shape _ Hok1) Hc) as Hrange. split; try done.
    + split; [done|]. split; [done|]. split; [done|]. split; [done|by exists zero_chn].
    + destruct (decide (r = 0)) as [->|]; [|lia]. pose proof (do_zero _ Hok1 _ Hc). done.
    + replace (MAX_EVTCHNS dd) with (MAX_EVTCHNS dd1); [lia|]. by rewrite (grown_rest _ _ Hg).
    + by eapply chn_u16; [apply Hok1|].
    + unfold view, chn. rewrite Hd. cbn. destruct (chn_at dd r) as [c|] eqn:Hcr; [|done].
      rewrite (grown_old _ _ _ _ Hg Hcr) in Hc. injection Hc as ->. done.
Qed.

(** Binding a fresh port to something without a table. *)
Lemma bind_fresh d dd r s s1 dd1 f : ewf s1 -> fresh d dd r s s1 dd1 -> plain (f zero_chn) -> ~ paired (f zero_chn) ->
  chn_ok dd1 (f zero_chn) -> ewf (on d (put_chn r f) s1) /\
    veq (view (on d (put_chn r f) s1)) (upd d r (bound (f zero_chn)) (view s1)).
Proof using.
  intros Hw [] Hp Hn Hok. pose proof (ew_dom _ Hw _ _ fr_dom0) as Hok1. split.
  - eapply on_ewf; [done..| |intros []|done]. eapply put_ok; [done..|lia].
  - apply view_on. apply chn_Some. by exists dd1.
Qed.
End Fresh.
