(* ===== verification/EvtchnLists.v ===== *)
(** The doubly linked lists of the ports bound to physical interrupts:
    [link_pirq_port] and [unlink_pirq_port] keep them well formed, and the walk
    along a list finds every such port of a processor once. *)
From S2P Require Import Prelude CMonad Evtchn EvtchnInv EvtchnPorts.

(** * Tables and lists *)

(** All of the invariant of a domain but the lists. *)
Record tables (dd : edom) : Prop := {
  tb_shape : shape dd;
  tb_chns : forall p c, chn_at dd p = Some c -> chn_ok dd c;
  tb_zero : forall c, chn_at dd 0 = Some c -> ec_state c = ECS_RESERVED;
  tb_alive : ed_dying dd = false -> is_Some (chn_at dd 0);
  tb_virq : forall i x v p, ed_vcpus dd !! i = Some x -> vc_virqs x !! v = Some p -> p <> 0 ->
    exists c, chn_at dd p = Some c /\ ec_state c = ECS_VIRQ (Z.of_nat v) /\
      (virq_is_global (Z.of_nat v) = false -> ec_notify c = i);
  tb_virq_back : forall p c v, chn_at dd p = Some c -> ec_state c = ECS_VIRQ v -> 0 <= v < NR_VIRQS /\
    exists i x, ed_vcpus dd !! i = Some x /\ vc_virqs x !! Z.to_nat v = Some p;
  tb_pirq : forall irq p, ed_pirqs dd !! irq = Some p -> p <> 0 ->
    exists c n q, chn_at dd p = Some c /\ ec_state c = ECS_PIRQ (Z.of_nat irq) n q;
  tb_pirq_back : forall p c irq n q, chn_at dd p = Some c -> ec_state c = ECS_PIRQ irq n q ->
    0 <= irq /\ ed_pirqs dd !! Z.to_nat irq = Some p;
}.

(** The list of a processor has all its ports, but the one that is being
    moved. *)
Definition lists (out : Z) (dd : edom) : Prop := forall i x, ed_vcpus dd !! i = Some x ->
  exists ps, NoDup ps /\ pirq_list dd 0 (vc_pirq_head x) ps /\ forall p, p ∈ ps <-> pirq_at dd i p /\ p <> out.

Lemma pirq_at_nonzero dd i p : (forall c, chn_at dd 0 = Some c -> ec_state c = ECS_RESERVED) -> pirq_at dd i p -> p <> 0.
Proof. intros Hz (c & irq & n & q & Hc & Hst & _) ->. specialize (Hz c Hc). congruence. Qed.

Lemma dom_ok_split dd : dom_ok dd <-> tables dd /\ lists 0 dd.
Proof.
  split.
  - intros [H0 H1 H2 H3 H4 H5 H6 H7 H8]. split; [by split|]. intros i x Hx. destruct (H8 i x Hx) as (ps & Hnd & Hl & Hm).
    exists ps. split; [done|]. split; [done|]. intros p. rewrite Hm. split; [|tauto]. intros Hp. split; [done|].
    by eapply pirq_at_nonzero.
  - intros [[H0 H1 H2 H3 H4 H5 H6 H7] H8]. split; try done. intros i x Hx. destruct (H8 i x Hx) as (ps & Hnd & Hl & Hm).
    exists ps. split; [done|]. split; [done|]. intros p. rewrite Hm. split; [tauto|]. intros Hp. split; [done|].
    by eapply pirq_at_nonzero.
Qed.

(** * Changes of links *)

Definition unlinked (c : evtchn) : evtchn :=
  match ec_state c with ECS_PIRQ irq _ _ => c <| ec_state := ECS_PIRQ irq 0 0 |> | _ => c end.

Record links_only (dd dd' : edom) : Prop := {
  lo_dying : ed_dying dd' = ed_dying dd;
  lo_hvm : ed_hvm dd' = ed_hvm dd;
  lo_max : ed_max_vcpus dd' = ed_max_vcpus dd;
  lo_mask : ed_mask dd' = ed_mask dd;
  lo_32bit : ed_32bit dd' = ed_32bit dd;
  lo_pirqs : ed_pirqs dd' = ed_pirqs dd;
  lo_shape : shape dd -> shape dd';
  lo_vcpus : forall i, vc_virqs <$> ed_vcpus dd' !! i = vc_virqs <$> ed_vcpus dd !! i;
  lo_chns : forall p, unlinked <$> chn_at dd' p = unlinked <$> chn_at dd p;
}.

#[export] Instance links_preorder : PreOrder links_only.
Proof.
  split; [by intros dd; split|]. intros dd1 dd2 dd3 [] []. split; try congruence; auto.
Qed.

Lemma unlinked_notify c c' : unlinked c' = unlinked c -> ec_notify c' = ec_notify c.
Proof. destruct c as [[] xen nt], c' as [[] xen' nt']; intros [=]; cbn; congruence. Qed.

Lemma unlinked_state c c' : unlinked c' = unlinked c -> plain c -> c' = c.
Proof. destruct c as [[] xen nt], c' as [[] xen' nt']; intros [=] Hp; by subst. Qed.

Lemma unlinked_pirq c c' irq n q : unlinked c' = unlinked c -> ec_state c = ECS_PIRQ irq n q ->
  exists n' q', ec_state c' = ECS_PIRQ irq n' q'.
Proof. destruct c as [[] xen nt], c' as [[] xen' nt']; intros [=] [=]; subst; cbn; eauto. Qed.

Lemma unlinked_virq c c' v : unlinked c' = unlinked c -> ec_state c = ECS_VIRQ v -> c' = c.
Proof. destruct c as [[] xen nt], c' as [[] xen' nt']; intros [=] [=]; by subst. Qed.

Lemma links_chn dd dd' p c : links_only dd dd' -> chn_at dd p = Some c ->
  exists c', chn_at dd' p = Some c' /\ unlinked c' = unlinked c.
Proof.
  intros Hl Hc. pose proof (lo_chns _ _ Hl p) as He. rewrite Hc in He. destruct (chn_at dd' p) as [c'|]; [|done].
  injection He as He. by exists c'.
Qed.

Lemma links_back dd dd' p c' : links_only dd dd' -> chn_at dd' p = Some c' ->
  exists c, chn_at dd p = Some c /\ unlinked c' = unlinked c.
Proof.
  intros Hl Hc. pose proof (lo_chns _ _ Hl p) as He. rewrite Hc in He. destruct (chn_at dd p) as [c|]; [|done].
  injection He as He. by exists c.
Qed.

Lemma links_vcpu dd dd' i x' : links_only dd dd' -> ed_vcpus dd' !! i = Some x' ->
  exists x, ed_vcpus dd !! i = Some x /\ vc_virqs x' = vc_virqs x.
Proof.
  intros Hl Hx. pose proof (lo_vcpus _ _ Hl i) as He. rewrite Hx in He. destruct (ed_vcpus dd !! i) as [x|]; [|done].
  injection He as He. by exists x.
Qed.

Lemma links_tables dd dd' : links_only dd dd' -> tables dd -> tables dd'.
Proof.
  intros Hl [H0 H1 H2 H3 H4 H5 H6 H7].
  assert (Hhas : forall i, is_Some (ed_vcpus dd' !! i) <-> is_Some (ed_vcpus dd !! i)).
  { intros i. by rewrite <- (fmap_is_Some vc_virqs), (lo_vcpus _ _ Hl i), fmap_is_Some. }
  split.
  - by apply Hl.
  - intros p c' Hc'. destruct (links_back _ _ _ _ Hl Hc') as (c & Hc & Hu). destruct (H1 p c Hc) as [K1 K2 K3]. split.
    + rewrite (unlinked_notify _ _ Hu). by apply Hhas.
    + intros Hst. rewrite (unlinked_state c' c) in K2; [by apply K2|done|unfold plain; by rewrite Hst].
    + destruct c as [[] xen nt], c' as [[] xen' nt']; cbn in *; injection Hu as ?; subst; done.
  - intros c' Hc'. destruct (links_back _ _ _ _ Hl Hc') as (c & Hc & Hu). specialize (H2 c Hc).
    rewrite (unlinked_state _ _ Hu); [done|unfold plain; by rewrite H2].
  - rewrite (lo_dying _ _ Hl). intros Hd. destruct (H3 Hd) as [c Hc]. destruct (links_chn _ _ _ _ Hl Hc) as (c' & Hc' & _). by exists c'.
  - intros i x' v p Hx Hv Hp. destruct (links_vcpu _ _ _ _ Hl Hx) as (x & Hx0 & Hvq). rewrite Hvq in Hv.
    destruct (H4 i x v p Hx0 Hv Hp) as (c & Hc & Hst & Hn). destruct (links_chn _ _ _ _ Hl Hc) as (c' & Hc' & Hu).
    rewrite (unlinked_virq _ _ _ Hu Hst) in Hc'. by exists c.
  - intros p c' v Hc' Hst. destruct (links_back _ _ _ _ Hl Hc') as (c & Hc & Hu). symmetry in Hu.
    rewrite (unlinked_virq _ _ _ Hu Hst) in Hc. destruct (H5 p c' v Hc Hst) as (Hr & i & x & Hx & Hv). split; [done|].
    pose proof (lo_vcpus _ _ Hl i) as He. rewrite Hx in He. destruct (ed_vcpus dd' !! i) as [x'|] eqn:Hx'; [|done].
    injection He as He. exists i, x'. by rewrite He.
  - intros irq p Hi Hp. rewrite (lo_pirqs _ _ Hl) in Hi. destruct (H6 irq p Hi Hp) as (c & n & q & Hc & Hst).
    destruct (links_chn _ _ _ _ Hl Hc) as (c' & Hc' & Hu). destruct (unlinked_pirq _ _ _ _ _ Hu Hst) as (n' & q' & Hst').
    by exists c', n', q'.
  - intros p c' irq n q Hc' Hst. destruct (links_back _ _ _ _ Hl Hc') as (c & Hc & Hu). symmetry in Hu.
    destruct (unlinked_pirq _ _ _ _ _ Hu Hst) as (n' & q' & Hst'). rewrite (lo_pirqs _ _ Hl). by eapply H7.
Qed.

(** * Segments *)

(** A list up to a port: [last] is its last port ([prev] when it is empty),
    [next] what that port points to. *)
Fixpoint pirq_seg (dd : edom) (prev head : Z) (ps : list Z) (last next : Z) : Prop :=
  match ps with
  | [] => head = next /\ prev = last
  | p :: ps => head = p /\ p <> 0 /\ exists c irq n, chn_at dd p = Some c /\ ec_state c = ECS_PIRQ irq n prev /\
      pirq_seg dd p n ps last next
  end.

Lemma pirq_list_split dd prev head ps p qs : pirq_list dd prev head (ps ++ p :: qs) <->
  exists last, pirq_seg dd prev head ps last p /\ pirq_list dd last p (p :: qs).
Proof.
  revert prev head. induction ps as [|a ps IH]; intros prev head; cbn.
  - split; [intros (-> & H)|intros (last & [-> ->] & H)]; [by exists prev|done].
  - split.
    + intros (-> & H0 & c & irq & n & Hc & Hst & Hl). apply IH in Hl as (last & Hs & Hl). exists last. split; [|done].
      split; [done|]. split; [done|]. by exists c, irq, n.
    + intros (last & (-> & H0 & c & irq & n & Hc & Hst & Hs) & Hl). split; [done|]. split; [done|]. exists c, irq, n.
      split; [done|]. split; [done|]. apply IH. by exists last.
Qed.

Lemma pirq_seg_list dd prev head ps qs last next : pirq_seg dd prev head ps last next -> pirq_list dd last next qs ->
  pirq_list dd prev head (ps ++ qs).
Proof.
  revert prev head. induction ps as [|a ps IH]; intros prev head; cbn; [by intros [-> ->]|].
  intros (-> & H0 & c & irq & n & Hc & Hst & Hs) Hl. split; [done|]. split; [done|]. exists c, irq, n. eauto.
Qed.

Lemma pirq_seg_ext dd dd' prev head ps last next : (forall p, p ∈ ps -> chn_at dd' p = chn_at dd p) ->
  pirq_seg dd prev head ps last next -> pirq_seg dd' prev head ps last next.
Proof.
  revert prev head. induction ps as [|p ps IH]; intros prev head Hext; cbn; [done|].
  intros (-> & H0 & c & irq & n & Hc & Hst & Hl). split; [done|]. split; [done|]. exists c, irq, n.
  split; [rewrite Hext; [done|by left]|]. split; [done|]. apply IH; [|done]. intros q Hq. apply Hext. by right.
Qed.

(** An empty segment is one whose last port is the one before. *)
Lemma pirq_seg_last dd prev head ps last next : pirq_seg dd prev head ps last next ->
  ps = [] /\ head = next /\ prev = last \/ last ∈ ps /\ last <> 0.
Proof.
  revert prev head. induction ps as [|p ps IH]; intros prev head; cbn; [by intros [-> ->]; left|].
  intros (-> & H0 & c & irq & n & Hc & Hst & Hs). right. destruct (IH _ _ Hs) as [(-> & _ & ->)|[Hin Hne]].
  - split; [by left|done].
  - split; [by right|done].
Qed.

(** The links of a port, written. *)
Definition set_links (p irq n q : Z) (dd : edom) : edom := put_chn p (fun c => c <| ec_state := ECS_PIRQ irq n q |>) dd.

Lemma set_links_at p irq n q dd c : chn_at dd p = Some c ->
  chn_at (set_links p irq n q dd) p = Some (c <| ec_state := ECS_PIRQ irq n q |>).
Proof. intros Hc. unfold set_links. rewrite chn_at_put, decide_True by done. by rewrite Hc. Qed.

Lemma set_links_ne p irq n q dd p' : p <> p' -> chn_at (set_links p irq n q dd) p' = chn_at dd p'.
Proof. intros Hp. unfold set_links. by rewrite chn_at_put, decide_False. Qed.

Lemma set_links_only p irq n q dd c n0 q0 : chn_at dd p = Some c -> ec_state c = ECS_PIRQ irq n0 q0 ->
  links_only dd (set_links p irq n q dd).
Proof.
  intros Hc Hst. split; try done; [by apply put_shape|]. intros p'. destruct (decide (p = p')) as [<-|Hne].
  - rewrite (set_links_at _ _ _ _ _ c) by done. rewrite Hc. destruct c as [st xen nt]. cbn in *. by subst st.
  - by rewrite set_links_ne.
Qed.

Lemma seg_set_next dd prev head ps last next c irq n q n' : pirq_seg dd prev head ps last next -> NoDup ps -> ps <> [] ->
  chn_at dd last = Some c -> ec_state c = ECS_PIRQ irq n q ->
  pirq_seg (set_links last irq n' q dd) prev head ps last n'.
Proof.
  revert prev head. induction ps as [|p ps IH]; intros prev head Hs Hnd Hne Hc Hst; [done|].
  destruct Hs as (-> & H0 & c' & irq' & m & Hc' & Hst' & Hs). apply NoDup_cons in Hnd as [Hp Hnd].
  cbn. split; [done|]. split; [done|]. destruct ps as [|a ps].
  - destruct Hs as [_ <-]. rewrite Hc in Hc'. injection Hc' as <-. rewrite Hst in Hst'. injection Hst' as <- <- <-.
    eexists _, irq, n'. split; [by apply set_links_at|]. done.
  - destruct (pirq_seg_last _ _ _ _ _ _ Hs) as [(? & _)|[Hin _]]; [done|].
    exists c', irq', m. split; [rewrite set_links_ne; [done|by intros ->]|]. split; [done|]. by apply IH.
Qed.

Lemma list_set_prev dd prev head ps c irq n q q' : pirq_list dd prev head ps -> NoDup ps -> ps <> [] ->
  chn_at dd head = Some c -> ec_state c = ECS_PIRQ irq n q ->
  pirq_list (set_links head irq n q' dd) q' head ps.
Proof.
  destruct ps as [|p ps]; [done|]. intros (-> & H0 & c' & irq' & m & Hc' & Hst' & Hl) Hnd _ Hc Hst.
  rewrite Hc in Hc'. injection Hc' as <-. rewrite Hst in Hst'. injection Hst' as <- <- <-.
  cbn. split; [done|]. split; [done|]. eexists _, irq, n. split; [by apply set_links_at|]. split; [done|].
  apply NoDup_cons in Hnd as [Hp _]. eapply pirq_list_ext; [|done]. intros a Ha. apply set_links_ne. by intros ->.
Qed.

(** * Moving a port

    A change of the list of one processor. *)
Record moved (v : Z) (dd dd' : edom) : Prop := {
  mv_links : links_only dd dd';
  mv_chns : forall p c, chn_at dd p = Some c -> ec_notify c <> v -> chn_at dd' p = Some c;
  mv_heads : forall i, i <> v -> vc_pirq_head <$> ed_vcpus dd' !! i = vc_pirq_head <$> ed_vcpus dd !! i;
  mv_pending : ed_pending dd' = ed_pending dd;
}.

#[export] Instance moved_preorder v : PreOrder (moved v).
Proof.
  split; [by intros dd; split|]. intros dd1 dd2 dd3 [A1 A2 A3 A4] [B1 B2 B3 B4].
  split; [by transitivity dd2|auto| |congruence]. intros i Hi. by rewrite B3, A3.
Qed.

Lemma set_links_moved v p irq n q dd c n0 q0 : chn_at dd p = Some c -> ec_state c = ECS_PIRQ irq n0 q0 ->
  ec_notify c = v -> moved v dd (set_links p irq n q dd).
Proof.
  intros Hc Hst Hn. split; try done; [by eapply set_links_only|]. intros p' c' Hc' Hn'.
  rewrite set_links_ne; [done|]. intros ->. congruence.
Qed.

Definition set_head (v p : Z) (dd : edom) : edom := dd <| ed_vcpus ::= alter (fun x => x <| vc_pirq_head := p |>) v |>.

Lemma set_head_moved v p dd : moved v dd (set_head v p dd).
Proof.
  assert (Hv : forall i, vc_virqs <$> ed_vcpus (set_head v p dd) !! i = vc_virqs <$> ed_vcpus dd !! i).
  { intros i. unfold set_head. cbn. rewrite lookup_alter. case_decide; [subst i|done]. by destruct (ed_vcpus dd !! v). }
  split; try done.
  - split; try done. intros [S1 S2 S3 S4 S5 S6].
    assert (Hi : forall i, is_Some (ed_vcpus (set_head v p dd) !! i) <-> is_Some (ed_vcpus dd !! i)).
    { intros i. by rewrite <- (fmap_is_Some vc_virqs), Hv, fmap_is_Some. }
    split; try done; [|by apply Hi|intros i ?; by apply Hi, S5].
    intros i x Hx. specialize (Hv i). rewrite Hx in Hv. destruct (ed_vcpus dd !! i) as [y|] eqn:Hy; [|done].
    injection Hv as ->. by apply S2.
  - intros i Hi. unfold set_head. cbn. by rewrite lookup_alter_ne.
Qed.

Lemma set_head_at v p dd x : ed_vcpus dd !! v = Some x ->
  ed_vcpus (set_head v p dd) !! v = Some (x <| vc_pirq_head := p |>).
Proof. intros Hx. unfold set_head. cbn. by rewrite lookup_alter_eq, Hx. Qed.

Lemma moved_vcpu v dd dd' i : moved v dd dd' -> is_Some (ed_vcpus dd' !! i) <-> is_Some (ed_vcpus dd !! i).
Proof. intros [Hl _ _ _]. by rewrite <- (fmap_is_Some vc_virqs), (lo_vcpus _ _ Hl i), fmap_is_Some. Qed.

Lemma links_pirq_at dd dd' i p : links_only dd dd' -> pirq_at dd' i p <-> pirq_at dd i p.
Proof.
  intros Hl. split; intros (c & irq & n & q & Hc & Hst & Hn).
  - destruct (links_back _ _ _ _ Hl Hc) as (c0 & Hc0 & Hu). symmetry in Hu.
    destruct (unlinked_pirq _ _ _ _ _ Hu Hst) as (n' & q' & Hst'). exists c0, irq, n', q'.
    split; [done|]. split; [done|]. by rewrite (unlinked_notify _ _ Hu).
  - destruct (links_chn _ _ _ _ Hl Hc) as (c' & Hc' & Hu).
    destruct (unlinked_pirq _ _ _ _ _ Hu Hst) as (n' & q' & Hst'). exists c', irq, n', q'.
    split; [done|]. split; [done|]. by rewrite (unlinked_notify _ _ Hu).
Qed.

(** The lists of the other processors do not notice. *)
Lemma moved_lists v dd dd' out out' x : moved v dd dd' -> lists out dd ->
  (forall i, pirq_at dd i out -> i = v) -> (forall i, pirq_at dd i out' -> i = v) -> ed_vcpus dd' !! v = Some x ->
  (exists ps, NoDup ps /\ pirq_list dd' 0 (vc_pirq_head x) ps /\ forall p, p ∈ ps <-> pirq_at dd v p /\ p <> out') ->
  lists out' dd'.
Proof.
  intros Hm Hl Ho Ho' Hx Hv i y Hy. destruct (decide (i = v)) as [->|Hne].
  - rewrite Hx in Hy. injection Hy as <-. destruct Hv as (ps & Hnd & Hps & Hin). exists ps. split; [done|]. split; [done|].
    intros p. by rewrite Hin, (links_pirq_at dd dd') by apply Hm.
  - pose proof (mv_heads _ _ _ Hm i Hne) as Hh. rewrite Hy in Hh. destruct (ed_vcpus dd !! i) as [z|] eqn:Hz; [|done].
    injection Hh as Hh. destruct (Hl i z Hz) as (ps & Hnd & Hps & Hin). exists ps. split; [done|]. split.
    + rewrite Hh. eapply pirq_list_ext; [|done]. intros p Hp. apply Hin in Hp as [(c & irq & n & q & Hc & Hst & Hn) _].
      rewrite Hc. apply (mv_chns _ _ _ Hm); [done|congruence].
    + intros p. rewrite Hin, (links_pirq_at dd dd') by apply Hm. split; intros [Hp _]; (split; [done|]); intros ->; apply Hne; auto.
Qed.

Lemma pirq_at_fun dd i j p : pirq_at dd i p -> pirq_at dd j p -> i = j.
Proof. intros (c & ? & ? & ? & Hc & _ & Hi) (c' & ? & ? & ? & Hc' & _ & Hj). congruence. Qed.

Lemma pirq_list_nil dd prev ps : pirq_list dd prev 0 ps -> ps = [].
Proof. destruct ps; [done|]. by intros (<- & ? & _). Qed.

(** The ports of a segment are bound to interrupts. *)
Lemma seg_elem dd prev head ps last next : pirq_seg dd prev head ps last next -> last ∈ ps ->
  exists c irq q, chn_at dd last = Some c /\ ec_state c = ECS_PIRQ irq next q.
Proof.
  revert prev head. induction ps as [|a ps IH]; intros prev head; cbn; [by intros _ ?%elem_of_nil|].
  intros (-> & H0 & c & irq & n & Hc & Hst & Hs) Hin. destruct (pirq_seg_last _ _ _ _ _ _ Hs) as [(-> & -> & <-)|[Hl _]]; eauto.
Qed.

Section Lists.
Context (tol : fault -> Prop).
Implicit Types (s : estate) (dd : edom) (c : evtchn) (d p v : Z).

Lemma wp_pirq_links d p f dd c irq n q (Q : unit -> estate -> Prop) s : es_doms s !! d = Some dd -> chn_at dd p = Some c ->
  ec_state c = ECS_PIRQ irq n q -> Q tt (set_dom d (set_links p irq (fst (f n q)) (snd (f n q)) dd) s) ->
  wp tol (pirq_links d p f) Q s.
Proof using.
  intros Hd Hc Hst HQ. unfold pirq_links. wp_steps. eapply wp_chn; [done..|]. rewrite Hst.
  eapply wp_chn_write; [done..|]. by rewrite (on_set d _ s dd).
Qed.

(** The first half of an unlinking: who comes before the port forgets it. *)
Lemma unlink_before d p v n q dd x l1 l2 s (Q : unit -> estate -> Prop) :
  es_doms s !! d = Some dd -> ed_vcpus dd !! v = Some x -> NoDup (l1 ++ p :: l2) ->
  (forall r, r ∈ l1 -> pirq_at dd v r) ->
  pirq_seg dd 0 (vc_pirq_head x) l1 q p -> pirq_list dd p n l2 ->
  (forall dd1 x1, moved v dd dd1 -> ed_vcpus dd1 !! v = Some x1 -> pirq_seg dd1 0 (vc_pirq_head x1) l1 q n ->
    pirq_list dd1 p n l2 -> Q tt (set_dom d dd1 s)) ->
  wp tol (if q =? 0 then vcpu_write d v (fun x => x <| vc_pirq_head := n |>) else pirq_links d q (fun _ q => (n, q))) Q s.
Proof using.
  intros Hd Hx Hnd Hat Hs Hl HQ. apply NoDup_app in Hnd as (Hnd1 & Hdis & Hnd2).
  destruct (pirq_seg_last _ _ _ _ _ _ Hs) as [(-> & Hh & <-)|[Hin Hne]].
  - rewrite Z.eqb_refl. apply wp_vcpu_write. fold_dom. change (dd <| ed_vcpus ::= _ |>) with (set_head v n dd).
    eapply HQ; [apply set_head_moved|by apply set_head_at|done|].
    eapply pirq_list_ext; [|done]. done.
  - rewrite (proj2 (Z.eqb_neq q 0)) by done. destruct (seg_elem _ _ _ _ _ _ Hs Hin) as (c & irq & q' & Hc & Hst).
    destruct (Hat q Hin) as (c' & _ & _ & _ & Hc' & _ & Hn). rewrite Hc in Hc'. injection Hc' as <-.
    eapply wp_pirq_links; [done..|]. cbn [fst snd]. eapply HQ.
    + by eapply set_links_moved.
    + exact Hx.
    + eapply seg_set_next; [done..| |done|done]. intros ->. by apply elem_of_nil in Hin.
    + eapply pirq_list_ext; [|done]. intros r Hr. apply set_links_ne. intros ->. apply (Hdis r); [done|by right].
Qed.

(** The second half: who comes after it points back past it. *)
Lemma unlink_after d p v n q dd x l1 l2 s (Q : unit -> estate -> Prop) :
  es_doms s !! d = Some dd -> ed_vcpus dd !! v = Some x -> NoDup (l1 ++ l2) ->
  (forall r, r ∈ l2 -> pirq_at dd v r) ->
  pirq_seg dd 0 (vc_pirq_head x) l1 q n -> pirq_list dd p n l2 ->
  (forall dd1, moved v dd dd1 -> ed_vcpus dd1 !! v = Some x -> pirq_list dd1 0 (vc_pirq_head x) (l1 ++ l2) ->
    Q tt (set_dom d dd1 s)) ->
  wp tol (if n =? 0 then mret tt else pirq_links d n (fun n _ => (n, q))) Q s.
Proof using.
  intros Hd Hx Hnd Hat Hs Hl HQ. destruct l2 as [|a l2].
  - cbn in Hl. subst n. rewrite Z.eqb_refl. wp_steps. specialize (HQ dd). rewrite set_id in HQ by done.
    apply HQ; [done|done|]. by eapply pirq_seg_list.
  - pose proof Hl as (-> & Hne & c & irq & m & Hc & Hst & _). rewrite (proj2 (Z.eqb_neq a 0)) by done.
    destruct (Hat a) as (c' & _ & _ & _ & Hc' & _ & Hn); [by left|]. rewrite Hc in Hc'. injection Hc' as <-.
    apply NoDup_app in Hnd as (_ & Hdis & Hnd2).
    eapply wp_pirq_links; [done..|]. cbn [fst snd]. eapply HQ; [by eapply set_links_moved|done|].
    eapply pirq_seg_list.
    + eapply pirq_seg_ext; [|done]. intros r Hr. apply set_links_ne. intros ->. apply (Hdis r); [done|by left].
    + by eapply list_set_prev.
Qed.

Lemma unlink_spec d p v dd c irq n q s : es_doms s !! d = Some dd -> lists 0 dd -> is_Some (ed_vcpus dd !! v) ->
  (forall c, chn_at dd 0 = Some c -> ec_state c = ECS_RESERVED) ->
  chn_at dd p = Some c -> ec_state c = ECS_PIRQ irq n q -> ec_notify c = v -> p <> 0 ->
  wp tol (unlink_pirq_port d p v) (fun _ s' => exists dd', s' = set_dom d dd' s /\ moved v dd dd' /\ lists p dd') s.
Proof using.
  intros Hd Hl [x Hx] Hz Hc Hst Hn Hp. destruct (Hl v x Hx) as (ps & Hnd & Hps & Hin).
  assert (Hat : pirq_at dd v p) by (by exists c, irq, n, q).
  destruct (list_elem_of_split ps p) as (l1 & l2 & ->); [by apply Hin|].
  apply pirq_list_split in Hps as (last & Hs & _ & _ & c' & irq' & n' & Hc' & Hst' & Hl2).
  rewrite Hc in Hc'. injection Hc' as <-. rewrite Hst in Hst'. injection Hst' as <- <- <-.
  assert (Hnd' : NoDup (l1 ++ l2)).
  { apply NoDup_app in Hnd as (H1 & H2 & [_ H3]%NoDup_cons). apply NoDup_app. split; [done|]. split; [|done].
    intros r Hr Hr2. apply (H2 r Hr). by right. }
  assert (Hpl : p ∉ l1 ++ l2).
  { apply NoDup_app in Hnd as (_ & H2 & [H3 _]%NoDup_cons). intros [Hi|Hi]%elem_of_app; [|done]. apply (H2 p Hi). by left. }
  assert (Hat' : forall r, r ∈ l1 ++ l2 -> pirq_at dd v r).
  { intros r Hr. apply Hin. apply elem_of_app. apply elem_of_app in Hr as [|]; [by left|by right; right]. }
  unfold unlink_pirq_port. wp_steps. eapply wp_chn; [done..|]. rewrite Hst. wp_steps.
  eapply unlink_before; [done..| |done|done|].
  { intros r Hr. apply Hat', elem_of_app. by left. }
  intros dd1 x1 Hm1 Hx1 Hs1 Hl1. eapply (unlink_after d p v n q dd1); [apply set_dom_eq|done|done| |done|done|].
  { intros r Hr. apply (links_pirq_at dd); [apply Hm1|]. apply Hat', elem_of_app. by right. }
  intros dd2 Hm2 Hx2 Hl12. rewrite set_set. exists dd2. split; [done|].
  assert (Hm : moved v dd dd2) by (by transitivity dd1). split; [done|].
  eapply (moved_lists v dd dd2 0 p); [done..| | |done|].
  - intros i Hi. exfalso. by eapply (pirq_at_nonzero dd i 0).
  - intros i Hi. by eapply pirq_at_fun.
  - exists (l1 ++ l2). split; [done|]. split; [done|]. intros r. split.
    + intros Hr. split; [by apply Hat'|by intros ->].
    + intros [Hr Hne]. assert (Hr0 : r ∈ l1 ++ p :: l2) by (apply Hin; split; [done|by eapply pirq_at_nonzero]).
      rewrite elem_of_app, elem_of_cons in Hr0. rewrite elem_of_app. tauto.
Qed.

Lemma link_spec d p v dd c irq n q s : es_doms s !! d = Some dd -> lists p dd -> shape dd -> is_Some (ed_vcpus dd !! v) ->
  (forall c, chn_at dd 0 = Some c -> ec_state c = ECS_RESERVED) ->
  chn_at dd p = Some c -> ec_state c = ECS_PIRQ irq n q -> ec_notify c = v -> p <> 0 ->
  wp tol (link_pirq_port d p v) (fun _ s' => exists dd', s' = set_dom d dd' s /\ moved v dd dd' /\ lists 0 dd') s.
Proof using.
  intros Hd Hl Hsh [x Hx] Hz Hc Hst Hn Hp. destruct (Hl v x Hx) as (ps & Hnd & Hps & Hin).
  assert (Hat : pirq_at dd v p) by (by exists c, irq, n, q).
  assert (Hpp : p ∉ ps) by (intros Hi; by apply Hin in Hi as [_ ?]).
  set (h := vc_pirq_head x) in *.
  assert (Hu : u16 h = h).
  { destruct ps as [|a ps]; [by cbn in Hps; rewrite Hps|]. destruct Hps as (-> & _ & c' & _ & _ & Hc' & _). by eapply chn_u16. }
  set (dd1 := set_links p irq h 0 dd).
  assert (Hm1 : moved v dd dd1) by (by eapply set_links_moved).
  assert (Hc1 : exists c1, chn_at dd1 p = Some c1 /\ ec_state c1 = ECS_PIRQ irq h 0).
  { eexists. split; [by apply set_links_at|done]. }
  assert (Hl1 : pirq_list dd1 0 h ps) by (eapply pirq_list_ext; [|done]; intros r Hr; apply set_links_ne; by intros ->).
  assert (Hend : forall dd2 s2, moved v dd dd2 -> ed_vcpus dd2 !! v = Some x -> pirq_list dd2 p h ps ->
    (exists c1, chn_at dd2 p = Some c1 /\ ec_state c1 = ECS_PIRQ irq h 0) -> es_doms s2 !! d = Some dd2 ->
    wp tol (vcpu_write d v (fun x => x <| vc_pirq_head := p |>))
      (fun _ s' => exists dd', s' = set_dom d dd' s2 /\ moved v dd dd' /\ lists 0 dd') s2).
  { intros dd2 s2 Hm2 Hx2 Hl2 (c2 & Hc2 & Hst2) Hs2. apply wp_vcpu_write. fold_dom. fold (set_head v p dd2).
    exists (set_head v p dd2). split; [done|]. assert (Hm : moved v dd (set_head v p dd2)).
    { transitivity dd2; [done|apply set_head_moved]. }
    split; [done|]. eapply (moved_lists v dd _ p 0); [done..| | |by apply set_head_at|].
    - intros i Hi. by eapply pirq_at_fun.
    - intros i Hi. exfalso. by eapply (pirq_at_nonzero dd i 0).
    - exists (p :: ps). split; [by constructor|]. split.
      + cbn. split; [done|]. split; [done|]. exists c2, irq, h. split; [exact Hc2|]. split; [done|].
        eapply pirq_list_ext; [|exact Hl2]. done.
      + intros r. rewrite elem_of_cons, Hin. split.
        * intros [->|[Hr _]]; [done|]. split; [done|by eapply pirq_at_nonzero].
        * intros [Hr _]. destruct (decide (r = p)); [by left|by right]. }
  unfold link_pirq_port. wp_steps. eapply wp_vcpu_read; [done..|]. fold h. wp_steps.
  eapply wp_pirq_links; [done..|]. cbn [fst snd]. rewrite Hu. fold dd1. wp_steps.
  destruct (Z.eqb_spec h 0) as [Hh|Hh]; wp_steps.
  - assert (ps = []) as -> by (rewrite Hh in Hps; by eapply pirq_list_nil).
    eapply wp_mono; [apply (Hend dd1); [done|done|exact Hh|done|apply set_dom_eq]|].
    intros _ s' (dd' & -> & H). exists dd'. by rewrite set_set.
  - destruct ps as [|a ps]; [by cbn in Hps|]. assert (a = h) as -> by (by destruct Hps).
    pose proof Hl1 as (_ & _ & ch & irqh & nh & Hch & Hsth & _).
    assert (Hne : h <> p) by (intros ->; apply Hpp; by left).
    eapply (wp_pirq_links _ _ _ dd1); [apply set_dom_eq|done..|]. cbn [fst snd]. rewrite set_set.
    assert (Hpu : u16 p = p) by (by eapply chn_u16). rewrite Hpu.
    eapply wp_mono; [apply (Hend (set_links h irqh nh p dd1))|].
    + transitivity dd1; [done|]. eapply set_links_moved; [done..|].
      destruct (links_back _ _ _ _ (mv_links _ _ _ Hm1) Hch) as (c0 & Hc0 & Hu0). rewrite (unlinked_notify _ _ Hu0).
      destruct (Hin h) as [[Hah _] _]; [by left|]. destruct Hah as (c0' & _ & _ & _ & Hc0' & _ & Hn'). congruence.
    + done.
    + by eapply list_set_prev.
    + rewrite set_links_ne by done. done.
    + apply set_dom_eq.
    + intros _ s' (dd' & -> & H). exists dd'. by rewrite set_set.
Qed.

(** The walk along a list meets its ports in order. *)
Lemma walk_spec d dd s : es_doms s !! d = Some dd -> forall ps prev head n irqs, (length ps <= n)%nat ->
  pirq_list dd prev head ps ->
  wp tol (pirq_walk n d head irqs) (fun r s' => s' = s /\ exists irs, r = irqs ++ irs /\
    Forall2 (fun p irq => exists c n q, chn_at dd p = Some c /\ ec_state c = ECS_PIRQ irq n q) ps irs) s.
Proof using.
  intros Hd. induction ps as [|p ps IH]; intros prev head n irqs Hn Hl; cbn in Hl.
  - subst head. destruct n; cbn [pirq_walk]; rewrite Z.eqb_refl; wp_steps; (split; [done|]);
      exists []; (split; [by rewrite app_nil_r|constructor]).
  - destruct Hl as (-> & H0 & c & irq & m & Hc & Hst & Hl). destruct n as [|n]; [cbn in Hn; lia|]. cbn [pirq_walk].
    rewrite (proj2 (Z.eqb_neq p 0)) by done. wp_steps. eapply wp_chn; [done..|]. rewrite Hst.
    eapply wp_mono; [apply (IH p m n (irqs ++ [irq])); [cbn in Hn; lia|done]|].
    intros r s' (-> & irs & -> & HF). split; [done|]. exists (irq :: irs). split; [by rewrite <- app_assoc|].
    constructor; [|done]. by exists c, m, prev.
Qed.
End Lists.
