(* ===== verification/EvtchnClose.v ===== *)
(** Closing a port ([__evtchn_close]): the tables forget it, the lists lose
    it, and the other end of a pair waits again. *)
From S2P Require Import Prelude CMonad Evtchn EvtchnInv EvtchnPorts EvtchnLists.

(** * A domain without a port *)

Record freed (p : Z) (dd dd' : edom) : Prop := {
  fd_dying : ed_dying dd' = ed_dying dd;
  fd_shape : shape dd';
  fd_has : forall i, is_Some (ed_vcpus dd' !! i) <-> is_Some (ed_vcpus dd !! i);
  fd_chn : forall q, chn_at dd' q = if decide (q = p) then Some zero_chn else chn_at dd q;
  fd_virq : forall i x v r, ed_vcpus dd' !! i = Some x -> vc_virqs x !! v = Some r -> r <> 0 ->
    r <> p /\ exists y, ed_vcpus dd !! i = Some y /\ vc_virqs y !! v = Some r;
  fd_virq_back : forall i y v r, ed_vcpus dd !! i = Some y -> vc_virqs y !! v = Some r -> r <> p ->
    exists x, ed_vcpus dd' !! i = Some x /\ vc_virqs x !! v = Some r;
  fd_pirq : forall irq r, ed_pirqs dd' !! irq = Some r -> r <> 0 -> r <> p /\ ed_pirqs dd !! irq = Some r;
  fd_pirq_back : forall irq r, ed_pirqs dd !! irq = Some r -> r <> p -> ed_pirqs dd' !! irq = Some r;
}.

Lemma freed_tables p dd dd' : p <> 0 -> tables dd -> freed p dd dd' -> tables dd'.
Proof.
  intros Hp [H0 H1 H2 H3 H4 H5 H6 H7] [F0 F1 F2 F3 F4 F5 F6 F7].
  assert (Hback : forall q c, chn_at dd' q = Some c -> ec_state c <> ECS_FREE -> q <> p /\ chn_at dd q = Some c).
  { intros q c. rewrite F3. case_decide; [by intros [= <-]|done]. }
  split.
  - done.
  - intros q c. rewrite F3. case_decide as Hq.
    + intros [= <-]. split; [apply F2, H0|done|done].
    + intros Hc. destruct (H1 q c Hc). split; [by apply F2|done..].
  - intros c Hc. rewrite F3, decide_False in Hc by done. by apply H2.
  - rewrite F0. intros Hd. rewrite F3, decide_False by done. by apply H3.
  - intros i x v r Hx Hv Hr. destruct (F4 i x v r Hx Hv Hr) as (Hne & y & Hy & Hyv). rewrite F3, decide_False by done. eauto.
  - intros q c v Hc Hst. destruct (Hback q c Hc) as [Hne Hc0]; [congruence|].
    destruct (H5 q c v Hc0 Hst) as (Hr & i & y & Hy & Hv). split; [done|]. destruct (F5 i y _ q Hy Hv Hne) as (x & Hx & Hxv).
    by exists i, x.
  - intros irq r Hi Hr. destruct (F6 irq r Hi Hr) as [Hne Hi0]. rewrite F3, decide_False by done. eauto.
  - intros q c irq n m Hc Hst. destruct (Hback q c Hc) as [Hne Hc0]; [congruence|].
    destruct (H7 q c irq n m Hc0 Hst) as [Hir Hi]. split; [done|]. by apply F7.
Qed.

Definition is_pirq (c : evtchn) : Prop := match ec_state c with ECS_PIRQ _ _ _ => True | _ => False end.

Lemma pirq_at_is dd i p c : chn_at dd p = Some c -> ~ is_pirq c -> ~ pirq_at dd i p.
Proof. intros Hc Hn (c' & irq & n & q & Hc' & Hst & _). apply Hn. unfold is_pirq. congruence || (replace c with c' by congruence; by rewrite Hst). Qed.

Lemma lists_ext out dd dd' : (forall p, chn_at dd' p = chn_at dd p) ->
  (forall i, vc_pirq_head <$> ed_vcpus dd' !! i = vc_pirq_head <$> ed_vcpus dd !! i) -> lists out dd -> lists out dd'.
Proof.
  intros Hc Hh Hl i x Hx. specialize (Hh i). rewrite Hx in Hh. destruct (ed_vcpus dd !! i) as [y|] eqn:Hy; [|done].
  injection Hh as ->. destruct (Hl i y Hy) as (ps & Hnd & Hps & Hin). exists ps. split; [done|]. split.
  - eapply pirq_list_ext; [|done]. intros p _. apply Hc.
  - intros p. by rewrite Hin, (pirq_at_ext dd dd').
Qed.

(** A port that is on no list. *)
Lemma lists_other p dd c : (forall c, chn_at dd 0 = Some c -> ec_state c = ECS_RESERVED) ->
  chn_at dd p = Some c -> ~ is_pirq c -> lists 0 dd <-> lists p dd.
Proof.
  intros Hz Hc Hn.
  assert (He : forall i q, pirq_at dd i q /\ q <> 0 <-> pirq_at dd i q /\ q <> p).
  { intros i q. split; intros [Hq _]; (split; [done|]); [|by eapply pirq_at_nonzero]. intros ->.
    by apply (pirq_at_is dd i p c Hc Hn). }
  split; intros Hl i x Hx; destruct (Hl i x Hx) as (ps & Hnd & Hps & Hin); exists ps; (split; [done|]);
    (split; [done|]); intros q; by rewrite Hin, He.
Qed.

(** The port that is out of the lists becomes something else. *)
Lemma lists_put p f dd c : (forall c, chn_at dd 0 = Some c -> ec_state c = ECS_RESERVED) ->
  chn_at dd p = Some c -> ~ is_pirq (f c) -> lists p dd -> lists 0 (put_chn p f dd).
Proof.
  intros Hz Hc Hf Hl i x Hx. destruct (Hl i x Hx) as (ps & Hnd & Hps & Hin). exists ps. split; [done|]. split.
  - eapply pirq_list_ext; [|done]. intros q Hq. rewrite chn_at_put, decide_False; [done|]. intros ->.
    by apply Hin in Hq as [_ ?].
  - intros q. rewrite Hin. destruct (decide (p = q)) as [<-|Hne].
    + split; [tauto|]. intros [Hq _]. exfalso. eapply pirq_at_is; [|exact Hf|exact Hq]. by rewrite chn_at_put, decide_True, Hc.
    + rewrite (pirq_at_ext dd (put_chn p f dd) i q) by (by rewrite chn_at_put, decide_False).
      split; intros [Hq ?]; (split; [done|]); [by eapply pirq_at_nonzero|done].
Qed.

Definition free_chn (c : evtchn) : evtchn := c <| ec_state := ECS_FREE |> <| ec_notify := 0 |>.

Lemma free_zero c : ec_xen c = false -> free_chn c = zero_chn.
Proof. destruct c. cbn. by intros ->. Qed.

(** Freeing an entry of no table. *)
Lemma freed_plain p dd c : dom_ok dd -> chn_at dd p = Some c -> ec_xen c = false -> plain c ->
  freed p dd (put_chn p free_chn dd).
Proof.
  intros Hok Hc Hx Hp. split; try done; [apply put_shape, Hok| |..].
  - intros q. rewrite chn_at_put. destruct (decide (p = q)) as [<-|Hne].
    + rewrite decide_True by done. rewrite Hc. cbn. by rewrite free_zero.
    + by rewrite decide_False.
  - intros i x v r Hv Hl Hr. destruct (do_virq _ Hok i x v r Hv Hl Hr) as (c' & Hc' & Hst & _). split; [|by exists x].
    intros ->. rewrite Hc in Hc'. injection Hc' as <-. unfold plain in Hp. by rewrite Hst in Hp.
  - eauto.
  - intros irq r Hi Hr. destruct (do_pirq _ Hok irq r Hi Hr) as (c' & n & q & Hc' & Hst). split; [|done].
    intros ->. rewrite Hc in Hc'. injection Hc' as <-. unfold plain in Hp. by rewrite Hst in Hp.
Qed.

(** Freeing a physical interrupt. *)
Definition drop_pirq (irq : Z) (dd : edom) : edom := dd <| ed_pirqs ::= <[Z.to_nat irq := 0]> |>.

Lemma freed_pirq p dd c irq n q : tables dd -> chn_at dd p = Some c -> ec_xen c = false -> ec_state c = ECS_PIRQ irq n q ->
  p <> 0 -> freed p dd (put_chn p free_chn (drop_pirq irq dd)).
Proof.
  intros Ht Hc Hx Hst Hp. destruct (tb_pirq_back _ Ht p c irq n q Hc Hst) as [Hir Hi].
  split; try done.
  - apply put_shape. destruct (tb_shape _ Ht) as [S1 S2 S3 S4 S5 S6]. split; try done. cbn. by rewrite length_insert.
  - intros r. rewrite chn_at_put. change (chn_at (drop_pirq irq dd) r) with (chn_at dd r).
    destruct (decide (p = r)) as [<-|Hne].
    + rewrite decide_True by done. rewrite Hc. cbn. by rewrite free_zero.
    + by rewrite decide_False.
  - intros i x v r Hv Hl Hr. destruct (tb_virq _ Ht i x v r Hv Hl Hr) as (c' & Hc' & Hst' & _). split; [|by exists x].
    intros ->. congruence.
  - eauto.
  - intros j r. cbn. intros [[<- [<- _]]|[Hj Hjr]]%list_lookup_insert_Some Hr; [done|]. split; [|done]. intros ->.
    destruct (tb_pirq _ Ht j p Hjr Hp) as (c' & n' & q' & Hc' & Hst'). rewrite Hc in Hc'. injection Hc' as <-.
    rewrite Hst in Hst'. injection Hst' as -> _ _. lia.
  - intros j r Hj Hr. cbn. rewrite list_lookup_insert_ne; [done|]. intros <-. congruence.
Qed.

(** Freeing a virtual interrupt: no processor keeps it. *)
Definition drop_virq (virq p : Z) (x : vcpu) : vcpu :=
  x <| vc_virqs ::= fun l => if decide (l !! Z.to_nat virq = Some p) then <[Z.to_nat virq := 0]> l else l |>.

Lemma drop_virq_at virq p x v r : vc_virqs (drop_virq virq p x) !! v = Some r -> r <> 0 ->
  vc_virqs x !! v = Some r /\ (v = Z.to_nat virq -> r <> p).
Proof.
  unfold drop_virq. cbn. case_decide as Hl; intros Hv Hr.
  - apply list_lookup_insert_Some in Hv as [[-> [<- _]]|[Hne Hv]]; [done|]. split; [done|]. by intros ->.
  - split; [done|]. intros -> ->. done.
Qed.

Lemma freed_virq p dd c virq : dom_ok dd -> chn_at dd p = Some c -> ec_xen c = false -> ec_state c = ECS_VIRQ virq ->
  p <> 0 -> freed p dd (put_chn p free_chn (dd <| ed_vcpus ::= fmap (drop_virq virq p) |>)).
Proof.
  intros Hok Hc Hx Hst Hp. destruct (do_virq_back _ Hok p c virq Hc Hst) as [Hr _].
  assert (Hhas : forall i, is_Some ((drop_virq virq p <$> ed_vcpus dd) !! i) <-> is_Some (ed_vcpus dd !! i)).
  { intros i. by rewrite lookup_fmap, fmap_is_Some. }
  split; try done.
  - apply put_shape. destruct (do_shape _ Hok) as [S1 S2 S3 S4 S5 S6]. split; try done.
    + intros i x Hi. cbn in Hi. rewrite lookup_fmap in Hi. destruct (ed_vcpus dd !! i) as [y|] eqn:Hy; [|done].
      injection Hi as <-. destruct (S2 i y Hy) as (A1 & A2 & A3). split; [done|]. split; [done|]. unfold drop_virq. cbn.
      case_decide; by rewrite ?length_insert.
    + by apply Hhas.
    + intros v Hv. by apply Hhas, S5.
  - intros q. rewrite chn_at_put. change (chn_at (dd <| ed_vcpus ::= _ |>) q) with (chn_at dd q).
    destruct (decide (p = q)) as [<-|Hne].
    + rewrite decide_True by done. rewrite Hc. cbn. by rewrite free_zero.
    + by rewrite decide_False.
  - intros i x v r Hi Hv Hr0. cbn in Hi. rewrite lookup_fmap in Hi. destruct (ed_vcpus dd !! i) as [y|] eqn:Hy; [|done].
    injection Hi as <-. destruct (drop_virq_at _ _ _ _ _ Hv Hr0) as [Hyv Hne]. split; [|by exists y].
    intros ->. destruct (do_virq _ Hok i y v p Hy Hyv Hp) as (c' & Hc' & Hst' & _). rewrite Hc in Hc'. injection Hc' as <-.
    rewrite Hst in Hst'. injection Hst' as ->. by apply Hne; [rewrite Nat2Z.id|].
  - intros i y v r Hy Hv Hne. exists (drop_virq virq p y). split; [cbn; by rewrite lookup_fmap, Hy|]. unfold drop_virq. cbn.
    case_decide as Hd; [|done]. rewrite list_lookup_insert_ne; [done|]. intros <-. congruence.
  - intros irq r Hi Hr0. destruct (do_pirq _ Hok irq r Hi Hr0) as (c' & n & q & Hc' & Hst'). split; [|done].
    intros ->. congruence.
Qed.

(** * What closing leaves alone *)

Record ports_kept (dd dd' : edom) : Prop := {
  pk_dying : ed_dying dd' = ed_dying dd;
  pk_hvm : ed_hvm dd' = ed_hvm dd;
  pk_32bit : ed_32bit dd' = ed_32bit dd;
  pk_max : ed_max_vcpus dd' = ed_max_vcpus dd;
  pk_mask : ed_mask dd' = ed_mask dd;
  pk_chns : forall p, is_Some (chn_at dd' p) <-> is_Some (chn_at dd p);
}.

#[export] Instance ports_kept_preorder : PreOrder ports_kept.
Proof.
  split; [by intros dd; split|]. intros dd1 dd2 dd3 [] []. split; try congruence.
  intros p. by rewrite pk_chns1.
Qed.

Definition kept (s s' : estate) : Prop := forall d, option_Forall2 ports_kept (es_doms s !! d) (es_doms s' !! d).

#[export] Instance kept_preorder : PreOrder kept.
Proof.
  split.
  - intros s d. destruct (es_doms s !! d); by constructor.
  - intros s1 s2 s3 H1 H2 d. specialize (H1 d). specialize (H2 d).
    inversion H1 as [x y Hxy Ex Ey|Ex Ey]; rewrite <- Ey in H2; inversion H2 as [y' z Hyz|]; constructor.
    by transitivity y.
Qed.

Lemma kept_forth s s' d dd : kept s s' -> es_doms s !! d = Some dd -> exists dd', es_doms s' !! d = Some dd' /\ ports_kept dd dd'.
Proof. intros Hs Hd. specialize (Hs d). rewrite Hd in Hs. inversion Hs; subst; eauto. Qed.

Lemma kept_set d dd dd' s : es_doms s !! d = Some dd -> ports_kept dd dd' -> kept s (set_dom d dd' s).
Proof.
  intros Hd Hk d'. destruct (decide (d = d')) as [<-|Hne].
  - rewrite set_dom_eq, Hd. by constructor.
  - rewrite set_dom_ne by done. destruct (es_doms s !! d'); by constructor.
Qed.

Lemma kept_chn d p f s : kept s (on d (put_chn p f) s).
Proof.
  intros d'. destruct (decide (d = d')) as [<-|Hne].
  - destruct (es_doms s !! d) as [dd|] eqn:Hd; [|unfold on; cbn; rewrite lookup_alter_eq, Hd; constructor].
    rewrite (on_eq d _ s dd Hd). constructor. split; try done. intros q. rewrite chn_at_put. case_decide; [|done].
    by rewrite fmap_is_Some.
  - rewrite on_ne by done. destruct (es_doms s !! d'); by constructor.
Qed.

Lemma moved_kept v dd dd' : moved v dd dd' -> ports_kept dd dd'.
Proof.
  intros [Hl _ _ _]. split; try apply Hl. intros p.
  by rewrite <- (fmap_is_Some unlinked), (lo_chns _ _ Hl p), fmap_is_Some.
Qed.

(** * The machine without a port *)

Definition unpend (p : Z) (dd : edom) : edom := dd <| ed_pending ::= fun m => m ∖ {[p]} |>.

Lemma unpend_same p dd : dsame dd (unpend p dd).
Proof. split; cbn; auto. Qed.

Lemma unpend_links p dd : links_only dd (unpend p dd).
Proof. split; try done. by intros []. Qed.

Lemma bound_unlinked c : bound (unlinked c) = bound c.
Proof. destruct c as [[] xen nt]; done. Qed.

Lemma freed_ok p dd dd' : p <> 0 -> tables dd -> freed p dd dd' -> lists 0 dd' -> dom_ok dd'.
Proof. intros Hp Ht Hf Hl. apply dom_ok_split. split; [by eapply freed_tables|done]. Qed.

Lemma close_plain p dd c : dom_ok dd -> chn_at dd p = Some c -> ec_xen c = false -> plain c -> p <> 0 ->
  dom_ok (put_chn p free_chn (unpend p dd)).
Proof.
  intros Hok Hc Hx Hp H0. pose proof (dsame_ok _ _ (unpend_same p dd) Hok) as Hok1.
  pose proof Hok1 as [Ht1 Hl1]%dom_ok_split.
  eapply freed_ok; [done|exact Ht1|by eapply freed_plain|]. eapply lists_put; [apply Hok1|exact Hc|intros []|].
  eapply lists_other; [apply Hok1|exact Hc| |done]. unfold is_pirq, plain in *. destruct (ec_state c); tauto.
Qed.

(** Nothing but the port changes, up to the links of others. *)
Lemma close_wrap d p dd dd' c s : ewf s -> es_doms s !! d = Some dd -> dom_ok dd' -> chn_at dd p = Some c -> ~ paired c ->
  (forall q, unlinked <$> chn_at dd' q = if decide (q = p) then Some zero_chn else unlinked <$> chn_at dd q) ->
  ewf (set_dom d dd' s) /\ veq (view (set_dom d dd' s)) (upd d p None (view s)).
Proof.
  intros [H1 H2] Hd Hok Hc Hp Hch. split; [split|].
  - intros d' x. destruct (decide (d = d')) as [<-|Hne]; [rewrite set_dom_eq; by intros [= <-]|].
    rewrite set_dom_ne by done. apply H1.
  - apply peers_chn. rewrite peers_chn in H2.
    assert (Hb : forall d' q c' rd rp, chn (set_dom d dd' s) d' q = Some c' -> ec_state c' = ECS_INTERDOMAIN rd rp ->
      exists c0, chn s d' q = Some c0 /\ ec_state c0 = ECS_INTERDOMAIN rd rp).
    { intros d' q c' rd rp. rewrite chn_set. case_decide as Hdd; [subst d'|by eauto]. intros Hc' Hst. specialize (Hch q).
      rewrite Hc' in Hch. cbn in Hch. case_decide as Hq; [injection Hch as Hu; unfold unlinked in Hu; rewrite Hst in Hu; by subst c'|].
      destruct (chn_at dd q) as [c0|] eqn:Hc0; [|done]. injection Hch as Hu. exists c0. split; [apply chn_Some; by exists dd|].
      destruct c' as [[] xen nt]; try done. symmetry in Hu. rewrite (unlinked_state _ _ Hu); [done|exact I]. }
    intros d' q c' rd rp Hc' Hst. destruct (Hb _ _ _ _ _ Hc' Hst) as (c0 & Hc0 & Hst0).
    destruct (H2 _ _ _ _ _ Hc0 Hst0) as (rc & Hrc & Hrs). exists rc. split; [|done]. rewrite chn_set.
    case_decide as Hdd; [subst rd|done]. apply chn_Some in Hrc as (dd0 & Hd0 & Hrc). rewrite Hd in Hd0. injection Hd0 as <-.
    specialize (Hch rp). case_decide as Hq.
    + subst rp. rewrite Hc in Hrc. injection Hrc as <-. unfold paired in Hp. by rewrite Hrs in Hp.
    + rewrite Hrc in Hch. destruct (chn_at dd' rp) as [c1|]; [|done]. injection Hch as Hu.
      destruct rc as [[] xen nt]; try done. by rewrite (unlinked_state _ _ Hu).
  - intros d' q. unfold view, upd. rewrite chn_set. destruct (decide (d = d')) as [<-|Hne].
    + specialize (Hch q). unfold chn. rewrite Hd. cbn. destruct (decide (p = q)) as [<-|Hne].
      * rewrite decide_True in Hch by done. rewrite decide_True by done. destruct (chn_at dd' p) as [c'|]; [|done].
        injection Hch as Hu. cbn. by rewrite <- bound_unlinked, Hu.
      * rewrite decide_False in Hch by done. rewrite decide_False by tauto.
        destruct (chn_at dd' q) as [c'|], (chn_at dd q) as [c0|]; try done. injection Hch as Hu. cbn.
        by rewrite <- bound_unlinked, Hu, bound_unlinked.
    + rewrite decide_False by tauto. done.
Qed.

(** Both ends of a pair change. *)
Lemma close_peers d p d2 p2 c g s s' : peers s -> chn s d p = Some c -> ec_state c = ECS_INTERDOMAIN d2 p2 ->
  (forall x, ~ paired (g x)) ->
  (forall d' q, chn s' d' q = if decide (d = d' /\ p = q) then Some zero_chn
    else if decide (d2 = d' /\ p2 = q) then g <$> chn s d' q else chn s d' q) -> peers s'.
Proof.
  rewrite !peers_chn. intros H2 Hc Hst Hg Hch d' q c' rd rp. rewrite Hch.
  case_decide as H1; [by intros [= <-]|]. case_decide as H3.
  { destruct (chn s d' q) as [c0|]; [|done]. intros [= <-] Hs. exfalso. apply (Hg c0). unfold paired. by rewrite Hs. }
  intros Hc' Hst'. destruct (H2 _ _ _ _ _ Hc' Hst') as (rc & Hrc & Hrs). exists rc. split; [|done].
  rewrite Hch, !decide_False; [done|..].
  - intros [<- <-]. destruct (H2 _ _ _ _ _ Hc Hst) as (c2 & Hc2 & Hs2). rewrite Hrc in Hc2. injection Hc2 as <-.
    apply H1. rewrite Hrs in Hs2. by injection Hs2 as -> ->.
  - intros [<- <-]. rewrite Hc in Hrc. injection Hrc as <-. apply H3. rewrite Hst in Hrs. by injection Hrs as -> ->.
Qed.

(** * The operation *)

Definition back_to (d : Z) (c : evtchn) : evtchn := c <| ec_state := ECS_UNBOUND d |>.

(** What closing a port makes of the bindings, unless it is refused. *)
Definition v_close (d p : Z) (V : eview) : option eview :=
  match V d p with
  | None => None
  | Some c =>
      if ec_xen c then None
      else match ec_state c with
        | ECS_FREE | ECS_RESERVED => None
        | ECS_INTERDOMAIN d2 p2 => Some (upd d p None (upd d2 p2 (back_to d <$> V d2 p2) V))
        | _ => Some (upd d p None V)
        end
  end.

Lemma v_close_proper d p V V' : veq V V' -> option_Forall2 veq (v_close d p V) (v_close d p V').
Proof.
  intros HV. unfold v_close. rewrite (HV d p). destruct (V' d p) as [[st xen nt]|]; [|constructor]. cbn.
  destruct xen; [constructor|]. destruct st; constructor; rewrite ?(HV _ _); by rewrite HV.
Qed.

Section Close.
Context (tol : fault -> Prop).
Implicit Types (s : estate) (dd : edom) (c : evtchn) (d p v : Z).

Lemma free_tail d p dd c s (Q : Z -> estate -> Prop) : es_doms s !! d = Some dd -> chn_at dd p = Some c ->
  Q 0 (set_dom d (put_chn p free_chn (unpend p dd)) s) ->
  wp tol (dom_write d (fun dd => dd <| ed_pending ::= fun m => m ∖ {[p]} |>);;
          chn_write d p (fun c => c <| ec_state := ECS_FREE |> <| ec_notify := 0 |>);; mret 0) Q s.
Proof using.
  intros Hd Hc HQ. wp_steps. apply wp_dom_write. fold_dom. wp_steps. eapply wp_chn_write; [apply set_dom_eq|exact Hc|].
  rewrite on_set_dom. by wp_steps.
Qed.

(** The processors forget a virtual interrupt. *)
Lemma clear_spec d virq p dd s : es_doms s !! d = Some dd -> shape dd -> 0 <= virq < NR_VIRQS ->
  wp tol (for_each (vcpu_ids dd) (clear_virq d virq p) tt)
    (fun _ s' => s' = set_dom d (dd <| ed_vcpus ::= fmap (drop_virq virq p) |>) s) s.
Proof using.
  intros Hd Hsh Hv.
  set (I := fun (l : list Z) (_ : unit) s' => NoDup l /\ exists vs, s' = set_dom d (dd <| ed_vcpus := vs |>) s /\
    forall i, vs !! i = (if decide (i ∈ l) then id else drop_virq virq p) <$> ed_vcpus dd !! i).
  eapply (wp_for_each _ _ I).
  - split; [apply NoDup_seqZ|]. exists (ed_vcpus dd). split; [rewrite set_id; [done|by destruct dd]|]. intros i. destruct (ed_vcpus dd !! i) as [x|] eqn:Hx; [|done].
    rewrite decide_True; [done|]. apply elem_of_seqZ. destruct (sh_vcpus _ Hsh i x Hx). lia.
  - intros _ s' (_ & vs & -> & Hvs). f_equal. unfold setter. cbn. f_equal. apply map_eq. intros i. rewrite lookup_fmap, Hvs.
    by rewrite decide_False by (by intros ?%elem_of_nil).
  - intros i l [] s' ([Hil Hnd]%NoDup_cons & vs & -> & Hvs). unfold clear_virq. wp_steps. eapply wp_dom_read; [apply set_dom_eq|]. cbn.
    pose proof (Hvs i) as Hi. rewrite decide_True in Hi by (by left).
    assert (Hl : forall j, j <> i -> (if decide (j ∈ i :: l) then @id vcpu else drop_virq virq p) =
      (if decide (j ∈ l) then id else drop_virq virq p)).
    { intros j Hj. destruct (decide (j ∈ l)); [rewrite decide_True by (by right)|
        rewrite decide_False by (by intros [?|?]%elem_of_cons)]; done. }
    destruct (ed_vcpus dd !! i) as [x|] eqn:Hx; cbn in Hi; rewrite Hi.
    2:{ wp_steps. split; [done|]. exists vs. split; [done|]. intros j. destruct (decide (j = i)) as [->|Hne]; [by rewrite Hi, Hx|].
        by rewrite Hvs, Hl. }
    destruct (sh_vcpus _ Hsh i x Hx) as (Hr1 & Hr2 & Hlen).
    destruct (lookup_lt_is_Some_2 (vc_virqs x) (Z.to_nat virq)) as [r Hr]; [rewrite Hlen; unfold NR_VIRQS in *; lia|].
    wp_steps. eapply wp_cell; [lia|exact Hr|]. wp_steps.
    destruct (Z.eqb_spec r p) as [->|Hne]; cbn [negb]; wp_steps.
    + unfold virq_write. wp_steps. unfold virq_read. wp_steps. eapply wp_vcpu_read; [apply set_dom_eq|exact Hi|].
      eapply wp_cell; [lia|exact Hr|]. wp_steps. apply wp_vcpu_write. wp_steps. rewrite on_set_dom.
      split; [done|]. eexists. split; [done|]. intros j. cbn. rewrite lookup_alter. case_decide as Hij; [subst j|by rewrite Hvs, Hl].
      rewrite Hi, Hx, decide_False by done. cbn. f_equal. unfold drop_virq, setter. cbn. by rewrite decide_True.
    + split; [done|]. exists vs. split; [done|]. intros j. destruct (decide (j = i)) as [->|Hji]; [|by rewrite Hvs, Hl].
      rewrite Hi, Hx, decide_False by done. cbn. f_equal. unfold drop_virq, setter. cbn. rewrite decide_False by congruence.
      by destruct x.
Qed.

(** How closing ends, seen from outside. *)
Definition closed d p s (rc : Z) s' : Prop := ewf s' /\ kept s s' /\
  match v_close d p (view s) with
  | Some V' => rc = 0 /\ veq (view s') V' /\ forall dd', es_doms s' !! d = Some dd' -> p ∉ ed_pending dd'
  | None => rc = - EINVAL /\ s' = s
  end.

Lemma unpend_kept p dd : ports_kept dd (unpend p dd).
Proof using. by split. Qed.

Lemma put_kept p f dd : ports_kept dd (put_chn p f dd).
Proof using. split; try done. intros q. rewrite chn_at_put. case_decide; [by rewrite fmap_is_Some|done]. Qed.

Lemma free_at p dd dd' c q : ec_xen c = false -> chn_at dd' p = Some c ->
  (forall q, q <> p -> unlinked <$> chn_at dd' q = unlinked <$> chn_at dd q) ->
  unlinked <$> chn_at (put_chn p free_chn (unpend p dd')) q = if decide (q = p) then Some zero_chn else unlinked <$> chn_at dd q.
Proof using.
  intros Hx Hc Hu. rewrite chn_at_put. change (chn_at (unpend p dd') q) with (chn_at dd' q).
  destruct (decide (p = q)) as [<-|Hne].
  - rewrite decide_True by done. rewrite Hc. cbn [fmap option_fmap option_map]. by rewrite free_zero.
  - rewrite decide_False by done. by apply Hu.
Qed.

Lemma close_done d p dd dd' c c' s : ewf s -> es_doms s !! d = Some dd -> chn_at dd p = Some c -> ~ paired c ->
  v_close d p (view s) = Some (upd d p None (view s)) ->
  dom_ok (put_chn p free_chn (unpend p dd')) -> chn_at dd' p = Some c' -> ec_xen c' = false -> ports_kept dd dd' ->
  (forall q, q <> p -> unlinked <$> chn_at dd' q = unlinked <$> chn_at dd q) ->
  closed d p s 0 (set_dom d (put_chn p free_chn (unpend p dd')) s).
Proof using.
  intros Hw Hd Hc Hp Hv Hok Hc' Hx Hk Hu.
  destruct (close_wrap d p dd (put_chn p free_chn (unpend p dd')) c s) as [A B]; [done..| |].
  { intros q. by apply (free_at p dd dd' c'). }
  split; [done|]. split.
  - apply (kept_set d dd); [done|]. transitivity dd'; [done|]. transitivity (unpend p dd'); [apply unpend_kept|apply put_kept].
  - rewrite Hv. split; [done|]. split; [done|]. intros x. rewrite set_dom_eq. intros [= <-]. cbn. set_solver.
Qed.

Lemma close_pirq d p dd c irq n q s : ewf s -> es_doms s !! d = Some dd -> chn_at dd p = Some c -> ec_xen c = false ->
  ec_state c = ECS_PIRQ irq n q -> p <> 0 -> v_close d p (view s) = Some (upd d p None (view s)) ->
  wp tol (pirq_write d irq 0;; unlink_pirq_port d p (ec_notify c);;
    dom_write d (fun dd => dd <| ed_pending ::= fun m => m ∖ {[p]} |>);;
    chn_write d p (fun c => c <| ec_state := ECS_FREE |> <| ec_notify := 0 |>);; mret 0) (closed d p s) s.
Proof using.
  intros Hw Hd Hc Hx Hst Hp Hv. pose proof (ew_dom _ Hw _ _ Hd) as Hok. pose proof Hok as [Ht Hl]%dom_ok_split.
  destruct (do_pirq_back _ Hok p c irq n q Hc Hst) as [Hir Hi].
  unfold pirq_write, pirq_read. wp_steps. eapply wp_dom_read; [done|]. eapply wp_cell; [done..|]. wp_steps.
  apply wp_dom_write. fold_dom. fold (drop_pirq irq dd). wp_steps. eapply wp_mono.
  { eapply (unlink_spec _ d p (ec_notify c) (drop_pirq irq dd)); [apply set_dom_eq| | |apply Ht|done..].
    - by apply (lists_ext 0 dd).
    - exact (co_notify _ _ (do_chns _ Hok p c Hc)). }
  intros _ s' (dd2 & -> & Hm & Hl2). rewrite set_set. destruct (links_chn _ _ p c (mv_links _ _ _ Hm) Hc) as (c2 & Hc2 & Hu2).
  eapply free_tail; [apply set_dom_eq|done|]. rewrite set_set.
  assert (Hx2 : ec_xen c2 = false).
  { rewrite <- Hx. change (ec_xen c2 = ec_xen c). transitivity (ec_xen (unlinked c2)); [by destruct c2 as [[] ? ?]|].
    rewrite Hu2. by destruct c as [[] ? ?]. }
  set (dd3 := dd2 <| ed_pirqs := ed_pirqs dd |>).
  assert (H3 : dd2 = drop_pirq irq dd3).
  { unfold dd3, drop_pirq. pose proof (lo_pirqs _ _ (mv_links _ _ _ Hm)) as Hpi. destruct dd2. cbn in *. unfold setter. cbn. by rewrite Hpi. }
  assert (Hlo : links_only dd dd3).
  { destruct (mv_links _ _ _ Hm) as [L1 L2 L3 L4 L5 L6 L7 L8 L9]. split; try done. intros [S1 S2 S3 S4 S5 S6].
    destruct L7 as [P1 P2 P3 P4 P5 P6]; [|by split]. split; try done. cbn. by rewrite length_insert. }
  pose proof (links_tables _ _ Hlo Ht) as Ht3.
  destruct (unlinked_pirq _ _ _ _ _ Hu2 Hst) as (n2 & q2 & Hst2).
  eapply (close_done d p dd dd2 c c2); [done|done|done|unfold paired; rewrite Hst; tauto|done| |done|done| |].
  - eapply (freed_ok p (unpend p dd3)); [done|eapply links_tables; [apply unpend_links|done]| |].
    + replace (unpend p dd2) with (drop_pirq irq (unpend p dd3)) by (rewrite H3; done).
      eapply (freed_pirq p _ c2); [|exact Hc2|done..]. eapply links_tables; [apply unpend_links|done].
    + eapply lists_put; [|exact Hc2|intros []|by apply (lists_ext p dd2)]. intros c0 Hc0. eapply (tb_zero _ Ht3). exact Hc0.
  - transitivity (drop_pirq irq dd); [by split|]. by eapply moved_kept.
  - intros r _. rewrite (lo_chns _ _ (mv_links _ _ _ Hm)). done.
Qed.

Lemma close_virq d p dd c virq s : ewf s -> es_doms s !! d = Some dd -> chn_at dd p = Some c -> ec_xen c = false ->
  ec_state c = ECS_VIRQ virq -> p <> 0 -> v_close d p (view s) = Some (upd d p None (view s)) ->
  wp tol (for_each (vcpu_ids dd) (clear_virq d virq p) tt;;
    dom_write d (fun dd => dd <| ed_pending ::= fun m => m ∖ {[p]} |>);;
    chn_write d p (fun c => c <| ec_state := ECS_FREE |> <| ec_notify := 0 |>);; mret 0) (closed d p s) s.
Proof using.
  intros Hw Hd Hc Hx Hst Hp Hv. pose proof (ew_dom _ Hw _ _ Hd) as Hok.
  destruct (do_virq_back _ Hok p c virq Hc Hst) as [Hr _].
  wp_steps. eapply wp_mono; [by apply clear_spec; [|apply Hok|]|]. intros _ s' ->.
  eapply free_tail; [apply set_dom_eq|exact Hc|]. rewrite set_set.
  pose proof (dsame_ok _ _ (unpend_same p dd) Hok) as Hok1. pose proof Hok1 as [Ht1 Hl1]%dom_ok_split.
  eapply (close_done d p dd _ c c); [done|done|done|unfold paired; rewrite Hst; tauto|done| |done|done|by split|done].
  change (unpend p (dd <| ed_vcpus ::= _ |>)) with (unpend p dd <| ed_vcpus ::= fmap (drop_virq virq p) |>).
  eapply (freed_ok p (unpend p dd)); [done..|by apply (freed_virq p (unpend p dd) c virq)|].
  eapply lists_put; [apply Hok1|exact Hc|intros []|]. apply (lists_ext p (unpend p dd)); [done| |].
  - intros i. cbn. rewrite lookup_fmap. by destruct (ed_vcpus dd !! i).
  - eapply lists_other; [apply Hok1|exact Hc|unfold is_pirq; rewrite Hst; tauto|done].
Qed.

Lemma close_free d p dd c s : ewf s -> es_doms s !! d = Some dd -> chn_at dd p = Some c -> ec_xen c = false ->
  plain c -> ~ paired c -> p <> 0 -> v_close d p (view s) = Some (upd d p None (view s)) ->
  wp tol (dom_write d (fun dd => dd <| ed_pending ::= fun m => m ∖ {[p]} |>);;
    chn_write d p (fun c => c <| ec_state := ECS_FREE |> <| ec_notify := 0 |>);; mret 0) (closed d p s) s.
Proof using.
  intros Hw Hd Hc Hx Hpl Hpa Hp Hv. eapply free_tail; [done..|].
  eapply (close_done d p dd dd c c); try done. eapply close_plain; [by eapply (ew_dom _ Hw)|done..].
Qed.

Lemma close_pair d p dd c d2 p2 s : ewf s -> es_doms s !! d = Some dd -> chn_at dd p = Some c -> ec_xen c = false ->
  ec_state c = ECS_INTERDOMAIN d2 p2 -> p <> 0 ->
  v_close d p (view s) = Some (upd d p None (upd d2 p2 (back_to d <$> view s d2 p2) (view s))) ->
  wp tol (close_peer d d2 p2;;
    dom_write d (fun dd => dd <| ed_pending ::= fun m => m ∖ {[p]} |>);;
    chn_write d p (fun c => c <| ec_state := ECS_FREE |> <| ec_notify := 0 |>);; mret 0) (closed d p s) s.
Proof using.
  intros Hw Hd Hc Hx Hst Hp Hv. destruct Hw as [H1 H2]. destruct (H2 _ _ _ _ _ _ Hd Hc Hst) as (dd2 & c2 & Hd2 & Hc2 & Hst2).
  unfold close_peer. wp_steps. rewrite Hd2, valid_chn by (by eapply do_shape, H1). rewrite bool_decide_eq_true_2 by done.
  wp_steps. eapply wp_chn; [done..|]. rewrite Hst2, Z.eqb_refl. cbn [negb]. eapply wp_chn_write; [done..|].
  set (s2 := on d2 (put_chn p2 (back_to d)) s).
  assert (Hdd : exists dd3 c3, es_doms s2 !! d = Some dd3 /\ chn_at dd3 p = Some c3 /\ ec_xen c3 = false /\ plain c3 /\ dom_ok dd3).
  { unfold s2. destruct (decide (d2 = d)) as [->|Hne].
    - rewrite Hd in Hd2. injection Hd2 as <-. rewrite (on_eq _ _ _ _ Hd). exists (put_chn p2 (back_to d) dd).
      assert (Hpok : dom_ok (put_chn p2 (back_to d) dd)).
      { eapply put_ok; [by apply (H1 d)|done|unfold plain; by rewrite Hst2|done| |].
        - destruct (do_chns _ (H1 _ _ Hd) _ _ Hc2). by split.
        - intros ->. pose proof (do_zero _ (H1 _ _ Hd) _ Hc2). congruence. }
      rewrite chn_at_put. case_decide as Hpp.
      + subst p2. rewrite Hc. by exists (back_to d c).
      + exists c. refine (conj _ (conj _ (conj _ (conj _ _)))); try done. unfold plain. by rewrite Hst.
    - rewrite on_ne by done. exists dd, c. refine (conj _ (conj _ (conj _ (conj _ _)))); try done;
        [unfold plain; by rewrite Hst|by apply (H1 d)]. }
  destruct Hdd as (dd3 & c3 & Hd3 & Hc3 & Hx3 & Hpl3 & Hok3).
  assert (Hchn : forall d' q, chn (set_dom d (put_chn p free_chn (unpend p dd3)) s2) d' q =
    if decide (d = d' /\ p = q) then Some zero_chn
    else if decide (d2 = d' /\ p2 = q) then back_to d <$> chn s d' q else chn s d' q).
  { intros d' q. rewrite chn_set. case_decide as Hd'.
    - subst d'. rewrite chn_at_put. change (chn_at (unpend p dd3) q) with (chn_at dd3 q).
      replace (chn_at dd3 q) with (chn s2 d q) by (unfold chn; by rewrite Hd3). case_decide as Hq.
      + subst q. rewrite decide_True by done. unfold chn. rewrite Hd3. cbn. rewrite Hc3. cbn. by rewrite free_zero.
      + rewrite decide_False by tauto. apply chn_on.
    - rewrite decide_False by tauto. apply chn_on. }
  assert (Hok4 : dom_ok (put_chn p free_chn (unpend p dd3))) by (by eapply close_plain).
  eapply free_tail; [done..|]. split; [split|].
  - intros d' x. destruct (decide (d = d')) as [<-|Hne]; [rewrite set_dom_eq; by intros [= <-]|]. rewrite set_dom_ne by done.
    unfold s2. destruct (decide (d2 = d')) as [<-|Hne2]; [|rewrite on_ne by done; apply H1].
    rewrite (on_eq _ _ _ _ Hd2). intros [= <-]. eapply put_ok; [by apply (H1 d2)|done|unfold plain; by rewrite Hst2|done| |].
    + destruct (do_chns _ (H1 _ _ Hd2) _ _ Hc2). by split.
    + intros ->. pose proof (do_zero _ (H1 _ _ Hd2) _ Hc2). congruence.
  - eapply (close_peers d p d2 p2 c (back_to d)); [done|apply chn_Some; by exists dd|done|intros x []|exact Hchn].
  - split.
    + transitivity s2; [apply kept_chn|]. apply (kept_set d dd3); [done|]. transitivity (unpend p dd3); [apply unpend_kept|apply put_kept].
    + rewrite Hv. split; [done|]. split; [|intros x; rewrite set_dom_eq; intros [= <-]; cbn; set_solver].
      intros d' q. unfold view at 1. rewrite Hchn. unfold upd. case_decide; [done|].
      case_decide as Hp2; [|done]. destruct Hp2 as [<- <-]. unfold view, chn. rewrite Hd2. cbn. rewrite Hc2. cbn.
      unfold bound. by rewrite Hst2.
Qed.

Lemma close_spec d p dd s : ewf s -> es_doms s !! d = Some dd -> wp tol (__evtchn_close d p) (closed d p s) s.
Proof using.
  intros Hw Hd. pose proof (ew_dom _ Hw _ _ Hd) as Hok. unfold __evtchn_close. wp_steps. eapply wp_dom_read; [done|].
  rewrite valid_chn by apply Hok.
  assert (Hsame : closed d p s (- EINVAL) s <-> v_close d p (view s) = None).
  { unfold closed. split.
    - intros (_ & _ & Hv). destruct (v_close d p (view s)); [|done]. by destruct Hv as [Hv _].
    - intros ->. done. }
  assert (Hview : view s d p = chn_at dd p ≫= bound) by (unfold view, chn; by rewrite Hd).
  case_bool_decide as Hvalid; wp_steps.
  2:{ apply Hsame. unfold v_close. rewrite Hview. by rewrite (proj2 (eq_None_not_Some _) Hvalid). }
  destruct Hvalid as [c Hc]. rewrite Hc in Hview. cbn in Hview. eapply wp_chn; [done..|].
  destruct (ec_xen c) eqn:Hx; wp_steps.
  { apply Hsame. unfold v_close. rewrite Hview. unfold bound. destruct (ec_state c); cbn; by rewrite ?Hx. }
  assert (Hp0 : ec_state c <> ECS_RESERVED -> p <> 0).
  { intros Hn ->. apply Hn. by apply (do_zero _ Hok). }
  unfold v_close in *. rewrite Hview in Hsame. unfold bound in *.
  destruct (ec_state c) eqn:Hst; wp_steps; cbn in Hsame; rewrite ?Hst, ?Hx in Hsame; try (by apply Hsame);
    assert (p <> 0) by (by apply Hp0).
  all: try (eapply close_free; [done|done|done|done|unfold plain; by rewrite Hst|unfold paired; rewrite Hst; tauto|done|
    unfold v_close; rewrite Hview; by rewrite ?Hst, ?Hx]).
  - apply wp_bind_inv. eapply close_pair; try done. unfold v_close. by rewrite Hview, Hx, Hst.
  - apply wp_bind_inv. eapply close_pirq; try done. unfold v_close. rewrite Hview. cbn. by rewrite Hx.
  - apply wp_bind_inv. eapply close_virq; try done. unfold v_close. by rewrite Hview, Hx, Hst.
Qed.
End Close.
