(* ===== verification/EvtchnBind.v ===== *)
(** Binding a fresh port: to nothing yet, to a port of another domain, to a
    virtual or a physical interrupt, or to a processor. *)
From S2P Require Import Prelude CMonad Evtchn EvtchnInv EvtchnPorts EvtchnLists EvtchnClose.

(** * Domains with one port more *)

(** The channel at a fresh port is written. *)
Lemma put_at p f dd q : chn_at dd p = Some zero_chn ->
  chn_at (put_chn p f dd) q = if decide (p = q) then Some (f zero_chn) else chn_at dd q.
Proof. intros Hc. rewrite chn_at_put. case_decide; [subst q; by rewrite Hc|done]. Qed.

Section Bound.
Context (p : Z) (dd : edom) (Hok : dom_ok dd) (Hc : chn_at dd p = Some zero_chn) (Hp : p <> 0).
Implicit Types (v i irq : Z) (f : evtchn -> evtchn).

Lemma zero_no_virq i x (v : nat) : ed_vcpus dd !! i = Some x -> vc_virqs x !! v = Some p -> False.
Proof using Hok Hc Hp.
  intros Hx Hv. destruct (do_virq _ Hok i x v p Hx Hv Hp) as (c & Hc' & Hst & _). rewrite Hc in Hc'. by injection Hc' as <-.
Qed.

Lemma zero_no_pirq (irq : nat) : ed_pirqs dd !! irq = Some p -> False.
Proof using Hok Hc Hp.
  intros Hi. destruct (do_pirq _ Hok irq p Hi Hp) as (c & n & q & Hc' & Hst). rewrite Hc in Hc'. by injection Hc' as <-.
Qed.

Definition add_virq v (x : vcpu) : vcpu := x <| vc_virqs ::= <[Z.to_nat v := p]> |>.

Lemma add_virq_ok v i x f : ed_vcpus dd !! i = Some x -> vc_virqs x !! Z.to_nat v = Some 0 -> 0 <= v < NR_VIRQS ->
  f zero_chn = mk_evtchn (ECS_VIRQ v) false i ->
  dom_ok (put_chn p f dd <| ed_vcpus ::= alter (add_virq v) i |>).
Proof using Hok Hc Hp.
  intros Hx Hv Hr Hf. set (dd' := put_chn p f dd <| ed_vcpus ::= _ |>).
  assert (Hat : forall q, chn_at dd' q = if decide (p = q) then Some (f zero_chn) else chn_at dd q) by (intros q; exact (put_at p f dd q Hc)).
  assert (Hvc : forall j, ed_vcpus dd' !! j = if decide (i = j) then Some (add_virq v x) else ed_vcpus dd !! j).
  { intros j. unfold dd'. cbn. rewrite lookup_alter. case_decide; [subst j; by rewrite Hx|done]. }
  assert (Hhas : forall j, is_Some (ed_vcpus dd' !! j) <-> is_Some (ed_vcpus dd !! j)).
  { intros j. rewrite Hvc. case_decide; [subst j; by rewrite Hx|done]. }
  assert (Hne : forall q c, chn_at dd q = Some c -> ec_state c <> ECS_FREE -> p <> q) by (intros q c Hq Hs ->; rewrite Hc in Hq; by injection Hq as <-).
  pose proof Hok as [[S1 S2 S3 S4 S5 S6] H1 H2 H3 H4 H5 H6 H7 H8]. split.
  - destruct (put_shape p f dd (do_shape _ Hok)) as [P1 P2 P3 P4 P5 P6]. split; [exact P1| |by apply Hhas|exact P4|intros u ?; by apply Hhas, S5|exact P6].
    intros j y. rewrite Hvc. case_decide as Hj; [|by apply S2]. subst j. intros [= <-]. destruct (S2 i x Hx) as (A1 & A2 & A3).
    split; [done|]. split; [done|]. cbn. by rewrite length_insert.
  - intros q c. rewrite Hat. case_decide.
    + intros [= <-]. rewrite Hf. split; [apply Hhas; cbn; by rewrite Hx|done|done].
    + intros Hq. destruct (H1 q c Hq). split; [by apply Hhas|done..].
  - intros c. rewrite Hat, decide_False by done. apply H2.
  - intros Hd. rewrite Hat, decide_False by done. by apply H3.
  - intros j y u q. rewrite Hvc. intros Hy Hu Hq. case_decide as Hj.
    + subst j. injection Hy as <-. unfold add_virq in Hu. cbn in Hu.
      apply list_lookup_insert_Some in Hu as [[<- [<- _]]|[Hn Hu]].
      * exists (f zero_chn). rewrite Hat, decide_True, Hf by done. split; [done|]. cbn. rewrite Z2Nat.id by lia. done.
      * destruct (H4 i x u q Hx Hu Hq) as (c & Hcq & Hst & Hn'). exists c. rewrite Hat, decide_False; [done|].
        apply (Hne q c); [done|congruence].
    + destruct (H4 j y u q Hy Hu Hq) as (c & Hcq & Hst & Hn'). exists c. rewrite Hat, decide_False; [done|].
      apply (Hne q c); [done|congruence].
  - intros q c u. rewrite Hat. case_decide as Hq.
    + subst q. intros [= <-]. rewrite Hf. intros [= <-]. split; [done|]. exists i, (add_virq v x). rewrite Hvc, decide_True by done.
      split; [done|]. cbn. apply list_lookup_insert_eq. by eapply lookup_lt_Some.
    + intros Hcq Hst. destruct (H5 q c u Hcq Hst) as (Hu & j & y & Hy & Hl). split; [done|]. exists j.
      destruct (decide (i = j)) as [<-|Hij].
      * exists (add_virq v x). rewrite Hvc, decide_True by done. split; [done|]. rewrite Hx in Hy. injection Hy as <-. cbn.
        rewrite list_lookup_insert_ne; [done|]. intros He. rewrite He in Hv. rewrite Hl in Hv. injection Hv as ->.
        pose proof (H2 c Hcq). congruence.
      * exists y. by rewrite Hvc, decide_False.
  - intros irq q Hi Hq. destruct (H6 irq q Hi Hq) as (c & n & m & Hcq & Hst). exists c, n, m. rewrite Hat, decide_False; [done|].
    apply (Hne q c); [done|congruence].
  - intros q c irq n m. rewrite Hat. case_decide; [intros [= <-]; by rewrite Hf|]. apply H7.
  - assert (Hl : lists 0 dd') by
    (apply dom_ok_split in Hok as [Ht Hl]; apply (lists_ext 0 (put_chn p f dd)); [done| |];
      [intros j; rewrite Hvc; case_decide; [subst j; cbn; by rewrite Hx|done]|];
      eapply lists_put; [apply Ht|done|rewrite Hf; intros []|]; by eapply lists_other; [apply Ht|done|intros []|]).
    intros j y Hy. destruct (Hl j y Hy) as (ps & Hnd & Hps & Hin). exists ps. split; [done|]. split; [done|].
    intros q. rewrite Hin. split; [tauto|]. intros Hq. split; [done|]. eapply pirq_at_nonzero; [|exact Hq].
    intros c. rewrite Hat, decide_False by done. apply H2.
Qed.

(** A port bound to a physical interrupt, before it is linked. *)
Lemma add_pirq_ok irq f : 0 <= irq -> ed_pirqs dd !! Z.to_nat irq = Some 0 -> f zero_chn = mk_evtchn (ECS_PIRQ irq 0 0) false 0 ->
  let dd' := put_chn p f (dd <| ed_pirqs ::= <[Z.to_nat irq := p]> |>) in tables dd' /\ lists p dd'.
Proof using Hok Hc Hp.
  intros Hir Hi Hf dd'.
  assert (Hat : forall q, chn_at dd' q = if decide (p = q) then Some (f zero_chn) else chn_at dd q) by (intros q; unfold dd'; rewrite put_at; [done|exact Hc]).
  assert (Hne : forall q c, chn_at dd q = Some c -> ec_state c <> ECS_FREE -> p <> q) by (intros q c Hq Hs ->; rewrite Hc in Hq; by injection Hq as <-).
  pose proof Hok as [H0 H1 H2 H3 H4 H5 H6 H7 H8]. split; [split|].
  - apply put_shape. destruct H0. split; try done. cbn. by rewrite length_insert.
  - intros q c. rewrite Hat. case_decide.
    + intros [= <-]. rewrite Hf. split; [apply H0|done|done].
    + intros Hq. destruct (H1 q c Hq). by split.
  - intros c. rewrite Hat, decide_False by done. apply H2.
  - intros Hd. rewrite Hat, decide_False by done. by apply H3.
  - intros j y u q Hy Hu Hq. destruct (H4 j y u q Hy Hu Hq) as (c & Hcq & Hst & Hn'). exists c. rewrite Hat, decide_False; [done|].
    apply (Hne q c); [done|congruence].
  - intros q c u. rewrite Hat. case_decide; [intros [= <-]; by rewrite Hf|]. apply H5.
  - intros j q Hj Hq. unfold dd' in Hj. cbn in Hj. apply list_lookup_insert_Some in Hj as [[<- [<- _]]|[Hn Hj]].
    + exists (f zero_chn), 0, 0. rewrite Hat, decide_True, Hf, Z2Nat.id by done. done.
    + destruct (H6 j q Hj Hq) as (c & n & m & Hcq & Hst). exists c, n, m. rewrite Hat, decide_False; [done|].
      apply (Hne q c); [done|congruence].
  - intros q c j n m. rewrite Hat. case_decide as Hq.
    + subst q. intros [= <-]. rewrite Hf. intros [= <- <- <-]. split; [done|]. cbn. apply list_lookup_insert_eq. by eapply lookup_lt_Some.
    + intros Hcq Hst. destruct (H7 q c j n m Hcq Hst) as [Hj Hl]. split; [done|]. cbn. rewrite list_lookup_insert_ne; [done|].
      intros He. rewrite He in Hi. rewrite Hi in Hl. injection Hl as <-. pose proof (H2 c Hcq). congruence.
  - intros j y Hy. destruct (H8 j y Hy) as (ps & Hnd & Hps & Hin). exists ps. split; [done|].
    assert (Hpp : p ∉ ps) by (intros (c & ? & ? & ? & Hcp & Hst & _)%Hin; rewrite Hc in Hcp; by injection Hcp as <-).
    split.
    + eapply pirq_list_ext; [|done]. intros q Hq. rewrite Hat, decide_False; [done|]. by intros ->.
    + intros q. destruct (decide (p = q)) as [<-|Hpq]; [tauto|]. rewrite Hin.
      rewrite <- (pirq_at_ext dd dd' j q) by (by rewrite Hat, decide_False). split; [by intros ?|tauto].
Qed.
End Bound.

(** * Answers *)

(** A refusal for a reason leaves every binding. *)
Definition refused (s s' : estate) (rc : Z) (why : Prop) : Prop :=
  rc <> 0 /\ why /\ ewf s' /\ veq (view s') (view s).

(** A port that was free is bound, and nothing else. *)
Definition bound_new (s s' : estate) (d p : Z) (c : evtchn) : Prop :=
  0 < p /\ view s d p = None /\ ewf s' /\ veq (view s') (upd d p (Some c) (view s)).

Lemma refused_same s rc (why : Prop) : ewf s -> rc <> 0 -> why -> refused s s rc why.
Proof. by intros. Qed.

(** Two ports become the ends of a pair. *)
Lemma pair_peers d p d2 p2 c c2 x1 x2 s s' : peers s -> chn s d p = Some c -> ~ paired c -> chn s d2 p2 = Some c2 -> ~ paired c2 ->
  ~ (d = d2 /\ p = p2) -> ec_state x1 = ECS_INTERDOMAIN d2 p2 -> ec_state x2 = ECS_INTERDOMAIN d p ->
  (forall d' q, chn s' d' q = if decide (d2 = d' /\ p2 = q) then Some x2
    else if decide (d = d' /\ p = q) then Some x1 else chn s d' q) -> peers s'.
Proof.
  rewrite !peers_chn. intros Hps Hc Hn Hc2 Hn2 Hne H1 H2 Hch d' q c' rd rp. rewrite Hch.
  case_decide as E1; [destruct E1 as [<- <-]; intros [= <-]; rewrite H2; intros [= <- <-];
    exists x1; by rewrite Hch, decide_False, decide_True by first [done|intros [? ?]; apply Hne; split; congruence]|].
  case_decide as E2; [destruct E2 as [<- <-]; intros [= <-]; rewrite H1; intros [= <- <-];
    exists x2; by rewrite Hch, decide_True|].
  intros Hc' Hst. destruct (Hps _ _ _ _ _ Hc' Hst) as (rc & Hrc & Hrs). exists rc. split; [|done].
  rewrite Hch, !decide_False; [done|..]; intros [<- <-].
  - rewrite Hc in Hrc. injection Hrc as <-. unfold paired in Hn. by rewrite Hrs in Hn.
  - rewrite Hc2 in Hrc. injection Hrc as <-. unfold paired in Hn2. by rewrite Hrs in Hn2.
Qed.

Section Ops.
Context (env : EvtEnv) (tol : fault -> Prop) (Hxsm : forall d p, ee_xsm_alloc env d p = true).
Implicit Types (s : estate) (dd : edom) (d p q v cur : Z).

(** The pattern of the operations that need a free port. *)
Lemma wp_fresh {A} d dd (err : Z -> A) (k : Z -> M estate A) (Q : A -> estate -> Prop) s :
  ewf s -> es_doms s !! d = Some dd ->
  (forall rc s1, rc < 0 -> refused s s1 rc (no_port dd rc) -> es_doms s1 = es_doms s -> Q (err rc) s1) ->
  (forall p s1 dd1, fresh d dd p s s1 dd1 -> ewf s1 -> veq (view s1) (view s) -> wp tol (k p) Q s1) ->
  wp tol (port ← get_free_port env d; if port <? 0 then mret (err port) else k port) Q s.
Proof using Hxsm.
  intros Hw Hd He Hk. wp_steps. eapply wp_mono; [by apply (get_free_port_wf env tol Hxsm d dd)|].
  intros r s1 (Hw1 & Hv1 & [(Hr & Hn & Hs)|(dd1 & Hf)]).
  - rewrite (proj2 (Z.ltb_lt r 0)) by done. wp_steps. apply He; [done| |done]. split; [lia|done].
  - rewrite (proj2 (Z.ltb_ge r 0)) by (destruct Hf; lia). by eapply Hk.
Qed.

Definition target_of s cur dom : Z + Z :=
  if dom =? DOMID_SELF then inr cur
  else match es_doms s !! dom with
    | None => inl (- ESRCH)
    | Some _ => if ee_priv env cur dom then inr dom else inl (- EPERM)
    end.

Lemma wp_target cur dom (Q : Z + Z -> estate -> Prop) s : Q (target_of s cur dom) s ->
  wp tol (rcu_lock_target_domain_by_id env cur dom) Q s.
Proof using.
  unfold rcu_lock_target_domain_by_id, target_of. destruct (dom =? DOMID_SELF); intros HQ; wp_steps; [done|].
  destruct (es_doms s !! dom); wp_steps; [by destruct (ee_priv env cur dom)|done].
Qed.

Lemma target_dom s cur dom d : is_Some (es_doms s !! cur) -> target_of s cur dom = inr d -> is_Some (es_doms s !! d).
Proof using.
  unfold target_of. destruct (dom =? DOMID_SELF); [by intros ? [= <-]|].
  destruct (es_doms s !! dom) eqn:Hd; [|done]. destruct (ee_priv env cur dom); [|done]. by intros _ [= <-].
Qed.

Lemma target_err s cur dom rc : target_of s cur dom = inl rc -> rc <> 0.
Proof using.
  unfold target_of. destruct (dom =? DOMID_SELF); [done|]. destruct (es_doms s !! dom); [destruct (ee_priv env cur dom); [done|]|];
    by intros [= <-].
Qed.

(** A fresh port bound outside the tables. *)
Lemma new_plain d dd p s s1 dd1 f c : fresh d dd p s s1 dd1 -> ewf s1 -> veq (view s1) (view s) ->
  f zero_chn = c -> plain c -> ~ paired c -> ec_state c <> ECS_FREE -> chn_ok dd1 c ->
  bound_new s (on d (put_chn p f) s1) d p c.
Proof using.
  intros Hf Hw Hv Hc Hp Hn Hst Hok. destruct (bind_fresh d dd p s s1 dd1 f) as [Hw2 Hv2]; [done|done|by rewrite Hc..|].
  split; [by destruct Hf|]. split; [by destruct Hf|]. split; [done|]. intros d' q. rewrite Hv2. rewrite Hc.
  assert (bound c = Some c) as ->.
  { unfold bound, plain in *. by destruct (ec_state c). }
  by apply upd_proper.
Qed.

Lemma fresh_vcpus d dd p s s1 dd1 : fresh d dd p s s1 dd1 -> ed_vcpus dd1 = ed_vcpus dd /\ ed_pirqs dd1 = ed_pirqs dd /\
  ed_hvm dd1 = ed_hvm dd.
Proof using. intros [(_ & _ & _ & Hg & _)]. by rewrite (grown_rest _ _ Hg). Qed.

Lemma alloc_unbound_spec cur dom rdom s : ewf s -> is_Some (es_doms s !! cur) ->
  wp tol (evtchn_alloc_unbound env cur dom rdom) (fun r s' =>
    match target_of s cur dom with
    | inl rc => refused s s' (fst r) (fst r = rc)
    | inr d => exists dd, es_doms s !! d = Some dd /\
        (refused s s' (fst r) (no_port dd (fst r) \/ exists p, fst r = ee_xsm_unbound env d p rdom) \/
         fst r = 0 /\ bound_new s s' d (snd r)
           (mk_evtchn (ECS_UNBOUND (if rdom =? DOMID_SELF then cur else rdom)) false 0))
    end) s.
Proof using Hxsm.
  intros Hw Hcur. unfold evtchn_alloc_unbound. wp_steps. apply wp_target.
  destruct (target_of s cur dom) as [rc|d] eqn:Ht; wp_steps.
  { apply refused_same; [done|by eapply target_err|done]. }
  destruct (target_dom _ _ _ _ Hcur Ht) as [dd Hd]. apply wp_bind_inv. eapply wp_fresh; [done..| |].
  - intros rc s1 _ (H1 & H2 & H3 & H4) _. exists dd. split; [done|]. left. split; [done|]. split; [by left|done].
  - intros p s1 dd1 Hf Hw1 Hv1. case_match eqn:Hx; wp_steps.
    + exists dd. split; [done|]. left. split; [by apply negb_true_iff, Z.eqb_neq in Hx|]. split; [|done]. right. by exists p.
    + eapply wp_chn_write; [apply Hf|apply Hf|]. wp_steps. exists dd. split; [done|]. right. split; [done|]. cbn [snd].
      eapply new_plain; [done..|intros []|done|]. split; [|done|done]. destruct (fresh_vcpus _ _ _ _ _ _ Hf) as (-> & _).
      apply (ew_dom _ Hw _ _ Hd).
Qed.

(** Both ends of a new pair in the machine. *)
Lemma pair_ewf d p rd rp dd rdd c rc s f g : ewf s -> es_doms s !! d = Some dd -> chn_at dd p = Some c ->
  es_doms s !! rd = Some rdd -> chn_at rdd rp = Some rc -> plain c -> ~ paired c -> plain rc -> ~ paired rc ->
  p <> 0 -> rp <> 0 -> ~ (d = rd /\ p = rp) -> (forall x, ec_xen (f x) = ec_xen x) -> (forall x, ec_xen (g x) = ec_xen x) ->
  (forall x, ec_notify (f x) = ec_notify x) -> (forall x, ec_notify (g x) = ec_notify x) ->
  (forall x, ec_state (f x) = ECS_INTERDOMAIN rd rp) -> (forall x, ec_state (g x) = ECS_INTERDOMAIN d p) ->
  let s' := on rd (put_chn rp g) (on d (put_chn p f) s) in
  ewf s' /\ veq (view s') (upd rd rp (Some (g rc)) (upd d p (Some (f c)) (view s))).
Proof using.
  intros [H1 H2] Hd Hc Hrd Hrc Hp Hn Hp2 Hn2 H0 H02 Hne Hxf Hxg Hnf Hng Hsf Hsg s'.
  assert (Hch : forall d' q, chn s' d' q = if decide (rd = d' /\ rp = q) then Some (g rc)
    else if decide (d = d' /\ p = q) then Some (f c) else chn s d' q).
  { intros d' q. unfold s'. rewrite chn_on. case_decide as E1.
    - destruct E1 as [<- <-]. rewrite chn_on, decide_False by tauto. unfold chn. rewrite Hrd. cbn. by rewrite Hrc.
    - rewrite chn_on. case_decide as E2; [|done]. destruct E2 as [<- <-]. unfold chn. rewrite Hd. cbn. by rewrite Hc. }
  assert (Hput : forall h x q y (Hx : dom_ok x), chn_at x q = Some y -> plain y -> q <> 0 -> (forall z, ec_xen (h z) = ec_xen z) ->
    (forall z, ec_notify (h z) = ec_notify z) -> (forall z, exists a b, ec_state (h z) = ECS_INTERDOMAIN a b) ->
    dom_ok (put_chn q h x)).
  { intros h x q y Hx Hy Hpy Hq Hxh Hnh Hsh. destruct (Hsh y) as (a & b & Hab).
    eapply put_ok; [done|exact Hy|done|unfold plain; by rewrite Hab| |done].
    destruct (do_chns _ Hx _ _ Hy) as [K1 K2 K3]. split; [by rewrite Hnh|by rewrite Hab|by rewrite Hab]. }
  assert (Hw1 : forall d' x, es_doms (on d (put_chn p f) s) !! d' = Some x -> dom_ok x).
  { intros d' x. destruct (decide (d = d')) as [<-|Hdd]; [|rewrite on_ne by done; apply H1].
    rewrite (on_eq _ _ _ _ Hd). intros [= <-]. eapply Hput; eauto. }
  split; [split|].
  - intros d' x. unfold s'. destruct (decide (rd = d')) as [<-|Hdd]; [|rewrite on_ne by done; apply Hw1].
    destruct (es_doms (on d (put_chn p f) s) !! rd) as [y|] eqn:Hy.
    2:{ intros Hx. unfold on in Hx at 1. cbn in Hx. rewrite lookup_alter_eq in Hx. unfold on in Hy. cbn in Hy. by rewrite Hy in Hx. }
    rewrite (on_eq _ _ _ _ Hy). intros [= <-].
    assert (Hyc : chn_at y rp = Some rc).
    { assert (chn (on d (put_chn p f) s) rd rp = Some rc) as Hch1.
      { rewrite chn_on, decide_False by tauto. apply chn_Some. by exists rdd. }
      unfold chn in Hch1. rewrite Hy in Hch1. exact Hch1. }
    eapply Hput; eauto.
  - eapply (pair_peers d p rd rp c rc (f c) (g rc) s); [done|apply chn_Some; by exists dd|done|apply chn_Some; by exists rdd|done..].
  - intros d' q. unfold view, upd. rewrite Hch. unfold bound. case_decide; [cbn; by rewrite Hsg|].
    case_decide; [cbn; by rewrite Hsf|done].
Qed.

(** Why a pair is not made. *)
Definition no_pair cur rd rport dd s (rc : Z) : Prop :=
  rc = - ESRCH /\ es_doms s !! rd = None \/ no_port dd rc \/
  rc = - EINVAL /\ (forall c, view s rd rport = Some c -> ec_state c <> ECS_UNBOUND cur) \/
  exists p, rc = ee_xsm_interdomain env cur p rd rport.

(** A pair is made: a port that waited for this domain, and a new one, which is
    pending at once, as notifications may have been lost. *)
Definition new_pair cur rd rport s (p : Z) s' : Prop :=
  exists c, view s rd rport = Some c /\ ec_state c = ECS_UNBOUND cur /\
    0 < p /\ view s cur p = None /\ ewf s' /\
    veq (view s') (upd rd rport (Some (c <| ec_state := ECS_INTERDOMAIN cur p |>))
      (upd cur p (Some (mk_evtchn (ECS_INTERDOMAIN rd rport) false 0)) (view s))) /\
    exists dd', es_doms s' !! cur = Some dd' /\ p ∈ ed_pending dd'.

Lemma bind_interdomain_spec cur rdom rport s : ewf s -> is_Some (es_doms s !! cur) ->
  wp tol (evtchn_bind_interdomain env cur rdom rport) (fun r s' =>
    let rd := if rdom =? DOMID_SELF then cur else rdom in
    exists dd, es_doms s !! cur = Some dd /\ (refused s s' (fst r) (no_pair cur rd rport dd s (fst r)) \/
      fst r = 0 /\ new_pair cur rd rport s (snd r) s')) s.
Proof using Hxsm.
  intros Hw [dd Hd]. unfold evtchn_bind_interdomain. wp_steps. set (rd := if rdom =? DOMID_SELF then cur else rdom).
  destruct (es_doms s !! rd) as [rdd0|] eqn:Hrd0; wp_steps.
  2:{ exists dd. split; [done|]. left. apply refused_same; [done|done|by left]. }
  apply wp_bind_inv. eapply wp_fresh; [done..| |].
  { intros rc s1 _ (H1 & H2 & H3 & H4) _. exists dd. split; [done|]. left. split; [done|]. split; [by right; left|done]. }
  intros p s1 dd1 Hf Hw1 Hv1.
  assert (Hrd : exists rdd, es_doms s1 !! rd = Some rdd).
  { rewrite (fr_doms _ _ _ _ _ _ Hf). destruct (decide (cur = rd)) as [<-|]; [rewrite set_dom_eq|rewrite set_dom_ne by done]; eauto. }
  destruct Hrd as [rdd Hrd]. wp_steps. eapply wp_dom_read; [done|]. rewrite valid_chn by (by eapply do_shape, ew_dom).
  assert (Hview : view s rd rport = chn_at rdd rport ≫= bound).
  { rewrite <- (Hv1 rd rport). unfold view, chn. by rewrite Hrd. }
  assert (Hno : (forall c, view s rd rport = Some c -> ec_state c <> ECS_UNBOUND cur) ->
    refused s s1 (- EINVAL) (no_pair cur rd rport dd s (- EINVAL))).
  { intros Hno. split; [done|]. split; [right; right; left; done|done]. }
  case_bool_decide as Hvalid; wp_steps.
  2:{ exists dd. split; [done|]. left. apply Hno. rewrite Hview. by rewrite (proj2 (eq_None_not_Some _) Hvalid). }
  destruct Hvalid as [c Hc]. rewrite Hc in Hview. cbn in Hview. eapply wp_chn; [done..|].
  assert (Hno' : (forall r, ec_state c = ECS_UNBOUND r -> r <> cur) ->
    refused s s1 (- EINVAL) (no_pair cur rd rport dd s (- EINVAL))).
  { intros Hr. apply Hno. intros c'. rewrite Hview. unfold bound. intros Hb Hs. destruct (ec_state c) eqn:Hst; try congruence.
    - injection Hb as <-. rewrite Hst in Hs. injection Hs as ->. by apply (Hr cur).
    - injection Hb as <-. done. }
  destruct (ec_state c) eqn:Hst; wp_steps;
    try (exists dd; split; [done|]; left; by apply Hno').
  destruct (Z.eqb_spec remote_domid cur) as [->|Hne]; cbn [negb]; wp_steps.
  2:{ exists dd. split; [done|]. left. apply Hno'. by intros r [= <-]. }
  case_match eqn:Hx; wp_steps.
  { exists dd. split; [done|]. left. split; [by apply negb_true_iff, Z.eqb_neq in Hx|]. split; [|done]. right; right; right. by exists p. }
  assert (Hb : view s rd rport = Some c) by (rewrite Hview; unfold bound; by rewrite Hst).
  assert (Hpr : ~ (cur = rd /\ p = rport)).
  { intros [<- <-]. rewrite (fr_none _ _ _ _ _ _ Hf) in Hb. done. }
  rewrite (chn_u16 rdd rport c) by first [done|by eapply do_shape, ew_dom]. rewrite (fr_u16 _ _ _ _ _ _ Hf).
  eapply wp_chn_write; [apply Hf|apply Hf|]. wp_steps.
  set (f := fun c => c <| ec_state := ECS_INTERDOMAIN rd rport |>). set (g := fun c => c <| ec_state := ECS_INTERDOMAIN cur p |>).
  destruct (pair_ewf cur p rd rport dd1 rdd zero_chn c s1 f g) as [Hw2 Hv2]; try done; try apply Hf;
    [intros []|unfold plain; by rewrite Hst|unfold paired; rewrite Hst; tauto|destruct Hf; lia|..].
  { intros ->. pose proof (do_zero _ (ew_dom _ Hw1 _ _ Hrd) _ Hc). congruence. }
  set (s3 := on rd (put_chn rport g) (on cur (put_chn p f) s1)) in *.
  assert (Hch2 : chn (on cur (put_chn p f) s1) rd rport = Some c).
  { rewrite chn_on, decide_False by tauto. apply chn_Some. by exists rdd. }
  apply chn_Some in Hch2 as (rdd2 & Hrd2 & Hc2). eapply wp_chn_write; [done..|]. wp_steps. fold s3.
  assert (Hch3 : chn s3 cur p = Some (f zero_chn)).
  { unfold s3. rewrite chn_on, decide_False by (intros [? ?]; apply Hpr; done). rewrite chn_on, decide_True by done.
    unfold chn. rewrite (fr_dom _ _ _ _ _ _ Hf). cbn. by rewrite (fr_zero _ _ _ _ _ _ Hf). }
  apply chn_Some in Hch3 as (dd3 & Hd3 & Hc3). eapply wp_chn; [done..|]. wp_steps.
  pose proof (ew_dom _ Hw2 _ _ Hd3) as Hok3. eapply wp_mono.
  { eapply (evtchn_set_pending_spec _ cur _ p dd3); [done|apply Hok3|]. apply (co_notify _ _ (do_chns _ Hok3 _ _ Hc3)). }
  intros _ s4 (dd4 & -> & Hsent). wp_steps. exists dd. split; [done|]. right. split; [done|]. cbn [snd]. exists c.
  pose proof (set_same cur dd3 dd4 s3 Hd3 (se_same _ _ _ _ Hsent)) as Hes.
  split; [done|]. split; [done|]. split; [apply Hf|]. split; [apply Hf|]. split; [by eapply esame_ewf|]. split.
  - rewrite (view_same _ _ Hes), Hv2. by rewrite Hv1.
  - exists dd4. rewrite set_dom_eq. split; [done|]. rewrite (se_pending _ _ _ _ Hsent). set_solver.
Qed.

Lemma has_vcpu_spec dd v : shape dd -> has_vcpu dd v = bool_decide (is_Some (ed_vcpus dd !! v)).
Proof using.
  intros Hsh. unfold has_vcpu. destruct (ed_vcpus dd !! v) as [x|] eqn:Hx.
  - destruct (sh_vcpus _ Hsh v x Hx) as (Hr & _). rewrite bool_decide_eq_true_2 by done. rewrite andb_true_r.
    apply andb_true_iff. split; [apply Z.leb_le|apply Z.ltb_lt]; lia.
  - rewrite bool_decide_eq_false_2 by (by intros [? ?]). apply andb_false_r.
Qed.

Lemma vcpu_u16 dd v : shape dd -> is_Some (ed_vcpus dd !! v) -> u16 v = v.
Proof using. intros Hsh [x Hx]. destruct (sh_vcpus _ Hsh v x Hx) as (Hr & H16 & _). apply wrap_id. unfold urange. lia. Qed.

Lemma bind_ipi_spec cur v s : ewf s -> is_Some (es_doms s !! cur) ->
  wp tol (evtchn_bind_ipi env cur v) (fun r s' => exists dd, es_doms s !! cur = Some dd /\
    (refused s s' (fst r) (fst r = - ENOENT /\ ed_vcpus dd !! v = None \/ no_port dd (fst r)) \/
     fst r = 0 /\ is_Some (ed_vcpus dd !! v) /\ bound_new s s' cur (snd r) (mk_evtchn ECS_IPI false v))) s.
Proof using Hxsm.
  intros Hw [dd Hd]. pose proof (do_shape _ (ew_dom _ Hw _ _ Hd)) as Hsh. unfold evtchn_bind_ipi. wp_steps.
  eapply wp_dom_read; [done|]. rewrite has_vcpu_spec by done. case_bool_decide as Hv; wp_steps.
  2:{ exists dd. split; [done|]. left. apply refused_same; [done|done|]. left. split; [done|]. by apply eq_None_not_Some. }
  apply wp_bind_inv. eapply wp_fresh; [done..| |].
  - intros rc s1 _ (H1 & H2 & H3 & H4) _. exists dd. split; [done|]. left. split; [done|]. split; [by right|done].
  - intros p s1 dd1 Hf Hw1 Hv1. wp_steps. eapply wp_chn_write; [apply Hf|apply Hf|]. wp_steps. exists dd. split; [done|].
    right. split; [done|]. split; [done|]. cbn [snd]. eapply new_plain; [done..| | | | |].
    + cbv beta. unfold zero_chn, setter. cbn. by rewrite (vcpu_u16 dd).
    + done.
    + intros [].
    + done.
    + split; [|done|done]. destruct (fresh_vcpus _ _ _ _ _ _ Hf) as (-> & _). done.
Qed.

(** Channels of the hypervisor; [v] is the processor that waits. *)
Lemma alloc_xen_spec d v rdom dd s : ewf s -> es_doms s !! d = Some dd -> is_Some (ed_vcpus dd !! v) ->
  wp tol (alloc_unbound_xen_event_channel env d v rdom) (fun r s' =>
    refused s s' r (no_port dd r) \/ bound_new s s' d r (mk_evtchn (ECS_UNBOUND rdom) true v)) s.
Proof using Hxsm.
  intros Hw Hd Hv. pose proof (do_shape _ (ew_dom _ Hw _ _ Hd)) as Hsh. unfold alloc_unbound_xen_event_channel.
  eapply wp_fresh; [done..| |].
  - intros rc s1 _ Hr _. by left.
  - intros p s1 dd1 Hf Hw1 Hv1. wp_steps. eapply wp_chn_write; [apply Hf|apply Hf|]. wp_steps. right.
    eapply new_plain; [done..| | | | |].
    + cbv beta. unfold zero_chn, setter. cbn. by rewrite (vcpu_u16 dd).
    + done.
    + intros [].
    + done.
    + split; [|done|done]. destruct (fresh_vcpus _ _ _ _ _ _ Hf) as (-> & _). done.
Qed.

(** A domain that has one more port in a table. *)
Lemma new_listed d dd p s s1 dd1 dd2 c : fresh d dd p s s1 dd1 -> ewf s1 -> veq (view s1) (view s) -> dom_ok dd2 ->
  ~ paired c -> ec_state c <> ECS_FREE ->
  (forall q, unlinked <$> chn_at dd2 q = if decide (p = q) then Some (unlinked c) else unlinked <$> chn_at dd1 q) ->
  bound_new s (set_dom d dd2 s1) d p (unlinked c).
Proof using.
  intros Hf [H1 H2] Hv Hok Hn Hst Hch. split; [apply Hf|]. split; [apply Hf|].
  assert (Hpair : forall q c' rd rp, chn_at dd2 q = Some c' -> ec_state c' = ECS_INTERDOMAIN rd rp -> chn_at dd1 q = Some c').
  { intros q c' rd rp Hq Hs. specialize (Hch q). rewrite Hq in Hch. cbn in Hch. case_decide.
    - injection Hch as Hch. exfalso. apply Hn. symmetry in Hch. rewrite (unlinked_state c' c); [unfold paired; by rewrite Hs|done|].
      unfold plain. by rewrite Hs.
    - destruct (chn_at dd1 q) as [c0|]; [|done]. injection Hch as Hch. symmetry in Hch. rewrite (unlinked_state c' c0 Hch); [done|].
      unfold plain. by rewrite Hs. }
  split; [split|].
  - intros d' x. destruct (decide (d = d')) as [<-|Hne]; [rewrite set_dom_eq; by intros [= <-]|]. rewrite set_dom_ne by done. apply H1.
  - apply peers_chn. rewrite peers_chn in H2. intros d' q c' rd rp. rewrite chn_set. intros Hc' Hs.
    assert (Hold : chn s1 d' q = Some c').
    { case_decide; [subst d'|done]. apply chn_Some. exists dd1. split; [apply Hf|]. by eapply Hpair. }
    destruct (H2 _ _ _ _ _ Hold Hs) as (rc & Hrc & Hrs). exists rc. split; [|done]. rewrite chn_set. destruct (decide (d = rd)) as [<-|]; [|done].
    apply chn_Some in Hrc as (dd1' & Hd1 & Hrc). rewrite (fr_dom _ _ _ _ _ _ Hf) in Hd1. injection Hd1 as <-.
    specialize (Hch rp). destruct (decide (p = rp)) as [<-|Hp].
    + rewrite (fr_zero _ _ _ _ _ _ Hf) in Hrc. by injection Hrc as <-.
    + rewrite Hrc in Hch. destruct (chn_at dd2 rp) as [c2|]; [|done]. injection Hch as Hch. f_equal.
      rewrite (unlinked_state rc c2 Hch); [done|]. unfold plain. by rewrite Hrs.
  - intros d' q. rewrite <- (upd_proper d p _ _ _ Hv d' q). unfold view, upd. rewrite chn_set. destruct (decide (d = d')) as [<-|Hne].
    + specialize (Hch q). unfold chn. rewrite (fr_dom _ _ _ _ _ _ Hf). cbn. destruct (decide (p = q)) as [<-|Hpq].
      * rewrite decide_True by done. destruct (chn_at dd2 p) as [c'|]; [|done]. injection Hch as Hu. cbn.
        rewrite <- bound_unlinked, Hu, bound_unlinked. unfold bound, unlinked. by destruct (ec_state c).
      * rewrite decide_False by tauto. destruct (chn_at dd2 q) as [c'|], (chn_at dd1 q) as [c0|]; try done.
        injection Hch as Hu. cbn. by rewrite <- bound_unlinked, Hu, bound_unlinked.
    + rewrite decide_False by tauto. done.
Qed.

Lemma bind_virq_spec cur virq v s : ewf s -> is_Some (es_doms s !! cur) ->
  wp tol (evtchn_bind_virq env cur virq v) (fun r s' => exists dd, es_doms s !! cur = Some dd /\
    (refused s s' (fst r) (fst r = - EINVAL /\ ~ (0 <= virq < NR_VIRQS) \/
        fst r = - EINVAL /\ virq_is_global virq = true /\ v <> 0 \/
        fst r = - ENOENT /\ ed_vcpus dd !! v = None \/
        fst r = - EEXIST /\ (exists x p, ed_vcpus dd !! v = Some x /\ vc_virqs x !! Z.to_nat virq = Some p /\ p <> 0) \/
        no_port dd (fst r)) \/
     fst r = 0 /\ is_Some (ed_vcpus dd !! v) /\ bound_new s s' cur (snd r) (mk_evtchn (ECS_VIRQ virq) false v))) s.
Proof using Hxsm.
  intros Hw [dd Hd]. pose proof (do_shape _ (ew_dom _ Hw _ _ Hd)) as Hsh. unfold evtchn_bind_virq.
  destruct ((virq <? 0) || (NR_VIRQS <=? virq)) eqn:Hr; wp_steps.
  { exists dd. split; [done|]. left. apply refused_same; [done|done|]. left. split; [done|]. apply orb_true_iff in Hr as [H%Z.ltb_lt|H%Z.leb_le]; lia. }
  apply orb_false_iff in Hr as [Hr1%Z.ltb_ge Hr2%Z.leb_gt].
  destruct (virq_is_global virq && negb (v =? 0)) eqn:Hg; wp_steps.
  { exists dd. split; [done|]. left. apply refused_same; [done|done|]. right. left. apply andb_true_iff in Hg as [Hg1 Hg2%negb_true_iff%Z.eqb_neq]. done. }
  eapply wp_dom_read; [done|]. rewrite has_vcpu_spec by done. case_bool_decide as Hv; wp_steps.
  2:{ exists dd. split; [done|]. left. apply refused_same; [done|done|]. right; right; left. split; [done|]. by apply eq_None_not_Some. }
  destruct Hv as [x Hx]. destruct (sh_vcpus _ Hsh v x Hx) as (Hv1 & Hv2 & Hlen).
  destruct (lookup_lt_is_Some_2 (vc_virqs x) (Z.to_nat virq)) as [old Hold]; [rewrite Hlen; unfold NR_VIRQS in *; lia|].
  unfold virq_read at 1. wp_steps. eapply wp_vcpu_read; [done..|]. eapply wp_cell; [lia|done|].
  destruct (Z.eqb_spec old 0) as [->|Ho]; wp_steps.
  2:{ exists dd. split; [done|]. left. apply refused_same; [done|done|]. right; right; right; left. split; [done|]. by exists x, old. }
  apply wp_bind_inv. eapply wp_fresh; [done..| |].
  - intros rc s1 _ (H1 & H2 & H3 & H4) _. exists dd. split; [done|]. left. split; [done|]. split; [by right; right; right; right|done].
  - intros p s1 dd1 Hf Hw1 Hvw. destruct (fresh_vcpus _ _ _ _ _ _ Hf) as (Hvc & _). wp_steps.
    eapply wp_chn_write; [apply Hf|apply Hf|]. wp_steps. rewrite (on_set _ _ s1 dd1) by apply Hf.
    unfold virq_write, virq_read. wp_steps. eapply wp_vcpu_read; [apply set_dom_eq|cbn; by rewrite Hvc|].
    eapply wp_cell; [lia|done|]. wp_steps. apply wp_vcpu_write. wp_steps. rewrite on_set_dom.
    exists dd. split; [done|]. right. split; [done|]. split; [by exists x|]. cbn [snd].
    rewrite (fr_u16 _ _ _ _ _ _ Hf), (vcpu_u16 dd v) by done. rewrite (wrap_id 16 virq) by (unfold urange, NR_VIRQS in *; lia).
    change (mk_evtchn (ECS_VIRQ virq) false v) with (unlinked (mk_evtchn (ECS_VIRQ virq) false v)).
    eapply new_listed; [done..| |intros []|done|].
    + eapply (add_virq_ok p dd1 (ew_dom _ Hw1 _ _ (fr_dom _ _ _ _ _ _ Hf)) (fr_zero _ _ _ _ _ _ Hf) ltac:(destruct Hf; lia) virq v x);
        [by rewrite Hvc|done|lia|done].
    + intros q. transitivity (unlinked <$> chn_at (put_chn p (fun c => c <| ec_state := ECS_VIRQ virq |> <| ec_notify := v |>) dd1) q);
        [done|]. rewrite put_at by apply Hf. by case_decide.
Qed.

Lemma bind_pirq_spec cur pirq share s : ewf s -> is_Some (es_doms s !! cur) ->
  wp tol (evtchn_bind_pirq env cur pirq share) (fun r s' => exists dd, es_doms s !! cur = Some dd /\
    (refused s s' (fst r) (fst r = - EINVAL /\ ~ (0 <= pirq < Z.of_nat (length (ed_pirqs dd))) \/
        fst r = - EPERM /\ ed_hvm dd = false /\ ee_irq_permitted env cur pirq = false \/
        fst r = - EEXIST /\ (exists p, ed_pirqs dd !! Z.to_nat pirq = Some p /\ p <> 0) \/
        no_port dd (fst r) \/
        ed_hvm dd = false /\ fst r = ee_pirq_guest_bind env cur pirq share) \/
     fst r = 0 /\ bound_new s s' cur (snd r) (mk_evtchn (ECS_PIRQ pirq 0 0) false 0))) s.
Proof using Hxsm.
  intros Hw [dd Hd]. pose proof (do_shape _ (ew_dom _ Hw _ _ Hd)) as Hsh. unfold evtchn_bind_pirq. wp_steps. eapply wp_dom_read; [done|].
  destruct (_ || _) eqn:Hr; wp_steps.
  { exists dd. split; [done|]. left. apply refused_same; [done|done|]. left. split; [done|]. apply orb_true_iff in Hr as [H%Z.ltb_lt|H%Z.leb_le]; lia. }
  apply orb_false_iff in Hr as [Hr1%Z.ltb_ge Hr2%Z.leb_gt].
  destruct (_ && _) eqn:Hg; wp_steps.
  { exists dd. split; [done|]. left. apply refused_same; [done|done|]. right. left. apply andb_true_iff in Hg as [Hg1%negb_true_iff Hg2%negb_true_iff]. done. }
  destruct (lookup_lt_is_Some_2 (ed_pirqs dd) (Z.to_nat pirq)) as [old Hold]; [lia|].
  unfold pirq_read at 1. wp_steps. eapply wp_dom_read; [done|]. eapply wp_cell; [lia|done|].
  destruct (Z.eqb_spec old 0) as [->|Ho]; wp_steps.
  2:{ exists dd. split; [done|]. left. apply refused_same; [done|done|]. right; right; left. split; [done|]. by exists old. }
  apply wp_bind_inv. eapply wp_fresh; [done..| |].
  - intros rc s1 _ (H1 & H2 & H3 & H4) _. exists dd. split; [done|]. left. split; [done|]. split; [by right; right; right; left|done].
  - intros p s1 dd1 Hf Hw1 Hvw. destruct (fresh_vcpus _ _ _ _ _ _ Hf) as (Hvc & Hpi & Hhv).
    pose proof (ew_dom _ Hw1 _ _ (fr_dom _ _ _ _ _ _ Hf)) as Hok1. rewrite (fr_u16 _ _ _ _ _ _ Hf).
    unfold pirq_write, pirq_read. wp_steps. eapply wp_dom_read; [apply Hf|]. rewrite Hpi. eapply wp_cell; [lia|done|]. wp_steps.
    apply wp_dom_write. rewrite (on_set _ _ s1 dd1) by apply Hf. case_match eqn:Hrc; wp_steps.
    + eapply wp_dom_read; [apply set_dom_eq|]. cbn [ed_pirqs setter]. eapply wp_cell; [lia| |].
      { cbn. apply list_lookup_insert_eq. rewrite Hpi. by eapply lookup_lt_Some. }
      wp_steps. apply wp_dom_write. wp_steps. rewrite on_set_dom.
      assert (Hsame : dd1 <| ed_pirqs ::= <[Z.to_nat pirq := p]> |> <| ed_pirqs ::= <[Z.to_nat pirq := 0]> |> = dd1).
      { unfold setter. cbn. rewrite list_insert_insert_eq, list_insert_id by (by rewrite Hpi). by destruct dd1. }
      rewrite Hsame, set_id by apply Hf. exists dd. split; [done|]. left. split; [by apply negb_true_iff, Z.eqb_neq in Hrc|].
      split; [|done]. right; right; right; right. destruct (ed_hvm dd); [done|]. done.
    + assert (Hok2 := add_pirq_ok p dd1 Hok1 (fr_zero _ _ _ _ _ _ Hf) ltac:(destruct Hf; lia) pirq).
      eapply (wp_chn_write _ cur p _ _ zero_chn); [apply set_dom_eq|exact (fr_zero _ _ _ _ _ _ Hf)|]. rewrite on_set_dom. wp_steps.
      rewrite (wrap_id 16 pirq) by (unfold urange; pose proof (sh_pirqs _ Hsh); lia).
      destruct (Hok2 (fun c => c <| ec_state := ECS_PIRQ pirq 0 0 |>)) as [Ht Hl]; [lia|by rewrite Hpi|done|].
      set (dd2 := put_chn p _ _) in *.
      assert (Hat : forall q, chn_at dd2 q = if decide (p = q) then Some (mk_evtchn (ECS_PIRQ pirq 0 0) false 0) else chn_at dd1 q).
      { intros q. unfold dd2. rewrite put_at; [done|]. exact (fr_zero _ _ _ _ _ _ Hf). }
      eapply wp_mono.
      { eapply (link_spec _ cur p 0 dd2); [apply set_dom_eq|done|apply Ht|apply Ht|apply Ht|by rewrite Hat, decide_True|done|done|].
        destruct Hf; lia. }
      intros _ s' (dd3 & -> & Hm & Hl3). wp_steps. rewrite set_set. exists dd. split; [done|]. right. split; [done|]. cbn [snd].
      change (mk_evtchn (ECS_PIRQ pirq 0 0) false 0) with (unlinked (mk_evtchn (ECS_PIRQ pirq 0 0) false 0)).
      eapply new_listed; [done..| |intros []|done|].
      * apply dom_ok_split. split; [|done]. eapply links_tables; [apply Hm|done].
      * intros q. rewrite (lo_chns _ _ (mv_links _ _ _ Hm)), Hat. by case_decide.
Qed.
End Ops.
