(* ===== verification/EvtchnOps.v ===== *)
(** The other operations on event channels: sending, looking, moving a
    notification to another processor, unmasking, and what empties a domain. *)
From S2P Require Import Prelude CMonad Evtchn EvtchnInv EvtchnPorts EvtchnLists EvtchnClose EvtchnBind.

(** * Sending *)

(** An event arrives at a port of a domain. *)
Definition delivered (s s' : estate) (d p : Z) : Prop :=
  exists dd dd' c, es_doms s !! d = Some dd /\ chn_at dd p = Some c /\ s' = set_dom d dd' s /\ sent (ec_notify c) p dd dd'.

Lemma delivered_same s s' d p : delivered s s' d p -> esame s s'.
Proof. intros (dd & dd' & c & Hd & _ & -> & Hs). by apply (set_same d dd); [|apply Hs]. Qed.

(** Xen waits on a port: its processor is no longer blocked there. *)
Definition xen_notified (d v : Z) (s : estate) : estate :=
  on d (fun dd => dd <| ed_vcpus ::= alter (fun x => x <| vc_blocked_in_xen := false |>) v |>) s.

Lemma xen_notified_same d v s : esame s (xen_notified d v s).
Proof. apply on_same. intros dd _. by apply vcpu_same. Qed.

(** What a send does; a port that is not valid has no channel. *)
Definition sends (env : EvtEnv) (s : estate) (cur p rc : Z) (s' : estate) : Prop :=
  match chn s cur p with
  | None => rc = - EINVAL /\ s' = s
  | Some c =>
      if ec_xen c then rc = - EINVAL /\ s' = s
      else if negb (ee_xsm_send env cur p =? 0) then rc = ee_xsm_send env cur p /\ s' = s
      else match ec_state c with
        | ECS_INTERDOMAIN rd rp => rc = 0 /\ exists peer, chn s rd rp = Some peer /\
            if ec_xen peer then s' = xen_notified rd (ec_notify peer) s else delivered s s' rd rp
        | ECS_IPI => rc = 0 /\ delivered s s' cur p
        | ECS_UNBOUND _ => rc = 0 /\ s' = s
        | _ => rc = - EINVAL /\ s' = s
        end
  end.

Lemma sends_same env s cur p rc s' : sends env s cur p rc s' -> esame s s'.
Proof.
  unfold sends. destruct (chn s cur p) as [c|]; [|by intros [_ ->]]. destruct (ec_xen c); [by intros [_ ->]|].
  destruct (negb _); [by intros [_ ->]|].
  destruct (ec_state c); try (by intros [_ ->]).
  - intros (_ & peer & _ & Hp). destruct (ec_xen peer); [subst s'; apply xen_notified_same|by eapply delivered_same].
  - intros [_ Hp]. by eapply delivered_same.
Qed.

Section Ops.
Context (env : EvtEnv) (tol : fault -> Prop).
Implicit Types (s : estate) (dd : edom) (d p q v cur : Z).

Lemma wp_deliver d p dd c (Q : Z -> estate -> Prop) s : ewf s -> es_doms s !! d = Some dd -> chn_at dd p = Some c ->
  (forall r s', delivered s s' d p -> Q r s') -> wp tol (evtchn_set_pending d (ec_notify c) p) Q s.
Proof using.
  intros Hw Hd Hc HQ. pose proof (ew_dom _ Hw _ _ Hd) as Hok. eapply wp_mono.
  { eapply (evtchn_set_pending_spec _ d _ p dd); [done|apply Hok|]. apply (co_notify _ _ (do_chns _ Hok _ _ Hc)). }
  intros r s' (dd' & Hs & Hsent). apply HQ. by exists dd, dd', c.
Qed.

Lemma view_at s d dd p : es_doms s !! d = Some dd -> view s d p = chn_at dd p ≫= bound.
Proof using. intros Hd. unfold view, chn. by rewrite Hd. Qed.

(** The other end of a pair. *)
Lemma view_peer s d p c rd rp : ewf s -> view s d p = Some c -> ec_state c = ECS_INTERDOMAIN rd rp ->
  exists rdd rc, es_doms s !! rd = Some rdd /\ chn_at rdd rp = Some rc /\ ec_state rc = ECS_INTERDOMAIN d p /\ view s rd rp = Some rc.
Proof using.
  intros [_ Hp] Hv Hst. unfold view, chn in Hv. destruct (es_doms s !! d) as [dd|] eqn:Hd; [|done]. cbn in Hv.
  destruct (chn_at dd p) as [c'|] eqn:Hc; [|done]. cbn in Hv.
  assert (c' = c) as ->.
  { unfold bound in Hv. by destruct (ec_state c') eqn:Hs; simplify_eq/=. }
  destruct (Hp _ _ _ _ _ _ Hd Hc Hst) as (rdd & rc & H1 & H2 & H3). exists rdd, rc.
  split; [done|]. split; [done|]. split; [done|]. rewrite (view_at s rd rdd) by done. rewrite H2. cbn. unfold bound. by rewrite H3.
Qed.

(** A port that is not valid, or free, shows nothing. *)
Ltac look Hd p dd :=
  rewrite valid_chn by (by eapply do_shape, ew_dom); rewrite ?(view_at _ _ dd p Hd);
  let c := fresh "c" in let Hc := fresh "Hc" in
  destruct (chn_at dd p) as [c|] eqn:Hc;
    [rewrite bool_decide_eq_true_2 by done|rewrite bool_decide_eq_false_2 by (by intros [? ?])]; cbn [negb mbind option_bind]; wp_steps.

Lemma evtchn_send_spec cur p s : ewf s -> is_Some (es_doms s !! cur) -> wp tol (evtchn_send env cur p) (sends env s cur p) s.
Proof using.
  intros Hw [dd Hd]. unfold evtchn_send. wp_steps. eapply wp_dom_read; [done|]. unfold sends. unfold chn at 1. rewrite Hd. cbn [mbind option_bind].
  look Hd p dd; [|done]. eapply wp_chn; [done..|]. destruct (ec_xen c) eqn:Hx; wp_steps; [done|].
  destruct (negb (ee_xsm_send env cur p =? 0)) eqn:Hs; wp_steps; [done|].
  destruct (ec_state c) eqn:Hst; wp_steps; try done.
  - destruct (view_peer s cur p c remote_dom remote_port) as (rdd & rc & Hrd & Hrc & _ & Hv); [done| |done|].
    { rewrite (view_at s cur dd) by done. rewrite Hc. cbn. unfold bound. by rewrite Hst. }
    replace (chn s remote_dom remote_port) with (Some rc) by (unfold chn; by rewrite Hrd).
    eapply wp_chn; [done..|]. destruct (ec_xen rc) eqn:Hxr; wp_steps.
    + pose proof (co_notify _ _ (do_chns _ (ew_dom _ Hw _ _ Hrd) _ _ Hrc)) as [x Hvx]. eapply wp_vcpu_read; [done..|].
      apply wp_vcpu_write. wp_steps. split; [done|]. exists rc. by rewrite Hxr.
    + eapply wp_deliver; [done..|]. intros r s' Hdel. wp_steps. split; [done|]. exists rc. by rewrite Hxr.
  - eapply wp_deliver; [done..|]. intros r s' Hdel. by wp_steps.
Qed.

(** * Virtual and physical interrupts, and the channels of the hypervisor *)

Lemma vcpu_virq_spec d v virq dd x s : ewf s -> es_doms s !! d = Some dd -> ed_vcpus dd !! v = Some x ->
  0 <= virq < NR_VIRQS -> virq_is_global virq = false ->
  wp tol (send_guest_vcpu_virq d v virq) (fun _ s' =>
    exists p, vc_virqs x !! Z.to_nat virq = Some p /\ if p =? 0 then s' = s else delivered s s' d p) s.
Proof using.
  intros Hw Hd Hx Hr Hg. pose proof (ew_dom _ Hw _ _ Hd) as Hok. unfold send_guest_vcpu_virq. rewrite Hg. wp_steps.
  destruct (sh_vcpus _ (do_shape _ Hok) v x Hx) as (_ & _ & Hlen).
  destruct (lookup_lt_is_Some_2 (vc_virqs x) (Z.to_nat virq)) as [p Hp]; [rewrite Hlen; unfold NR_VIRQS in *; lia|].
  unfold virq_read. wp_steps. eapply wp_vcpu_read; [done..|]. eapply wp_cell; [lia|done|].
  destruct (Z.eqb_spec p 0) as [->|Hne]; wp_steps; [by exists 0|].
  destruct (do_virq _ Hok v x _ p Hx Hp Hne) as (c & Hc & _ & Hn). rewrite Z2Nat.id in Hn by lia. rewrite <- (Hn Hg).
  eapply wp_deliver; [done..|]. intros r s' Hdel. wp_steps. exists p. split; [done|]. by rewrite (proj2 (Z.eqb_neq p 0)).
Qed.

Lemma global_virq_spec d virq dd s : ewf s -> es_doms s !! d = Some dd -> 0 <= virq < NR_VIRQS -> virq_is_global virq = true ->
  wp tol (send_guest_global_virq d virq) (fun _ s' => exists x p, ed_vcpus dd !! 0 = Some x /\
    vc_virqs x !! Z.to_nat virq = Some p /\ if p =? 0 then s' = s else delivered s s' d p) s.
Proof using.
  intros Hw Hd Hr Hg. pose proof (ew_dom _ Hw _ _ Hd) as Hok. unfold send_guest_global_virq. rewrite Hg. wp_steps.
  eapply wp_dom_read; [done|]. destruct (sh_vcpu0 _ (do_shape _ Hok)) as [x Hx]. rewrite Hx. wp_steps.
  destruct (sh_vcpus _ (do_shape _ Hok) 0 x Hx) as (_ & _ & Hlen).
  destruct (lookup_lt_is_Some_2 (vc_virqs x) (Z.to_nat virq)) as [p Hp]; [rewrite Hlen; unfold NR_VIRQS in *; lia|].
  unfold virq_read. wp_steps. eapply wp_vcpu_read; [done..|]. eapply wp_cell; [lia|done|].
  destruct (Z.eqb_spec p 0) as [->|Hne]; wp_steps; [by exists x, 0|].
  destruct (do_virq _ Hok 0 x _ p Hx Hp Hne) as (c & Hc & _). eapply wp_chn; [done..|]. wp_steps.
  eapply wp_deliver; [done..|]. intros r s' Hdel. wp_steps. exists x, p. split; [done|]. split; [done|].
  by rewrite (proj2 (Z.eqb_neq p 0)).
Qed.

(** An interrupt that is not bound is the hypervisor's mistake, but in a
    domain with emulated hardware. *)
Lemma pirq_spec d pirq dd p s : ewf s -> es_doms s !! d = Some dd -> 0 <= pirq -> ed_pirqs dd !! Z.to_nat pirq = Some p ->
  p <> 0 \/ ed_hvm dd = true ->
  wp tol (send_guest_pirq d pirq) (fun _ s' => if p =? 0 then s' = s else delivered s s' d p) s.
Proof using.
  intros Hw Hd Hr Hp Hb. pose proof (ew_dom _ Hw _ _ Hd) as Hok. unfold send_guest_pirq, pirq_read. wp_steps.
  eapply wp_dom_read; [done|]. eapply wp_cell; [lia|done|]. destruct (Z.eqb_spec p 0) as [->|Hne].
  - wp_steps. eapply wp_dom_read; [done|]. destruct Hb as [?| ->]; [done|]. by wp_steps.
  - wp_steps. destruct (do_pirq _ Hok _ p Hp Hne) as (c & n & q & Hc & _). eapply wp_chn; [done..|].
    eapply wp_deliver; [done..|]. done.
Qed.

Lemma notify_spec d p dd c s : ewf s -> es_doms s !! d = Some dd -> view s d p = Some c -> ec_xen c = true ->
  wp tol (notify_via_xen_event_channel d p) (fun _ s' =>
    if ed_dying dd then s' = s
    else match ec_state c with
      | ECS_INTERDOMAIN rd rp => delivered s s' rd rp
      | _ => s' = s
      end) s.
Proof using.
  intros Hw Hd Hv Hx. unfold notify_via_xen_event_channel. wp_steps. eapply wp_dom_read; [done|].
  destruct (ed_dying dd); wp_steps; [done|]. pose proof Hv as Hv0. rewrite (view_at s d dd) in Hv by done. look Hd p dd; [|done].
  eapply wp_chn; [done..|]. pose proof (co_xen _ _ (do_chns _ (ew_dom _ Hw _ _ Hd) _ _ Hc)) as Hcx.
  assert (c0 = c) as ->.
  { unfold bound in Hv. destruct (ec_state c0) eqn:Hs; cbn in Hv; rewrite Hs in Hv; simplify_eq; try done; by specialize (Hcx Hx). }
  rewrite Hx. cbn [negb]. destruct (ec_state c) eqn:Hst; wp_steps; try done.
  destruct (view_peer s d p c remote_dom remote_port) as (rdd & rc & Hrd & Hrc & _ & _); [done..|].
  eapply wp_chn; [done..|]. wp_steps. eapply wp_deliver; [done..|]. intros r s' Hdel. by wp_steps.
Qed.

(** * Looking *)

Definition stat_of (c : evtchn) : evtchn_stat :=
  match ec_state c with
  | ECS_FREE | ECS_RESERVED => EVTCHNSTAT_closed
  | ECS_UNBOUND remote => EVTCHNSTAT_unbound remote
  | ECS_INTERDOMAIN rd rp => EVTCHNSTAT_interdomain rd rp
  | ECS_PIRQ irq _ _ => EVTCHNSTAT_pirq irq
  | ECS_VIRQ virq => EVTCHNSTAT_virq virq
  | ECS_IPI => EVTCHNSTAT_ipi
  end.

Definition status s cur dom p : Z * option (evtchn_stat * Z) :=
  match target_of env s cur dom with
  | inl rc => (rc, None)
  | inr d =>
      match chn s d p with
      | None => (- EINVAL, None)
      | Some c => if ee_xsm_status env d p =? 0 then (0, Some (stat_of c, ec_notify c)) else (ee_xsm_status env d p, None)
      end
  end.

Lemma status_spec cur dom p s : ewf s -> is_Some (es_doms s !! cur) ->
  wp tol (evtchn_status env cur dom p) (fun r s' => s' = s /\ r = status s cur dom p) s.
Proof using.
  intros Hw Hcur. unfold evtchn_status, status. wp_steps. apply wp_target.
  destruct (target_of env s cur dom) as [rc|d] eqn:Ht; wp_steps; [done|].
  destruct (target_dom env _ _ _ _ Hcur Ht) as [dd Hd]. eapply wp_dom_read; [done|]. unfold chn. rewrite Hd. cbn [mbind option_bind].
  look Hd p dd; [|done]. eapply wp_chn; [done..|]. destruct (ee_xsm_status env d p =? 0); wp_steps; [|done].
  unfold stat_of. destruct (ec_state c) eqn:Hst; wp_steps; try done.
  destruct (ew_peers _ Hw _ _ _ _ _ _ Hd Hc Hst) as (rdd & _ & Hrd & _). eapply wp_dom_read; [done|]. by wp_steps.
Qed.

(** The walk over the interrupts of a processor: each of its ports once. *)
Lemma move_pirqs_spec d v dd x s : ewf s -> es_doms s !! d = Some dd -> ed_vcpus dd !! v = Some x ->
  wp tol (evtchn_move_pirqs d v) (fun irqs s' => s' = s /\ NoDup irqs /\
    forall irq, irq ∈ irqs <-> exists p c n q, chn_at dd p = Some c /\ ec_state c = ECS_PIRQ irq n q /\ ec_notify c = v) s.
Proof using.
  intros Hw Hd Hx. pose proof (ew_dom _ Hw _ _ Hd) as Hok. destruct (do_list _ Hok v x Hx) as (ps & Hnd & Hl & Hin).
  unfold evtchn_move_pirqs. wp_steps. eapply wp_dom_read; [done|]. wp_steps. eapply wp_vcpu_read; [done..|].
  assert (Hlen : (length ps <= Z.to_nat (MAX_EVTCHNS dd))%nat).
  { assert (Hsub : ps ⊆ seqZ 0 (MAX_EVTCHNS dd)).
    { intros p (c & irq & n & q & Hc & _)%Hin. apply elem_of_seqZ. apply (chn_range _ _ _ (do_shape _ Hok)) in Hc. lia. }
    pose proof (submseteq_length _ _ (NoDup_submseteq _ _ Hnd Hsub)) as H. by rewrite length_seqZ in H. }
  eapply wp_mono; [by apply (walk_spec tol d dd s Hd ps 0 _ _ [] Hlen)|].
  intros irqs s' (-> & irs & -> & HF). cbn [app]. split; [done|].
  assert (Hfun : forall p p' irq, (exists c n q, chn_at dd p = Some c /\ ec_state c = ECS_PIRQ irq n q) ->
    (exists c n q, chn_at dd p' = Some c /\ ec_state c = ECS_PIRQ irq n q) -> p = p').
  { intros p p' irq (c & n & q & Hc & Hst) (c' & n' & q' & Hc' & Hst').
    destruct (do_pirq_back _ Hok _ _ _ _ _ Hc Hst) as [_ H1]. destruct (do_pirq_back _ Hok _ _ _ _ _ Hc' Hst') as [_ H2]. congruence. }
  split.
  - clear Hin Hl Hlen. induction HF as [|p irq ps irs Hp HF IH]; [constructor|]. apply NoDup_cons in Hnd as [Hni Hnd].
    constructor; [|by apply IH]. intros Hi. apply list_elem_of_lookup in Hi as [i Hi].
    destruct (Forall2_lookup_r _ _ _ _ _ HF Hi) as (p' & Hp' & Hpp). apply Hni. rewrite (Hfun p p' irq) by done.
    by eapply list_elem_of_lookup_2.
  - intros irq. split.
    + intros [i Hi]%list_elem_of_lookup. destruct (Forall2_lookup_r _ _ _ _ _ HF Hi) as (p & Hp & (c & n & q & Hc & Hst)).
      assert (Hpp : p ∈ ps) by (by eapply list_elem_of_lookup_2). apply Hin in Hpp as (c' & ? & ? & ? & Hc' & _ & Hn).
      rewrite Hc in Hc'. injection Hc' as <-. by exists p, c, n, q.
    + intros (p & c & n & q & Hc & Hst & Hn). assert (Hpp : p ∈ ps) by (apply Hin; by exists c, irq, n, q).
      apply list_elem_of_lookup in Hpp as [i Hi]. destruct (Forall2_lookup_l _ _ _ _ _ HF Hi) as (irq' & Hi' & (c' & n' & q' & Hc' & Hst')).
      rewrite Hc in Hc'. injection Hc' as <-. rewrite Hst in Hst'. injection Hst' as <- _ _. by eapply list_elem_of_lookup_2.
Qed.

(** * Unmasking *)

Definition unmasked (s s' : estate) cur p : Prop :=
  exists dd dd' c, es_doms s !! cur = Some dd /\ chn_at dd p = Some c /\ s' = set_dom cur dd' s /\ dsame dd dd' /\
    ed_mask dd' = ed_mask dd ∖ {[p]} /\ ed_pending dd' = ed_pending dd /\
    (p ∈ ed_mask dd -> p ∈ ed_pending dd -> forall x, ed_vcpus dd !! ec_notify c = Some x ->
      let word := p / BITS_PER_EVTCHN_WORD dd in
      exists x', ed_vcpus dd' !! ec_notify c = Some x' /\ word ∈ vc_sel x' /\ (word ∉ vc_sel x -> vc_upcall x' = true)).

Lemma unmask_spec cur p s : ewf s -> is_Some (es_doms s !! cur) ->
  wp tol (evtchn_unmask cur p) (fun rc s' =>
    rc = - EINVAL /\ s' = s /\ chn s cur p = None \/ rc = 0 /\ unmasked s s' cur p) s.
Proof using.
  intros Hw [dd Hd]. pose proof (ew_dom _ Hw _ _ Hd) as Hok. unfold evtchn_unmask. wp_steps. eapply wp_dom_read; [done|].
  unfold chn. rewrite Hd. cbn [mbind option_bind]. look Hd p dd; [|by left]. eapply wp_chn; [done..|]. wp_steps.
  apply wp_dom_write. fold_dom. set (dd1 := dd <| ed_mask ::= fun m => m ∖ {[p]} |>). wp_steps.
  assert (Hs1 : dsame dd dd1) by (split; cbn; auto).
  destruct (co_notify _ _ (do_chns _ Hok _ _ Hc)) as [x Hx].
  destruct (_ && _) eqn:Hmp; wp_steps.
  2:{ right. split; [done|]. exists dd, dd1, c. split; [done|]. split; [done|]. split; [done|]. split; [done|]. split; [done|].
      split; [done|]. intros Hm Hpe. by rewrite !bool_decide_eq_true_2 in Hmp. }
  eapply wp_vcpu_read; [apply set_dom_eq|exact Hx|]. wp_steps.
  pose proof (wp_bind_inv _ _ _ _ _ (select_spec tol cur (ec_notify c) (p / BITS_PER_EVTCHN_WORD dd) dd1 x (set_dom cur dd1 s)
    (set_dom_eq _ _ _) Hx)) as H.
  eapply wp_mono; [exact H|]. intros [] s1 H1. wp_steps. eapply wp_mono; [exact H1|]. intros _ s' (dd2 & -> & Hw2 & Hsel). wp_steps. rewrite set_set. right. split; [done|]. exists dd, dd2, c.
  split; [done|]. split; [done|]. split; [done|]. split; [transitivity dd1; [done|apply Hw2]|].
  split; [by rewrite (wk_mask _ _ Hw2)|]. split; [by rewrite (wk_pending _ _ Hw2)|]. intros _ _. exact Hsel.
Qed.
End Ops.

Definition renotify (v : Z) (c : evtchn) : evtchn := c <| ec_notify := v |>.

(** The bindings that can be moved: virtual interrupts only when they are
    global, and channels between processors not at all. *)
Definition movable (c : evtchn) : bool :=
  match ec_state c with
  | ECS_VIRQ virq => virq_is_global virq
  | ECS_UNBOUND _ | ECS_INTERDOMAIN _ _ | ECS_PIRQ _ _ _ => true
  | _ => false
  end.

Lemma renotify_at p v dd c q : chn_at dd p = Some c ->
  chn_at (put_chn p (renotify v) dd) q = if decide (p = q) then Some (renotify v c) else chn_at dd q.
Proof. intros Hc. rewrite chn_at_put. case_decide; [subst q; by rewrite Hc|done]. Qed.

Lemma renotify_tables p v dd c : tables dd -> chn_at dd p = Some c -> movable c = true -> is_Some (ed_vcpus dd !! v) ->
  tables (put_chn p (renotify v) dd).
Proof.
  intros [H0 H1 H2 H3 H4 H5 H6 H7] Hc Hm Hv. pose proof (fun q => renotify_at p v dd c q Hc) as Hat.
  assert (Hback : forall q c', chn_at (put_chn p (renotify v) dd) q = Some c' ->
    exists c0, chn_at dd q = Some c0 /\ ec_state c0 = ec_state c' /\ ec_xen c0 = ec_xen c').
  { intros q c'. rewrite Hat. case_decide as Hq; [subst q; intros [= <-]; by exists c|by exists c']. }
  split.
  - by apply put_shape.
  - intros q c'. rewrite Hat. case_decide as Hq.
    + intros [= <-]. destruct (H1 _ _ Hc) as [K1 K2 K3]. split; [done| |done]. intros Hf. unfold movable in Hm. cbn in Hf.
      by rewrite Hf in Hm.
    + intros Hq'. by destruct (H1 _ _ Hq').
  - intros c' Hc'. destruct (Hback _ _ Hc') as (c0 & Hc0 & <- & _). by apply H2.
  - intros Hd. rewrite Hat. case_decide; [done|by apply H3].
  - intros i x u q Hx Hu Hq. destruct (H4 i x u q Hx Hu Hq) as (c' & Hc' & Hst & Hn). rewrite Hat. case_decide as Hpq; [|by exists c'].
    subst q. rewrite Hc in Hc'. injection Hc' as <-. exists (renotify v c). split; [done|]. split; [done|].
    unfold movable in Hm. rewrite Hst in Hm. by rewrite Hm.
  - intros q c' u Hc' Hst. destruct (Hback _ _ Hc') as (c0 & Hc0 & Hs & _). apply (H5 q c0 u Hc0). by rewrite Hs.
  - intros irq q Hi Hq. destruct (H6 irq q Hi Hq) as (c' & n & m & Hc' & Hst). rewrite Hat. case_decide as Hpq; [|by exists c', n, m].
    subst q. rewrite Hc in Hc'. injection Hc' as <-. by exists (renotify v c), n, m.
  - intros q c' irq n m Hc' Hst. destruct (Hback _ _ Hc') as (c0 & Hc0 & Hs & _). apply (H7 q c0 irq n m Hc0). by rewrite Hs.
Qed.

(** The port that is out of the lists changes its processor. *)
Lemma renotify_lists p v dd c : chn_at dd p = Some c -> lists p dd -> lists p (put_chn p (renotify v) dd).
Proof.
  intros Hc Hl i x Hx. destruct (Hl i x Hx) as (ps & Hnd & Hps & Hin). exists ps. split; [done|]. split.
  - eapply pirq_list_ext; [|done]. intros q Hq. rewrite chn_at_put, decide_False; [done|]. intros ->. by apply Hin in Hq as [_ ?].
  - intros q. rewrite Hin. destruct (decide (p = q)) as [<-|Hne]; [tauto|].
    by rewrite (pirq_at_ext dd (put_chn p (renotify v) dd) i q) by (by rewrite chn_at_put, decide_False).
Qed.

(** A port keeps its binding and changes the rest. *)
Lemma rebound d p dd dd' c c1 s : ewf s -> es_doms s !! d = Some dd -> dom_ok dd' -> chn_at dd p = Some c ->
  ec_state c1 = ec_state c ->
  (forall q, unlinked <$> chn_at dd' q = if decide (p = q) then Some (unlinked c1) else unlinked <$> chn_at dd q) ->
  ewf (set_dom d dd' s) /\ veq (view (set_dom d dd' s)) (upd d p (bound c1) (view s)).
Proof.
  intros [H1 H2] Hd Hok Hc Hsame Hch.
  assert (Hus : forall x, ec_state (unlinked x) = match ec_state x with ECS_PIRQ irq _ _ => ECS_PIRQ irq 0 0 | st => st end).
  { intros [[] ? ?]; done. }
  assert (Hst : forall q, (fun x => ec_state (unlinked x)) <$> chn_at dd' q = (fun x => ec_state (unlinked x)) <$> chn_at dd q).
  { intros q. specialize (Hch q). destruct (decide (p = q)) as [<-|].
    - rewrite Hc. destruct (chn_at dd' p) as [c'|]; [|done]. injection Hch as Hch. cbn. by rewrite Hch, !Hus, Hsame.
    - destruct (chn_at dd' q), (chn_at dd q); try done. injection Hch as Hch. cbn. by rewrite Hch. }
  assert (Hpair : forall y rd rp, ec_state y = ECS_INTERDOMAIN rd rp <-> ec_state (unlinked y) = ECS_INTERDOMAIN rd rp).
  { intros y rd rp. rewrite Hus. by destruct (ec_state y). }
  assert (Hmove : forall d' q rd rp, (exists c', chn (set_dom d dd' s) d' q = Some c' /\ ec_state c' = ECS_INTERDOMAIN rd rp) <->
    (exists c', chn s d' q = Some c' /\ ec_state c' = ECS_INTERDOMAIN rd rp)).
  { intros d' q rd rp. rewrite chn_set. case_decide; [subst d'|done]. unfold chn. rewrite Hd. cbn. specialize (Hst q).
    split; intros (c' & Hc' & Hs); rewrite Hc' in Hst.
    - destruct (chn_at dd q) as [c0|] eqn:Hc0; [|done]. injection Hst as Hst. exists c0. split; [done|]. apply Hpair. rewrite <- Hst. by apply (proj1 (Hpair c' rd rp)).
    - destruct (chn_at dd' q) as [c0|] eqn:Hc0; [|done]. injection Hst as Hst. exists c0. split; [done|]. apply Hpair. rewrite Hst. by apply (proj1 (Hpair c' rd rp)). }
  split; [split|].
  - intros d' x. destruct (decide (d = d')) as [<-|Hne]; [rewrite set_dom_eq; by intros [= <-]|]. rewrite set_dom_ne by done. apply H1.
  - apply peers_chn. rewrite peers_chn in H2. intros d' q c' rd rp Hc' Hs.
    destruct (proj1 (Hmove d' q rd rp)) as (c0 & Hc0 & Hs0); [by exists c'|]. apply Hmove. by eapply H2.
  - intros d' q. unfold view, upd. rewrite chn_set. destruct (decide (d = d')) as [<-|Hne].
    + specialize (Hch q). unfold chn. rewrite Hd. cbn. destruct (decide (p = q)) as [<-|Hpq].
      * rewrite decide_True by done. destruct (chn_at dd' p) as [c'|]; [|done]. injection Hch as Hu. cbn.
        by rewrite <- bound_unlinked, Hu, bound_unlinked.
      * rewrite decide_False by tauto. destruct (chn_at dd' q) as [c'|], (chn_at dd q) as [c0|]; try done.
        injection Hch as Hu. cbn. by rewrite <- bound_unlinked, Hu, bound_unlinked.
    + by rewrite decide_False by tauto.
Qed.

Section Move.
Context (tol : fault -> Prop).
Implicit Types (s : estate) (dd : edom) (d p q v cur : Z).

(** Why a port is not moved. *)
Definition not_moved cur p v dd s (rc : Z) : Prop :=
  rc = - ENOENT /\ ed_vcpus dd !! v = None \/
  rc = - EINVAL /\ forall c, view s cur p = Some c -> ec_xen c = true \/ movable c = false.

Definition moved_to cur p v s s' : Prop :=
  exists c, view s cur p = Some c /\ ec_xen c = false /\ movable c = true /\ ewf s' /\
    veq (view s') (upd cur p (Some (renotify v c)) (view s)).

Lemma bound_movable c : movable c = true -> bound c = Some (unlinked c).
Proof using. unfold movable, bound, unlinked. by destruct (ec_state c). Qed.

Lemma movable_unlinked c : movable (unlinked c) = movable c.
Proof using. unfold movable, unlinked. by destruct (ec_state c) eqn:Hst; cbn; rewrite ?Hst. Qed.

Lemma unlinked_xen c : ec_xen (unlinked c) = ec_xen c.
Proof using. unfold unlinked. by destruct (ec_state c). Qed.

Lemma moved_done cur p v dd dd' c s : ewf s -> es_doms s !! cur = Some dd -> dom_ok dd' -> chn_at dd p = Some c ->
  ec_xen c = false -> movable c = true ->
  (forall q, unlinked <$> chn_at dd' q = if decide (p = q) then Some (unlinked (renotify v c)) else unlinked <$> chn_at dd q) ->
  moved_to cur p v s (set_dom cur dd' s).
Proof using.
  intros Hw Hd Hok Hc Hx Hm Hch. destruct (rebound cur p dd dd' c (renotify v c) s) as [Hw' Hv']; [done..|].
  exists (unlinked c). rewrite (view_at s cur dd) by done. rewrite Hc. cbn. rewrite bound_movable by done. split; [done|].
  rewrite unlinked_xen, movable_unlinked. split; [done|]. split; [done|]. split; [done|]. rewrite Hv'.
  intros d' q. unfold upd. case_decide; [|done]. unfold movable in Hm. unfold bound, renotify, unlinked. cbn.
  by destruct (ec_state c).
Qed.

Lemma bind_vcpu_spec cur p v s : ewf s -> is_Some (es_doms s !! cur) ->
  wp tol (evtchn_bind_vcpu cur p v) (fun rc s' => exists dd, es_doms s !! cur = Some dd /\
    (refused s s' rc (not_moved cur p v dd s rc) \/ rc = 0 /\ is_Some (ed_vcpus dd !! v) /\ moved_to cur p v s s')) s.
Proof using.
  intros Hw [dd Hd]. pose proof (ew_dom _ Hw _ _ Hd) as Hok. pose proof (do_shape _ Hok) as Hsh.
  unfold evtchn_bind_vcpu. wp_steps. eapply wp_dom_read; [done|]. rewrite has_vcpu_spec by done.
  case_bool_decide as Hv; wp_steps.
  2:{ exists dd. split; [done|]. left. apply refused_same; [done|done|]. left. split; [done|]. by apply eq_None_not_Some. }
  rewrite (vcpu_u16 dd v) by done.
  assert (Hno : (forall c, view s cur p = Some c -> ec_xen c = true \/ movable c = false) ->
    exists dd, es_doms s !! cur = Some dd /\ (refused s s (- EINVAL) (not_moved cur p v dd s (- EINVAL)) \/
      - EINVAL = 0 /\ is_Some (ed_vcpus dd !! v) /\ moved_to cur p v s s)).
  { intros H. exists dd. split; [done|]. left. apply refused_same; [done|done|]. by right. }
  rewrite valid_chn by done. case_bool_decide as Hvalid; wp_steps.
  2:{ apply Hno. rewrite (view_at s cur dd) by done. by rewrite (proj2 (eq_None_not_Some _) Hvalid). }
  destruct Hvalid as [c Hc]. eapply wp_chn; [done..|].
  assert (Hview : forall c', view s cur p = Some c' -> c' = unlinked c).
  { intros c'. rewrite (view_at s cur dd) by done. rewrite Hc. cbn. unfold bound, unlinked. destruct (ec_state c); by intros [= <-]. }
  destruct (ec_xen c) eqn:Hx; wp_steps.
  { apply Hno. intros c' ->%Hview. rewrite unlinked_xen. by left. }
  assert (Hfix : movable c = false -> exists dd, es_doms s !! cur = Some dd /\ (refused s s (- EINVAL) (not_moved cur p v dd s (- EINVAL)) \/
      - EINVAL = 0 /\ is_Some (ed_vcpus dd !! v) /\ moved_to cur p v s s)).
  { intros Hm. apply Hno. intros c' ->%Hview. right. by rewrite movable_unlinked. }
  assert (Hplain : movable c = true -> ~ is_pirq c ->
    wp tol (chn_write cur p (renotify v);; mret 0) (fun rc s' => exists dd, es_doms s !! cur = Some dd /\
    (refused s s' rc (not_moved cur p v dd s rc) \/ rc = 0 /\ is_Some (ed_vcpus dd !! v) /\ moved_to cur p v s s')) s).
  { intros Hm Hn. wp_steps. eapply wp_chn_write; [done..|]. wp_steps. fold_dom. exists dd. split; [done|]. right. split; [done|].
    split; [done|]. pose proof Hok as [Ht Hl]%dom_ok_split. eapply moved_done; [done|done| |done..|].
    - apply dom_ok_split. split; [by eapply renotify_tables|]. eapply lists_put; [apply Ht|done| |by eapply lists_other; [apply Ht|..]].
      unfold is_pirq, renotify in *. cbn. done.
    - intros q. rewrite (renotify_at p v dd c q Hc). by case_decide. }
  unfold movable in Hfix, Hplain. unfold is_pirq in Hplain. destruct (ec_state c) eqn:Hst; wp_steps; try (by apply Hfix);
    try (apply wp_bind_inv; apply Hplain; [done|tauto]).
  - destruct (Z.eqb_spec (ec_notify c) v) as [Hsame|Hne]; wp_steps.
    + exists dd. split; [done|]. right. split; [done|]. split; [done|]. rewrite <- (set_id cur dd s Hd) at 2.
      eapply moved_done; [done|done|done|done|done|by unfold movable; rewrite Hst|]. intros q. case_decide; [subst q|done].
      rewrite Hc. cbn. f_equal. unfold renotify. rewrite <- Hsame. by destruct c.
    + pose proof Hok as [Ht Hl]%dom_ok_split.
      assert (Hp0 : p <> 0) by (intros ->; pose proof (do_zero _ Hok _ Hc); congruence).
      eapply wp_mono; [eapply (unlink_spec tol cur p (ec_notify c) dd); [done|done| |apply Ht|done|done|done|done]|].
      { apply (co_notify _ _ (do_chns _ Hok _ _ Hc)). }
      intros _ s1 (dd1 & -> & Hm1 & Hl1). wp_steps. destruct (links_chn _ _ p c (mv_links _ _ _ Hm1) Hc) as (c1 & Hc1 & Hu1).
      destruct (unlinked_pirq _ _ _ _ _ Hu1 Hst) as (n1 & q1 & Hst1).
      assert (Hv1 : is_Some (ed_vcpus dd1 !! v)) by (by apply (moved_vcpu _ _ _ v Hm1)).
      assert (Ht1 : tables dd1) by (eapply links_tables; [apply Hm1|done]).
      assert (Hmv1 : movable c1 = true) by (by unfold movable; rewrite Hst1).
      eapply wp_chn_write; [apply set_dom_eq|done|]. rewrite on_set_dom. wp_steps. fold (renotify v).
      set (dd2 := put_chn p (renotify v) dd1).
      assert (Ht2 : tables dd2) by (by eapply renotify_tables).
      eapply wp_mono.
      { eapply (link_spec tol cur p v dd2 (renotify v c1)); [apply set_dom_eq|by eapply renotify_lists|apply Ht2|exact Hv1|apply Ht2| | |done|done].
        - unfold dd2. by rewrite (renotify_at p v dd1 c1) by done; rewrite decide_True.
        - exact Hst1. }
      intros _ s2 (dd3 & -> & Hm3 & Hl3). wp_steps. rewrite set_set. exists dd. split; [done|]. right. split; [done|]. split; [done|].
      eapply moved_done; [done|done| |done|done|by unfold movable; rewrite Hst|].
      * apply dom_ok_split. split; [|done]. eapply links_tables; [apply Hm3|done].
      * intros q. rewrite (lo_chns _ _ (mv_links _ _ _ Hm3)). unfold dd2. rewrite (renotify_at p v dd1 c1) by done. case_decide.
        -- cbn. f_equal. destruct c1 as [? ? ?], c as [? ? ?]. cbn in *. subst. unfold renotify, unlinked in *. cbn in *. by injection Hu1 as -> _.
        -- apply (mv_links _ _ _ Hm1).
  - destruct (virq_is_global virq); [apply Hplain; [done|tauto]|wp_steps; by apply Hfix].
Qed.
End Move.
