(* ===== verification/EvtchnDom.v ===== *)
(** What ends channels of the hypervisor and of whole domains, how the table of
    a domain starts, and polling. *)
From S2P Require Import Prelude CMonad Evtchn EvtchnInv EvtchnPorts EvtchnLists EvtchnClose EvtchnBind EvtchnOps.

(** * Channels of the hypervisor *)

Definition unxen (c : evtchn) : evtchn := c <| ec_xen := false |>.

Section Dom.
Context (env : EvtEnv) (tol : fault -> Prop) (Hxsm : forall d p, ee_xsm_alloc env d p = true).
Implicit Types (s : estate) (dd : edom) (d p q v cur : Z).

(** Any port may lose its mark of the hypervisor. *)
Lemma unxen_wrap d p dd c s : ewf s -> es_doms s !! d = Some dd -> chn_at dd p = Some c ->
  ewf (on d (put_chn p unxen) s) /\ veq (view (on d (put_chn p unxen) s)) (upd d p (bound (unxen c)) (view s)).
Proof using.
  intros Hw Hd Hc. pose proof (ew_dom _ Hw _ _ Hd) as Hok. rewrite (on_set d _ s dd) by done.
  assert (Hch : forall q, chn_at (put_chn p unxen dd) q = if decide (p = q) then Some (unxen c) else chn_at dd q).
  { intros q. rewrite chn_at_put. case_decide; [subst q; by rewrite Hc|done]. }
  eapply rebound; [done|done| |done|done|].
  - destruct (ec_xen c) eqn:Hx.
    + pose proof (do_chns _ Hok _ _ Hc) as [K1 K2 K3]. specialize (K3 Hx).
      eapply put_ok; [done|done|unfold plain; by destruct (ec_state c)|unfold plain; cbn; by destruct (ec_state c)| |].
      * split; [done| |done]. cbn. intros Hf. rewrite Hf in K3. done.
      * intros ->. exact (do_zero _ Hok _ Hc).
    + replace (put_chn p unxen dd) with dd; [done|]. unfold put_chn, setter. destruct dd as [a1 a2 a3 bs a5 a6 a7 a8 a9 a10]. cbn in *.
      f_equal. symmetry. apply alter_id. intros b Hb. unfold chn_at in Hc. cbn in Hc. rewrite Hb in Hc.
      destruct b as [chns|]; [|done]. f_equal. apply list_eq. intros j. destruct (decide (slot_of p = j)) as [<-|Hj];
        [|by rewrite list_lookup_alter_ne]. rewrite list_lookup_alter_eq, Hc. unfold unxen. destruct c. cbn in *. by subst.
  - intros q. rewrite Hch. by case_decide.
Qed.

(** Freeing a channel of the hypervisor closes it like a guest would. *)
Lemma free_xen_spec d p dd c s : ewf s -> es_doms s !! d = Some dd -> view s d p = Some c -> ec_xen c = true ->
  wp tol (free_xen_event_channel d p) (fun _ s' =>
    if ed_dying dd then s' = s
    else ewf s' /\ exists V', v_close d p (upd d p (Some (unxen c)) (view s)) = Some V' /\ veq (view s') V') s.
Proof using.
  intros Hw Hd Hv Hx. pose proof (ew_dom _ Hw _ _ Hd) as Hok. unfold free_xen_event_channel. wp_steps. eapply wp_dom_read; [done|].
  destruct (ed_dying dd); wp_steps; [done|]. rewrite valid_chn by apply Hok.
  rewrite (view_at s d dd) in Hv by done. destruct (chn_at dd p) as [c0|] eqn:Hc; [|done]. cbn in Hv.
  pose proof (co_xen _ _ (do_chns _ Hok _ _ Hc)) as Hcx.
  assert (c0 = c) as ->.
  { unfold bound in Hv. destruct (ec_state c0) eqn:Hs; simplify_eq; try done; by specialize (Hcx Hx). }
  specialize (Hcx Hx). rewrite bool_decide_eq_true_2 by done. wp_steps. eapply wp_chn; [done..|]. rewrite Hx. wp_steps.
  eapply wp_chn_write; [done..|]. wp_steps. destruct (unxen_wrap d p dd c s Hw Hd Hc) as [Hw1 Hv1].
  assert (Hb : bound (unxen c) = Some (unxen c)) by (unfold bound; cbn; by destruct (ec_state c)).
  rewrite Hb in Hv1. eapply wp_mono; [eapply close_spec; [exact Hw1|by rewrite (on_eq _ _ _ _ Hd)]|].
  intros rc s' (Hw2 & _ & Hcl). wp_steps. split; [done|]. pose proof (v_close_proper d p _ _ Hv1) as Hpr.
  fold unxen in Hpr. change (fun c => c <| ec_xen := false |>) with unxen in Hcl.
  destruct (v_close d p (view (on d (put_chn p unxen) s))) as [V1|] eqn:Hv2.
  - inversion Hpr as [x y Hxy E1 E2|]. exists y. split; [done|]. destruct Hcl as (_ & Hveq & _). by transitivity V1.
  - exfalso. inversion Hpr as [|E' E]. unfold v_close, upd in E. rewrite decide_True in E by done. cbn in E. by destruct (ec_state c).
Qed.

(** * Resetting *)

Definition v_shut d (V : eview) p : eview := default V (v_close d p V).
Definition v_reset d (m : Z) (V : eview) : eview := foldl (v_shut d) V (seqZ 0 m).

Lemma v_shut_proper d p V V' : veq V V' -> veq (v_shut d V p) (v_shut d V' p).
Proof using. intros HV. unfold v_shut. by destruct (v_close_proper d p _ _ HV). Qed.

(** The loop over the ports of a domain whose table keeps its size. *)
Lemma each_port_spec d f (I : Z -> estate -> Prop) m : (forall p s, I p s -> exists dd, es_doms s !! d = Some dd /\ shape dd /\ MAX_EVTCHNS dd = m) ->
  (forall p s dd c, 0 <= p -> I p s -> es_doms s !! d = Some dd -> chn_at dd p = Some c -> wp tol (f p) (fun _ s' => I (p + 1) s') s) ->
  forall n p s, 0 <= p -> p + Z.of_nat n = m -> I p s ->
  wp tol (each_port n d f p) (fun _ s' => exists q dd, p <= q <= m /\ I q s' /\ es_doms s' !! d = Some dd /\ chn_at dd q = None) s.
Proof using.
  intros HI Hf. induction n as [|n IH]; intros p s H0 Hn Hp; cbn [each_port]; wp_steps;
    destruct (HI p s Hp) as (dd & Hd & Hsh & Hm); (eapply wp_dom_read; [done|]); rewrite valid_chn by done;
    destruct (chn_at dd p) as [c|] eqn:Hc;
    [rewrite bool_decide_eq_true_2 by done|rewrite bool_decide_eq_false_2 by (by intros [? ?])|
     rewrite bool_decide_eq_true_2 by done|rewrite bool_decide_eq_false_2 by (by intros [? ?])]; wp_steps.
  - pose proof (chn_range _ _ _ Hsh Hc). lia.
  - exists p, dd. split; [lia|done].
  - eapply wp_mono; [by eapply Hf|]. intros [] s1 Hp1. eapply wp_mono; [apply (IH (p + 1)); [lia|lia|done]|].
    intros [] s2 (q & dd2 & Hq & HI2). exists q, dd2. split; [lia|done].
  - exists p, dd. split; [lia|done].
Qed.

(** Beyond the first port without a channel there is none. *)
Lemma chn_prefix dd p q : shape dd -> 0 <= p -> chn_at dd p = None -> p <= q -> chn_at dd q = None.
Proof using.
  intros Hsh Hp Hc Hq. destruct (chn_at dd q) as [c|] eqn:Hcq; [|done]. exfalso. pose proof (chn_range _ _ _ Hsh Hcq) as Hr.
  assert (H : is_Some (ed_buckets dd !! (p / EVTCHNS_PER_BUCKET))).
  { destruct (decide (p / EVTCHNS_PER_BUCKET = q / EVTCHNS_PER_BUCKET)) as [->|Hne].
    - unfold chn_at in Hcq. by destruct (ed_buckets dd !! _).
    - eapply (sh_prefix _ Hsh (q / EVTCHNS_PER_BUCKET)); [unfold chn_at in Hcq; by destruct (ed_buckets dd !! _)|].
      unfold EVTCHNS_PER_BUCKET in *. split; [by apply Z.div_pos|]. pose proof (Z.div_le_mono p q 128). lia. }
  rewrite end_aligned in H; [by destruct H|done|lia|done].
Qed.

(** A port that only the hypervisor, or nobody, can close. *)
Definition stays (V : eview) d q : Prop := forall c, V d q = Some c -> ec_xen c = true \/ ec_state c = ECS_RESERVED.

Lemma shut_stays d p q V : (forall c, V d p = Some c -> ec_state c <> ECS_FREE) -> (forall c rd rp, V d p = Some c -> ec_state c = ECS_INTERDOMAIN rd rp ->
    exists c', V rd rp = Some c' /\ ec_state c' = ECS_INTERDOMAIN d p) ->
  stays V d q \/ q = p -> stays (v_shut d V p) d q.
Proof using.
  intros Hfree Hpeer Hq. unfold v_shut, v_close. destruct (V d p) as [c|] eqn:Hc.
  2:{ destruct Hq as [Hq| ->]; [done|]. intros c. cbn. by rewrite Hc. }
  destruct (ec_xen c) eqn:Hx.
  { destruct Hq as [Hq| ->]; [done|]. intros c'. cbn. rewrite Hc. intros [= <-]. by left. }
  assert (Hself : forall st, ec_state c = st -> st = ECS_FREE \/ st = ECS_RESERVED -> st <> ECS_FREE -> stays V d q).
  { intros st Hst Hor Hn. destruct Hq as [Hq| ->]; [done|]. intros c'. rewrite Hc. intros [= <-]. right. by destruct Hor; congruence. }
  assert (Hone : stays (upd d p None V) d q).
  { intros c'. unfold upd. case_decide as Hd; [done|]. destruct Hq as [Hq| ->]; [apply Hq|]. by destruct Hd. }
  destruct (ec_state c) eqn:Hst; cbn [default]; try done.
  - by destruct (Hfree c eq_refl).
  - apply (Hself ECS_RESERVED); [done|by right|done].
  - intros c'. unfold upd, id. cbn beta. case_decide as Hd; [done|]. case_decide as Hd2.
    + destruct Hd2 as [-> ->]. destruct (Hpeer _ _ _ eq_refl Hst) as (c2 & Hc2 & Hs2). rewrite Hc2. cbn. intros [= <-]. cbn.
      destruct Hq as [Hq| ->]; [|by destruct Hd]. destruct (Hq c2 Hc2) as [?|?]; [by left|congruence].
    + destruct Hq as [Hq| ->]; [apply Hq|]. by destruct Hd.
Qed.

Lemma view_not_free s d p c : view s d p = Some c -> ec_state c <> ECS_FREE.
Proof using.
  unfold view, chn. destruct (es_doms s !! d) as [dd|]; [|done]. cbn. destruct (chn_at dd p) as [c0|]; [|done]. cbn.
  unfold bound. destruct (ec_state c0) eqn:Hs; [done|intros [= <-]; cbn; congruence..].
Qed.

Lemma closed_shut d p s rc s' : closed d p s rc s' -> veq (view s') (v_shut d (view s) p).
Proof using.
  intros (_ & _ & Hc). unfold v_shut. destruct (v_close d p (view s)) as [V'|]; [by destruct Hc as (_ & ? & _)|].
  by destruct Hc as (_ & ->).
Qed.

Lemma stays_proper V V' d q : veq V V' -> stays V d q -> stays V' d q.
Proof using. intros HV Hs c. rewrite <- (HV d q). apply Hs. Qed.

Lemma closed_stays d p q s rc s' : ewf s -> closed d p s rc s' -> stays (view s) d q \/ q = p -> stays (view s') d q.
Proof using.
  intros Hw Hcl Hq. eapply stays_proper; [symmetry; by eapply closed_shut|]. apply shut_stays; [|..|done].
  - intros c. apply view_not_free.
  - intros c rd rp Hv Hst. destruct (view_peer s d p c rd rp Hw Hv Hst) as (rdd & rc' & _ & _ & H1 & H2). by exists rc'.
Qed.

Lemma shut_none d V l : (forall p, p ∈ l -> V d p = None) -> foldl (v_shut d) V l = V.
Proof using.
  intros Hn. induction l as [|p l IH]; [done|]. cbn. assert (v_shut d V p = V) as ->.
  { unfold v_shut, v_close. by rewrite (Hn p (list_elem_of_here _ _)). }
  apply IH. intros q Hq. apply Hn. by right.
Qed.

Lemma kept_max s s' d dd : kept s s' -> es_doms s !! d = Some dd -> ewf s' -> exists dd', es_doms s' !! d = Some dd' /\
  shape dd' /\ MAX_EVTCHNS dd' = MAX_EVTCHNS dd.
Proof using.
  intros Hk Hd Hw. destruct (kept_forth _ _ _ _ Hk Hd) as (dd' & Hd' & Hp). exists dd'. split; [done|].
  split; [by eapply do_shape, ew_dom|]. unfold MAX_EVTCHNS, BITS_PER_EVTCHN_WORD. by rewrite (pk_32bit _ _ Hp).
Qed.

Definition did_reset d s s' : Prop := ewf s' /\ (forall q, stays (view s') d q) /\
  exists dd, es_doms s !! d = Some dd /\ veq (view s') (v_reset d (MAX_EVTCHNS dd) (view s)).

(** Beyond the end of the loop there is nothing. *)
Lemma beyond s d dd q p : es_doms s !! d = Some dd -> shape dd -> 0 <= q -> chn_at dd q = None -> q <= p \/ p < 0 -> view s d p = None.
Proof using.
  intros Hd Hsh H0 Hc Hp. rewrite (view_at s d dd) by done. destruct (chn_at dd p) as [c|] eqn:Hcp; [|done].
  pose proof (chn_range _ _ _ Hsh Hcp). destruct Hp as [Hp|]; [|lia]. by rewrite (chn_prefix dd q p) in Hcp.
Qed.

Lemma evtchn_reset_spec cur dom s : ewf s -> is_Some (es_doms s !! cur) ->
  wp tol (evtchn_reset env cur dom) (fun rc s' =>
    match target_of env s cur dom with
    | inl e => rc = e /\ s' = s
    | inr d => if ee_xsm_reset env cur d =? 0 then rc = 0 /\ did_reset d s s' else rc = ee_xsm_reset env cur d /\ s' = s
    end) s.
Proof using.
  intros Hw Hcur. unfold evtchn_reset. wp_steps. apply wp_target.
  destruct (target_of env s cur dom) as [rc|d] eqn:Ht; wp_steps; [done|].
  destruct (target_dom env _ _ _ _ Hcur Ht) as [dd Hd]. destruct (ee_xsm_reset env cur d =? 0) eqn:Hx; wp_steps; [|done].
  eapply wp_dom_read; [done|]. wp_steps.
  set (I := fun p s' => ewf s' /\ kept s s' /\ veq (view s') (foldl (v_shut d) (view s) (seqZ 0 p)) /\
    forall q, 0 <= q < p -> stays (view s') d q).
  eapply wp_mono; [eapply (each_port_spec d _ I (MAX_EVTCHNS dd))|].
  - intros p s' (Hw' & Hk & _). by apply (kept_max s).
  - intros p s1 dd1 c H0 (Hw1 & Hk1 & Hv1 & Hst1) Hd1 Hc1. wp_steps. eapply wp_mono; [by apply (close_spec tol d p dd1)|].
    intros rc s2 Hcl. wp_steps. pose proof Hcl as (Hw2 & Hk2 & _). split; [done|]. split; [by transitivity s1|]. split.
    + rewrite seqZ_app by lia. rewrite foldl_app. cbn. rewrite (closed_shut _ _ _ _ _ Hcl). by apply v_shut_proper.
    + intros q Hq. apply (closed_stays d p q s1 rc s2); [done|done|]. destruct (decide (q = p)); [by right|left; apply Hst1; lia].
  - lia.
  - destruct (max_evtchns dd); lia.
  - split; [done|]. split; [done|]. split; [done|]. intros q Hq. lia.
  - intros [] s' (q & dd' & Hq & (Hw' & Hk' & Hv' & Hst') & Hd' & Hn). wp_steps. split; [done|]. split; [done|].
    pose proof (do_shape _ (ew_dom _ Hw' _ _ Hd')) as Hsh. split.
    + intros p. destruct (decide (0 <= p < q)) as [Hp|Hp]; [by apply Hst'|]. intros c. rewrite (beyond s' d dd' q p); [done|done|done|lia|done|lia].
    + exists dd. split; [done|]. rewrite Hv'. unfold v_reset. replace (MAX_EVTCHNS dd) with (q + (MAX_EVTCHNS dd - q)) by lia.
      rewrite seqZ_app by lia. rewrite foldl_app, (shut_none d (foldl _ _ (seqZ 0 q))); [done|]. intros p [Hp1 Hp2]%elem_of_seqZ. transitivity (view s' d p); [symmetry; apply Hv'|].
      apply (beyond s' d dd' q p); [done|done|lia|done|lia].
Qed.

(** * The end of a domain *)

(** What becomes of a channel elsewhere when the ports below [p] are closed. *)
Definition cut_below d p (c : evtchn) : evtchn :=
  match ec_state c with
  | ECS_INTERDOMAIN rd rp => if decide (rd = d /\ 0 <= rp < p) then back_to d c else c
  | _ => c
  end.

Definition cut_at d p (c : evtchn) : evtchn :=
  match ec_state c with
  | ECS_INTERDOMAIN rd rp => if decide (rd = d /\ rp = p) then back_to d c else c
  | _ => c
  end.

Lemma cut_next d p c : 0 <= p -> cut_below d (p + 1) c = cut_at d p (cut_below d p c).
Proof using.
  intros Hp. unfold cut_below, cut_at. destruct (ec_state c) eqn:Hst; try (by rewrite Hst).
  repeat case_decide; cbn; rewrite ?Hst; repeat case_decide; try done; exfalso; lia.
Qed.

(** Closing a port cuts what was connected to it. *)
Lemma shut_cuts d p d' q V : (forall d1 p1 c rd rp, V d1 p1 = Some c -> ec_state c = ECS_INTERDOMAIN rd rp ->
    exists c', V rd rp = Some c' /\ ec_state c' = ECS_INTERDOMAIN d1 p1) -> d' <> d ->
  (forall c, V d p = Some c -> ec_xen c = false) -> v_shut d V p d' q = cut_at d p <$> V d' q.
Proof using.
  intros Hpeer Hne Hx.
  assert (Hno : (forall c, V d p = Some c -> forall rd rp, ec_state c <> ECS_INTERDOMAIN rd rp) -> V d' q = cut_at d p <$> V d' q).
  { intros Hn. destruct (V d' q) as [x|] eqn:HV; [|done]. cbn. f_equal. unfold cut_at. destruct (ec_state x) eqn:Hst; try done.
    case_decide as Hd; [|done]. destruct Hd as [-> ->]. destruct (Hpeer _ _ _ _ _ HV Hst) as (c' & Hc' & Hs').
    by destruct (Hn _ Hc' _ _ Hs'). }
  unfold v_shut, v_close. destruct (V d p) as [c|] eqn:Hc; [|by apply Hno]. rewrite (Hx c eq_refl).
  assert (Hup : forall W, upd d p None W d' q = W d' q) by (intros W; unfold upd; rewrite decide_False; [done|intros [? _]; congruence]).
  destruct (ec_state c) eqn:Hst; cbn [default]; unfold id; rewrite ?Hup; try (apply Hno; intros c' [= <-] rd rp; congruence).
  unfold upd. case_decide as Hd.
  - destruct Hd as [-> ->]. destruct (Hpeer _ _ _ _ _ Hc Hst) as (c' & Hc' & Hs'). rewrite Hc'. cbn. f_equal. unfold cut_at.
    by rewrite Hs', decide_True.
  - destruct (V d' q) as [x|] eqn:HV; [|done]. cbn. f_equal. unfold cut_at. destruct (ec_state x) eqn:Hsx; try done.
    case_decide as Hd2; [|done]. destruct Hd2 as [-> ->]. destruct (Hpeer _ _ _ _ _ HV Hsx) as (c' & Hc' & Hs').
    rewrite Hc in Hc'. injection Hc' as <-. exfalso. apply Hd. rewrite Hst in Hs'. by injection Hs' as -> ->.
Qed.

(** Closing never gives a channel to the hypervisor. *)
Definition clean (V : eview) d q : Prop := forall c, V d q = Some c -> ec_xen c = false.

Lemma shut_clean d p q V : clean V d q -> clean (v_shut d V p) d q.
Proof using.
  intros Hcl. unfold v_shut, v_close. destruct (V d p) as [c|] eqn:Hc; [|done]. destruct (ec_xen c); [done|].
  destruct (ec_state c) eqn:Hst; cbn [default]; unfold id; try done; intros x; unfold upd; repeat case_decide; try done; try apply Hcl.
  destruct H0 as [-> ->]. destruct (V d q) as [y|] eqn:Hy; [|done]. intros [= <-]. by apply (Hcl y).
Qed.

Definition v_destroy d (V : eview) : eview := fun d' q =>
  if decide (d' = d) then None
  else (fun c => match ec_state c with ECS_INTERDOMAIN rd _ => if decide (rd = d) then back_to d c else c | _ => c end) <$> V d' q.

Lemma view_peers s : ewf s -> forall d1 p1 c rd rp, view s d1 p1 = Some c -> ec_state c = ECS_INTERDOMAIN rd rp ->
  exists c', view s rd rp = Some c' /\ ec_state c' = ECS_INTERDOMAIN d1 p1.
Proof using. intros Hw d1 p1 c rd rp Hv Hst. destruct (view_peer s d1 p1 c rd rp Hw Hv Hst) as (_ & c' & _ & _ & H1 & H2). eauto. Qed.

(** One round of the loop of [evtchn_destroy]. *)
Lemma destroy_step d p dd c s : ewf s -> es_doms s !! d = Some dd -> chn_at dd p = Some c ->
  wp tol (chn_write d p (fun c => c <| ec_xen := false |>);; _ ← __evtchn_close d p; mret tt)
    (fun _ s' => ewf s' /\ kept s s' /\ (forall d' q, d' <> d -> view s' d' q = cut_at d p <$> view s d' q) /\
      forall q, (stays (view s) d q /\ clean (view s) d q) \/ q = p -> stays (view s') d q /\ clean (view s') d q) s.
Proof using.
  intros Hw Hd Hc. wp_steps. eapply wp_chn_write; [done..|]. wp_steps. fold unxen.
  destruct (unxen_wrap d p dd c s Hw Hd Hc) as [Hw1 Hv1]. set (s1 := on d (put_chn p unxen) s) in *.
  assert (Hcl1 : clean (view s1) d p).
  { intros x. rewrite (Hv1 d p). unfold upd. rewrite decide_True by done. unfold bound. destruct (ec_state (unxen c)); by intros [= <-]. }
  eapply wp_mono; [eapply (close_spec tol d p); [exact Hw1|unfold s1; by rewrite (on_eq _ _ _ _ Hd)]|].
  intros rc s2 Hcl. wp_steps. pose proof Hcl as (Hw2 & Hk2 & _). pose proof (closed_shut _ _ _ _ _ Hcl) as Hv2.
  split; [done|]. split; [transitivity s1; [apply kept_chn|done]|]. split.
  - intros d' q Hne. rewrite (Hv2 d' q), shut_cuts by (first [by apply view_peers|done]).
    rewrite (Hv1 d' q). unfold upd. rewrite decide_False; [done|]. intros [? _]. congruence.
  - intros q Hq. split.
    + eapply closed_stays; [exact Hw1|exact Hcl|]. destruct (decide (q = p)) as [|Hne]; [by right|left]. destruct Hq as [[Hq _]|]; [|done].
      intros x. rewrite (Hv1 d q). unfold upd. rewrite decide_False by (intros [_ ?]; congruence). apply Hq.
    + intros x. rewrite (Hv2 d q). revert x. apply (shut_clean d p q (view s1)).
      destruct (decide (q = p)) as [->|Hne]; [done|]. destruct Hq as [[_ Hq]|]; [|done].
      intros x. rewrite (Hv1 d q). unfold upd. rewrite decide_False by (intros [_ ?]; congruence). apply Hq.
Qed.

(** A domain whose channels are all free can lose its table. *)
Lemma drop_buckets d dd s : ewf s -> es_doms s !! d = Some dd -> ed_dying dd = true ->
  (forall q c, chn_at dd q = Some c -> ec_state c = ECS_FREE \/ ec_state c = ECS_RESERVED) ->
  let s' := on d (fun dd => dd <| ed_buckets := ∅ |>) s in
  ewf s' /\ forall d' q, view s' d' q = if decide (d' = d) then None else view s d' q.
Proof using.
  intros [H1 H2] Hd Hdy Hdead s'. pose proof (H1 _ _ Hd) as Hok.
  assert (Hnone : forall q, chn_at (dd <| ed_buckets := ∅ |>) q = None) by (intros q; unfold chn_at; cbn; by rewrite lookup_empty).
  assert (Hch : forall d' q, chn s' d' q = if decide (d' = d) then None else chn s d' q).
  { intros d' q. unfold s'. rewrite (on_set d _ s dd) by done. rewrite chn_set. case_decide as Hdd; [subst d'|].
    - by rewrite decide_True.
    - rewrite decide_False; [done|]. intros ->. done. }
  split; [split|].
  - intros d' x. destruct (decide (d = d')) as [<-|Hne]; [|unfold s'; rewrite on_ne by done; apply H1].
    unfold s'. rewrite (on_eq _ _ _ _ Hd). intros [= <-]. destruct Hok as [[S1 S2 S3 S4 S5 S6] D1 D2 D3 D4 D5 D6 D7 D8].
    split; try (by intros *; rewrite Hnone).
    + by split.
    + cbn. rewrite Hdy. done.
    + intros i x v p Hx Hv Hp. exfalso. destruct (D4 i x v p Hx Hv Hp) as (c & Hc & Hst & _).
      destruct (Hdead _ _ Hc); congruence.
    + intros irq p Hi Hp. exfalso. destruct (D6 irq p Hi Hp) as (c & n & q & Hc & Hst). destruct (Hdead _ _ Hc); congruence.
    + intros i x Hx. destruct (D8 i x Hx) as (ps & Hnd & Hl & Hin). assert (ps = []) as ->.
      { destruct ps as [|p ps]; [done|]. exfalso. destruct (proj1 (Hin p) (list_elem_of_here _ _)) as (c & irq & n & q & Hc & Hst & _).
        destruct (Hdead _ _ Hc); congruence. }
      exists []. split; [done|]. split; [exact Hl|]. intros p. split; [by intros ?%elem_of_nil|].
      intros (c & ? & ? & ? & Hc & _). by rewrite Hnone in Hc.
  - apply peers_chn. rewrite peers_chn in H2. intros d' q c rd rp. rewrite Hch. case_decide as Hdd; [done|]. intros Hc Hst.
    destruct (H2 _ _ _ _ _ Hc Hst) as (c' & Hc' & Hs'). exists c'. rewrite Hch, decide_False; [done|]. intros ->.
    apply chn_Some in Hc' as (dd' & Hd' & Hc'). rewrite Hd in Hd'. injection Hd' as <-. destruct (Hdead _ _ Hc'); congruence.
  - intros d' q. unfold view. rewrite Hch. by case_decide.
Qed.

Lemma destroy_spec d dd s : ewf s -> es_doms s !! d = Some dd -> ed_dying dd = true ->
  wp tol (evtchn_destroy d) (fun _ s' => ewf s' /\ veq (view s') (v_destroy d (view s))) s.
Proof using.
  intros Hw Hd Hdy. unfold evtchn_destroy. wp_steps. eapply wp_dom_read; [done|]. rewrite Hdy. wp_steps.
  set (J := fun p s' => ewf s' /\ kept s s' /\ (forall d' q, d' <> d -> view s' d' q = cut_below d p <$> view s d' q) /\
    forall q, 0 <= q < p -> stays (view s') d q /\ clean (view s') d q).
  eapply wp_mono; [eapply (each_port_spec d _ J (MAX_EVTCHNS dd))|].
  - intros p s' (Hw' & Hk & _). by apply (kept_max s).
  - intros p s1 dd1 c H0 (Hw1 & Hk1 & Hv1 & Hst1) Hd1 Hc1. eapply wp_mono; [by apply (destroy_step d p dd1 c)|].
    intros _ s2 (Hw2 & Hk2 & Hv2 & Hst2). split; [done|]. split; [by transitivity s1|]. split.
    + intros d' q Hne. rewrite Hv2, Hv1 by done. destruct (view s d' q); [|done]. cbn. f_equal. by rewrite cut_next.
    + intros q Hq. apply Hst2. destruct (decide (q = p)); [by right|left; apply Hst1; lia].
  - lia.
  - destruct (max_evtchns dd); lia.
  - split; [done|]. split; [done|]. split; [|intros q Hq; lia]. intros d' q _. destruct (view s d' q) as [c|]; [|done]. cbn. f_equal.
    unfold cut_below. destruct (ec_state c); try done. rewrite decide_False; [done|lia].
  - intros [] s1 (q & dd1 & Hq & (Hw1 & Hk1 & Hv1 & Hst1) & Hd1 & Hn). pose proof (do_shape _ (ew_dom _ Hw1 _ _ Hd1)) as Hsh1.
    apply wp_dom_write. destruct (drop_buckets d dd1 s1) as [Hw2 Hv2]; [done|done| | |].
    + destruct (kept_forth _ _ _ _ Hk1 Hd) as (dd' & Hd' & Hpk). rewrite Hd1 in Hd'. injection Hd' as <-. by rewrite (pk_dying _ _ Hpk).
    + intros p c Hc. pose proof (chn_range _ _ _ Hsh1 Hc) as Hp.
      destruct (decide (p < q)) as [Hpq|]; [|by rewrite (chn_prefix dd1 q p) in Hc by (done || lia)].
      destruct (Hst1 p ltac:(lia)) as [Hs Hcl]. destruct (ec_state c) eqn:Hst; auto; exfalso.
      all: assert (Hv : view s1 d p = bound c) by (rewrite (view_at s1 d dd1) by done; by rewrite Hc).
      all: unfold bound in Hv; rewrite Hst in Hv; destruct (Hs _ Hv) as [Hx|Hx]; [by rewrite (Hcl _ Hv) in Hx|cbn in Hx; congruence].
    + split; [done|]. intros d' p. rewrite Hv2. unfold v_destroy. case_decide as Hdd; [done|]. rewrite Hv1 by done.
      destruct (view s d' p) as [c|] eqn:Hv; [|done]. cbn. f_equal. unfold cut_below. destruct (ec_state c) eqn:Hst; try done.
      destruct (decide (remote_dom = d)) as [->|Hne]; [|rewrite decide_False; [done|tauto]]. rewrite decide_True; [done|].
      split; [done|]. destruct (view_peer s d' p c d remote_port Hw Hv Hst) as (dd2 & c2 & Hd2 & Hc2 & _). rewrite Hd in Hd2. injection Hd2 as <-.
      destruct (kept_forth _ _ _ _ Hk1 Hd) as (dd' & Hd' & Hpk). rewrite Hd1 in Hd'. injection Hd' as <-.
      destruct (proj2 (pk_chns _ _ Hpk remote_port)) as [c3 Hc3]; [by rewrite Hc2|]. pose proof (chn_range _ _ _ Hsh1 Hc3).
      destruct (decide (remote_port < q)); [lia|]. by rewrite (chn_prefix dd1 q remote_port) in Hc3 by (done || lia).
Qed.

(** * The start of a domain *)

(** A domain that was just made. *)
Record blank dd : Prop := {
  bk_shape : shape dd;
  bk_dying : ed_dying dd = false;
  bk_buckets : ed_buckets dd = ∅;
  bk_virqs : forall i x (v : nat) p, ed_vcpus dd !! i = Some x -> vc_virqs x !! v = Some p -> p = 0;
  bk_heads : forall i x, ed_vcpus dd !! i = Some x -> vc_pirq_head x = 0;
  bk_pirqs : forall (irq : nat) p, ed_pirqs dd !! irq = Some p -> p = 0;
}.

(** With its first port reserved, its tables agree. *)
Lemma blank_ok dd : blank dd -> dom_ok (put_chn 0 (fun c => c <| ec_state := ECS_RESERVED |>) (grow 0 dd)).
Proof using.
  intros [B1 B2 B3 B4 B5 B6]. set (dd' := put_chn 0 _ _).
  assert (Hnone : forall p, chn_at dd p = None) by (intros p; unfold chn_at; by rewrite B3, lookup_empty).
  assert (Hg : grown dd (grow 0 dd)).
  { right. exists 0. split; [by rewrite B3|]. split; [|done]. split; [|lia]. unfold EVTCHNS_PER_BUCKET. destruct (max_evtchns dd) as [-> | ->]; done. }
  assert (Hc : forall p c, chn_at dd' p = Some c -> (p = 0 /\ c = mk_evtchn ECS_RESERVED false 0) \/ c = zero_chn).
  { intros p c. unfold dd'. rewrite chn_at_put. rewrite chn_at_grow, Hnone. repeat case_decide; try done; intros [= <-]; auto. }
  assert (H0 : chn_at dd' 0 = Some (mk_evtchn ECS_RESERVED false 0)).
  { unfold dd'. rewrite chn_at_put, chn_at_grow. done. }
  split.
  - apply put_shape. by eapply grown_shape.
  - intros p c [[_ ->]| ->]%Hc; (split; [exact (sh_vcpu0 _ B1)|done|done]).
  - intros c. rewrite H0. by intros [= <-].
  - by rewrite H0.
  - intros i x v p Hx Hv Hp. exfalso. by apply Hp, (B4 i x v).
  - intros p c v [[_ ->]| ->]%Hc; done.
  - intros irq p Hi Hp. exfalso. by apply Hp, (B6 irq).
  - intros p c irq n q [[_ ->]| ->]%Hc; done.
  - intros i x Hx. exists []. split; [constructor|]. split; [exact (B5 i x Hx)|]. intros p. split; [by intros ?%elem_of_nil|].
    intros (c & irq & n & q & [[_ ->]| ->]%Hc & Hst & _); done.
Qed.

Lemma first_port d dd s s1 : es_doms s !! d = Some dd -> blank dd ->
  (forall d' dd', d' <> d -> es_doms s !! d' = Some dd' -> dom_ok dd') -> peers s -> es_doms s1 = es_doms (set_dom d (grow 0 dd) s) ->
  let s2 := on d (put_chn 0 (fun c => c <| ec_state := ECS_RESERVED |>)) s1 in
  ewf s2 /\ veq (view s2) (upd d 0 (Some (mk_evtchn ECS_RESERVED false 0)) (view s)).
Proof using.
  intros Hd Hb Ho Hp Hs.
  assert (Hnone : forall p, chn_at dd p = None) by (intros p; unfold chn_at; by rewrite (bk_buckets _ Hb), lookup_empty).
  intros s2. assert (Hs2 : es_doms s2 = es_doms (set_dom d (put_chn 0 (fun c => c <| ec_state := ECS_RESERVED |>) (grow 0 dd)) s)).
  { unfold s2, on. cbn. rewrite Hs. apply map_eq. intros i. rewrite lookup_alter. unfold set_dom. cbn.
    rewrite !lookup_insert. by repeat case_decide. }
  set (dd2 := put_chn 0 _ _) in Hs2.
  assert (Hat : forall q, chn_at dd2 q = if decide (q = 0) then Some (mk_evtchn ECS_RESERVED false 0) else
    if decide (0 = q / EVTCHNS_PER_BUCKET) then Some zero_chn else None).
  { intros q. unfold dd2. rewrite chn_at_put, chn_at_grow, Hnone. destruct (decide (q = 0)) as [->|]; [done|].
    by rewrite decide_False by done. }
  assert (Hch : forall d' q, chn s2 d' q = if decide (d = d') then chn_at dd2 q else chn s d' q).
  { intros d' q. rewrite (chn_doms (set_dom d dd2 s)), chn_set by done. done. }
  assert (Hold : forall q, chn s d q = None) by (intros q; unfold chn; rewrite Hd; apply Hnone).
  split; [split|].
  + intros d' x. rewrite Hs2. destruct (decide (d = d')) as [<-|Hne]; [rewrite set_dom_eq; intros [= <-]; by apply blank_ok|].
    rewrite set_dom_ne by done. apply Ho. congruence.
  + apply peers_chn. rewrite peers_chn in Hp. intros d' q c' rd rp. rewrite Hch. case_decide as Hdd.
    * rewrite Hat. repeat case_decide; try done; by intros [= <-].
    * intros Hc' Hst. destruct (Hp _ _ _ _ _ Hc' Hst) as (c2 & Hc2 & Hs2'). exists c2. rewrite Hch, decide_False; [done|].
      intros <-. by rewrite Hold in Hc2.
  + intros d' q. unfold view, upd. rewrite Hch. case_decide as Hdd.
    * subst d'. rewrite Hold, Hat. cbn. destruct (decide (q = 0)) as [->|Hq]; [by rewrite decide_True|].
      rewrite (decide_False (P := d = d /\ 0 = q)) by (intros [_ ?]; congruence). by case_decide.
    * rewrite decide_False; [done|tauto].
Qed.

Lemma init_spec d dd s : es_doms s !! d = Some dd -> blank dd -> (forall d' dd', d' <> d -> es_doms s !! d' = Some dd' -> dom_ok dd') ->
  peers s ->
  wp tol (evtchn_init env d) (fun rc s' => rc = - EINVAL /\ es_doms s' = es_doms s \/
    (rc = 0 \/ rc = - ENOMEM) /\ ewf s' /\ veq (view s') (upd d 0 (Some (mk_evtchn ECS_RESERVED false 0)) (view s))) s.
Proof using Hxsm.
  intros Hd Hb Ho Hp. unfold evtchn_init. wp_steps.
  assert (Hnone : forall p, chn_at dd p = None) by (intros p; unfold chn_at; by rewrite (bk_buckets _ Hb), lookup_empty).
  eapply wp_mono; [apply (get_free_port_spec env tol Hxsm d dd); [done|apply Hb]|].
  intros r s1 [(Hr & _ & Hs)|(dd1 & (_ & Hr & Hu & Hg & c & Hc & _) & Hs)].
  { rewrite (proj2 (Z.eqb_neq r 0)) by lia. wp_steps. by left. }
  assert (r = 0) as ->.
  { destruct (decide (r = 0)); [done|]. destruct (Hu 0) as (c' & Hc' & _); [lia|]. by rewrite Hnone in Hc'. }
  assert (Hgr : dd1 = grow 0 dd).
  { destruct Hg as [->|(i & Hi & (Hr0 & Hpre) & ->)]; [by rewrite Hnone in Hc|]. rewrite chn_at_grow, Hnone in Hc. by case_decide; subst. }
  rewrite Hgr in Hs, Hc. destruct (first_port d dd s s1) as [Hw2 Hv2]; [done..|].
  change (negb (0 =? 0)) with false. wp_steps. eapply (wp_chn_write _ d 0 _ (grow 0 dd)); [by rewrite Hs, set_dom_eq|done|].
  wp_steps. unfold xmalloc. wp_steps. set (s2 := on d _ s1) in *. set (s3 := s2 <| es_tick ::= S |>).
  assert (Hend : forall s', esame s2 s' -> ewf s' /\ veq (view s') (upd d 0 (Some (mk_evtchn ECS_RESERVED false 0)) (view s))).
  { intros s' Hes. split; [by eapply esame_ewf|]. by rewrite (view_same _ _ Hes). }
  assert (Hes : esame s2 s3) by (by apply esame_doms).
  destruct (ee_xmalloc env _); cbn [negb]; wp_steps; [|right; split; [by right|by apply Hend]].
  apply wp_dom_write. wp_steps. right. split; [by left|]. apply Hend. transitivity s3; [done|]. apply on_same. intros x _.
  by split.
Qed.

(** * Polling *)

(** A processor sleeps until one of the ports it names is pending; without
    exactly one port, until any is. *)
Definition asleep dd v (ports : list (option Z)) : Prop :=
  v ∈ ed_poll_mask dd /\ exists x, ed_vcpus dd !! v = Some x /\ vc_blocked x = true /\
    forall p, Some p ∈ ports -> waits_for p x = true.

Lemma poll_ports_none dd ports : poll_ports dd ports = None -> forall p, Some p ∈ ports -> p ∉ ed_pending dd.
Proof using.
  induction ports as [|[a|] ports IH]; cbn; [by intros _ p ?%elem_of_nil| |done].
  destruct (MAX_EVTCHNS dd <=? a); [done|]. case_bool_decide as Ha; [done|]. intros Hn p [[= ->]|Hp]%elem_of_cons; [done|auto].
Qed.

Lemma poll_ports_ext dd dd' ports : dsame dd dd' -> ed_pending dd' = ed_pending dd -> poll_ports dd' ports = poll_ports dd ports.
Proof using.
  intros Hs Hp. induction ports as [|[a|] ports IH]; cbn; [done| |done]. by rewrite IH, Hp, (dsame_max dd dd').
Qed.

(** What [do_poll] leaves of the processor. *)
Definition polled d v (deliver : bool) (ports : list (option Z)) dd (rc : Z) s s' : Prop :=
  exists dd', s' = set_dom d dd' s /\ dsame dd dd' /\ ed_pending dd' = ed_pending dd /\
    match (if deliver then Some 0 else poll_ports dd ports) with
    | Some e => rc = e /\ awake dd' v
    | None => rc = 0 /\ asleep dd' v ports
    end.

Lemma poll_spec d v deliver ports dd s : es_doms s !! d = Some dd -> is_Some (ed_vcpus dd !! v) ->
  Z.of_nat (length ports) <= 128 -> wp tol (do_poll d v true deliver ports) (fun rc s' => polled d v deliver ports dd rc s s') s.
Proof using.
  intros Hd [x Hx] Hlen. unfold do_poll. rewrite (proj2 (Z.ltb_ge 128 _)) by done. wp_steps. eapply wp_vcpu_read; [done..|].
  wp_steps. apply wp_vcpu_write. wp_steps. apply wp_dom_write. fold_dom. wp_steps. eapply wp_dom_read; [apply set_dom_eq|].
  set (dd1 := dd <| ed_vcpus ::= _ |> <| ed_poll_mask ::= _ |>).
  assert (Hx1 : ed_vcpus dd1 !! v = Some (x <| vc_blocked := true |> <| vc_poll := -1 |>)).
  { unfold dd1. cbn. by rewrite lookup_alter_eq, Hx. }
  assert (Hs1 : dsame dd dd1).
  { transitivity (dd <| ed_vcpus ::= alter (fun x => x <| vc_blocked := true |> <| vc_poll := -1 |>) v |>); [by apply vcpu_same|].
    split; try done. cbn. intros i [Hi|Hi]%elem_of_union; [by left|right]. apply elem_of_singleton in Hi as ->. rewrite lookup_alter_eq, Hx. done. }
  assert (Hpp : poll_ports dd1 ports = poll_ports dd ports).
  { by apply poll_ports_ext. }
  rewrite Hpp.
  assert (Hout : forall e, (if deliver then Some 0 else poll_ports dd ports) = Some e ->
    wp tol (vcpu_write d v (fun x => x <| vc_poll := 0 |> <| vc_blocked := false |>);;
      dom_write d (fun dd => dd <| ed_poll_mask ::= fun m => m ∖ {[v]} |>);; mret e)
      (fun rc s' => polled d v deliver ports dd rc s s') (set_dom d dd1 s)).
  { intros e He. wp_steps. apply wp_vcpu_write. wp_steps. apply wp_dom_write. rewrite !on_set_dom. wp_steps.
    eexists. split; [done|]. split.
    - transitivity dd1; [done|]. transitivity (dd1 <| ed_vcpus ::= alter (fun x => x <| vc_poll := 0 |> <| vc_blocked := false |>) v |>);
        [by apply vcpu_same|]. split; try done. cbn. intros i [Hi _]%elem_of_difference. by left.
    - split; [done|]. rewrite He. split; [done|]. split; [cbn; intros [_ Hn]%elem_of_difference; by apply Hn, elem_of_singleton|]. eexists. split; [cbn; by rewrite lookup_alter_eq, lookup_alter_eq, Hx|done]. }
  assert (Hin : v ∈ ed_poll_mask dd1) by (unfold dd1; cbn; apply elem_of_union; right; by apply elem_of_singleton).
  destruct deliver; [by apply Hout|]. destruct (poll_ports dd ports) as [e|] eqn:He; [by apply Hout|].
  assert (Hsleep : forall dd2, dsame dd dd2 -> ed_pending dd2 = ed_pending dd -> asleep dd2 v ports ->
    polled d v false ports dd 0 s (set_dom d dd2 s)).
  { intros dd2 A1 A2 A3. exists dd2. split; [done|]. split; [done|]. split; [done|]. cbn. by rewrite He. }
  assert (Hany : polled d v false ports dd 0 s (set_dom d dd1 s)).
  { apply Hsleep; [done|done|]. split; [done|]. eexists. split; [exact Hx1|]. done. }
  destruct ports as [|[a|] [|b ports]]; wp_steps; try done.
  apply wp_vcpu_write. rewrite on_set_dom. wp_steps. apply Hsleep; [transitivity dd1; [done|by apply vcpu_same]|done|].
  split; [done|]. eexists. split; [cbn; by rewrite lookup_alter_eq, lookup_alter_eq, Hx|]. split; [done|].
  intros p Hp. apply list_elem_of_singleton in Hp as [= ->]. unfold waits_for. cbn. rewrite Z.eqb_refl. by rewrite orb_true_r.
Qed.
End Dom.
