(* ===== verification/EvtchnSpec.v ===== *)
(** What the event-channel hypercall promises: its answer and its effect on
    the bindings, command by command; and the channels of the hypervisor under
    the calls of guests: nobody closes them, moves them or connects them to
    another domain. *)
From S2P Require Import Prelude CMonad Evtchn EvtchnInv EvtchnPorts EvtchnLists EvtchnClose EvtchnBind EvtchnOps EvtchnDom.

(** * The domains stay *)

Definition same_doms (s s' : estate) : Prop := forall d, is_Some (es_doms s' !! d) <-> is_Some (es_doms s !! d).

#[export] Instance same_doms_preorder : PreOrder same_doms.
Proof. split; [by intros s d|]. intros s1 s2 s3 H1 H2 d. by rewrite (H2 d). Qed.

Definition keeps {A} (m : M estate A) : Prop := forall s r s', m s = Ret r s' -> same_doms s s'.

Section Keeps.
Context (env : EvtEnv).

Lemma keeps_ret {A} (a : A) : keeps (mret a).
Proof using. by intros s r s' [= <- <-]. Qed.

Lemma keeps_raise {A} f : keeps (raise (A := A) f).
Proof using. by intros s r s'. Qed.

Lemma keeps_nofuel {A} : keeps (nofuel (A := A)).
Proof using. by intros s r s'. Qed.

Lemma keeps_get : keeps get.
Proof using. by intros s r s' [= <- <-]. Qed.

Lemma keeps_bind {A B} (m : M estate A) (k : A -> M estate B) : keeps m -> (forall a, keeps (k a)) -> keeps (mbind k m).
Proof using.
  intros Hm Hk s r s' H. destruct (bind_ret _ _ _ _ _ H) as (a & s1 & H1 & H2). transitivity s1; [by eapply Hm|by eapply Hk].
Qed.

Lemma keeps_dom_write d f : keeps (dom_write d f).
Proof using. intros s r s' [= <- <-] d'. cbn. by rewrite lookup_alter_is_Some. Qed.

Lemma keeps_tick : keeps (modify (fun s : estate => s <| es_tick ::= S |>)).
Proof using. by intros s r s' [= <- <-]. Qed.

Lemma keeps_for_each {A L} (body : A -> L -> M estate (loopctl L)) xs l : (forall x l, keeps (body x l)) -> keeps (for_each xs body l).
Proof using.
  intros Hb. revert l. induction xs as [|x xs IH]; intros l; cbn; [apply keeps_ret|]. apply keeps_bind; [apply Hb|].
  intros [l'|l']; [apply IH|apply keeps_ret].
Qed.
End Keeps.

Create HintDb keeps.

(** Whatever is composed of these keeps the domains. *)
Ltac keep :=
  repeat first
    [ apply keeps_ret | apply keeps_raise | apply keeps_nofuel | apply keeps_get | apply keeps_dom_write | apply keeps_tick
    | assumption | solve [auto 1 with keeps nocore]
    | apply keeps_bind; [|intros ?] | apply keeps_for_each; intros ? ?
    | match goal with |- keeps (match ?x with _ => _ end) => destruct x end ].

Section Kept.
Context (env : EvtEnv).
Implicit Types (d p v cur : Z).

Lemma keeps_free_scan n d p : keeps (free_scan n d p).
Proof using. revert p. induction n as [|n IH]; intros p; cbn [free_scan]; unfold evtchn_from_port, dom_read; keep; apply IH. Qed.

Lemma keeps_each_port n d f p : (forall q, keeps (f q)) -> keeps (each_port n d f p).
Proof using. intros Hf. revert p. induction n as [|n IH]; intros p; cbn [each_port]; unfold dom_read; keep. Qed.
#[local] Hint Resolve keeps_free_scan : keeps.

#[local] Hint Unfold dom_read vcpu_read vcpu_write evtchn_from_port chn_write cell virq_read virq_write pirq_read pirq_write
  vcpu_mark_events_pending vcpu_unblock wake_poller evtchn_set_pending xmalloc get_free_port
  rcu_lock_target_domain_by_id evtchn_alloc_unbound evtchn_bind_interdomain evtchn_bind_virq evtchn_bind_ipi pirq_links
  link_pirq_port unlink_pirq_port evtchn_bind_pirq clear_virq close_peer __evtchn_close evtchn_close evtchn_send
  evtchn_status evtchn_bind_vcpu evtchn_unmask evtchn_reset : keeps.

Lemma keeps_op cur w arg : keeps (do_event_channel_op env cur w arg).
Proof using.
  unfold do_event_channel_op. repeat autounfold with keeps. keep; apply keeps_each_port; intros q; keep.
Qed.
End Kept.

(** * The promise *)

Section Promise.
Context (env : EvtEnv).
Implicit Types (s : estate) (dd : edom) (d p v cur : Z) (w : bool).

(** [evtchn_alloc_unbound]: a fresh port waits for the remote domain. *)
Definition alloc_done cur dom rdom s (a : Z * Z) s' : Prop :=
  match target_of env s cur dom with
  | inl rc => refused s s' (fst a) (fst a = rc)
  | inr d => exists dd, es_doms s !! d = Some dd /\
      (refused s s' (fst a) (no_port dd (fst a) \/ exists p, fst a = ee_xsm_unbound env d p rdom) \/
       fst a = 0 /\ bound_new s s' d (snd a)
         (mk_evtchn (ECS_UNBOUND (if rdom =? DOMID_SELF then cur else rdom)) false 0))
  end.

(** [evtchn_bind_interdomain]: a port that waited for this domain gets its other end. *)
Definition pair_done cur rdom rport s (a : Z * Z) s' : Prop :=
  let rd := if rdom =? DOMID_SELF then cur else rdom in
  exists dd, es_doms s !! cur = Some dd /\ (refused s s' (fst a) (no_pair env cur rd rport dd s (fst a)) \/
    fst a = 0 /\ new_pair cur rd rport s (snd a) s').

(** [evtchn_bind_virq]. *)
Definition virq_done cur virq v s (a : Z * Z) s' : Prop :=
  exists dd, es_doms s !! cur = Some dd /\
    (refused s s' (fst a) (fst a = - EINVAL /\ ~ (0 <= virq < NR_VIRQS) \/
        fst a = - EINVAL /\ virq_is_global virq = true /\ v <> 0 \/
        fst a = - ENOENT /\ ed_vcpus dd !! v = None \/
        fst a = - EEXIST /\ (exists x p, ed_vcpus dd !! v = Some x /\ vc_virqs x !! Z.to_nat virq = Some p /\ p <> 0) \/
        no_port dd (fst a)) \/
     fst a = 0 /\ is_Some (ed_vcpus dd !! v) /\ bound_new s s' cur (snd a) (mk_evtchn (ECS_VIRQ virq) false v)).

(** [evtchn_bind_ipi]. *)
Definition ipi_done cur v s (a : Z * Z) s' : Prop :=
  exists dd, es_doms s !! cur = Some dd /\
    (refused s s' (fst a) (fst a = - ENOENT /\ ed_vcpus dd !! v = None \/ no_port dd (fst a)) \/
     fst a = 0 /\ is_Some (ed_vcpus dd !! v) /\ bound_new s s' cur (snd a) (mk_evtchn ECS_IPI false v)).

(** [evtchn_bind_pirq]. *)
Definition pirq_done cur pirq share s (a : Z * Z) s' : Prop :=
  exists dd, es_doms s !! cur = Some dd /\
    (refused s s' (fst a) (fst a = - EINVAL /\ ~ (0 <= pirq < Z.of_nat (length (ed_pirqs dd))) \/
        fst a = - EPERM /\ ed_hvm dd = false /\ ee_irq_permitted env cur pirq = false \/
        fst a = - EEXIST /\ (exists p, ed_pirqs dd !! Z.to_nat pirq = Some p /\ p <> 0) \/
        no_port dd (fst a) \/
        ed_hvm dd = false /\ fst a = ee_pirq_guest_bind env cur pirq share) \/
     fst a = 0 /\ bound_new s s' cur (snd a) (mk_evtchn (ECS_PIRQ pirq 0 0) false 0)).

(** [evtchn_bind_vcpu]. *)
Definition move_done cur p v s (rc : Z) s' : Prop :=
  exists dd, es_doms s !! cur = Some dd /\
    (refused s s' rc (not_moved cur p v dd s rc) \/ rc = 0 /\ is_Some (ed_vcpus dd !! v) /\ moved_to cur p v s s').

(** [evtchn_reset]. *)
Definition reset_done cur dom s (rc : Z) s' : Prop :=
  match target_of env s cur dom with
  | inl e => rc = e /\ s' = s
  | inr d => if ee_xsm_reset env cur d =? 0 then rc = 0 /\ did_reset d s s' else rc = ee_xsm_reset env cur d /\ s' = s
  end.

(** A command, its answer and its effect: the answers that carry a port or a
    status are written back, the others are the return value. *)
Definition promised cur w (op : evtchn_op) s (r : Z * evtchn_out) s' : Prop :=
  let back (done : Z * Z -> Prop) := exists a, r = written w (fst a) (OutPort (snd a)) /\ done a in
  let plain (done : Z -> Prop) := snd r = NoOut /\ done (fst r) in
  match op with
  | EVTCHNOP_alloc_unbound dom rdom => back (fun a => alloc_done cur (u16 dom) (u16 rdom) s a s')
  | EVTCHNOP_bind_interdomain rdom rport => back (fun a => pair_done cur (u16 rdom) (s32 rport) s a s')
  | EVTCHNOP_bind_virq virq v => back (fun a => virq_done cur (s32 virq) (s32 v) s a s')
  | EVTCHNOP_bind_ipi v => back (fun a => ipi_done cur (s32 v) s a s')
  | EVTCHNOP_bind_pirq pirq share => back (fun a => pirq_done cur (s32 pirq) share s a s')
  | EVTCHNOP_close p => plain (fun rc => closed cur (s32 p) s rc s')
  | EVTCHNOP_send p => plain (fun rc => sends env s cur (u32 p) rc s')
  | EVTCHNOP_status dom p => s' = s /\
      r = written w (fst (status env s cur (u16 dom) (s32 p))) (OutStatus (snd (status env s cur (u16 dom) (s32 p))))
  | EVTCHNOP_bind_vcpu p v => plain (fun rc => move_done cur (u32 p) (u32 v) s rc s')
  | EVTCHNOP_unmask p => plain (fun rc =>
      rc = - EINVAL /\ s' = s /\ chn s cur (u32 p) = None \/ rc = 0 /\ unmasked s s' cur (u32 p))
  | EVTCHNOP_reset dom => plain (fun rc => reset_done cur (u16 dom) s rc s')
  | EVTCHNOP_other => r = (- ENOSYS, NoOut) /\ s' = s
  end.

Context (tol : fault -> Prop) (Hxsm : forall d p, ee_xsm_alloc env d p = true).

Lemma op_promised cur w op s : ewf s -> is_Some (es_doms s !! cur) ->
  wp tol (do_event_channel_op env cur w (Some op)) (fun r s' => promised cur w op s r s') s.
Proof using Hxsm.
  intros Hw Hcur. destruct op; unfold do_event_channel_op; cbn [promised]; wp_steps.
  - eapply wp_mono; [by apply alloc_unbound_spec|]. intros a s' Ha. wp_steps. by exists a.
  - eapply wp_mono; [by apply bind_interdomain_spec|]. intros a s' Ha. wp_steps. by exists a.
  - eapply wp_mono; [by apply bind_virq_spec|]. intros a s' Ha. wp_steps. by exists a.
  - eapply wp_mono; [by apply bind_ipi_spec|]. intros a s' Ha. wp_steps. by exists a.
  - eapply wp_mono; [by apply bind_pirq_spec|]. intros a s' Ha. wp_steps. by exists a.
  - destruct Hcur as [dd Hd]. unfold evtchn_close. eapply wp_mono; [by eapply close_spec|]. intros a s' Ha. by wp_steps.
  - eapply wp_mono; [by apply evtchn_send_spec|]. intros a s' Ha. by wp_steps.
  - eapply wp_mono; [by apply status_spec|]. intros a s' [-> ->]. by wp_steps.
  - eapply wp_mono; [by apply bind_vcpu_spec|]. intros a s' Ha. by wp_steps.
  - eapply wp_mono; [by apply unmask_spec|]. intros a s' Ha. by wp_steps.
  - eapply wp_mono; [by apply evtchn_reset_spec|]. intros a s' Ha. by wp_steps.
  - done.
Qed.

Lemma unmasked_same s s' cur p : unmasked s s' cur p -> esame s s'.
Proof using. intros (dd & dd' & c & Hd & _ & -> & Hs & _). by apply (set_same cur dd). Qed.

Lemma refused_ewf s s' rc why : refused s s' rc why -> ewf s'.
Proof using. by intros (_ & _ & ? & _). Qed.

Lemma promised_ewf cur w op s r s' : ewf s -> promised cur w op s r s' -> ewf s'.
Proof using.
  intros Hw. destruct op; cbn.
  - intros (a & _ & Ha). unfold alloc_done in Ha. destruct (target_of env s cur (u16 dom)); [by eapply refused_ewf|].
    destruct Ha as (dd & _ & [Hr|(_ & _ & _ & Hw' & _)]); [by eapply refused_ewf|done].
  - intros (a & _ & dd & _ & [Hr|(_ & c & _ & _ & _ & _ & Hw' & _)]); [by eapply refused_ewf|done].
  - intros (a & _ & dd & _ & [Hr|(_ & _ & _ & _ & Hw' & _)]); [by eapply refused_ewf|done].
  - intros (a & _ & dd & _ & [Hr|(_ & _ & _ & _ & Hw' & _)]); [by eapply refused_ewf|done].
  - intros (a & _ & dd & _ & [Hr|(_ & _ & _ & Hw' & _)]); [by eapply refused_ewf|done].
  - by intros (_ & Hw' & _).
  - intros (_ & Hs). eapply esame_ewf; [by eapply sends_same|done].
  - by intros (-> & _).
  - intros (_ & dd & _ & [Hr|(_ & _ & c & _ & _ & _ & Hw' & _)]); [by eapply refused_ewf|done].
  - intros (_ & [(_ & -> & _)|(_ & Hu)]); [done|]. eapply esame_ewf; [by eapply unmasked_same|done].
  - intros (_ & Hr). unfold reset_done in Hr. destruct (target_of env s cur (u16 dom)); [by destruct Hr as [_ ->]|].
    destruct (_ =? _); [by destruct Hr as (_ & Hw' & _)|by destruct Hr as [_ ->]].
  - by intros [_ ->].
Qed.
End Promise.

(** The domain a channel is meant for. *)
Definition remote_of (c : evtchn) : option Z :=
  match ec_state c with
  | ECS_UNBOUND rd | ECS_INTERDOMAIN rd _ => Some rd
  | _ => None
  end.

Definition xkept (V V' : eview) : Prop := forall d p c, V d p = Some c -> ec_xen c = true ->
  exists c', V' d p = Some c' /\ ec_xen c' = true /\ ec_notify c' = ec_notify c /\ remote_of c' = remote_of c.

#[export] Instance xkept_preorder : PreOrder xkept.
Proof.
  split; [by intros V d p c Hc Hx; exists c|]. intros V1 V2 V3 H1 H2 d p c Hc Hx.
  destruct (H1 d p c Hc Hx) as (c1 & Hc1 & Hx1 & Hn1 & Hr1). destruct (H2 d p c1 Hc1 Hx1) as (c2 & Hc2 & Hx2 & Hn2 & Hr2).
  exists c2. split; [done|]. split; [done|]. split; congruence.
Qed.

Lemma xkept_veq V V' : veq V' V -> xkept V V'.
Proof. intros HV d p c Hc Hx. exists c. by rewrite (HV d p). Qed.

#[export] Instance xkept_proper : Proper (veq ==> veq ==> iff) xkept.
Proof.
  intros V1 V1' H1 V2 V2' H2. split; intros Hk.
  - transitivity V1; [by apply xkept_veq|]. transitivity V2; [done|]. by apply xkept_veq.
  - transitivity V1'; [apply xkept_veq; by symmetry|]. transitivity V2'; [done|]. by apply xkept_veq.
Qed.

(** One port changes. *)
Lemma xkept_upd d p o V : (forall c, V d p = Some c -> ec_xen c = true ->
    exists c', o = Some c' /\ ec_xen c' = true /\ ec_notify c' = ec_notify c /\ remote_of c' = remote_of c) ->
  xkept V (upd d p o V).
Proof.
  intros Ho d' q c Hc Hx. unfold upd. case_decide as Hd; [|by exists c]. destruct Hd as [<- <-]. by apply Ho.
Qed.

Lemma xkept_guest d p o V : (forall c, V d p = Some c -> ec_xen c = false) -> xkept V (upd d p o V).
Proof. intros Hn. apply xkept_upd. intros c Hc Hx. by rewrite (Hn c Hc) in Hx. Qed.

(** Pairs, in a view. *)
Definition v_peers (V : eview) : Prop := forall d p c rd rp, V d p = Some c -> ec_state c = ECS_INTERDOMAIN rd rp ->
  exists c', V rd rp = Some c' /\ ec_state c' = ECS_INTERDOMAIN d p.

Lemma shut_peers d p V : v_peers V -> v_peers (v_shut d V p).
Proof.
  intros HV. unfold v_shut, v_close. destruct (V d p) as [c|] eqn:Hc; [|done]. destruct (ec_xen c); [done|].
  assert (Hone : (forall rd rp, ec_state c <> ECS_INTERDOMAIN rd rp) -> v_peers (upd d p None V)).
  { intros Hn d1 p1 x rd rp. unfold upd. case_decide; [done|]. intros Hx Hst. destruct (HV _ _ _ _ _ Hx Hst) as (c' & Hc' & Hs').
    exists c'. rewrite decide_False; [done|]. intros [<- <-]. rewrite Hc in Hc'. injection Hc' as <-. by destruct (Hn _ _ Hs'). }
  destruct (ec_state c) eqn:Hst; cbn [default]; unfold id; try done; try (apply Hone; by intros rd rp).
  destruct (HV _ _ _ _ _ Hc Hst) as (c2 & Hc2 & Hs2). rewrite Hc2. intros d1 p1 x rd rp. unfold upd.
  case_decide as E1; [done|]. case_decide as E2; [by intros [= <-]|]. intros Hx Hsx.
  destruct (HV _ _ _ _ _ Hx Hsx) as (c' & Hc' & Hs'). exists c'. rewrite !decide_False; [done|..].
  - intros [<- <-]. rewrite Hc2 in Hc'. injection Hc' as <-. apply E1. rewrite Hs2 in Hs'. by injection Hs' as -> ->.
  - intros [<- <-]. rewrite Hc in Hc'. injection Hc' as <-. apply E2. rewrite Hst in Hs'. by injection Hs' as -> ->.
Qed.

Lemma shut_xkept d p V : v_peers V -> xkept V (v_shut d V p).
Proof.
  intros HV. unfold v_shut, v_close. destruct (V d p) as [c|] eqn:Hc; [|done]. destruct (ec_xen c) eqn:Hx; [done|].
  assert (Hg : forall W, (forall x, W d p = Some x -> ec_xen x = false) -> xkept W (upd d p None W)) by (intros W; apply xkept_guest).
  assert (Hone : xkept V (upd d p None V)) by (apply Hg; by rewrite Hc; intros x [= <-]).
  destruct (ec_state c) eqn:Hst; cbn [default]; unfold id; try done.
  destruct (HV _ _ _ _ _ Hc Hst) as (c2 & Hc2 & Hs2). rewrite Hc2.
  transitivity (upd remote_dom remote_port (Some (back_to d c2)) V).
  - apply xkept_upd. rewrite Hc2. intros x [= <-] Hx2. exists (back_to d c2). split; [done|]. split; [done|]. split; [done|].
    unfold remote_of. by rewrite Hs2.
  - apply Hg. intros x. unfold upd. case_decide as E; [|rewrite Hc; by intros [= <-]]. destruct E as [-> ->].
    rewrite Hc in Hc2. injection Hc2 as <-. by intros [= <-].
Qed.

Lemma reset_xkept d m V : v_peers V -> xkept V (v_reset d m V).
Proof.
  unfold v_reset. generalize (seqZ 0 m). intros l. revert V. induction l as [|p l IH]; intros V HV; [done|]. cbn.
  transitivity (v_shut d V p); [by apply shut_xkept|]. by apply IH, shut_peers.
Qed.

Section Guest.
Context (env : EvtEnv).
Implicit Types (s : estate) (d p v cur : Z) (w : bool).

Lemma new_xkept s s' d p c : bound_new s s' d p c -> xkept (view s) (view s').
Proof using. intros (_ & Hn & _ & ->). apply xkept_guest. by rewrite Hn. Qed.

Lemma refused_xkept s s' rc why : refused s s' rc why -> xkept (view s) (view s').
Proof using. intros (_ & _ & _ & Hv). by apply xkept_veq. Qed.

Lemma same_xkept s s' : esame s s' -> xkept (view s) (view s').
Proof using. intros Hs. apply xkept_veq. by apply view_same. Qed.

Lemma pair_xkept cur rd rport s p s' : new_pair cur rd rport s p s' -> xkept (view s) (view s').
Proof using.
  intros (c & Hc & Hst & _ & Hn & _ & -> & _). transitivity (upd cur p (Some (mk_evtchn (ECS_INTERDOMAIN rd rport) false 0)) (view s)).
  - apply xkept_guest. by rewrite Hn.
  - apply xkept_upd. intros x. unfold upd. case_decide as E.
    + destruct E as [<- <-]. by rewrite Hn in Hc.
    + rewrite Hc. intros [= <-] Hx. eexists. split; [done|]. split; [done|]. split; [done|]. unfold remote_of. by rewrite Hst.
Qed.

Lemma promised_xkept cur w op s r s' : ewf s -> promised env cur w op s r s' -> xkept (view s) (view s').
Proof using.
  intros Hw. pose proof (view_peers s Hw) as Hp. destruct op; cbn.
  - intros (a & _ & Ha). unfold alloc_done in Ha. destruct (target_of env s cur (u16 dom)); [by eapply refused_xkept|].
    destruct Ha as (dd & _ & [Hr|(_ & Hb)]); [by eapply refused_xkept|by eapply new_xkept].
  - intros (a & _ & dd & _ & [Hr|(_ & Hb)]); [by eapply refused_xkept|by eapply pair_xkept].
  - intros (a & _ & dd & _ & [Hr|(_ & _ & Hb)]); [by eapply refused_xkept|by eapply new_xkept].
  - intros (a & _ & dd & _ & [Hr|(_ & _ & Hb)]); [by eapply refused_xkept|by eapply new_xkept].
  - intros (a & _ & dd & _ & [Hr|(_ & Hb)]); [by eapply refused_xkept|by eapply new_xkept].
  - intros (_ & Hc). rewrite (closed_shut _ _ _ _ _ Hc). by apply shut_xkept.
  - intros (_ & Hs). eapply same_xkept, sends_same, Hs.
  - by intros (-> & _).
  - intros (_ & dd & _ & [Hr|(_ & _ & c & Hc & Hx & _ & _ & ->)]); [by eapply refused_xkept|].
    apply xkept_guest. rewrite Hc. by intros x [= <-].
  - intros (_ & [(_ & -> & _)|(_ & Hu)]); [done|]. eapply same_xkept, unmasked_same, Hu.
  - intros (_ & Hr). unfold reset_done in Hr. destruct (target_of env s cur (u16 dom)); [by destruct Hr as [_ ->]|].
    destruct (_ =? _); [|by destruct Hr as [_ ->]]. destruct Hr as (_ & _ & _ & dd & _ & ->). by apply reset_xkept.
  - by intros [_ ->].
Qed.

(** A run of hypercalls, each of some domain. *)
Fixpoint guest_run (calls : list (Z * bool * option evtchn_op)) : M estate (list (Z * evtchn_out)) :=
  match calls with
  | [] => mret []
  | (cur, w, arg) :: calls =>
      r ← do_event_channel_op env cur w arg;
      rs ← guest_run calls;
      mret (r :: rs)
  end.

Context (tol : fault -> Prop) (Hxsm : forall d p, ee_xsm_alloc env d p = true).

Lemma op_kept cur w arg s : ewf s -> is_Some (es_doms s !! cur) ->
  wp tol (do_event_channel_op env cur w arg) (fun _ s' => ewf s' /\ same_doms s s' /\ xkept (view s) (view s')) s.
Proof using Hxsm.
  intros Hw Hcur. destruct arg as [op|]; [|done].
  assert (Hk := keeps_op env cur w (Some op) s). pose proof (op_promised env tol Hxsm cur w op s Hw Hcur) as H.
  unfold wp in *. destruct (do_event_channel_op env cur w (Some op) s) as [r s'|f|]; [|done..].
  split; [by eapply promised_ewf|]. split; [by eapply Hk|]. by eapply promised_xkept.
Qed.

Lemma run_kept calls s : ewf s -> Forall (fun call => is_Some (es_doms s !! call.1.1)) calls ->
  wp tol (guest_run calls) (fun _ s' => ewf s' /\ same_doms s s' /\ xkept (view s) (view s')) s.
Proof using Hxsm.
  revert s. induction calls as [|[[cur w] arg] calls IH]; intros s Hw Hall; cbn [guest_run]; wp_steps; [done|].
  apply Forall_cons in Hall as [Hcur Hall]. eapply wp_mono; [by apply op_kept|]. intros r s1 (Hw1 & Hs1 & Hk1). wp_steps.
  eapply wp_mono; [apply IH; [done|]|].
  - eapply Forall_impl; [exact Hall|]. intros call. by rewrite (Hs1 _).
  - intros rs s2 (Hw2 & Hs2 & Hk2). wp_steps. split; [done|]. split; [by transitivity s1|by transitivity (view s1)].
Qed.
End Guest.
