(* ===== verification/Vsprintf.v ===== *)
(** Formatted output and input of the hypervisor (xen/common/vsprintf.c): what
    [scnprintf] makes of the formats of the cache, and the conversions of
    numbers. *)
From S2P Require Import Prelude CMonad.

(** * Characters (xen/ctype.h, [_ctype] of common/lib.c) *)

Definition C_U : Z := 0x01.
Definition C_L : Z := 0x02.
Definition C_D : Z := 0x04.
Definition C_C : Z := 0x08.
Definition C_P : Z := 0x10.
Definition C_S : Z := 0x20.
Definition C_X : Z := 0x40.
Definition C_SP : Z := 0x80.

(** Runs of the table: how many characters, and their mask. *)
Definition _ctype : list Z := concat ((fun r => replicate (fst r) (snd r)) <$>
  [(9%nat, C_C); (5%nat, Z.lor C_C C_S); (18%nat, C_C); (1%nat, Z.lor C_S C_SP); (15%nat, C_P); (10%nat, C_D); (7%nat, C_P);
   (6%nat, Z.lor C_U C_X); (20%nat, C_U); (6%nat, C_P); (6%nat, Z.lor C_L C_X); (20%nat, C_L); (4%nat, C_P); (1%nat, C_C);
   (32%nat, 0); (1%nat, Z.lor C_S C_SP); (31%nat, C_P); (23%nat, C_U); (1%nat, C_P); (7%nat, C_U); (1%nat, C_L); (23%nat, C_L);
   (1%nat, C_P); (8%nat, C_L)]).
Definition ismask (c : Z) : Z := nth (Z.to_nat (wrap 8 c)) _ctype 0.
Definition isdigit (c : Z) : bool := negb (Z.land (ismask c) C_D =? 0).
Definition islower (c : Z) : bool := negb (Z.land (ismask c) C_L =? 0).
Definition isspace (c : Z) : bool := negb (Z.land (ismask c) C_S =? 0).
Definition isxdigit (c : Z) : bool := negb (Z.land (ismask c) (Z.lor C_D C_X) =? 0).
Definition toupper (c : Z) : Z := if islower c then wrap 8 (c - 32) else wrap 8 c.

(** Characters the code names. *)
Definition c_pct : Z := 37.     (** '%' *)
Definition c_star : Z := 42.    (** '*' *)
Definition c_dot : Z := 46.     (** '.' *)
Definition c_minus : Z := 45.
Definition c_plus : Z := 43.
Definition c_space : Z := 32.
Definition c_hash : Z := 35.
Definition c_zero : Z := 48.
Definition c_h : Z := 104.
Definition c_H : Z := 72.
Definition c_l : Z := 108.
Definition c_L : Z := 76.
Definition c_Z : Z := 90.
Definition c_z : Z := 122.
Definition c_c : Z := 99.
Definition c_d : Z := 100.
Definition c_i : Z := 105.
Definition c_n : Z := 110.
Definition c_o : Z := 111.
Definition c_p : Z := 112.
Definition c_s : Z := 115.
Definition c_u : Z := 117.
Definition c_X : Z := 88.
Definition c_x : Z := 120.

(** * Numbers from text

    A string is the list of its characters up to the terminator; [*cp] of the
    end is 0. *)

Definition at0 (s : list Z) : Z := hd 0 s.

(** The value of a digit. *)
Definition digit_value (c : Z) : Z := if isdigit c then c - 48 else toupper c - 65 + 10.

Fixpoint strtoul_loop (base result : Z) (cp : list Z) : Z * list Z :=
  match cp with
  | c :: cp' =>
      if isxdigit c && (digit_value c <? base) then strtoul_loop base (u64 (u64 (result * base) + digit_value c)) cp' else (result, cp)
  | [] => (result, cp)
  end.

(** The prefix that tells the base. *)
Definition strtoul_base (cp : list Z) (base : Z) : list Z * Z :=
  if base =? 0 then
    if at0 cp =? c_zero then
      let cp := tail cp in
      if (toupper (at0 cp) =? c_X) && isxdigit (at0 (tail cp)) then (tail cp, 16) else (cp, 8)
    else (cp, 10)
  else if base =? 16 then
    if (at0 cp =? c_zero) && (toupper (at0 (tail cp)) =? c_X) then (tail (tail cp), 16) else (cp, 16)
  else (cp, base).

Definition simple_strtoul (cp : list Z) (base : Z) : Z * list Z :=
  let '(cp, base) := strtoul_base cp base in strtoul_loop base 0 cp.

Definition simple_strtol (cp : list Z) (base : Z) : Z * list Z :=
  if at0 cp =? c_minus then let '(v, cp) := simple_strtoul (tail cp) base in (s64 (- v), cp)
  else let '(v, cp) := simple_strtoul cp base in (s64 v, cp).

(** The value of a digit in [simple_strtoull]. *)
Definition digit_value_ll (c : Z) : Z := if isdigit c then c - 48 else (if islower c then toupper c else c) - 65 + 10.

Fixpoint strtoull_loop (base result : Z) (cp : list Z) : Z * list Z :=
  match cp with
  | c :: cp' =>
      if isxdigit c && (digit_value_ll c <? base) then strtoull_loop base (u64 (u64 (result * base) + digit_value_ll c)) cp'
      else (result, cp)
  | [] => (result, cp)
  end.

Definition simple_strtoull (cp : list Z) (base : Z) : Z * list Z :=
  let '(cp, base) := strtoul_base cp base in strtoull_loop base 0 cp.

Definition simple_strtoll (cp : list Z) (base : Z) : Z * list Z :=
  if at0 cp =? c_minus then let '(v, cp) := simple_strtoull (tail cp) base in (s64 (- v), cp)
  else let '(v, cp) := simple_strtoull cp base in (s64 v, cp).

(** * Output *)

(** Where a result is stored: the pointers a caller passes. *)
Inductive ptype := PtSChar | PtUChar | PtShort | PtUShort | PtInt | PtUInt | PtLong | PtULong | PtLLong | PtULLong | PtSize.
#[export] Instance ptype_eq_dec : EqDecision ptype.
Proof. solve_decision. Defined.

(** A variadic argument: an int or unsigned int, a word of 64 bits, a string
    (the bytes that may be read from its start, or a pointer into the first
    page), another pointer, a pointer to a number, a buffer with its size. *)
Inductive varg := VInt (z : Z) | VLong (z : Z) | VStr (s : option (list Z)) | VPtr (a : Z) | VOut (t : ptype) (a : Z) | VBuf (a n : Z).

(** What was stored through a pointer. *)
Inductive sval := SNum (z : Z) | SBytes (l : list Z).

(** The buffer's memory, [str], the arguments that are left and what was stored
    through pointers, the last first. *)
Record prt := mk_prt { p_mem : Z -> Z; p_str : Z; p_args : list varg; p_outs : list (Z * sval) }.
#[export] Instance eta_prt : Eta prt := fun r => mk_prt (p_mem r) (p_str r) (p_args r) (p_outs r).

Abbreviation T := (M prt).

Definition put_byte (m : Z -> Z) (a c : Z) : Z -> Z := fun x => if decide (x = a) then c else m x.

(** [if ( str <= end ) *str = c; ++str;] *)
Definition put (fin c : Z) : T unit :=
  modify (fun s => s <| p_mem ::= (fun m => if p_str s <=? fin then put_byte m (p_str s) c else m) |> <| p_str ::= Z.succ |>).

(** A loop that puts [n] times [c]. *)
Fixpoint put_n (fin : Z) (n : nat) (c : Z) : T unit :=
  match n with O => mret tt | S n => put fin c;; put_n fin n c end.

Fixpoint put_list (fin : Z) (l : list Z) : T unit :=
  match l with [] => mret tt | c :: l => put fin c;; put_list fin l end.

(** The result of an operation on int. *)
Definition to_int (z : Z) : T Z := if (- 2 ^ 31 <=? z) && (z <? 2 ^ 31) then mret z else raise Overflow.

(** [while ( size-- > 0 ) put c;], and what [size] is then. *)
Definition put_while (fin size c : Z) : T Z :=
  put_n fin (Z.to_nat size) c;;
  to_int (Z.min size 0 - 1).

Definition va_arg : T varg :=
  args ← gets p_args;
  match args with
  | [] => raise BadArgument
  | v :: args => modify (fun s => s <| p_args := args |>);; mret v
  end.
Definition va_int : T Z := v ← va_arg; match v with VInt z => mret (s32 z) | _ => raise BadArgument end.
Definition va_long : T Z := v ← va_arg; match v with VLong z => mret (u64 z) | _ => raise BadArgument end.
Definition va_str : T (option (list Z)) := v ← va_arg; match v with VStr s => mret s | _ => raise BadArgument end.
Definition va_ptr : T Z := v ← va_arg; match v with VPtr a => mret (u64 a) | _ => raise BadArgument end.
Definition va_out (t : ptype) : T Z :=
  v ← va_arg; match v with VOut t' a => if decide (t = t') then mret a else raise BadArgument | _ => raise BadArgument end.
Definition va_buf : T (Z * Z) := v ← va_arg; match v with VBuf a n => mret (a, n) | _ => raise BadArgument end.
Definition store_out (a : Z) (v : sval) : T unit := modify (fun s => s <| p_outs ::= cons (a, v) |>).

Definition ZEROPAD : Z := 1.
Definition SIGN : Z := 2.
Definition PLUS : Z := 4.
Definition SPACE : Z := 8.
Definition LEFT : Z := 16.
Definition SPECIAL : Z := 32.
Definition LARGE : Z := 64.
Definition has (flags f : Z) : bool := negb (Z.land flags f =? 0).

(** [small_digits] and [large_digits]. *)
Definition digit_char (large : bool) (d : Z) : Z := if d <? 10 then 48 + d else (if large then 55 else 87) + d.

(** The digits into [tmp], the last one first; the array has 66 cells. *)
Fixpoint tmp_loop (n : nat) (large : bool) (base num : Z) : T (list Z) :=
  if num =? 0 then mret []
  else
    match n with
    | O => raise OutOfBounds
    | S n => rest ← tmp_loop n large base (num / base); mret (digit_char large (num mod base) :: rest)
    end.

(** The sign character (0 for none) and the magnitude. *)
Definition sign_of (num type : Z) : T (Z * Z) :=
  if has type SIGN then
    if s64 num <? 0 then if s64 num =? - 2 ^ 63 then raise Overflow else mret (c_minus, - s64 num)
    else if has type PLUS then mret (c_plus, num)
    else if has type SPACE then mret (c_space, num)
    else mret (0, num)
  else mret (0, num).

(** What the sign and the prefix of the base take from the width. *)
Definition head_size (sign base size type : Z) : T Z :=
  size ← (if sign =? 0 then mret size else to_int (size - 1));
  if has type SPECIAL then
    if base =? 16 then to_int (size - 2) else if base =? 8 then to_int (size - 1) else mret size
  else mret size.

Definition put_head (fin sign base type : Z) : T unit :=
  (if sign =? 0 then mret tt else put fin sign);;
  if has type SPECIAL then
    if base =? 8 then put fin c_zero
    else if base =? 16 then put fin c_zero;; put fin (digit_char (has type LARGE) 33)
    else mret tt
  else mret tt.

Definition number (fin num base size precision type : Z) : T unit :=
  let type := if has type LEFT then Z.land type (Z.lnot ZEROPAD) else type in
  if (base <? 2) || (36 <? base) then modify (fun s => s <| p_str := 0 |>)
  else
    let c := if has type ZEROPAD then c_zero else c_space in
    '(sign, num) ← sign_of num type;
    size ← head_size sign base size type;
    tmp ← (if num =? 0 then mret [c_zero] else tmp_loop 66 (has type LARGE) base num);
    let i := Z.of_nat (length tmp) in
    let precision := Z.max i precision in
    size ← to_int (size - precision);
    size ← (if has type (ZEROPAD + LEFT) then mret size else put_while fin size c_space);
    put_head fin sign base type;;
    size ← (if has type LEFT then mret size else put_while fin size c);
    put_n fin (Z.to_nat (precision - i)) c_zero;;
    put_list fin (rev tmp);;
    _ ← put_while fin size c_space;
    mret tt.

(** * Formats *)

Fixpoint skip_atoi (i : Z) (s : list Z) : T (Z * list Z) :=
  match s with
  | c :: s' =>
      if isdigit c then if 2 ^ 31 <=? i * 10 + c then raise Overflow else skip_atoi (i * 10 + c - 48) s'
      else mret (i, s)
  | [] => mret (i, s)
  end.

Fixpoint skip_flags (flags : Z) (fmt : list Z) : Z * list Z :=
  match fmt with
  | c :: fmt' =>
      if c =? c_minus then skip_flags (Z.lor flags LEFT) fmt'
      else if c =? c_plus then skip_flags (Z.lor flags PLUS) fmt'
      else if c =? c_space then skip_flags (Z.lor flags SPACE) fmt'
      else if c =? c_hash then skip_flags (Z.lor flags SPECIAL) fmt'
      else if c =? c_zero then skip_flags (Z.lor flags ZEROPAD) fmt'
      else (flags, fmt)
  | [] => (flags, fmt)
  end.

Definition get_width (flags : Z) (fmt : list Z) : T (Z * Z * list Z) :=
  if isdigit (at0 fmt) then '(w, fmt) ← skip_atoi 0 fmt; mret (w, flags, fmt)
  else if at0 fmt =? c_star then
    w ← va_int;
    if w <? 0 then if w =? - 2 ^ 31 then raise Overflow else mret (- w, Z.lor flags LEFT, tail fmt)
    else mret (w, flags, tail fmt)
  else mret (-1, flags, fmt).

Definition get_precision (fmt : list Z) : T (Z * list Z) :=
  if at0 fmt =? c_dot then
    let fmt := tail fmt in
    '(p, fmt) ← (if isdigit (at0 fmt) then skip_atoi 0 fmt
                 else if at0 fmt =? c_star then p ← va_int; mret (p, tail fmt)
                 else mret (-1, fmt));
    mret (if p <? 0 then 0 else p, fmt)
  else mret (-1, fmt).

Definition is_qualifier (c : Z) : bool := (c =? c_h) || (c =? c_l) || (c =? c_L) || (c =? c_Z) || (c =? c_z).
Definition get_qualifier (fmt : list Z) : Z * list Z :=
  if is_qualifier (at0 fmt) then
    let q := at0 fmt in
    let fmt := tail fmt in
    if (q =? c_l) && (at0 fmt =? c_l) then (c_L, tail fmt) else (q, fmt)
  else (-1, fmt).

(** [strnlen]: the length up to a zero, at most [n]. *)
Fixpoint strnlen (l : list Z) (n : Z) : T Z :=
  if n =? 0 then mret 0
  else
    match l with
    | [] => raise OutOfBounds
    | c :: l => if c =? 0 then mret 0 else k ← strnlen l (n - 1); mret (k + 1)
    end.

Definition put_char (fin width flags : Z) : T unit :=
  width ← (if has flags LEFT then mret width
           else put_n fin (Z.to_nat (width - 1)) c_space;; mret (Z.min (width - 1) 0));
  c ← va_int;
  put fin (wrap 8 c);;
  put_n fin (Z.to_nat (width - 1)) c_space.

Definition NULL_text : list Z := [60; 78; 85; 76; 76; 62; 0].  (** "<NULL>" *)

Definition put_string (fin width precision flags : Z) : T unit :=
  s ← va_str;
  let s := default NULL_text s in
  len ← strnlen s (u64 precision);
  let len := s32 len in
  width ← (if has flags LEFT then mret width
           else put_n fin (Z.to_nat (width - len)) c_space;; mret (Z.min width len - 1));
  put_list fin (take (Z.to_nat len) s);;
  put_n fin (Z.to_nat (width - len)) c_space.

(** The integer argument, as the qualifier says. *)
Definition get_num (qualifier flags : Z) : T Z :=
  if qualifier =? c_L then va_long
  else if qualifier =? c_l then va_long
  else if (qualifier =? c_Z) || (qualifier =? c_z) then va_long
  else if qualifier =? c_h then
    v ← va_int;
    mret (if has flags SIGN then u64 (swrap 16 v) else u16 v)
  else
    v ← va_int;
    mret (if has flags SIGN then u64 v else u32 v).

(** The conversion itself; what is left of the format. *)
Definition convert (buf fin flags width precision qualifier : Z) (fmt : list Z) : T (list Z) :=
  let c := at0 fmt in
  let int_conv base flags :=
    num ← get_num qualifier flags;
    number fin num base width precision flags;;
    mret (tail fmt) in
  if c =? c_c then put_char fin width flags;; mret (tail fmt)
  else if c =? c_s then put_string fin width precision flags;; mret (tail fmt)
  else if c =? c_p then
    a ← va_ptr;
    (if width =? -1 then number fin a 16 16 precision (Z.lor flags ZEROPAD) else number fin a 16 width precision flags);;
    mret (tail fmt)
  else if c =? c_n then
    (if qualifier =? c_l then a ← va_out PtLong; str ← gets p_str; store_out a (SNum (s64 (str - buf)))
     else if (qualifier =? c_Z) || (qualifier =? c_z) then a ← va_out PtSize; str ← gets p_str; store_out a (SNum (u64 (str - buf)))
     else a ← va_out PtInt; str ← gets p_str; store_out a (SNum (s32 (str - buf))));;
    mret (tail fmt)
  else if c =? c_pct then put fin c_pct;; mret (tail fmt)
  else if c =? c_o then int_conv 8 flags
  else if c =? c_X then int_conv 16 (Z.lor flags LARGE)
  else if c =? c_x then int_conv 16 flags
  else if (c =? c_d) || (c =? c_i) then int_conv 10 (Z.lor flags SIGN)
  else if c =? c_u then int_conv 10 flags
  else
    put fin c_pct;;
    if c =? 0 then mret fmt else put fin c;; mret (tail fmt).

(** From '%' on. *)
Definition directive (buf fin : Z) (fmt : list Z) : T (list Z) :=
  let '(flags, fmt) := skip_flags 0 fmt in
  '(width, flags, fmt) ← get_width flags fmt;
  '(precision, fmt) ← get_precision fmt;
  let '(qualifier, fmt) := get_qualifier fmt in
  convert buf fin flags width precision qualifier fmt.

Fixpoint format (fuel : nat) (buf fin : Z) (fmt : list Z) : T unit :=
  if at0 fmt =? 0 then mret tt
  else
    match fuel with
    | O => nofuel
    | S fuel =>
        if at0 fmt =? c_pct then fmt ← directive buf fin (tail fmt); format fuel buf fin fmt
        else put fin (at0 fmt);; format fuel buf fin (tail fmt)
    end.

Definition vsnprintf (buf size : Z) (fmt : list Z) (args : list varg) : T Z :=
  if (s32 size <? 0) || negb (u32 size =? size) then raise BugOn
  else
    let fin := u64 (buf + size - 1) in
    let '(fin, size) := if fin <? u64 (buf - 1) then (2 ^ 64 - 1, u64 (2 ^ 64 - 1 - buf + 1)) else (fin, size) in
    modify (fun s => s <| p_str := buf |> <| p_args := args |>);;
    format (length fmt) buf fin fmt;;
    str ← gets p_str;
    (if str <=? fin then modify (fun s => s <| p_mem ::= fun m => put_byte m str 0 |>)
     else if 0 <? size then modify (fun s => s <| p_mem ::= fun m => put_byte m fin 0 |>)
     else mret tt);;
    mret (s32 (str - buf)).

(** [if ( i >= size ) i = size - 1; return (i > 0) ? i : 0;], [i] as size_t. *)
Definition clip (i size : Z) : Z :=
  let i := if size <=? u64 i then s32 (size - 1) else i in
  if 0 <? i then i else 0.

Definition vscnprintf (buf size : Z) (fmt : list Z) (args : list varg) : T Z :=
  i ← vsnprintf buf size fmt args;
  mret (clip i size).

Definition snprintf (buf size : Z) (fmt : list Z) (args : list varg) : T Z := vsnprintf buf size fmt args.

Definition scnprintf (buf size : Z) (fmt : list Z) (args : list varg) : T Z :=
  i ← vsnprintf buf size fmt args;
  mret (clip i size).

(** * Input *)

Fixpoint skip_space (s : list Z) : list Z := match s with c :: s' => if isspace c then skip_space s' else s | [] => [] end.

(** Up to the next white space. *)
Fixpoint skip_word (s : list Z) : list Z :=
  match s with c :: s' => if isspace c || (c =? 0) then s else skip_word s' | [] => [] end.

(** The characters of a string, and of its first word. *)
Fixpoint chars (s : list Z) : list Z := match s with c :: s' => if c =? 0 then [] else c :: chars s' | [] => [] end.
Fixpoint word (s : list Z) : list Z := match s with c :: s' => if (c =? 0) || isspace c then [] else c :: word s' | [] => [] end.

Definition scan_qualifier (fmt : list Z) : Z * list Z :=
  if is_qualifier (at0 fmt) then
    let q := at0 fmt in
    let fmt := tail fmt in
    if (q =? at0 fmt) && (q =? c_h) then (c_H, tail fmt)
    else if (q =? at0 fmt) && (q =? c_l) then (c_L, tail fmt)
    else (q, fmt)
  else (-1, fmt).

(** Bytes stored in a caller's buffer. *)
Definition store_bytes (l : list Z) : T unit :=
  '(a, n) ← va_buf;
  if n <? Z.of_nat (length l) then raise OutOfBounds else store_out a (SBytes l).

(** What the qualifier makes of the number, stored through the next pointer;
    the end of the number. *)
Definition scan_number (qualifier base : Z) (is_sign : bool) (str : list Z) : T (list Z) :=
  let store t conv (r : Z * list Z) := a ← va_out t; store_out a (SNum (conv (fst r)));; mret (snd r) in
  if qualifier =? c_H then
    if is_sign then store PtSChar (swrap 8) (simple_strtol str base) else store PtUChar (wrap 8) (simple_strtoul str base)
  else if qualifier =? c_h then
    if is_sign then store PtShort (swrap 16) (simple_strtol str base) else store PtUShort u16 (simple_strtoul str base)
  else if qualifier =? c_l then
    if is_sign then store PtLong id (simple_strtol str base) else store PtULong id (simple_strtoul str base)
  else if qualifier =? c_L then
    if is_sign then store PtLLong id (simple_strtoll str base) else store PtULLong id (simple_strtoull str base)
  else if (qualifier =? c_Z) || (qualifier =? c_z) then store PtSize id (simple_strtoul str base)
  else if is_sign then store PtInt s32 (simple_strtol str base)
  else store PtUInt u32 (simple_strtoul str base).

(** [if ( !digit || (base == 16 && !isxdigit(digit)) || ... ) break;] *)
Definition no_number (base digit : Z) : bool :=
  (digit =? 0) || ((base =? 16) && negb (isxdigit digit)) || ((base =? 10) && negb (isdigit digit)) ||
  ((base =? 8) && (negb (isdigit digit) || (55 <? digit))) || ((base =? 0) && negb (isdigit digit)).

(** What one conversion does: go on behind it with one more item or none, or
    stop. *)
Inductive scanned := Next (str : list Z) (items : Z) | Stop.

Definition scan_int (qualifier base : Z) (is_sign : bool) (str : list Z) : T scanned :=
  let str := skip_space str in
  let digit := at0 str in
  let digit := if is_sign && (digit =? c_minus) then at0 (tail str) else digit in
  if no_number base digit then mret Stop
  else next ← scan_number qualifier base is_sign str; mret (Next next 1).

(** The switch on the conversion [c]; [blen] is the length of the buffer. *)
Definition scan_conv (blen field_width qualifier c : Z) (str : list Z) : T scanned :=
  if c =? c_c then
    let field_width := if field_width =? -1 then 1 else field_width in
    let l := take (Z.to_nat (Z.max 1 field_width)) (chars str) in
    store_bytes l;; mret (Next (drop (length l) str) 1)
  else if c =? c_s then
    let field_width := if field_width =? -1 then 2 ^ 31 - 1 else field_width in
    let str := skip_space str in
    let l := take (Z.to_nat field_width) (word str) in
    store_bytes (l ++ [0]);; mret (Next (drop (length l) str) 1)
  else if c =? c_n then
    a ← va_out PtInt; store_out a (SNum (s32 (blen - Z.of_nat (length str))));; mret (Next str 0)
  else if c =? c_o then scan_int qualifier 8 false str
  else if (c =? c_x) || (c =? c_X) then scan_int qualifier 16 false str
  else if c =? c_i then scan_int qualifier 0 true str
  else if c =? c_d then scan_int qualifier 10 true str
  else if c =? c_u then scan_int qualifier 10 false str
  else if c =? c_pct then mret (if at0 str =? c_pct then Next (tail str) 0 else Stop)
  else mret Stop.

(** The loop over the format; a round takes at least one character of it. *)
Fixpoint scan (fuel : nat) (blen : Z) (fmt str : list Z) (num : Z) : T Z :=
  if (at0 fmt =? 0) || (at0 str =? 0) then mret num
  else
    match fuel with
    | O => nofuel
    | S fuel =>
        let '(fmt, str) := if isspace (at0 fmt) then (skip_space fmt, skip_space str) else (fmt, str) in
        if at0 fmt =? 0 then mret num
        else if negb (at0 fmt =? c_pct) then
          if at0 fmt =? at0 str then scan fuel blen (tail fmt) (tail str) num else mret num
        else
          let fmt := tail fmt in
          if at0 fmt =? c_star then scan fuel blen (skip_word fmt) (skip_word str) num
          else
            '(field_width, fmt) ← (if isdigit (at0 fmt) then skip_atoi 0 fmt else mret (-1, fmt));
            let '(qualifier, fmt) := scan_qualifier fmt in
            if (at0 fmt =? 0) || (at0 str =? 0) then mret num
            else
              r ← scan_conv blen field_width qualifier (at0 fmt) str;
              match r with
              | Next str items => scan fuel blen (tail fmt) str (num + items)
              | Stop => mret num
              end
    end.

Definition vsscanf (buf fmt : list Z) (args : list varg) : T Z :=
  modify (fun s => s <| p_args := args |>);;
  scan (length fmt) (Z.of_nat (length buf)) fmt buf 0.

Definition sscanf (buf fmt : list Z) (args : list varg) : T Z := vsscanf buf fmt args.
