(* ===== verification/VsprintfSpec.v ===== *)
(** What the formatted output of xen/common/vsprintf.c prints: a calculus for
    computations that print, the grammar of formats with the text each piece
    stands for, and the proof that the code prints that text. *)
From S2P Require Import Prelude CMonad Vsprintf.

(** * Characters in a memory *)

(** The memory [m] with [l] at the address [a]. *)
Definition stored (a : Z) (l : list Z) (m : Z -> Z) (x : Z) : Z :=
  if (a <=? x) && (x <? a + Z.of_nat (length l)) then nth (Z.to_nat (x - a)) l 0 else m x.

Lemma stored_in a l m x : a <= x < a + Z.of_nat (length l) -> stored a l m x = nth (Z.to_nat (x - a)) l 0.
Proof. intros. unfold stored. destruct (Z.leb_spec a x), (Z.ltb_spec x (a + Z.of_nat (length l))); cbn [andb]; lia || done. Qed.

Lemma stored_out a l m x : x < a \/ a + Z.of_nat (length l) <= x -> stored a l m x = m x.
Proof. intros. unfold stored. destruct (Z.leb_spec a x), (Z.ltb_spec x (a + Z.of_nat (length l))); cbn [andb]; lia || done. Qed.

Lemma stored_app a l1 l2 m x : stored a (l1 ++ l2) m x = stored (a + Z.of_nat (length l1)) l2 (stored a l1 m) x.
Proof.
  pose proof (length_app l1 l2).
  destruct (decide (a <= x < a + Z.of_nat (length l1))).
  - rewrite stored_in, (stored_out (a + _)), stored_in by lia. by rewrite app_nth1 by lia.
  - destruct (decide (a + Z.of_nat (length l1) <= x < a + Z.of_nat (length (l1 ++ l2)))).
    + rewrite !stored_in by lia. rewrite app_nth2 by lia. f_equal. lia.
    + rewrite !stored_out; lia || done.
Qed.

Lemma stored_ext a l m m' x : (forall y, m y = m' y) -> stored a l m x = stored a l m' x.
Proof. intros Hm. unfold stored. by rewrite Hm. Qed.

(** The characters of [l] that lie up to the last cell [fin]. *)
Definition upto (fin a : Z) (l : list Z) : list Z := take (Z.to_nat (fin + 1 - a)) l.

Lemma upto_app fin a l1 l2 m x :
  stored (a + Z.of_nat (length l1)) (upto fin (a + Z.of_nat (length l1)) l2) (stored a (upto fin a l1) m) x =
  stored a (upto fin a (l1 ++ l2)) m x.
Proof.
  unfold upto. rewrite take_app. destruct (decide (Z.of_nat (length l1) <= fin + 1 - a)) as [H|H].
  - rewrite (take_ge l1) by lia. rewrite stored_app.
    by replace (Z.to_nat (fin + 1 - (a + Z.of_nat (length l1)))) with (Z.to_nat (fin + 1 - a) - length l1)%nat by lia.
  - replace (Z.to_nat (fin + 1 - (a + Z.of_nat (length l1)))) with O by lia.
    replace (Z.to_nat (fin + 1 - a) - length l1)%nat with O by lia. rewrite !take_0, app_nil_r.
    rewrite (stored_out _ []) by (cbn; lia). done.
Qed.

(** * Computations that print

    [s'] is [s] after [l] was printed, with the arguments [args] left. *)
Definition after (fin : Z) (l : list Z) (args : list varg) (s s' : prt) : Prop :=
  p_str s' = p_str s + Z.of_nat (length l) /\ p_args s' = args /\
  forall x, p_mem s' x = stored (p_str s) (upto fin (p_str s) l) (p_mem s) x.

(** With the arguments [args], [m] returns [v], prints [l] and leaves [args'],
    unless it raises a fault of [tol]. *)
Definition says {A} (tol : fault -> Prop) (fin : Z) (args : list varg) (m : T A) (v : A) (l : list Z) (args' : list varg) : Prop :=
  forall s, p_args s = args -> wp tol m (fun a s' => a = v /\ after fin l args' s s') s.

Section Says.
Context (tol : fault -> Prop) (fin : Z).
Implicit Types (args : list varg) (l : list Z).
Abbreviation says := (says tol fin).

Lemma after_nil s args : p_args s = args -> after fin [] args s s.
Proof using.
  intros Ha. split_and!; [cbn; lia|done|]. intros x. unfold upto. rewrite take_nil, stored_out by (cbn; lia). done.
Qed.

Lemma says_ret {A} args (v : A) : says args (mret v) v [] args.
Proof using. intros s Hs. apply wp_ret. split; [done|]. by apply after_nil. Qed.

Lemma says_raise {A} args f (v : A) l args' : tol f -> says args (raise f) v l args'.
Proof using. intros Hf s Hs. by apply wp_raise. Qed.

Lemma says_bind {A B} args args1 args2 (m : T A) (k : A -> T B) v w l1 l2 l :
  says args m v l1 args1 -> says args1 (k v) w l2 args2 -> l = l1 ++ l2 -> says args (mbind k m) w l args2.
Proof using.
  intros Hm Hk -> s Hs. apply wp_bind. eapply wp_mono; [by apply Hm|].
  intros a s1 (-> & H1 & H2 & H3). eapply wp_mono; [by apply Hk|].
  intros b s2 (-> & H4 & H5 & H6). split; [done|]. split_and!.
  - rewrite H4, H1, length_app. lia.
  - done.
  - intros x. rewrite H6, H1. rewrite <- upto_app. apply stored_ext. intros y. apply H3.
Qed.

Lemma says_seq {A B} args args1 args2 (m : T A) (k : T B) v w l1 l2 l :
  says args m v l1 args1 -> says args1 k w l2 args2 -> l = l1 ++ l2 -> says args (m ;; k) w l args2.
Proof using. intros Hm Hk. by apply (says_bind args args1 args2 m (fun _ => k) v w). Qed.

(** A step that prints nothing. *)
Lemma says_quiet {A B} args args1 args2 (m : T A) (k : A -> T B) v w l :
  says args m v [] args1 -> says args1 (k v) w l args2 -> says args (mbind k m) w l args2.
Proof using. intros Hm Hk. by eapply says_bind. Qed.

Lemma says_put args c : says args (put fin c) tt [c] args.
Proof using.
  intros s Hs. apply wp_modify. split; [done|]. unfold after. cbn. split_and!; [lia|done|].
  intros x. unfold upto. destruct (Z.leb_spec (p_str s) fin) as [H|H].
  - replace (Z.to_nat (fin + 1 - p_str s)) with (S (Z.to_nat (fin - p_str s))) by lia. cbn [take]. rewrite take_nil.
    unfold put_byte. case_decide as Hx.
    + subst. rewrite stored_in by (cbn; lia). by rewrite Z.sub_diag.
    + rewrite stored_out by (cbn; lia). done.
  - replace (Z.to_nat (fin + 1 - p_str s)) with O by lia. rewrite take_0, stored_out by (cbn; lia). done.
Qed.

Lemma says_put_list args l : says args (put_list fin l) tt l args.
Proof using.
  induction l as [|c l IH]; cbn [put_list]; [apply says_ret|].
  eapply says_seq; [apply says_put|apply IH|done].
Qed.

Lemma says_put_n args n c : says args (put_n fin n c) tt (replicate n c) args.
Proof using.
  induction n as [|n IH]; cbn [put_n replicate]; [apply says_ret|].
  eapply says_seq; [apply says_put|apply IH|done].
Qed.

Lemma says_to_int args z : - 2 ^ 31 <= z < 2 ^ 31 \/ tol Overflow -> says args (to_int z) z [] args.
Proof using.
  intros Hz. unfold to_int. destruct (Z.leb_spec (- 2 ^ 31) z), (Z.ltb_spec z (2 ^ 31)); cbn [andb];
    [apply says_ret|apply says_raise; destruct Hz; (lia || done)..].
Qed.

Lemma says_put_while args size c : - 2 ^ 31 < size \/ tol Overflow ->
  says args (put_while fin size c) (Z.min size 0 - 1) (replicate (Z.to_nat size) c) args.
Proof using.
  intros Hs. unfold put_while. eapply says_seq; [apply says_put_n|apply says_to_int|by rewrite app_nil_r].
  destruct Hs; [left; lia|by right].
Qed.

(** The next argument. *)
Lemma says_va_arg args v : says (v :: args) va_arg v [] args.
Proof using.
  intros s Hs. unfold va_arg. wp_steps. rewrite Hs. wp_steps. split; [done|].
  split_and!; cbn; [lia|done|]. intros x. unfold upto. rewrite take_nil, stored_out by (cbn; lia). done.
Qed.

Lemma says_va_int args z : says (VInt z :: args) va_int (s32 z) [] args.
Proof using. eapply says_quiet; [apply says_va_arg|apply says_ret]. Qed.

Lemma says_va_long args z : says (VLong z :: args) va_long (u64 z) [] args.
Proof using. eapply says_quiet; [apply says_va_arg|apply says_ret]. Qed.

Lemma says_va_str args o : says (VStr o :: args) va_str o [] args.
Proof using. eapply says_quiet; [apply says_va_arg|apply says_ret]. Qed.

Lemma says_va_ptr args z : says (VPtr z :: args) va_ptr (u64 z) [] args.
Proof using. eapply says_quiet; [apply says_va_arg|apply says_ret]. Qed.
End Says.

(** ** Computations that print something *)

(** Whatever the arguments, [m] prints some text and returns a value of [P],
    unless it raises a fault of [tol]; it does not run out of fuel. *)
Definition speaks {A} (tol : fault -> Prop) (fin : Z) (P : A -> Prop) (m : T A) : Prop :=
  forall args, exists v l args', P v /\ says tol fin args m v l args'.

Section Speaks.
Context (tol : fault -> Prop) (fin : Z).
Abbreviation speaks := (speaks tol fin).

Lemma says_speaks {A} (P : A -> Prop) (m : T A) v l : P v -> (forall args, says tol fin args m v l args) -> speaks P m.
Proof using. intros Hv Hm args. by exists v, l, args. Qed.

Lemma speaks_ret {A} (P : A -> Prop) v : P v -> speaks P (mret v).
Proof using. intros Hv. eapply says_speaks; [done|]. intros. apply says_ret. Qed.

Lemma speaks_raise {A} (P : A -> Prop) f v : tol f -> P v -> speaks P (raise f).
Proof using. intros Hf Hv args. exists v, [], []. split; [done|]. by apply says_raise. Qed.

Lemma speaks_bind {A B} (P : A -> Prop) (Q : B -> Prop) (m : T A) (k : A -> T B) :
  speaks P m -> (forall a, P a -> speaks Q (k a)) -> speaks Q (mbind k m).
Proof using.
  intros Hm Hk args. destruct (Hm args) as (v & l & args1 & Hv & H1).
  destruct (Hk v Hv args1) as (w & l2 & args2 & Hw & H2). exists w, (l ++ l2), args2. split; [done|].
  by eapply says_bind.
Qed.

Lemma speaks_mono {A} (P Q : A -> Prop) (m : T A) : speaks P m -> (forall a, P a -> Q a) -> speaks Q m.
Proof using. intros Hm HPQ args. destruct (Hm args) as (v & l & args1 & Hv & H1). exists v, l, args1. auto. Qed.
End Speaks.

(** * Numerals *)

(** The digits of [n], the last first; 64 are enough for 64 bits. *)
Fixpoint revdigits (fuel : nat) (large : bool) (base n : Z) : list Z :=
  match fuel with
  | O => []
  | S f => if n =? 0 then [] else digit_char large (n mod base) :: revdigits f large base (n / base)
  end.

Definition numeral (large : bool) (base n : Z) : list Z := if n =? 0 then [c_zero] else rev (revdigits 64 large base n).

Definition pad (n c : Z) : list Z := replicate (Z.to_nat n) c.

(** A number: a sign, a prefix for the base, at least [prec] digits, in a field
    of at least [width] characters. *)
Definition sign_text (v : Z) (signed plus space : bool) : list Z :=
  if signed then if v <? 0 then [c_minus] else if plus then [c_plus] else if space then [c_space] else [] else [].
Definition prefix_text (large : bool) (base : Z) (special : bool) : list Z :=
  if special then if base =? 8 then [c_zero] else if base =? 16 then [c_zero; if large then c_X else c_x] else [] else [].
Definition field (left zero : bool) (width : Z) (head body : list Z) : list Z :=
  let n := width - Z.of_nat (length head) - Z.of_nat (length body) in
  if left then head ++ body ++ pad n c_space
  else if zero then head ++ pad n c_zero ++ body
  else pad n c_space ++ head ++ body.
Definition digits_text (large : bool) (base n prec : Z) : list Z :=
  let ds := numeral large base n in
  pad (prec - Z.of_nat (length ds)) c_zero ++ ds.
Definition number_text (base v width prec : Z) (zero signed plus space left special large : bool) : list Z :=
  field left zero width (sign_text v signed plus space ++ prefix_text large base special) (digits_text large base (Z.abs v) prec).

(** ** The flags as a word *)

Definition flag_word (zero signed plus space left special large : bool) : Z :=
  Z.b2z zero * ZEROPAD + Z.b2z signed * SIGN + Z.b2z plus * PLUS + Z.b2z space * SPACE +
  Z.b2z left * LEFT + Z.b2z special * SPECIAL + Z.b2z large * LARGE.

Section FlagWord.
Context (z sg pl sp lf sc lg : bool).
Abbreviation w := (flag_word z sg pl sp lf sc lg).
Lemma has_zero : has w ZEROPAD = z. Proof using. by destruct z, sg, pl, sp, lf, sc, lg. Qed.
Lemma has_sign : has w SIGN = sg. Proof using. by destruct z, sg, pl, sp, lf, sc, lg. Qed.
Lemma has_plus : has w PLUS = pl. Proof using. by destruct z, sg, pl, sp, lf, sc, lg. Qed.
Lemma has_space : has w SPACE = sp. Proof using. by destruct z, sg, pl, sp, lf, sc, lg. Qed.
Lemma has_left : has w LEFT = lf. Proof using. by destruct z, sg, pl, sp, lf, sc, lg. Qed.
Lemma has_special : has w SPECIAL = sc. Proof using. by destruct z, sg, pl, sp, lf, sc, lg. Qed.
Lemma has_large : has w LARGE = lg. Proof using. by destruct z, sg, pl, sp, lf, sc, lg. Qed.
Lemma has_zero_left : has w (ZEROPAD + LEFT) = z || lf. Proof using. by destruct z, sg, pl, sp, lf, sc, lg. Qed.
Lemma drop_zero : Z.land w (Z.lnot ZEROPAD) = flag_word false sg pl sp lf sc lg. Proof using. by destruct z, sg, pl, sp, lf, sc, lg. Qed.
Lemma set_zero : Z.lor w ZEROPAD = flag_word true sg pl sp lf sc lg. Proof using. by destruct z, sg, pl, sp, lf, sc, lg. Qed.
Lemma set_left : Z.lor w LEFT = flag_word z sg pl sp true sc lg. Proof using. by destruct z, sg, pl, sp, lf, sc, lg. Qed.
Lemma set_sign : Z.lor w SIGN = flag_word z true pl sp lf sc lg. Proof using. by destruct z, sg, pl, sp, lf, sc, lg. Qed.
Lemma set_plus : Z.lor w PLUS = flag_word z sg true sp lf sc lg. Proof using. by destruct z, sg, pl, sp, lf, sc, lg. Qed.
Lemma set_space : Z.lor w SPACE = flag_word z sg pl true lf sc lg. Proof using. by destruct z, sg, pl, sp, lf, sc, lg. Qed.
Lemma set_special : Z.lor w SPECIAL = flag_word z sg pl sp lf true lg. Proof using. by destruct z, sg, pl, sp, lf, sc, lg. Qed.
Lemma set_large : Z.lor w LARGE = flag_word z sg pl sp lf sc true. Proof using. by destruct z, sg, pl, sp, lf, sc, lg. Qed.
End FlagWord.

Create Rewrite HintDb flagdb.

#[export] Hint Rewrite has_zero has_sign has_plus has_space has_left has_special has_large has_zero_left drop_zero
  set_zero set_left set_sign set_plus set_space set_special set_large : flagdb.

(** * [number] *)

Section Number.
Context (tol : fault -> Prop) (fin : Z).
Abbreviation says := (says tol fin).

Lemma says_tmp_loop args k : forall n large base num, 2 <= base -> 0 <= num < 2 ^ Z.of_nat k -> (k <= n)%nat ->
  says args (tmp_loop n large base num) (revdigits k large base num) [] args.
Proof using.
  induction k as [|k IH]; intros n large base num Hb Hn Hk; cbn [revdigits].
  - assert (num = 0) as -> by (cbn in Hn; lia). destruct n; apply says_ret.
  - destruct n as [|n]; [lia|]. cbn [tmp_loop]. destruct (Z.eqb_spec num 0) as [->|Hne]; [apply says_ret|].
    eapply says_quiet; [|apply says_ret]. apply IH; [done| |lia]. split; [apply Z.div_pos; lia|].
    apply Z.div_lt_upper_bound; [lia|]. rewrite Nat2Z.inj_succ, Z.pow_succ_r in Hn by lia. nia.
Qed.

Lemma length_revdigits k large base n : (length (revdigits k large base n) <= k)%nat.
Proof using. revert n. induction k; intros n; cbn [revdigits]; [done|]. case_match; cbn; [lia|]. specialize (IHk (n / base)). lia. Qed.

Lemma length_numeral large base n : 0 <= n -> (1 <= length (numeral large base n) <= 64)%nat.
Proof using.
  intros Hn. unfold numeral. destruct (Z.eqb_spec n 0); [cbn; lia|]. rewrite length_rev. split; [|apply length_revdigits].
  destruct (revdigits 64 large base n) eqn:He; [|cbn; lia]. change 64%nat with (S 63) in He. cbn [revdigits] in He.
  destruct (Z.eqb_spec n 0); done.
Qed.

(** The digits in the order they are printed. *)
Lemma says_numeral args large base num : 2 <= base -> 0 <= num < 2 ^ 64 ->
  says args (if num =? 0 then mret [c_zero] else tmp_loop 66 large base num) (rev (numeral large base num)) [] args.
Proof using.
  intros Hb Hn. unfold numeral. destruct (num =? 0); [apply says_ret|]. rewrite rev_involutive.
  apply says_tmp_loop; [done|cbn; lia|lia].
Qed.

(** The sign character and the magnitude. *)
Lemma says_sign_of args v (z sg pl sp lf sc lg : bool) : v <> - 2 ^ 63 \/ tol Overflow ->
  (if sg then - 2 ^ 63 <= v < 2 ^ 63 else 0 <= v < 2 ^ 64) ->
  says args (sign_of (u64 v) (flag_word z sg pl sp lf sc lg)) (hd 0 (sign_text v sg pl sp), Z.abs v) [] args.
Proof using.
  intros Hv Hr. unfold sign_of, sign_text. autorewrite with flagdb. destruct sg.
  - assert (s64 (u64 v) = v) as ->.
    { unfold swrap, wrap. rewrite Zplus_mod_idemp_l, Z.mod_small; lia. }
    destruct (Z.ltb_spec v 0).
    + destruct (Z.eqb_spec v (- 2 ^ 63)).
      * apply says_raise. by destruct Hv.
      * rewrite Z.abs_neq by lia. apply says_ret.
    + rewrite Z.abs_eq, wrap_id by (unfold urange; lia). destruct pl; [apply says_ret|]. destruct sp; apply says_ret.
  - rewrite Z.abs_eq, wrap_id by (unfold urange; lia). apply says_ret.
Qed.

(** ** The text of a number *)

Lemma pad_none n c : n <= 0 -> pad n c = [].
Proof using. intros. unfold pad. by replace (Z.to_nat n) with O by lia. Qed.

Lemma length_pad n c : Z.of_nat (length (pad n c)) = Z.max 0 n.
Proof using. unfold pad. rewrite length_replicate. lia. Qed.

Lemma sign_text_cases v sg pl sp : sign_text v sg pl sp = [] \/ exists c, c <> 0 /\ sign_text v sg pl sp = [c].
Proof using. unfold sign_text. destruct sg; [|by left]. destruct (v <? 0), pl, sp; (by left) || (right; eexists; split; [|reflexivity]; done). Qed.

Lemma length_prefix lg base sc : Z.of_nat (length (prefix_text lg base sc)) = (if sc then if base =? 16 then 2 else if base =? 8 then 1 else 0 else 0).
Proof using. unfold prefix_text. destruct sc; [|done]. destruct (Z.eqb_spec base 8) as [->|]; [done|]. by destruct (base =? 16). Qed.

(** What the sign and the prefix take from the width, and how they are printed. *)
Lemma says_head_size args sgn base size (z sg pl sp lf sc lg : bool) : (sgn = [] \/ exists c, c <> 0 /\ sgn = [c]) ->
  - 2 ^ 31 + 3 <= size < 2 ^ 31 \/ tol Overflow ->
  says args (head_size (hd 0 sgn) base size (flag_word z sg pl sp lf sc lg))
    (size - Z.of_nat (length (sgn ++ prefix_text lg base sc))) [] args.
Proof using.
  intros Hs Hr. unfold head_size. rewrite has_special, length_app, Nat2Z.inj_add, length_prefix.
  eapply says_quiet with (v := size - Z.of_nat (length sgn)).
  - destruct Hs as [->|(c & Hc & ->)]; cbn [hd length]; [rewrite Z.sub_0_r; apply says_ret|].
    destruct (Z.eqb_spec c 0); [done|]. apply says_to_int. destruct Hr; [left; lia|by right].
  - assert (length sgn <= 1)%nat by (destruct Hs as [->|(c & _ & ->)]; cbn; lia). rewrite Z.sub_add_distr.
    repeat case_match; try (apply says_to_int; destruct Hr; [left; lia|by right]); rewrite Z.sub_0_r; apply says_ret.
Qed.

Lemma says_put_head args sgn base (z sg pl sp lf sc lg : bool) : (sgn = [] \/ exists c, c <> 0 /\ sgn = [c]) ->
  says args (put_head fin (hd 0 sgn) base (flag_word z sg pl sp lf sc lg)) tt (sgn ++ prefix_text lg base sc) args.
Proof using.
  intros Hs. unfold put_head. rewrite has_special, has_large. eapply says_seq with (l1 := sgn); [| |done].
  - destruct Hs as [->|(c & Hc & ->)]; cbn [hd]; [apply says_ret|]. destruct (Z.eqb_spec c 0); [done|apply says_put].
  - unfold prefix_text. destruct sc; [|apply says_ret]. destruct (base =? 8); [apply says_put|].
    destruct (base =? 16); [|apply says_ret].
    eapply says_seq; [apply says_put..|]. by destruct lg.
Qed.

Lemma says_number args base v size prec (z sg pl sp lf sc lg : bool) :
  2 <= base <= 36 -> (if sg then - 2 ^ 63 <= v < 2 ^ 63 else 0 <= v < 2 ^ 64) ->
  (v <> - 2 ^ 63 /\ - 2 ^ 20 < size < 2 ^ 31 /\ prec <= 2 ^ 30) \/ tol Overflow ->
  says args (number fin (u64 v) base size prec (flag_word z sg pl sp lf sc lg)) tt
    (number_text base v size prec z sg pl sp lf sc lg) args.
Proof using.
  intros Hb Hv Ho. unfold number. rewrite has_left.
  replace (if lf then Z.land (flag_word z sg pl sp lf sc lg) (Z.lnot ZEROPAD) else flag_word z sg pl sp lf sc lg)
    with (flag_word (z && negb lf) sg pl sp lf sc lg)
    by (destruct lf; [rewrite drop_zero, andb_false_r|rewrite andb_true_r]; done).
  destruct (Z.ltb_spec base 2); [lia|]. destruct (Z.ltb_spec 36 base); [lia|]. cbn [orb].
  rewrite has_zero, has_large, has_zero_left, has_left.
  eapply says_quiet; [apply says_sign_of; [destruct Ho as [[? _]|]; [by left|by right]|done]|]. cbn beta iota.
  pose proof (sign_text_cases v sg pl sp) as Hc. unfold number_text, field, digits_text.
  pose proof (length_numeral lg base (Z.abs v) ltac:(lia)) as Hl.
  set (sgn := sign_text v sg pl sp) in *. set (ds := numeral lg base (Z.abs v)) in *.
  eapply says_quiet; [apply says_head_size; [done|destruct Ho as [?|]; [left; lia|by right]]|]. cbn beta.
  assert (Hh : Z.of_nat (length (sgn ++ prefix_text lg base sc)) <= 3).
  { rewrite length_app, Nat2Z.inj_add, length_prefix. assert (length sgn <= 1)%nat by (destruct Hc as [->|(c & _ & ->)]; cbn; lia).
    repeat case_match; lia. }
  set (head := sgn ++ prefix_text lg base sc) in *.
  eapply says_quiet; [apply says_numeral; [lia|destruct sg; lia]|]. cbn beta. rewrite length_rev, rev_involutive. fold ds.
  assert (Ho' : (- 2 ^ 20 < size < 2 ^ 31 /\ prec <= 2 ^ 30) \/ tol Overflow) by (destruct Ho as [(_ & ? & ?)|]; tauto). clear Ho.
  eapply says_quiet; [apply says_to_int; destruct Ho'; [left; lia|by right]|]. cbn beta.
  rewrite length_app, Nat2Z.inj_add, length_pad.
  set (k := prec - Z.of_nat (length ds)) in *.
  replace (Z.of_nat (length ds) `max` prec - Z.of_nat (length ds)) with (Z.max 0 k) by lia.
  replace (size - Z.of_nat (length head) - (0 `max` k + Z.of_nat (length ds)))
    with (size - Z.of_nat (length head) - Z.of_nat (length ds) `max` prec) by lia.
  set (n := size - Z.of_nat (length head) - Z.of_nat (length ds) `max` prec) in *.
  assert (Hn : - 2 ^ 31 + 4 < n \/ tol Overflow) by (destruct Ho'; [left; subst n; lia|by right]).
  assert (Hw : forall m c args, m = n \/ m = Z.min n 0 - 1 \/ m = Z.min (Z.min n 0 - 1) 0 - 1 ->
    says args (put_while fin m c) (Z.min m 0 - 1) (pad m c) args).
  { intros m c args' Hm. apply says_put_while. destruct Hn; [left; lia|by right]. }
  replace (pad k c_zero) with (pad (Z.max 0 k) c_zero) by (unfold pad; f_equal; lia).
  destruct lf; rewrite ?andb_true_r, ?andb_false_r, ?orb_true_r, ?orb_false_r.
  - eapply says_quiet; [apply says_ret|]. eapply says_seq; [by apply says_put_head| |reflexivity].
    eapply says_quiet; [apply says_ret|]. eapply says_seq; [apply says_put_n| |by rewrite <- app_assoc].
    eapply says_seq; [apply says_put_list| |reflexivity].
    eapply says_bind; [apply Hw; by left|apply says_ret|by rewrite app_nil_r].
  - destruct z; cbn [andb].
    + eapply says_quiet; [apply says_ret|]. eapply says_seq; [by apply says_put_head| |reflexivity].
      eapply says_bind; [apply Hw; by left| |reflexivity]. eapply says_seq; [apply says_put_n| |reflexivity].
      eapply says_seq; [apply says_put_list| |by rewrite app_nil_r].
      eapply says_bind; [apply Hw; right; by left|apply says_ret|by rewrite (pad_none (Z.min _ _ - 1)) by lia].
    + eapply says_bind; [apply Hw; by left| |reflexivity]. eapply says_seq; [by apply says_put_head| |reflexivity].
      eapply says_bind; [apply Hw; right; by left| |by rewrite (pad_none (Z.min _ _ - 1)) by lia]. eapply says_seq; [apply says_put_n| |reflexivity].
      eapply says_seq; [apply says_put_list| |by rewrite app_nil_r].
      eapply says_bind; [apply Hw; right; by right|apply says_ret|by rewrite (pad_none (Z.min _ _ - 1)) by lia].
Qed.
End Number.
