(* ===== verification/VsprintfText.v ===== *)
(** The grammar of formats, the text a list of pieces stands for, and the proof
    that [vsnprintf] prints it; and that it prints some text for every format. *)
From S2P Require Import Prelude CMonad Vsprintf VsprintfSpec.

(** * The grammar of formats

    A width or a precision is absent, written in the format, or the next
    argument. *)
Inductive amount := Absent | Given (n : Z) | Star (z : Z).
Inductive qualifier := QNone | Qh | Ql | Qll | QL | Qz | QZ.
Inductive ikind := Kd | Ki | Ku | Ko | Kx | KX.

(** What stands between the percent sign and the conversion character. *)
Record fields := mk_fields {
  f_left : bool; f_plus : bool; f_space : bool; f_special : bool; f_zero : bool;
  f_width : amount; f_prec : option amount; f_qual : qualifier }.

(** A conversion with its argument. *)
Inductive conv := Chr (z : Z) | Str (s : option (list Z)) | Ptr (a : Z) | Pct | Int (k : ikind) (v : Z).
Inductive piece := Lit (c : Z) | Conv (f : fields) (c : conv).

Definition plain : fields := mk_fields false false false false false Absent None QNone.
Definition plain_l : fields := mk_fields false false false false false Absent None Ql.

(** ** The format *)

Definition amount_fmt (a : amount) : list Z := match a with Absent => [] | Given n => numeral false 10 n | Star _ => [c_star] end.
Definition prec_fmt (p : option amount) : list Z := match p with None => [] | Some a => c_dot :: amount_fmt a end.
Definition flags_fmt (f : fields) : list Z :=
  (if f_left f then [c_minus] else []) ++ (if f_plus f then [c_plus] else []) ++ (if f_space f then [c_space] else []) ++
  (if f_special f then [c_hash] else []) ++ (if f_zero f then [c_zero] else []).
Definition qual_fmt (q : qualifier) : list Z :=
  match q with QNone => [] | Qh => [c_h] | Ql => [c_l] | Qll => [c_l; c_l] | QL => [c_L] | Qz => [c_z] | QZ => [c_Z] end.
Definition kind_char (k : ikind) : Z := match k with Kd => c_d | Ki => c_i | Ku => c_u | Ko => c_o | Kx => c_x | KX => c_X end.
Definition conv_char (c : conv) : Z := match c with Chr _ => c_c | Str _ => c_s | Ptr _ => c_p | Pct => c_pct | Int k _ => kind_char k end.
Definition piece_fmt (p : piece) : list Z :=
  match p with
  | Lit c => [c]
  | Conv f c => c_pct :: flags_fmt f ++ amount_fmt (f_width f) ++ prec_fmt (f_prec f) ++ qual_fmt (f_qual f) ++ [conv_char c]
  end.
Definition fmt_of (ps : list piece) : list Z := concat (piece_fmt <$> ps).

(** ** The arguments *)

Definition amount_args (a : amount) : list varg := match a with Star z => [VInt z] | _ => [] end.
Definition is_long (q : qualifier) : bool := match q with QNone | Qh => false | _ => true end.
Definition conv_args (q : qualifier) (c : conv) : list varg :=
  match c with
  | Chr z => [VInt z]
  | Str s => [VStr s]
  | Ptr a => [VPtr a]
  | Pct => []
  | Int _ v => [if is_long q then VLong v else VInt v]
  end.
Definition piece_args (p : piece) : list varg :=
  match p with
  | Lit _ => []
  | Conv f c => amount_args (f_width f) ++ match f_prec f with Some a => amount_args a | None => [] end ++ conv_args (f_qual f) c
  end.
Definition args_of (ps : list piece) : list varg := concat (piece_args <$> ps).

(** ** The text *)

Definition width_of (f : fields) : Z := match f_width f with Absent => -1 | Given n => n | Star z => Z.abs z end.
Definition left_of (f : fields) : bool := f_left f || match f_width f with Star z => z <? 0 | _ => false end.
Definition prec_of (f : fields) : Z :=
  match f_prec f with None => -1 | Some Absent => 0 | Some (Given n) => n | Some (Star z) => Z.max 0 z end.

Definition is_signed (k : ikind) : bool := match k with Kd | Ki => true | _ => false end.
Definition base_of (k : ikind) : Z := match k with Ko => 8 | Kx | KX => 16 | _ => 10 end.
Definition is_large (k : ikind) : bool := match k with KX => true | _ => false end.
(** The argument converted to the type the qualifier names. *)
Definition int_value (k : ikind) (q : qualifier) (v : Z) : Z :=
  let w := match q with QNone => 32 | Qh => 16 | _ => 64 end in
  if is_signed k then swrap w v else wrap w v.

(** The characters of a string up to its end, at most as many as the precision
    says. *)
Definition string_text (prec : Z) (s : list Z) : list Z := if prec <? 0 then chars s else take (Z.to_nat prec) (chars s).

Definition conv_text (f : fields) (c : conv) : list Z :=
  let w := width_of f in
  let left := left_of f in
  let prec := prec_of f in
  match c with
  | Chr z => field left false w [] [wrap 8 z]
  | Str s => field left false w [] (string_text prec (default NULL_text s))
  | Ptr a => number_text 16 (u64 a) (if w =? -1 then 16 else w) prec (f_zero f || (w =? -1)) false (f_plus f) (f_space f) left (f_special f) false
  | Pct => [c_pct]
  | Int k v => number_text (base_of k) (int_value k (f_qual f) v) w prec (f_zero f) (is_signed k) (f_plus f) (f_space f) left (f_special f) (is_large k)
  end.
Definition piece_text (p : piece) : list Z := match p with Lit c => [c] | Conv f c => conv_text f c end.
Definition text_of (ps : list piece) : list Z := concat (piece_text <$> ps).

(** ** Well-formed pieces *)

Definition width_ok (a : amount) : Prop := match a with Absent => True | Given n => 0 < n < 2 ^ 30 | Star z => Z.abs z < 2 ^ 30 end.
Definition prec_ok (p : option amount) : Prop :=
  match p with Some (Given n) => 0 <= n < 2 ^ 30 | Some (Star z) => - 2 ^ 31 <= z < 2 ^ 30 | _ => True end.
Definition string_ok (prec : Z) (s : list Z) : Prop := (0 ∈ s \/ 0 <= prec <= Z.of_nat (length s)) /\ Z.of_nat (length s) < 2 ^ 31.
Definition conv_ok (f : fields) (c : conv) : Prop :=
  match c with
  | Str (Some s) => string_ok (prec_of f) s
  | Int k v => int_value k (f_qual f) v <> - 2 ^ 63
  | _ => True
  end.
Definition piece_ok (p : piece) : Prop :=
  match p with
  | Lit c => c <> 0 /\ c <> c_pct
  | Conv f c => width_ok (f_width f) /\ prec_ok (f_prec f) /\ conv_ok f c
  end.

(** * Parsing *)

Lemma all_below (P : Z -> bool) n d : forallb P (seqZ 0 n) = true -> 0 <= d < n -> P d = true.
Proof. rewrite forallb_forall. intros H Hd. apply H, list_elem_of_In, elem_of_seqZ. lia. Qed.

Ltac for_below H :=
  lazymatch type of H with
  | 0 <= ?d < ?n =>
      lazymatch goal with
      | |- ?e = true => lazymatch eval pattern d in e with ?f _ => apply (all_below f n d); [by vm_compute|exact H] end
      end
  end.

(** The digits of a numeral are characters of the right class and value. *)
Lemma digit_char_class lg d : 0 <= d < 16 ->
  isxdigit (digit_char lg d) = true /\ digit_value (digit_char lg d) = d /\ digit_value_ll (digit_char lg d) = d /\
  isdigit (digit_char lg d) = (d <? 10) /\ isspace (digit_char lg d) = false /\ 48 <= digit_char lg d < 128 /\ (d <> 0 -> digit_char lg d <> c_zero) /\
  (digit_char lg d <= 55 <-> d < 8).
Proof.
  intros Hd.
  assert (H : ((isxdigit (digit_char lg d) && (digit_value (digit_char lg d) =? d) && (digit_value_ll (digit_char lg d) =? d) &&
    Bool.eqb (isdigit (digit_char lg d)) (d <? 10) && negb (isspace (digit_char lg d)) && (48 <=? digit_char lg d) && (digit_char lg d <? 128) &&
    ((d =? 0) || negb (digit_char lg d =? c_zero)) && Bool.eqb (digit_char lg d <=? 55) (d <? 8)) = true)).
  { destruct lg; for_below Hd. }
  rewrite !andb_true_iff, !Z.eqb_eq, !eqb_true_iff, negb_true_iff in H. destruct H as [[[[[[[[? ?] ?] ?] ?] ?] ?] ?] ?]. split_and!; try lia; try done.
Qed.

(** A number that is not 0 starts with a digit that is not 0. *)
Lemma revdigits_head k lg base n : 2 <= base -> 0 < n < 2 ^ Z.of_nat k ->
  exists d ds, 0 < d < base /\ rev (revdigits k lg base n) = digit_char lg d :: ds.
Proof.
  intros Hb. revert n. induction k as [|k IH]; intros n Hn; [cbn in Hn; lia|]. cbn [revdigits].
  destruct (Z.eqb_spec n 0); [lia|]. cbn [rev]. pose proof (Z.mod_pos_bound n base ltac:(lia)).
  pose proof (Z.div_mod n base ltac:(lia)). destruct (decide (n / base = 0)) as [Hq|Hq].
  - rewrite Hq. destruct k; cbn [revdigits]; rewrite ?Z.eqb_refl; exists (n mod base), []; (split; [lia|done]).
  - destruct (IH (n / base)) as (d & ds & Hd & ->).
    { split; [pose proof (Z.div_pos n base); lia|]. apply Z.div_lt_upper_bound; [lia|].
      rewrite Nat2Z.inj_succ, Z.pow_succ_r in Hn by lia. nia. }
    by exists d, (ds ++ [digit_char lg (n mod base)]).
Qed.

Lemma numeral_head lg base n : 2 <= base -> 0 <= n < 2 ^ 64 ->
  exists d ds, 0 <= d < base /\ (n <> 0 -> 0 < d) /\ numeral lg base n = digit_char lg d :: ds.
Proof.
  intros Hb Hn. unfold numeral. destruct (Z.eqb_spec n 0) as [->|Hne].
  - exists 0, []. split_and!; [lia|lia|lia|done].
  - destruct (revdigits_head 64 lg base n Hb) as (d & ds & Hd & Heq); [cbn; lia|]. exists d, ds. split_and!; [lia..|done].
Qed.

Lemma skip_atoi_digits k n rest : 0 <= n < 2 ^ 30 -> n < 2 ^ Z.of_nat k ->
  skip_atoi 0 (rev (revdigits k false 10 n) ++ rest) = skip_atoi n rest.
Proof.
  revert n rest. induction k as [|k IH]; intros n rest Hn Hk.
  - by assert (n = 0) as -> by (cbn in Hk; lia).
  - cbn [revdigits]. destruct (Z.eqb_spec n 0) as [->|Hne]; [done|]. cbn [rev]. rewrite <- app_assoc. cbn [app].
    pose proof (Z.mod_pos_bound n 10 ltac:(lia)). pose proof (Z.div_mod n 10 ltac:(lia)).
    rewrite IH.
    + cbn [skip_atoi]. destruct (digit_char_class false (n mod 10)) as (_ & Hv & _ & Hd & _); [lia|].
      rewrite Hd. destruct (Z.ltb_spec (n mod 10) 10); [|lia]. unfold digit_value in Hv. rewrite Hd in Hv.
      destruct (Z.ltb_spec (n mod 10) 10); [|lia]. destruct (Z.leb_spec (2 ^ 31) (n / 10 * 10 + digit_char false (n mod 10))); [lia|].
      f_equal. lia.
    + split; [apply Z.div_pos; lia|lia].
    + apply Z.div_lt_upper_bound; [lia|]. rewrite Nat2Z.inj_succ, Z.pow_succ_r in Hk by lia. lia.
Qed.

Lemma skip_atoi_numeral n rest : 0 <= n < 2 ^ 30 -> isdigit (at0 rest) = false ->
  skip_atoi 0 (numeral false 10 n ++ rest) = mret (n, rest).
Proof.
  intros Hn Hr. assert (Hs : skip_atoi n rest = mret (n, rest)) by (destruct rest; [done|]; cbn [at0 hd] in Hr; cbn [skip_atoi]; by rewrite Hr).
  unfold numeral. destruct (Z.eqb_spec n 0) as [->|]; [by cbn|]. rewrite skip_atoi_digits by (cbn; lia). done.
Qed.

(** What follows the flags does not start with one. *)
Definition is_flag (c : Z) : bool := (c =? c_minus) || (c =? c_plus) || (c =? c_space) || (c =? c_hash) || (c =? c_zero).

Lemma skip_flags_end w fmt : is_flag (at0 fmt) = false -> skip_flags w fmt = (w, fmt).
Proof.
  intros Hf. destruct fmt as [|c fmt]; [done|]. unfold is_flag in Hf. cbn [at0 hd] in Hf. cbn [skip_flags].
  rewrite !orb_false_iff in Hf. by destruct Hf as [[[[-> ->] ->] ->] ->].
Qed.

Lemma skip_flags_fmt f fmt : is_flag (at0 fmt) = false ->
  skip_flags 0 (flags_fmt f ++ fmt) = (flag_word (f_zero f) false (f_plus f) (f_space f) (f_left f) (f_special f) false, fmt).
Proof.
  intros Hf. unfold flags_fmt. destruct f as [lf pl sp sc zr w p q]. cbn [f_left f_plus f_space f_special f_zero].
  destruct lf, pl, sp, sc, zr; cbn; by rewrite skip_flags_end.
Qed.

(** What follows the width starts with no flag, no digit and no star. *)
Lemma rest_head p q c X : let h := at0 (prec_fmt p ++ qual_fmt q ++ conv_char c :: X) in
  is_flag h = false /\ isdigit h = false /\ (h =? c_star) = false.
Proof. destruct p, q, c as [| | | |[]]; intros h; repeat split. Qed.

Lemma qual_head q c X : let h := at0 (qual_fmt q ++ conv_char c :: X) in
  isdigit h = false /\ (h =? c_star) = false /\ (h =? c_dot) = false.
Proof. destruct q, c as [| | | |[]]; intros h; repeat split. Qed.

Lemma width_head w X : width_ok w -> is_flag (at0 X) = false -> is_flag (at0 (amount_fmt w ++ X)) = false.
Proof.
  intros Hw HX. destruct w as [|n|z]; cbn [amount_fmt]; [done| |done].
  destruct (numeral_head false 10 n) as (d & ds & Hd & Hne & ->); [lia|cbn in Hw; lia|]. cbn [app at0 hd].
  specialize (Hne ltac:(cbn in Hw; lia)). assert (Hd' : 0 <= d - 1 < 9) by lia.
  replace d with (d - 1 + 1) by lia. revert Hd'. generalize (d - 1). intros e He. apply negb_true_iff. for_below He.
Qed.

Section Parse.
Context (tol : fault -> Prop) (fin : Z).
Abbreviation says := (says tol fin).

Lemma s32_abs z : Z.abs z < 2 ^ 30 -> s32 z = z.
Proof using. intros. apply s32_small. lia. Qed.

Lemma says_width f z sg pl sp lf sc lg X args : width_ok (f_width f) -> isdigit (at0 X) = false -> (at0 X =? c_star) = false -> lf = f_left f ->
  says (amount_args (f_width f) ++ args) (get_width (flag_word z sg pl sp lf sc lg) (amount_fmt (f_width f) ++ X))
    (width_of f, flag_word z sg pl sp (left_of f) sc lg, X) [] args.
Proof using.
  intros Hw Hd Hs ->. unfold get_width, width_of, left_of. destruct (f_width f) as [|n|v]; cbn [amount_fmt amount_args app].
  - rewrite Hd, Hs, orb_false_r. apply says_ret.
  - cbn in Hw. destruct (numeral_head false 10 n) as (d & ds & Hd1 & _ & Hn); [lia..|].
    assert (isdigit (at0 (numeral false 10 n ++ X)) = true) as ->.
    { rewrite Hn. cbn [app at0 hd]. destruct (digit_char_class false d) as (_ & _ & _ & -> & _); [lia|]. apply Z.ltb_lt. lia. }
    rewrite skip_atoi_numeral, orb_false_r by (done || lia). eapply says_quiet; [apply says_ret|]. apply says_ret.
  - cbn [at0 hd tail]. change (isdigit c_star) with false. change (c_star =? c_star) with true. cbn iota.
    eapply says_quiet; [apply says_va_int|]. cbn in Hw. rewrite s32_abs by done.
    destruct (Z.ltb_spec v 0).
    + destruct (Z.eqb_spec v (- 2 ^ 31)); [lia|]. rewrite set_left, orb_true_r, Z.abs_neq by lia. apply says_ret.
    + rewrite orb_false_r, Z.abs_eq by lia. apply says_ret.
Qed.

Lemma says_prec f X args : prec_ok (f_prec f) -> isdigit (at0 X) = false -> (at0 X =? c_star) = false -> (at0 X =? c_dot) = false ->
  says (match f_prec f with Some a => amount_args a | None => [] end ++ args) (get_precision (prec_fmt (f_prec f) ++ X)) (prec_of f, X) [] args.
Proof using.
  intros Hp Hd Hs Ht. unfold get_precision, prec_of. destruct (f_prec f) as [[|n|v]|]; cbn [prec_fmt amount_fmt amount_args app at0 hd tail].
  - change (c_dot =? c_dot) with true. cbn iota. rewrite Hd, Hs. eapply says_quiet; apply says_ret.
  - change (c_dot =? c_dot) with true. cbn iota. cbn in Hp. destruct (numeral_head false 10 n) as (d & ds & Hd1 & _ & Hn); [lia..|].
    assert (isdigit (at0 (numeral false 10 n ++ X)) = true) as ->.
    { rewrite Hn. cbn [app at0 hd]. destruct (digit_char_class false d) as (_ & _ & _ & -> & _); [lia|]. apply Z.ltb_lt. lia. }
    rewrite skip_atoi_numeral by (done || lia). eapply says_quiet; [apply says_ret|]. cbn beta iota. destruct (Z.ltb_spec n 0); [lia|]. apply says_ret.
  - change (c_dot =? c_dot) with true. change (isdigit c_star) with false. change (c_star =? c_star) with true. cbn iota.
    eapply says_quiet; [eapply says_quiet; [apply says_va_int|apply says_ret]|]. cbn beta iota. cbn in Hp. rewrite s32_small by lia.
    destruct (Z.ltb_spec v 0); [rewrite Z.max_l by lia|rewrite Z.max_r by lia]; apply says_ret.
  - rewrite Ht. apply says_ret.
Qed.

(** The qualifier as the code keeps it. *)
Definition qual_code (q : qualifier) : Z :=
  match q with QNone => -1 | Qh => c_h | Ql => c_l | Qll => c_L | QL => c_L | Qz => c_z | QZ => c_Z end.

Lemma get_qualifier_fmt q c X : get_qualifier (qual_fmt q ++ conv_char c :: X) = (qual_code q, conv_char c :: X).
Proof using. destruct q, c as [| | | |[]]; by cbn. Qed.
End Parse.

(** * The conversions *)

(** A conversion to a signed type adds a multiple of its modulus. *)
Lemma swrap_shift w z : 0 < w -> exists k, swrap w z = z + k * 2 ^ w.
Proof.
  intros Hw. exists (- ((z + 2 ^ (w - 1)) / 2 ^ w)). unfold swrap.
  pose proof (Z.div_mod (z + 2 ^ (w - 1)) (2 ^ w) ltac:(apply Z.pow_nonzero; lia)). lia.
Qed.

Lemma mod_shift w w' z k : 0 < w <= w' -> (z + k * 2 ^ w') mod 2 ^ w = z mod 2 ^ w.
Proof.
  intros Hw. replace (k * 2 ^ w') with (k * 2 ^ (w' - w) * 2 ^ w); [apply Z.mod_add, Z.pow_nonzero; lia|].
  rewrite <- Z.mul_assoc, <- Z.pow_add_r by lia. do 2 f_equal. lia.
Qed.

Lemma wrap_swrap w w' z : 0 < w <= w' -> wrap w (swrap w' z) = wrap w z.
Proof. intros Hw. destruct (swrap_shift w' z) as [k ->]; [lia|]. unfold wrap. by apply mod_shift. Qed.

Lemma swrap_swrap w w' z : 0 < w <= w' -> swrap w (swrap w' z) = swrap w z.
Proof.
  intros Hw. destruct (swrap_shift w' z) as [k ->]; [lia|]. unfold swrap. f_equal.
  rewrite <- Z.add_assoc, (Z.add_comm (k * _)), Z.add_assoc. by apply mod_shift.
Qed.

Lemma swrap_range w z : 0 < w -> - 2 ^ (w - 1) <= swrap w z < 2 ^ (w - 1).
Proof.
  intros Hw. unfold swrap. pose proof (Z.mod_pos_bound (z + 2 ^ (w - 1)) (2 ^ w) ltac:(lia)).
  assert (2 ^ w = 2 * 2 ^ (w - 1)) by (rewrite <- Z.pow_succ_r by lia; f_equal; lia). lia.
Qed.

Lemma int_value_range k q v : if is_signed k then - 2 ^ 63 <= int_value k q v < 2 ^ 63 else 0 <= int_value k q v < 2 ^ 64.
Proof.
  unfold int_value. destruct (is_signed k).
  - destruct q; match goal with |- context [swrap ?w v] => pose proof (swrap_range w v ltac:(lia)) end; cbn in *; lia.
  - destruct q; match goal with |- context [wrap ?w v] => pose proof (wrap_range w ltac:(lia) v) as Hr; unfold urange in Hr end; cbn in *; lia.
Qed.

Section Convert.
Context (tol : fault -> Prop) (fin : Z).
Abbreviation says := (says tol fin).

Lemma says_get_num k q v args flags : has flags SIGN = is_signed k ->
  says (conv_args q (Int k v) ++ args) (get_num (qual_code q) flags) (u64 (int_value k q v)) [] args.
Proof using.
  intros Hf. unfold get_num, conv_args, int_value. rewrite Hf.
  assert (Hl : u64 v = u64 (if is_signed k then swrap 64 v else wrap 64 v)).
  { destruct (is_signed k); [by rewrite wrap_swrap by lia|by rewrite wrap_idem by lia]. }
  destruct q; cbn [is_long app qual_code]; change (-1 =? c_L) with false; change (-1 =? c_l) with false;
    change (-1 =? c_Z) with false; change (-1 =? c_z) with false; change (-1 =? c_h) with false.
  3-7: rewrite <- Hl; apply says_va_long.
  - cbn [orb]. eapply says_quiet; [apply says_va_int|]. destruct (is_signed k); [apply says_ret|].
    rewrite wrap_swrap by lia. rewrite (wrap_id 64 (wrap 32 v)); [apply says_ret|].
    pose proof (wrap_range 32 ltac:(lia) v) as Hr. unfold urange in *. lia.
  - change (says (VInt v :: args) (v ← va_int; mret (if is_signed k then u64 (swrap 16 v) else u16 v))
      (u64 (if is_signed k then swrap 16 v else wrap 16 v)) [] args).
    eapply says_quiet; [apply says_va_int|]. destruct (is_signed k).
    + rewrite swrap_swrap by lia. apply says_ret.
    + rewrite wrap_swrap by lia. rewrite (wrap_id 64 (wrap 16 v)); [apply says_ret|].
      pose proof (wrap_range 16 ltac:(lia) v) as Hr. unfold urange in *. lia.
Qed.

Lemma says_put_pad args n c : says args (put_n fin (Z.to_nat n) c) tt (pad n c) args.
Proof using. apply says_put_n. Qed.

Lemma says_put_char width flags left z args : has flags LEFT = left -> -1 <= width ->
  says (VInt z :: args) (put_char fin width flags) tt (field left false width [] [wrap 8 z]) args.
Proof using.
  intros Hl Hw. unfold put_char, field. rewrite Hl. cbn [length app]. rewrite Z.sub_0_r. change (Z.of_nat 1) with 1. destruct left.
  - eapply says_quiet; [apply says_ret|]. eapply says_quiet; [apply says_va_int|]. rewrite wrap_swrap by lia.
    eapply says_seq; [apply says_put|apply says_put_pad|reflexivity].
  - eapply says_bind; [eapply says_seq; [apply says_put_pad|apply says_ret|done]| |rewrite (app_nil_r (pad _ _)); reflexivity].
    eapply says_quiet; [apply says_va_int|]. rewrite wrap_swrap by lia.
    eapply says_seq; [apply says_put|apply says_put_pad|]. rewrite pad_none by lia. by rewrite app_nil_r.
Qed.

Lemma chars_prefix s : exists s', s = chars s ++ s'.
Proof using.
  induction s as [|c s [s' IH]]; [by exists []|]. cbn [chars]. destruct (c =? 0); [by exists (c :: s)|].
  exists s'. cbn. by f_equal.
Qed.

Lemma says_strnlen args s n : 0 <= n -> (0 ∈ s \/ n <= Z.of_nat (length s)) ->
  says args (strnlen s n) (Z.min (Z.of_nat (length (chars s))) n) [] args.
Proof using.
  revert n. induction s as [|c s IH]; intros n Hn Hs; cbn [strnlen chars].
  - destruct (Z.eqb_spec n 0) as [->|]; [apply says_ret|]. destruct Hs as [Hs|Hs]; [by apply elem_of_nil in Hs|cbn in Hs; lia].
  - destruct (Z.eqb_spec n 0) as [->|]; [rewrite Z.min_r by lia; apply says_ret|].
    destruct (Z.eqb_spec c 0) as [->|Hc]; [cbn [length]; rewrite Z.min_l by lia; apply says_ret|].
    eapply says_quiet; [apply IH; [lia|]|].
    + destruct Hs as [Hs|Hs]; [left; set_solver|right; cbn [length] in Hs; lia].
    + cbn [length]. replace (Z.min (Z.of_nat (S (length (chars s)))) n) with (Z.min (Z.of_nat (length (chars s))) (n - 1) + 1) by lia. apply says_ret.
Qed.

Lemma says_put_string width flags left prec o args : has flags LEFT = left -> -1 <= width -> -1 <= prec < 2 ^ 31 ->
  string_ok prec (default NULL_text o) ->
  says (VStr o :: args) (put_string fin width prec flags) tt (field left false width [] (string_text prec (default NULL_text o))) args.
Proof using.
  intros Hl Hw Hp [Ht Hs]. unfold put_string, field. rewrite Hl. eapply says_quiet; [apply says_va_str|].
  set (s := default NULL_text o) in *. cbn [length app]. rewrite Z.sub_0_r.
  destruct (chars_prefix s) as [s' Heq]. pose proof (f_equal length Heq) as Hlen. rewrite length_app in Hlen.
  assert (Hu : u64 prec = if prec <? 0 then 2 ^ 64 - 1 else prec).
  { destruct (Z.ltb_spec prec 0); [by replace prec with (-1) by lia|]. apply wrap_id. unfold urange. lia. }
  assert (Hn : Z.min (Z.of_nat (length (chars s))) (u64 prec) = Z.of_nat (length (string_text prec s))).
  { rewrite Hu. unfold string_text. destruct (Z.ltb_spec prec 0); [lia|]. rewrite length_take. lia. }
  assert (Htk : take (length (string_text prec s)) s = string_text prec s).
  { rewrite Heq at 2. unfold string_text. destruct (prec <? 0); [by rewrite take_app_length|].
    rewrite length_take. rewrite take_app_le by lia. destruct (decide (Z.to_nat prec <= length (chars s))%nat).
    - by rewrite Nat.min_l by lia.
    - rewrite Nat.min_r by lia. by rewrite !take_ge by lia. }
  eapply says_quiet; [apply says_strnlen; [rewrite Hu; destruct (Z.ltb_spec prec 0); lia|]|].
  { destruct Ht; [by left|right]. rewrite Hu. destruct (Z.ltb_spec prec 0); lia. }
  rewrite Hn. set (t := string_text prec s) in *. rewrite s32_small by lia. rewrite Nat2Z.id, Htk. destruct left.
  - eapply says_quiet; [apply says_ret|]. eapply says_seq; [apply says_put_list|apply says_put_pad|reflexivity].
  - eapply says_bind; [eapply says_seq; [apply says_put_pad|apply says_ret|done]| |rewrite (app_nil_r (pad _ _)); reflexivity].
    eapply says_seq; [apply says_put_list|apply says_put_pad|].
    rewrite (pad_none (Z.min _ _ - 1 - _)) by lia. by rewrite app_nil_r.
Qed.
End Convert.

(** Decides the comparisons of known characters. *)
Ltac char_tests :=
  repeat match goal with
  | |- context [?a =? ?b] =>
      let v := eval vm_compute in (a =? b) in
      lazymatch v with true => idtac | false => idtac end; change (a =? b) with v
  end; cbn iota; cbn [orb].

Section Format.
Context (tol : fault -> Prop) (fin : Z).
Abbreviation says := (says tol fin).

Lemma width_range f : width_ok (f_width f) -> -1 <= width_of f < 2 ^ 30.
Proof using. unfold width_of. destruct (f_width f); cbn; lia. Qed.

Lemma prec_range f : prec_ok (f_prec f) -> -1 <= prec_of f < 2 ^ 30.
Proof using. unfold prec_of. destruct (f_prec f) as [[]|]; cbn; lia. Qed.

Definition flags_of (f : fields) : Z :=
  flag_word (f_zero f) false (f_plus f) (f_space f) (left_of f) (f_special f) false.

Lemma says_convert f c X args buf : width_ok (f_width f) -> prec_ok (f_prec f) -> conv_ok f c ->
  says (conv_args (f_qual f) c ++ args)
    (convert buf fin (flags_of f) (width_of f) (prec_of f) (qual_code (f_qual f)) (conv_char c :: X)) X (conv_text f c) args.
Proof using.
  intros Hw Hp Hc. apply width_range in Hw. apply prec_range in Hp. unfold convert. cbn [at0 hd tail].
  assert (Hf : has (flags_of f) LEFT = left_of f) by apply has_left.
  destruct c as [z|o|a| |k v]; cbn [conv_char].
  - char_tests. eapply says_seq; [apply says_put_char; [done|lia]|apply says_ret|by rewrite app_nil_r].
  - char_tests. eapply says_seq; [apply says_put_string; [done|lia|lia|]|apply says_ret|by rewrite app_nil_r].
    destruct o; cbn in *; [done|]. split; [left|vm_compute]; set_solver.
  - char_tests. cbn [conv_args app]. eapply says_quiet; [apply says_va_ptr|].
    eapply says_seq; [|apply says_ret|by rewrite app_nil_r]. cbn [conv_text].
    pose proof (wrap_range 64 ltac:(lia) a) as Ha.
    assert (Hn : forall w z, -1 <= w < 2 ^ 30 -> says args (number fin (u64 a) 16 w (prec_of f) (flag_word z false (f_plus f) (f_space f) (left_of f) (f_special f) false)) tt
      (number_text 16 (u64 a) w (prec_of f) z false (f_plus f) (f_space f) (left_of f) (f_special f) false) args).
    { intros w z Hwz. rewrite <- (wrap_id 64 (u64 a) Ha) at 1. unfold urange in Ha. apply says_number; [lia|lia|left; lia]. }
    destruct (Z.eqb_spec (width_of f) (-1)) as [He|He].
    + unfold flags_of. rewrite set_zero, orb_true_r. apply Hn. lia.
    + rewrite orb_false_r. by apply Hn.
  - char_tests. eapply says_seq; [apply says_put|apply says_ret|done].
  - pose proof (int_value_range k (f_qual f) v) as Hr. cbn [conv_ok] in Hc. cbn [conv_text].
    assert (Ho : (int_value k (f_qual f) v <> - 2 ^ 63 /\ - 2 ^ 20 < width_of f < 2 ^ 31 /\ prec_of f <= 2 ^ 30) \/ tol Overflow) by (left; lia).
    destruct k; cbn [kind_char is_signed] in *; char_tests; unfold flags_of; rewrite ?set_sign, ?set_large;
      (eapply says_quiet; [apply says_get_num; apply has_sign|]);
      (eapply says_seq; [apply says_number; [cbn; lia|done|done]|apply says_ret|by rewrite app_nil_r]).
Qed.

Lemma says_directive f c X args buf : width_ok (f_width f) -> prec_ok (f_prec f) -> conv_ok f c ->
  says (piece_args (Conv f c) ++ args) (directive buf fin (tail (piece_fmt (Conv f c)) ++ X)) X (conv_text f c) args.
Proof using.
  intros Hw Hp Hc. cbn [piece_fmt tail piece_args]. unfold directive. rewrite <- !app_assoc. cbn [app].
  destruct (rest_head (f_prec f) (f_qual f) c X) as (Hh1 & Hh2 & Hh3).
  destruct (qual_head (f_qual f) c X) as (Hh4 & Hh5 & Hh6).
  rewrite skip_flags_fmt by (by apply width_head).
  eapply says_quiet; [by apply says_width|]. cbn beta iota.
  eapply says_quiet; [by apply says_prec|]. cbn beta iota.
  rewrite get_qualifier_fmt. by apply says_convert.
Qed.

Lemma piece_fmt_cons p : exists c l, piece_fmt p = c :: l.
Proof using. destruct p; cbn; eauto. Qed.

(** What the loop prints for a format made of well-formed pieces. *)
Lemma says_format ps : Forall piece_ok ps -> forall fuel buf args, (length (fmt_of ps) <= fuel)%nat ->
  says (args_of ps ++ args) (format fuel buf fin (fmt_of ps)) tt (text_of ps) args.
Proof using.
  induction 1 as [|p ps Hp _ IH]; intros fuel buf args Hf; [destruct fuel; apply says_ret|].
  change (fmt_of (p :: ps)) with (piece_fmt p ++ fmt_of ps) in *.
  change (args_of (p :: ps)) with (piece_args p ++ args_of ps). change (text_of (p :: ps)) with (piece_text p ++ text_of ps).
  rewrite <- app_assoc. rewrite length_app in Hf.
  destruct fuel as [|fuel]; [destruct (piece_fmt_cons p) as (? & ? & Hq); rewrite Hq in Hf; cbn in Hf; lia|].
  destruct p as [c|f c]; cbn [piece_ok] in Hp.
  - destruct Hp as [H1 H2]. cbn [piece_fmt app format at0 hd tail piece_args].
    destruct (Z.eqb_spec c 0); [done|]. destruct (Z.eqb_spec c c_pct); [done|].
    eapply says_seq; [apply says_put|apply IH; cbn in Hf; lia|done].
  - cbn [format]. change (at0 (piece_fmt (Conv f c) ++ fmt_of ps)) with c_pct. char_tests.
    change (tail (piece_fmt (Conv f c) ++ fmt_of ps)) with (tail (piece_fmt (Conv f c)) ++ fmt_of ps).
    destruct Hp as (H1 & H2 & H3). eapply says_bind; [by apply says_directive|apply IH; cbn in Hf; lia|done].
Qed.
End Format.

(** * Any format *)

(** The faults of a call whose arguments do not fit its format: an argument of
    another type or a string without an end, and field widths past int. *)
Definition misused (f : fault) : Prop := f = BadArgument \/ f = OutOfBounds \/ f = Overflow.

Definition is_word (t : Z) : Prop := exists z sg pl sp lf sc lg, t = flag_word z sg pl sp lf sc lg.

Lemma flags_lor t f : is_word t -> f ∈ [ZEROPAD; SIGN; PLUS; SPACE; LEFT; SPECIAL; LARGE] -> is_word (Z.lor t f).
Proof.
  intros (z & sg & pl & sp & lf & sc & lg & ->) Hf.
  rewrite !elem_of_cons, elem_of_nil in Hf. destruct Hf as [->|[->|[->|[->|[->|[->|[->|[]]]]]]]]; autorewrite with flagdb; by repeat eexists.
Qed.

Lemma skip_flags_word fmt : forall t, is_word t -> is_word (fst (skip_flags t fmt)) /\ (length (snd (skip_flags t fmt)) <= length fmt)%nat.
Proof.
  induction fmt as [|c fmt IH]; intros t Ht; cbn [skip_flags]; [done|].
  assert (Hl : forall f, f ∈ [ZEROPAD; SIGN; PLUS; SPACE; LEFT; SPECIAL; LARGE] ->
    is_word (fst (skip_flags (Z.lor t f) fmt)) /\ (length (snd (skip_flags (Z.lor t f) fmt)) <= length (c :: fmt))%nat).
  { intros f Hf. destruct (IH (Z.lor t f)) as [H1 H2]; [by apply flags_lor|]. split; [done|cbn; lia]. }
  repeat case_match; try (apply Hl; set_solver). split; [done|cbn; lia].
Qed.

Section Any.
Context (fin : Z).
Abbreviation speaks := (speaks misused fin).

Lemma misused_arg : misused BadArgument. Proof using. by left. Qed.
Lemma misused_bounds : misused OutOfBounds. Proof using. by right; left. Qed.
Lemma misused_overflow : misused Overflow. Proof using. by right; right. Qed.

#[local] Hint Resolve misused_arg misused_bounds misused_overflow : core.

Lemma speaks_says {A} (P : A -> Prop) (m : T A) v l : P v -> (forall args, says misused fin args m v l args) -> speaks P m.
Proof using. apply says_speaks. Qed.

Lemma speaks_arg {A} (P : A -> Prop) (m : varg -> T A) v0 : P v0 -> (forall v, (exists f, m v = raise f /\ misused f) \/ exists w, m v = mret w /\ P w) ->
  speaks P (va_arg ≫= m).
Proof using.
  intros Hv0 Hm [|v args].
  - exists v0, [], []. split; [done|]. intros s Hs. unfold va_arg. wp_steps. rewrite Hs. wp_steps. done.
  - destruct (Hm v) as [(f & Hf & Ht)|(w & Hw & Hp)].
    + exists v0, [], []. split; [done|]. eapply says_quiet; [apply says_va_arg|]. rewrite Hf. by apply says_raise.
    + exists w, [], args. split; [done|]. eapply says_quiet; [apply says_va_arg|]. rewrite Hw. apply says_ret.
Qed.

Lemma speaks_va_int : speaks (fun z => - 2 ^ 31 <= z < 2 ^ 31) va_int.
Proof using.
  apply (speaks_arg _ _ 0); [lia|]. intros []; try (left; by eexists). right. eexists. split; [done|].
  apply (swrap_range 32). lia.
Qed.
Lemma speaks_va_long : speaks (fun z => 0 <= z < 2 ^ 64) va_long.
Proof using.
  apply (speaks_arg _ _ 0); [lia|]. intros []; try (left; by eexists). right. eexists. split; [done|]. apply u64_range.
Qed.
Lemma speaks_va_ptr : speaks (fun z => 0 <= z < 2 ^ 64) va_ptr.
Proof using.
  apply (speaks_arg _ _ 0); [lia|]. intros []; try (left; by eexists). right. eexists. split; [done|]. apply u64_range.
Qed.
Lemma speaks_va_str : speaks (fun _ => True) va_str.
Proof using. apply (speaks_arg _ _ None); [done|]. intros []; try (left; by eexists). right. by eexists. Qed.

Lemma speaks_put_n n c : speaks (fun _ => True) (put_n fin n c).
Proof using. eapply speaks_says; [done|]. intros. apply says_put_n. Qed.
Lemma speaks_put_list l : speaks (fun _ => True) (put_list fin l).
Proof using. eapply speaks_says; [done|]. intros. apply says_put_list. Qed.
Lemma speaks_put c : speaks (fun _ => True) (put fin c).
Proof using. eapply speaks_says; [done|]. intros. apply says_put. Qed.

Lemma speaks_skip_atoi s : forall i, speaks (fun r => (length (snd r) <= length s)%nat) (skip_atoi i s).
Proof using.
  induction s as [|c s IH]; intros i; cbn [skip_atoi]; [apply speaks_ret; cbn; lia|].
  destruct (isdigit c) eqn:Hd; [|apply speaks_ret; cbn; lia].
  destruct (2 ^ 31 <=? i * 10 + c); [apply (speaks_raise _ _ _ _ (0, [])); [done|cbn; lia]|].
  eapply speaks_mono; [apply IH|]. intros r Hr. cbn in *. lia.
Qed.

Lemma length_tail {A} (l : list A) : (length (tail l) <= length l)%nat.
Proof using. destruct l; cbn; lia. Qed.

Lemma speaks_width t fmt : is_word t ->
  speaks (fun r => is_word (snd (fst r)) /\ (length (snd r) <= length fmt)%nat) (get_width t fmt).
Proof using.
  intros Ht. unfold get_width. pose proof (length_tail fmt). repeat case_match; try (apply speaks_ret; cbn; done).
  - eapply speaks_bind; [apply speaks_skip_atoi|]. intros [w fmt'] Hl. apply speaks_ret. done.
  - eapply speaks_bind; [apply speaks_va_int|]. intros w _. assert (is_word (Z.lor t LEFT)) by (apply flags_lor; [done|set_solver]).
    destruct (w <? 0); [destruct (w =? _)|].
    + by apply (speaks_raise _ _ _ _ (0, t, fmt)).
    + by apply speaks_ret.
    + by apply speaks_ret.
Qed.

Lemma speaks_precision fmt : speaks (fun r => (length (snd r) <= length fmt)%nat) (get_precision fmt).
Proof using.
  unfold get_precision. pose proof (length_tail fmt). pose proof (length_tail (tail fmt)).
  destruct (at0 fmt =? c_dot); [|by apply speaks_ret]. cbn zeta.
  apply (speaks_bind _ _ (fun r => (length (snd r) <= length fmt)%nat)).
  - destruct (isdigit (at0 (tail fmt))).
    + eapply speaks_mono; [apply speaks_skip_atoi|]. intros r Hr. cbn in *. lia.
    + destruct (at0 (tail fmt) =? c_star); [|by apply speaks_ret].
      eapply speaks_bind; [apply speaks_va_int|]. intros w _. apply speaks_ret. cbn. lia.
  - intros [w fmt'] Hl. by apply speaks_ret.
Qed.

Lemma get_qualifier_length fmt : (length (snd (get_qualifier fmt)) <= length fmt)%nat.
Proof using.
  unfold get_qualifier. pose proof (length_tail fmt). pose proof (length_tail (tail fmt)). repeat case_match; cbn; lia.
Qed.

Lemma speaks_num q t : speaks (fun z => 0 <= z < 2 ^ 64) (get_num q t).
Proof using.
  unfold get_num. destruct (q =? c_L), (q =? c_l), ((q =? c_Z) || (q =? c_z)); try apply speaks_va_long.
  destruct (q =? c_h); (eapply speaks_bind; [apply speaks_va_int|]; intros v _; apply speaks_ret; destruct (has t SIGN)); try apply u64_range.
  - pose proof (wrap_range 16 ltac:(lia) v) as H. unfold urange in H. lia.
  - pose proof (u32_range v) as H. lia.
Qed.

Lemma speaks_number num base w prec t : 2 <= base <= 36 -> 0 <= num < 2 ^ 64 -> is_word t -> speaks (fun _ => True) (number fin num base w prec t).
Proof using.
  intros Hb Hn (z & sg & pl & sp & lf & sc & lg & ->).
  assert (exists v, u64 v = num /\ if sg then - 2 ^ 63 <= v < 2 ^ 63 else 0 <= v < 2 ^ 64) as (v & <- & Hv).
  { destruct sg; [exists (s64 num)|exists num]; (split; [|done || apply (swrap_range 64); lia]).
    - rewrite wrap_swrap by lia. by apply wrap_id.
    - by apply wrap_id. }
  eapply speaks_says; [done|]. intros args. apply says_number; [done..|by right].
Qed.

Lemma speaks_strnlen s : forall n, speaks (fun _ => True) (strnlen s n).
Proof using.
  induction s as [|c s IH]; intros n; cbn [strnlen]; (destruct (n =? 0); [by apply speaks_ret|]).
  - by apply (speaks_raise _ _ _ _ 0).
  - destruct (c =? 0); [by apply speaks_ret|]. eapply speaks_bind; [apply IH|]. intros. by apply speaks_ret.
Qed.

Create HintDb speakdb.
#[local] Hint Resolve speaks_put speaks_put_n speaks_put_list speaks_va_int speaks_va_str speaks_va_ptr speaks_strnlen speaks_num : speakdb.
#[local] Hint Extern 1 (VsprintfSpec.speaks _ _ _ (mret _)) => apply speaks_ret : speakdb.

(** Computations in sequence. *)
Ltac speak :=
  repeat first
    [ eapply speaks_bind; [first [solve [eauto with speakdb]|match goal with |- VsprintfSpec.speaks _ _ _ (if ?b then _ else _) => apply (speaks_bind _ _ (fun _ => True)) end]|intros ? ?]
    | by apply speaks_ret ].

Lemma speaks_put_char w t : speaks (fun _ => True) (put_char fin w t).
Proof using.
  unfold put_char. apply (speaks_bind _ _ (fun _ => True)); [destruct (has t LEFT); speak|]. intros w' _. speak. auto with speakdb.
Qed.

Lemma speaks_put_string w p t : speaks (fun _ => True) (put_string fin w p t).
Proof using.
  unfold put_string. eapply speaks_bind; [apply speaks_va_str|]. intros o _. cbn zeta. eapply speaks_bind; [apply speaks_strnlen|]. intros n _.
  apply (speaks_bind _ _ (fun _ => True)); [destruct (has t LEFT); speak|]. intros w' _. speak. auto with speakdb.
Qed.

(** [%n] stores the length so far and prints nothing. *)
Lemma speaks_count t conv : speaks (fun _ => True) (a ← va_out t; str ← gets p_str; store_out a (conv str)).
Proof using.
  intros [|v args]; [exists tt, [], []; split; [done|]; intros s Hs; unfold va_out, va_arg; wp_steps; rewrite Hs; by wp_steps|].
  exists tt, [], args. split; [done|]. unfold va_out. intros s Hs. wp_steps. unfold va_arg. wp_steps. rewrite Hs. wp_steps.
  destruct v; try (by apply wp_raise). destruct (decide (t = t0)); [|by apply wp_raise].
  unfold store_out. wp_steps. split; [done|]. split_and!; cbn; [lia|done|].
  intros x. unfold upto. rewrite take_nil, stored_out by (cbn; lia). done.
Qed.

Lemma speaks_convert buf t w p q fmt : is_word t ->
  speaks (fun fmt' => (length fmt' <= length fmt)%nat) (convert buf fin t w p q fmt).
Proof using.
  intros Ht. unfold convert. cbn zeta.
  assert (Hd : forall m : T unit, speaks (fun _ => True) m -> speaks (fun fmt' => (length fmt' <= length fmt)%nat) (m ;; mret (tail fmt))).
  { intros m Hm. eapply speaks_bind; [done|]. intros _ _. apply speaks_ret, length_tail. }
  assert (Hi : forall base t', 2 <= base <= 36 -> is_word t' -> speaks (fun fmt' => (length fmt' <= length fmt)%nat)
    (num ← get_num q t'; number fin num base w p t';; mret (tail fmt))).
  { intros base t' Hb Ht'. eapply speaks_bind; [apply speaks_num|]. intros num Hn. by apply Hd, speaks_number. }
  assert (Hw : forall f, f ∈ [ZEROPAD; SIGN; PLUS; SPACE; LEFT; SPECIAL; LARGE] -> is_word (Z.lor t f)) by (intros; by apply flags_lor).
  destruct (at0 fmt =? c_c); [apply Hd, speaks_put_char|]. destruct (at0 fmt =? c_s); [apply Hd, speaks_put_string|].
  destruct (at0 fmt =? c_p).
  { eapply speaks_bind; [apply speaks_va_ptr|]. intros a Ha. apply Hd.
    destruct (w =? -1); apply speaks_number; try done; [apply Hw; set_solver]. }
  destruct (at0 fmt =? c_n).
  { apply Hd. destruct (q =? c_l); [apply (speaks_count PtLong (fun str => SNum (s64 (str - buf))))|].
    destruct ((q =? c_Z) || (q =? c_z)); [apply (speaks_count PtSize (fun str => SNum (u64 (str - buf))))|].
    apply (speaks_count PtInt (fun str => SNum (s32 (str - buf)))). }
  destruct (at0 fmt =? c_pct); [apply Hd, speaks_put|]. destruct (at0 fmt =? c_o); [by apply Hi|].
  destruct (at0 fmt =? c_X); [apply Hi; [done|apply Hw; set_solver]|]. destruct (at0 fmt =? c_x); [by apply Hi|].
  destruct ((at0 fmt =? c_d) || (at0 fmt =? c_i)); [apply Hi; [done|apply Hw; set_solver]|]. destruct (at0 fmt =? c_u); [by apply Hi|].
  eapply speaks_bind; [apply speaks_put|]. intros _ _. destruct (at0 fmt =? 0); [by apply speaks_ret|apply Hd, speaks_put].
Qed.

Lemma speaks_directive buf fmt : speaks (fun fmt' => (length fmt' <= length fmt)%nat) (directive buf fin fmt).
Proof using.
  unfold directive. destruct (skip_flags_word fmt 0) as [Hw Hl]; [by exists false, false, false, false, false, false, false|].
  destruct (skip_flags 0 fmt) as [t fmt1]. cbn [fst snd] in *. eapply speaks_bind; [by apply speaks_width|].
  intros [[w t'] fmt2] [Ht' Hl2]. cbn [fst snd] in *. eapply speaks_bind; [apply speaks_precision|].
  intros [p fmt3] Hl3. cbn [fst snd] in *. pose proof (get_qualifier_length fmt3) as Hl4.
  destruct (get_qualifier fmt3) as [q fmt4]. cbn [fst snd] in *.
  eapply speaks_mono; [by apply speaks_convert|]. intros fmt5 Hl5. cbn in *. lia.
Qed.

Lemma speaks_format buf : forall fuel fmt, (length fmt <= fuel)%nat -> speaks (fun _ => True) (format fuel buf fin fmt).
Proof using.
  induction fuel as [|fuel IH]; intros fmt Hf; cbn [format].
  - destruct fmt; [by apply speaks_ret|cbn in Hf; lia].
  - destruct (Z.eqb_spec (at0 fmt) 0); [by apply speaks_ret|]. destruct fmt as [|c fmt]; [done|]. cbn [tail] in *. cbn [length] in Hf.
    destruct (at0 (c :: fmt) =? c_pct); (eapply speaks_bind; [apply speaks_directive || apply speaks_put|]); intros ? Hl; cbn in Hl; apply IH; lia.
Qed.
End Any.

(** * The buffer *)

(** What is in the buffer afterwards: the text cut off to fit, and a zero;
    nothing in a buffer of no size. *)
Definition line (size : Z) (text : list Z) : list Z := if size =? 0 then [] else take (Z.to_nat (size - 1)) text ++ [0].

Lemma length_line size text : 0 <= size -> Z.of_nat (length (line size text)) = Z.min size (Z.of_nat (length text) + 1).
Proof. intros Hs. unfold line. destruct (Z.eqb_spec size 0); [cbn; lia|]. rewrite length_app, length_take. cbn. lia. Qed.

Lemma stored_snoc a l c m x : put_byte (stored a l m) (a + Z.of_nat (length l)) c x = stored a (l ++ [c]) m x.
Proof.
  rewrite stored_app. unfold put_byte. case_decide as Hx.
  - subst. rewrite stored_in by (cbn; lia). by rewrite Z.sub_diag.
  - rewrite (stored_out _ [c]) by (cbn; lia). done.
Qed.

Lemma vsnprintf_says tol buf size fmt args text args' (s : prt) : 0 <= size < 2 ^ 31 -> 0 < buf -> buf + size <= 2 ^ 64 ->
  says tol (buf + size - 1) args (format (length fmt) buf (buf + size - 1) fmt) tt text args' ->
  wp tol (vsnprintf buf size fmt args) (fun r s' => r = s32 (Z.of_nat (length text)) /\ p_args s' = args' /\
    forall x, p_mem s' x = stored buf (line size text) (p_mem s) x) s.
Proof.
  intros Hs Hb Hbs Hf. unfold vsnprintf. rewrite s32_small by lia. rewrite (wrap_id 32 size) by (unfold urange; lia).
  rewrite Z.eqb_refl. destruct (Z.ltb_spec size 0); [lia|]. cbn [orb negb].
  rewrite (wrap_id 64 (buf + size - 1)), (wrap_id 64 (buf - 1)) by (unfold urange; lia).
  destruct (Z.ltb_spec (buf + size - 1) (buf - 1)); [lia|]. cbn iota. wp_steps.
  eapply wp_mono; [by apply Hf|]. intros _ s1 (_ & H1 & H2 & H3). cbn in H1, H3. wp_steps. rewrite H1.
  replace (s32 (buf + Z.of_nat (length text) - buf)) with (s32 (Z.of_nat (length text))) by (f_equal; lia).
  unfold upto in H3. replace (Z.to_nat (buf + size - 1 + 1 - buf)) with (Z.to_nat size) in H3 by lia. unfold line.
  destruct (Z.leb_spec (buf + Z.of_nat (length text)) (buf + size - 1)).
  - wp_steps. split_and!; [done|done|]. intros x. cbn. destruct (Z.eqb_spec size 0); [lia|].
    rewrite take_ge by lia. rewrite <- stored_snoc. unfold put_byte. rewrite H3, take_ge by lia. done.
  - destruct (Z.ltb_spec 0 size).
    + wp_steps. split_and!; [done|done|]. intros x. cbn. destruct (Z.eqb_spec size 0); [lia|].
      assert (exists l c, take (Z.to_nat size) text = l ++ [c] /\ l = take (Z.to_nat (size - 1)) text) as (l & c & Htk & Hl).
      { destruct (lookup_lt_is_Some_2 text (Z.to_nat (size - 1))) as [c Hc]; [lia|]. exists (take (Z.to_nat (size - 1)) text), c.
        replace (Z.to_nat size) with (S (Z.to_nat (size - 1))) by lia. by rewrite (take_S_r _ _ c). }
      rewrite <- Hl. assert (Z.of_nat (length l) = size - 1) by (rewrite Hl, length_take; lia).
      unfold put_byte. case_decide as Hx.
      * subst x. rewrite stored_in by (rewrite length_app; cbn; lia). rewrite app_nth2 by lia.
        by replace (Z.to_nat (buf + size - 1 - buf) - length l)%nat with O by lia.
      * rewrite H3, Htk. rewrite !stored_app. rewrite !(stored_out (buf + _) [_]) by (cbn; lia). done.
    + wp_steps. split_and!; [done|done|]. intros x. destruct (Z.eqb_spec size 0); [|lia]. rewrite H3.
      by replace (Z.to_nat size) with O by lia.
Qed.
