(* ===== verification/VsprintfScan.v ===== *)
(** Reading numbers back: the [simple_strto*] functions on printed numerals, and
    [vsscanf] on texts that were printed with the same format. *)
From S2P Require Import Prelude CMonad Vsprintf VsprintfSpec VsprintfText.

(** * Numerals are read back *)

(** What follows a numeral does not continue it. *)
Definition stops (rest : list Z) : Prop := isxdigit (at0 rest) = false /\ toupper (at0 rest) <> c_X.

Lemma strtoul_loop_stops base n rest : stops rest -> strtoul_loop base n rest = (n, rest).
Proof. intros [Hr _]. destruct rest; [done|]. cbn [at0 hd] in Hr. cbn [strtoul_loop]. by rewrite Hr. Qed.

Lemma strtoull_loop_stops base n rest : stops rest -> strtoull_loop base n rest = (n, rest).
Proof. intros [Hr _]. destruct rest; [done|]. cbn [at0 hd] in Hr. cbn [strtoull_loop]. by rewrite Hr. Qed.

Lemma mul_div_lt n base : 2 <= base -> 0 < n -> 0 <= n / base * base <= n /\ n / base * base + n mod base = n /\ 0 <= n mod base < base.
Proof.
  intros Hb Hn. pose proof (Z.mod_pos_bound n base ltac:(lia)). pose proof (Z.div_mod n base ltac:(lia)).
  pose proof (Z.div_pos n base). nia.
Qed.

Lemma div_pow k base n : 2 <= base -> 0 <= n < 2 ^ Z.of_nat (S k) -> 0 <= n / base < 2 ^ Z.of_nat k.
Proof.
  intros Hb Hn. split; [apply Z.div_pos; lia|]. apply Z.div_lt_upper_bound; [lia|].
  rewrite Nat2Z.inj_succ, Z.pow_succ_r in Hn by lia. nia.
Qed.

(** The digits of [n] take the loop from 0 to [n]. *)
Lemma strtoul_digits k lg base : 2 <= base <= 16 -> forall n, 0 <= n < 2 ^ Z.of_nat k -> n < 2 ^ 64 -> forall rest,
  strtoul_loop base 0 (rev (revdigits k lg base n) ++ rest) = strtoul_loop base n rest.
Proof.
  intros Hb. induction k as [|k IH]; intros n Hn Hlt rest; [by assert (n = 0) as -> by (cbn in Hn; lia)|].
  cbn [revdigits]. destruct (Z.eqb_spec n 0) as [->|Hne]; [done|]. cbn [rev]. rewrite <- app_assoc. cbn [app].
  destruct (mul_div_lt n base) as (H1 & H2 & H3); [lia..|]. pose proof (div_pow k base n ltac:(lia) Hn).
  rewrite IH by nia. cbn [strtoul_loop]. destruct (digit_char_class lg (n mod base)) as (-> & -> & _); [lia|].
  destruct (Z.ltb_spec (n mod base) base); [|lia]. cbn [andb]. f_equal.
  rewrite (wrap_id 64 (n / base * base)), wrap_id by (unfold urange; lia). done.
Qed.

Lemma strtoull_digits k lg base : 2 <= base <= 16 -> forall n, 0 <= n < 2 ^ Z.of_nat k -> n < 2 ^ 64 -> forall rest,
  strtoull_loop base 0 (rev (revdigits k lg base n) ++ rest) = strtoull_loop base n rest.
Proof.
  intros Hb. induction k as [|k IH]; intros n Hn Hlt rest; [by assert (n = 0) as -> by (cbn in Hn; lia)|].
  cbn [revdigits]. destruct (Z.eqb_spec n 0) as [->|Hne]; [done|]. cbn [rev]. rewrite <- app_assoc. cbn [app].
  destruct (mul_div_lt n base) as (H1 & H2 & H3); [lia..|]. pose proof (div_pow k base n ltac:(lia) Hn).
  rewrite IH by nia. cbn [strtoull_loop]. destruct (digit_char_class lg (n mod base)) as (-> & _ & -> & _); [lia|].
  destruct (Z.ltb_spec (n mod base) base); [|lia]. cbn [andb]. f_equal.
  rewrite (wrap_id 64 (n / base * base)), wrap_id by (unfold urange; lia). done.
Qed.

(** The base a scan asks for and the base the numeral is written in. *)
Definition base_fits (base b : Z) : Prop := base = b /\ (b = 8 \/ b = 10 \/ b = 16) \/ base = 0 /\ b = 10.

(** What the code makes of the prefix of a numeral. *)
Lemma strtoul_base_numeral base b lg n rest : base_fits base b -> 0 <= n < 2 ^ 64 -> stops rest ->
  n <> 0 /\ strtoul_base (numeral lg b n ++ rest) base = (numeral lg b n ++ rest, b) \/
  n = 0 /\ (strtoul_base (numeral lg b n ++ rest) base = (c_zero :: rest, b) \/
            strtoul_base (numeral lg b n ++ rest) base = (rest, 8)).
Proof.
  intros Hb Hn [_ Hx]. assert (Hb2 : 2 <= b) by (destruct Hb as [[-> ?]|[_ ->]]; lia).
  destruct (Z.eq_dec n 0) as [->|Hne]; [right; split; [done|]|left; split; [done|]].
  - unfold numeral, strtoul_base. cbn [Z.eqb app at0 hd tail]. change (c_zero =? c_zero) with true. cbn [andb]. apply Z.eqb_neq in Hx.
    destruct Hb as [[-> [-> |[-> | ->]]]|[-> ->]]; cbn [Z.eqb Pos.eqb]; fold (at0 rest); rewrite ?Hx; by (left + right).
  - destruct (numeral_head lg b n Hb2 Hn) as (d & ds & Hd & Hpos & Heq). specialize (Hpos Hne).
    assert (Hc : (digit_char lg d =? c_zero) = false).
    { apply Z.eqb_neq. destruct (digit_char_class lg d) as (_ & _ & _ & _ & _ & _ & H & _); [destruct Hb as [[-> ?]|[_ ->]]; lia|]. apply H. lia. }
    unfold strtoul_base. rewrite Heq. cbn [app at0 hd]. rewrite Hc. cbn [andb].
    by destruct Hb as [[-> [-> |[-> | ->]]]|[-> ->]].
Qed.

Lemma simple_strtoul_numeral base b lg n rest : base_fits base b -> 0 <= n < 2 ^ 64 -> stops rest ->
  simple_strtoul (numeral lg b n ++ rest) base = (n, rest).
Proof.
  intros Hb Hn Hr. assert (Hb2 : 2 <= b <= 16) by (destruct Hb as [[-> ?]|[_ ->]]; lia). unfold simple_strtoul.
  destruct (strtoul_base_numeral base b lg n rest Hb Hn Hr) as [[Hne ->]|[-> [-> | ->]]].
  - unfold numeral. destruct (Z.eqb_spec n 0); [done|]. rewrite strtoul_digits by (cbn; lia). by apply strtoul_loop_stops.
  - cbn [strtoul_loop]. change (isxdigit c_zero) with true. change (digit_value c_zero) with 0.
    destruct (Z.ltb_spec 0 b); [|lia]. cbn [andb]. change (u64 (u64 (0 * b) + 0)) with 0. by apply strtoul_loop_stops.
  - by apply strtoul_loop_stops.
Qed.

Lemma simple_strtoull_numeral base b lg n rest : base_fits base b -> 0 <= n < 2 ^ 64 -> stops rest ->
  simple_strtoull (numeral lg b n ++ rest) base = (n, rest).
Proof.
  intros Hb Hn Hr. assert (Hb2 : 2 <= b <= 16) by (destruct Hb as [[-> ?]|[_ ->]]; lia). unfold simple_strtoull.
  destruct (strtoul_base_numeral base b lg n rest Hb Hn Hr) as [[Hne ->]|[-> [-> | ->]]].
  - unfold numeral. destruct (Z.eqb_spec n 0); [done|]. rewrite strtoull_digits by (cbn; lia). by apply strtoull_loop_stops.
  - cbn [strtoull_loop]. change (isxdigit c_zero) with true. change (digit_value_ll c_zero) with 0.
    destruct (Z.ltb_spec 0 b); [|lia]. cbn [andb]. change (u64 (u64 (0 * b) + 0)) with 0. by apply strtoull_loop_stops.
  - by apply strtoull_loop_stops.
Qed.

(** With a sign in front. *)
Definition signed_numeral (b v : Z) : list Z := sign_text v true false false ++ numeral false b (Z.abs v).

Lemma numeral_no_minus lg b n rest : 2 <= b <= 16 -> 0 <= n < 2 ^ 64 -> (at0 (numeral lg b n ++ rest) =? c_minus) = false.
Proof.
  intros Hb Hn. destruct (numeral_head lg b n) as (d & ds & Hd & _ & ->); [lia..|]. cbn [app at0 hd]. apply Z.eqb_neq.
  destruct (digit_char_class lg d) as (_ & _ & _ & _ & _ & H & _); [lia|]. unfold c_minus. lia.
Qed.

Lemma simple_strtol_numeral base b v rest : base_fits base b -> - 2 ^ 63 <= v < 2 ^ 63 -> stops rest ->
  simple_strtol (signed_numeral b v ++ rest) base = (v, rest).
Proof.
  intros Hb Hv Hr. assert (Hb2 : 2 <= b <= 16) by (destruct Hb as [[-> ?]|[_ ->]]; lia).
  unfold simple_strtol, signed_numeral, sign_text. destruct (Z.ltb_spec v 0); cbn [app].
  - cbn [at0 hd tail]. change (c_minus =? c_minus) with true. cbn iota. rewrite (simple_strtoul_numeral base b) by (done || lia).
    rewrite Z.abs_neq, Z.opp_involutive, s64_small by lia. done.
  - rewrite numeral_no_minus, (simple_strtoul_numeral base b) by (done || lia). rewrite Z.abs_eq, s64_small by lia. done.
Qed.

Lemma simple_strtoll_numeral base b v rest : base_fits base b -> - 2 ^ 63 <= v < 2 ^ 63 -> stops rest ->
  simple_strtoll (signed_numeral b v ++ rest) base = (v, rest).
Proof.
  intros Hb Hv Hr. assert (Hb2 : 2 <= b <= 16) by (destruct Hb as [[-> ?]|[_ ->]]; lia).
  unfold simple_strtoll, signed_numeral, sign_text. destruct (Z.ltb_spec v 0); cbn [app].
  - cbn [at0 hd tail]. change (c_minus =? c_minus) with true. cbn iota. rewrite (simple_strtoull_numeral base b) by (done || lia).
    rewrite Z.abs_neq, Z.opp_involutive, s64_small by lia. done.
  - rewrite numeral_no_minus, (simple_strtoull_numeral base b) by (done || lia). rewrite Z.abs_eq, s64_small by lia. done.
Qed.

(** * Scanning what was printed

    A number printed with a plain conversion, the pointer it is read through,
    and the character behind it. *)
Record item := mk_item { i_kind : ikind; i_qual : qualifier; i_arg : Z; i_ptr : Z; i_sep : Z }.

Definition i_value (i : item) : Z := int_value (i_kind i) (i_qual i) (i_arg i).
Definition i_conv (i : item) : piece :=
  Conv (mk_fields false false false false false Absent None (i_qual i)) (Int (i_kind i) (i_arg i)).
Definition pieces_of (items : list item) : list piece := concat ((fun i => [i_conv i; Lit (i_sep i)]) <$> items).

(** The type of the pointer a conversion asks for. *)
Definition ptr_type (k : ikind) (q : qualifier) : ptype :=
  match q with
  | QNone => if is_signed k then PtInt else PtUInt
  | Qh => if is_signed k then PtShort else PtUShort
  | Ql => if is_signed k then PtLong else PtULong
  | Qll | QL => if is_signed k then PtLLong else PtULLong
  | Qz | QZ => PtSize
  end.
Definition i_out (i : item) : varg := VOut (ptr_type (i_kind i) (i_qual i)) (i_ptr i).
Definition i_store (i : item) : Z * sval := (i_ptr i, SNum (i_value i)).

(** Separators that end a number. A size cannot be read back when it is
    printed with a minus sign. *)
Definition item_ok (i : item) : Prop :=
  0 < i_sep i < 256 /\ i_sep i <> c_pct /\ stops [i_sep i] /\ i_value i <> - 2 ^ 63 /\
  ((i_qual i = Qz \/ i_qual i = QZ) -> 0 <= i_value i).

Definition i_text (i : item) : list Z :=
  if is_signed (i_kind i) then signed_numeral (base_of (i_kind i)) (i_value i)
  else numeral (is_large (i_kind i)) (base_of (i_kind i)) (i_value i).

Lemma i_conv_text i : piece_text (i_conv i) = i_text i.
Proof.
  pose proof (int_value_range (i_kind i) (i_qual i) (i_arg i)) as Hr.
  unfold i_text, i_value, i_conv, signed_numeral. cbn [piece_text conv_text f_qual]. unfold width_of, prec_of, left_of. cbn [f_width f_left f_prec f_zero f_plus f_space f_special orb].
  unfold number_text, field, digits_text, prefix_text. rewrite app_nil_r. cbn [orb].
  rewrite (pad_none (-1 - _)) by lia. cbn [app].
  rewrite (pad_none (-1 - _ - _)) by lia. cbn [app].
  destruct (is_signed (i_kind i)) eqn:Hs; [|by rewrite Z.abs_eq by lia].
  by replace (is_large (i_kind i)) with false by (destruct (i_kind i); done).
Qed.

Lemma i_text_head i : let h := at0 (i_text i) in (h =? 0) = false /\ isspace h = false /\ (exists l, i_text i = h :: l).
Proof.
  pose proof (int_value_range (i_kind i) (i_qual i) (i_arg i)) as Hr. fold (i_value i) in Hr.
  assert (Hn : forall lg n, 0 <= n < 2 ^ 64 -> let h := at0 (numeral lg (base_of (i_kind i)) n) in
    (h =? 0) = false /\ isspace h = false /\ exists l, numeral lg (base_of (i_kind i)) n = h :: l).
  { intros lg n Hn. destruct (numeral_head lg (base_of (i_kind i)) n) as (d & ds & Hd & _ & ->); [destruct (i_kind i); cbn; lia|lia|].
    cbn [at0 hd]. destruct (digit_char_class lg d) as (_ & _ & _ & _ & H5 & H6 & _); [destruct (i_kind i); cbn in Hd; lia|].
    split_and!; [apply Z.eqb_neq; lia|done|by eexists]. }
  unfold i_text, signed_numeral, sign_text. destruct (is_signed (i_kind i)); [|apply Hn; lia].
  destruct (i_value i <? 0); cbn [app]; [|apply Hn; lia]. split_and!; [done|done|by eexists].
Qed.

(** The base a conversion character asks for. *)
Definition scan_base (k : ikind) : Z := match k with Ki => 0 | _ => base_of k end.

Lemma scan_base_fits k : base_fits (scan_base k) (base_of k).
Proof. destruct k; cbn; unfold base_fits; lia. Qed.

Lemma int_value_idem k q v : let w := match q with QNone => 32 | Qh => 16 | _ => 64 end in
  (if is_signed k then swrap w else wrap w) (int_value k q v) = int_value k q v.
Proof.
  unfold int_value. destruct (is_signed k); [destruct q; by rewrite swrap_swrap by lia|destruct q; by rewrite wrap_idem by lia].
Qed.

Section Scan.
Implicit Types (s : prt).

Definition stored_num (args : list varg) (i : item) (s s' : prt) : Prop :=
  p_args s' = args /\ p_outs s' = i_store i :: p_outs s /\ p_mem s' = p_mem s.

Lemma wp_store t a v (r : list Z) args s : p_args s = VOut t a :: args ->
  wp no_fault (x ← va_out t; store_out x v;; mret r)
    (fun next s' => next = r /\ p_args s' = args /\ p_outs s' = (a, v) :: p_outs s /\ p_mem s' = p_mem s) s.
Proof using.
  intros Hs. unfold va_out, va_arg. wp_steps. rewrite Hs. wp_steps. destruct (decide (t = t)); [|done]. unfold store_out. by wp_steps.
Qed.

Lemma scan_number_item i rest args s : item_ok i -> stops rest -> p_args s = i_out i :: args ->
  wp no_fault (scan_number (qual_code (i_qual i)) (scan_base (i_kind i)) (is_signed (i_kind i)) (i_text i ++ rest))
    (fun next s' => next = rest /\ stored_num args i s s') s.
Proof using.
  intros (_ & _ & _ & _ & Hz) Hr Hs.
  pose proof (int_value_range (i_kind i) (i_qual i) (i_arg i)) as Hv. pose proof (int_value_idem (i_kind i) (i_qual i) (i_arg i)) as Hid. cbn zeta in Hid.
  fold (i_value i) in Hv, Hid. pose proof (scan_base_fits (i_kind i)) as Hb. unfold i_out in Hs. unfold stored_num, i_store.
  assert (Hl : is_signed (i_kind i) = true -> simple_strtol (i_text i ++ rest) (scan_base (i_kind i)) = (i_value i, rest) /\
    simple_strtoll (i_text i ++ rest) (scan_base (i_kind i)) = (i_value i, rest)).
  { intros Hsg. unfold i_text. rewrite Hsg in *. split; [by apply simple_strtol_numeral|by apply simple_strtoll_numeral]. }
  assert (Hu : is_signed (i_kind i) = false \/ 0 <= i_value i -> simple_strtoul (i_text i ++ rest) (scan_base (i_kind i)) = (i_value i, rest)).
  { intros Hsg. unfold i_text, signed_numeral, sign_text. destruct (is_signed (i_kind i)).
    - destruct Hsg as [|Hsg]; [done|]. destruct (Z.ltb_spec (i_value i) 0); [lia|]. cbn [app]. rewrite Z.abs_eq by done. apply simple_strtoul_numeral; [done|lia|done].
    - by apply simple_strtoul_numeral. }
  assert (Hll : is_signed (i_kind i) = false -> simple_strtoull (i_text i ++ rest) (scan_base (i_kind i)) = (i_value i, rest)).
  { intros Hsg. unfold i_text. rewrite Hsg in *. by apply simple_strtoull_numeral. }
  unfold scan_number, ptr_type in *. destruct (i_qual i); cbn [qual_code]; char_tests.
  6-7: rewrite Hu by (right; apply Hz; by (left + right)); cbn [fst snd id]; by apply wp_store.
  all: destruct (is_signed (i_kind i)); [rewrite ?(proj1 (Hl eq_refl)), ?(proj2 (Hl eq_refl))|rewrite ?Hu by (by left); rewrite ?Hll by done];
    cbn [fst snd id]; rewrite ?Hid; by apply wp_store.
Qed.

Lemma digit_accepted k lg d : 0 <= d < base_of k -> no_number (scan_base k) (digit_char lg d) = false.
Proof using.
  intros Hd. apply negb_true_iff. destruct k, lg; cbn [base_of] in Hd; for_below Hd.
Qed.

Lemma numeral_digit k lg n : 0 <= n < 2 ^ 64 -> exists d l, 0 <= d < base_of k /\ numeral lg (base_of k) n = digit_char lg d :: l.
Proof using.
  intros Hn. destruct (numeral_head lg (base_of k) n) as (d & l & H1 & _ & H2); [destruct k; cbn; lia|lia|]. by exists d, l.
Qed.

(** The test before the conversion lets a printed number through. *)
Lemma item_accepted i rest : let str := i_text i ++ rest in let digit := at0 str in
  no_number (scan_base (i_kind i)) (if is_signed (i_kind i) && (digit =? c_minus) then at0 (tail str) else digit) = false.
Proof using.
  pose proof (int_value_range (i_kind i) (i_qual i) (i_arg i)) as Hr. fold (i_value i) in Hr. cbn zeta.
  unfold i_text, signed_numeral, sign_text. destruct (is_signed (i_kind i)) eqn:Hs; cbn [andb].
  - destruct (numeral_digit (i_kind i) false (Z.abs (i_value i))) as (d & l & Hd & ->); [lia|].
    destruct (i_value i <? 0); cbn [app at0 hd tail]; [by apply digit_accepted|].
    assert ((digit_char false d =? c_minus) = false) as ->; [|by apply digit_accepted].
    apply Z.eqb_neq. destruct (digit_char_class false d) as (_ & _ & _ & _ & _ & H & _); [destruct (i_kind i); cbn in Hd; lia|]. unfold c_minus. lia.
  - destruct (numeral_digit (i_kind i) (is_large (i_kind i)) (i_value i)) as (d & l & Hd & ->); [lia|]. by apply digit_accepted.
Qed.

Lemma skip_space_text i rest : skip_space (i_text i ++ rest) = i_text i ++ rest.
Proof using.
  destruct (i_text_head i) as (_ & Hs & l & Hl). rewrite Hl in *. cbn [app skip_space]. cbn [at0 hd] in *. by rewrite Hs.
Qed.

Lemma scan_int_item i rest args s : item_ok i -> stops rest -> p_args s = i_out i :: args ->
  wp no_fault (scan_int (qual_code (i_qual i)) (scan_base (i_kind i)) (is_signed (i_kind i)) (i_text i ++ rest))
    (fun r s' => r = Next rest 1 /\ stored_num args i s s') s.
Proof using.
  intros Hi Hr Hs. unfold scan_int. rewrite skip_space_text. rewrite item_accepted. wp_steps.
  eapply wp_mono; [by apply scan_number_item|]. intros next s' [-> H]. by wp_steps.
Qed.

Lemma scan_qualifier_fmt q k X : scan_qualifier (qual_fmt q ++ kind_char k :: X) = (qual_code q, kind_char k :: X).
Proof using. destruct q, k; by cbn. Qed.

Lemma scan_conv_kind blen fw q k str : scan_conv blen fw q (kind_char k) str = scan_int q (scan_base k) (is_signed k) str.
Proof using. unfold scan_conv. destruct k; cbn [kind_char]; by char_tests. Qed.

Lemma kind_head q k X : let h := at0 (qual_fmt q ++ kind_char k :: X) in isdigit h = false /\ (h =? c_star) = false.
Proof using. destruct q, k; intros h; split; reflexivity. Qed.

(** One conversion of the format. *)
Lemma scan_item i fuel blen F X num args Q s : item_ok i -> stops X -> p_args s = i_out i :: args ->
  (forall s', stored_num args i s s' -> wp no_fault (scan fuel blen F X (num + 1)) Q s') ->
  wp no_fault (scan (S fuel) blen (piece_fmt (i_conv i) ++ F) (i_text i ++ X) num) Q s.
Proof using.
  intros Hi Hr Hs HQ. destruct (i_text_head i) as (H0 & _ & l & Hl).
  assert (Ha : (at0 (i_text i ++ X) =? 0) = false) by (rewrite Hl in *; done).
  change (piece_fmt (i_conv i) ++ F) with (c_pct :: (qual_fmt (i_qual i) ++ [kind_char (i_kind i)]) ++ F). rewrite <- app_assoc. cbn [app].
  destruct (kind_head (i_qual i) (i_kind i) F) as [Hk1 Hk2]. unfold at0 in Ha, Hk1, Hk2.
  cbn [scan]. unfold at0. rewrite Ha. cbn [hd tail]. change (c_pct =? 0) with false. change (isspace c_pct) with false. cbn [orb hd tail].
  change (c_pct =? 0) with false. change (c_pct =? c_pct) with true. cbn [negb].
  rewrite Hk1, Hk2. wp_steps. rewrite scan_qualifier_fmt. cbn [hd tail]. rewrite Ha.
  replace (kind_char (i_kind i) =? 0) with false by (destruct (i_kind i); done). cbn [orb]. wp_steps. rewrite scan_conv_kind.
  eapply wp_mono; [by apply scan_int_item|]. intros r s' [-> H]. by apply HQ.
Qed.

(** The separator behind it. *)
Lemma scan_sep fuel blen c F X num : 0 < c < 256 -> c <> c_pct ->
  (F = [] \/ at0 F = c_pct /\ isspace (at0 X) = false /\ at0 X <> 0) ->
  exists fuel', (fuel <= fuel')%nat /\ forall s, scan (S fuel) blen (c :: F) (c :: X) num s = scan fuel' blen F X num s.
Proof using.
  intros Hc Hp HF. destruct (isspace c) eqn:Hsp.
  - exists (S fuel). split; [lia|]. intros s. destruct HF as [->|(H1 & H2 & H3)].
    + cbn [scan at0 hd]. destruct (Z.eqb_spec c 0); [lia|]. cbn [orb]. rewrite Hsp. cbn [skip_space]. by rewrite Hsp.
    + assert (Hs1 : forall l, isspace (at0 l) = false -> skip_space l = l).
      { intros [|d l] Hd; [done|]. cbn [at0 hd] in Hd. cbn [skip_space]. by rewrite Hd. }
      assert (Hs2 : isspace (at0 F) = false) by (rewrite H1; reflexivity).
      assert (Hz : (at0 X =? 0) = false) by by apply Z.eqb_neq.
      cbn [scan]. change (at0 (c :: F)) with c. change (at0 (c :: X)) with c. destruct (Z.eqb_spec c 0); [lia|]. cbn [orb].
      rewrite Hsp, Hs2, Hz. cbn [skip_space]. rewrite Hsp, (Hs1 F), (Hs1 X) by done. rewrite H1, Hz. reflexivity.
  - exists fuel. split; [lia|]. intros s. cbn [scan]. change (at0 (c :: F)) with c. change (at0 (c :: X)) with c.
    destruct (Z.eqb_spec c 0); [lia|]. cbn [orb]. rewrite Hsp. change (at0 (c :: F)) with c. change (at0 (c :: X)) with c.
    destruct (Z.eqb_spec c 0); [lia|]. destruct (Z.eqb_spec c c_pct); [done|]. cbn [negb]. by rewrite Z.eqb_refl.
Qed.
End Scan.

(** ** A whole format *)

Lemma fmt_of_item i items : fmt_of (pieces_of (i :: items)) = piece_fmt (i_conv i) ++ i_sep i :: fmt_of (pieces_of items).
Proof. reflexivity. Qed.

Lemma text_of_item i items : text_of (pieces_of (i :: items)) = i_text i ++ i_sep i :: text_of (pieces_of items).
Proof. change (text_of (pieces_of (i :: items))) with (piece_text (i_conv i) ++ i_sep i :: text_of (pieces_of items)). by rewrite i_conv_text. Qed.

Lemma scan_items items : Forall item_ok items -> forall fuel blen num s, (length (fmt_of (pieces_of items)) <= fuel)%nat ->
  p_args s = i_out <$> items ->
  wp no_fault (scan fuel blen (fmt_of (pieces_of items)) (text_of (pieces_of items)) num) (fun n s' =>
    n = num + Z.of_nat (length items) /\ p_outs s' = rev (i_store <$> items) ++ p_outs s) s.
Proof.
  induction 1 as [|i items Hi Hrest IH]; intros fuel blen num s Hf Hs.
  - destruct fuel; cbn; split; [lia|done|lia|done].
  - rewrite fmt_of_item in *. rewrite text_of_item. destruct fuel as [|fuel]; [rewrite length_app in Hf; cbn in Hf; lia|].
    pose proof Hi as (Hc1 & Hc2 & Hc3 & _).
    apply (scan_item i fuel blen _ _ num (i_out <$> items)); [done|exact Hc3|done|]. intros s1 (H1 & H2 & _).
    rewrite length_app in Hf. cbn [length] in Hf.
    assert (2 <= length (piece_fmt (i_conv i)))%nat by (cbn; rewrite length_app; cbn; lia).
    destruct fuel as [|fuel]; [lia|].
    destruct (scan_sep fuel blen (i_sep i) (fmt_of (pieces_of items)) (text_of (pieces_of items)) (num + 1)) as (fuel' & Hf' & Heq); [done..| |].
    { destruct items as [|j items]; [by left|right]. rewrite text_of_item. destruct (i_text_head j) as (H0 & Hsp & l & Hl).
      apply Z.eqb_neq in H0. split_and!; [done|by rewrite Hl in *..]. }
    unfold wp. rewrite Heq. eapply (wp_mono no_fault); [apply IH; [lia|done]|].
    intros n s2 (-> & Ho). split; [cbn [length]; lia|]. rewrite Ho, H2. cbn [fmap list_fmap rev]. by rewrite <- app_assoc.
Qed.

Lemma item_pieces_ok items : Forall item_ok items -> Forall piece_ok (pieces_of items).
Proof.
  induction 1 as [|i items (H1 & H2 & _ & H4 & _) _ IH]; [constructor|]. constructor; [done|]. constructor; [|done].
  split; [lia|done].
Qed.
