(* ===== verification/Tlsf.v ===== *)
(** The memory allocator (xen/common/xmalloc_tlsf.c): pools of memory with
    free lists segregated in two levels ("two-level segregate fit"), and
    [_xmalloc] and [xfree], from which the entries of the cache come. *)
From S2P Require Import Prelude CMonad.

(** * Words and bits

    Memory is a function from addresses to words; a field of a header is the
    word at its address. [ffs] and [fls] are those of asm-x86/bitops.h. *)

Fixpoint pos_ffs (p : positive) : Z :=
  match p with xO q => pos_ffs q + 1 | _ => 1 end.
Definition ffs (x : Z) : Z := match x with Zpos p => pos_ffs p | _ => 0 end.
Definition fls (x : Z) : Z := if x =? 0 then 0 else Z.log2 x + 1.

(** [get_order_from_bytes] of asm-x86/page.h: the pages that hold [size] bytes, as
    a power of two; the bound is the width of the argument. *)
Fixpoint order_loop (n : nat) (size order : Z) : Z :=
  match n with
  | O => order
  | S n => if size =? 0 then order else order_loop n (Z.shiftr size 1) (order + 1)
  end.
Definition PAGE_SHIFT : Z := 12.
Definition TLSF_PAGE_SIZE : Z := 4096.
Definition get_order_from_bytes (size : Z) : Z := order_loop 64 (Z.shiftr (u64 (size - 1)) PAGE_SHIFT) 0.

Definition TLSF_MEM_ALIGN : Z := 16.
Definition MAX_FLI : Z := 30.
Definition MAX_LOG2_SLI : Z := 5.
Definition MAX_SLI : Z := Z.shiftl 1 MAX_LOG2_SLI.
Definition FLI_OFFSET : Z := 6.
Definition SMALL_BLOCK : Z := 128.
Definition REAL_FLI : Z := MAX_FLI - FLI_OFFSET.
Definition MIN_BLOCK_SIZE : Z := 16.
Definition SIZEOF_BHDR : Z := 32.
Definition BHDR_OVERHEAD : Z := SIZEOF_BHDR - MIN_BLOCK_SIZE.
Definition PTR_MASK : Z := 8 - 1.
Definition BLOCK_SIZE_MASK : Z := 0xFFFFFFFF - PTR_MASK.
Definition FREE_BLOCK : Z := 1.
Definition USED_BLOCK : Z := 0.
Definition PREV_FREE : Z := 2.
Definition PREV_USED : Z := 0.
Definition PREV_STATE : Z := 2.

(** [GET_NEXT_BLOCK (b->ptr.buffer, r)]. *)
Definition GET_NEXT_BLOCK (b r : Z) : Z := u64 (b + BHDR_OVERHEAD + r).
Definition ROUNDUP_SIZE (r : Z) : Z := Z.land (u64 (r + TLSF_MEM_ALIGN - 1)) (Z.lnot (TLSF_MEM_ALIGN - 1)).
Definition ROUNDDOWN_SIZE (r : Z) : Z := Z.land r (Z.lnot (TLSF_MEM_ALIGN - 1)).
Definition ROUNDUP_PAGE (r : Z) : Z := Z.land (u64 (r + TLSF_PAGE_SIZE - 1)) (Z.lnot (TLSF_PAGE_SIZE - 1)).

(** The list a request of [r] bytes is looked up from, and the size it is
    rounded up to. *)
Definition MAPPING_SEARCH (r : Z) : Z * Z * Z :=
  if r <? SMALL_BLOCK then (r, 0, r / (SMALL_BLOCK / MAX_SLI))
  else
    let t := s32 (s32 (Z.shiftl 1 (fls r - 1 - MAX_LOG2_SLI)) - 1) in
    let r := u64 (r + t) in
    let fl := fls r - 1 in
    let sl := Z.shiftr r (fl - MAX_LOG2_SLI) - MAX_SLI in
    (Z.land r (Z.lnot t), fl - FLI_OFFSET, sl).

(** The list a block of [r] bytes belongs to. *)
Definition MAPPING_INSERT (r : Z) : Z * Z :=
  if r <? SMALL_BLOCK then (0, r / (SMALL_BLOCK / MAX_SLI))
  else
    let fl := fls r - 1 in
    (fl - FLI_OFFSET, Z.shiftr r (fl - MAX_LOG2_SLI) - MAX_SLI).

(** * The state *)

(** The functions a pool gets its memory with: [xmalloc_pool_get] and
    [xmalloc_pool_put], or those of another user of pools. *)
Inductive provider := XmallocPool | UserPool (k : Z).

Record xmem_pool := mk_pool {
  fl_bitmap : Z;
  sl_bitmap : list Z;
  matrix : list (list Z);
  init_size : Z;
  max_size : Z;
  grow_size : Z;
  used_size : Z;
  num_regions : Z;
  p_provider : provider;     (** [get_mem] and [put_mem] *)
  init_region : Z;
  p_name : string;
}.
#[export] Instance eta_pool : Eta xmem_pool := fun r =>
  mk_pool (fl_bitmap r) (sl_bitmap r) (matrix r) (init_size r) (max_size r) (grow_size r) (used_size r)
    (num_regions r) (p_provider r) (init_region r) (p_name r).

(** Memory, the runs of memory that were obtained and not returned (address
    and bytes), the pools at their addresses, [pool_list_head] once it is
    initialised, [xenpool], and the number of requests for memory so far. *)
Record tlsf := mk_tlsf {
  h_mem : Z -> Z;
  h_runs : gmap Z Z;
  h_pools : gmap Z xmem_pool;
  pool_list_head : option (list Z);
  xenpool : Z;
  h_asked : nat;
}.
#[export] Instance eta_tlsf : Eta tlsf := fun r =>
  mk_tlsf (h_mem r) (h_runs r) (h_pools r) (pool_list_head r) (xenpool r) (h_asked r).

(** The page allocator ([alloc_xenheap_pages] answers an address or 0), the
    memory functions of other users of pools, and the size of the pool
    structure, which depends on the configuration. *)
Record TlsfEnv := mk_tlsf_env {
  te_pages : gmap Z Z -> nat -> Z -> Z;
  te_user : gmap Z Z -> nat -> Z -> Z -> Z;
  te_pool_size : Z;
}.

Definition upd (m : Z -> Z) (a v : Z) : Z -> Z := fun x => if decide (x = a) then v else m x.

(** [a] is the address of a word of a run. *)
Definition in_run (a : Z) (r : Z * Z) : bool := (r.1 <=? a) && (a + 8 <=? r.1 + r.2).
Definition mapped (s : tlsf) (a : Z) : bool := existsb (in_run a) (map_to_list (h_runs s)).

Section Tlsf.
Context (env : TlsfEnv).
Abbreviation T := (M tlsf).
Implicit Types (a b pa fl sl size region : Z).

(** * Access *)

Definition bad_access a : fault := if a <? TLSF_PAGE_SIZE then NullDeref else OutOfBounds.
Definition load a : T Z := fun s => if mapped s a then Ret (h_mem s a) s else Fault (bad_access a).
Definition store a (v : Z) : T unit := fun s =>
  if mapped s a then Ret tt (s <| h_mem ::= fun m => upd m a v |>) else Fault (bad_access a).

(** The fields of [struct bhdr]. *)
Definition f_prev_hdr b := b.
Definition f_size b := b + 8.
Definition f_free_prev b := b + 16.
Definition f_free_next b := b + 24.

Definition pool_read pa : T xmem_pool := fun s =>
  match h_pools s !! pa with Some p => Ret p s | None => Fault (if pa =? 0 then NullDeref else UseAfterFree) end.
Definition pool_write pa (f : xmem_pool -> xmem_pool) : T unit := modify (fun s => s <| h_pools ::= alter f pa |>).

(** An element of an array. *)
Definition arr {A} (l : list A) (i : Z) : T A := fun s =>
  match (if 0 <=? i then l !! Z.to_nat i else None) with Some x => Ret x s | None => Fault OutOfBounds end.

Definition matrix_at pa fl sl : T Z :=
  p ← pool_read pa;
  row ← arr (matrix p) fl;
  arr row sl.
Definition set_matrix pa fl sl (v : Z) : T unit :=
  _ ← matrix_at pa fl sl;
  pool_write pa (fun p => p <| matrix ::= alter (fun row => <[Z.to_nat sl := v]> row) (Z.to_nat fl) |>).

(** * Free lists *)

Definition FIND_SUITABLE_BLOCK pa fl sl : T (Z * Z * Z) :=
  p ← pool_read pa;
  w ← arr (sl_bitmap p) fl;
  let tmp := Z.land w (u32 (Z.shiftl (-1) sl)) in
  if negb (tmp =? 0) then
    let sl := ffs tmp - 1 in
    b ← matrix_at pa fl sl;
    mret (b, fl, sl)
  else
    let fl := ffs (Z.land (fl_bitmap p) (u32 (Z.shiftl (-1) (fl + 1)))) - 1 in
    if 0 <? fl then
      w ← arr (sl_bitmap p) fl;
      let sl := ffs w - 1 in
      b ← matrix_at pa fl sl;
      mret (b, fl, sl)
    else mret (0, fl, sl).

(** [clear_bit] on a second-level word, and on the first level when the word
    becomes zero. *)
Definition clear_bits pa fl sl : T unit :=
  p ← pool_read pa;
  w ← arr (sl_bitmap p) fl;
  let w := Z.clearbit w sl in
  pool_write pa (fun p => p <| sl_bitmap ::= <[Z.to_nat fl := w]> |>);;
  if w =? 0 then pool_write pa (fun p => p <| fl_bitmap ::= fun f => Z.clearbit f fl |>) else mret tt.

Definition EXTRACT_BLOCK_HDR b pa fl sl : T unit :=
  n ← load (f_free_next b);
  set_matrix pa fl sl n;;
  (if negb (n =? 0) then store (f_free_prev n) 0 else clear_bits pa fl sl);;
  store (f_free_prev b) 0;;
  store (f_free_next b) 0.

Definition EXTRACT_BLOCK b pa fl sl : T unit :=
  n ← load (f_free_next b);
  (if negb (n =? 0) then p ← load (f_free_prev b); store (f_free_prev n) p else mret tt);;
  p ← load (f_free_prev b);
  (if negb (p =? 0) then n ← load (f_free_next b); store (f_free_next p) n else mret tt);;
  h ← matrix_at pa fl sl;
  (if h =? b then
     n ← load (f_free_next b);
     set_matrix pa fl sl n;;
     if n =? 0 then clear_bits pa fl sl else mret tt
   else mret tt);;
  store (f_free_prev b) 0;;
  store (f_free_next b) 0.

Definition INSERT_BLOCK b pa fl sl : T unit :=
  h ← matrix_at pa fl sl;
  store (f_free_prev b) 0;;
  store (f_free_next b) h;;
  (if negb (h =? 0) then store (f_free_prev h) b else mret tt);;
  set_matrix pa fl sl b;;
  p ← pool_read pa;
  w ← arr (sl_bitmap p) fl;
  pool_write pa (fun p => p <| sl_bitmap ::= <[Z.to_nat fl := Z.setbit w sl]> |> <| fl_bitmap ::= fun f => Z.setbit f fl |>).

Definition ADD_REGION region (region_size : Z) pa : T unit :=
  store (f_prev_hdr region) 0;;
  store (f_size region) (u32 (Z.lor (Z.lor (ROUNDDOWN_SIZE (u64 (region_size - 2 * BHDR_OVERHEAD))) FREE_BLOCK) PREV_USED));;
  bsize ← load (f_size region);
  let '(fl, sl) := MAPPING_INSERT (Z.land bsize BLOCK_SIZE_MASK) in
  INSERT_BLOCK region pa fl sl;;
  bsize ← load (f_size region);
  let lb := GET_NEXT_BLOCK region (Z.land bsize BLOCK_SIZE_MASK) in
  store (f_prev_hdr lb) region;;
  store (f_size lb) (Z.lor (Z.lor 0 USED_BLOCK) PREV_FREE);;
  pool_write pa (fun p => p <| used_size ::= fun u => u64 (u + BHDR_OVERHEAD) |>
                            <| num_regions ::= fun n => u64 (n + 1) |>).

(** * Memory for pools *)

(** A run of memory comes in, or goes back. *)
Definition take_run a (bytes : Z) : T Z :=
  (if a =? 0 then mret tt else modify (fun s => s <| h_runs ::= <[a := bytes]> |>));;
  mret a.
Definition drop_run a (bytes : option Z) : T unit := fun s =>
  match h_runs s !! a with
  | Some n => if decide (default n bytes = n) then Ret tt (s <| h_runs ::= delete a |>) else Fault OutOfBounds
  | None => Fault UseAfterFree
  end.

Definition tick : T nat :=
  n ← gets h_asked;
  modify (fun s => s <| h_asked ::= S |>);;
  mret n.

Definition alloc_xenheap_pages (order : Z) : T Z :=
  n ← tick;
  runs ← gets h_runs;
  take_run (te_pages env runs n order) (TLSF_PAGE_SIZE * 2 ^ order).
Definition free_xenheap_pages a (order : Z) : T unit :=
  if a =? 0 then mret tt else drop_run a (Some (TLSF_PAGE_SIZE * 2 ^ order)).

Definition xmalloc_pool_get size : T Z :=
  if negb (size =? TLSF_PAGE_SIZE) then raise BugOn else alloc_xenheap_pages 0.
Definition xmalloc_pool_put a : T unit := free_xenheap_pages a 0.

Definition get_mem (f : provider) size : T Z :=
  match f with
  | XmallocPool => xmalloc_pool_get size
  | UserPool k =>
      n ← tick;
      runs ← gets h_runs;
      take_run (te_user env runs n k size) size
  end.
Definition put_mem (f : provider) a : T unit :=
  match f with
  | XmallocPool => xmalloc_pool_put a
  | UserPool _ => drop_run a None
  end.

(** * Pools *)

Definition xmem_pool_create (name : string) (f : provider) (init max grow : Z) : T Z :=
  if negb (max =? 0) && (max <? init) then raise BugOn
  else
    let pool_bytes := s32 (ROUNDUP_SIZE (te_pool_size env)) in
    let pool_order := get_order_from_bytes pool_bytes in
    pool ← alloc_xenheap_pages pool_order;
    if pool =? 0 then mret 0
    else
      modify (fun s => s <| h_pools ::= <[pool :=
        mk_pool 0 (replicate (Z.to_nat REAL_FLI) 0)
          (replicate (Z.to_nat REAL_FLI) (replicate (Z.to_nat MAX_SLI) 0))
          (ROUNDUP_PAGE init) (ROUNDUP_PAGE max) (ROUNDUP_PAGE grow) 0 0 f 0 (String.substring 0 15 name)]> |>);;
      pools ← gets pool_list_head;
      match pools with
      | None => raise NullDeref
      | Some l => modify (fun s => s <| pool_list_head := Some (l ++ [pool]) |>)
      end;;
      mret pool.

Definition xmem_pool_get_used_size pa : T Z :=
  p ← pool_read pa;
  mret (used_size p).

Definition xmem_pool_get_total_size pa : T Z :=
  p ← pool_read pa;
  mret (u64 (ROUNDUP_SIZE (te_pool_size env) + init_size p + (num_regions p - 1) * grow_size p)).

Definition xmem_pool_destroy pa : T unit :=
  if pa =? 0 then mret tt
  else
    used ← xmem_pool_get_used_size pa;
    (if used =? BHDR_OVERHEAD then
       p ← pool_read pa;
       if negb (init_region p =? 0) then raise BugOn
       else pool_write pa (fun p => p <| used_size ::= fun u => u64 (u - BHDR_OVERHEAD) |>)
     else mret tt);;
    modify (fun s => s <| pool_list_head ::= fmap (filter (fun x => x <> pa)) |>);;
    modify (fun s => s <| h_pools ::= delete pa |>);;
    free_xenheap_pages pa (get_order_from_bytes (s32 (ROUNDUP_SIZE (te_pool_size env)))).

(** From [retry_find]: a block of at least [size] bytes, when need be after
    the pool has grown, with the rounded size and the list it is on. *)
Fixpoint find_block (fuel : nat) pa size : T (option (Z * Z * Z * Z)) :=
  match fuel with
  | O => nofuel
  | S fuel =>
      let '(size, fl, sl) := MAPPING_SEARCH size in
      '(b, fl, sl) ← FIND_SUITABLE_BLOCK pa fl sl;
      if negb (b =? 0) then mret (Some (b, size, fl, sl))
      else
        p ← pool_read pa;
        if u64 (grow_size p - 2 * BHDR_OVERHEAD) <? size then mret None
        else if negb (max_size p =? 0) && (max_size p <? u64 (init_size p + num_regions p * grow_size p)) then mret None
        else
          region ← get_mem (p_provider p) (grow_size p);
          if region =? 0 then mret None
          else
            ADD_REGION region (grow_size p) pa;;
            find_block fuel pa size
  end.
Definition retries : nat := 2.

(** From [found]: [b] comes off its list, and what is left of it becomes a
    block of its own. *)
Definition take_block b size fl sl pa : T Z :=
  EXTRACT_BLOCK_HDR b pa fl sl;;
  bsize ← load (f_size b);
  let next_b := GET_NEXT_BLOCK b (Z.land bsize BLOCK_SIZE_MASK) in
  let tmp_size := u64 (Z.land bsize BLOCK_SIZE_MASK - size) in
  (if SIZEOF_BHDR <=? tmp_size then
     let tmp_size := u64 (tmp_size - BHDR_OVERHEAD) in
     let b2 := GET_NEXT_BLOCK b size in
     store (f_size b2) (u32 (Z.lor (Z.lor tmp_size FREE_BLOCK) PREV_USED));;
     store (f_prev_hdr b2) b;;
     store (f_prev_hdr next_b) b2;;
     (let '(fl, sl) := MAPPING_INSERT tmp_size in INSERT_BLOCK b2 pa fl sl);;
     bsize ← load (f_size b);
     store (f_size b) (u32 (Z.lor size (Z.land bsize PREV_STATE)))
   else
     nsize ← load (f_size next_b);
     store (f_size next_b) (Z.land nsize (Z.lnot PREV_FREE));;
     bsize ← load (f_size b);
     store (f_size b) (Z.land bsize (Z.lnot FREE_BLOCK)));;
  bsize ← load (f_size b);
  pool_write pa (fun p => p <| used_size ::= fun u => u64 (u + (Z.land bsize BLOCK_SIZE_MASK + BHDR_OVERHEAD)) |>);;
  mret (b + 16).

Definition xmem_pool_alloc size pa : T Z :=
  p ← pool_read pa;
  ready ← (if init_region p =? 0 then
             region ← get_mem (p_provider p) (init_size p);
             if region =? 0 then mret false
             else
               ADD_REGION region (init_size p) pa;;
               pool_write pa (fun p => p <| init_region := region |>);;
               mret true
           else mret true);
  if negb ready then mret 0
  else
    let size := if size <? MIN_BLOCK_SIZE then MIN_BLOCK_SIZE else ROUNDUP_SIZE size in
    found ← find_block retries pa size;
    match found with
    | None => mret 0
    | Some (b, size, fl, sl) => take_block b size fl sl pa
    end.

(** The block after [b] is taken in when it is free. *)
Definition merge_next b pa : T unit :=
  bsize ← load (f_size b);
  let tmp_b := GET_NEXT_BLOCK b (Z.land bsize BLOCK_SIZE_MASK) in
  tsize ← load (f_size tmp_b);
  if negb (Z.land tsize FREE_BLOCK =? 0) then
    let '(fl, sl) := MAPPING_INSERT (Z.land tsize BLOCK_SIZE_MASK) in
    EXTRACT_BLOCK tmp_b pa fl sl;;
    tsize ← load (f_size tmp_b);
    bsize ← load (f_size b);
    store (f_size b) (u32 (bsize + (Z.land tsize BLOCK_SIZE_MASK + BHDR_OVERHEAD)))
  else mret tt.

(** [b] is taken in by the block before it when that is free. *)
Definition merge_prev b pa : T Z :=
  bsize ← load (f_size b);
  if negb (Z.land bsize PREV_FREE =? 0) then
    tmp_b ← load (f_prev_hdr b);
    tsize ← load (f_size tmp_b);
    (let '(fl, sl) := MAPPING_INSERT (Z.land tsize BLOCK_SIZE_MASK) in EXTRACT_BLOCK tmp_b pa fl sl);;
    tsize ← load (f_size tmp_b);
    bsize ← load (f_size b);
    store (f_size tmp_b) (u32 (tsize + (Z.land bsize BLOCK_SIZE_MASK + BHDR_OVERHEAD)));;
    mret tmp_b
  else mret b.

(** The free block [b] goes on its list, or its region back to the provider
    when the block is all of it. *)
Definition settle b pa : T unit :=
  bsize ← load (f_size b);
  let tmp_b := GET_NEXT_BLOCK b (Z.land bsize BLOCK_SIZE_MASK) in
  store (f_prev_hdr tmp_b) b;;
  let '(fl, sl) := MAPPING_INSERT (Z.land bsize BLOCK_SIZE_MASK) in
  prev ← load (f_prev_hdr b);
  tsize ← load (f_size tmp_b);
  if (prev =? 0) && (Z.land tsize BLOCK_SIZE_MASK =? 0) then
    p ← pool_read pa;
    put_mem (p_provider p) b;;
    pool_write pa (fun p => p <| num_regions ::= fun n => u64 (n - 1) |>
                              <| used_size ::= fun u => u64 (u - BHDR_OVERHEAD) |>)
  else
    INSERT_BLOCK b pa fl sl;;
    tsize ← load (f_size tmp_b);
    store (f_size tmp_b) (Z.lor tsize PREV_FREE);;
    store (f_prev_hdr tmp_b) b.

Definition xmem_pool_free (ptr : Z) pa : T unit :=
  if ptr =? 0 then mret tt
  else
    let b := ptr - BHDR_OVERHEAD in
    bsize ← load (f_size b);
    store (f_size b) (Z.lor bsize FREE_BLOCK);;
    bsize ← load (f_size b);
    pool_write pa (fun p => p <| used_size ::= fun u => u64 (u - (Z.land bsize BLOCK_SIZE_MASK + BHDR_OVERHEAD)) |>);;
    store (f_free_prev b) 0;;
    store (f_free_next b) 0;;
    merge_next b pa;;
    b ← merge_prev b pa;
    settle b pa.

Definition xmem_pool_maxalloc pa : T Z :=
  p ← pool_read pa;
  mret (s32 (grow_size p - 2 * BHDR_OVERHEAD)).

(** * [_xmalloc] and [xfree] *)

Definition xmalloc_whole_pages size : T Z :=
  let pageorder := get_order_from_bytes (u64 (size + BHDR_OVERHEAD)) in
  b ← alloc_xenheap_pages pageorder;
  if b =? 0 then mret 0
  else if 31 <=? pageorder + PAGE_SHIFT then raise Overflow
  else
    store (f_size b) (Z.shiftl 1 (pageorder + PAGE_SHIFT));;
    mret (b + 16).

Definition tlsf_init : T unit :=
  modify (fun s => s <| pool_list_head := Some [] |>);;
  pool ← xmem_pool_create "xmalloc" XmallocPool TLSF_PAGE_SIZE 0 TLSF_PAGE_SIZE;
  modify (fun s => s <| xenpool := pool |>);;
  if pool =? 0 then raise BugOn else mret tt.

(** The padding that makes an address a multiple of [align] is written
    into a header of its own, marked by bit 0. *)
Definition add_padding (p align : Z) : T Z :=
  let pad := u32 (Z.land (u64 (- p)) (align - 1)) in
  q ← (if negb (pad =? 0) then
         let q := u64 (p + pad) in
         if q <=? p then raise BugOn
         else
           store (f_size (q - BHDR_OVERHEAD)) (Z.lor pad 1);;
           mret q
       else mret p);
  if negb (Z.land q (align - 1) =? 0) then raise BugOn else mret q.

Definition _xmalloc size (align : Z) : T Z :=
  if negb (Z.land align (u64 (align - 1)) =? 0) then raise BugOn
  else
    let align := if align <? TLSF_MEM_ALIGN then TLSF_MEM_ALIGN else align in
    let size := u64 (size + (align - TLSF_MEM_ALIGN)) in
    xp ← gets xenpool;
    (if xp =? 0 then tlsf_init else mret tt);;
    xp ← gets xenpool;
    p ← (if size <? TLSF_PAGE_SIZE then xmem_pool_alloc size xp else mret 0);
    p ← (if p =? 0 then xmalloc_whole_pages size else mret p);
    add_padding p align.

(** [_xmalloc_array] of xen/include/xen/xmalloc.h. *)
Definition _xmalloc_array size (align num : Z) : T Z :=
  if negb (size =? 0) && (0xFFFFFFFF / size <? num) then mret 0
  else _xmalloc (u64 (size * num)) align.

Definition xfree (p : Z) : T unit :=
  if p =? 0 then mret tt
  else
    let b := p - BHDR_OVERHEAD in
    bsize ← load (f_size b);
    '(p, b) ← (if negb (Z.land bsize 1 =? 0) then
                 let p := p - Z.land bsize (u32 (Z.lnot 1)) in
                 let b := p - BHDR_OVERHEAD in
                 bsize ← load (f_size b);
                 if negb (Z.land bsize 1 =? 0) then raise BugOn else mret (p, b)
               else mret (p, b));
    bsize ← load (f_size b);
    if TLSF_PAGE_SIZE <=? bsize then free_xenheap_pages b (get_order_from_bytes bsize)
    else xp ← gets xenpool; xmem_pool_free p xp.

End Tlsf.
