(* ===== verification/TlsfMap.v ===== *)
(** Bits and the two-level mapping of sizes to free lists: a block that is
    found from the list a request starts at is big enough ("good fit"). *)
From S2P Require Import Prelude CMonad Tlsf.

(** * The first and the last bit *)

Lemma ffs_spec x : 0 < x -> 1 <= ffs x /\ Z.testbit x (ffs x - 1) = true /\
  forall i, 0 <= i < ffs x - 1 -> Z.testbit x i = false.
Proof.
  destruct x as [|p|p]; try lia. intros _. unfold ffs. induction p as [p _|p IH|]; simpl pos_ffs.
  - split; [done|]. split; [done|]. intros. lia.
  - destruct IH as (H1 & H2 & H3). split; [lia|].
    replace (pos_ffs p + 1 - 1) with (Z.succ (pos_ffs p - 1)) by lia.
    rewrite (Pos2Z.inj_xO p), Z.testbit_even_succ by lia. split; [done|].
    intros i Hi. destruct (decide (i = 0)) as [->|]; [done|].
    replace i with (Z.succ (i - 1)) by lia. rewrite Z.testbit_even_succ by lia. apply H3. lia.
  - split; [done|]. split; [done|]. intros. lia.
Qed.

Lemma ffs_least x i : 0 < x -> Z.testbit x i = true -> ffs x - 1 <= i.
Proof.
  intros Hx Hi. destruct (ffs_spec x Hx) as (_ & _ & H).
  destruct (Z.le_gt_cases (ffs x - 1) i) as [|Hlt]; [done|].
  destruct (decide (0 <= i)); [|by rewrite Z.testbit_neg_r in Hi by lia].
  by rewrite H in Hi by lia.
Qed.

Lemma fls_pos x : 0 < x -> fls x = Z.log2 x + 1.
Proof. intros. unfold fls. by destruct (Z.eqb_spec x 0); [lia|]. Qed.

(** The bits from [k] on of a 32-bit word. *)
Lemma high_bits k i : 0 <= k < 32 -> 0 <= i < 32 -> Z.testbit (u32 (Z.shiftl (-1) k)) i = (k <=? i).
Proof.
  intros. unfold wrap. rewrite Z.mod_pow2_bits_low by lia. destruct (Z.leb_spec k i).
  - rewrite Z.shiftl_spec_high by lia. apply Z.bits_m1. lia.
  - by apply Z.shiftl_spec_low.
Qed.

(** * Rounding *)

Lemma land_lnot_low r k : 0 <= k -> Z.land r (Z.lnot (2 ^ k - 1)) = r - r mod 2 ^ k.
Proof.
  intros Hk. replace (2 ^ k - 1) with (Z.ones k) by (rewrite Z.ones_equiv; lia).
  rewrite <- Z.ldiff_land, Z.ldiff_ones_r, Z.shiftr_div_pow2, Z.shiftl_mul_pow2 by done.
  pose proof (Z.div_mod r (2 ^ k)). lia.
Qed.

(** * The lists of blocks *)

Definition lex_le (x y : Z * Z) : Prop := x.1 < y.1 \/ x.1 = y.1 /\ x.2 <= y.2.

Definition in_range (fl sl : Z) : Prop := 0 <= fl < REAL_FLI /\ 0 <= sl < MAX_SLI.

Lemma insert_small r : r < 128 -> MAPPING_INSERT r = (0, r / 4).
Proof. intros. unfold MAPPING_INSERT, SMALL_BLOCK. by destruct (Z.ltb_spec r 128); [|lia]. Qed.

Lemma insert_big r : 128 <= r -> MAPPING_INSERT r = (Z.log2 r - 6, r / 2 ^ (Z.log2 r - 5) - 32).
Proof.
  intros. unfold MAPPING_INSERT, SMALL_BLOCK. destruct (Z.ltb_spec r 128); [lia|].
  pose proof (Z.log2_le_mono 128 r ltac:(lia)) as Hl. change (Z.log2 128) with 7 in Hl.
  rewrite fls_pos, Z.shiftr_div_pow2 by (unfold MAX_LOG2_SLI; lia).
  replace (Z.log2 r + 1 - 1) with (Z.log2 r) by lia. done.
Qed.

(** The leading bits of a number. *)
Lemma leading_bits r : 128 <= r -> 7 <= Z.log2 r /\ 0 < 2 ^ (Z.log2 r - 5) /\
  32 * 2 ^ (Z.log2 r - 5) <= r < 64 * 2 ^ (Z.log2 r - 5).
Proof.
  intros. pose proof (Z.log2_le_mono 128 r ltac:(lia)) as Hl. change (Z.log2 128) with 7 in Hl.
  pose proof (Z.log2_spec r ltac:(lia)) as Hs.
  replace (Z.succ (Z.log2 r)) with (6 + (Z.log2 r - 5)) in Hs by lia.
  replace (Z.log2 r) with (5 + (Z.log2 r - 5)) in Hs at 1 by lia.
  rewrite !Z.pow_add_r in Hs by lia. change (2 ^ 5) with 32 in Hs. change (2 ^ 6) with 64 in Hs.
  pose proof (Z.pow_pos_nonneg 2 (Z.log2 r - 5)). lia.
Qed.

Lemma leading_digit r : 128 <= r -> 32 <= r / 2 ^ (Z.log2 r - 5) < 64.
Proof.
  intros. destruct (leading_bits r) as (_ & Hu & H1 & H2); [done|]. split.
  - apply Z.div_le_lower_bound; lia.
  - apply Z.div_lt_upper_bound; lia.
Qed.

Lemma insert_range r : 0 <= r < 2 ^ 30 -> in_range (MAPPING_INSERT r).1 (MAPPING_INSERT r).2.
Proof.
  intros Hr. unfold in_range. change REAL_FLI with 24. change MAX_SLI with 32.
  destruct (Z.lt_ge_cases r 128).
  - rewrite insert_small by done. cbn [fst snd]. split; [done|].
    split; [apply Z.div_pos; lia|apply Z.div_lt_upper_bound; lia].
  - rewrite insert_big by done. cbn [fst snd]. pose proof (leading_digit r). pose proof (leading_bits r).
    pose proof (Z.log2_lt_pow2 r 30). lia.
Qed.

Lemma insert_mono r r' : 0 <= r <= r' -> lex_le (MAPPING_INSERT r) (MAPPING_INSERT r').
Proof.
  intros Hr. unfold lex_le. destruct (Z.lt_ge_cases r' 128).
  - rewrite !insert_small by lia. right. split; [done|]. apply Z.div_le_mono; lia.
  - rewrite (insert_big r') by done. pose proof (leading_bits r') as Hl. destruct (Z.lt_ge_cases r 128).
    + rewrite insert_small by done. left. cbn [fst]. lia.
    + rewrite insert_big by done. cbn [fst snd]. pose proof (Z.log2_le_mono r r' ltac:(lia)) as Hm.
      destruct (decide (Z.log2 r = Z.log2 r')) as [->|]; [|lia]. right. split; [done|].
      pose proof (Z.div_le_mono r r' (2 ^ (Z.log2 r' - 5))). lia.
Qed.

(** The least size of a list. *)
Definition boundary (r : Z) : Prop :=
  0 <= r < 128 /\ r mod 4 = 0 \/ 128 <= r /\ r mod 2 ^ (Z.log2 r - 5) = 0.

Lemma boundary_fits r x : boundary r -> 0 <= x -> lex_le (MAPPING_INSERT r) (MAPPING_INSERT x) -> r <= x.
Proof.
  intros [[Hr Hm]|[Hr Hm]] Hx; unfold lex_le.
  - rewrite (insert_small r) by lia. destruct (Z.lt_ge_cases x 128); [|lia].
    rewrite (insert_small x) by done. cbn [fst snd].
    pose proof (Z.div_mod r 4). pose proof (Z.div_mod x 4). pose proof (Z.mod_pos_bound x 4). lia.
  - rewrite (insert_big r) by lia. pose proof (leading_bits r) as Hl. destruct (Z.lt_ge_cases x 128) as [Hs|Hs].
    { rewrite (insert_small x) by done. cbn [fst snd]. lia. }
    rewrite (insert_big x) by done. cbn [fst snd]. intros [Hf|[Hf Hd]].
    + destruct (Z.le_gt_cases r x) as [|Hgt]; [done|]. pose proof (Z.log2_le_mono x r ltac:(lia)). lia.
    + replace (Z.log2 x) with (Z.log2 r) in Hd by lia. set (u := 2 ^ (Z.log2 r - 5)) in *.
      pose proof (Z.div_mod r u). pose proof (Z.div_mod x u). pose proof (Z.mod_pos_bound x u). nia.
Qed.

(** * The start of a search *)

Section Search.
Context (r : Z) (Hr : 128 <= r < 2 ^ 30).
Let u := 2 ^ (Z.log2 r - 5).

Lemma search_unit : s32 (s32 (Z.shiftl 1 (fls r - 1 - MAX_LOG2_SLI)) - 1) = u - 1.
Proof using Hr.
  destruct (leading_bits r) as (H7 & Hu & H1 & H2); [lia|]. fold u in Hu, H1, H2.
  rewrite fls_pos, Z.shiftl_mul_pow2 by (unfold MAX_LOG2_SLI; lia).
  replace (Z.log2 r + 1 - 1 - MAX_LOG2_SLI) with (Z.log2 r - 5) by (unfold MAX_LOG2_SLI; lia). fold u.
  by rewrite Z.mul_1_l, (s32_small u), s32_small by lia.
Qed.

(** [r] rounded up to a multiple of [u]. *)
Let r' := r + (u - 1) - (r + (u - 1)) mod u.

Lemma search_up : r <= r' <= r + (u - 1) /\ r' mod u = 0 /\ r + (u - 1) < r' + u.
Proof using Hr.
  destruct (leading_bits r) as (_ & Hu & _); [lia|]. fold u in Hu. subst r'.
  pose proof (Z.mod_pos_bound (r + (u - 1)) u Hu). split_and!; try lia.
  pose proof (Z.div_mod (r + (u - 1)) u ltac:(lia)) as Hd.
  replace (r + (u - 1) - (r + (u - 1)) mod u) with ((r + (u - 1)) / u * u) by lia. apply Z.mod_mul. lia.
Qed.

(** Rounding carries into the next power of two, or not. *)
Lemma search_log : Z.log2 (r + (u - 1)) = Z.log2 r' /\
  (Z.log2 r' = Z.log2 r \/ Z.log2 r' = Z.log2 r + 1 /\ r' = 64 * u).
Proof using Hr.
  destruct (leading_bits r) as (H7 & Hu & H1 & H2); [lia|]. fold u in Hu, H1, H2.
  destruct search_up as ((Ha & Hb) & Hm & Hc).
  assert (2 ^ (Z.log2 r) = 32 * u) as E5.
  { subst u. replace (Z.log2 r) with (5 + (Z.log2 r - 5)) at 1 by lia. rewrite Z.pow_add_r by lia. done. }
  assert (2 ^ (Z.log2 r + 1) = 64 * u) as E6 by (rewrite Z.pow_add_r by lia; lia).
  assert (r' <= 64 * u) as Hle.
  { pose proof (Z.div_mod r' u). assert (r' / u < 65); [|nia]. apply Z.div_lt_upper_bound; lia. }
  destruct (decide (r' = 64 * u)) as [He|Hne].
  - split; [|right; split; [|done]].
    + rewrite (Z.log2_unique (r + (u - 1)) (Z.log2 r + 1)); [..|].
      * rewrite (Z.log2_unique r' (Z.log2 r + 1)); [done|lia|]. rewrite Z.pow_succ_r by lia. lia.
      * lia.
      * rewrite Z.pow_succ_r by lia. lia.
    + apply Z.log2_unique; [lia|]. rewrite Z.pow_succ_r by lia. lia.
  - assert (r' + u <= 64 * u) as Hlt.
    { pose proof (Z.div_mod r' u). assert (r' / u < 64); [|nia]. apply Z.div_lt_upper_bound; lia. }
    assert (forall x, r <= x < 64 * u -> Z.log2 x = Z.log2 r) as Hx.
    { intros x Hx. apply Z.log2_unique; [lia|]. rewrite <- Z.add_1_r. lia. }
    rewrite (Hx (r + (u - 1))), (Hx r') by lia. auto.
Qed.

Lemma search_big : MAPPING_SEARCH r = (r', (MAPPING_INSERT r').1, (MAPPING_INSERT r').2).
Proof using Hr.
  destruct (leading_bits r) as (H7 & Hu & H1 & H2); [lia|]. fold u in Hu, H1, H2.
  destruct search_up as ((Ha & Hb) & Hm & Hc). destruct search_log as [Hl Hcase].
  assert (u <= 2 ^ 30) as Hu30.
  { apply Z.pow_le_mono_r; [lia|]. pose proof (Z.log2_lt_pow2 r 30). lia. }
  unfold MAPPING_SEARCH, SMALL_BLOCK. destruct (Z.ltb_spec r 128); [lia|]. rewrite search_unit.
  unfold wrap. rewrite (Z.mod_small (r + (u - 1))) by lia.
  rewrite fls_pos, Z.shiftr_div_pow2 by (unfold MAX_LOG2_SLI; lia).
  rewrite insert_big by lia. cbn [fst snd]. rewrite Hl.
  replace (Z.log2 r' + 1 - 1) with (Z.log2 r') by lia. unfold MAX_LOG2_SLI, FLI_OFFSET. f_equal; [f_equal|f_equal].
  - unfold u at 2. rewrite land_lnot_low by lia. fold u. done.
  - assert (forall v q, 0 < v -> r' = v * q -> r + (u - 1) < r' + v -> (r + (u - 1)) / v = r' / v) as Hd.
    { intros v q Hv Hq Hlt. rewrite <- (Z.div_unique_pos (r + (u - 1)) v q (r + (u - 1) - r')) by lia.
      rewrite Hq, Z.mul_comm, Z.div_mul; lia. }
    destruct Hcase as [->|[-> He]].
    + fold u. apply (Hd _ (r' / u)); [done| |done]. pose proof (Z.div_mod r' u). lia.
    + assert (2 ^ (Z.log2 r + 1 - 5) = 2 * u) as ->.
      { subst u. replace (Z.log2 r + 1 - 5) with (1 + (Z.log2 r - 5)) by lia. by rewrite Z.pow_add_r by lia. }
      apply (Hd _ 32); lia.
Qed.

Lemma search_boundary : boundary r'.
Proof using Hr.
  destruct (leading_bits r) as (H7 & Hu & H1 & H2); [lia|]. fold u in Hu, H1, H2.
  destruct search_up as ((Ha & Hb) & Hm & Hc). right. split; [lia|].
  destruct search_log as [_ [->|[-> He]]]; [done|].
  replace (Z.log2 r + 1 - 5) with (1 + (Z.log2 r - 5)) by lia. rewrite Z.pow_add_r by lia. fold u.
  rewrite He. replace (64 * u) with (32 * (2 ^ 1 * u)) by lia. apply Z.mod_mul. lia.
Qed.
End Search.

(** What a search starts from: the list that the rounded size is the least of,
    a thirty-second more than asked at most, aligned like the request. *)
Lemma search_spec r : 16 <= r < 2 ^ 30 -> r mod 16 = 0 -> exists r',
  MAPPING_SEARCH r = (r', (MAPPING_INSERT r').1, (MAPPING_INSERT r').2) /\
  r <= r' /\ 32 * (r' - r) <= r /\ r' mod 16 = 0 /\ boundary r'.
Proof.
  intros Hr Ha. destruct (Z.lt_ge_cases r 128) as [Hs|Hs].
  - exists r. unfold MAPPING_SEARCH. rewrite insert_small by done. unfold SMALL_BLOCK. destruct (Z.ltb_spec r 128); [|lia].
    split_and!; try done; try lia. left. split; [lia|]. rewrite <- (Z.mod_mod_divide r 16 4), Ha by (by exists 4). done.
  - destruct (leading_bits r) as (H7 & Hu & H1 & H2); [lia|].
    destruct (search_up r) as ((Hup & Hb) & Hm & Hc); [lia|].
    eexists. split; [apply search_big; lia|]. split; [done|]. split; [lia|].
    split; [|apply search_boundary; lia].
    set (u := 2 ^ (Z.log2 r - 5)) in *. set (r' := r + (u - 1) - (r + (u - 1)) mod u) in *. clearbody r'.
    destruct (decide (Z.log2 r < 9)) as [Hk|Hk].
    + assert (r mod u = 0) as Hru.
      { rewrite <- (Z.mod_mod_divide r 16 u), Ha; [done|]. subst u.
        assert (Z.log2 r = 7 \/ Z.log2 r = 8) as [->| ->] by lia; [by exists 4|by exists 2]. }
      assert (r' - r = 0) as He; [|replace r' with r by lia; done].
      rewrite <- (Z.mod_small (r' - r) u), Zminus_mod, Hm, Hru by lia. apply Z.mod_0_l. lia.
    + rewrite <- (Z.mod_mod_divide r' u 16), Hm; [done|]. exists (2 ^ (Z.log2 r - 9)). subst u.
      change 16 with (2 ^ 4). rewrite <- Z.pow_add_r by lia. f_equal. lia.
Qed.

(** A size that is the least of its list is where its search starts. *)
Lemma search_least r : boundary r -> 16 <= r < 2 ^ 30 -> MAPPING_SEARCH r = (r, (MAPPING_INSERT r).1, (MAPPING_INSERT r).2).
Proof.
  intros [[H1 H2]|[H1 H2]] Hr.
  - unfold MAPPING_SEARCH. rewrite insert_small by lia. unfold SMALL_BLOCK. by destruct (Z.ltb_spec r 128); [|lia].
  - rewrite search_big by lia. destruct (leading_bits r H1) as (_ & Hu & _). set (u := 2 ^ (Z.log2 r - 5)) in *.
    assert ((r + (u - 1)) mod u = u - 1) as E by (rewrite Zplus_mod, H2, Z.add_0_l, Z.mod_mod by lia; apply Z.mod_small; lia).
    rewrite E. by replace (r + (u - 1) - (u - 1)) with r by lia.
Qed.
