(* ===== verification/TlsfList.v ===== *)
(** The free lists of the allocator: doubly linked lists through the free
    blocks, their heads in the matrix of a pool, and the two levels of bits
    that say which lists have blocks. *)
From S2P Require Import Prelude CMonad Tlsf TlsfMap.

Lemma alter_as_insert `{Countable K} {A} (f : A -> A) (m : gmap K A) k x :
  m !! k = Some x -> alter f k m = <[k := f x]> m.
Proof. intros Hk. rewrite <- (insert_id m k x) at 1 by done. by rewrite alter_insert_eq. Qed.

(** * Steps on memory *)

Lemma mapped_spec s a : mapped s a = true <->
  exists base n, h_runs s !! base = Some n /\ base <= a /\ a + 8 <= base + n.
Proof.
  unfold mapped. rewrite existsb_exists. split.
  - intros ([base n] & Hin & Hr). unfold in_run in Hr. cbn [fst snd] in Hr. exists base, n.
    apply andb_true_iff in Hr as [H1 H2]. split; [|lia].
    apply elem_of_map_to_list, list_elem_of_In. done.
  - intros (base & n & Hb & H1 & H2). exists (base, n). split.
    + apply list_elem_of_In, elem_of_map_to_list. done.
    + unfold in_run. cbn [fst snd]. lia.
Qed.

Lemma upd_eq m a v : upd m a v a = v.
Proof. unfold upd. by rewrite decide_True. Qed.
Lemma upd_ne m a v x : x <> a -> upd m a v x = m x.
Proof. intros. unfold upd. by rewrite decide_False. Qed.

Section Steps.
Context (tol : fault -> Prop).

Lemma wp_load_word a (Q : Z -> tlsf -> Prop) s : mapped s a = true -> Q (h_mem s a) s -> wp tol (load a) Q s.
Proof using. intros Hm HQ. unfold wp, load. by rewrite Hm. Qed.

Lemma wp_store_word a v (Q : unit -> tlsf -> Prop) s : mapped s a = true ->
  Q tt (s <| h_mem ::= fun m => upd m a v |>) -> wp tol (store a v) Q s.
Proof using. intros Hm HQ. unfold wp, store. by rewrite Hm. Qed.

Lemma wp_pool_read pa p (Q : xmem_pool -> tlsf -> Prop) s : h_pools s !! pa = Some p -> Q p s ->
  wp tol (pool_read pa) Q s.
Proof using. intros Hp HQ. unfold wp, pool_read. by rewrite Hp. Qed.

Lemma wp_arr {A} (l : list A) i x (Q : A -> tlsf -> Prop) s : 0 <= i -> l !! Z.to_nat i = Some x -> Q x s ->
  wp tol (arr l i) Q s.
Proof using. intros Hi Hx HQ. unfold wp, arr. destruct (Z.leb_spec 0 i); [|lia]. by rewrite Hx. Qed.
End Steps.

(** * The heads and the bits of a pool *)

Lemma setbit_nonneg a n : 0 <= a -> 0 <= Z.setbit a n.
Proof. intros. unfold Z.setbit. apply Z.lor_nonneg. split; [done|]. by apply Z.shiftl_nonneg. Qed.
Lemma clearbit_nonneg a n : 0 <= a -> 0 <= Z.clearbit a n.
Proof. intros. unfold Z.clearbit. apply Z.ldiff_nonneg. by left. Qed.

(** [H fl sl] is the first block of a list, or 0. *)
Record pool_index (p : xmem_pool) (H : Z -> Z -> Z) : Prop := {
  pi_rows : length (matrix p) = Z.to_nat REAL_FLI;
  pi_row : forall fl row, matrix p !! fl = Some row -> length row = Z.to_nat MAX_SLI;
  pi_words : length (sl_bitmap p) = Z.to_nat REAL_FLI;
  pi_head : forall fl sl row x, 0 <= fl -> 0 <= sl -> matrix p !! Z.to_nat fl = Some row ->
    row !! Z.to_nat sl = Some x -> x = H fl sl;
  pi_sl : forall fl w, 0 <= fl -> sl_bitmap p !! Z.to_nat fl = Some w -> 0 <= w /\
    forall j, 0 <= j -> Z.testbit w j = true <-> j < MAX_SLI /\ H fl j <> 0;
  pi_fl : 0 <= fl_bitmap p /\ forall i, 0 <= i ->
    Z.testbit (fl_bitmap p) i = true <-> exists w, sl_bitmap p !! Z.to_nat i = Some w /\ w <> 0;
}.

Definition upd2 (H : Z -> Z -> Z) (fl sl v : Z) : Z -> Z -> Z :=
  fun i j => if decide (i = fl /\ j = sl) then v else H i j.

Lemma upd2_eq H fl sl v : upd2 H fl sl v fl sl = v.
Proof. unfold upd2. by rewrite decide_True. Qed.
Lemma upd2_ne H fl sl v i j : (i, j) <> (fl, sl) -> upd2 H fl sl v i j = H i j.
Proof. intros. unfold upd2. rewrite decide_False; [done|]. intros [-> ->]. done. Qed.

(** The write of a head. *)
Definition put_head (fl sl v : Z) (p : xmem_pool) : xmem_pool :=
  p <| matrix ::= alter (fun row => <[Z.to_nat sl := v]> row) (Z.to_nat fl) |>.
(** The writes of [INSERT_BLOCK] to the bits. *)
Definition put_bits (fl sl w : Z) (p : xmem_pool) : xmem_pool :=
  p <| sl_bitmap ::= <[Z.to_nat fl := Z.setbit w sl]> |> <| fl_bitmap ::= fun f => Z.setbit f fl |>.
(** The writes of [clear_bits]. *)
Definition drop_bits (fl sl w : Z) (p : xmem_pool) : xmem_pool :=
  let p := p <| sl_bitmap ::= <[Z.to_nat fl := Z.clearbit w sl]> |> in
  if Z.clearbit w sl =? 0 then p <| fl_bitmap ::= fun f => Z.clearbit f fl |> else p.

Section Index.
Context (p : xmem_pool) (H : Z -> Z -> Z) (Hp : pool_index p H) (fl sl : Z) (Hin : in_range fl sl).

Lemma index_row : exists row, matrix p !! Z.to_nat fl = Some row /\ row !! Z.to_nat sl = Some (H fl sl).
Proof using Hp Hin.
  destruct Hin as [Hf Hs]. destruct (lookup_lt_is_Some_2 (matrix p) (Z.to_nat fl)) as [row Hr].
  { rewrite (pi_rows _ _ Hp). lia. }
  exists row. split; [done|]. destruct (lookup_lt_is_Some_2 row (Z.to_nat sl)) as [x Hx].
  { rewrite (pi_row _ _ Hp _ _ Hr). lia. }
  rewrite Hx. f_equal. eapply pi_head; [done|lia..|done|done].
Qed.

Lemma index_word : exists w, sl_bitmap p !! Z.to_nat fl = Some w.
Proof using Hp Hin.
  apply lookup_lt_is_Some_2. rewrite (pi_words _ _ Hp). destruct Hin. lia.
Qed.

(** A head is written: the heads are the new ones, whatever the bits. *)
Lemma put_head_head v i j row x : 0 <= i -> 0 <= j -> matrix (put_head fl sl v p) !! Z.to_nat i = Some row ->
  row !! Z.to_nat j = Some x -> x = upd2 H fl sl v i j.
Proof using Hp Hin.
  intros Hi Hj Hr Hx. destruct index_row as (row0 & Hr0 & Hx0). destruct Hin as [Hf Hs]. cbn in Hr.
  destruct (decide (i = fl)) as [->|Hne].
  - rewrite list_lookup_alter_eq, Hr0 in Hr. injection Hr as <-.
    destruct (decide (j = sl)) as [->|Hnj].
    + rewrite list_lookup_insert_eq in Hx by (by eapply lookup_lt_Some). injection Hx as <-. by rewrite upd2_eq.
    + rewrite list_lookup_insert_ne in Hx by lia. rewrite upd2_ne by congruence. by eapply pi_head.
  - rewrite list_lookup_alter_ne in Hr by lia. rewrite upd2_ne by congruence. by eapply pi_head.
Qed.

Lemma put_head_row v i row : matrix (put_head fl sl v p) !! i = Some row -> length row = Z.to_nat MAX_SLI.
Proof using Hp.
  cbn. intros Hr. destruct (decide (i = Z.to_nat fl)) as [->|].
  - rewrite list_lookup_alter_eq in Hr. destruct (matrix p !! Z.to_nat fl) as [r|] eqn:E; [|done].
    injection Hr as <-. rewrite length_insert. by eapply pi_row.
  - rewrite list_lookup_alter_ne in Hr by done. by eapply pi_row.
Qed.

Lemma put_head_rows v : length (matrix (put_head fl sl v p)) = Z.to_nat REAL_FLI.
Proof using Hp. cbn. rewrite length_alter. apply (pi_rows _ _ Hp). Qed.

(** A list that had blocks gets another head. *)
Lemma index_replace v : H fl sl <> 0 -> v <> 0 -> pool_index (put_head fl sl v p) (upd2 H fl sl v).
Proof using Hp Hin.
  intros Hh Hv. split.
  - apply put_head_rows.
  - apply put_head_row.
  - apply (pi_words _ _ Hp).
  - apply put_head_head.
  - intros i w Hi Hw. destruct (pi_sl _ _ Hp i w Hi Hw) as [H0 Hb]. split; [done|]. intros j Hj. rewrite Hb by done.
    destruct (decide ((i, j) = (fl, sl))) as [[= -> ->]|Hne].
    + rewrite upd2_eq. naive_solver.
    + by rewrite upd2_ne.
  - apply (pi_fl _ _ Hp).
Qed.

Lemma words_insert i w w' : 0 <= i -> <[Z.to_nat fl := w]> (sl_bitmap p) !! Z.to_nat i = Some w' ->
  i = fl /\ w' = w \/ i <> fl /\ sl_bitmap p !! Z.to_nat i = Some w'.
Proof using Hin.
  intros Hi Hw. destruct Hin as [Hf Hs]. destruct (decide (i = fl)) as [->|].
  - apply list_lookup_insert_Some in Hw as [(_ & -> & _)|[Hne _]]; [by left|lia].
  - rewrite list_lookup_insert_ne in Hw by lia. by right.
Qed.

(** A block is put in front of a list. *)
Lemma index_put w v : sl_bitmap p !! Z.to_nat fl = Some w -> v <> 0 ->
  pool_index (put_bits fl sl w (put_head fl sl v p)) (upd2 H fl sl v).
Proof using Hp Hin.
  intros Hw Hv. pose proof Hin as [Hf Hs]. destruct (pi_sl _ _ Hp fl w ltac:(lia) Hw) as [H0 Hb]. split.
  - apply put_head_rows.
  - apply put_head_row.
  - cbn. rewrite length_insert. apply (pi_words _ _ Hp).
  - apply put_head_head.
  - intros i w' Hi Hw'. apply words_insert in Hw' as [[-> ->]|[Hne Hw']]; [|..|done].
    + split; [by apply setbit_nonneg|]. intros j Hj. rewrite Z.setbit_eqb by lia.
      destruct (Z.eqb_spec sl j) as [->|Hsj]; simpl; [rewrite upd2_eq; naive_solver lia|].
      rewrite Hb by done. by rewrite upd2_ne by congruence.
    + destruct (pi_sl _ _ Hp i w' Hi Hw') as [H0' Hb']. split; [done|]. intros j Hj. rewrite Hb' by done.
      by rewrite upd2_ne by congruence.
  - destruct (pi_fl _ _ Hp) as [Hn Hfb]. split; [by apply setbit_nonneg|]. intros i Hi. cbn.
    rewrite Z.setbit_eqb by lia. destruct (Z.eqb_spec fl i) as [->|Hfi]; simpl.
    + split; [intros _|done]. exists (Z.setbit w sl). split.
      * apply list_lookup_insert_eq. by eapply lookup_lt_Some.
      * intros E. pose proof (Z.setbit_eq w sl ltac:(lia)) as Hbit. by rewrite E, Z.bits_0 in Hbit.
    + rewrite Hfb by done. by rewrite list_lookup_insert_ne by lia.
Qed.

(** The last block of a list goes. *)
Lemma index_drop w : sl_bitmap p !! Z.to_nat fl = Some w -> pool_index (drop_bits fl sl w (put_head fl sl 0 p)) (upd2 H fl sl 0).
Proof using Hp Hin.
  intros Hw. pose proof Hin as [Hf Hs]. destruct (pi_sl _ _ Hp fl w ltac:(lia) Hw) as [H0 Hb].
  assert (sl_bitmap (drop_bits fl sl w (put_head fl sl 0 p)) = <[Z.to_nat fl := Z.clearbit w sl]> (sl_bitmap p)) as Esl.
  { unfold drop_bits. by destruct (Z.clearbit w sl =? 0). }
  assert (matrix (drop_bits fl sl w (put_head fl sl 0 p)) = matrix (put_head fl sl 0 p)) as Em.
  { unfold drop_bits. by destruct (Z.clearbit w sl =? 0). }
  split; rewrite ?Esl, ?Em.
  - apply put_head_rows.
  - apply put_head_row.
  - rewrite length_insert. apply (pi_words _ _ Hp).
  - apply put_head_head.
  - intros i w' Hi Hw'. apply words_insert in Hw' as [[-> ->]|[Hne Hw']]; [|..|done].
    + split; [by apply clearbit_nonneg|]. intros j Hj. rewrite Z.clearbit_eqb by lia.
      destruct (Z.eqb_spec sl j) as [->|Hsj]; simpl; rewrite ?andb_false_r, ?andb_true_r.
      * rewrite upd2_eq. naive_solver.
      * rewrite Hb by done. by rewrite upd2_ne by congruence.
    + destruct (pi_sl _ _ Hp i w' Hi Hw') as [H0' Hb']. split; [done|]. intros j Hj. rewrite Hb' by done.
      by rewrite upd2_ne by congruence.
  - destruct (pi_fl _ _ Hp) as [Hn Hfb]. unfold drop_bits. destruct (Z.eqb_spec (Z.clearbit w sl) 0) as [Hz|Hz]; cbn.
    + split; [by apply clearbit_nonneg|]. intros i Hi. rewrite Z.clearbit_eqb by lia.
      destruct (Z.eqb_spec fl i) as [->|Hfi]; simpl; rewrite ?andb_false_r, ?andb_true_r.
      * split; [done|]. intros (w' & Hw' & Hne).
        rewrite list_lookup_insert_eq in Hw' by (by eapply lookup_lt_Some). naive_solver.
      * rewrite Hfb by done. by rewrite list_lookup_insert_ne by lia.
    + split; [done|]. intros i Hi. rewrite Hfb by done.
      destruct (decide (i = fl)) as [->|]; [|by rewrite list_lookup_insert_ne by lia].
      rewrite list_lookup_insert_eq by (by eapply lookup_lt_Some). split; [|naive_solver].
      intros (w' & Hw' & Hne). exists (Z.clearbit w sl). done.
Qed.
End Index.

(** * Finding a list with blocks *)

(** A list in the row [fl] from [sl] on. *)
Lemma row_search p H fl sl w : pool_index p H -> in_range fl sl -> sl_bitmap p !! Z.to_nat fl = Some w ->
  Z.land w (u32 (Z.shiftl (-1) sl)) <> 0 ->
  let sl' := ffs (Z.land w (u32 (Z.shiftl (-1) sl))) - 1 in
  in_range fl sl' /\ sl <= sl' /\ H fl sl' <> 0.
Proof.
  intros Hp [Hf Hs] Hw. set (t := Z.land w (u32 (Z.shiftl (-1) sl))). intros Ht. cbn zeta.
  change MAX_SLI with 32 in *. destruct (pi_sl _ _ Hp fl w ltac:(lia) Hw) as [H0 Hb].
  assert (0 < t) as Hpos by (assert (0 <= t) by (apply Z.land_nonneg; by left); lia).
  destruct (ffs_spec t Hpos) as (H1 & H2 & _). unfold t in H2 at 1. rewrite Z.land_spec in H2.
  apply andb_true_iff in H2 as [Ha Hc]. apply Hb in Ha as [Hlt Hne]; [|lia]. change MAX_SLI with 32 in *.
  rewrite high_bits in Hc by lia. unfold in_range. change MAX_SLI with 32. lia.
Qed.

Lemma row_empty p H fl sl w j : pool_index p H -> in_range fl sl -> sl_bitmap p !! Z.to_nat fl = Some w ->
  Z.land w (u32 (Z.shiftl (-1) sl)) = 0 -> sl <= j < MAX_SLI -> H fl j = 0.
Proof.
  intros Hp [Hf Hs] Hw Ht Hj. destruct (pi_sl _ _ Hp fl w ltac:(lia) Hw) as [H0 Hb].
  destruct (decide (H fl j = 0)) as [|Hne]; [done|]. exfalso. change MAX_SLI with 32 in *.
  assert (Z.testbit (Z.land w (u32 (Z.shiftl (-1) sl))) j = true) as Hbit.
  { rewrite Z.land_spec, high_bits by lia. apply andb_true_iff. split; [|lia]. apply Hb; [lia|].
    change MAX_SLI with 32. lia. }
  by rewrite Ht, Z.bits_0 in Hbit.
Qed.

(** A row with blocks after [fl]. *)
Lemma rows_search p H fl sl : pool_index p H -> in_range fl sl ->
  let fl' := ffs (Z.land (fl_bitmap p) (u32 (Z.shiftl (-1) (fl + 1)))) - 1 in
  (0 < fl' -> fl < fl' < REAL_FLI /\ exists w, sl_bitmap p !! Z.to_nat fl' = Some w /\ w <> 0) /\
  (~ 0 < fl' -> forall i w, fl < i < REAL_FLI -> sl_bitmap p !! Z.to_nat i = Some w -> w = 0).
Proof.
  intros Hp [Hf Hs]. set (t := Z.land (fl_bitmap p) (u32 (Z.shiftl (-1) (fl + 1)))). cbn zeta.
  change REAL_FLI with 24 in *. destruct (pi_fl _ _ Hp) as [H0 Hb].
  assert (0 <= t) as Hpos by (apply Z.land_nonneg; by left). split.
  - intros Hlt. assert (0 < t) as Ht.
    { destruct (Z.eq_dec t 0) as [E|]; [|lia]. rewrite E in Hlt. cbn in Hlt. lia. }
    destruct (ffs_spec t Ht) as (H1 & H2 & _). unfold t in H2 at 1. rewrite Z.land_spec in H2.
    apply andb_true_iff in H2 as [Ha Hc]. apply Hb in Ha as (w & Hw & Hne); [|lia].
    pose proof (lookup_lt_Some _ _ _ Hw) as Hl. rewrite (pi_words _ _ Hp) in Hl. change (Z.to_nat REAL_FLI) with 24%nat in Hl.
    rewrite high_bits in Hc by lia. split; [lia|]. by exists w.
  - intros Hge i w Hi Hw. destruct (decide (w = 0)) as [|Hne]; [done|]. exfalso.
    assert (Z.testbit t i = true) as Hbit.
    { unfold t. rewrite Z.land_spec, high_bits by lia. apply andb_true_iff. split; [|lia]. apply Hb; [lia|]. by exists w. }
    assert (t <> 0) as Hne0 by (intros E; by rewrite E, Z.bits_0 in Hbit).
    destruct (ffs_spec t ltac:(lia)) as (H1 & H2 & _). unfold t in H2 at 1. rewrite Z.land_spec in H2.
    apply andb_true_iff in H2 as [_ Hc]. rewrite high_bits in Hc by lia. lia.
Qed.

(** A word that is not zero has a list. *)
Lemma word_search p H fl w : pool_index p H -> 0 <= fl < REAL_FLI -> sl_bitmap p !! Z.to_nat fl = Some w -> w <> 0 ->
  in_range fl (ffs w - 1) /\ H fl (ffs w - 1) <> 0.
Proof.
  intros Hp Hf Hw Hne. destruct (pi_sl _ _ Hp fl w ltac:(lia) Hw) as [H0 Hb].
  destruct (ffs_spec w ltac:(lia)) as (H1 & H2 & _). apply Hb in H2 as [Hlt Hh]; [|lia].
  unfold in_range. split; [lia|done].
Qed.

(** What [FIND_SUITABLE_BLOCK] answers. *)
Definition found (H : Z -> Z -> Z) (fl sl : Z) (r : Z * Z * Z) : Prop :=
  let '(b, fl', sl') := r in
  (b <> 0 /\ in_range fl' sl' /\ b = H fl' sl' /\ lex_le (fl, sl) (fl', sl')) \/
  (b = 0 /\ forall i j, in_range i j -> lex_le (fl, sl) (i, j) -> H i j = 0).

Lemma wp_pool_write tol pa (f : xmem_pool -> xmem_pool) p (Q : unit -> tlsf -> Prop) s : h_pools s !! pa = Some p ->
  Q tt (s <| h_pools := <[pa := f p]> (h_pools s) |>) -> wp tol (pool_write pa f) Q s.
Proof. intros Hp HQ. apply wp_modify. unfold setter in *. by rewrite (alter_as_insert _ _ _ p) by done. Qed.

Section Ops.
Context (tol : fault -> Prop) (s : tlsf) (pa : Z) (p : xmem_pool) (H : Z -> Z -> Z).
Context (Hpa : h_pools s !! pa = Some p) (Hp : pool_index p H).

Lemma wp_matrix_at fl sl (Q : Z -> tlsf -> Prop) : in_range fl sl -> Q (H fl sl) s -> wp tol (matrix_at pa fl sl) Q s.
Proof using Hpa Hp.
  intros Hin HQ. destruct (index_row p H Hp fl sl Hin) as (row & Hr & Hx). destruct Hin.
  unfold matrix_at. apply wp_bind. eapply wp_pool_read; [done|].
  apply wp_bind. eapply wp_arr; [lia|done|]. eapply wp_arr; [lia|done|done].
Qed.

Lemma wp_find fl sl (Q : Z * Z * Z -> tlsf -> Prop) : in_range fl sl -> (forall r, found H fl sl r -> Q r s) ->
  wp tol (FIND_SUITABLE_BLOCK pa fl sl) Q s.
Proof using Hpa Hp.
  intros Hin HQ. destruct (index_word p H Hp fl sl Hin) as [w Hw]. pose proof Hin as [Hf Hs].
  unfold FIND_SUITABLE_BLOCK. apply wp_bind. eapply wp_pool_read; [done|].
  apply wp_bind. eapply wp_arr; [lia|done|].
  destruct (Z.eqb_spec (Z.land w (u32 (Z.shiftl (-1) sl))) 0) as [Hz|Hnz]; cbn [negb].
  - destruct (rows_search p H fl sl Hp Hin) as [Hyes Hno]. cbn zeta in *.
    set (fl' := ffs (Z.land (fl_bitmap p) (u32 (Z.shiftl (-1) (fl + 1)))) - 1) in *.
    destruct (Z.ltb_spec 0 fl') as [Hlt|Hge].
    + destruct (Hyes Hlt) as [Hfl (w' & Hw' & Hne)]. destruct (word_search p H fl' w' Hp) as [Hin' Hh]; [lia|done..|].
      apply wp_bind. eapply wp_arr; [lia|done|]. apply wp_bind. apply wp_matrix_at; [done|]. apply wp_ret, HQ.
      left. split; [done|]. split; [done|]. split; [done|]. left. cbn. lia.
    + apply wp_ret, HQ. right. split; [done|]. intros i j [Hi Hj] [Hlt|[Heq Hle]]; cbn [fst snd] in *.
      * destruct (index_word p H Hp i j) as [w' Hw']; [done|]. pose proof (Hno ltac:(lia) i w' ltac:(lia) Hw') as ->.
        destruct (pi_sl _ _ Hp i 0 ltac:(lia) Hw') as [_ Hb]. destruct (decide (H i j = 0)) as [|Hne]; [done|].
        assert (Z.testbit 0 j = true) as Hbit by (apply Hb; lia). by rewrite Z.bits_0 in Hbit.
      * subst i. eapply row_empty; [done| |done|done|lia]. done.
  - destruct (row_search p H fl sl w Hp Hin Hw Hnz) as (Hin' & Hle & Hh).
    apply wp_bind. apply wp_matrix_at; [done|]. apply wp_ret, HQ. left.
    split; [done|]. split; [done|]. split; [done|]. right. cbn. lia.
Qed.

Lemma wp_set_matrix fl sl v (Q : unit -> tlsf -> Prop) : in_range fl sl ->
  Q tt (s <| h_pools := <[pa := put_head fl sl v p]> (h_pools s) |>) -> wp tol (set_matrix pa fl sl v) Q s.
Proof using Hpa Hp.
  intros Hin HQ. unfold set_matrix. apply wp_bind, wp_matrix_at; [done|]. by apply (wp_pool_write _ _ _ p).
Qed.
End Ops.
