(* ===== verification/TlsfLinks.v ===== *)
(** The links of the free lists: insertion and extraction keep every list of
    every pool, and touch nothing but the links of free blocks. *)
From S2P Require Import Prelude CMonad Tlsf TlsfMap TlsfList.

(** * Segments of linked lists *)

Definition lst (p : Z) (l : list Z) : Z := default p (last l).

(** [l] is linked in memory, after [p] and before [n]. *)
Fixpoint dseg (m : Z -> Z) (p : Z) (l : list Z) (n : Z) : Prop :=
  match l with
  | [] => True
  | a :: l' => m (a + 16) = p /\ m (a + 24) = hd n l' /\ dseg m a l' n
  end.

Lemma lst_cons p a l : lst p (a :: l) = lst a l.
Proof. unfold lst. rewrite last_cons. by destruct (last l). Qed.

Lemma lst_in p l : l <> [] -> lst p l ∈ l.
Proof.
  revert p. induction l as [|a l IH]; intros p Hl; [done|]. rewrite lst_cons.
  destruct l as [|b l]; [by left|]. right. by apply IH.
Qed.

Lemma dseg_app m p l1 l2 n : dseg m p (l1 ++ l2) n <-> dseg m p l1 (hd n l2) /\ dseg m (lst p l1) l2 n.
Proof.
  revert p. induction l1 as [|a l1 IH]; intros p; simpl; [tauto|].
  rewrite IH, lst_cons. destruct l1; simpl; tauto.
Qed.

Lemma dseg_same m m' p l n : (forall a, a ∈ l -> m' (a + 16) = m (a + 16) /\ m' (a + 24) = m (a + 24)) ->
  dseg m p l n -> dseg m' p l n.
Proof.
  revert p. induction l as [|a l IH]; intros p Hm Hd; [done|]. destruct Hd as (H1 & H2 & H3). cbn [dseg].
  destruct (Hm a) as [-> ->]; [by left|]. split; [done|]. split; [done|]. apply IH; [|done].
  intros b Hb. apply Hm. by right.
Qed.

(** The link from the last node, and the link back from the first. *)
Lemma dseg_next m m' p l n n' : NoDup l -> dseg m p l n ->
  (forall a, a ∈ l -> m' (a + 16) = m (a + 16)) ->
  (forall a, a ∈ l -> a <> lst p l -> m' (a + 24) = m (a + 24)) ->
  (l <> [] -> m' (lst p l + 24) = n') -> dseg m' p l n'.
Proof.
  revert p. induction l as [|a l IH]; intros p Hnd Hd H16 H24 Hl; [done|].
  apply NoDup_cons in Hnd as [Ha Hnd]. destruct Hd as (H1 & H2 & H3). rewrite lst_cons in Hl, H24. cbn [dseg].
  split; [rewrite H16 by (by left); done|]. destruct l as [|b l].
  - split; [by apply Hl|done].
  - split.
    + rewrite H24; [done|by left|]. intros E. apply Ha. pose proof (lst_in a (b :: l)) as Hin. rewrite <- E in Hin. by apply Hin.
    + apply IH; [done|done|..].
      * intros x Hx. apply H16. by right.
      * intros x Hx. apply H24. by right.
      * intros _. by apply Hl.
Qed.

Lemma dseg_prev m m' p p' l n : NoDup l -> dseg m p l n ->
  (forall a, a ∈ l -> m' (a + 24) = m (a + 24)) ->
  (forall a, a ∈ tail l -> m' (a + 16) = m (a + 16)) ->
  (l <> [] -> m' (hd 0 l + 16) = p') -> dseg m' p' l n.
Proof.
  intros Hnd Hd H24 H16 Hl. destruct l as [|a l]; [done|]. destruct Hd as (H1 & H2 & H3). cbn [dseg].
  split; [by apply Hl|]. split; [rewrite H24 by (by left); done|].
  eapply dseg_same; [|done]. intros b Hb. split; [by apply H16|]. apply H24. by right.
Qed.

(** Links of different nodes are different words. *)
Lemma links_apart a b : a mod 16 = 0 -> b mod 16 = 0 -> a + 16 <> b + 24.
Proof.
  intros Ha Hb E. assert (a = b + 8) as -> by lia.
  rewrite Zplus_mod, Hb in Ha. done.
Qed.

(** * All lists *)

Definition lists := Z -> Z -> Z -> list Z.

Definition set_list (F : lists) (pa fl sl : Z) (l : list Z) : lists :=
  fun x i j => if decide ((x, i, j) = (pa, fl, sl)) then l else F x i j.

Lemma set_list_eq F pa fl sl l : set_list F pa fl sl l pa fl sl = l.
Proof. unfold set_list. by rewrite decide_True. Qed.
Lemma set_list_ne F pa fl sl l x i j : (x, i, j) <> (pa, fl, sl) -> set_list F pa fl sl l x i j = F x i j.
Proof. intros. unfold set_list. by rewrite decide_False. Qed.

(** Addresses of links. *)
Definition link_of (F : lists) (y : Z) : Prop := exists pa fl sl a, a ∈ F pa fl sl /\ (y = a + 16 \/ y = a + 24).

Record lists_ok (s : tlsf) (F : lists) : Prop := {
  lo_index : forall pa p, h_pools s !! pa = Some p -> pool_index p (fun fl sl => hd 0 (F pa fl sl));
  lo_seg : forall pa fl sl, dseg (h_mem s) 0 (F pa fl sl) 0;
  lo_node : forall pa fl sl a, a ∈ F pa fl sl -> 0 < a /\ a mod 16 = 0 /\
    mapped s (a + 16) = true /\ mapped s (a + 24) = true;
  lo_pool : forall pa fl sl a, a ∈ F pa fl sl -> is_Some (h_pools s !! pa) /\ in_range fl sl;
  lo_uniq : forall a pa fl sl pa' fl' sl', a ∈ F pa fl sl -> a ∈ F pa' fl' sl' -> (pa, fl, sl) = (pa', fl', sl');
  lo_nodup : forall pa fl sl, NoDup (F pa fl sl);
}.

(** The part of a pool that the lists do not use. *)
Definition pool_core (p : xmem_pool) : xmem_pool := p <| fl_bitmap := 0 |> <| sl_bitmap := [] |> <| matrix := [] |>.

(** A step on lists: words outside [N] and all but the indices of the pools stay. *)
Record lframe (N : Z -> Prop) (s s' : tlsf) : Prop := {
  lf_mem : forall y, ~ N y -> h_mem s' y = h_mem s y;
  lf_core : pool_core <$> h_pools s' = pool_core <$> h_pools s;
  lf_runs : h_runs s' = h_runs s;
  lf_list : pool_list_head s' = pool_list_head s;
  lf_xen : xenpool s' = xenpool s;
  lf_asked : h_asked s' = h_asked s;
}.

Lemma lframe_pool N s s' pa p : lframe N s s' -> h_pools s !! pa = Some p ->
  exists p', h_pools s' !! pa = Some p' /\ pool_core p' = pool_core p.
Proof.
  intros Hf Hp. pose proof (f_equal (lookup pa) (lf_core _ _ _ Hf)) as E.
  rewrite !lookup_fmap, Hp in E. destruct (h_pools s' !! pa) as [p'|]; [|done].
  exists p'. split; [done|]. by apply (inj Some).
Qed.

Lemma core_insert (m : gmap Z xmem_pool) pa p p' : m !! pa = Some p -> pool_core p' = pool_core p ->
  pool_core <$> <[pa := p']> m = pool_core <$> m.
Proof. intros Hp E. rewrite fmap_insert, E. apply insert_id. by rewrite lookup_fmap, Hp. Qed.

Lemma lf_refl N s : lframe N s s.
Proof. by split. Qed.

Lemma lf_trans (N1 N2 N : Z -> Prop) s1 s2 s3 : lframe N1 s1 s2 -> lframe N2 s2 s3 ->
  (forall y, N1 y \/ N2 y -> N y) -> lframe N s1 s3.
Proof.
  intros [] [] Hn. split; try congruence. intros y Hy. rewrite lf_mem1, lf_mem0 by naive_solver. done.
Qed.

(** Lists do not see other words. *)
Lemma lists_ok_frame s s' F : lists_ok s F -> (forall y, link_of F y -> h_mem s' y = h_mem s y) ->
  (forall y, mapped s y = true -> link_of F y -> mapped s' y = true) ->
  (forall pa p', h_pools s' !! pa = Some p' -> exists p, h_pools s !! pa = Some p /\
     fl_bitmap p' = fl_bitmap p /\ sl_bitmap p' = sl_bitmap p /\ matrix p' = matrix p) ->
  (forall pa, is_Some (h_pools s !! pa) -> (exists fl sl, F pa fl sl <> []) -> is_Some (h_pools s' !! pa)) ->
  lists_ok s' F.
Proof.
  intros [] Hm Hmap Hp Hd. split; [|..|done|done].
  - intros pa p' Hp'. destruct (Hp _ _ Hp') as (p & Hpa & E1 & E2 & E3).
    destruct (lo_index0 pa p Hpa) as []. split; rewrite ?E1, ?E2, ?E3; done.
  - intros pa fl sl. eapply dseg_same; [|done]. intros a Ha. split; apply Hm; exists pa, fl, sl, a; auto.
  - intros pa fl sl a Ha. destruct (lo_node0 _ _ _ _ Ha) as (H1 & H2 & H3 & H4).
    split_and!; [done|done|apply Hmap; [done|]..]; exists pa, fl, sl, a; auto.
  - intros pa fl sl a Ha. destruct (lo_pool0 _ _ _ _ Ha) as [H1 H2]. split; [|done]. apply Hd; [done|].
    exists fl, sl. intros E. rewrite E in Ha. set_solver.
Qed.

Lemma mapped_runs s s' a : h_runs s' = h_runs s -> mapped s' a = mapped s a.
Proof. intros E. unfold mapped. by rewrite E. Qed.

(** One list changes. *)
Section Change.
Context (s s' : tlsf) (F : lists) (pa fl sl : Z) (l : list Z) (p p' : xmem_pool).
Context (Hok : lists_ok s F) (Hin : in_range fl sl) (Hp : h_pools s !! pa = Some p).
Context (Hp' : h_pools s' = <[pa := p']> (h_pools s)).
Context (Hidx : pool_index p' (upd2 (fun i j => hd 0 (F pa i j)) fl sl (hd 0 l))).
Context (Hseg : dseg (h_mem s') 0 l 0) (Hnd : NoDup l).
Context (Hmem : forall x i j a, a ∈ F x i j -> (x, i, j) <> (pa, fl, sl) ->
  h_mem s' (a + 16) = h_mem s (a + 16) /\ h_mem s' (a + 24) = h_mem s (a + 24)).
Context (Hl : forall a, a ∈ l -> 0 < a /\ a mod 16 = 0 /\ mapped s (a + 16) = true /\ mapped s (a + 24) = true).
Context (Hfresh : forall a, a ∈ l -> a ∈ F pa fl sl \/ forall x i j, a ∉ F x i j).
Context (Hruns : h_runs s' = h_runs s).

Lemma list_change : lists_ok s' (set_list F pa fl sl l).
Proof using All.
  destruct Hok as []. split.
  - intros x q. rewrite Hp'. destruct (decide (x = pa)) as [->|Hx].
    + rewrite lookup_insert_eq. intros [= <-].
      assert (forall i j, upd2 (fun i j => hd 0 (F pa i j)) fl sl (hd 0 l) i j = hd 0 (set_list F pa fl sl l pa i j)) as E.
      { intros i j. destruct (decide ((i, j) = (fl, sl))) as [[= -> ->]|Hne].
        - by rewrite upd2_eq, set_list_eq.
        - by rewrite upd2_ne, set_list_ne by congruence. }
      pose proof Hidx as [R1 R2 R3 R4 R5 R6]. split; try done.
      * intros. rewrite <- E. by eapply R4.
      * intros i w Hi Hw. destruct (R5 i w Hi Hw) as [H0 Hb]. split; [done|]. intros j Hj. by rewrite <- E, Hb.
    + rewrite lookup_insert_ne by done. intros Hq. pose proof (lo_index0 x q Hq) as [R1 R2 R3 R4 R5 R6].
      assert (forall i j, set_list F pa fl sl l x i j = F x i j) as E by (intros; apply set_list_ne; congruence).
      split; try done.
      * intros. rewrite E. by eapply R4.
      * intros i w Hi Hw. destruct (R5 i w Hi Hw) as [H0 Hb]. split; [done|]. intros j Hj. by rewrite E, Hb.
  - intros x i j. destruct (decide ((x, i, j) = (pa, fl, sl))) as [[= -> -> ->]|Hne]; [by rewrite set_list_eq|].
    rewrite set_list_ne by done. eapply dseg_same; [|done]. intros a Ha. by apply (Hmem x i j).
  - intros x i j a. rewrite !(mapped_runs s s') by done.
    destruct (decide ((x, i, j) = (pa, fl, sl))) as [[= -> -> ->]|Hne].
    + rewrite set_list_eq. apply Hl.
    + rewrite set_list_ne by done. apply lo_node0.
  - intros x i j a Ha. rewrite Hp'. destruct (decide (x = pa)) as [->|Hx].
    + rewrite lookup_insert_eq. split; [done|]. destruct (decide ((i, j) = (fl, sl))) as [[= -> ->]|Hne]; [done|].
      rewrite set_list_ne in Ha by congruence. by eapply lo_pool0.
    + rewrite lookup_insert_ne by done. rewrite set_list_ne in Ha by congruence. by eapply lo_pool0.
  - assert (forall a x i j, a ∈ l -> a ∈ F x i j -> (x, i, j) = (pa, fl, sl)) as Hu.
    { intros a x i j Ha Hx. destruct (Hfresh a Ha) as [HF|HF]; [by eapply lo_uniq0|by destruct (HF x i j)]. }
    intros a x i j x' i' j'. destruct (decide ((x, i, j) = (pa, fl, sl))) as [[= -> -> ->]|Hne];
      destruct (decide ((x', i', j') = (pa, fl, sl))) as [[= -> -> ->]|Hne'];
      rewrite ?set_list_eq, ?(set_list_ne _ _ _ _ _ x i j), ?(set_list_ne _ _ _ _ _ x' i' j') by done; eauto using eq_sym.
  - intros x i j. destruct (decide ((x, i, j) = (pa, fl, sl))) as [[= -> -> ->]|Hne]; [by rewrite set_list_eq|].
    by rewrite set_list_ne.
Qed.
End Change.

(** * Insertion and extraction *)

Ltac wp_word := first [apply wp_store_word; [done|] | apply wp_load_word; [done|]].
Ltac upd_simp := repeat first [rewrite upd_eq | rewrite upd_ne by (done || lia || auto)].

(** The memory after an insertion in front of [l]. *)
Definition insert_mem (m : Z -> Z) (b : Z) (l : list Z) : Z -> Z :=
  let m := upd (upd m (b + 16) 0) (b + 24) (hd 0 l) in
  if hd 0 l =? 0 then m else upd m (hd 0 l + 16) b.

Lemma insert_mem_ne m b l x : x <> b + 16 -> x <> b + 24 -> (l = [] \/ x <> hd 0 l + 16) -> insert_mem m b l x = m x.
Proof.
  intros H1 H2 H3. unfold insert_mem. destruct (Z.eqb_spec (hd 0 l) 0) as [|Hh]; [by upd_simp|].
  destruct H3 as [->|]; [done|]. by upd_simp.
Qed.

(** A list is empty or has a head. *)
Lemma head_cases (l : list Z) : l = [] \/ exists h, head l = Some h /\ hd 0 l = h /\ h ∈ l.
Proof. destruct l as [|h l]; [by left|]. right. exists h. split; [done|]. split; [done|]. by left. Qed.

Section Insert.
Context (tol : fault -> Prop) (s : tlsf) (F : lists) (pa : Z) (p : xmem_pool) (fl sl b : Z) (l : list Z).
Context (Hok : lists_ok s F) (Hpa : h_pools s !! pa = Some p) (Hin : in_range fl sl) (El : F pa fl sl = l).
Context (Hb : 0 < b) (Hal : b mod 16 = 0) (Hm1 : mapped s (b + 16) = true) (Hm2 : mapped s (b + 24) = true).
Context (Hnew : forall x i j, b ∉ F x i j).

Lemma insert_node a : a ∈ l -> 0 < a /\ a mod 16 = 0 /\ mapped s (a + 16) = true /\ a <> b.
Proof using Hok El Hnew.
  intros Ha. rewrite <- El in Ha. destruct (lo_node _ _ Hok _ _ _ _ Ha) as (H1 & H2 & H3 & _).
  split_and!; try done. intros ->. by apply (Hnew pa fl sl).
Qed.

Lemma insert_other a : a mod 16 = 0 -> a <> b -> (forall h, head l = Some h -> a <> h) ->
  insert_mem (h_mem s) b l (a + 16) = h_mem s (a + 16).
Proof using El Hal.
  intros Ha Hne Hh. pose proof (links_apart a b Ha Hal). apply insert_mem_ne; [lia|lia|].
  destruct (head_cases l) as [->|(h & Eh & -> & _)]; [by left|]. right. pose proof (Hh h Eh). lia.
Qed.

Lemma insert_next a : a mod 16 = 0 -> a <> b -> insert_mem (h_mem s) b l (a + 24) = h_mem s (a + 24).
Proof using Hok Hal El Hnew.
  intros Ha Hne. pose proof (links_apart b a Hal Ha). apply insert_mem_ne; [lia|lia|].
  destruct (head_cases l) as [->|(h & Eh & -> & Hl)]; [by left|]. right.
  destruct (insert_node h Hl) as (_ & Hh & _). pose proof (links_apart h a Hh Ha). lia.
Qed.

Lemma insert_seg : dseg (insert_mem (h_mem s) b l) 0 (b :: l) 0.
Proof using Hok Hal El Hnew.
  pose proof (lo_seg _ _ Hok pa fl sl) as Hs. pose proof (lo_nodup _ _ Hok pa fl sl) as Hnd.
  rewrite El in Hs, Hnd. cbn [dseg]. split_and!.
  - unfold insert_mem. destruct (Z.eqb_spec (hd 0 l) 0) as [|Hh]; [by upd_simp|]. rewrite upd_ne; [by upd_simp|].
    destruct (head_cases l) as [->|(h & Eh & -> & Hl)]; [done|]. destruct (insert_node h Hl) as (_ & _ & _ & Hne). lia.
  - unfold insert_mem. destruct (Z.eqb_spec (hd 0 l) 0) as [|Hh]; [by upd_simp|]. rewrite upd_ne; [by upd_simp|].
    destruct (head_cases l) as [->|(h & Eh & -> & Hl)]; [done|]. destruct (insert_node h Hl) as (_ & Hha & _).
    pose proof (links_apart h b Hha Hal). lia.
  - eapply dseg_prev; [done|done|..].
    + intros a Ha. destruct (insert_node a Ha) as (_ & H1 & _ & H2). by apply insert_next.
    + intros a Ha. assert (a ∈ l /\ forall h, head l = Some h -> a <> h) as [Hal' Hnh].
      { clear El. destruct l as [|h l']; [by apply not_elem_of_nil in Ha|]. apply NoDup_cons in Hnd as [Hnh _].
        split; [by right|]. intros h' [= <-] ->. done. }
      destruct (insert_node a Hal') as (_ & H1 & _ & H2). by apply insert_other.
    + intros Hne. unfold insert_mem. destruct (head_cases l) as [->|(h & Eh & -> & Hl)]; [done|].
      destruct (insert_node h Hl) as (Hpos & _). destruct (Z.eqb_spec h 0); [lia|]. by upd_simp.
Qed.

Lemma wp_insert_block (Q : unit -> tlsf -> Prop) :
  (forall s', lists_ok s' (set_list F pa fl sl (b :: l)) ->
     lframe (link_of (set_list F pa fl sl (b :: l))) s s' -> Q tt s') ->
  wp tol (INSERT_BLOCK b pa fl sl) Q s.
Proof using All.
  intros HQ. pose proof (lo_index _ _ Hok pa p Hpa) as Hidx. destruct (index_word _ _ Hidx fl sl Hin) as [w Hw].
  unfold INSERT_BLOCK. apply wp_bind. eapply wp_matrix_at; [done|done|done|]. cbn beta. rewrite El.
  apply wp_bind. wp_word. apply wp_bind. wp_word. apply wp_bind.
  assert (forall k : tlsf -> Prop,
    k (s <| h_mem := insert_mem (h_mem s) b l |>) ->
    wp tol (if negb (hd 0 l =? 0) then store (f_free_prev (hd 0 l)) b else mret tt) (fun _ s' => k s')
      (s <| h_mem ::= fun m => upd m (f_free_prev b) 0 |> <| h_mem ::= fun m => upd m (f_free_next b) (hd 0 l) |>)) as Hlink.
  { intros k Hk. unfold insert_mem in Hk. destruct (Z.eqb_spec (hd 0 l) 0) as [|Hh]; [by apply wp_ret|].
    apply wp_store_word; [|done]. destruct (head_cases l) as [->|(h & Eh & -> & Hl)]; [done|]. by apply insert_node. }
  apply Hlink. apply wp_bind. eapply wp_set_matrix; [done|done|done|].
  apply wp_bind. eapply wp_pool_read; [apply lookup_insert_eq|]. apply wp_bind.
  destruct Hin as [Hf Hs]. eapply wp_arr; [lia|done|]. eapply wp_pool_write; [apply lookup_insert_eq|].
  match goal with |- Q tt ?x => set (s' := x) end.
  assert (h_pools s' = <[pa := put_bits fl sl w (put_head fl sl b p)]> (h_pools s)) as Hp'.
  { subst s'. cbn. by rewrite insert_insert_eq. }
  apply HQ.
  - eapply (list_change s s' F pa fl sl (b :: l) p); [done|done|done|exact Hp'|..].
    + apply index_put; [done|done|done|]. cbn. lia.
    + apply insert_seg.
    + apply NoDup_cons. split; [rewrite <- El; apply Hnew|]. rewrite <- El. apply (lo_nodup _ _ Hok).
    + intros x i j a Ha Hne. destruct (lo_node _ _ Hok _ _ _ _ Ha) as (_ & Ha16 & _).
      assert (a <> b) by (intros ->; by apply (Hnew x i j)). subst s'. cbn. split; [|by apply insert_next].
      apply insert_other; [done|done|]. intros h Hh ->. apply Hne.
      eapply (lo_uniq _ _ Hok); [done|]. rewrite El. by apply head_Some_elem_of.
    + intros a. rewrite elem_of_cons. intros [->|Ha]; [done|]. rewrite <- El in Ha.
      destruct (lo_node _ _ Hok _ _ _ _ Ha) as (H1 & H2 & H3 & H4). done.
    + intros a. rewrite elem_of_cons, El. intros [->|Ha]; [by right|by left].
    + done.
  - split; try done.
    + intros y Hy. subst s'. cbn. apply insert_mem_ne.
      * intros ->. apply Hy. exists pa, fl, sl, b. rewrite set_list_eq. split; [by left|by left].
      * intros ->. apply Hy. exists pa, fl, sl, b. rewrite set_list_eq. split; [by left|by right].
      * destruct (head_cases l) as [->|(h & Eh & -> & Hl)]; [by left|]. right. intros ->. apply Hy. exists pa, fl, sl, h.
        rewrite set_list_eq. split; [by right|by left].
    + rewrite Hp'. by eapply core_insert.
Qed.
End Insert.

(** The memory after [b] is taken out between [l1] and [l2]. *)
Definition extract_mem (m : Z -> Z) (b : Z) (l1 l2 : list Z) : Z -> Z :=
  let m := if hd 0 l2 =? 0 then m else upd m (hd 0 l2 + 16) (lst 0 l1) in
  let m := if lst 0 l1 =? 0 then m else upd m (lst 0 l1 + 24) (hd 0 l2) in
  upd (upd m (b + 16) 0) (b + 24) 0.

Definition extract_pool (fl sl w : Z) (l1 l2 : list Z) (p : xmem_pool) : xmem_pool :=
  if decide (l1 = []) then
    let p := put_head fl sl (hd 0 l2) p in if hd 0 l2 =? 0 then drop_bits fl sl w p else p
  else p.

Lemma extract_mem_ne m b l1 l2 x : x <> b + 16 -> x <> b + 24 -> (l2 = [] \/ x <> hd 0 l2 + 16) ->
  (l1 = [] \/ x <> lst 0 l1 + 24) -> extract_mem m b l1 l2 x = m x.
Proof.
  intros H1 H2 H3 H4. unfold extract_mem. upd_simp.
  destruct (Z.eqb_spec (lst 0 l1) 0); [|destruct H4 as [->|]; [done|]; upd_simp];
    (destruct (Z.eqb_spec (hd 0 l2) 0); [done|]; destruct H3 as [->|]; [done|]; by upd_simp).
Qed.

Lemma last_cases (l : list Z) : l = [] \/ lst 0 l ∈ l.
Proof. destruct l as [|h l]; [by left|]. right. by apply lst_in. Qed.

Section Extract.
Context (s : tlsf) (F : lists) (pa fl sl b : Z) (l1 l2 : list Z).
Context (Hok : lists_ok s F) (El : F pa fl sl = l1 ++ b :: l2).

Lemma extract_in a : a ∈ (l1 ++ b :: l2) -> 0 < a /\ a mod 16 = 0 /\ mapped s (a + 16) = true /\ mapped s (a + 24) = true.
Proof using Hok El. rewrite <- El. apply (lo_node _ _ Hok). Qed.

Lemma extract_range : in_range fl sl.
Proof using Hok El. eapply (lo_pool _ _ Hok pa fl sl b). rewrite El. set_solver. Qed.

Lemma extract_nodup : NoDup l1 /\ NoDup l2 /\ (b ∉ l1) /\ (b ∉ l2) /\ forall a, a ∈ l1 -> a ∉ l2.
Proof using Hok El.
  pose proof (lo_nodup _ _ Hok pa fl sl) as Hnd. rewrite El in Hnd. apply NoDup_app in Hnd as (H1 & H2 & H3).
  apply NoDup_cons in H3 as [H4 H5]. split_and!; try done.
  - intros Hb. apply (H2 b Hb). by left.
  - intros a Ha Ha2. apply (H2 a Ha). by right.
Qed.

Lemma extract_read : h_mem s (b + 16) = lst 0 l1 /\ h_mem s (b + 24) = hd 0 l2.
Proof using Hok El.
  pose proof (lo_seg _ _ Hok pa fl sl) as Hs. rewrite El in Hs. apply dseg_app in Hs as (_ & H1 & H2 & _). done.
Qed.

Lemma extract_zero : (lst 0 l1 = 0 <-> l1 = []) /\ (hd 0 l2 = 0 <-> l2 = []).
Proof using Hok El.
  split; (split; [|by intros ->]); intros E.
  - destruct (last_cases l1) as [|Hl]; [done|]. destruct (extract_in (lst 0 l1)); [set_solver|lia].
  - destruct (head_cases l2) as [|(h & _ & Eh & Hl)]; [done|]. destruct (extract_in h); [set_solver|lia].
Qed.

(** A link of another node than the neighbours. *)
Lemma extract_prev a : a mod 16 = 0 -> a <> b -> head l2 <> Some a ->
  extract_mem (h_mem s) b l1 l2 (a + 16) = h_mem s (a + 16).
Proof using Hok El.
  intros Ha Hne Hh. destruct (extract_in b) as (_ & Hb & _); [set_solver|]. pose proof (links_apart a b Ha Hb).
  apply extract_mem_ne; [lia|lia|..].
  - destruct (head_cases l2) as [->|(h & Eh & -> & Hl)]; [by left|]. right. assert (h <> a) by congruence. lia.
  - destruct (last_cases l1) as [->|Hl]; [by left|]. right. destruct (extract_in (lst 0 l1)) as (_ & Hx & _); [set_solver|].
    by apply links_apart.
Qed.

Lemma extract_next a : a mod 16 = 0 -> a <> b -> (l1 = [] \/ a <> lst 0 l1) ->
  extract_mem (h_mem s) b l1 l2 (a + 24) = h_mem s (a + 24).
Proof using Hok El.
  intros Ha Hne Hh. destruct (extract_in b) as (_ & Hb & _); [set_solver|]. pose proof (links_apart b a Hb Ha).
  apply extract_mem_ne; [lia|lia|..].
  - destruct (head_cases l2) as [->|(h & Eh & -> & Hl)]; [by left|]. right. destruct (extract_in h) as (_ & Hx & _); [set_solver|].
    pose proof (links_apart h a Hx Ha). lia.
  - destruct Hh as [|]; [by left|]. right. lia.
Qed.

Lemma extract_seg : dseg (extract_mem (h_mem s) b l1 l2) 0 (l1 ++ l2) 0.
Proof using Hok El.
  pose proof (lo_seg _ _ Hok pa fl sl) as Hs. rewrite El in Hs. apply dseg_app in Hs as (Hs1 & _ & _ & Hs2).
  destruct extract_nodup as (Hn1 & Hn2 & Hb1 & Hb2 & Hd). destruct extract_zero as [Hz1 Hz2].
  destruct (extract_in b) as (_ & Hb & _); [set_solver|].
  assert (forall a, a ∈ l1 \/ a ∈ l2 -> a mod 16 = 0 /\ a <> b) as Ha.
  { intros a Ha. split; [apply extract_in; set_solver|]. intros ->. naive_solver. }
  apply dseg_app. split.
  - eapply dseg_next; [done|exact Hs1|..].
    + intros a Hin. destruct (Ha a) as [H1 H2]; [by left|]. apply extract_prev; [done|done|].
      intros Hh. apply (Hd a Hin). by apply head_Some_elem_of.
    + intros a Hin Hne. destruct (Ha a) as [H1 H2]; [by left|]. apply extract_next; [done|done|by right].
    + intros Hne. pose proof (lst_in 0 l1 Hne) as Hl. destruct (Ha (lst 0 l1)) as [H1 H2]; [by left|].
      pose proof (links_apart b (lst 0 l1) Hb H1). unfold extract_mem.
      destruct (Z.eqb_spec (lst 0 l1) 0); [naive_solver|]. rewrite !(upd_ne _ (b + _)) by lia. by upd_simp.
  - eapply dseg_prev; [done|exact Hs2|..].
    + intros a Hin. destruct (Ha a) as [H1 H2]; [by right|]. apply extract_next; [done|done|].
      destruct (last_cases l1) as [|Hl]; [by left|]. right. intros ->. by apply (Hd (lst 0 l1)).
    + intros a Hin. destruct (Ha a) as [H1 H2]; [right; destruct l2; set_solver|]. apply extract_prev; [done|done|].
      intros Hh. destruct l2 as [|h l2']; [done|]. injection Hh as ->. apply NoDup_cons in Hn2 as [Hn2 _]. done.
    + intros Hne. destruct (head_cases l2) as [|(h & Eh & Eh' & Hl)]; [done|]. rewrite Eh'.
      destruct (Ha h) as [H1 H2]; [by right|]. pose proof (links_apart h b H1 Hb). unfold extract_mem.
      rewrite !(upd_ne _ (b + _)) by lia. rewrite Eh'.
      assert (h <> 0) by (intros ->; naive_solver). destruct (Z.eqb_spec h 0); [done|].
      destruct (Z.eqb_spec (lst 0 l1) 0) as [|Hl1]; [by upd_simp|].
      rewrite upd_ne; [by upd_simp|]. apply links_apart; [done|]. apply Ha. left. apply lst_in. naive_solver.
Qed.

Context (p : xmem_pool) (w : Z) (Hpa : h_pools s !! pa = Some p) (Hw : sl_bitmap p !! Z.to_nat fl = Some w).

(** The state after an extraction. *)
Lemma extract_lists s' : h_mem s' = extract_mem (h_mem s) b l1 l2 ->
  h_pools s' = <[pa := extract_pool fl sl w l1 l2 p]> (h_pools s) -> h_runs s' = h_runs s ->
  lists_ok s' (set_list F pa fl sl (l1 ++ l2)).
Proof using All.
  intros Hm Hp' Hr. destruct extract_nodup as (Hn1 & Hn2 & Hb1 & Hb2 & Hd). pose proof extract_range as Hin.
  pose proof (lo_index _ _ Hok pa p Hpa) as Hidx. destruct extract_zero as [Hz1 Hz2].
  eapply (list_change s s' F pa fl sl (l1 ++ l2) p); [done|done|done|exact Hp'|..].
  - unfold extract_pool. destruct (decide (l1 = [])) as [E1|Hne1].
    + rewrite E1. cbn [app]. destruct (Z.eqb_spec (hd 0 l2) 0) as [->|Hne].
      * by apply index_drop.
      * apply index_replace; [done|done| |done]. rewrite El, E1. cbn. destruct (extract_in b); [set_solver|lia].
    + assert (hd 0 (l1 ++ l2) = hd 0 (F pa fl sl)) as -> by (rewrite El; clear -Hne1; by destruct l1).
      destruct Hidx as [R1 R2 R3 R4 R5 R6].
      assert (forall i j, upd2 (fun i j => hd 0 (F pa i j)) fl sl (hd 0 (F pa fl sl)) i j = hd 0 (F pa i j)) as E.
      { intros i j. destruct (decide ((i, j) = (fl, sl))) as [[= -> ->]|]; [by rewrite upd2_eq|by rewrite upd2_ne]. }
      split; try done.
      * intros. rewrite E. by eapply R4.
      * intros i v Hi Hv. destruct (R5 i v Hi Hv) as [H0 Hbit]. split; [done|]. intros j Hj. by rewrite E, Hbit.
  - rewrite Hm. apply extract_seg.
  - apply NoDup_app. done.
  - intros x i j a Ha Hne. rewrite Hm. destruct (lo_node _ _ Hok _ _ _ _ Ha) as (_ & Ha16 & _).
    assert (forall a', a' ∈ (l1 ++ b :: l2) -> a <> a') as Hout.
    { intros a' Ha' ->. apply Hne. eapply (lo_uniq _ _ Hok); [done|]. by rewrite El. }
    split; [apply extract_prev|apply extract_next]; try done; try (apply Hout; set_solver).
    + intros Hh. apply head_Some_elem_of in Hh. apply (Hout a); [set_solver|done].
    + destruct (last_cases l1) as [|Hl]; [by left|]. right. apply Hout. set_solver.
  - intros a Ha. apply extract_in. set_solver.
  - intros a Ha. left. rewrite El. set_solver.
  - done.
Qed.

Lemma extract_frame s' : h_mem s' = extract_mem (h_mem s) b l1 l2 ->
  h_pools s' = <[pa := extract_pool fl sl w l1 l2 p]> (h_pools s) -> h_runs s' = h_runs s ->
  pool_list_head s' = pool_list_head s -> xenpool s' = xenpool s -> h_asked s' = h_asked s ->
  lframe (link_of F) s s'.
Proof using All.
  intros Hm Hp' Hr H1 H2 H3. split; try done.
  - intros y Hy. rewrite Hm.
    assert (forall a, a ∈ (l1 ++ b :: l2) -> y <> a + 16 /\ y <> a + 24) as Hout.
    { intros a Ha. split; intros ->; apply Hy; exists pa, fl, sl, a; rewrite El; auto. }
    apply extract_mem_ne; [apply Hout; set_solver..| |].
    + destruct (head_cases l2) as [->|(h & Eh & -> & Hl)]; [by left|]. right. apply Hout. set_solver.
    + destruct (last_cases l1) as [->|Hl]; [by left|]. right. apply Hout. set_solver.
  - rewrite Hp'. apply core_insert with p; [done|]. unfold extract_pool, drop_bits.
    destruct (decide (l1 = [])); [|done]. destruct (hd 0 l2 =? 0); [|done]. by destruct (Z.clearbit w sl =? 0).
Qed.
Context (tol : fault -> Prop) (Q : unit -> tlsf -> Prop).
Context (HQ : forall s', lists_ok s' (set_list F pa fl sl (l1 ++ l2)) -> lframe (link_of F) s s' ->
  h_mem s' (b + 16) = 0 -> h_mem s' (b + 24) = 0 -> Q tt s').

(** [clear_bits] after the head was written. *)
Lemma wp_clear_bits v (k : unit -> tlsf -> Prop) s1 : in_range fl sl -> h_pools s1 !! pa = Some (put_head fl sl v p) ->
  k tt (s1 <| h_pools := <[pa := drop_bits fl sl w (put_head fl sl v p)]> (h_pools s1) |>) ->
  wp tol (clear_bits pa fl sl) k s1.
Proof using Hw.
  intros [Hf _] Hp1 Hk. unfold clear_bits. apply wp_bind. eapply wp_pool_read; [done|].
  apply wp_bind. eapply wp_arr; [lia|exact Hw|]. apply wp_bind. eapply wp_pool_write; [done|].
  unfold drop_bits in Hk. destruct (Z.clearbit w sl =? 0).
  - eapply wp_pool_write; [apply lookup_insert_eq|]. cbv [setter] in *. cbn [h_pools] in *. by rewrite insert_insert_eq.
  - by apply wp_ret.
Qed.

Lemma extract_done (s' : tlsf) : h_mem s' = extract_mem (h_mem s) b l1 l2 ->
  h_pools s' = <[pa := extract_pool fl sl w l1 l2 p]> (h_pools s) -> h_runs s' = h_runs s ->
  pool_list_head s' = pool_list_head s -> xenpool s' = xenpool s -> h_asked s' = h_asked s -> Q tt s'.
Proof using All.
  intros Hm Hp' Hr H1 H2 H3. apply HQ.
  - by apply extract_lists.
  - by apply extract_frame.
  - rewrite Hm. unfold extract_mem. by upd_simp.
  - rewrite Hm. unfold extract_mem. by upd_simp.
Qed.

Lemma wp_extract_hdr : l1 = [] -> wp tol (EXTRACT_BLOCK_HDR b pa fl sl) Q s.
Proof using All.
  intros E1. pose proof extract_range as Hin. pose proof (lo_index _ _ Hok pa p Hpa) as Hidx.
  destruct extract_read as [R1 R2]. destruct (extract_in b) as (Hb & Hal & M1 & M2); [set_solver|].
  assert (lst 0 l1 = 0) as E0 by (by rewrite E1).
  unfold EXTRACT_BLOCK_HDR. apply wp_bind. wp_word. unfold f_free_next, f_free_prev. rewrite R2.
  apply wp_bind. eapply wp_set_matrix; [done|done|done|]. apply wp_bind.
  destruct (Z.eqb_spec (hd 0 l2) 0) as [Hz|Hnz]; cbn [negb].
  - eapply wp_clear_bits; [done|apply lookup_insert_eq|]. apply wp_bind. wp_word. wp_word.
    apply extract_done; try done; cbv [setter]; cbn [h_mem h_pools].
    + unfold extract_mem. rewrite E0, Hz. done.
    + rewrite insert_insert_eq. unfold extract_pool. by rewrite decide_True, Hz.
  - apply wp_store_word.
    { destruct (head_cases l2) as [->|(h & Eh & -> & Hl)]; [done|]. apply (extract_in h). set_solver. }
    apply wp_bind. wp_word. wp_word. apply extract_done; try done; cbv [setter]; cbn [h_mem h_pools].
    + unfold extract_mem. rewrite E0. by destruct (Z.eqb_spec (hd 0 l2) 0).
    + unfold extract_pool. rewrite decide_True by done. by destruct (Z.eqb_spec (hd 0 l2) 0).
Qed.

(** The neighbours are linked past [b]. *)
Definition unlink1 (m : Z -> Z) : Z -> Z := if hd 0 l2 =? 0 then m else upd m (hd 0 l2 + 16) (lst 0 l1).
Definition unlink2 (m : Z -> Z) : Z -> Z := if lst 0 l1 =? 0 then m else upd m (lst 0 l1 + 24) (hd 0 l2).

Lemma unlink_b m y : y = b + 16 \/ y = b + 24 -> unlink1 m y = m y /\ unlink2 m y = m y.
Proof using Hok El.
  destruct extract_nodup as (_ & _ & Hb1 & Hb2 & _). destruct (extract_in b) as (_ & Hal & _); [clear; set_solver|].
  intros Hy. split.
  - unfold unlink1. destruct (Z.eqb_spec (hd 0 l2) 0) as [|Hne]; [done|].
    destruct (head_cases l2) as [E|(h & Eh & Eh' & Hl)]; [by rewrite E in Hne|]. rewrite Eh'.
    destruct (extract_in h) as (_ & Hh & _); [clear -Hl; set_solver|]. apply upd_ne.
    pose proof (links_apart h b Hh Hal). assert (h <> b) by (intros ->; done). lia.
  - unfold unlink2. destruct (Z.eqb_spec (lst 0 l1) 0) as [|Hne]; [done|].
    destruct (last_cases l1) as [E|Hl]; [by rewrite E in Hne|].
    destruct (extract_in (lst 0 l1)) as (_ & Hh & _); [clear -Hl; set_solver|]. apply upd_ne.
    pose proof (links_apart b (lst 0 l1) Hal Hh). assert (lst 0 l1 <> b) by (intros E; by rewrite E in Hl). lia.
Qed.

Lemma wp_unlink1 s1 : h_runs s1 = h_runs s -> h_mem s1 (b + 16) = lst 0 l1 ->
  wp tol (if negb (hd 0 l2 =? 0) then p ← load (f_free_prev b); store (f_free_prev (hd 0 l2)) p else mret tt)
    (fun _ s' => s' = s1 <| h_mem ::= unlink1 |>) s1.
Proof using Hok El.
  intros Hr R1. destruct (extract_in b) as (_ & _ & M1 & _); [clear; set_solver|]. unfold unlink1, f_free_prev.
  destruct (Z.eqb_spec (hd 0 l2) 0) as [|Hne]; cbn [negb]; [apply wp_ret; by destruct s1|].
  apply wp_bind. apply wp_load_word; [by rewrite (mapped_runs s s1)|]. rewrite R1. apply wp_store_word; [|done].
  rewrite (mapped_runs s s1) by done. destruct (head_cases l2) as [E|(h & Eh & Eh' & Hl)]; [by rewrite E in Hne|].
  rewrite Eh'. apply (extract_in h). clear -Hl. set_solver.
Qed.

Lemma wp_unlink2 s1 : h_runs s1 = h_runs s -> h_mem s1 (b + 24) = hd 0 l2 ->
  wp tol (if negb (lst 0 l1 =? 0) then n ← load (f_free_next b); store (f_free_next (lst 0 l1)) n else mret tt)
    (fun _ s' => s' = s1 <| h_mem ::= unlink2 |>) s1.
Proof using Hok El.
  intros Hr R1. destruct (extract_in b) as (_ & _ & _ & M2); [clear; set_solver|]. unfold unlink2, f_free_next.
  destruct (Z.eqb_spec (lst 0 l1) 0) as [|Hne]; cbn [negb]; [apply wp_ret; by destruct s1|].
  apply wp_bind. apply wp_load_word; [by rewrite (mapped_runs s s1)|]. rewrite R1. apply wp_store_word; [|done].
  rewrite (mapped_runs s s1) by done. destruct (last_cases l1) as [E|Hl]; [by rewrite E in Hne|].
  apply (extract_in (lst 0 l1)). clear -Hl. set_solver.
Qed.

Lemma wp_extract : wp tol (EXTRACT_BLOCK b pa fl sl) Q s.
Proof using All.
  pose proof extract_range as Hin. pose proof (lo_index _ _ Hok pa p Hpa) as Hidx.
  destruct extract_read as [R1 R2]. destruct (extract_in b) as (Hb & Hal & M1 & M2); [set_solver|].
  destruct extract_zero as [Hz1 Hz2]. pose proof (fun m => unlink_b m (b + 16) (or_introl eq_refl)) as U1.
  pose proof (fun m => unlink_b m (b + 24) (or_intror eq_refl)) as U2.
  unfold EXTRACT_BLOCK, f_free_next, f_free_prev. apply wp_bind. wp_word. rewrite R2. apply wp_bind.
  eapply wp_mono; [by apply wp_unlink1|]. intros _ s1 ->. apply wp_bind. wp_word. cbn [h_mem setter].
  rewrite (proj1 (U1 _)), R1. apply wp_bind.
  eapply wp_mono; [apply wp_unlink2; [done|]; cbn [h_mem setter]; by rewrite (proj1 (U2 _))|]. intros _ s1 ->.
  apply wp_bind. eapply wp_matrix_at; [done|done|done|]. cbn beta.
  assert (hd 0 (F pa fl sl) = hd b l1) as -> by (rewrite El; clear; by destruct l1). apply wp_bind.
  eapply (wp_mono tol _ (fun _ s' => s' = s <| h_mem ::= unlink1 |> <| h_mem ::= unlink2 |>
    <| h_pools := <[pa := extract_pool fl sl w l1 l2 p]> (h_pools s) |>)).
  - unfold extract_pool. destruct (Z.eqb_spec (hd b l1) b) as [Eh|Eh].
    + assert (l1 = []) as E1.
      { destruct extract_nodup as (_ & _ & Hb1 & _). clear -Eh Hb1. destruct l1; [done|]. cbn in Eh. set_solver. }
      rewrite decide_True by done. apply wp_bind. wp_word. cbn [h_mem setter].
      rewrite (proj2 (U2 _)), (proj1 (U2 _)), R2. apply wp_bind. eapply wp_set_matrix; [done|done|done|].
      destruct (Z.eqb_spec (hd 0 l2) 0) as [Hz|Hnz].
      * eapply wp_clear_bits; [done|apply lookup_insert_eq|]. cbv [setter]. cbn. by rewrite insert_insert_eq, Hz.
      * by apply wp_ret.
    + rewrite decide_False by (intros E; by rewrite E in Eh). apply wp_ret. rewrite insert_id by done. done.
  - intros _ s' ->. apply wp_bind. wp_word. wp_word. by apply extract_done.
Qed.
End Extract.
