(* ===== verification/TlsfInv.v ===== *)
(** The layout of a pool's memory: blocks that follow each other in every
    region, their headers in memory, and how splitting, joining and freeing
    blocks change the layout. *)
From S2P Require Import Prelude CMonad Tlsf TlsfMap TlsfList TlsfLinks.

(** * The size word *)

Definition word (n : Z) (f pf : bool) : Z := n + Z.b2z f + 2 * Z.b2z pf.

Lemma land_low n c : n mod 16 = 0 -> 0 <= c < 16 -> Z.land n c = 0.
Proof.
  intros Hn Hc. replace c with (Z.land c (Z.ones 4)) by (rewrite Z.land_ones by lia; by apply Z.mod_small).
  rewrite (Z.land_comm c), Z.land_assoc, Z.land_ones by lia. change (2 ^ 4) with 16. rewrite Hn. apply Z.land_0_l.
Qed.

Lemma add_low n c : n mod 16 = 0 -> 0 <= c < 16 -> n + c = Z.lor n c.
Proof. intros. apply Z.add_nocarry_lor. by apply land_low. Qed.

Lemma word_lor n f pf : n mod 16 = 0 -> word n f pf = Z.lor n (Z.b2z f + 2 * Z.b2z pf).
Proof. intros. rewrite <- add_low; [unfold word; lia|done|]. destruct f, pf; cbn; lia. Qed.

Section Word.
Context (n : Z) (f pf : bool) (Hn : n mod 16 = 0) (Hr : 0 <= n < 2 ^ 32).

Lemma word_size : Z.land (word n f pf) BLOCK_SIZE_MASK = n.
Proof using Hn Hr.
  replace BLOCK_SIZE_MASK with (Z.land (Z.ones 32) (Z.lnot (2 ^ 3 - 1))) by reflexivity.
  assert (n < 2 ^ 32 - 15) as Hlt.
  { pose proof (Z.div_mod n 16). change (2 ^ 32) with (16 * 2 ^ 28) in *. lia. }
  rewrite Z.land_assoc, Z.land_ones, land_lnot_low, (Z.mod_small (word n f pf)) by (unfold word; destruct f, pf; cbn; lia).
  assert (n mod 8 = 0) as Hn8 by (rewrite <- (Z.mod_mod_divide n 16 8), Hn; [done|by exists 2]).
  assert (forall c, 0 <= c < 8 -> (n + c) mod 8 = c) as Hc.
  { intros c Hc. rewrite Zplus_mod, Hn8, (Z.mod_small c) by done. by apply Z.mod_small. }
  unfold word. rewrite <- Z.add_assoc. change (2 ^ 3) with 8. rewrite Hc; destruct f, pf; cbn; lia.
Qed.

Lemma word_land c : 0 <= c < 16 -> Z.land (word n f pf) c = Z.land (Z.b2z f + 2 * Z.b2z pf) c.
Proof using Hn. intros. by rewrite word_lor, Z.land_lor_distr_l, land_low. Qed.

Lemma word_free : Z.land (word n f pf) FREE_BLOCK = Z.b2z f.
Proof using Hn. rewrite word_land by done. by destruct f, pf. Qed.
Lemma word_pfree : Z.land (word n f pf) PREV_FREE = 2 * Z.b2z pf.
Proof using Hn. rewrite word_land by done. by destruct f, pf. Qed.

Lemma word_or c f' pf' : Z.lor (Z.b2z f + 2 * Z.b2z pf) c = Z.b2z f' + 2 * Z.b2z pf' ->
  Z.lor (word n f pf) c = word n f' pf'.
Proof using Hn. intros E. by rewrite !word_lor, <- Z.lor_assoc, E. Qed.

Lemma word_clear c f' pf' : 0 <= c < 16 -> Z.ldiff (Z.b2z f + 2 * Z.b2z pf) c = Z.b2z f' + 2 * Z.b2z pf' ->
  Z.land (word n f pf) (Z.lnot c) = word n f' pf'.
Proof using Hn.
  intros Hc E. rewrite !word_lor, Z.land_lor_distr_l, <- !Z.ldiff_land by done. rewrite E. f_equal.
  pose proof (Z.lor_ldiff_and n c) as Hl. by rewrite land_low, Z.lor_0_r in Hl.
Qed.

Lemma word_range : 0 <= word n f pf < 2 ^ 32.
Proof using Hn Hr.
  assert (n < 2 ^ 32 - 15) as Hlt.
  { pose proof (Z.div_mod n 16). change (2 ^ 32) with (16 * 2 ^ 28) in *. lia. }
  unfold word. destruct f, pf; cbn; lia.
Qed.
End Word.

(** The words the code composes. *)
Lemma word_new n : n mod 16 = 0 -> 0 <= n < 2 ^ 32 -> u32 (Z.lor (Z.lor n FREE_BLOCK) PREV_USED) = word n true false.
Proof.
  intros Hn Hr. assert (Z.lor (word n false false) 1 = word n true false) as E by (by apply word_or).
  unfold FREE_BLOCK, PREV_USED. rewrite Z.lor_0_r. replace n with (word n false false) at 1 by (unfold word; cbn; lia).
  rewrite E. apply wrap_id, word_range; done.
Qed.

Lemma word_cut n sz f pf : n mod 16 = 0 -> sz mod 16 = 0 -> 0 <= sz < 2 ^ 32 ->
  u32 (Z.lor sz (Z.land (word n f pf) PREV_STATE)) = word sz false pf.
Proof.
  intros Hn Hs Hr. unfold PREV_STATE. rewrite word_pfree by done.
  assert (Z.lor (word sz false false) (2 * Z.b2z pf) = word sz false pf) as E by (apply word_or; [done|by destruct pf]).
  replace sz with (word sz false false) at 1 by (unfold word; cbn; lia). rewrite E. apply wrap_id, word_range; done.
Qed.

(** Small steps on multiples of 16. *)
Lemma mod16_add a b : a mod 16 = 0 -> b mod 16 = 0 -> (a + b) mod 16 = 0.
Proof. intros Ha Hb. by rewrite Zplus_mod, Ha, Hb. Qed.
Lemma mod16_sub a b : a mod 16 = 0 -> b mod 16 = 0 -> (a - b) mod 16 = 0.
Proof. intros Ha Hb. by rewrite Zminus_mod, Ha, Hb. Qed.
Lemma mod16_le a b : a mod 16 = 0 -> b mod 16 = 0 -> a < b -> a + 16 <= b.
Proof. intros Ha Hb. pose proof (Z.div_mod a 16). pose proof (Z.div_mod b 16). lia. Qed.
#[export] Hint Resolve mod16_add mod16_sub : core.

Lemma word_add n m f pf : n mod 16 = 0 -> m mod 16 = 0 -> 0 <= n -> 0 <= m -> n + 16 + m < 2 ^ 32 ->
  u32 (word n f pf + (m + 16)) = word (n + 16 + m) f pf.
Proof.
  intros Hn Hm H1 H2 H3. replace (word n f pf + (m + 16)) with (word (n + 16 + m) f pf) by (unfold word; lia).
  apply wrap_id, word_range; [auto|lia].
Qed.

(** * Blocks *)

(** A block: its pool, the region it lies in, the block before it (0 for the
    first one of a region), its size (0 for the sentinel that ends a region),
    and whether it and the block before it are free. *)
Record blk := mk_blk { k_pool : Z; k_reg : Z; k_prev : Z; k_size : Z; k_free : bool; k_pfree : bool }.
#[export] Instance eta_blk : Eta blk := fun r =>
  mk_blk (k_pool r) (k_reg r) (k_prev r) (k_size r) (k_free r) (k_pfree r).

Definition b_word (b : blk) : Z := word (k_size b) (k_free b) (k_pfree b).

(** The headers of [B] are in memory. *)
Definition hdr_ok (m : Z -> Z) (B : gmap Z blk) : Prop := forall a b, B !! a = Some b ->
  a mod 16 = 0 /\ m a = k_prev b /\ m (a + 8) = b_word b.

(** [R] has the regions: their pools and lengths. *)
Record geom (B : gmap Z blk) (R : gmap Z (Z * Z)) : Prop := {
  ge_align : forall a b, B !! a = Some b -> a mod 16 = 0 /\ k_size b mod 16 = 0 /\ 0 <= k_size b < 2 ^ 30 /\
    (k_size b = 0 -> k_free b = false);
  ge_reg : forall a b, B !! a = Some b -> exists n, R !! k_reg b = Some (k_pool b, n) /\ k_reg b <= a /\
    a + 16 + k_size b <= k_reg b + n /\ (k_size b = 0 -> a + 16 = k_reg b + n) /\ (k_prev b = 0 <-> a = k_reg b);
  ge_next : forall a b, B !! a = Some b -> k_size b <> 0 -> exists c, B !! (a + 16 + k_size b) = Some c /\
    k_prev c = a /\ k_pfree c = k_free b /\ k_reg c = k_reg b /\ k_pool c = k_pool b;
  ge_prev : forall a b, B !! a = Some b -> k_prev b <> 0 -> exists c, B !! k_prev b = Some c /\
    k_prev b + 16 + k_size c = a /\ k_size c <> 0;
  ge_first : forall a b, B !! a = Some b -> k_prev b = 0 -> k_pfree b = false;
  ge_apart : forall a b a' b', B !! a = Some b -> B !! a' = Some b' -> a < a' -> a + 16 + k_size b <= a';
  ge_base : forall r pa n, R !! r = Some (pa, n) -> 0 < r /\ r mod 16 = 0 /\ n < 2 ^ 30 /\
    exists b, B !! r = Some b /\ k_reg b = r;
}.

Section Geom.
Context (B : gmap Z blk) (R : gmap Z (Z * Z)) (HG : geom B R).

Lemma blk_pos a b : B !! a = Some b -> 0 < a.
Proof using HG.
  intros Ha. destruct (ge_reg _ _ HG a b Ha) as (n & Hr & Hle & _). destruct (ge_base _ _ HG _ _ _ Hr). lia.
Qed.

Lemma blk_size a b : B !! a = Some b -> k_size b <> 0 -> 16 <= k_size b.
Proof using HG.
  intros Ha Hne. destruct (ge_align _ _ HG a b Ha) as (_ & Hm & Hs & _).
  assert (0 < k_size b) as Hlt by lia. pose proof (mod16_le 0 (k_size b) eq_refl Hm Hlt). lia.
Qed.

Lemma blk_inside a b x : B !! a = Some b -> a < x < a + 16 + k_size b -> B !! x = None.
Proof using HG.
  intros Ha Hx. destruct (B !! x) as [c|] eqn:Hc; [|done].
  pose proof (ge_apart _ _ HG a b x c Ha Hc). lia.
Qed.

(** * Changing whether a block is free *)

Section SetFree.
Context (a : Z) (b c : blk) (f : bool) (Ha : B !! a = Some b) (Hsz : k_size b <> 0) (Hc : B !! (a + 16 + k_size b) = Some c).

Definition set_free_at : gmap Z blk :=
  <[a := b <| k_free := f |>]> (<[a + 16 + k_size b := c <| k_pfree := f |>]> B).

Lemma set_free_lookup x y : set_free_at !! x = Some y ->
  x = a /\ y = b <| k_free := f |> \/ x = a + 16 + k_size b /\ y = c <| k_pfree := f |> \/
  x <> a /\ x <> a + 16 + k_size b /\ B !! x = Some y.
Proof using Type.
  unfold set_free_at. rewrite lookup_insert_Some. intros [[<- <-]|[Hne Hx]]; [by left|].
  apply lookup_insert_Some in Hx as [[<- <-]|[Hne' Hx]]; auto.
Qed.

(** Only flags change. *)
Lemma set_free_same x y : B !! x = Some y -> exists y', set_free_at !! x = Some y' /\ k_size y' = k_size y /\
  k_prev y' = k_prev y /\ k_reg y' = k_reg y /\ k_pool y' = k_pool y /\
  (x <> a -> k_free y' = k_free y) /\ (x <> a + 16 + k_size b -> k_pfree y' = k_pfree y).
Proof using HG Ha Hc.
  intros Hx. unfold set_free_at. destruct (decide (x = a)) as [->|Hne].
  - rewrite Ha in Hx. injection Hx as <-. rewrite lookup_insert_eq. eexists. by split_and!.
  - rewrite lookup_insert_ne by done. destruct (decide (x = a + 16 + k_size b)) as [->|Hne'].
    + rewrite Hc in Hx. injection Hx as <-. rewrite lookup_insert_eq. eexists. by split_and!.
    + rewrite lookup_insert_ne by done. exists y. by split_and!.
Qed.

Lemma set_free_geom : geom set_free_at R.
Proof using All.
  pose proof (blk_size a b Ha Hsz) as H16. pose proof (blk_pos a b Ha) as Hpos.
  destruct (ge_next _ _ HG a b Ha Hsz) as (c' & Hc' & Hcp & Hcf & Hcr & Hco). rewrite Hc in Hc'. injection Hc' as <-.
  assert (set_free_at !! a = Some (b <| k_free := f |>)) as La by (apply lookup_insert_eq).
  assert (set_free_at !! (a + 16 + k_size b) = Some (c <| k_pfree := f |>)) as Lc.
  { unfold set_free_at. rewrite lookup_insert_ne by lia. apply lookup_insert_eq. }
  assert (forall x y, set_free_at !! x = Some y -> exists z, B !! x = Some z /\ k_size y = k_size z /\
    k_prev y = k_prev z /\ k_reg y = k_reg z /\ k_pool y = k_pool z) as Hold.
  { intros x y Hy. apply set_free_lookup in Hy as [[-> ->]|[[-> ->]|(_ & _ & Hy)]]; eexists; by split_and!. }
  split.
  - intros x y Hy. apply set_free_lookup in Hy as [[-> ->]|[[-> ->]|(_ & _ & Hy)]]; [..|by apply (ge_align _ _ HG)].
    + destruct (ge_align _ _ HG a b Ha) as (H1 & H2 & H3 & _). done.
    + by apply (ge_align _ _ HG _ c).
  - intros x y Hy. destruct (Hold x y Hy) as (z & Hz & -> & -> & -> & ->). by apply (ge_reg _ _ HG).
  - intros x y Hy Hne. apply set_free_lookup in Hy as [[-> ->]|[[-> ->]|(Hx1 & Hx2 & Hy)]].
    + exists (c <| k_pfree := f |>). by split_and!.
    + cbn in *. destruct (ge_next _ _ HG _ c Hc Hne) as (d & Hd & Hdp & Hdf & Hdr & Hdo).
      pose proof (blk_size _ c Hc Hne). destruct (set_free_same _ _ Hd) as (d' & Hd' & _ & E1 & E2 & E3 & _ & Hf).
      exists d'. split_and!; [done|congruence| |congruence..]. rewrite Hf by lia. done.
    + destruct (ge_next _ _ HG x y Hy Hne) as (d & Hd & Hdp & Hdf & Hdr & Hdo).
      destruct (set_free_same _ _ Hd) as (d' & Hd' & _ & E1 & E2 & E3 & _ & Hf).
      exists d'. split_and!; [done|congruence| |congruence..]. rewrite Hf; [done|]. intros E. rewrite E in Hd. rewrite Hd in Hc. congruence.
  - intros x y Hy Hne. destruct (Hold x y Hy) as (z & Hz & _ & Ep & _ & _). rewrite Ep in *.
    destruct (ge_prev _ _ HG x z Hz Hne) as (d & Hd & H1 & H2).
    destruct (set_free_same _ _ Hd) as (d' & -> & Es & _). exists d'. by rewrite Es.
  - intros x y Hy Hp. apply set_free_lookup in Hy as [[-> ->]|[[-> ->]|(_ & _ & Hy)]].
    + by apply (ge_first _ _ HG a b).
    + cbn in Hp. lia.
    + by apply (ge_first _ _ HG x).
  - intros x y x' y' Hy Hy' Hlt. destruct (Hold x y Hy) as (z & Hz & -> & _).
    destruct (Hold x' y' Hy') as (z' & Hz' & _). by eapply (ge_apart _ _ HG).
  - intros r pa n Hr. destruct (ge_base _ _ HG r pa n Hr) as (H1 & H2 & H3 & y & Hy & Ey).
    destruct (set_free_same _ _ Hy) as (y' & Hy' & _ & _ & Er & _). split_and!; [done..|]. exists y'. by rewrite Er.
Qed.
End SetFree.

(** * Joining a block with the next one *)

Section Join.
Context (a : Z) (b c d : blk) (Ha : B !! a = Some b) (Hb0 : k_size b <> 0).
Let n := a + 16 + k_size b.
Context (Hc : B !! n = Some c) (Hc0 : k_size c <> 0).
Let e := n + 16 + k_size c.
Context (Hd : B !! e = Some d).

Definition joined : blk := b <| k_size := k_size b + 16 + k_size c |>.
Definition join_at : gmap Z blk :=
  <[a := joined]> (<[e := d <| k_prev := a |> <| k_pfree := k_free b |>]> (delete n B)).

Lemma join_order : 16 <= k_size b /\ 16 <= k_size c /\ 0 < a /\ a < n /\ n < e /\
  n = a + 16 + k_size b /\ e = n + 16 + k_size c.
Proof using HG Ha Hb0 Hc Hc0.
  pose proof (blk_size a b Ha Hb0). pose proof (blk_size n c Hc Hc0). pose proof (blk_pos a b Ha).
  assert (n = a + 16 + k_size b) by done. assert (e = n + 16 + k_size c) by done. lia.
Qed.

Lemma join_facts : k_prev c = a /\ k_reg c = k_reg b /\ k_pool c = k_pool b /\
  k_prev d = n /\ k_reg d = k_reg b /\ k_pool d = k_pool b.
Proof using HG Ha Hb0 Hc Hc0 Hd.
  destruct (ge_next _ _ HG a b Ha Hb0) as (c' & Hc' & H1 & _ & H3 & H4). fold n in Hc'. rewrite Hc in Hc'. injection Hc' as <-.
  destruct (ge_next _ _ HG n c Hc Hc0) as (d' & Hd' & H5 & _ & H6 & H7). fold e in Hd'. rewrite Hd in Hd'. injection Hd' as <-.
  split_and!; congruence.
Qed.

Lemma join_lookup x y : join_at !! x = Some y ->
  x = a /\ y = joined \/ x = e /\ y = d <| k_prev := a |> <| k_pfree := k_free b |> \/
  x <> a /\ x <> e /\ x <> n /\ B !! x = Some y.
Proof using Type.
  unfold join_at. rewrite lookup_insert_Some. intros [[<- <-]|[Hne Hx]]; [by left|].
  apply lookup_insert_Some in Hx as [[<- <-]|[Hne' Hx]]; [auto|].
  apply lookup_delete_Some in Hx as [Hn Hx]. right. right. by split_and!.
Qed.

Lemma join_other x : x <> a -> x <> e -> x <> n -> join_at !! x = B !! x.
Proof using Type. intros. unfold join_at. by rewrite !lookup_insert_ne, lookup_delete_ne. Qed.
Lemma join_a : join_at !! a = Some joined.
Proof using Type. apply lookup_insert_eq. Qed.
Lemma join_e : join_at !! e = Some (d <| k_prev := a |> <| k_pfree := k_free b |>).
Proof using HG Ha Hb0 Hc Hc0.
  pose proof join_order. unfold join_at. rewrite lookup_insert_ne by lia. apply lookup_insert_eq.
Qed.

Lemma join_geom : geom join_at R.
Proof using All.
  pose proof join_order as (Hsb & Hsc & Hpos & Han & Hne & En & Ee). destruct join_facts as (Fc1 & Fc2 & Fc3 & Fd1 & Fd2 & Fd3).
  destruct (ge_reg _ _ HG n c Hc) as (rn & Hrn & Hrl & Hru & _ & _). rewrite Fc2, Fc3 in *.
  assert (B !! 0 = None) as Hnull.
  { destruct (B !! 0) as [z|] eqn:Hz; [|done]. pose proof (blk_pos 0 z Hz). lia. }
  split.
  - intros x y Hy. apply join_lookup in Hy as [[-> ->]|[[-> ->]|(_ & _ & _ & Hy)]]; [..|by apply (ge_align _ _ HG)].
    + destruct (ge_align _ _ HG a b Ha) as (H1 & H2 & H3 & _). destruct (ge_align _ _ HG n c Hc) as (H4 & H5 & H6 & _).
      destruct (ge_reg _ _ HG a b Ha) as (rn' & Hrn' & Hle & _). rewrite Hrn in Hrn'. injection Hrn' as <-.
      destruct (ge_base _ _ HG _ _ _ Hrn) as (_ & _ & Hlt & _). cbn. split_and!; [done|auto|lia..].
    + by apply (ge_align _ _ HG e d).
  - intros x y Hy. apply join_lookup in Hy as [[-> ->]|[[-> ->]|(_ & _ & _ & Hy)]]; [..|by apply (ge_reg _ _ HG)].
    + destruct (ge_reg _ _ HG a b Ha) as (rn' & Hrn' & Hle & Hu & Hz & Hp). rewrite Hrn in Hrn'. injection Hrn' as <-.
      exists rn. cbn. split_and!; [done|lia|lia|lia|done].
    + destruct (ge_reg _ _ HG e d Hd) as (rn' & Hrn' & Hle & Hu & Hz & Hp). exists rn'. cbn. split_and!; try done.
      rewrite Fd2. split; [lia|]. intros E. rewrite Fd2, <- E in Hp. lia.
  - intros x y Hy Hs. apply join_lookup in Hy as [[-> ->]|[[-> ->]|(H1 & H2 & H3 & Hy)]].
    + exists (d <| k_prev := a |> <| k_pfree := k_free b |>). cbn.
      replace (a + 16 + (k_size b + 16 + k_size c)) with e by lia. rewrite join_e. by split_and!.
    + cbn in *. destruct (ge_next _ _ HG e d Hd Hs) as (z & Hz & H5 & H6 & H7 & H8). exists z.
      pose proof (blk_size e d Hd Hs). rewrite join_other by lia. by split_and!.
    + destruct (ge_next _ _ HG x y Hy Hs) as (z & Hz & H5 & H6 & H7 & H8).
      destruct (decide (x + 16 + k_size y = a)) as [E|Hna].
      { rewrite E in *. rewrite Ha in Hz. injection Hz as <-. exists joined. rewrite join_a. by split_and!. }
      exists z. rewrite join_other; [by split_and!|done|..]; intros E; rewrite E in Hz.
      * rewrite Hd in Hz. congruence.
      * rewrite Hc in Hz. congruence.
  - intros x y Hy Hs. apply join_lookup in Hy as [[-> ->]|[[-> ->]|(H1 & H2 & H3 & Hy)]]; cbn in *.
    + destruct (ge_prev _ _ HG a b Ha Hs) as (z & Hz & H5 & H6). pose proof (blk_size _ z Hz H6).
      exists z. rewrite join_other by lia. by split_and!.
    + exists joined. rewrite join_a. cbn. split_and!; [done|lia|lia].
    + destruct (ge_prev _ _ HG x y Hy Hs) as (z & Hz & H5 & H6).
      destruct (decide (k_prev y = a)) as [E|Hna].
      { rewrite E in *. rewrite Ha in Hz. injection Hz as <-. fold n in H5. lia. }
      destruct (decide (k_prev y = n)) as [E|Hnn].
      { rewrite E in *. rewrite Hc in Hz. injection Hz as <-. fold e in H5. lia. }
      destruct (decide (k_prev y = e)) as [E|Hnd].
      { rewrite E in *. rewrite Hd in Hz. injection Hz as <-. exists (d <| k_prev := a |> <| k_pfree := k_free b |>).
        rewrite join_e. by split_and!. }
      exists z. rewrite join_other by done. by split_and!.
  - intros x y Hy Hp. apply join_lookup in Hy as [[-> ->]|[[-> ->]|(_ & _ & _ & Hy)]]; cbn in *.
    + by apply (ge_first _ _ HG a b).
    + lia.
    + by apply (ge_first _ _ HG x y).
  - intros x y x' y' Hy Hy' Hlt.
    assert (forall z w, join_at !! z = Some w -> z <> n /\ (z = a /\ w = joined \/ z <> a /\ exists w', B !! z = Some w' /\ k_size w' = k_size w)) as Hcase.
    { intros z w Hz. apply join_lookup in Hz as [[-> ->]|[[-> ->]|(H1 & H2 & H3 & Hz)]].
      - split; [lia|by left].
      - split; [lia|]. right. split; [lia|]. by exists d.
      - split; [done|]. right. split; [done|]. by exists w. }
    destruct (Hcase x y Hy) as [Hn1 [[-> ->]|(Hna & w & Hw & Ew)]]; destruct (Hcase x' y' Hy') as [Hn2 [[-> ->]|(Hna' & w' & Hw' & Ew')]]; cbn; try lia.
    + pose proof (ge_apart _ _ HG a b x' w' Ha Hw' Hlt) as H1. fold n in H1.
      pose proof (ge_apart _ _ HG n c x' w' Hc Hw' ltac:(lia)). lia.
    + rewrite <- Ew. by eapply (ge_apart _ _ HG).
    + rewrite <- Ew. by eapply (ge_apart _ _ HG).
  - intros r pa q Hr. destruct (ge_base _ _ HG r pa q Hr) as (H1 & H2 & H3 & y & Hy & Ey). split_and!; [done..|].
    destruct (decide (r = n)) as [->|Hn].
    { exfalso. rewrite Hc in Hy. injection Hy as <-. destruct (ge_reg _ _ HG n c Hc) as (_ & _ & _ & _ & _ & Hz).
      rewrite Ey in Hz. lia. }
    destruct (decide (r = a)) as [->|Hra].
    { exists joined. rewrite join_a. rewrite Ha in Hy. injection Hy as <-. done. }
    destruct (decide (r = e)) as [->|Hre].
    { exists (d <| k_prev := a |> <| k_pfree := k_free b |>). rewrite join_e. rewrite Hd in Hy. by injection Hy as <-. }
    exists y. by rewrite join_other.
Qed.
End Join.

(** * Splitting a block *)

Section Split.
Context (a sz : Z) (b d : blk) (Ha : B !! a = Some b).
Context (Hsz : 16 <= sz) (Hsm : sz mod 16 = 0) (Hroom : sz + 32 <= k_size b).
Let n := a + 16 + sz.
Let e := a + 16 + k_size b.
Context (Hd : B !! e = Some d).

Definition split_low : blk := b <| k_size := sz |>.
Definition split_high : blk := mk_blk (k_pool b) (k_reg b) a (k_size b - sz - 16) (k_free b) (k_free b).
Definition split_at : gmap Z blk :=
  <[a := split_low]> (<[n := split_high]> (<[e := d <| k_prev := n |>]> B)).

Lemma split_order : 0 < a /\ n = a + 16 + sz /\ e = a + 16 + k_size b /\ B !! n = None /\ k_prev d = a /\
  k_pfree d = k_free b /\ k_reg d = k_reg b /\ k_pool d = k_pool b.
Proof using HG Ha Hsz Hroom Hd.
  pose proof (blk_pos a b Ha). destruct (ge_next _ _ HG a b Ha) as (d' & Hd' & H1 & H2 & H3 & H4); [lia|].
  fold e in Hd'. rewrite Hd in Hd'. injection Hd' as <-. split_and!; try done.
  apply (blk_inside a b n Ha). subst n. lia.
Qed.

Lemma split_lookup x y : split_at !! x = Some y ->
  x = a /\ y = split_low \/ x = n /\ y = split_high \/ x = e /\ y = d <| k_prev := n |> \/
  x <> a /\ x <> n /\ x <> e /\ B !! x = Some y.
Proof using Type.
  unfold split_at. rewrite lookup_insert_Some. intros [[<- <-]|[H1 Hx]]; [by left|].
  apply lookup_insert_Some in Hx as [[<- <-]|[H2 Hx]]; [auto|].
  apply lookup_insert_Some in Hx as [[<- <-]|[H3 Hx]]; [auto|]. right. right. right. by split_and!.
Qed.

Lemma split_a : split_at !! a = Some split_low.
Proof using Type. apply lookup_insert_eq. Qed.
Lemma split_n : split_at !! n = Some split_high.
Proof using Hsz. unfold split_at. rewrite lookup_insert_ne by (subst n; lia). apply lookup_insert_eq. Qed.
Lemma split_e : split_at !! e = Some (d <| k_prev := n |>).
Proof using Hsz Hroom. unfold split_at. rewrite !lookup_insert_ne by (subst n e; lia). apply lookup_insert_eq. Qed.
Lemma split_other x : x <> a -> x <> n -> x <> e -> split_at !! x = B !! x.
Proof using Type. intros. unfold split_at. by rewrite !lookup_insert_ne. Qed.

Lemma split_geom : geom split_at R.
Proof using All.
  destruct split_order as (Hpos & En & Ee & Hnone & Hdp & Hdf & Hdr & Hdo).
  destruct (ge_align _ _ HG a b Ha) as (A1 & A2 & A3 & _).
  destruct (ge_reg _ _ HG a b Ha) as (rn & Hrn & Hrl & Hru & Hrz & Hrp).
  assert (B !! 0 = None) as Hnull.
  { destruct (B !! 0) as [z|] eqn:Hz; [|done]. pose proof (blk_pos 0 z Hz). lia. }
  split.
  - intros x y Hy. apply split_lookup in Hy as [[-> ->]|[[-> ->]|[[-> ->]|(_ & _ & _ & Hy)]]]; [..|by apply (ge_align _ _ HG)].
    + cbn. split_and!; [done|done|lia..].
    + cbn. rewrite En. split_and!; [auto|auto|lia..].
    + by apply (ge_align _ _ HG e d).
  - intros x y Hy. apply split_lookup in Hy as [[-> ->]|[[-> ->]|[[-> ->]|(_ & _ & _ & Hy)]]]; [..|by apply (ge_reg _ _ HG)].
    + exists rn. cbn. split_and!; [done|lia|lia|lia|done].
    + exists rn. cbn. split_and!; [done|lia|lia|lia|]. split; [lia|]. intros E. lia.
    + destruct (ge_reg _ _ HG e d Hd) as (rn' & Hrn' & H1 & H2 & H3 & H4). exists rn'. cbn. split_and!; try done. lia.
  - intros x y Hy Hs. apply split_lookup in Hy as [[-> ->]|[[-> ->]|[[-> ->]|(H1 & H2 & H3 & Hy)]]].
    + exists split_high. cbn. fold n. rewrite split_n. by split_and!.
    + exists (d <| k_prev := n |>). cbn. replace (n + 16 + (k_size b - sz - 16)) with e by lia. rewrite split_e. by split_and!.
    + cbn in *. destruct (ge_next _ _ HG e d Hd Hs) as (z & Hz & H5 & H6 & H7 & H8). exists z.
      pose proof (blk_size e d Hd Hs). rewrite split_other by lia. by split_and!.
    + destruct (ge_next _ _ HG x y Hy Hs) as (z & Hz & H5 & H6 & H7 & H8).
      destruct (decide (x + 16 + k_size y = a)) as [E|Hna].
      { rewrite E in *. rewrite Ha in Hz. injection Hz as <-. exists split_low. rewrite split_a. by split_and!. }
      exists z. rewrite split_other; [by split_and!|done|..]; intros E; rewrite E in Hz.
      * by rewrite Hz in Hnone.
      * rewrite Hd in Hz. congruence.
  - intros x y Hy Hs. apply split_lookup in Hy as [[-> ->]|[[-> ->]|[[-> ->]|(H1 & H2 & H3 & Hy)]]]; cbn in *.
    + destruct (ge_prev _ _ HG a b Ha Hs) as (z & Hz & H5 & H6). pose proof (blk_size _ z Hz H6).
      exists z. rewrite split_other by lia. by split_and!.
    + exists split_low. rewrite split_a. cbn. split_and!; [done|lia|lia].
    + exists split_high. rewrite split_n. cbn. split_and!; [done|lia|lia].
    + destruct (ge_prev _ _ HG x y Hy Hs) as (z & Hz & H5 & H6).
      destruct (decide (k_prev y = a)) as [E|Hna].
      { rewrite E in *. rewrite Ha in Hz. injection Hz as <-. lia. }
      destruct (decide (k_prev y = n)) as [E|Hnn]; [rewrite E in Hz; by rewrite Hz in Hnone|].
      destruct (decide (k_prev y = e)) as [E|Hnd].
      { rewrite E in *. rewrite Hd in Hz. injection Hz as <-. exists (d <| k_prev := n |>). rewrite split_e. by split_and!. }
      exists z. rewrite split_other by done. by split_and!.
  - intros x y Hy Hp. apply split_lookup in Hy as [[-> ->]|[[-> ->]|[[-> ->]|(_ & _ & _ & Hy)]]]; cbn in *.
    + by apply (ge_first _ _ HG a b).
    + lia.
    + lia.
    + by apply (ge_first _ _ HG x y).
  - assert (forall z w, split_at !! z = Some w -> a <= z /\ z + 16 + k_size w <= e /\ (z = a /\ w = split_low \/ z = n /\ w = split_high) \/
      exists w', z <> a /\ B !! z = Some w' /\ k_size w' = k_size w) as Hcase.
    { intros z w Hz. apply split_lookup in Hz as [[-> ->]|[[-> ->]|[[-> ->]|(H1 & H2 & H3 & Hz)]]]; cbn.
      - left. split_and!; [lia|lia|by left].
      - left. split_and!; [lia|lia|by right].
      - right. exists d. split_and!; [lia|done|done].
      - right. by exists w. }
    intros x y x' y' Hy Hy' Hlt.
    destruct (Hcase x y Hy) as [(L1 & U1 & C1)|(w & Hna & Hw & Ew)]; destruct (Hcase x' y' Hy') as [(L2 & U2 & C2)|(w' & Hna' & Hw' & Ew')].
    + destruct C1 as [[-> ->]|[-> ->]], C2 as [[-> ->]|[-> ->]]; cbn; lia.
    + pose proof (ge_apart _ _ HG a b x' w' Ha Hw'). lia.
    + pose proof (ge_apart _ _ HG x w a b Hw Ha). destruct (Z.lt_ge_cases x a) as [|Hge]; [lia|].
      pose proof (ge_apart _ _ HG a b x w Ha Hw ltac:(lia)). lia.
    + rewrite <- Ew. by eapply (ge_apart _ _ HG).
  - intros r pa q Hr. destruct (ge_base _ _ HG r pa q Hr) as (H1 & H2 & H3 & y & Hy & Ey). split_and!; [done..|].
    destruct (decide (r = a)) as [->|Hra].
    { exists split_low. rewrite split_a. rewrite Ha in Hy. injection Hy as <-. done. }
    destruct (decide (r = n)) as [->|Hn]; [by rewrite Hnone in Hy|].
    destruct (decide (r = e)) as [->|Hre].
    { exists (d <| k_prev := n |>). rewrite split_e. rewrite Hd in Hy. by injection Hy as <-. }
    exists y. by rewrite split_other.
Qed.
End Split.
End Geom.

(** * Regions *)

(** A new region of [len] bytes is one free block and the sentinel. *)
Definition region_block (pa r len : Z) : blk := mk_blk pa r 0 (len - 32) true false.
Definition region_end (pa r : Z) : blk := mk_blk pa r r 0 false true.
Definition add_region_at (B : gmap Z blk) (pa r len : Z) : gmap Z blk :=
  <[r := region_block pa r len]> (<[r + len - 16 := region_end pa r]> B).

(** The region of a block that is all of it goes. *)
Definition drop_region_at (B : gmap Z blk) (r e : Z) : gmap Z blk := delete r (delete e B).

Section Region.
Context (B : gmap Z blk) (R : gmap Z (Z * Z)) (HG : geom B R).

Lemma add_region_geom pa r len : 0 < r -> r mod 16 = 0 -> len mod 16 = 0 -> 48 <= len < 2 ^ 30 ->
  (forall r' pa' n', R !! r' = Some (pa', n') -> r' + n' <= r \/ r + len <= r') ->
  geom (add_region_at B pa r len) (<[r := (pa, len)]> R).
Proof using HG.
  intros Hr Hm Hlm Hlen Hap. set (z := r + len - 16).
  assert (forall a b, B !! a = Some b -> a + 16 + k_size b <= r \/ r + len <= a) as Hout.
  { intros a b Ha. destruct (ge_reg _ _ HG a b Ha) as (n & Hn & H1 & H2 & _). destruct (Hap _ _ _ Hn); lia. }
  assert (forall a b, B !! a = Some b -> 0 <= k_size b) as Hpos by (intros a b Ha; by apply (ge_align _ _ HG a b)).
  assert (B !! r = None /\ B !! z = None) as [Hr0 Hz0].
  { split; [destruct (B !! r) as [b|] eqn:E|destruct (B !! z) as [b|] eqn:E]; try done;
      pose proof (Hout _ _ E); pose proof (Hpos _ _ E); lia. }
  assert (R !! r = None) as HRr.
  { destruct (R !! r) as [[pa' n']|] eqn:E; [|done]. destruct (ge_base _ _ HG _ _ _ E) as (_ & _ & _ & y & Hy & _). by rewrite Hy in Hr0. }
  assert (forall x y, add_region_at B pa r len !! x = Some y -> x = r /\ y = region_block pa r len \/
    x = z /\ y = region_end pa r \/ B !! x = Some y) as Hlook.
  { intros x y. unfold add_region_at. fold z. rewrite !lookup_insert_Some. naive_solver. }
  assert (forall x y, B !! x = Some y -> add_region_at B pa r len !! x = Some y) as Hold.
  { intros x y Hx. unfold add_region_at. fold z. rewrite !lookup_insert_ne by congruence. done. }
  assert (forall x y, B !! x = Some y -> k_reg y <> r) as Hreg.
  { intros x y Hx E. destruct (ge_reg _ _ HG x y Hx) as (n & Hn & _). by rewrite E, HRr in Hn. }
  assert (add_region_at B pa r len !! z = Some (region_end pa r)) as Lz.
  { unfold add_region_at. fold z. rewrite lookup_insert_ne by lia. apply lookup_insert_eq. }
  assert (add_region_at B pa r len !! r = Some (region_block pa r len)) as Lr by apply lookup_insert_eq.
  split.
  - intros x y Hy. apply Hlook in Hy as [[-> ->]|[[-> ->]|Hy]]; [..|by apply (ge_align _ _ HG)].
    + cbn. split_and!; [done|auto|lia..].
    + cbn. split_and!; [subst z; auto|done|lia..].
  - intros x y Hy. apply Hlook in Hy as [[-> ->]|[[-> ->]|Hy]].
    + exists len. cbn. rewrite lookup_insert_eq. split_and!; [done|lia..].
    + exists len. cbn. rewrite lookup_insert_eq. split_and!; [done|lia..].
    + rewrite lookup_insert_ne by (by eapply not_eq_sym, Hreg). by apply (ge_reg _ _ HG).
  - intros x y Hy Hs. apply Hlook in Hy as [[-> ->]|[[-> ->]|Hy]]; [|done|].
    + exists (region_end pa r). cbn. replace (r + 16 + (len - 32)) with z by lia. by split_and!.
    + destruct (ge_next _ _ HG x y Hy Hs) as (d & Hd & H1 & H2 & H3 & H4). exists d. split_and!; auto.
  - intros x y Hy Hs. apply Hlook in Hy as [[-> ->]|[[-> ->]|Hy]]; [done|..].
    + exists (region_block pa r len). cbn. split_and!; [done|lia|lia].
    + destruct (ge_prev _ _ HG x y Hy Hs) as (d & Hd & H1 & H2). exists d. split_and!; auto.
  - intros x y Hy Hp. apply Hlook in Hy as [[-> ->]|[[-> ->]|Hy]]; [done|cbn in Hp; lia|by apply (ge_first _ _ HG x)].
  - intros x y x' y' Hy Hy' Hlt. apply Hlook in Hy as [[-> ->]|[[-> ->]|Hy]]; apply Hlook in Hy' as [[-> ->]|[[-> ->]|Hy']]; cbn; try lia.
    + pose proof (Hout _ _ Hy'). pose proof (Hpos _ _ Hy'). lia.
    + pose proof (Hout _ _ Hy'). pose proof (Hpos _ _ Hy'). lia.
    + pose proof (Hout _ _ Hy). lia.
    + pose proof (Hout _ _ Hy). lia.
    + by eapply (ge_apart _ _ HG).
  - intros r' pa' n' Hr'. apply lookup_insert_Some in Hr' as [[<- [= <- <-]]|[Hne Hr']].
    + split_and!; [done|done|lia|]. by exists (region_block pa r len).
    + destruct (ge_base _ _ HG _ _ _ Hr') as (H1 & H2 & H3 & y & Hy & Ey). split_and!; [done..|]. exists y. auto.
Qed.

Lemma drop_region_geom r b c : B !! r = Some b -> k_prev b = 0 -> k_size b <> 0 ->
  B !! (r + 16 + k_size b) = Some c -> k_size c = 0 ->
  geom (drop_region_at B r (r + 16 + k_size b)) (delete r R) /\
  R !! r = Some (k_pool b, k_size b + 32).
Proof using HG.
  intros Hb Hp Hs Hc Hc0. set (z := r + 16 + k_size b) in *.
  destruct (ge_reg _ _ HG r b Hb) as (n & Hn & H1 & H2 & _ & H3). pose proof (proj1 H3 Hp) as Er. rewrite <- Er in *.
  destruct (ge_next _ _ HG r b Hb Hs) as (c' & Hc' & Hcp & _ & Hcr & _). fold z in Hc'. rewrite Hc in Hc'. injection Hc' as <-.
  destruct (ge_reg _ _ HG z c Hc) as (n' & Hn' & _ & _ & H5 & _). rewrite Hcr, <- Er, Hn in Hn'. injection Hn' as _ <-.
  specialize (H5 Hc0). assert (n = k_size b + 32) as En by lia.
  split; [|by rewrite Hn, En].
  assert (forall x y, B !! x = Some y -> k_reg y = r -> x = r \/ x = z) as Hin.
  { intros x y Hx Ex. destruct (ge_reg _ _ HG x y Hx) as (m & Hm & L1 & L2 & L3 & L4).
    rewrite Ex in *. rewrite Hn in Hm. injection Hm as _ <-. destruct (ge_align _ _ HG x y Hx) as (_ & _ & Hpos & _).
    destruct (decide (x = r)) as [|Hne]; [by left|]. right. pose proof (ge_apart _ _ HG r b x y Hb Hx ltac:(lia)). lia. }
  assert (forall x y, drop_region_at B r z !! x = Some y -> x <> r /\ x <> z /\ B !! x = Some y /\ k_reg y <> r) as Hlook.
  { intros x y. unfold drop_region_at. rewrite !lookup_delete_Some. intros (L1 & L2 & L3).
    split_and!; [done|done|done|]. intros E. destruct (Hin x y L3 E); done. }
  assert (forall x y, B !! x = Some y -> k_reg y <> r -> drop_region_at B r z !! x = Some y) as Hold.
  { intros x y Hx Hne. unfold drop_region_at. rewrite !lookup_delete_ne; [done|..]; intros ->; naive_solver congruence. }
  split.
  - intros x y Hy. destruct (Hlook x y Hy) as (_ & _ & Hx & _). by apply (ge_align _ _ HG).
  - intros x y Hy. destruct (Hlook x y Hy) as (_ & _ & Hx & Hne). rewrite lookup_delete_ne by done. by apply (ge_reg _ _ HG).
  - intros x y Hy Hsy. destruct (Hlook x y Hy) as (_ & _ & Hx & Hne).
    destruct (ge_next _ _ HG x y Hx Hsy) as (d & Hd & L1 & L2 & L3 & L4). exists d. split_and!; try done. apply Hold; [done|congruence].
  - intros x y Hy Hsy. destruct (Hlook x y Hy) as (_ & _ & Hx & Hne).
    destruct (ge_prev _ _ HG x y Hx Hsy) as (d & Hd & L1 & L2). exists d. split_and!; try done. apply Hold; [done|].
    destruct (ge_next _ _ HG _ d Hd L2) as (y' & Hy' & _ & _ & L3 & _). rewrite L1, Hx in Hy'. injection Hy' as <-. congruence.
  - intros x y Hy Hpy. destruct (Hlook x y Hy) as (_ & _ & Hx & _). by apply (ge_first _ _ HG x).
  - intros x y x' y' Hy Hy'. destruct (Hlook x y Hy) as (_ & _ & Hx & _). destruct (Hlook x' y' Hy') as (_ & _ & Hx' & _).
    exact (ge_apart _ _ HG x y x' y' Hx Hx').
  - intros r' pa' n' Hr'. apply lookup_delete_Some in Hr' as [Hne Hr'].
    destruct (ge_base _ _ HG _ _ _ Hr') as (L1 & L2 & L3 & y & Hy & Ey). split_and!; [done..|]. exists y. split; [|done].
    apply Hold; [done|congruence].
Qed.
End Region.
