(* ===== verification/TlsfWf.v ===== *)
(** The invariant of the allocator, and steps that work on the headers of
    blocks and on the free lists together. *)
From S2P Require Import Prelude CMonad Tlsf TlsfMap TlsfList TlsfLinks TlsfInv.

(** * Sums over maps *)

Definition msum {A} (f : A -> Z) (m : gmap Z A) : Z := map_fold (fun _ x acc => f x + acc) 0 m.

Section MSum.
Context {A : Type} (f : A -> Z).
Implicit Types (m : gmap Z A).

Lemma msum_insert m k x : m !! k = None -> msum f (<[k := x]> m) = f x + msum f m.
Proof using. intros Hk. unfold msum. apply (map_fold_insert_L (fun _ x acc => f x + acc) 0 k x m); [intros; lia|done]. Qed.

Lemma msum_delete m k x : m !! k = Some x -> msum f (delete k m) = msum f m - f x.
Proof using.
  intros Hk. rewrite <- (insert_delete_id m k x) at 2 by done.
  rewrite msum_insert by apply lookup_delete_eq. lia.
Qed.

Lemma msum_update m k x y : m !! k = Some x -> msum f (<[k := y]> m) = msum f m - f x + f y.
Proof using.
  intros Hk. rewrite <- insert_delete_eq, msum_insert by apply lookup_delete_eq. rewrite (msum_delete _ _ x) by done. lia.
Qed.

(** What counts for nothing may be left out. *)
Lemma msum_filter (P : Z * A -> Prop) `{forall x, Decision (P x)} m :
  (forall k x, m !! k = Some x -> ~ P (k, x) -> f x = 0) -> msum f m = msum f (filter P m).
Proof using.
  induction m as [|k x m Hk IH] using map_ind; intros Hf; [done|]. rewrite msum_insert by done.
  assert (msum f m = msum f (filter P m)) as IH'.
  { apply IH. intros k' x' Hx'. apply Hf. rewrite lookup_insert_ne; [done|congruence]. }
  destruct (decide (P (k, x))) as [HP|HP].
  - rewrite map_filter_insert_True, msum_insert by (done || by apply map_lookup_filter_None_2; left). lia.
  - rewrite map_filter_insert_False, delete_id by done. rewrite (Hf k x) by (done || apply lookup_insert_eq). lia.
Qed.
End MSum.

(** * Used blocks *)

(** The blocks in use, with their pools and sizes. *)
Definition used_of (b : blk) : option (Z * Z) :=
  if k_free b || (k_size b =? 0) then None else Some (k_pool b, k_size b).
Definition used_map (B : gmap Z blk) : gmap Z (Z * Z) := omap used_of B.

Lemma used_lookup B a q n : used_map B !! a = Some (q, n) <->
  exists b, B !! a = Some b /\ k_free b = false /\ k_size b <> 0 /\ q = k_pool b /\ n = k_size b.
Proof.
  unfold used_map. rewrite lookup_omap. split.
  - destruct (B !! a) as [b|]; [|done]. cbn. unfold used_of. destruct (k_free b) eqn:Ef; [done|]. cbn.
    destruct (Z.eqb_spec (k_size b) 0); [done|]. intros [= <- <-]. by exists b.
  - intros (b & -> & Hf & Hs & -> & ->). cbn. unfold used_of. rewrite Hf. cbn. by destruct (Z.eqb_spec (k_size b) 0).
Qed.

Lemma used_insert_used B a b x : used_of b = Some x -> used_map (<[a := b]> B) = <[a := x]> (used_map B).
Proof. apply omap_insert_Some. Qed.

Lemma used_insert_free B a b : used_of b = None -> used_map (<[a := b]> B) = delete a (used_map B).
Proof. apply omap_insert_None. Qed.

Lemma used_insert_same B a b b' : B !! a = Some b -> used_of b' = used_of b -> used_map (<[a := b']> B) = used_map B.
Proof.
  intros Ha E. apply map_eq. intros x. unfold used_map. rewrite !lookup_omap.
  destruct (decide (x = a)) as [->|]; [rewrite lookup_insert_eq, Ha; cbn; by rewrite E|by rewrite lookup_insert_ne].
Qed.

Lemma used_none B a : B !! a = None -> used_map B !! a = None.
Proof. intros Ha. unfold used_map. by rewrite lookup_omap, Ha. Qed.

Lemma used_delete_free B a b : B !! a = Some b -> used_of b = None -> used_map (delete a B) = used_map B.
Proof.
  intros Ha E. unfold used_map. rewrite omap_delete. apply delete_id. by rewrite lookup_omap, Ha.
Qed.

(** The words of the blocks in [U]. *)
Definition udata (U : gmap Z (Z * Z)) (y : Z) : Prop :=
  exists a q n, U !! a = Some (q, n) /\ a + 16 <= y < a + 16 + n.
Definition in_regs (R : gmap Z (Z * Z)) (y : Z) : Prop :=
  exists r q n, R !! r = Some (q, n) /\ r <= y < r + n.

(** What the allocator may write while the blocks of [U] are in use. *)
Definition own (U R : gmap Z (Z * Z)) (y : Z) : Prop := ~ udata U y /\ in_regs R y.

Section Own.
Context (B : gmap Z blk) (R U : gmap Z (Z * Z)) (HG : geom B R) (HU : U ⊆ used_map B).

Lemma own_hdr a b : B !! a = Some b -> own U R a /\ own U R (a + 8).
Proof using HG HU.
  intros Ha. destruct (ge_reg _ _ HG a b Ha) as (n & Hn & H1 & H2 & _).
  assert (0 <= k_size b) by (by apply (ge_align _ _ HG a b)).
  assert (forall y, a <= y < a + 16 -> own U R y) as Hy.
  { intros y Hy. split.
    - intros (x & q & m & Hx & Hxy). pose proof (lookup_weaken _ _ _ _ Hx HU) as Hx'.
      apply used_lookup in Hx' as (c & Hc & _ & _ & _ & ->).
      assert (0 <= k_size c) by (by apply (ge_align _ _ HG x c)).
      destruct (Z.lt_trichotomy x a) as [Hlt|[->|Hgt]]; [|lia|].
      + pose proof (ge_apart _ _ HG x c a b Hc Ha Hlt). lia.
      + pose proof (ge_apart _ _ HG a b x c Ha Hc Hgt). lia.
    - exists (k_reg b), (k_pool b), n. split; [done|lia]. }
  split; apply Hy; lia.
Qed.

Lemma own_inside a b y : B !! a = Some b -> k_free b = true -> a <= y < a + 16 + k_size b -> own U R y.
Proof using HG HU.
  intros Ha Hf Hy. destruct (ge_reg _ _ HG a b Ha) as (n & Hn & H1 & H2 & _). split.
  - intros (x & q & m & Hx & Hxy). pose proof (lookup_weaken _ _ _ _ Hx HU) as Hx'.
    apply used_lookup in Hx' as (c & Hc & Hfc & _ & _ & ->).
    destruct (Z.lt_trichotomy x a) as [Hlt|[->|Hgt]].
    + pose proof (ge_apart _ _ HG x c a b Hc Ha Hlt). lia.
    + rewrite Ha in Hc. congruence.
    + pose proof (ge_apart _ _ HG a b x c Ha Hc Hgt). lia.
  - exists (k_reg b), (k_pool b), n. split; [done|lia].
Qed.

Lemma free_size a b : B !! a = Some b -> k_free b = true -> 16 <= k_size b.
Proof using HG.
  intros Ha Hf. apply (blk_size _ _ HG a b Ha). intros E.
  destruct (ge_align _ _ HG a b Ha) as (_ & _ & _ & Hz). rewrite Hz in Hf; done.
Qed.

Lemma own_links a b : B !! a = Some b -> k_free b = true -> own U R (a + 16) /\ own U R (a + 24).
Proof using HG HU.
  intros Ha Hf. pose proof (free_size a b Ha Hf). split; apply (own_inside a b); (done || lia).
Qed.
End Own.

(** The regions are runs of memory. *)
Definition regs_mapped (s : tlsf) (R : gmap Z (Z * Z)) : Prop :=
  forall r q n, R !! r = Some (q, n) -> h_runs s !! r = Some n.

Section Mapped.
Context (s : tlsf) (B : gmap Z blk) (R : gmap Z (Z * Z)) (HG : geom B R) (HR : regs_mapped s R).

Lemma blk_mapped a b : B !! a = Some b -> mapped s a = true /\ mapped s (a + 8) = true.
Proof using HG HR.
  intros Ha. destruct (ge_reg _ _ HG a b Ha) as (n & Hn & H1 & H2 & _).
  assert (0 <= k_size b) by (by apply (ge_align _ _ HG a b)).
  split; apply mapped_spec; exists (k_reg b), n; (split; [by eapply HR|lia]).
Qed.

Lemma inside_mapped a b y : B !! a = Some b -> a <= y -> y + 8 <= a + 16 + k_size b -> mapped s y = true.
Proof using HG HR.
  intros Ha H1 H2. destruct (ge_reg _ _ HG a b Ha) as (n & Hn & H3 & H4 & _).
  apply mapped_spec. exists (k_reg b), n. split; [by eapply HR|lia].
Qed.

Lemma link_mapped a b : B !! a = Some b -> k_size b <> 0 -> mapped s (a + 16) = true /\ mapped s (a + 24) = true.
Proof using HG HR.
  intros Ha Hs. destruct (ge_reg _ _ HG a b Ha) as (n & Hn & H1 & H2 & _). pose proof (blk_size _ _ HG a b Ha Hs).
  split; apply mapped_spec; exists (k_reg b), n; (split; [by eapply HR|lia]).
Qed.
End Mapped.

(** * Steps on headers and lists *)

(** In the middle of an operation that began in [s0]: the headers in memory
    are those of [B], the free lists are [F], the rest of the pools is [P],
    and nothing but words in [N] changed. *)
Record mid (N : Z -> Prop) (s0 s : tlsf) (B : gmap Z blk) (F : lists) (P : gmap Z xmem_pool) : Prop := {
  md_lists : lists_ok s F;
  md_hdr : hdr_ok (h_mem s) B;
  md_sep : forall pa fl sl x, x ∈ F pa fl sl -> B !! (x + 16) = None;
  md_mem : forall y, ~ N y -> h_mem s y = h_mem s0 y;
  md_pools : pool_core <$> h_pools s = P;
  md_runs : h_runs s = h_runs s0;
  md_list : pool_list_head s = pool_list_head s0;
  md_xen : xenpool s = xenpool s0;
  md_asked : h_asked s = h_asked s0;
}.

Lemma hdr_store_prev m B a b v : hdr_ok m B -> B !! a = Some b -> hdr_ok (upd m a v) (<[a := b <| k_prev := v |>]> B).
Proof.
  intros HB Ha x y Hx. destruct (HB a b Ha) as (Hal & _ & Hw). apply lookup_insert_Some in Hx as [[<- <-]|[Hne Hx]].
  - split; [done|]. rewrite upd_eq, upd_ne by lia. done.
  - destruct (HB x y Hx) as (Hxl & H1 & H2). split; [done|]. rewrite upd_ne by done. rewrite upd_ne; [done|].
    intros E. rewrite <- E, Zplus_mod, Hxl in Hal. done.
Qed.

Lemma hdr_store_size m B a b b' : hdr_ok m B -> B !! a = Some b -> k_prev b' = k_prev b ->
  hdr_ok (upd m (a + 8) (b_word b')) (<[a := b']> B).
Proof.
  intros HB Ha Hp x y Hx. destruct (HB a b Ha) as (Hal & Hpr & _). apply lookup_insert_Some in Hx as [[<- <-]|[Hne Hx]].
  - split; [done|]. rewrite upd_eq, upd_ne by lia. by rewrite Hp.
  - destruct (HB x y Hx) as (Hxl & H1 & H2). split; [done|]. rewrite (upd_ne _ _ _ (x + 8)) by lia. rewrite upd_ne; [done|].
    intros ->. rewrite Zplus_mod, Hal in Hxl. done.
Qed.

(** A header where there was none: its size is written first. *)
Lemma hdr_store_new m B a b : hdr_ok m B -> a mod 16 = 0 -> B !! a = None ->
  hdr_ok (upd m (a + 8) (b_word b)) (<[a := b <| k_prev := m a |>]> B).
Proof.
  intros HB Hal Hn x y Hx. apply lookup_insert_Some in Hx as [[<- <-]|[Hne Hx]].
  - split; [done|]. rewrite upd_eq, upd_ne by lia. done.
  - destruct (HB x y Hx) as (Hxl & H1 & H2). split; [done|]. rewrite (upd_ne _ _ _ (x + 8)) by lia. rewrite upd_ne; [done|].
    intros ->. rewrite Zplus_mod, Hal in Hxl. done.
Qed.

Lemma hdr_weaken m B B' : hdr_ok m B -> (forall x y, B' !! x = Some y -> B !! x = Some y) -> hdr_ok m B'.
Proof. intros HB Hs x y Hx. by apply HB, Hs. Qed.

Section Mid.
Context (tol : fault -> Prop) (N : Z -> Prop) (s0 s : tlsf) (B : gmap Z blk) (F : lists) (P : gmap Z xmem_pool).
Context (HM : mid N s0 s B F P).

Lemma mid_mapped a : mapped s a = mapped s0 a.
Proof using HM. apply mapped_runs, (md_runs _ _ _ _ _ _ HM). Qed.

(** The words of headers are not links. *)
Lemma mid_not_link a b y : B !! a = Some b -> y = a \/ y = a + 8 -> ~ link_of F y.
Proof using HM.
  intros Ha Hy (pa & fl & sl & x & Hx & Hyx). destruct (md_hdr _ _ _ _ _ _ HM a b Ha) as (Hal & _).
  destruct (lo_node _ _ (md_lists _ _ _ _ _ _ HM) pa fl sl x Hx) as (_ & Hxl & _).
  pose proof (md_sep _ _ _ _ _ _ HM pa fl sl x Hx) as Hn.
  destruct Hy as [->| ->], Hyx as [E|E].
  - by rewrite <- E, Ha in Hn.
  - apply (links_apart (a - 16) x); [auto|done|lia].
  - apply (links_apart x (a - 16)); [done|auto|lia].
  - replace (x + 16) with a in Hn by lia. by rewrite Ha in Hn.
Qed.

Lemma wp_mid_prev a b (Q : Z -> tlsf -> Prop) : B !! a = Some b -> mapped s0 a = true -> Q (k_prev b) s ->
  wp tol (load (f_prev_hdr a)) Q s.
Proof using HM.
  intros Ha Hm HQ. apply wp_load_word; [unfold f_prev_hdr; by rewrite mid_mapped|].
  destruct (md_hdr _ _ _ _ _ _ HM a b Ha) as (_ & E & _). unfold f_prev_hdr. by rewrite E.
Qed.

Lemma wp_mid_size a b (Q : Z -> tlsf -> Prop) : B !! a = Some b -> mapped s0 (a + 8) = true -> Q (b_word b) s ->
  wp tol (load (f_size a)) Q s.
Proof using HM.
  intros Ha Hm HQ. apply wp_load_word; [unfold f_size; by rewrite mid_mapped|].
  destruct (md_hdr _ _ _ _ _ _ HM a b Ha) as (_ & _ & E). unfold f_size. by rewrite E.
Qed.

(** A write of a word that is no link. *)
Lemma mid_store y v B' : N y -> ~ link_of F y -> hdr_ok (upd (h_mem s) y v) B' ->
  (forall pa fl sl x, x ∈ F pa fl sl -> B' !! (x + 16) = None) ->
  mid N s0 (s <| h_mem ::= fun m => upd m y v |>) B' F P.
Proof using HM.
  intros HN Hl Hh Hs. destruct HM. split; try done.
  - eapply lists_ok_frame; [done|..].
    + intros z Hz. cbn. apply upd_ne. intros ->. done.
    + done.
    + intros pa p Hp. by exists p.
    + done.
  - intros z Hz. cbn. rewrite upd_ne by (intros ->; done). by apply md_mem0.
Qed.

Lemma wp_mid_store_prev a b v (Q : unit -> tlsf -> Prop) : B !! a = Some b -> mapped s0 a = true -> N a ->
  (forall s', mid N s0 s' (<[a := b <| k_prev := v |>]> B) F P -> Q tt s') -> wp tol (store (f_prev_hdr a) v) Q s.
Proof using HM.
  intros Ha Hm HN HQ. apply wp_store_word; [unfold f_prev_hdr; by rewrite mid_mapped|]. apply HQ, mid_store; [done|..].
  - apply (mid_not_link a b); auto.
  - apply hdr_store_prev; [apply (md_hdr _ _ _ _ _ _ HM)|done].
  - intros pa fl sl x Hx. pose proof (md_sep _ _ _ _ _ _ HM pa fl sl x Hx) as Hn. rewrite lookup_insert_ne; [done|].
    intros E. by rewrite <- E, Ha in Hn.
Qed.

Lemma wp_mid_store_size a b b' v (Q : unit -> tlsf -> Prop) : B !! a = Some b -> mapped s0 (a + 8) = true -> N (a + 8) ->
  k_prev b' = k_prev b -> v = b_word b' ->
  (forall s', mid N s0 s' (<[a := b']> B) F P -> Q tt s') -> wp tol (store (f_size a) v) Q s.
Proof using HM.
  intros Ha Hm HN Hp -> HQ. apply wp_store_word; [unfold f_size; by rewrite mid_mapped|]. apply HQ, mid_store; [done|..].
  - apply (mid_not_link a b); auto.
  - apply hdr_store_size with b; [apply (md_hdr _ _ _ _ _ _ HM)|done|done].
  - intros pa fl sl x Hx. pose proof (md_sep _ _ _ _ _ _ HM pa fl sl x Hx) as Hn. rewrite lookup_insert_ne; [done|].
    intros E. by rewrite <- E, Ha in Hn.
Qed.

Lemma wp_mid_store_new a b v (Q : unit -> tlsf -> Prop) : B !! a = None -> a mod 16 = 0 -> mapped s0 (a + 8) = true ->
  N (a + 8) -> v = b_word b -> (forall pa fl sl x, x ∈ F pa fl sl -> x + 16 <> a) ->
  (forall s', mid N s0 s' (<[a := b <| k_prev := h_mem s a |>]> B) F P -> Q tt s') -> wp tol (store (f_size a) v) Q s.
Proof using HM.
  intros Ha Hal Hm HN -> Hsep HQ. apply wp_store_word; [unfold f_size; by rewrite mid_mapped|]. apply HQ, mid_store; [done|..].
  - intros (pa & fl & sl & x & Hx & Hyx). destruct (lo_node _ _ (md_lists _ _ _ _ _ _ HM) pa fl sl x Hx) as (_ & Hxl & _).
    pose proof (Hsep pa fl sl x Hx). unfold f_size in Hyx. destruct Hyx as [E|E]; [|lia].
    apply (links_apart x (a - 16)); [done|auto|lia].
  - apply hdr_store_new; [apply (md_hdr _ _ _ _ _ _ HM)|done|done].
  - intros pa fl sl x Hx. rewrite lookup_insert_ne; [by apply (md_sep _ _ _ _ _ _ HM pa fl sl)|].
    intros E. by apply (Hsep pa fl sl x Hx).
Qed.

(** A write of a link of a block that is on no list. *)
Lemma wp_mid_store_link a y v (Q : unit -> tlsf -> Prop) : a mod 16 = 0 -> y = a + 16 \/ y = a + 24 -> B !! (a + 16) = None ->
  (forall pa fl sl, a ∉ F pa fl sl) -> mapped s0 y = true -> N y ->
  (forall s', mid N s0 s' B F P -> Q tt s') -> wp tol (store y v) Q s.
Proof using HM.
  intros Hal Hy Hn Hnew Hm HN HQ. apply wp_store_word; [by rewrite mid_mapped|]. apply HQ, mid_store; [done|..].
  - intros (pa & fl & sl & x & Hx & Hyx). destruct (lo_node _ _ (md_lists _ _ _ _ _ _ HM) pa fl sl x Hx) as (_ & Hxl & _).
    assert (x <> a) by (intros ->; by apply (Hnew pa fl sl)). pose proof (links_apart a x Hal Hxl).
    pose proof (links_apart x a Hxl Hal). lia.
  - intros x b Hx. destruct (md_hdr _ _ _ _ _ _ HM x b Hx) as (Hxl & H1 & H2). split; [done|].
    assert (x <> a + 16) by congruence. pose proof (links_apart a (x - 16) Hal ltac:(auto)).
    pose proof (links_apart (x - 16) a ltac:(auto) Hal). rewrite !upd_ne by lia. done.
  - apply (md_sep _ _ _ _ _ _ HM).
Qed.

(** A write of a pool that keeps its index. *)
Lemma wp_mid_pool pa p (f : xmem_pool -> xmem_pool) (Q : unit -> tlsf -> Prop) : h_pools s !! pa = Some p ->
  (forall p, fl_bitmap (f p) = fl_bitmap p /\ sl_bitmap (f p) = sl_bitmap p /\ matrix (f p) = matrix p /\
     pool_core (f p) = f (pool_core p)) ->
  (forall s', mid N s0 s' B F (alter f pa P) -> h_pools s' !! pa = Some (f p) -> Q tt s') -> wp tol (pool_write pa f) Q s.
Proof using HM.
  intros Hp Hf HQ. eapply wp_pool_write; [done|]. apply HQ; [|apply lookup_insert_eq].
  destruct HM. split; try done.
  - eapply lists_ok_frame; [done|done|done|..].
    + intros q q' Hq. cbn in Hq. apply lookup_insert_Some in Hq as [[<- <-]|[Hne Hq]]; [|by exists q'].
      exists p. destruct (Hf p) as (E1 & E2 & E3 & _). by split_and!.
    + intros q Hq _. cbn. destruct (decide (pa = q)) as [->|]; [by rewrite lookup_insert_eq|by rewrite lookup_insert_ne].
  - rewrite <- md_pools0. cbn. rewrite fmap_insert. destruct (Hf p) as (_ & _ & _ & ->).
    symmetry. apply alter_as_insert. by rewrite lookup_fmap, Hp.
Qed.

(** The first word of a header to be. *)
Lemma wp_mid_store_word a v (Q : unit -> tlsf -> Prop) : B !! a = None -> a mod 16 = 0 -> mapped s0 a = true -> N a ->
  (forall pa fl sl x, x ∈ F pa fl sl -> x + 16 <> a) ->
  (forall s', mid N s0 s' B F P -> h_mem s' a = v -> Q tt s') -> wp tol (store (f_prev_hdr a) v) Q s.
Proof using HM.
  intros Ha Hal Hm HN Hsep HQ. unfold f_prev_hdr. apply wp_store_word; [by rewrite mid_mapped|]. apply HQ; [|apply upd_eq].
  apply mid_store; [done|..].
  - intros (pa & fl & sl & x & Hx & Hyx). destruct (lo_node _ _ (md_lists _ _ _ _ _ _ HM) pa fl sl x Hx) as (_ & Hxl & _).
    pose proof (Hsep pa fl sl x Hx). destruct Hyx as [E|E]; [lia|].
    apply (links_apart (a - 16) x); [auto|done|lia].
  - intros x b Hx. destruct (md_hdr _ _ _ _ _ _ HM x b Hx) as (Hxl & H1 & H2). split; [done|].
    assert (x <> a) by congruence. rewrite !upd_ne; [done| |done]. intros <-. by rewrite Zplus_mod, Hxl in Hal.
  - apply (md_sep _ _ _ _ _ _ HM).
Qed.

(** Insertion and extraction. *)
Lemma mid_lframe (M : Z -> Prop) s' F' : lists_ok s' F' -> lframe M s s' -> (forall y, M y -> N y) ->
  (forall a b, B !! a = Some b -> ~ M a /\ ~ M (a + 8)) ->
  (forall pa fl sl x, x ∈ F' pa fl sl -> B !! (x + 16) = None) -> mid N s0 s' B F' P.
Proof using HM.
  intros Hl [L1 L2 L3 L4 L5 L6] HN Hh Hs. destruct HM. split; try congruence.
  - intros a b Ha. destruct (md_hdr0 a b Ha) as (H1 & H2 & H3). destruct (Hh a b Ha). split; [done|].
    by rewrite (L1 a), (L1 (a + 8)).
  - exact Hs.
  - intros y Hy. rewrite L1 by auto. by apply md_mem0.
Qed.

Lemma set_list_in pa fl sl l q i j x : x ∈ set_list F pa fl sl l q i j -> x ∈ l \/ x ∈ F q i j.
Proof using Type.
  destruct (decide ((q, i, j) = (pa, fl, sl))) as [[= -> -> ->]|Hne]; [rewrite set_list_eq; auto|].
  rewrite set_list_ne by done. auto.
Qed.

Lemma wp_mid_insert a b pa p fl sl (Q : unit -> tlsf -> Prop) : B !! a = Some b -> B !! (a + 16) = None -> 0 < a ->
  h_pools s !! pa = Some p -> in_range fl sl -> mapped s0 (a + 16) = true -> mapped s0 (a + 24) = true ->
  (forall q i j, a ∉ F q i j) ->
  N (a + 16) -> N (a + 24) -> (forall y, link_of F y -> N y) ->
  (forall s', mid N s0 s' B (set_list F pa fl sl (a :: F pa fl sl)) P -> Q tt s') ->
  wp tol (INSERT_BLOCK a pa fl sl) Q s.
Proof using HM.
  intros Ha Hn Hpos Hp Hin M1 M2 Hnew N1 N2 HN HQ. destruct (md_hdr _ _ _ _ _ _ HM a b Ha) as (Hal & _).
  eapply wp_insert_block; [apply (md_lists _ _ _ _ _ _ HM)|done|done|done|done|done|by rewrite mid_mapped..|done|].
  intros s' Hl Hf. apply HQ.
  assert (forall q i j x, x ∈ set_list F pa fl sl (a :: F pa fl sl) q i j -> x = a \/ exists q i j, x ∈ F q i j) as Hin'.
  { intros q i j x Hx. apply set_list_in in Hx as [Hx|Hx]; [|right; by exists q, i, j].
    apply elem_of_cons in Hx as [->|Hx]; [by left|]. right. by exists pa, fl, sl. }
  assert (forall y, link_of (set_list F pa fl sl (a :: F pa fl sl)) y -> y = a + 16 \/ y = a + 24 \/ link_of F y) as Hlk.
  { intros y (q & i & j & x & Hx & Hy). destruct (Hin' q i j x Hx) as [->|(q' & i' & j' & Hx')]; [tauto|].
    right. right. by exists q', i', j', x. }
  eapply mid_lframe; [exact Hl|exact Hf|..].
  - intros y Hy. destruct (Hlk y Hy) as [->|[->|Hy']]; auto.
  - intros x y Hx. destruct (md_hdr _ _ _ _ _ _ HM x y Hx) as (Hxl & _). assert (x <> a + 16) by congruence.
    pose proof (links_apart a (x - 16) Hal ltac:(auto)). pose proof (links_apart (x - 16) a ltac:(auto) Hal).
    split; intros Hk; destruct (Hlk _ Hk) as [E|[E|Hy']]; try lia.
    + apply (mid_not_link x y x Hx); auto.
    + apply (mid_not_link x y (x + 8) Hx); auto.
  - intros q i j x Hx. destruct (Hin' q i j x Hx) as [->|(q' & i' & j' & Hx')]; [done|]. by apply (md_sep _ _ _ _ _ _ HM q' i' j').
Qed.

Lemma mid_extract a l1 l2 pa fl sl s' : F pa fl sl = l1 ++ a :: l2 -> (forall y, link_of F y -> N y) ->
  lists_ok s' (set_list F pa fl sl (l1 ++ l2)) -> lframe (link_of F) s s' ->
  mid N s0 s' B (set_list F pa fl sl (l1 ++ l2)) P.
Proof using HM.
  intros El HN Hl Hf. eapply mid_lframe; [exact Hl|exact Hf|done|..].
  - intros x y Hx. split; apply (mid_not_link x y); auto.
  - intros q i j x Hx. apply set_list_in in Hx as [Hx|Hx]; [|by apply (md_sep _ _ _ _ _ _ HM q i j)].
    apply (md_sep _ _ _ _ _ _ HM pa fl sl). rewrite El. set_solver.
Qed.
End Mid.

(** * The invariant *)

(** What blocks in use and regions count for in the figures of a pool. *)
Definition wt (pa : Z) (b : blk) : Z := if decide (k_pool b = pa /\ k_free b = false) then 16 + k_size b else 0.
Definition rt (pa : Z) (r : Z * Z) : Z := if decide (r.1 = pa) then 1 else 0.

Definition size_ok (n : Z) : Prop := n mod TLSF_PAGE_SIZE = 0 /\ TLSF_PAGE_SIZE <= n < 2 ^ 30.

Record pool_wf (B : gmap Z blk) (R : gmap Z (Z * Z)) (runs : gmap Z Z) (pa : Z) (p : xmem_pool) : Prop := {
  pw_used : used_size p = u64 (msum (wt pa) B);
  pw_regs : num_regions p = u64 (msum (rt pa) R);
  pw_init : size_ok (init_size p);
  pw_grow : size_ok (grow_size p);
  pw_max : 0 <= max_size p;
  pw_prov : p_provider p = XmallocPool -> init_size p = TLSF_PAGE_SIZE /\ grow_size p = TLSF_PAGE_SIZE;
  pw_own : is_Some (runs !! pa) /\ R !! pa = None;
}.

(** Runs of memory do not overlap. *)
Record runs_ok (runs : gmap Z Z) : Prop := {
  ro_range : forall r n, runs !! r = Some n -> TLSF_PAGE_SIZE <= r /\ 0 < n /\ r + n <= 2 ^ 63;
  ro_apart : forall r n r' n', runs !! r = Some n -> runs !! r' = Some n' -> r < r' -> r + n <= r';
}.

(** A free block is on the list of its size, and nothing else is. *)
Definition member (B : gmap Z blk) (F : lists) : Prop := forall x pa fl sl, x ∈ F pa fl sl <->
  exists b, B !! x = Some b /\ k_free b = true /\ k_pool b = pa /\ MAPPING_INSERT (k_size b) = (fl, sl).

(** No two free blocks follow each other. *)
Definition coalesced (B : gmap Z blk) : Prop := forall a b, B !! a = Some b -> k_free b = true -> k_pfree b = false.

Record wf (s : tlsf) (B : gmap Z blk) (R : gmap Z (Z * Z)) (F : lists) : Prop := {
  wf_geom : geom B R;
  wf_hdr : hdr_ok (h_mem s) B;
  wf_lists : lists_ok s F;
  wf_member : member B F;
  wf_coal : coalesced B;
  wf_regs : forall r q n, R !! r = Some (q, n) -> h_runs s !! r = Some n /\
    exists p, h_pools s !! q = Some p /\ (n = init_size p \/ n = grow_size p);
  wf_runs : runs_ok (h_runs s);
  wf_pools : forall pa p, h_pools s !! pa = Some p -> pool_wf B R (h_runs s) pa p;
}.

(** Membership after one list changes. *)
Lemma in_removed s F pa fl sl l1 a l2 x q i j : lists_ok s F -> F pa fl sl = l1 ++ a :: l2 ->
  x ∈ set_list F pa fl sl (l1 ++ l2) q i j <-> x <> a /\ x ∈ F q i j.
Proof.
  intros Hl El. pose proof (lo_nodup _ _ Hl pa fl sl) as Hnd. rewrite El in Hnd.
  assert (a ∈ F pa fl sl) as Ha by (rewrite El; set_solver).
  apply NoDup_app in Hnd as (_ & Hd1 & Hd2). apply NoDup_cons in Hd2 as [Hd2 _].
  destruct (decide ((q, i, j) = (pa, fl, sl))) as [[= -> -> ->]|Hne].
  - rewrite set_list_eq, El. split; [|set_solver]. intros Hx. split; [|set_solver]. intros ->.
    apply elem_of_app in Hx as [Hx|Hx]; [|done]. apply (Hd1 a Hx). by left.
  - rewrite set_list_ne by done. split; [|tauto]. intros Hx. split; [|done]. intros ->.
    apply Hne. by eapply (lo_uniq _ _ Hl).
Qed.

Lemma in_inserted F pa fl sl a x q i j :
  x ∈ set_list F pa fl sl (a :: F pa fl sl) q i j <-> x = a /\ (q, i, j) = (pa, fl, sl) \/ x ∈ F q i j.
Proof.
  destruct (decide ((q, i, j) = (pa, fl, sl))) as [[= -> -> ->]|Hne].
  - rewrite set_list_eq, elem_of_cons. naive_solver.
  - rewrite set_list_ne by done. naive_solver.
Qed.

(** What every operation leaves: words the allocator does not own, the list of
    pools, [xenpool], and what the pools were created with. *)
Definition pool_conf (p : xmem_pool) : Z * Z * Z * provider * string :=
  (init_size p, max_size p, grow_size p, p_provider p, p_name p).

Record kept (U R : gmap Z (Z * Z)) (s s' : tlsf) : Prop := {
  kp_mem : forall y, ~ own U R y -> h_mem s' y = h_mem s y;
  kp_list : pool_list_head s' = pool_list_head s;
  kp_xen : xenpool s' = xenpool s;
  kp_conf : pool_conf <$> h_pools s' = pool_conf <$> h_pools s;
}.

Lemma kept_refl U R s : kept U R s s.
Proof. by split. Qed.

Lemma kept_trans U R R' s1 s2 s3 : R ⊆ R' -> kept U R s1 s2 -> kept U R' s2 s3 -> kept U R' s1 s3.
Proof.
  intros HR [] []. split; try congruence. intros y Hy. rewrite kp_mem1 by done. apply kp_mem0.
  intros [Hd (r & q & n & Hr & Hy')]. apply Hy. split; [done|]. exists r, q, n. split; [|done]. by eapply lookup_weaken.
Qed.

(** Changes of figures keep what a pool was created with. *)
Lemma conf_core (m : gmap Z xmem_pool) : pool_conf <$> (pool_core <$> m) = pool_conf <$> m.
Proof. by rewrite <- map_fmap_compose. Qed.

Lemma conf_alter (f : xmem_pool -> xmem_pool) pa (m : gmap Z xmem_pool) : (forall p, pool_conf (f p) = pool_conf p) ->
  pool_conf <$> alter f pa m = pool_conf <$> m.
Proof.
  intros Hf. apply map_eq. intros q. rewrite !lookup_fmap. destruct (decide (q = pa)) as [->|].
  - rewrite lookup_alter_eq. destruct (m !! pa); [|done]. cbn. by rewrite Hf.
  - by rewrite lookup_alter_ne.
Qed.

(** The figures of a pool that is there. *)
Lemma core_alter_lookup (f : xmem_pool -> xmem_pool) pa (m : gmap Z xmem_pool) q p :
  alter f pa (pool_core <$> m) !! q = Some p -> exists p0, m !! q = Some p0 /\
    p = if decide (q = pa) then f (pool_core p0) else pool_core p0.
Proof.
  destruct (decide (q = pa)) as [->|Hq].
  - rewrite lookup_alter_eq, lookup_fmap. destruct (m !! pa) as [p0|]; [|done]. intros [= <-]. by exists p0.
  - rewrite lookup_alter_ne, lookup_fmap by done. destruct (m !! q) as [p0|]; [|done]. intros [= <-]. by exists p0.
Qed.

Section Wf.
Context (s : tlsf) (B : gmap Z blk) (R : gmap Z (Z * Z)) (F : lists) (HW : wf s B R F).

Lemma wf_mapped : regs_mapped s R.
Proof using HW. intros r q n Hr. by apply (wf_regs _ _ _ _ HW) in Hr as [Hr _]. Qed.

Lemma wf_free a b : B !! a = Some b -> k_free b = true -> 16 <= k_size b.
Proof using HW. apply (free_size B R (wf_geom _ _ _ _ HW)). Qed.

Lemma wf_node x pa fl sl : x ∈ F pa fl sl -> exists b, B !! x = Some b /\ k_free b = true /\ k_pool b = pa /\
  MAPPING_INSERT (k_size b) = (fl, sl) /\ 16 <= k_size b.
Proof using HW.
  intros Hx. apply (wf_member _ _ _ _ HW) in Hx as (b & Hb & Hf & Hp & Hm). exists b. split_and!; try done. by eapply wf_free.
Qed.

Lemma wf_sep x pa fl sl : x ∈ F pa fl sl -> B !! (x + 16) = None.
Proof using HW.
  intros Hx. destruct (wf_node x pa fl sl Hx) as (b & Hb & _ & _ & _ & Hs).
  apply (blk_inside _ _ (wf_geom _ _ _ _ HW) x b); [done|lia].
Qed.

Lemma wf_links U y : U ⊆ used_map B -> link_of F y -> own U R y.
Proof using HW.
  intros HU (pa & fl & sl & x & Hx & Hy). destruct (wf_node x pa fl sl Hx) as (b & Hb & Hf & _).
  destruct (own_links B R U (wf_geom _ _ _ _ HW) HU x b Hb Hf). by destruct Hy as [->| ->].
Qed.

Lemma wf_mid N : mid N s s B F (pool_core <$> h_pools s).
Proof using HW.
  split; try done; [apply (wf_lists _ _ _ _ HW)|apply (wf_hdr _ _ _ _ HW)|].
  intros pa fl sl x. apply wf_sep.
Qed.

End Wf.

(** Back to the invariant after an operation on a layout. *)
Lemma mid_wf N s s' B' R' F' P : runs_ok (h_runs s) -> mid N s s' B' F' P -> geom B' R' -> member B' F' -> coalesced B' ->
  (forall r q n, R' !! r = Some (q, n) -> h_runs s !! r = Some n /\
     exists p, h_pools s !! q = Some p /\ (n = init_size p \/ n = grow_size p)) ->
  (forall pa p, P !! pa = Some p -> pool_wf B' R' (h_runs s) pa p) ->
  pool_conf <$> P = pool_conf <$> h_pools s -> wf s' B' R' F'.
Proof.
  intros HW HM HG Hme Hco HR HP HP'.
  assert (forall pa p, P !! pa = Some p -> exists p', h_pools s' !! pa = Some p' /\ pool_core p' = p) as Hback.
  { intros pa p Hp. rewrite <- (md_pools _ _ _ _ _ _ HM), lookup_fmap in Hp.
    destruct (h_pools s' !! pa) as [p'|]; [|done]. exists p'. split; [done|]. by injection Hp. }
  split; try done; [apply (md_hdr _ _ _ _ _ _ HM)|apply (md_lists _ _ _ _ _ _ HM)|..].
  - intros r q n Hr. rewrite (md_runs _ _ _ _ _ _ HM). destruct (HR r q n Hr) as [H1 (p & Hp & Hn)]. split; [done|].
    pose proof (f_equal (lookup q) HP') as E. rewrite !lookup_fmap, Hp in E.
    destruct (P !! q) as [p1|] eqn:Hp1; [|done]. cbn in E. injection E as Hc1. destruct (Hback q p1 Hp1) as (p2 & Hp2 & <-).
    exists p2. split; [done|]. cbn in *. destruct Hn; [left|right]; congruence.
  - by rewrite (md_runs _ _ _ _ _ _ HM).
  - intros pa p Hp. rewrite (md_runs _ _ _ _ _ _ HM).
    assert (P !! pa = Some (pool_core p)) as Hc by (by rewrite <- (md_pools _ _ _ _ _ _ HM), lookup_fmap, Hp).
    destruct (HP pa _ Hc). by split.
Qed.

Lemma mid_kept U R N s s' B' F' P : mid N s s' B' F' P -> (forall y, N y -> own U R y) ->
  pool_conf <$> P = pool_conf <$> h_pools s -> kept U R s s'.
Proof.
  intros [] HN HP. split; try done; [intros y Hy; apply md_mem0; auto|].
  rewrite <- HP, <- md_pools0, <- map_fmap_compose. done.
Qed.

(** Fewer headers to care for. *)
Lemma mid_weaken N s0 s B B' F P : mid N s0 s B F P -> (forall x y, B' !! x = Some y -> B !! x = Some y) -> mid N s0 s B' F P.
Proof.
  intros HM Hs. destruct HM. split; try done; [by eapply hdr_weaken|]. intros pa fl sl x Hx.
  destruct (B' !! (x + 16)) as [y|] eqn:E; [|done]. apply Hs in E. by rewrite (md_sep0 pa fl sl x Hx) in E.
Qed.

Lemma mid_pool N s0 s B F P pa p : mid N s0 s B F P -> P !! pa = Some p -> exists p', h_pools s !! pa = Some p' /\ pool_core p' = p.
Proof.
  intros HM Hp. rewrite <- (md_pools _ _ _ _ _ _ HM), lookup_fmap in Hp. destruct (h_pools s !! pa) as [p'|]; [|done].
  exists p'. split; [done|]. by injection Hp.
Qed.
