(* ===== verification/TlsfAlloc.v ===== *)
(** Allocation from a pool: taking a block off its list, splitting it, and
    growing the pool by a region. *)
From S2P Require Import Prelude CMonad Tlsf TlsfMap TlsfList TlsfLinks TlsfInv TlsfWf.


Section Take.
Context (s : tlsf) (B : gmap Z blk) (R : gmap Z (Z * Z)) (F : lists) (HW : wf s B R F).
Let HG := wf_geom _ _ _ _ HW.
Let HR := wf_mapped _ _ _ _ HW.

Lemma blk_end a b : B !! a = Some b -> 0 < a /\ 0 <= k_size b /\ a + 16 + k_size b <= 2 ^ 63.
Proof using HW.
  intros Ha. destruct (ge_reg _ _ HG a b Ha) as (n & Hn & H1 & H2 & _). pose proof (blk_pos _ _ HG a b Ha).
  destruct (ge_align _ _ HG a b Ha) as (_ & _ & Hs & _). apply HR in Hn.
  destruct (ro_range _ (wf_runs _ _ _ _ HW) _ _ Hn). lia.
Qed.

Lemma next_addr a b n : B !! a = Some b -> 0 <= n <= k_size b -> GET_NEXT_BLOCK a n = a + 16 + n.
Proof using HW.
  intros Ha Hn. destruct (blk_end a b Ha) as (H1 & H2 & H3). unfold GET_NEXT_BLOCK, BHDR_OVERHEAD, SIZEOF_BHDR, MIN_BLOCK_SIZE.
  apply wrap_id. unfold urange. lia.
Qed.

Lemma b_word_size a b : B !! a = Some b -> Z.land (b_word b) BLOCK_SIZE_MASK = k_size b.
Proof using HW.
  intros Ha. destruct (ge_align _ _ HG a b Ha) as (_ & Hm & Hs & _). apply word_size; [done|]. lia.
Qed.

Context (pa fl sl a sz : Z) (l : list Z) (b c : blk).
Context (El : F pa fl sl = a :: l) (Ha : B !! a = Some b).
Context (Hsz : 16 <= sz <= k_size b) (Hsm : sz mod 16 = 0).
Let e := a + 16 + k_size b.
Context (Hc : B !! e = Some c).
Let U := used_map B.
Let F1 := set_list F pa fl sl l.

Lemma take_free : k_free b = true /\ k_pool b = pa /\ k_pfree b = false /\ k_prev c = a /\ k_pfree c = true /\ k_free c = false.
Proof using HW El Ha Hc Hsz.
  destruct (wf_node _ _ _ _ HW a pa fl sl) as (b' & Hb' & H1 & H2 & _ & H3); [rewrite El; by left|].
  rewrite Ha in Hb'. injection Hb' as <-.
  destruct (ge_next _ _ HG a b Ha) as (c' & Hc' & H4 & H5 & _); [lia|]. fold e in Hc'. rewrite Hc in Hc'. injection Hc' as <-.
  rewrite H1 in H5. split_and!; try done; [by eapply (wf_coal _ _ _ _ HW)|].
  destruct (k_free c) eqn:Ef; [|done]. pose proof (wf_coal _ _ _ _ HW e c Hc Ef). congruence.
Qed.

(** The header of what is left over. *)
Definition rest : blk := mk_blk (k_pool b) (k_reg b) a (k_size b - sz - 16) true false.

(** The layout after the block is taken. *)
Definition taken : gmap Z blk :=
  if decide (sz + 32 <= k_size b) then
    <[a := b <| k_size := sz |> <| k_free := false |>]> (<[a + 16 + sz := rest]> (<[e := c <| k_prev := a + 16 + sz |>]> B))
  else <[a := b <| k_free := false |>]> (<[e := c <| k_pfree := false |>]> B).
Definition taken_size : Z := if decide (sz + 32 <= k_size b) then sz else k_size b.
Definition taken_lists : lists :=
  if decide (sz + 32 <= k_size b) then
    let '(i, j) := MAPPING_INSERT (k_size b - sz - 16) in set_list F1 pa i j (a + 16 + sz :: F1 pa i j)
  else F1.

Lemma taken_split : sz + 32 <= k_size b -> taken =
  set_free_at (split_at B a sz b c) a (split_low sz b) (split_high a sz b) false.
Proof using All.
  intros Hs. destruct take_free as (Hf & _). unfold taken. rewrite decide_True by done.
  unfold set_free_at, split_at, rest, split_high, split_low. cbn. rewrite Hf. fold e.
  rewrite (insert_insert_ne _ (a + 16 + sz) a), !insert_insert_eq by lia. done.
Qed.

Lemma taken_geom : geom taken R.
Proof using All.
  destruct (decide (sz + 32 <= k_size b)) as [Hs|Hs].
  - rewrite taken_split by done. apply set_free_geom.
    + apply (split_geom B R HG a sz b c); (done || lia).
    + apply split_a.
    + cbn. lia.
    + cbn. apply split_n. lia.
  - unfold taken. rewrite decide_False by done. apply (set_free_geom B R HG a b c false Ha); [lia|done].
Qed.

Lemma taken_lookup x y : taken !! x = Some y ->
  (x = a /\ k_free y = false) \/ (x = e /\ k_free y = false) \/
  (sz + 32 <= k_size b /\ x = a + 16 + sz /\ y = rest) \/ (x <> a /\ x <> e /\ B !! x = Some y).
Proof using HW El Ha Hc Hsz.
  destruct take_free as (Hf & Hk & Hpf & Hcp & Hcf & Hcn). unfold taken.
  destruct (decide (sz + 32 <= k_size b)) as [Hs|Hs]; rewrite !lookup_insert_Some; naive_solver.
Qed.

Lemma taken_old x y : x <> a -> x <> e -> B !! x = Some y -> taken !! x = Some y.
Proof using HW Ha Hsz.
  intros H1 H2 Hx. unfold taken. destruct (decide (sz + 32 <= k_size b)) as [Hs|Hs]; rewrite !lookup_insert_ne; try done.
  intros <-. rewrite (blk_inside _ _ HG a b _ Ha) in Hx; [done|lia].
Qed.

Lemma taken_member : member taken taken_lists.
Proof using All.
  destruct take_free as (Hf & Hk & Hpf & Hcp & Hcf & Hcn).
  assert (forall x q i j, x ∈ F1 q i j <-> x <> a /\ x ∈ F q i j) as HF1.
  { intros. apply (in_removed s F pa fl sl [] a l); [apply (wf_lists _ _ _ _ HW)|done]. }
  assert (forall x q i j, x ∈ F1 q i j <-> exists y, taken !! x = Some y /\ x <> a + 16 + sz /\ k_free y = true /\
    k_pool y = q /\ MAPPING_INSERT (k_size y) = (i, j)) as HF1'.
  { intros x q i j. rewrite HF1, (wf_member _ _ _ _ HW x q i j). split.
    - intros [Hne (y & Hy & Hfy & Hq & Hm)]. exists y.
      assert (x <> e) by (intros ->; rewrite Hc in Hy; congruence).
      assert (x <> a + 16 + sz) by (intros ->; destruct (decide (sz = k_size b)) as [->|]; [done|];
        rewrite (blk_inside _ _ HG a b _ Ha) in Hy by lia; done).
      split_and!; try done. by apply taken_old.
    - intros (y & Hy & Hne & Hfy & Hq & Hm). apply taken_lookup in Hy as [[-> E]|[[-> E]|[(_ & E & _)|(H1 & H2 & Hy)]]];
        [congruence|congruence|done|]. split; [done|]. exists y. done. }
  intros x q i j. unfold taken_lists. destruct (decide (sz + 32 <= k_size b)) as [Hs|Hs].
  - assert (taken !! (a + 16 + sz) = Some rest) as Hr.
    { unfold taken. rewrite decide_True, lookup_insert_ne by (done || lia). apply lookup_insert_eq. }
    destruct (MAPPING_INSERT (k_size b - sz - 16)) as [i0 j0] eqn:Em. rewrite in_inserted, HF1'. split.
    + intros [[-> [= -> -> ->]]|(y & Hy & _ & H)]; [|by exists y]. exists rest. by split_and!.
    + intros (y & Hy & Hfy & Hq & Hm). destruct (decide (x = a + 16 + sz)) as [->|Hne]; [left|right; by exists y].
      split; [done|]. rewrite Hr in Hy. injection Hy as <-. cbn in *. congruence.
  - rewrite HF1'. split; [intros (y & Hy & _ & H); by exists y|].
    intros (y & Hy & Hfy & Hq & Hm). exists y. split; [done|]. split; [|done].
    intros ->. apply taken_lookup in Hy as [[E _]|[[E E']|[(E & _)|(_ & _ & Hy)]]]; [lia|congruence|done|].
    destruct (decide (sz = k_size b)) as [E|]; [|rewrite (blk_inside _ _ HG a b _ Ha) in Hy by lia; done].
    assert (a + 16 + sz = e) as Ee by (by rewrite E). rewrite Ee, Hc in Hy. congruence.
Qed.

Lemma taken_coalesced : coalesced taken.
Proof using All.
  intros x y Hy Hfy. apply taken_lookup in Hy as [[_ E]|[[_ E]|[(_ & _ & ->)|(_ & _ & Hy)]]]; try congruence; [done|].
  by apply (wf_coal _ _ _ _ HW x).
Qed.

Lemma taken_used : used_map taken = <[a := (pa, taken_size)]> U.
Proof using All.
  destruct take_free as (Hf & Hk & Hpf & Hcp & Hcf & Hcn). unfold taken, taken_size, U.
  destruct (decide (sz + 32 <= k_size b)) as [Hs|Hs].
  - rewrite (used_insert_used _ a _ (pa, sz)).
    2: { unfold used_of. cbn. rewrite Hk. destruct (Z.eqb_spec sz 0); [lia|done]. }
    rewrite used_insert_free by done. rewrite (used_insert_same B e c) by done.
    rewrite delete_id; [done|]. apply used_none, (blk_inside _ _ HG a b); [done|lia].
  - rewrite (used_insert_used _ a _ (pa, k_size b)).
    2: { unfold used_of. cbn. rewrite Hk. destruct (Z.eqb_spec (k_size b) 0); [lia|done]. }
    by rewrite (used_insert_same B e c).
Qed.

Lemma taken_sum q : msum (wt q) taken = msum (wt q) B + (if decide (q = pa) then 16 + taken_size else 0).
Proof using All.
  destruct take_free as (Hf & Hk & Hpf & Hcp & Hcf & Hcn).
  assert (forall c', k_pool c' = k_pool c -> k_free c' = k_free c -> k_size c' = k_size c -> wt q c' = wt q c) as Hwc.
  { intros c' E1 E2 E3. unfold wt. by rewrite E1, E2, E3. }
  assert (wt q b = 0) as Hwb by (unfold wt; rewrite decide_False; [done|]; intros [_ E]; congruence).
  assert (forall b', k_pool b' = pa -> k_free b' = false -> k_size b' = taken_size ->
    wt q b' = if decide (q = pa) then 16 + taken_size else 0) as Hwb'.
  { intros b' E1 E2 E3. unfold wt. rewrite E1, E2, E3. repeat case_decide; naive_solver. }
  unfold taken. unfold taken_size in Hwb'. destruct (decide (sz + 32 <= k_size b)) as [Hs|Hs].
  - rewrite (msum_update _ _ a b) by (rewrite !lookup_insert_ne by lia; done).
    rewrite msum_insert by (rewrite lookup_insert_ne by lia; apply (blk_inside _ _ HG a b); [done|lia]).
    rewrite (msum_update _ B e c) by done. rewrite (Hwc (c <| k_prev := a + 16 + sz |>)), Hwb by done.
    assert (wt q rest = 0) as -> by (unfold wt; rewrite decide_False; [done|]; intros [_ [=]]).
    rewrite (Hwb' (b <| k_size := sz |> <| k_free := false |>)) by (exact Hk || done).
    unfold taken_size. rewrite (decide_True (P := sz + 32 <= k_size b)) by done. case_decide; lia.
  - rewrite (msum_update _ _ a b) by (rewrite !lookup_insert_ne by lia; done).
    rewrite (msum_update _ B e c) by done. rewrite (Hwc (c <| k_pfree := false |>)), Hwb by done. rewrite (Hwb' (b <| k_free := false |>)) by (exact Hk || done).
    unfold taken_size. rewrite (decide_False (P := sz + 32 <= k_size b)) by done. case_decide; lia.
Qed.

(** The code of [take_block] leaves that layout. *)
Context (p : xmem_pool) (Hp : h_pools s !! pa = Some p) (tol : fault -> Prop).
Let N := own U R.
Let P := pool_core <$> h_pools s.

Lemma take_nodes : forall x q i j, x ∈ F1 q i j -> x <> a /\ x ∈ F q i j.
Proof using HW El. intros x q i j. apply (in_removed s F pa fl sl [] a l); [apply (wf_lists _ _ _ _ HW)|done]. Qed.

Lemma take_links y : link_of F1 y -> N y.
Proof using HW El.
  intros (q & i & j & x & Hx & Hy). apply take_nodes in Hx as [_ Hx]. eapply (wf_links _ _ _ _ HW); [done|]. by exists q, i, j, x.
Qed.

(** The case in which the block is split. *)
Lemma wp_take_split s1 (Q : unit -> tlsf -> Prop) : sz + 32 <= k_size b -> mid N s s1 B F1 P ->
  (forall s', mid N s s' taken taken_lists P -> Q tt s') ->
  wp tol (let tmp_size := u64 (u64 (k_size b - sz) - BHDR_OVERHEAD) in
     let b2 := GET_NEXT_BLOCK a sz in
     store (f_size b2) (u32 (Z.lor (Z.lor tmp_size FREE_BLOCK) PREV_USED));;
     store (f_prev_hdr b2) a;;
     store (f_prev_hdr e) b2;;
     (let '(fl, sl) := MAPPING_INSERT tmp_size in INSERT_BLOCK b2 pa fl sl);;
     bsize ← load (f_size a);
     store (f_size a) (u32 (Z.lor sz (Z.land bsize PREV_STATE)))) Q s1.
Proof using All.
  intros Hs HM HQ. destruct take_free as (Hf & Hk & Hpf & Hcp & Hcf & Hcn).
  destruct (blk_end a b Ha) as (B1 & B2 & B3). destruct (ge_align _ _ HG a b Ha) as (A1 & A2 & A3 & _).
  assert (u64 (u64 (k_size b - sz) - BHDR_OVERHEAD) = k_size b - sz - 16) as ->.
  { rewrite (wrap_id 64 (k_size b - sz)) by (unfold urange; lia). apply wrap_id. unfold urange, BHDR_OVERHEAD, SIZEOF_BHDR, MIN_BLOCK_SIZE. lia. }
  cbn zeta. rewrite (next_addr a b sz Ha) by lia. set (n := a + 16 + sz).
  assert (B !! n = None) as Hn by (apply (blk_inside _ _ HG a b); [done|lia]).
  assert (n mod 16 = 0) as Hn16 by (subst n; auto).
  assert (forall y, n <= y -> y + 8 <= a + 16 + k_size b -> mapped s y = true /\ N y) as Hin.
  { intros y H1 H2. split; [apply (inside_mapped s B R HG HR a b); [done|lia|lia]|].
    apply (own_inside B R U HG ltac:(done) a b); [done|done|lia]. }
  assert (forall q i j x, x ∈ F1 q i j -> x + 16 <> n) as Hsep.
  { intros q i j x Hx E. apply take_nodes in Hx as [Hne Hx]. destruct (wf_node _ _ _ _ HW x q i j Hx) as (y & Hy & Hfy & _ & _ & Hsy).
    destruct (Z.lt_ge_cases x a) as [Hlt|Hge].
    - pose proof (ge_apart _ _ HG x y a b Hy Ha Hlt). lia.
    - pose proof (ge_apart _ _ HG a b x y Ha Hy ltac:(lia)). lia. }
  destruct (blk_mapped s B R HG HR a b Ha) as [Ma Ma8]. destruct (blk_mapped s B R HG HR e c Hc) as [Me Me8].
  destruct (own_hdr B R U HG ltac:(done) a b Ha) as [Na Na8]. destruct (own_hdr B R U HG ltac:(done) e c Hc) as [Ne Ne8].
  assert (0 <= k_size b - sz - 16 < 2 ^ 30 /\ (k_size b - sz - 16) mod 16 = 0) as [Hrs Hrm] by (split; [lia|auto]).
  apply wp_bind. eapply (wp_mid_store_new tol N s s1 B F1 P HM n rest); [done|done|apply Hin; lia|apply Hin; lia|..|done|].
  { apply word_new; [done|lia]. }
  intros s2 HM2. apply wp_bind.
  eapply (wp_mid_store_prev tol N s s2 _ F1 P HM2 n); [apply lookup_insert_eq|apply Hin; lia|apply Hin; lia|].
  intros s3 HM3. rewrite insert_insert_eq in HM3. apply wp_bind.
  eapply (wp_mid_store_prev tol N s s3 _ F1 P HM3 e); [rewrite lookup_insert_ne by lia; exact Hc|done|done|].
  intros s4 HM4. apply wp_bind.
  destruct (MAPPING_INSERT (k_size b - sz - 16)) as [i j] eqn:Em.
  destruct (h_pools s4 !! pa) as [p4|] eqn:Hp4.
  2: { pose proof (f_equal (lookup pa) (md_pools _ _ _ _ _ _ HM4)) as E. unfold P in E. rewrite !lookup_fmap, Hp4, Hp in E. done. }
  pose proof (insert_range (k_size b - sz - 16) Hrs) as Hir. rewrite Em in Hir. cbn [fst snd] in Hir.
  eapply (wp_mid_insert tol N s s4 _ F1 P HM4 n); [..|].
  { rewrite lookup_insert_ne by lia. apply lookup_insert_eq. }
  { rewrite !lookup_insert_ne by lia. apply (blk_inside _ _ HG a b); [done|lia]. }
  { lia. }
  { exact Hp4. }
  { exact Hir. }
  { apply Hin; lia. }
  { apply Hin; lia. }
  { intros q i' j' Hx. apply take_nodes in Hx as [_ Hx]. destruct (wf_node _ _ _ _ HW n q i' j' Hx) as (y & Hy & _). by rewrite Hy in Hn. }
  { apply Hin; lia. }
  { apply Hin; lia. }
  { apply take_links. }
  intros s5 HM5. apply wp_bind.
  eapply (wp_mid_size tol N s s5 _ _ P HM5 a b); [rewrite !lookup_insert_ne by lia; exact Ha|done|].
  eapply (wp_mid_store_size tol N s s5 _ _ P HM5 a b (b <| k_size := sz |> <| k_free := false |>));
    [rewrite !lookup_insert_ne by lia; exact Ha|done|done|done|..].
  { unfold b_word. cbn. apply word_cut; (done || lia). }
  intros s6 HM6. apply HQ. unfold taken, taken_lists. rewrite !(decide_True (P := sz + 32 <= k_size b)), Em by done. fold n.
  rewrite (insert_insert_ne _ n e) by lia. exact HM6.
Qed.

(** The case in which all of it is taken. *)
Lemma wp_take_all s1 (Q : unit -> tlsf -> Prop) : ~ sz + 32 <= k_size b -> mid N s s1 B F1 P ->
  (forall s', mid N s s' taken taken_lists P -> Q tt s') ->
  wp tol (nsize ← load (f_size e);
     store (f_size e) (Z.land nsize (Z.lnot PREV_FREE));;
     bsize ← load (f_size a);
     store (f_size a) (Z.land bsize (Z.lnot FREE_BLOCK))) Q s1.
Proof using All.
  intros Hs HM HQ. destruct take_free as (Hf & Hk & Hpf & Hcp & Hcf & Hcn).
  destruct (ge_align _ _ HG a b Ha) as (A1 & A2 & A3 & _). destruct (ge_align _ _ HG e c Hc) as (A4 & A5 & A6 & _).
  destruct (blk_mapped s B R HG HR a b Ha) as [Ma Ma8]. destruct (blk_mapped s B R HG HR e c Hc) as [Me Me8].
  destruct (own_hdr B R U HG ltac:(done) a b Ha) as [Na Na8]. destruct (own_hdr B R U HG ltac:(done) e c Hc) as [Ne Ne8].
  assert (a <> e) as Hne by (unfold e; lia).
  apply wp_bind. eapply (wp_mid_size tol N s s1 B F1 P HM e c); [exact Hc|done|]. apply wp_bind.
  eapply (wp_mid_store_size tol N s s1 B F1 P HM e c (c <| k_pfree := false |>)); [exact Hc|done|done|done|..].
  { unfold b_word. cbn. rewrite Hcf. apply word_clear; [done|done|]. by destruct (k_free c). }
  intros s2 HM2. apply wp_bind. eapply (wp_mid_size tol N s s2 _ F1 P HM2 a b); [by rewrite lookup_insert_ne|done|].
  eapply (wp_mid_store_size tol N s s2 _ F1 P HM2 a b (b <| k_free := false |>)); [by rewrite lookup_insert_ne|done|done|done|..].
  { unfold b_word. cbn. rewrite Hf. apply word_clear; [done|done|]. by destruct (k_pfree b). }
  intros s3 HM3. apply HQ. unfold taken, taken_lists. by rewrite !(decide_False (P := sz + 32 <= k_size b)).
Qed.

Lemma taken_size_word : exists b', taken !! a = Some b' /\ k_size b' = taken_size.
Proof using Type.
  unfold taken, taken_size. destruct (decide (sz + 32 <= k_size b)); rewrite lookup_insert_eq; by eexists.
Qed.

Lemma wp_take_block (Q : Z -> tlsf -> Prop) :
  (forall s', wf s' taken R taken_lists -> kept U R s s' -> h_runs s' = h_runs s ->
     used_map taken = <[a := (pa, taken_size)]> U -> sz <= taken_size -> Q (a + 16) s') ->
  wp tol (take_block a sz fl sl pa) Q s.
Proof using All.
  intros HQ. destruct take_free as (Hf & Hk & Hpf & Hcp & Hcf & Hcn).
  destruct (blk_end a b Ha) as (B1 & B2 & B3). destruct (ge_align _ _ HG a b Ha) as (A1 & A2 & A3 & _).
  destruct (blk_mapped s B R HG HR a b Ha) as [Ma Ma8].
  assert (in_range fl sl) as Hin by (eapply (lo_pool _ _ (wf_lists _ _ _ _ HW) pa fl sl a); rewrite El; by left).
  destruct (index_word _ _ (lo_index _ _ (wf_lists _ _ _ _ HW) pa p Hp) fl sl Hin) as [w Hw].
  pose proof (wf_mid _ _ _ _ HW N) as HM0.
  assert (forall y, link_of F y -> N y) as HNF by (intros y; by apply (wf_links _ _ _ _ HW)).
  unfold take_block. apply wp_bind.
  eapply (wp_extract_hdr s F pa fl sl a [] l (wf_lists _ _ _ _ HW) El p w Hp Hw); [|done].
  intros s1 Hl1 Hf1 _ _. cbn [app] in Hl1. fold F1 in Hl1.
  pose proof (mid_extract N s s B F P HM0 a [] l pa fl sl s1 El HNF Hl1 Hf1) as HM. cbn [app] in HM. fold F1 in HM.
  apply wp_bind. eapply (wp_mid_size tol N s s1 B F1 P HM a b); [exact Ha|done|].
  rewrite (b_word_size a b Ha), (next_addr a b (k_size b) Ha) by lia. fold e. cbn zeta. apply wp_bind.
  assert (u64 (k_size b - sz) = k_size b - sz) as Et by (apply wrap_id; unfold urange; lia).
  assert (forall s', mid N s s' taken taken_lists P ->
    wp tol (bsize ← load (f_size a);
      pool_write pa (fun p => p <| used_size ::= fun u => u64 (u + (Z.land bsize BLOCK_SIZE_MASK + BHDR_OVERHEAD)) |>);;
      mret (a + 16)) Q s') as Hend.
  { intros s' HM'. destruct taken_size_word as (b' & Hb' & Esz).
    apply wp_bind. eapply (wp_mid_size tol N s s' _ _ P HM' a b'); [exact Hb'|done|].
    assert (0 <= taken_size < 2 ^ 32 /\ taken_size mod 16 = 0) as [Hts Htm].
    { unfold taken_size. destruct (decide (sz + 32 <= k_size b)); [split; [lia|done]|split; [lia|done]]. }
    assert (Z.land (b_word b') BLOCK_SIZE_MASK = taken_size) as -> by (rewrite <- Esz; apply word_size; by rewrite Esz).
    destruct (h_pools s' !! pa) as [p'|] eqn:Hp'.
    2: { pose proof (f_equal (lookup pa) (md_pools _ _ _ _ _ _ HM')) as E. unfold P in E. by rewrite !lookup_fmap, Hp', Hp in E. }
    apply wp_bind. eapply (wp_mid_pool tol N s s' _ _ P HM' pa p'); [done|done|]. intros s'' HM'' _. apply wp_ret.
    assert (pool_conf <$> alter (fun p => p <| used_size ::= fun u => u64 (u + (taken_size + BHDR_OVERHEAD)) |>) pa P =
      pool_conf <$> h_pools s) as Hconf by (rewrite conf_alter by done; apply conf_core).
    apply HQ.
    - eapply (mid_wf N s); [apply (wf_runs _ _ _ _ HW)|exact HM''|apply taken_geom|apply taken_member|apply taken_coalesced|apply (wf_regs _ _ _ _ HW)|..|exact Hconf].
      intros q p1 Hq. apply core_alter_lookup in Hq as (p0 & Hp0 & ->). destruct (wf_pools _ _ _ _ HW q p0 Hp0) as [U1 U2 U3 U4 U5 U6 U7].
      destruct (decide (q = pa)) as [->|Hq]; split; try done; cbn; rewrite taken_sum, U1.
      + rewrite decide_True, wrap_add_l by done. f_equal. change BHDR_OVERHEAD with 16. lia.
      + by rewrite decide_False, Z.add_0_r.
    - eapply mid_kept; [exact HM''|done|exact Hconf].
    - by rewrite (md_runs _ _ _ _ _ _ HM'').
    - apply taken_used.
    - unfold taken_size. destruct (decide (sz + 32 <= k_size b)); lia. }
  destruct (Z.leb_spec SIZEOF_BHDR (u64 (k_size b - sz))) as [Hle|Hgt];
    [rewrite Et in Hle; change SIZEOF_BHDR with 32 in Hle|rewrite Et in Hgt; change SIZEOF_BHDR with 32 in Hgt].
  - eapply wp_take_split; [lia|exact HM|exact Hend].
  - eapply wp_take_all; [lia|exact HM|exact Hend].
Qed.
End Take.
