(* ===== verification/TlsfGrow.v ===== *)
(** Growing a pool by a region, finding a block with growth, and allocation
    from a pool as a whole. *)
From S2P Require Import Prelude CMonad Tlsf TlsfMap TlsfList TlsfLinks TlsfInv TlsfWf TlsfAlloc.

(** * A new region *)

Lemma own_mono U R R' y : R ⊆ R' -> own U R y -> own U R' y.
Proof. intros HR [H1 (r & q & n & Hr & Hy)]. split; [done|]. exists r, q, n. split; [by eapply lookup_weaken|done]. Qed.

Lemma region_size len : size_ok len -> u32 (Z.lor (Z.lor (ROUNDDOWN_SIZE (u64 (len - 2 * BHDR_OVERHEAD))) FREE_BLOCK) PREV_USED) =
  word (len - 32) true false /\ (len - 32) mod 16 = 0 /\ len mod 16 = 0 /\ 4096 <= len < 2 ^ 30.
Proof.
  intros [Hm Hr]. unfold TLSF_PAGE_SIZE in *.
  assert (len mod 16 = 0) as Hl by (rewrite <- (Z.mod_mod_divide len 4096 16), Hm; [done|by exists 256]).
  assert ((len - 32) mod 16 = 0) as Hl2 by auto. split_and!; try done; try lia.
  change (2 * BHDR_OVERHEAD) with 32. rewrite (wrap_id 64) by (unfold urange; lia).
  unfold ROUNDDOWN_SIZE. change (TLSF_MEM_ALIGN - 1) with (2 ^ 4 - 1). rewrite land_lnot_low by lia.
  change (2 ^ 4) with 16. rewrite Hl2, Z.sub_0_r. apply word_new; [done|lia].
Qed.

Section Region.
Context (s : tlsf) (B : gmap Z blk) (R : gmap Z (Z * Z)) (F : lists) (HW : wf s B R F).
Let HG := wf_geom _ _ _ _ HW.
Context (tol : fault -> Prop) (pa : Z) (p : xmem_pool) (r len : Z).
Context (Hp : h_pools s !! pa = Some p) (Hlen : len = init_size p \/ len = grow_size p).
Context (Hr : 0 < r) (Hr16 : r mod 16 = 0) (Hrun : h_runs s !! r = Some len) (HRr : R !! r = None).
Context (Hown : forall q, is_Some (h_pools s !! q) -> q <> r).
Let U := used_map B.
Let R' := <[r := (pa, len)]> R.
Let N := own U R'.
Let P := pool_core <$> h_pools s.
Let B' := add_region_at B pa r len.

Lemma region_len : size_ok len.
Proof using All. destruct (wf_pools _ _ _ _ HW pa p Hp). by destruct Hlen as [->| ->]. Qed.

Lemma region_apart r' q n : R !! r' = Some (q, n) -> r' + n <= r \/ r + len <= r'.
Proof using All.
  intros Hr'. destruct (wf_regs _ _ _ _ HW _ _ _ Hr') as [H1 _]. destruct (decide (r' = r)) as [->|Hne]; [by rewrite HRr in Hr'|].
  destruct (Z.lt_ge_cases r' r).
  - left. apply (ro_apart _ (wf_runs _ _ _ _ HW) _ _ _ _ H1 Hrun). done.
  - right. apply (ro_apart _ (wf_runs _ _ _ _ HW) _ _ _ _ Hrun H1). lia.
Qed.

Lemma region_out a b : B !! a = Some b -> 0 <= k_size b /\ (a + 16 + k_size b <= r \/ r + len <= a).
Proof using All.
  intros Ha. destruct (ge_reg _ _ HG a b Ha) as (n & Hn & H1 & H2 & _).
  destruct (ge_align _ _ HG a b Ha) as (_ & _ & Hs & _). pose proof (region_apart _ _ _ Hn). lia.
Qed.

Lemma region_fresh y : r <= y < r + len -> B !! y = None.
Proof using All.
  intros Hy. destruct (B !! y) as [b|] eqn:E; [|done]. destruct (region_out y b E). lia.
Qed.

Lemma region_geom : geom B' R'.
Proof using All.
  destruct (region_size len region_len) as (_ & _ & H1 & H2). apply add_region_geom; [done|done|done|done|lia|].
  intros r' q n. apply region_apart.
Qed.

Lemma region_own y : r <= y < r + len -> N y.
Proof using All.
  intros Hy. split.
  - intros (x & q & m & Hx & Hxy). apply used_lookup in Hx as (c & Hc & _ & _ & _ & ->).
    destruct (region_out x c Hc). lia.
  - exists r, pa, len. split; [apply lookup_insert_eq|done].
Qed.

Lemma region_mapped y : r <= y -> y + 8 <= r + len -> mapped s y = true.
Proof using All. intros H1 H2. apply mapped_spec. exists r, len. split; [done|lia]. Qed.

Lemma region_nodes q i j x : x ∈ F q i j -> x + 32 <= r \/ r + len <= x.
Proof using All.
  intros Hx. destruct (wf_node _ _ _ _ HW x q i j Hx) as (b & Hb & _ & _ & _ & Hs). destruct (region_out x b Hb). lia.
Qed.

Definition region_lists : lists :=
  let '(i, j) := MAPPING_INSERT (len - 32) in set_list F pa i j (r :: F pa i j).

Lemma region_used : used_map B' = U.
Proof using All.
  destruct (region_size len region_len) as (_ & _ & _ & Hl).
  unfold B', add_region_at. rewrite !used_insert_free by done. fold U.
  rewrite (delete_id U), delete_id; [done|..]; apply used_none, region_fresh; lia.
Qed.

Lemma region_member : member B' region_lists.
Proof using All.
  destruct (region_size len region_len) as (_ & _ & _ & Hl). intros x q i j. unfold region_lists.
  destruct (MAPPING_INSERT (len - 32)) as [i0 j0] eqn:Em. rewrite in_inserted, (wf_member _ _ _ _ HW x q i j).
  unfold B', add_region_at. split.
  - intros [[-> [= -> -> ->]]|(b & Hb & H)].
    + exists (region_block pa r len). by rewrite lookup_insert_eq.
    + exists b. rewrite !lookup_insert_ne; [done|..]; intros <-; rewrite region_fresh in Hb by lia; done.
  - intros (b & Hb & Hf & Hq & Hm). apply lookup_insert_Some in Hb as [[<- <-]|[Hne Hb]].
    + left. split; [done|]. cbn in Hq, Hm. congruence.
    + apply lookup_insert_Some in Hb as [[<- <-]|[Hne' Hb]]; [done|]. right. by exists b.
Qed.

Lemma region_coalesced : coalesced B'.
Proof using All.
  intros x b Hb Hf. unfold B', add_region_at in Hb. apply lookup_insert_Some in Hb as [[<- <-]|[Hne Hb]]; [done|].
  apply lookup_insert_Some in Hb as [[<- <-]|[Hne' Hb]]; [done|]. by apply (wf_coal _ _ _ _ HW x).
Qed.

Lemma region_sum q : msum (wt q) B' = msum (wt q) B + (if decide (q = pa) then 16 else 0) /\
  msum (rt q) R' = msum (rt q) R + (if decide (q = pa) then 1 else 0).
Proof using All.
  destruct (region_size len region_len) as (_ & _ & _ & Hl). unfold B', add_region_at, R'.
  rewrite !msum_insert; [|done|by apply region_fresh; lia|rewrite lookup_insert_ne by lia; apply region_fresh; lia].
  unfold wt at 1 2, rt at 1. cbn. repeat case_decide; naive_solver lia.
Qed.

Lemma wp_add_region (Q : unit -> tlsf -> Prop) :
  (forall s', wf s' B' R' region_lists -> kept U R' s s' -> h_runs s' = h_runs s -> Q tt s') ->
  wp tol (ADD_REGION r len pa) Q s.
Proof using All.
  intros HQ. destruct (region_size len region_len) as (Hw & Hm16 & Hl16 & Hl).
  set (z := r + len - 16).
  assert (z mod 16 = 0) as Hz16 by (subst z; auto).
  pose proof (wf_mid _ _ _ _ HW N) as HM0. fold P in HM0.
  assert (forall q i j x, x ∈ F q i j -> x + 16 <> r /\ x + 16 <> z) as Hsep.
  { intros q i j x Hx. pose proof (region_nodes q i j x Hx). subst z. lia. }
  destruct (ro_range _ (wf_runs _ _ _ _ HW) _ _ Hrun) as (_ & _ & Hend).
  unfold ADD_REGION. apply wp_bind.
  eapply (wp_mid_store_word tol N s s B F P HM0 r); [apply region_fresh; lia|done|apply region_mapped; lia|apply region_own; lia|apply Hsep|].
  intros s1 HM1 E1. apply wp_bind. rewrite Hw.
  eapply (wp_mid_store_new tol N s s1 B F P HM1 r (region_block pa r len));
    [apply region_fresh; lia|done|apply region_mapped; lia|apply region_own; lia|done|apply Hsep|].
  rewrite E1. change ((region_block pa r len) <| k_prev := 0 |>) with (region_block pa r len). intros s2 HM2.
  apply wp_bind. eapply (wp_mid_size tol N s s2 _ F P HM2 r (region_block pa r len)); [apply lookup_insert_eq|apply region_mapped; lia|].
  assert (Z.land (b_word (region_block pa r len)) BLOCK_SIZE_MASK = len - 32) as Ebw by (apply word_size; [done|lia]).
  rewrite Ebw. pose proof (insert_range (len - 32) ltac:(lia)) as Hir.
  destruct (MAPPING_INSERT (len - 32)) as [i j] eqn:Em. cbn [fst snd] in Hir. apply wp_bind.
  destruct (h_pools s2 !! pa) as [p2|] eqn:Hp2.
  2: { pose proof (f_equal (lookup pa) (md_pools _ _ _ _ _ _ HM2)) as E. unfold P in E. by rewrite !lookup_fmap, Hp2, Hp in E. }
  eapply (wp_mid_insert tol N s s2 _ F P HM2 r (region_block pa r len)).
  { apply lookup_insert_eq. }
  { rewrite lookup_insert_ne by lia. apply region_fresh. lia. }
  { done. }
  { exact Hp2. }
  { exact Hir. }
  { apply region_mapped; lia. }
  { apply region_mapped; lia. }
  { intros q i' j' Hx. pose proof (region_nodes q i' j' r Hx). lia. }
  { apply region_own; lia. }
  { apply region_own; lia. }
  { intros y Hy. apply (own_mono _ R); [by apply insert_subseteq|]. by apply (wf_links _ _ _ _ HW). }
  intros s3 HM3. apply wp_bind.
  eapply (wp_mid_size tol N s s3 _ _ P HM3 r (region_block pa r len)); [apply lookup_insert_eq|apply region_mapped; lia|].
  rewrite Ebw.
  assert (GET_NEXT_BLOCK r (len - 32) = z) as ->.
  { unfold GET_NEXT_BLOCK. change BHDR_OVERHEAD with 16. rewrite wrap_id; [subst z; lia|unfold urange; lia]. }
  assert (forall q i' j' x, x ∈ set_list F pa i j (r :: F pa i j) q i' j' -> x + 16 <> z) as Hsep3.
  { intros q i' j' x Hx. apply in_inserted in Hx as [[-> _]|Hx]; [subst z; lia|by apply (Hsep q i' j')]. }
  apply wp_bind.
  eapply (wp_mid_store_word tol N s s3 _ _ P HM3 z); [rewrite lookup_insert_ne by lia; apply region_fresh; lia|done|
    apply region_mapped; lia|apply region_own; lia|exact Hsep3|].
  intros s4 HM4 E4. apply wp_bind.
  eapply (wp_mid_store_new tol N s s4 _ _ P HM4 z (region_end pa r));
    [rewrite lookup_insert_ne by lia; apply region_fresh; lia|done|apply region_mapped; lia|apply region_own; lia|done|exact Hsep3|].
  rewrite E4. change ((region_end pa r) <| k_prev := r |>) with (region_end pa r). intros s5 HM5.
  rewrite (insert_insert_ne _ z r) in HM5 by lia. fold (add_region_at B pa r len) in HM5. fold B' in HM5.
  destruct (h_pools s5 !! pa) as [p5|] eqn:Hp5.
  2: { pose proof (f_equal (lookup pa) (md_pools _ _ _ _ _ _ HM5)) as E. unfold P in E. by rewrite !lookup_fmap, Hp5, Hp in E. }
  eapply (wp_mid_pool tol N s s5 _ _ P HM5 pa p5); [done|done|]. intros s6 HM6 _.
  match type of HM6 with mid _ _ _ _ _ (alter ?f _ _) => set (g := f) in * end.
  assert (pool_conf <$> alter g pa P = pool_conf <$> h_pools s) as Hconf by (rewrite conf_alter by done; apply conf_core).
  apply HQ.
  - eapply (mid_wf N s); [apply (wf_runs _ _ _ _ HW)| |apply region_geom|apply region_member|apply region_coalesced|..|exact Hconf].
    + unfold region_lists. rewrite Em. exact HM6.
    + intros r' q n Hr'. apply lookup_insert_Some in Hr' as [[<- [= <- <-]]|[_ Hr']]; [|by apply (wf_regs _ _ _ _ HW)].
      split; [done|]. by exists p.
    + intros q p1 Hq. apply core_alter_lookup in Hq as (p0 & Hp0 & ->).
      destruct (wf_pools _ _ _ _ HW q p0 Hp0) as [U1 U2 U3 U4 U5 U6 [U7 U8]]. destruct (region_sum q) as [S1 S2].
      assert (R' !! q = None) as HRq by (unfold R'; rewrite lookup_insert_ne; [done|]; apply not_eq_sym, Hown; by eexists).
      destruct (decide (q = pa)) as [->|Hq]; split; try done; cbn; rewrite ?S1, ?S2, ?U1, ?U2, ?Z.add_0_r; try done.
      * change BHDR_OVERHEAD with 16. by rewrite wrap_add_l.
      * by rewrite wrap_add_l.
  - eapply mid_kept; [exact HM6|done|exact Hconf].
  - by rewrite (md_runs _ _ _ _ _ _ HM6).
Qed.
End Region.

(** * Memory from the provider *)

(** The answer to a request: nothing, or memory that no one has. *)
Definition fresh_run (runs : gmap Z Z) (a bytes : Z) : Prop :=
  a = 0 \/ (TLSF_PAGE_SIZE <= a /\ a mod 16 = 0 /\ a + bytes <= 2 ^ 63 /\
            forall r n, runs !! r = Some n -> r + n <= a \/ a + bytes <= r).

Record env_ok (env : TlsfEnv) : Prop := {
  eo_pages : forall runs n order, 0 <= order -> fresh_run runs (te_pages env runs n order) (TLSF_PAGE_SIZE * 2 ^ order);
  eo_user : forall runs n k bytes, 0 < bytes -> fresh_run runs (te_user env runs n k bytes) bytes;
  eo_pool : 0 < te_pool_size env < 2 ^ 30;
}.

(** What changes when a pool grows. *)
Record grown (U R R' : gmap Z (Z * Z)) (s s' : tlsf) : Prop := {
  gr_kept : kept U R' s s';
  gr_regs : R ⊆ R';
  gr_new : forall r x, R' !! r = Some x -> R !! r = Some x \/ h_runs s !! r = None;
  gr_runs : h_runs s ⊆ h_runs s';
  gr_held : forall r, is_Some (h_runs s' !! r) -> h_runs s !! r = None -> is_Some (R' !! r);
}.

Lemma grown_refl U R s : grown U R R s s.
Proof. split; [apply kept_refl|done|auto|done|]. intros r [n Hn]. congruence. Qed.

Lemma grown_trans U R1 R2 R3 s1 s2 s3 : grown U R1 R2 s1 s2 -> grown U R2 R3 s2 s3 -> grown U R1 R3 s1 s3.
Proof.
  intros [K1 G1 N1 L1 E1] [K2 G2 N2 L2 E2]. split.
  - by eapply kept_trans.
  - by etransitivity.
  - intros r x Hx. destruct (N2 r x Hx) as [H|H]; [auto|]. right.
    destruct (h_runs s1 !! r) as [n|] eqn:E; [|done]. pose proof (lookup_weaken _ _ _ _ E L1). congruence.
  - by etransitivity.
  - intros r Hr Hn. destruct (h_runs s2 !! r) as [m|] eqn:E; [|by apply E2].
    destruct (E1 r) as [x Hx]; [by exists m|done|]. exists x. by eapply lookup_weaken.
Qed.

Lemma grown_kept U R s s' : kept U R s s' -> h_runs s' = h_runs s -> grown U R R s s'.
Proof. intros K E. split; [done|done|auto|by rewrite E|]. rewrite E. intros r [n Hn]. congruence. Qed.

(** A run comes in and becomes a region. *)
Lemma grown_region U R s s1 s2 r n x : kept U R s s1 -> h_runs s1 = <[r := n]> (h_runs s) -> h_runs s !! r = None -> R !! r = None ->
  kept U (<[r := x]> R) s1 s2 -> h_runs s2 = h_runs s1 -> grown U R (<[r := x]> R) s s2.
Proof.
  intros K1 E1 Hn HR K2 E2. split.
  - eapply kept_trans; [|exact K1|exact K2]. by apply insert_subseteq.
  - by apply insert_subseteq.
  - intros y z Hy. apply lookup_insert_Some in Hy as [[<- _]|[_ Hy]]; [by right|by left].
  - rewrite E2, E1. by apply insert_subseteq.
  - rewrite E2, E1. intros y Hy Hny. destruct (decide (y = r)) as [->|Hne]; [rewrite lookup_insert_eq; by eexists|].
    rewrite lookup_insert_ne, Hny in Hy by done. by destruct Hy.
Qed.

Lemma grown_conf U R R' s s' pa p : grown U R R' s s' -> h_pools s !! pa = Some p ->
  exists p', h_pools s' !! pa = Some p' /\ pool_conf p' = pool_conf p.
Proof.
  intros G Hp. pose proof (f_equal (lookup pa) (kp_conf _ _ _ _ (gr_kept _ _ _ _ _ G))) as E.
  rewrite !lookup_fmap, Hp in E. destruct (h_pools s' !! pa) as [p'|]; [|done]. exists p'. split; [done|]. by apply (inj Some).
Qed.

(** A run more. *)
Lemma mapped_more s s' y : h_runs s ⊆ h_runs s' -> mapped s y = true -> mapped s' y = true.
Proof.
  intros Hr Hm. apply mapped_spec in Hm as (r & n & H1 & H2 & H3). apply mapped_spec. exists r, n.
  split; [by eapply lookup_weaken|done].
Qed.

Lemma runs_ok_insert runs a bytes : runs_ok runs -> a <> 0 -> 0 < bytes -> fresh_run runs a bytes ->
  runs !! a = None /\ runs_ok (<[a := bytes]> runs).
Proof.
  intros [Hr Ha] Hne Hb [?|(H1 & _ & H2 & H3)]; [done|].
  assert (runs !! a = None) as Hn.
  { destruct (runs !! a) as [n|] eqn:E; [|done]. pose proof (H3 a n E). pose proof (Hr a n E). lia. }
  split; [done|]. split.
  - intros r n Hx. apply lookup_insert_Some in Hx as [[<- <-]|[_ Hx]]; [done|by apply Hr].
  - intros r n r' n' Hx Hx' Hlt. apply lookup_insert_Some in Hx as [[<- <-]|[Hne1 Hx]];
      apply lookup_insert_Some in Hx' as [[<- <-]|[Hne2 Hx']]; [lia|..|by eapply Ha].
    + pose proof (H3 r' n' Hx'). pose proof (Hr r' n' Hx'). lia.
    + pose proof (H3 r n Hx). lia.
Qed.

(** The invariant only looks at some of the state. *)
Lemma wf_runs_more s s' B R F : wf s B R F -> h_mem s' = h_mem s -> h_pools s' = h_pools s -> h_runs s ⊆ h_runs s' ->
  runs_ok (h_runs s') -> wf s' B R F.
Proof.
  intros [W1 W2 W3 W4 W5 W6 W7 W8] Em Ep Hr Ho. split; try done; rewrite ?Em, ?Ep; try done.
  - eapply lists_ok_frame; [done|by rewrite Em|..].
    + intros y Hy _. by eapply mapped_more.
    + rewrite Ep. intros pa p Hp. by exists p.
    + by rewrite Ep.
  - intros r q n Hx. destruct (W6 r q n Hx) as [H1 H2]. split; [by eapply lookup_weaken|done].
  - intros pa p Hp. destruct (W8 pa p Hp) as [U1 U2 U3 U4 U5 U6 [[n U7] U8]]. split; try done.
    split; [|done]. exists n. by eapply lookup_weaken.
Qed.

Section Alloc.
Context (env : TlsfEnv) (HE : env_ok env) (tol : fault -> Prop).

(** The provider of a pool refused, at some point. *)
Definition refused (f : provider) (size : Z) : Prop :=
  match f with
  | XmallocPool => exists runs n, te_pages env runs n 0 = 0
  | UserPool k => exists runs n, te_user env runs n k size = 0
  end.

Section GetMem.
Context (s : tlsf) (B : gmap Z blk) (R : gmap Z (Z * Z)) (F : lists) (HW : wf s B R F).
Context (pa : Z) (p : xmem_pool) (n : Z) (Hp : h_pools s !! pa = Some p) (Hn : n = init_size p \/ n = grow_size p).
Context (Q : Z -> tlsf -> Prop).
Context (Q0 : forall s', wf s' B R F -> grown (used_map B) R R s s' -> h_pools s' = h_pools s -> refused (p_provider p) n -> Q 0 s').
Context (Q1 : forall r s', 0 < r -> r mod 16 = 0 -> wf s' B R F -> kept (used_map B) R s s' -> h_pools s' = h_pools s ->
  h_runs s' = <[r := n]> (h_runs s) -> h_runs s !! r = None -> R !! r = None -> (forall q, is_Some (h_pools s' !! q) -> q <> r) -> Q r s').

Lemma take_run_ok a s1 : fresh_run (h_runs s) a n -> (a = 0 -> refused (p_provider p) n) ->
  h_mem s1 = h_mem s -> h_pools s1 = h_pools s -> h_runs s1 = h_runs s -> pool_list_head s1 = pool_list_head s ->
  xenpool s1 = xenpool s -> wp tol (take_run a n) Q s1.
Proof using HW Hp Hn Q0 Q1.
  intros Hf Href Em Ep Er El Ex.
  assert (0 < n) as Hpos.
  { destruct (wf_pools _ _ _ _ HW pa p Hp) as [_ _ [_ V3] [_ V4] _ _ _]. unfold TLSF_PAGE_SIZE in *. destruct Hn as [->| ->]; lia. }
  assert (forall s', h_mem s' = h_mem s -> h_pools s' = h_pools s -> pool_list_head s' = pool_list_head s ->
    xenpool s' = xenpool s -> kept (used_map B) R s s') as Hg.
  { intros s' E1 E2 E4 E5. split; try done; [intros; by rewrite E1|by rewrite E2]. }
  unfold take_run. apply wp_bind. destruct (Z.eqb_spec a 0) as [->|Hne].
  - apply wp_ret. apply wp_ret. apply Q0; [|apply grown_kept; [by apply Hg|done]|done|auto].
    apply (wf_runs_more s); [done..|by rewrite Er|rewrite Er; apply (wf_runs _ _ _ _ HW)].
  - destruct (runs_ok_insert _ a n (wf_runs _ _ _ _ HW) Hne Hpos Hf) as [Hnone Hro].
    destruct Hf as [?|(F1 & F2 & F3 & F4)]; [done|].
    apply wp_modify. apply wp_ret. apply Q1; try done.
    + unfold TLSF_PAGE_SIZE in *. lia.
    + apply (wf_runs_more s); try done; cbn; rewrite Er; [by apply insert_subseteq|done].
    + by apply Hg.
    + cbn. by rewrite Er.
    + destruct (R !! a) as [[q m]|] eqn:E; [|done]. apply (wf_regs _ _ _ _ HW) in E as [E _]. congruence.
    + intros q [p' Hq] ->. cbn in Hq. rewrite Ep in Hq. destruct (pw_own _ _ _ _ _ (wf_pools _ _ _ _ HW a p' Hq)) as [[m Hm] _]. congruence.
Qed.

Lemma wp_get_mem : wp tol (get_mem env (p_provider p) n) Q s.
Proof using All.
  destruct (wf_pools _ _ _ _ HW pa p Hp) as [_ _ V3 V4 _ V6 _].
  assert (0 < n) as Hpos by (destruct V3 as [_ V3], V4 as [_ V4]; unfold TLSF_PAGE_SIZE in *; destruct Hn as [->| ->]; lia).
  assert (p_provider p = XmallocPool \/ exists k, p_provider p = UserPool k) as [Ep|[k Ep]]
    by (clear; destruct (p_provider p); eauto); unfold get_mem; rewrite Ep.
  - assert (n = TLSF_PAGE_SIZE) as En by (destruct (V6 Ep); destruct Hn; congruence).
    unfold xmalloc_pool_get. rewrite En, Z.eqb_refl. cbn [negb]. unfold alloc_xenheap_pages, tick. wp_steps.
    change (TLSF_PAGE_SIZE * 2 ^ 0) with TLSF_PAGE_SIZE. rewrite <- En. apply take_run_ok; try done.
    + rewrite En. by apply (eo_pages _ HE).
    + intros E. rewrite Ep. by eexists _, _.
  - unfold tick. wp_steps. apply take_run_ok; try done.
    + by apply (eo_user _ HE).
    + intros E. rewrite Ep. by eexists _, _.
Qed.
End GetMem.

(** * Finding a block *)

(** A block of the pool that is big enough heads its list. *)
Definition fits (B : gmap Z blk) (F : lists) (pa b size fl sl : Z) : Prop :=
  exists l y, F pa fl sl = b :: l /\ B !! b = Some y /\ size <= k_size y.

Lemma wp_search s B R F pa p size (Q : Z * Z * Z -> tlsf -> Prop) : wf s B R F -> h_pools s !! pa = Some p ->
  boundary size -> 16 <= size < 2 ^ 30 ->
  (forall b fl sl, b <> 0 -> fits B F pa b size fl sl -> Q (b, fl, sl) s) ->
  (forall fl sl, (forall x y, B !! x = Some y -> k_free y = true -> k_pool y = pa -> k_size y < size) -> Q (0, fl, sl) s) ->
  wp tol (FIND_SUITABLE_BLOCK pa (MAPPING_INSERT size).1 (MAPPING_INSERT size).2) Q s.
Proof using Type.
  intros HW Hp Hb Hsz Q1 Q0. pose proof (lo_index _ _ (wf_lists _ _ _ _ HW) pa p Hp) as Hidx.
  eapply wp_find; [exact Hp|exact Hidx|apply insert_range; lia|]. intros [[b fl] sl] [(Hne & Hin & Eb & Hle)|(-> & Hno)].
  - apply Q1; [done|]. destruct (F pa fl sl) as [|h l] eqn:El; [done|]. cbn in Eb. subst h.
    destruct (wf_node _ _ _ _ HW b pa fl sl) as (y & Hy & Hf & Hk & Hm & Hs); [rewrite El; by left|].
    exists l, y. split_and!; try done. apply boundary_fits; [done|lia|]. rewrite Hm. by destruct (MAPPING_INSERT size).
  - apply Q0. intros x y Hy Hf Hk. destruct (Z.lt_ge_cases (k_size y) size) as [|Hge]; [done|]. exfalso.
    destruct (MAPPING_INSERT (k_size y)) as [i j] eqn:Em.
    assert (x ∈ F pa i j) as Hx by (apply (wf_member _ _ _ _ HW); by exists y).
    destruct (ge_align _ _ (wf_geom _ _ _ _ HW) x y Hy) as (_ & _ & Hs & _).
    pose proof (insert_mono size (k_size y) ltac:(lia)) as Hle. rewrite Em in Hle.
    pose proof (insert_range (k_size y) Hs) as Hr. rewrite Em in Hr.
    pose proof (Hno i j Hr) as H0. destruct (MAPPING_INSERT size) as [i0 j0]. specialize (H0 Hle).
    destruct (lo_node _ _ (wf_lists _ _ _ _ HW) pa i j x Hx) as (Hpos & _).
    destruct (F pa i j) as [|h l] eqn:El; [by apply not_elem_of_nil in Hx|]. cbn in H0.
    destruct (lo_node _ _ (wf_lists _ _ _ _ HW) pa i j h) as (Hpos' & _); [rewrite El; by left|]. lia.
Qed.

(** Why a pool cannot serve a request: a refusal, or its limits. *)
Definition excuse (p : xmem_pool) (size : Z) : Prop :=
  refused (p_provider p) (init_size p) \/ refused (p_provider p) (grow_size p) \/
  32 * (grow_size p - 32) < 33 * size \/ max_size p <> 0.

Lemma excuse_conf p p' size : pool_conf p' = pool_conf p -> excuse p' size -> excuse p size.
Proof using Type. unfold pool_conf, excuse. intros [= -> -> -> -> _]. done. Qed.

Section Find.
Context (s : tlsf) (B : gmap Z blk) (R : gmap Z (Z * Z)) (F : lists) (HW : wf s B R F).
Context (pa : Z) (p : xmem_pool) (Hp : h_pools s !! pa = Some p) (size : Z) (Hsz : 16 <= size < 2 ^ 29) (Hal : size mod 16 = 0).
Context (Q : option (Z * Z * Z * Z) -> tlsf -> Prop).
Context (Q0 : forall s', wf s' B R F -> grown (used_map B) R R s s' -> excuse p size -> Q None s').
Context (Q1 : forall s' B' R' F' b size' fl sl, wf s' B' R' F' -> grown (used_map B) R R' s s' -> used_map B' = used_map B ->
  fits B' F' pa b size' fl sl -> size <= size' < 2 ^ 30 -> size' mod 16 = 0 -> Q (Some (b, size', fl, sl)) s').

Lemma wp_find_block : wp tol (find_block env retries pa size) Q s.
Proof using All.
  destruct (search_spec size) as (r' & Es & H1 & H2 & H3 & Hbd); [lia|done|].
  assert (16 <= r' < 2 ^ 30) as Hr' by lia.
  destruct (wf_pools _ _ _ _ HW pa p Hp) as [_ _ _ [V4 V4'] V5 _ _]. unfold TLSF_PAGE_SIZE in *.
  unfold retries. cbn [find_block]. rewrite Es. apply wp_bind.
  eapply (wp_search s B R F pa p r'); [done|done|done|done|..].
  { intros b fl sl Hne Hfit. destruct (Z.eqb_spec b 0); [done|]. cbn [negb]. apply wp_ret.
    eapply Q1; [done|apply grown_refl|done|done|lia|done]. }
  intros fl sl Hno. cbn [negb Z.eqb]. apply wp_bind. eapply wp_pool_read; [done|].
  assert (u64 (grow_size p - 2 * BHDR_OVERHEAD) = grow_size p - 32) as Eg.
  { change (2 * BHDR_OVERHEAD) with 32. apply wrap_id. unfold urange. lia. }
  destruct (Z.ltb_spec (u64 (grow_size p - 2 * BHDR_OVERHEAD)) r') as [Hlt|Hge]; rewrite Eg in *.
  { apply wp_ret. apply Q0; [done|apply grown_refl|]. right. right. left. lia. }
  destruct (negb (max_size p =? 0) && (max_size p <? u64 (init_size p + num_regions p * grow_size p))) eqn:Emax.
  { apply wp_ret. apply Q0; [done|apply grown_refl|]. right. right. right. apply andb_true_iff in Emax as [E _].
    destruct (Z.eqb_spec (max_size p) 0); done. }
  apply wp_bind. eapply (wp_get_mem s B R F HW pa p); [done|by right|..].
  { intros s' HW' G' _ Href. cbn [Z.eqb]. apply wp_ret. apply Q0; [done|done|]. right. by left. }
  intros r s' Hr Hr16 HW' K' Epools Erun Hnr HRr Hown.
  destruct (Z.eqb_spec r 0); [lia|]. apply wp_bind.
  assert (h_runs s' !! r = Some (grow_size p)) as Hrun by (rewrite Erun; apply lookup_insert_eq).
  eapply (wp_add_region s' B R F HW' tol pa p r (grow_size p)); try done; [by rewrite Epools|by right|].
  intros s'' HW'' K'' Er''.
  assert (grown (used_map B) R (<[r := (pa, grow_size p)]> R) s s'') as G''.
  { by eapply grown_region. }
  rewrite (search_least r' Hbd) by lia.
  destruct (grown_conf _ _ _ _ _ _ _ G'' Hp) as (p'' & Hp'' & _). apply wp_bind.
  assert (r' <= grow_size p - 32) as Hfit by lia.
  assert (used_map (add_region_at B pa r (grow_size p)) = used_map B) as Eu.
  { eapply (region_used s' B R F HW' tol pa p r (grow_size p)); try done; [by rewrite Epools|by right]. }
  eapply (wp_search s'' _ _ _ pa p'' r'); [exact HW''|done|done|done|..].
  - intros b fl' sl' Hne Hf. destruct (Z.eqb_spec b 0); [done|]. cbn [negb]. apply wp_ret.
    eapply Q1; [exact HW''|done|done|done|lia|done].
  - intros fl' sl' Hno'. exfalso.
    pose proof (Hno' r (region_block pa r (grow_size p)) (lookup_insert_eq _ _ _) eq_refl eq_refl) as Hlt. cbn in Hlt. lia.
Qed.
End Find.

(** * Allocation from a pool *)

(** A write of a pool that the invariant does not see. *)
Lemma wf_pool_set s B R F pa p p' U : wf s B R F -> h_pools s !! pa = Some p -> pool_conf p' = pool_conf p ->
  fl_bitmap p' = fl_bitmap p -> sl_bitmap p' = sl_bitmap p -> matrix p' = matrix p ->
  used_size p' = used_size p -> num_regions p' = num_regions p ->
  wf (s <| h_pools := <[pa := p']> (h_pools s) |>) B R F /\ kept U R s (s <| h_pools := <[pa := p']> (h_pools s) |>).
Proof using Type.
  intros [W1 W2 W3 W4 W5 W6 W7 W8] Hp Ec E1 E2 E3 E4 E5. pose proof Ec as Ec'. unfold pool_conf in Ec'. injection Ec' as C1 C2 C3 C4 _.
  split; [|split; try done; cbn; rewrite fmap_insert, Ec; apply insert_id; by rewrite lookup_fmap, Hp].
  split; try done.
  - eapply lists_ok_frame; [done|done|done|..].
    + intros q q' Hq. cbn in Hq. apply lookup_insert_Some in Hq as [[<- <-]|[_ Hq]]; [by exists p|by exists q'].
    + intros q Hq _. cbn. destruct (decide (pa = q)) as [->|]; [by rewrite lookup_insert_eq|by rewrite lookup_insert_ne].
  - intros r q n Hr. destruct (W6 r q n Hr) as [H1 (p0 & Hp0 & Hn)]. split; [done|]. cbn.
    destruct (decide (pa = q)) as [->|]; [|by rewrite lookup_insert_ne by done; exists p0].
    rewrite lookup_insert_eq. rewrite Hp in Hp0. injection Hp0 as <-. exists p'. by rewrite C1, C3.
  - intros q q' Hq. cbn in Hq. apply lookup_insert_Some in Hq as [[<- <-]|[_ Hq]]; [|by apply W8].
    destruct (W8 pa p Hp) as [U1 U2 U3 U4 U5 U6 U7]. split; rewrite ?E4, ?E5, ?C1, ?C2, ?C3, ?C4; done.
Qed.

(** The size that is looked for. *)
Definition request (size : Z) : Z := if size <? MIN_BLOCK_SIZE then MIN_BLOCK_SIZE else ROUNDUP_SIZE size.

Lemma request_spec size : 0 <= size < 2 ^ 29 - 16 ->
  16 <= request size < 2 ^ 29 /\ request size mod 16 = 0 /\ size <= request size <= size + 16.
Proof using Type.
  intros Hs. unfold request, MIN_BLOCK_SIZE. destruct (Z.ltb_spec size 16); [split_and!; (done || lia)|].
  unfold ROUNDUP_SIZE. change (TLSF_MEM_ALIGN - 1) with (2 ^ 4 - 1). rewrite land_lnot_low by lia.
  change (size + TLSF_MEM_ALIGN - 1) with (size + 16 - 1). rewrite (wrap_id 64) by (unfold urange; lia).
  change (2 ^ 4) with 16. pose proof (Z.mod_pos_bound (size + 16 - 1) 16). split; [|split].
  - pose proof (Z.div_mod (size + 16 - 1) 16). lia.
  - pose proof (Z.div_mod (size + 16 - 1) 16 ltac:(lia)) as Hd.
    replace (size + 16 - 1 - (size + 16 - 1) mod 16) with ((size + 16 - 1) / 16 * 16) by lia. apply Z.mod_mul. lia.
  - lia.
Qed.

Section PoolAlloc.
Context (s : tlsf) (B : gmap Z blk) (R : gmap Z (Z * Z)) (F : lists) (HW : wf s B R F).
Context (pa : Z) (p : xmem_pool) (Hp : h_pools s !! pa = Some p) (size : Z) (Hsz : 0 <= size < 2 ^ 29 - 16).
Context (Q : Z -> tlsf -> Prop).
Let U := used_map B.
Context (Q0 : forall s' B' R' F', wf s' B' R' F' -> grown U R R' s s' -> used_map B' = U -> excuse p (request size) -> Q 0 s').
Context (Q1 : forall s' B' R' F' a n, wf s' B' R' F' -> grown U R R' s s' -> U !! a = None ->
  used_map B' = <[a := (pa, n)]> U -> size <= n -> 0 < a -> a mod 16 = 0 -> Q (a + 16) s').

(** From the search on. *)
Lemma wp_alloc_found s1 B1 R1 F1 p1 : wf s1 B1 R1 F1 -> grown U R R1 s s1 -> used_map B1 = U ->
  h_pools s1 !! pa = Some p1 -> pool_conf p1 = pool_conf p ->
  wp tol (found ← find_block env retries pa (request size);
          match found with
          | None => mret 0
          | Some (b, size, fl, sl) => take_block b size fl sl pa
          end) Q s1.
Proof using All.
  intros HW1 G1 EU Hp1 Ec. assert (16 <= request size < 2 ^ 29 /\ request size mod 16 = 0 /\ size <= request size) as (S1 & S2 & S3).
  { destruct (request_spec size Hsz). lia. }
  apply wp_bind. eapply (wp_find_block s1 B1 R1 F1 HW1 pa p1); [done|done|done|..].
  - intros s' HW' G' Hex. apply wp_ret. eapply Q0; [exact HW'| |done|by eapply excuse_conf].
    eapply grown_trans; [exact G1|]. by rewrite EU in G'.
  - intros s' B' R' F' b size' fl sl HW' G' EU' (l & y & El & Hy & Hle) Hs' Hm'. rewrite EU in G', EU'.
    pose proof (grown_trans _ _ _ _ _ _ _ G1 G') as G2.
    destruct (grown_conf _ _ _ _ _ _ _ G2 Hp) as (p2 & Hp2 & _).
    destruct (wf_node _ _ _ _ HW' b pa fl sl) as (y' & Hy' & Hfy & _ & _ & H16); [rewrite El; by left|].
    rewrite Hy in Hy'. injection Hy' as <-.
    destruct (ge_next _ _ (wf_geom _ _ _ _ HW') b y Hy) as (c & Hc & _); [lia|].
    destruct (ge_align _ _ (wf_geom _ _ _ _ HW') b y Hy) as (A1 & _).
    eapply (wp_take_block s' B' R' F' HW' pa fl sl b size' l y c); [done|done|lia|done|done|exact Hp2|].
    intros s'' HW'' K'' Er'' EU'' Hts. rewrite EU' in K'', EU''.
    eapply Q1; [exact HW''|eapply grown_trans; [exact G2|by apply grown_kept]| |exact EU''|lia| |done].
    + rewrite <- EU'. destruct (used_map B' !! b) as [[q m]|] eqn:E; [|done].
      apply used_lookup in E as (y' & Hy' & Hf' & _). congruence.
    + by apply (blk_pos _ _ (wf_geom _ _ _ _ HW') b y).
Qed.

Lemma wp_pool_alloc : wp tol (xmem_pool_alloc env size pa) Q s.
Proof using All.
  unfold xmem_pool_alloc. apply wp_bind. eapply wp_pool_read; [exact Hp|]. apply wp_bind.
  destruct (Z.eqb_spec (init_region p) 0) as [Hi|Hi].
  2: { apply wp_ret. cbn [negb]. eapply wp_alloc_found; [exact HW|apply grown_refl|done|exact Hp|done]. }
  apply wp_bind. eapply (wp_get_mem s B R F HW pa p); [done|by left|..].
  { intros s' HW' G' _ Href. cbn [Z.eqb]. apply wp_ret. cbn [negb]. apply wp_ret. eapply Q0; [exact HW'|exact G'|done|]. by left. }
  intros r s' Hr Hr16 HW' K' Epools Erun Hnr HRr Hown.
  destruct (Z.eqb_spec r 0); [lia|]. apply wp_bind.
  assert (h_runs s' !! r = Some (init_size p)) as Hrun by (rewrite Erun; apply lookup_insert_eq).
  eapply (wp_add_region s' B R F HW' tol pa p r (init_size p)); try done; [by rewrite Epools|by left|].
  intros s2 HW2 K2 Er2.
  assert (used_map (add_region_at B pa r (init_size p)) = U) as Eu.
  { eapply (region_used s' B R F HW' tol pa p r (init_size p)); try done; [by rewrite Epools|by left]. }
  assert (grown U R (<[r := (pa, init_size p)]> R) s s2) as G2.
  { by eapply grown_region. }
  destruct (grown_conf _ _ _ _ _ _ _ G2 Hp) as (p2 & Hp2 & Ec2). apply wp_bind.
  eapply wp_pool_write; [exact Hp2|]. apply wp_ret. cbn [negb].
  destruct (wf_pool_set s2 _ _ _ pa p2 (p2 <| init_region := r |>) U HW2 Hp2) as [HW3 K3]; [done..|].
  eapply wp_alloc_found; [exact HW3| |exact Eu|apply lookup_insert_eq|exact Ec2].
  eapply grown_trans; [exact G2|]. by apply grown_kept.
Qed.
End PoolAlloc.
End Alloc.
