(* ===== verification/TlsfFree.v ===== *)
(** Freeing a block of a pool: joining it with its free neighbours, and putting
    it on its list or giving its region back. *)
From S2P Require Import Prelude CMonad Tlsf TlsfMap TlsfList TlsfLinks TlsfInv TlsfWf TlsfAlloc.

Section Free.
Context (s : tlsf) (B : gmap Z blk) (R : gmap Z (Z * Z)) (F : lists) (HW : wf s B R F).
Let HG := wf_geom _ _ _ _ HW.
Let HR := wf_mapped _ _ _ _ HW.
Context (tol : fault -> Prop) (pa : Z) (p : xmem_pool) (Hp : h_pools s !! pa = Some p).
Context (a0 : Z) (b0 : blk) (Ha0 : B !! a0 = Some b0) (Hf0 : k_free b0 = false) (Hs0 : k_size b0 <> 0) (Hk0 : k_pool b0 = pa).
Let U := delete a0 (used_map B).
Let N := own U R.

(** The figures of the pool once the block counts as free. *)
Let P := alter (fun p => p <| used_size ::= fun u => u64 (u - (k_size b0 + BHDR_OVERHEAD)) |>) pa (pool_core <$> h_pools s).

(** In the middle of freeing: [G] is the layout with the free block [a] on no
    list; in memory the header after it, [d] at [e], does not know yet. *)
Record freeing (s1 : tlsf) (G M : gmap Z blk) (L : lists) (a : Z) (b : blk) (e : Z) (d : blk) : Prop := {
  fr_mid : mid N s s1 M L P;
  fr_geom : geom G R;
  fr_a : G !! a = Some b;
  fr_free : k_free b = true;
  fr_size : k_size b <> 0;
  fr_pool : k_pool b = pa;
  fr_end : e = a + 16 + k_size b;
  fr_e : G !! e = Some (d <| k_prev := a |> <| k_pfree := true |>);
  fr_mem : forall x y, x <> e -> G !! x = Some y -> M !! x = Some y;
  fr_stale : M !! e = Some d;
  fr_lists : forall x q i j, x ∈ L q i j <-> exists y, G !! x = Some y /\ x <> a /\ k_free y = true /\
    k_pool y = q /\ MAPPING_INSERT (k_size y) = (i, j);
  fr_coal : forall x y, G !! x = Some y -> k_free y = true -> k_pfree y = true -> x = a \/ x = e;
  fr_used : used_map G = U;
  fr_sum : forall q, msum (wt q) G = msum (wt q) B - (if decide (q = pa) then 16 + k_size b0 else 0);
}.

(** What is promised of a state in which [a0] has been freed. *)
Definition freed (s' : tlsf) : Prop := exists B' R' F', wf s' B' R' F' /\ kept U R s s' /\ used_map B' = U /\
  R' ⊆ R /\ h_runs s' ⊆ h_runs s /\ (forall x, R !! x = None -> h_runs s' !! x = h_runs s !! x) /\
  forall x, is_Some (h_runs s' !! x) -> R' !! x = R !! x.

Section Mid.
Context (s1 : tlsf) (G M : gmap Z blk) (L : lists) (a : Z) (b : blk) (e : Z) (d : blk) (HF : freeing s1 G M L a b e d).
Let HM := fr_mid _ _ _ _ _ _ _ _ HF.
Let HG1 := fr_geom _ _ _ _ _ _ _ _ HF.

Lemma fr_u : U ⊆ used_map G.
Proof using HF. by rewrite (fr_used _ _ _ _ _ _ _ _ HF). Qed.

Lemma fr_hdr x y : G !! x = Some y -> mapped s x = true /\ mapped s (x + 8) = true /\ N x /\ N (x + 8).
Proof using HF HR.
  intros Hx. destruct (blk_mapped s G R HG1 HR x y Hx). destruct (own_hdr G R U HG1 fr_u x y Hx). done.
Qed.

Lemma fr_order : a <> e /\ 16 <= k_size b /\ M !! a = Some b /\ 0 < a /\ a mod 16 = 0 /\ k_size b mod 16 = 0 /\
  0 <= k_size b < 2 ^ 30.
Proof using HF.
  pose proof (fr_a _ _ _ _ _ _ _ _ HF) as Ha. pose proof (blk_size _ _ HG1 a b Ha (fr_size _ _ _ _ _ _ _ _ HF)).
  pose proof (fr_end _ _ _ _ _ _ _ _ HF). destruct (ge_align _ _ HG1 a b Ha) as (A1 & A2 & A3 & _).
  assert (a <> e) by lia. split_and!; try done; try lia; [by apply (fr_mem _ _ _ _ _ _ _ _ HF)|by apply (blk_pos _ _ HG1 a b)].
Qed.

(** The lists have free blocks other than [a]. *)
Lemma fr_node q i j x : x ∈ L q i j -> exists y, G !! x = Some y /\ x <> a /\ k_free y = true /\ k_pool y = q /\
  MAPPING_INSERT (k_size y) = (i, j) /\ 16 <= k_size y.
Proof using HF.
  intros Hx. apply (fr_lists _ _ _ _ _ _ _ _ HF) in Hx as (y & Hy & H1 & H2 & H3 & H4). exists y. split_and!; try done.
  by apply (free_size G R HG1 x).
Qed.

Lemma fr_link y : link_of L y -> N y.
Proof using HF.
  intros (q & i & j & x & Hx & Hy). destruct (fr_node q i j x Hx) as (z & Hz & _ & Hf & _).
  destruct (own_links G R U HG1 fr_u x z Hz Hf). by destruct Hy as [->| ->].
Qed.

Lemma fr_word_size x y : G !! x = Some y -> Z.land (b_word y) BLOCK_SIZE_MASK = k_size y.
Proof using HF. intros Hx. destruct (ge_align _ _ HG1 x y Hx) as (_ & Hm & Hs & _). apply word_size; [done|lia]. Qed.

Lemma fr_next_addr x y n : G !! x = Some y -> 0 <= n <= k_size y -> GET_NEXT_BLOCK x n = x + 16 + n.
Proof using HF HW.
  intros Hx Hn. destruct (ge_reg _ _ HG1 x y Hx) as (m & Hm & H1 & H2 & _). pose proof (blk_pos _ _ HG1 x y Hx).
  apply HR in Hm. destruct (ro_range _ (wf_runs _ _ _ _ HW) _ _ Hm).
  unfold GET_NEXT_BLOCK. change BHDR_OVERHEAD with 16. apply wrap_id. unfold urange. lia.
Qed.

(** The pool is there, and has a row for every list. *)
Lemma fr_pool_at : exists q, h_pools s1 !! pa = Some q /\ (forall fl sl, in_range fl sl -> exists w, sl_bitmap q !! Z.to_nat fl = Some w).
Proof using HF Hp.
  destruct (mid_pool _ _ _ _ _ _ pa (pool_core p <| used_size ::= fun u => u64 (u - (k_size b0 + BHDR_OVERHEAD)) |>) HM) as (q & Hq & _).
  { unfold P. by rewrite lookup_alter_eq, lookup_fmap, Hp. }
  exists q. split; [done|]. intros fl sl Hin. eapply index_word; [|exact Hin].
  by apply (lo_index _ _ (md_lists _ _ _ _ _ _ HM) pa).
Qed.

(** The facts about the next block. *)
Lemma fr_next : k_pool d = pa /\ k_size d mod 16 = 0 /\ 0 <= k_size d < 2 ^ 30 /\ e mod 16 = 0.
Proof using HF.
  destruct (ge_next _ _ HG1 a b (fr_a _ _ _ _ _ _ _ _ HF) (fr_size _ _ _ _ _ _ _ _ HF)) as (c & Hc & _ & _ & _ & Hk).
  rewrite <- (fr_end _ _ _ _ _ _ _ _ HF), (fr_e _ _ _ _ _ _ _ _ HF) in Hc. injection Hc as <-.
  destruct (ge_align _ _ HG1 e _ (fr_e _ _ _ _ _ _ _ _ HF)) as (A1 & A2 & A3 & _). cbn in *.
  rewrite (fr_pool _ _ _ _ _ _ _ _ HF) in Hk. done.
Qed.

(** Two free blocks of the pool that follow each other become one. *)
Section Joining.
Context (x : Z) (y z f : blk) (Hx : G !! x = Some y) (Hfy : k_free y = true) (Hy0 : k_size y <> 0) (Hky : k_pool y = pa).
Let n := x + 16 + k_size y.
Context (Hz : G !! n = Some z) (Hfz : k_free z = true) (Hz0 : k_size z <> 0).
Let g := n + 16 + k_size z.
Context (Hf : G !! g = Some f).

Lemma joining_used : used_map (join_at G x y z f) = U.
Proof using HF Hx Hfy Hy0 Hz Hfz Hz0 Hf.
  destruct (join_order _ _ HG1 x y z Hx Hy0 Hz Hz0) as (_ & _ & _ & O1 & O2 & _). fold n g in O1, O2.
  unfold join_at. fold n g. rewrite used_insert_free by (unfold used_of; cbn; by rewrite Hfy).
  rewrite (used_insert_same _ g f); [|by rewrite lookup_delete_ne by lia|done].
  rewrite (used_delete_free _ n z) by (done || unfold used_of; by rewrite Hfz).
  rewrite (fr_used _ _ _ _ _ _ _ _ HF). apply delete_id.
  rewrite <- (fr_used _ _ _ _ _ _ _ _ HF). unfold used_map. rewrite lookup_omap, Hx. cbn. unfold used_of. by rewrite Hfy.
Qed.

Lemma joining_sum q : msum (wt q) (join_at G x y z f) = msum (wt q) G.
Proof using HF Hx Hfy Hy0 Hz Hfz Hz0 Hf.
  destruct (join_order _ _ HG1 x y z Hx Hy0 Hz Hz0) as (_ & _ & _ & O1 & O2 & _). fold n g in O1, O2.
  assert (forall c, k_free c = true -> wt q c = 0) as Hw.
  { intros c E. unfold wt. rewrite decide_False; [done|]. intros [_ E']. congruence. }
  unfold join_at. fold n g.
  rewrite (msum_update _ _ x y), (msum_update _ _ g f), (msum_delete _ _ n z);
    [|done|by rewrite lookup_delete_ne by lia|by rewrite lookup_insert_ne, lookup_delete_ne by lia].
  rewrite (Hw z), (Hw y), (Hw (joined y z)) by done. change (wt q (f <| k_prev := x |> <| k_pfree := k_free y |>)) with (wt q f). lia.
Qed.
End Joining.

Lemma wp_merge_next (Q : unit -> tlsf -> Prop) :
  (forall s' G' M' L' b' e' d', freeing s' G' M' L' a b' e' d' -> k_free d' = false -> k_pfree b' = k_pfree b -> Q tt s') ->
  wp tol (merge_next a pa) Q s1.
Proof using All.
  intros HQ. destruct fr_order as (Hae & Hb16 & HMa & Hpos & Ha16 & Hbm & Hbr). destruct fr_next as (Hkd & Hdm & Hdr & He16).
  pose proof (fr_a _ _ _ _ _ _ _ _ HF) as Ga. pose proof (fr_e _ _ _ _ _ _ _ _ HF) as Ge. pose proof (fr_end _ _ _ _ _ _ _ _ HF) as Ee.
  set (d1 := d <| k_prev := a |> <| k_pfree := true |>) in *.
  destruct (fr_hdr a b Ga) as (Ma & Ma8 & Na & Na8). destruct (fr_hdr e d1 Ge) as (Me & Me8 & Ne & Ne8).
  unfold merge_next. apply wp_bind. eapply (wp_mid_size tol N s s1 M L P HM a b); [done|done|].
  rewrite (fr_word_size a b Ga), (fr_next_addr a b (k_size b) Ga) by lia. rewrite <- Ee. apply wp_bind.
  eapply (wp_mid_size tol N s s1 M L P HM e d); [apply (fr_stale _ _ _ _ _ _ _ _ HF)|done|].
  unfold b_word at 1. rewrite word_free by done. destruct (k_free d) eqn:Efd; cbn [Z.b2z Z.eqb negb].
  2: { apply wp_ret. by eapply HQ. }
  assert (k_size d <> 0) as Hd0.
  { intros E. destruct (ge_align _ _ HG1 e d1 Ge) as (_ & _ & _ & Hz). cbn in Hz. rewrite Efd in Hz. by specialize (Hz E). }
  assert (Z.land (b_word d) BLOCK_SIZE_MASK = k_size d) as Ewd by (apply word_size; [done|lia]). rewrite Ewd.
  destruct (MAPPING_INSERT (k_size d)) as [i j] eqn:Em.
  assert (e ∈ L pa i j) as HeL by (apply (fr_lists _ _ _ _ _ _ _ _ HF); exists d1; by split_and!).
  destruct (list_elem_of_split _ _ HeL) as (l1 & l2 & El).
  destruct fr_pool_at as (q & Hq & Hrow). destruct (lo_pool _ _ (md_lists _ _ _ _ _ _ HM) _ _ _ _ HeL) as [_ Hij].
  destruct (Hrow i j Hij) as [w Hw]. apply wp_bind.
  eapply (wp_extract s1 L pa i j e l1 l2 (md_lists _ _ _ _ _ _ HM) El q w Hq Hw). intros s2 Hl2 Hf2 _ _.
  pose proof (mid_extract N s s1 M L P HM e l1 l2 pa i j s2 El fr_link Hl2 Hf2) as HM2.
  apply wp_bind. eapply (wp_mid_size tol N s s2 M _ P HM2 e d); [apply (fr_stale _ _ _ _ _ _ _ _ HF)|done|]. rewrite Ewd.
  apply wp_bind. eapply (wp_mid_size tol N s s2 M _ P HM2 a b); [done|done|].
  destruct (ge_next _ _ HG1 e d1 Ge Hd0) as (f & Hf & Hfp & Hff & Hfr & Hfk). cbn in Hf, Hff. rewrite Efd in Hff.
  set (g := e + 16 + k_size d) in *.
  pose proof (fr_size _ _ _ _ _ _ _ _ HF) as Hb0.
  assert (G !! (a + 16 + k_size b) = Some d1) as Ge' by (by rewrite <- Ee).
  assert (G !! (a + 16 + k_size b + 16 + k_size d1) = Some f) as Hf' by (by rewrite <- Ee).
  destruct (join_order _ _ HG1 a b d1 Ga Hb0 Ge' Hd0) as (_ & _ & _ & O1 & O2 & _). rewrite <- Ee in O1, O2. cbn in O2. fold g in O2.
  assert (k_size b + 16 + k_size d < 2 ^ 30) as Hfit.
  { destruct (ge_align _ _ (join_geom _ _ HG1 a b d1 f Ga Hb0 Ge' Hd0 Hf') a (joined b d1)) as (_ & _ & Hj & _).
    - apply join_a.
    - cbn in Hj. lia. }
  eapply (wp_mid_store_size tol N s s2 M _ P HM2 a b (joined b d1)); [done|done|done|done|..].
  { unfold b_word. cbn. apply word_add; (done || lia). }
  intros s3 HM3.
  assert (k_free f = false) as Hfnot.
  { destruct (k_free f) eqn:E; [|done]. destruct (fr_coal _ _ _ _ _ _ _ _ HF g f Hf E Hff); lia. }
  apply (HQ s3 (join_at G a b d1 f) (<[a := joined b d1]> M) (set_list L pa i j (l1 ++ l2)) (joined b d1) g f); [|done|done].
  split.
  - exact HM3.
  - by apply join_geom.
  - apply join_a.
  - apply (fr_free _ _ _ _ _ _ _ _ HF).
  - cbn. lia.
  - apply (fr_pool _ _ _ _ _ _ _ _ HF).
  - cbn. subst g. lia.
  - replace g with (a + 16 + k_size b + 16 + k_size d1) by (cbn; lia). rewrite (join_e _ _ HG1) by done.
    by rewrite (fr_free _ _ _ _ _ _ _ _ HF).
  - intros x y Hxg Hx. apply join_lookup in Hx as [[-> ->]|[[-> ->]|(H1 & H2 & H3 & Hx)]].
    + apply lookup_insert_eq.
    + exfalso. apply Hxg. cbn. lia.
    + rewrite lookup_insert_ne by done. apply (fr_mem _ _ _ _ _ _ _ _ HF); [by rewrite Ee|done].
  - rewrite lookup_insert_ne by lia. apply (fr_mem _ _ _ _ _ _ _ _ HF); [lia|done].
  - intros x q' i' j'. rewrite (in_removed s1 L pa i j l1 e l2) by (done || apply (md_lists _ _ _ _ _ _ HM)).
    rewrite (fr_lists _ _ _ _ _ _ _ _ HF x q' i' j'). split.
    + intros [Hxe (y & Hy & Hxa & Hfy & Hky & Hmy)]. exists y. split_and!; try done.
      destruct (decide (x = g)) as [->|Hxg]; [congruence|].
      rewrite join_other; [done|done|cbn; lia|by rewrite <- Ee].
    + intros (y & Hy & Hxa & Hfy & Hky & Hmy). apply join_lookup in Hy as [[-> ->]|[[-> ->]|(H1 & H2 & H3 & Hy)]]; [done| |].
      * cbn in Hfy. congruence.
      * rewrite <- Ee in H3. split; [done|]. by exists y.
  - intros x y Hx Hfy Hpy. apply join_lookup in Hx as [[-> ->]|[[-> ->]|(H1 & H2 & H3 & Hx)]].
    + by left.
    + right. cbn. lia.
    + destruct (fr_coal _ _ _ _ _ _ _ _ HF x y Hx Hfy Hpy); [done|]. rewrite <- Ee in H3. done.
  - apply joining_used; try done. apply (fr_free _ _ _ _ _ _ _ _ HF).
  - intros q'. rewrite joining_sum; try done; [apply (fr_sum _ _ _ _ _ _ _ _ HF)|apply (fr_free _ _ _ _ _ _ _ _ HF)].
Qed.

Lemma wp_merge_prev (Q : Z -> tlsf -> Prop) : k_free d = false ->
  (forall s' G' M' L' a' b' e' d', freeing s' G' M' L' a' b' e' d' -> k_free d' = false -> k_pfree b' = false -> Q a' s') ->
  wp tol (merge_prev a pa) Q s1.
Proof using All.
  intros Hfd HQ. destruct fr_order as (Hae & Hb16 & HMa & Hpos & Ha16 & Hbm & Hbr). destruct fr_next as (Hkd & Hdm & Hdr & He16).
  pose proof (fr_a _ _ _ _ _ _ _ _ HF) as Ga. pose proof (fr_e _ _ _ _ _ _ _ _ HF) as Ge. pose proof (fr_end _ _ _ _ _ _ _ _ HF) as Ee.
  set (d1 := d <| k_prev := a |> <| k_pfree := true |>) in *.
  destruct (fr_hdr a b Ga) as (Ma & Ma8 & Na & Na8).
  unfold merge_prev. apply wp_bind. eapply (wp_mid_size tol N s s1 M L P HM a b); [done|done|].
  unfold b_word at 1. rewrite word_pfree by done. destruct (k_pfree b) eqn:Epb; cbn [Z.b2z Z.eqb Z.mul negb].
  2: { apply wp_ret. by eapply HQ. }
  assert (k_prev b <> 0) as Hp0 by (intros E; rewrite (ge_first _ _ HG1 a b Ga E) in Epb; done).
  destruct (ge_prev _ _ HG1 a b Ga Hp0) as (y & Hy & Eya & Hy0). set (w := k_prev b) in *.
  destruct (ge_next _ _ HG1 w y Hy Hy0) as (b' & Hb' & Hbp & Hbf & Hbr' & Hbk). rewrite Eya, Ga in Hb'. injection Hb' as <-.
  rewrite Epb in Hbf. symmetry in Hbf. rewrite (fr_pool _ _ _ _ _ _ _ _ HF) in Hbk. symmetry in Hbk.
  destruct (ge_align _ _ HG1 w y Hy) as (W16 & Wm & Wr & _). pose proof (blk_size _ _ HG1 w y Hy Hy0) as Ws.
  assert (w <> e /\ w <> a) as [Hwe Hwa] by lia.
  assert (M !! w = Some y) as HMw by (by apply (fr_mem _ _ _ _ _ _ _ _ HF)).
  destruct (fr_hdr w y Hy) as (Mw & Mw8 & Nw & Nw8).
  assert (Z.land (b_word y) BLOCK_SIZE_MASK = k_size y) as Ewy by (apply word_size; [done|lia]).
  apply wp_bind. eapply (wp_mid_prev tol N s s1 M L P HM a b); [done|done|]. fold w. apply wp_bind.
  eapply (wp_mid_size tol N s s1 M L P HM w y); [done|done|]. rewrite Ewy.
  destruct (MAPPING_INSERT (k_size y)) as [i j] eqn:Em. apply wp_bind.
  assert (w ∈ L pa i j) as HwL by (apply (fr_lists _ _ _ _ _ _ _ _ HF); exists y; by split_and!).
  destruct (list_elem_of_split _ _ HwL) as (l1 & l2 & El).
  destruct fr_pool_at as (q & Hq & Hrow). destruct (lo_pool _ _ (md_lists _ _ _ _ _ _ HM) _ _ _ _ HwL) as [_ Hij].
  destruct (Hrow i j Hij) as [v Hv].
  eapply (wp_extract s1 L pa i j w l1 l2 (md_lists _ _ _ _ _ _ HM) El q v Hq Hv). intros s2 Hl2 Hf2 _ _.
  pose proof (mid_extract N s s1 M L P HM w l1 l2 pa i j s2 El fr_link Hl2 Hf2) as HM2.
  apply wp_bind. eapply (wp_mid_size tol N s s2 M _ P HM2 w y); [done|done|].
  apply wp_bind. eapply (wp_mid_size tol N s s2 M _ P HM2 a b); [done|done|]. rewrite (fr_word_size a b Ga).
  pose proof (fr_size _ _ _ _ _ _ _ _ HF) as Hb0.
  assert (G !! (w + 16 + k_size y) = Some b) as Ga' by (by rewrite Eya).
  assert (G !! (w + 16 + k_size y + 16 + k_size b) = Some d1) as Ge' by (by rewrite Eya, <- Ee).
  assert (k_size y + 16 + k_size b < 2 ^ 30) as Hfit.
  { destruct (ge_align _ _ (join_geom _ _ HG1 w y b d1 Hy Hy0 Ga' Hb0 Ge') w (joined y b)) as (_ & _ & Hj & _).
    - apply join_a.
    - cbn in Hj. lia. }
  apply wp_bind.
  eapply (wp_mid_store_size tol N s s2 M _ P HM2 w y (joined y b)); [done|done|done|done|..].
  { unfold b_word. cbn. apply word_add; (done || lia). }
  intros s3 HM3. apply wp_ret.
  assert (k_pfree y = false) as Hpy.
  { destruct (k_pfree y) eqn:E; [|done]. destruct (fr_coal _ _ _ _ _ _ _ _ HF w y Hy Hbf E); done. }
  apply (HQ s3 (join_at G w y b d1) (<[w := joined y b]> M) (set_list L pa i j (l1 ++ l2)) w (joined y b) e d); [|done|done].
  assert (w + 16 + k_size y + 16 + k_size b = e) as Eend by lia.
  split.
  - exact HM3.
  - by apply join_geom.
  - apply join_a.
  - done.
  - cbn. lia.
  - done.
  - cbn. lia.
  - rewrite <- Eend. rewrite (join_e _ _ HG1) by done. by rewrite Hbf.
  - intros x z Hxe Hx. apply join_lookup in Hx as [[-> ->]|[[-> ->]|(H1 & H2 & H3 & Hx)]].
    + apply lookup_insert_eq.
    + done.
    + rewrite lookup_insert_ne by done. by apply (fr_mem _ _ _ _ _ _ _ _ HF).
  - rewrite lookup_insert_ne by done. apply (fr_stale _ _ _ _ _ _ _ _ HF).
  - intros x q' i' j'. rewrite (in_removed s1 L pa i j l1 w l2) by (done || apply (md_lists _ _ _ _ _ _ HM)).
    rewrite (fr_lists _ _ _ _ _ _ _ _ HF x q' i' j'). split.
    + intros [Hxw (z & Hz & Hxa & Hfz & Hkz & Hmz)]. exists z. split_and!; try done.
      destruct (decide (x = e)) as [->|Hxe]; [rewrite Ge in Hz; injection Hz as <-; cbn in Hfz; congruence|].
      by rewrite join_other by (done || by rewrite ?Eend, ?Eya).
    + intros (z & Hz & Hxw & Hfz & Hkz & Hmz). apply join_lookup in Hz as [[-> ->]|[[-> ->]|(H1 & H2 & H3 & Hz)]]; [done| |].
      * cbn in Hfz. congruence.
      * rewrite Eya in H3. split; [done|]. by exists z.
  - intros x z Hx Hfz Hpz. apply join_lookup in Hx as [[-> ->]|[[-> ->]|(H1 & H2 & H3 & Hx)]].
    + by left.
    + by right.
    + destruct (fr_coal _ _ _ _ _ _ _ _ HF x z Hx Hfz Hpz); [|by right]. rewrite Eya in H3. done.
  - apply joining_used; try done. apply (fr_free _ _ _ _ _ _ _ _ HF).
  - intros q'. rewrite joining_sum; try done; [apply (fr_sum _ _ _ _ _ _ _ _ HF)|apply (fr_free _ _ _ _ _ _ _ _ HF)].
Qed.
(** * The end of freeing *)

Context (Hfd : k_free d = false) (Hpb : k_pfree b = false).

Let g := fun p : xmem_pool => p <| used_size ::= fun u => u64 (u - (k_size b0 + BHDR_OVERHEAD)) |>.

Lemma fr_coalesced x y : G !! x = Some y -> k_free y = true -> k_pfree y = false.
Proof using HF Hfd Hpb.
  intros Hx Hfy. destruct (k_pfree y) eqn:E; [|done]. destruct (fr_coal _ _ _ _ _ _ _ _ HF x y Hx Hfy E) as [->| ->].
  - rewrite (fr_a _ _ _ _ _ _ _ _ HF) in Hx. injection Hx as <-. congruence.
  - rewrite (fr_e _ _ _ _ _ _ _ _ HF) in Hx. injection Hx as <-. cbn in Hfy. congruence.
Qed.

Lemma fr_pools q p1 : P !! q = Some p1 -> used_size p1 = u64 (msum (wt q) G) /\ num_regions p1 = u64 (msum (rt q) R) /\
  exists p0, h_pools s !! q = Some p0 /\ pool_conf p1 = pool_conf p0.
Proof using HF HW.
  intros Hq. apply core_alter_lookup in Hq as (p0 & Hp0 & ->). destruct (wf_pools _ _ _ _ HW q p0 Hp0) as [U1 U2 _ _ _ _ _].
  rewrite (fr_sum _ _ _ _ _ _ _ _ HF). destruct (decide (q = pa)) as [->|Hne].
  - cbn. rewrite U1, U2, wrap_sub_l. split_and!; [|done|by exists p0]. f_equal. change BHDR_OVERHEAD with 16. lia.
  - cbn. rewrite U1, U2, Z.sub_0_r. split_and!; [done..|]. by exists p0.
Qed.

(** The block goes on its list. *)
Lemma wp_settle_insert (Q : unit -> tlsf -> Prop) s2 : (forall s', freed s' -> Q tt s') ->
  mid N s s2 (<[e := d <| k_prev := a |>]> G) L P ->
  wp tol (let '(fl, sl) := MAPPING_INSERT (k_size b) in
          INSERT_BLOCK a pa fl sl;;
          tsize ← load (f_size e);
          store (f_size e) (Z.lor tsize PREV_FREE);;
          store (f_prev_hdr e) a) Q s2.
Proof using All.
  intros HQ HM2. destruct fr_order as (Hae & Hb16 & HMa & Hpos & Ha16 & Hbm & Hbr). destruct fr_next as (Hkd & Hdm & Hdr & He16).
  pose proof (fr_a _ _ _ _ _ _ _ _ HF) as Ga. pose proof (fr_e _ _ _ _ _ _ _ _ HF) as Ge. pose proof (fr_end _ _ _ _ _ _ _ _ HF) as Ee.
  destruct (fr_hdr e _ Ge) as (Me & Me8 & Ne & Ne8).
  destruct (MAPPING_INSERT (k_size b)) as [i j] eqn:Em. pose proof (insert_range (k_size b) Hbr) as Hir. rewrite Em in Hir.
  destruct (mid_pool _ _ _ _ _ _ pa (g (pool_core p)) HM2) as (q & Hq & _).
  { unfold P. by rewrite lookup_alter_eq, lookup_fmap, Hp. }
  destruct (own_links G R U HG1 fr_u a b Ga (fr_free _ _ _ _ _ _ _ _ HF)) as [Na1 Na2].
  destruct (link_mapped s G R HG1 HR a b Ga (fr_size _ _ _ _ _ _ _ _ HF)) as [Ma1 Ma2].
  assert (forall s', mid N s s' G (set_list L pa i j (a :: L pa i j)) P -> Q tt s') as Hend.
  { intros s' HM'. apply HQ. exists G, R, (set_list L pa i j (a :: L pa i j)).
    assert (pool_conf <$> P = pool_conf <$> h_pools s) as Hconf by (unfold P; rewrite conf_alter by done; apply conf_core).
    split_and!; [|by eapply mid_kept|apply (fr_used _ _ _ _ _ _ _ _ HF)|done|by rewrite (md_runs _ _ _ _ _ _ HM')|
      by intros; rewrite (md_runs _ _ _ _ _ _ HM')|done].
    eapply mid_wf; [apply (wf_runs _ _ _ _ HW)|exact HM'|exact HG1|..|exact Hconf].
    - intros x q' i' j'. rewrite in_inserted, (fr_lists _ _ _ _ _ _ _ _ HF x q' i' j'). split.
      + intros [[-> [= -> -> ->]]|(y & Hy & _ & H)]; [|by exists y]. exists b. split_and!; try done.
        * apply (fr_free _ _ _ _ _ _ _ _ HF).
        * apply (fr_pool _ _ _ _ _ _ _ _ HF).
      + intros (y & Hy & Hfy & Hky & Hmy). destruct (decide (x = a)) as [->|Hne]; [left|right; by exists y].
        rewrite Ga in Hy. injection Hy as <-. rewrite (fr_pool _ _ _ _ _ _ _ _ HF) in Hky. split; congruence.
    - intros x y. apply fr_coalesced.
    - apply (wf_regs _ _ _ _ HW).
    - intros q' p1 Hq'. destruct (fr_pools q' p1 Hq') as (E1 & E2 & p0 & Hp0 & Ec). unfold pool_conf in Ec.
      injection Ec as C1 C2 C3 C4 _. destruct (wf_pools _ _ _ _ HW q' p0 Hp0) as [_ _ U3 U4 U5 U6 U7].
      split; rewrite ?C1, ?C2, ?C3, ?C4; done. }
  apply wp_bind. eapply (wp_mid_insert tol N s s2 _ L P HM2 a b pa q i j).
  { by rewrite lookup_insert_ne. }
  { rewrite lookup_insert_ne by lia. apply (blk_inside _ _ HG1 a b); [done|lia]. }
  { done. }
  { exact Hq. }
  { exact Hir. }
  { done. }
  { done. }
  { intros q' i' j' Hx. by destruct (fr_node q' i' j' a Hx) as (_ & _ & ? & _). }
  { done. }
  { done. }
  { exact fr_link. }
  intros s3 HM3. apply wp_bind.
  eapply (wp_mid_size tol N s s3 _ _ P HM3 e); [apply lookup_insert_eq|done|]. apply wp_bind.
  eapply (wp_mid_store_size tol N s s3 _ _ P HM3 e (d <| k_prev := a |>) (d <| k_prev := a |> <| k_pfree := true |>));
    [apply lookup_insert_eq|done|done|done|..].
  { unfold b_word. cbn. apply word_or; [done|]. rewrite Hfd. by destruct (k_pfree d). }
  intros s4 HM4. rewrite insert_insert_eq in HM4.
  eapply (wp_mid_store_prev tol N s s4 _ _ P HM4 e); [apply lookup_insert_eq|done|done|].
  intros s5 HM5. rewrite insert_insert_eq in HM5. apply Hend.
  rewrite (insert_id G e) in HM5; [done|exact Ge].
Qed.

(** The region goes back to the provider. *)
Lemma wp_put_mem s2 n (Q : unit -> tlsf -> Prop) : R !! a = Some (pa, n) -> h_runs s2 !! a = Some n ->
  Q tt (s2 <| h_runs ::= delete a |>) -> wp tol (put_mem (p_provider p) a) Q s2.
Proof using HF HW Hp.
  intros Hn Hrun HQ. destruct fr_order as (_ & _ & _ & Hpos & _).
  destruct (wf_regs _ _ _ _ HW _ _ _ Hn) as [_ (p0 & Hp0 & Hsz)]. rewrite Hp in Hp0. injection Hp0 as <-.
  assert (p_provider p = XmallocPool \/ exists k, p_provider p = UserPool k) as [Ep|[k Ep]]
    by (clear; destruct (p_provider p); eauto); unfold put_mem; rewrite Ep.
  - destruct (pw_prov _ _ _ _ _ (wf_pools _ _ _ _ HW pa p Hp) Ep) as [E1 E2].
    assert (n = TLSF_PAGE_SIZE) as En by (destruct Hsz; congruence).
    unfold xmalloc_pool_put, free_xenheap_pages. destruct (Z.eqb_spec a 0); [lia|].
    change (TLSF_PAGE_SIZE * 2 ^ 0) with TLSF_PAGE_SIZE. unfold wp, drop_run. rewrite Hrun. cbn [default from_option].
    rewrite decide_True by done. exact HQ.
  - unfold wp, drop_run. rewrite Hrun. cbn [default from_option]. rewrite decide_True by done. exact HQ.
Qed.

(** The case in which a region is given back. *)
Section Drop.
Context (Hprev : k_prev b = 0) (Hd0 : k_size d = 0).
Let G' := drop_region_at G a e.
Let R' := delete a R.
Let d1 := d <| k_prev := a |> <| k_pfree := true |>.

Lemma drop_facts : geom G' R' /\ R !! a = Some (pa, k_size b + 32).
Proof using All.
  pose proof (fr_end _ _ _ _ _ _ _ _ HF) as Ee. rewrite <- (fr_pool _ _ _ _ _ _ _ _ HF).
  pose proof (fr_e _ _ _ _ _ _ _ _ HF) as Ge. unfold G', R'. rewrite Ee. rewrite Ee in Ge.
  eapply drop_region_geom; [done|apply (fr_a _ _ _ _ _ _ _ _ HF)|done|apply (fr_size _ _ _ _ _ _ _ _ HF)|exact Ge|done].
Qed.

Lemma drop_lookup x y : G' !! x = Some y <-> x <> a /\ x <> e /\ G !! x = Some y.
Proof using All. unfold G', drop_region_at. rewrite !lookup_delete_Some. naive_solver. Qed.

Lemma drop_node q i j x : x ∈ L q i j -> exists y, G' !! x = Some y /\ k_size y <> 0.
Proof using All.
  intros Hx. destruct (fr_node q i j x Hx) as (y & Hy & Hxa & Hfy & _ & _ & Hs). exists y. split; [|lia].
  apply drop_lookup. split_and!; try done. intros ->. rewrite (fr_e _ _ _ _ _ _ _ _ HF) in Hy. injection Hy as <-. cbn in Hfy. congruence.
Qed.

Lemma drop_used : used_map G' = U.
Proof using All.
  pose proof (fr_order) as (Hae & _). unfold G', drop_region_at.
  rewrite (used_delete_free _ a b), (used_delete_free _ e d1); [apply (fr_used _ _ _ _ _ _ _ _ HF)| | | |].
  - apply (fr_e _ _ _ _ _ _ _ _ HF).
  - unfold used_of, d1. cbn. by rewrite Hfd, Hd0.
  - rewrite lookup_delete_ne by done. apply (fr_a _ _ _ _ _ _ _ _ HF).
  - unfold used_of. by rewrite (fr_free _ _ _ _ _ _ _ _ HF).
Qed.

Lemma drop_sum q : msum (wt q) G' = msum (wt q) G - (if decide (q = pa) then 16 else 0) /\
  msum (rt q) R' = msum (rt q) R - (if decide (q = pa) then 1 else 0).
Proof using All.
  pose proof (fr_order) as (Hae & _). destruct drop_facts as [_ Hr]. destruct fr_next as (Hkd & _). split.
  - unfold G', drop_region_at.
    rewrite (msum_delete _ _ a b) by (rewrite lookup_delete_ne by done; apply (fr_a _ _ _ _ _ _ _ _ HF)).
    rewrite (msum_delete _ _ e d1) by apply (fr_e _ _ _ _ _ _ _ _ HF).
    assert (wt q b = 0) as -> by (unfold wt; rewrite decide_False; [done|]; intros [_ E];
      rewrite (fr_free _ _ _ _ _ _ _ _ HF) in E; done).
    unfold wt at 2, d1. cbn. rewrite Hkd, Hfd, Hd0. repeat case_decide; naive_solver lia.
  - unfold R'. rewrite (msum_delete _ _ a _ Hr). unfold rt at 2. cbn. repeat case_decide; naive_solver lia.
Qed.

(** Without the run the rest is as it was. *)
Lemma mid_drop s2 : mid N s s2 (<[e := d <| k_prev := a |>]> M) L P ->
  mid N (s <| h_runs ::= delete a |>) (s2 <| h_runs ::= delete a |>) G' L P.
Proof using All.
  intros HM2. destruct drop_facts as [HG' Hr].
  assert (regs_mapped (s2 <| h_runs ::= delete a |>) R') as HR'.
  { intros r q n Hx. apply lookup_delete_Some in Hx as [Hne Hx]. cbn. rewrite lookup_delete_ne by done.
    rewrite (md_runs _ _ _ _ _ _ HM2). by eapply HR. }
  assert (mid N s s2 G' L P) as HM3.
  { eapply mid_weaken; [exact HM2|]. intros x y Hx. apply drop_lookup in Hx as (H1 & H2 & Hx).
    rewrite lookup_insert_ne by done. by apply (fr_mem _ _ _ _ _ _ _ _ HF). }
  destruct HM3 as [D1 D2 D3 D4 D5 D6 D7 D8 D9]. split; try done; [|cbn; by rewrite D6].
  eapply lists_ok_frame; [exact D1|done|..].
  - intros y _ (q & i & j & x & Hx & Hy). destruct (drop_node q i j x Hx) as (z & Hz & Hsz).
    destruct (link_mapped _ G' R' HG' HR' x z Hz Hsz). by destruct Hy as [->| ->].
  - intros q q' Hq. by exists q'.
  - done.
Qed.

Lemma wp_settle_drop s2 (Q : unit -> tlsf -> Prop) : (forall s', freed s' -> Q tt s') ->
  mid N s s2 (<[e := d <| k_prev := a |>]> M) L P ->
  wp tol (p ← pool_read pa;
          put_mem (p_provider p) a;;
          pool_write pa (fun p => p <| num_regions ::= fun n => u64 (n - 1) |>
                                    <| used_size ::= fun u => u64 (u - BHDR_OVERHEAD) |>)) Q s2.
Proof using All.
  intros HQ HM2. destruct drop_facts as [HG' Hr]. pose proof (mid_drop s2 HM2) as HM3.
  destruct (mid_pool _ _ _ _ _ _ pa (g (pool_core p)) HM2) as (q & Hq & Eq).
  { unfold P. by rewrite lookup_alter_eq, lookup_fmap, Hp. }
  assert (p_provider q = p_provider p) as Epv by (exact (f_equal p_provider Eq)).
  apply wp_bind. eapply wp_pool_read; [exact Hq|]. rewrite Epv. apply wp_bind. eapply wp_put_mem; [exact Hr|..].
  { rewrite (md_runs _ _ _ _ _ _ HM2). by apply (wf_regs _ _ _ _ HW) in Hr as [Hr _]. }
  eapply (wp_mid_pool tol N _ _ G' L P HM3 pa q); [exact Hq|done|]. intros s4 HM4 _.
  match type of HM4 with mid _ _ _ _ _ (alter ?f _ _) => set (k := f) in * end.
  assert (pool_conf <$> alter k pa P = pool_conf <$> h_pools s) as Hconf.
  { unfold P. rewrite !conf_alter by done. apply conf_core. }
  assert (h_runs (s <| h_runs ::= delete a |>) = delete a (h_runs s)) as Er0 by done.
  apply HQ. exists G', R', L. split_and!.
  - eapply mid_wf; [|exact HM4|exact HG'|..|exact Hconf].
    + destruct (wf_runs _ _ _ _ HW) as [X1 X2]. split.
      * intros r n Hx. rewrite Er0 in Hx. apply lookup_delete_Some in Hx as [_ Hx]. by apply X1.
      * intros r n r' n' Hx Hx'. rewrite Er0 in Hx, Hx'. apply lookup_delete_Some in Hx as [_ Hx]. apply lookup_delete_Some in Hx' as [_ Hx']. by eapply X2.
    + intros x q' i' j'. rewrite (fr_lists _ _ _ _ _ _ _ _ HF x q' i' j'). split.
      * intros (y & Hy & Hxa & Hfy & H). exists y. split; [|done]. apply drop_lookup. split_and!; try done.
        intros ->. rewrite (fr_e _ _ _ _ _ _ _ _ HF) in Hy. injection Hy as <-. cbn in Hfy. congruence.
      * intros (y & Hy & H). apply drop_lookup in Hy as (Hxa & _ & Hy). by exists y.
    + intros x y Hy. apply drop_lookup in Hy as (_ & _ & Hy). by apply (fr_coalesced x).
    + intros r q' n Hx. apply lookup_delete_Some in Hx as [Hne Hx]. destruct (wf_regs _ _ _ _ HW _ _ _ Hx) as [H1 H2].
      split; [|done]. cbn. by rewrite lookup_delete_ne.
    + intros q' p1 Hq'. assert (exists p0, P !! q' = Some p0 /\ p1 = if decide (q' = pa) then k p0 else p0) as (p0 & Hp0 & ->).
      { destruct (decide (q' = pa)) as [->|Hne].
        - rewrite lookup_alter_eq in Hq'. destruct (P !! pa) as [p0|]; [|done]. injection Hq' as <-. by exists p0.
        - rewrite lookup_alter_ne in Hq' by done. by exists p1. }
      destruct (fr_pools q' p0 Hp0) as (E1 & E2 & p2 & Hp2 & Ec). unfold pool_conf in Ec. injection Ec as C1 C2 C3 C4 _.
      destruct (wf_pools _ _ _ _ HW q' p2 Hp2) as [_ _ U3 U4 U5 U6 [[m U7] U8]]. destruct (drop_sum q') as [S1 S2].
      assert (is_Some (h_runs (s <| h_runs ::= delete a |>) !! q') /\ R' !! q' = None) as Hown.
      { split; [exists m; cbn; rewrite lookup_delete_ne; [done|]; intros <-; congruence|].
        apply lookup_delete_None. by right. }
      destruct (decide (q' = pa)) as [->|Hne]; split; cbn; rewrite ?C1, ?C2, ?C3, ?C4, ?S1, ?S2, ?E1, ?E2, ?wrap_sub_l, ?Z.sub_0_r; done.
  - eapply mid_kept in HM4; [|intros y Hy; exact Hy|exact Hconf]. by destruct HM4.
  - apply drop_used.
  - apply delete_subseteq.
  - rewrite (md_runs _ _ _ _ _ _ HM4). apply delete_subseteq.
  - intros x Hx. rewrite (md_runs _ _ _ _ _ _ HM4). cbn. apply lookup_delete_ne. intros <-. congruence.
  - intros x [m Hx]. rewrite (md_runs _ _ _ _ _ _ HM4), Er0 in Hx. apply lookup_delete_Some in Hx as [Hne _].
    by apply lookup_delete_ne.
Qed.
End Drop.

Lemma wp_settle (Q : unit -> tlsf -> Prop) : (forall s', freed s' -> Q tt s') -> wp tol (settle a pa) Q s1.
Proof using All.
  intros HQ. destruct fr_order as (Hae & Hb16 & HMa & Hpos & Ha16 & Hbm & Hbr). destruct fr_next as (Hkd & Hdm & Hdr & He16).
  pose proof (fr_a _ _ _ _ _ _ _ _ HF) as Ga. pose proof (fr_e _ _ _ _ _ _ _ _ HF) as Ge. pose proof (fr_end _ _ _ _ _ _ _ _ HF) as Ee.
  destruct (fr_hdr a b Ga) as (Ma & Ma8 & Na & Na8). destruct (fr_hdr e _ Ge) as (Me & Me8 & Ne & Ne8).
  unfold settle. apply wp_bind. eapply (wp_mid_size tol N s s1 M L P HM a b); [done|done|].
  rewrite (fr_word_size a b Ga), (fr_next_addr a b (k_size b) Ga) by lia. rewrite <- Ee. cbn zeta. apply wp_bind.
  eapply (wp_mid_store_prev tol N s s1 M L P HM e d); [apply (fr_stale _ _ _ _ _ _ _ _ HF)|done|done|].
  intros s2 HM2.
  destruct (MAPPING_INSERT (k_size b)) as [i j] eqn:Em. apply wp_bind.
  eapply (wp_mid_prev tol N s s2 _ L P HM2 a b); [by rewrite lookup_insert_ne|done|]. apply wp_bind.
  eapply (wp_mid_size tol N s s2 _ L P HM2 e); [apply lookup_insert_eq|done|].
  assert (Z.land (b_word (d <| k_prev := a |>)) BLOCK_SIZE_MASK = k_size d) as -> by (apply word_size; [done|lia]).
  destruct ((k_prev b =? 0) && (k_size d =? 0)) eqn:Ec.
  - apply andb_true_iff in Ec as [E1%Z.eqb_eq E2%Z.eqb_eq]. eapply wp_settle_drop; done.
  - pose proof (wp_settle_insert Q s2 HQ) as Hi. rewrite Em in Hi. apply Hi. eapply mid_weaken; [exact HM2|].
    intros x y Hx. apply lookup_insert_Some in Hx as [[<- <-]|[Hne Hx]]; [apply lookup_insert_eq|].
    rewrite lookup_insert_ne by done. by apply (fr_mem _ _ _ _ _ _ _ _ HF).
Qed.
End Mid.
(** * Freeing as a whole *)

Section Begin.
Context (c : blk) (Hc : B !! (a0 + 16 + k_size b0) = Some c).
Let e := a0 + 16 + k_size b0.
Let b1 := b0 <| k_free := true |>.
Let G := set_free_at B a0 b0 c true.

Lemma begin_order : 16 <= k_size b0 /\ 0 < a0 /\ a0 mod 16 = 0 /\ k_size b0 mod 16 = 0 /\ 0 <= k_size b0 < 2 ^ 30 /\
  a0 <> e /\ k_prev c = a0 /\ k_pool c = pa.
Proof using All.
  pose proof (blk_size _ _ HG a0 b0 Ha0 Hs0). destruct (ge_align _ _ HG a0 b0 Ha0) as (A1 & A2 & A3 & _).
  destruct (ge_next _ _ HG a0 b0 Ha0 Hs0) as (c' & Hc' & H1 & _ & _ & H2). rewrite Hc in Hc'. injection Hc' as <-.
  assert (a0 <> e) by (unfold e; lia). rewrite <- Hk0. split_and!; try done; try lia. by apply (blk_pos _ _ HG a0 b0).
Qed.

Lemma begin_geom : geom G R.
Proof using All. by apply set_free_geom. Qed.

Lemma begin_used : used_map G = U.
Proof using All.
  unfold G, set_free_at. rewrite used_insert_free by done. by rewrite (used_insert_same B _ c) by done.
Qed.

Lemma begin_sum q : msum (wt q) G = msum (wt q) B - (if decide (q = pa) then 16 + k_size b0 else 0).
Proof using All.
  destruct begin_order as (_ & _ & _ & _ & _ & Hae & _). fold e in Hc. unfold G, set_free_at. fold e.
  rewrite (msum_update _ _ a0 b0) by (by rewrite lookup_insert_ne). rewrite (msum_update _ B e c) by done.
  change (wt q (c <| k_pfree := true |>)) with (wt q c).
  assert (wt q (b0 <| k_free := true |>) = 0) as -> by (unfold wt; rewrite decide_False; [done|]; by intros [_ [=]]).
  assert (wt q b0 = if decide (q = pa) then 16 + k_size b0 else 0) as ->
    by (unfold wt; rewrite Hk0; repeat case_decide; naive_solver).
  repeat case_decide; lia.
Qed.

Lemma begin_freeing s1 : mid N s s1 (<[a0 := b1]> B) F P -> freeing s1 G (<[a0 := b1]> B) F a0 b1 e c.
Proof using All.
  intros HM. destruct begin_order as (_ & _ & _ & _ & _ & Hae & Hcp & _).
  assert (forall x y, G !! x = Some y -> x = a0 /\ y = b1 \/ x = e /\ y = c <| k_pfree := true |> \/
    x <> a0 /\ x <> e /\ B !! x = Some y) as Hlook by (intros x y; apply set_free_lookup).
  split; try done.
  - apply begin_geom.
  - apply lookup_insert_eq.
  - unfold G, set_free_at. fold e. rewrite lookup_insert_ne by done. rewrite lookup_insert_eq, <- Hcp. by destruct c.
  - intros x y Hx Hy. apply Hlook in Hy as [[-> ->]|[[-> _]|(H1 & H2 & Hy)]]; [apply lookup_insert_eq|done|by rewrite lookup_insert_ne].
  - by rewrite lookup_insert_ne.
  - intros x q i j. rewrite (wf_member _ _ _ _ HW x q i j). split.
    + intros (y & Hy & Hfy & H). assert (x <> a0) by (intros ->; congruence).
      destruct (decide (x = e)) as [->|Hxe].
      * fold e in Hc. rewrite Hc in Hy. injection Hy as <-. exists (c <| k_pfree := true |>). split_and!; try done; [|apply H..].
        unfold G, set_free_at. fold e. rewrite lookup_insert_ne by done. apply lookup_insert_eq.
      * exists y. split_and!; try done; [|apply H..]. unfold G, set_free_at. fold e. by rewrite !lookup_insert_ne.
    + intros (y & Hy & Hxa & Hfy & H). apply Hlook in Hy as [[-> _]|[[-> ->]|(_ & _ & Hy)]]; [done| |by exists y]. by exists c.
  - intros x y Hy Hfy Hpy. apply Hlook in Hy as [[-> _]|[[-> _]|(_ & _ & Hy)]]; [by left|by right|].
    pose proof (wf_coal _ _ _ _ HW x y Hy Hfy). congruence.
  - apply begin_used.
  - apply begin_sum.
Qed.

Lemma wp_free_begin (Q : unit -> tlsf -> Prop) : (forall s', freed s' -> Q tt s') -> wp tol (xmem_pool_free (a0 + 16) pa) Q s.
Proof using All.
  intros HQ. destruct begin_order as (H16 & Hpos & Hal & Hbm & Hbr & Hae & Hcp & Hck).
  assert (U ⊆ used_map B) as HU by apply delete_subseteq.
  destruct (blk_mapped s B R HG HR a0 b0 Ha0) as [Ma Ma8]. destruct (own_hdr B R U HG HU a0 b0 Ha0) as [Na Na8].
  destruct (link_mapped s B R HG HR a0 b0 Ha0 Hs0) as [Ml1 Ml2].
  assert (own U R (a0 + 16) /\ own U R (a0 + 24)) as [Nl1 Nl2].
  { rewrite <- begin_used. apply (own_links G R _ begin_geom) with b1; [done|apply lookup_insert_eq|done]. }
  pose proof (wf_mid _ _ _ _ HW N) as HM0. unfold xmem_pool_free. destruct (Z.eqb_spec (a0 + 16) 0); [lia|].
  change BHDR_OVERHEAD with 16. replace (a0 + 16 - 16) with a0 by lia. cbn zeta. apply wp_bind.
  eapply (wp_mid_size tol N s s B F _ HM0 a0 b0); [done|done|]. apply wp_bind.
  eapply (wp_mid_store_size tol N s s B F _ HM0 a0 b0 b1); [done|done|done|done|..].
  { unfold b_word, b1. cbn. apply word_or; [done|]. rewrite Hf0. by destruct (k_pfree b0). }
  intros s1 HM1. apply wp_bind. eapply (wp_mid_size tol N s s1 _ F _ HM1 a0 b1); [apply lookup_insert_eq|done|].
  assert (Z.land (b_word b1) BLOCK_SIZE_MASK = k_size b0) as -> by (apply word_size; [done|cbn; lia]).
  destruct (mid_pool _ _ _ _ _ _ pa (pool_core p) HM1) as (q & Hq & _); [by rewrite lookup_fmap, Hp|].
  apply wp_bind. eapply (wp_mid_pool tol N s s1 _ F _ HM1 pa q); [exact Hq|done|]. intros s2 HM2 _.
  change 16 with BHDR_OVERHEAD in HM2. fold P in HM2.
  assert (B !! (a0 + 16) = None) as Hn by (apply (blk_inside _ _ HG a0 b0); [done|lia]).
  assert (forall q' i j, a0 ∉ F q' i j) as Hno.
  { intros q' i j Hx. apply (wf_member _ _ _ _ HW) in Hx as (y & Hy & Hfy & _). congruence. }
  assert (<[a0 := b1]> B !! (a0 + 16) = None) as Hn1 by (by rewrite lookup_insert_ne by lia).
  apply wp_bind. unfold f_free_prev, f_free_next.
  eapply (wp_mid_store_link tol N s s2 _ F P HM2 a0); [done|by left|done|done|done|done|]. intros s3 HM3. apply wp_bind.
  eapply (wp_mid_store_link tol N s s3 _ F P HM3 a0); [done|by right|done|done|done|done|]. intros s4 HM4. apply wp_bind.
  pose proof (begin_freeing s4 HM4) as HF4.
  eapply (wp_merge_next s4 _ _ _ _ _ _ _ HF4). intros s5 G5 M5 L5 b5 e5 d5 HF5 Hd5 Hb5. apply wp_bind.
  eapply wp_merge_prev; [exact HF5|exact Hd5|]. intros s6 G6 M6 L6 a6 b6 e6 d6 HF6 Hd6 Hb6.
  eapply wp_settle; [exact HF6|exact Hd6|exact Hb6|exact HQ].
Qed.
End Begin.

Lemma wp_pool_free (Q : unit -> tlsf -> Prop) : (forall s', freed s' -> Q tt s') -> wp tol (xmem_pool_free (a0 + 16) pa) Q s.
Proof using All.
  intros HQ. destruct (ge_next _ _ HG a0 b0 Ha0 Hs0) as (c & Hc & _). by eapply wp_free_begin.
Qed.
End Free.
