(* ===== verification/TlsfHeap.v ===== *)
(** The objects of [_xmalloc]: where they lie, what the heap keeps of them,
    that writes to live objects keep it, and how a block of the pool or pages
    become an object. *)
From S2P Require Import Prelude CMonad Tlsf TlsfMap TlsfList TlsfLinks TlsfInv TlsfWf TlsfAlloc TlsfGrow TlsfFree.

(** * Orders of pages *)

Lemma order_loop_spec n x o : 0 <= x < 2 ^ Z.of_nat n -> order_loop n x o = o + fls x.
Proof.
  revert x o. induction n as [|n IH]; intros x o Hx; cbn [order_loop].
  - assert (x = 0) as -> by (cbn in Hx; lia). cbn. lia.
  - unfold fls. destruct (Z.eqb_spec x 0) as [->|Hne]; [lia|].
    rewrite Nat2Z.inj_succ, Z.pow_succ_r in Hx by lia.
    rewrite IH; [|rewrite Z.shiftr_div_pow2 by lia; change (2 ^ 1) with 2; split; [apply Z.div_pos; lia|apply Z.div_lt_upper_bound; lia]].
    unfold fls. destruct (Z.eqb_spec (Z.shiftr x 1) 0) as [E|E].
    + assert (x = 1) as ->; [|change (Z.log2 1) with 0; lia]. rewrite Z.shiftr_div_pow2 in E by lia. change (2 ^ 1) with 2 in E.
      pose proof (Z.div_mod x 2). pose proof (Z.mod_pos_bound x 2). lia.
    + assert (1 < x) as Hx1 by (destruct (Z.eq_dec x 1) as [->|]; [done|lia]).
      rewrite Z.log2_shiftr by lia. assert (1 <= Z.log2 x) by (apply Z.log2_le_pow2; lia). lia.
Qed.

Lemma order_spec size : 0 < size < 2 ^ 63 -> let k := get_order_from_bytes size in
  0 <= k /\ size <= TLSF_PAGE_SIZE * 2 ^ k /\ (0 < k -> TLSF_PAGE_SIZE * 2 ^ (k - 1) < size).
Proof.
  intros Hs. unfold get_order_from_bytes, TLSF_PAGE_SIZE, PAGE_SHIFT. rewrite (wrap_id 64) by (unfold urange; lia).
  rewrite Z.shiftr_div_pow2 by lia. change (2 ^ 12) with 4096. set (x := (size - 1) / 4096).
  assert (0 <= x < 2 ^ 51) as Hx by (split; [apply Z.div_pos; lia|apply Z.div_lt_upper_bound; lia]).
  assert (4096 * x <= size - 1 < 4096 * (x + 1)) as Hd by (subst x; pose proof (Z.div_mod (size - 1) 4096); pose proof (Z.mod_pos_bound (size - 1) 4096); lia).
  rewrite order_loop_spec by (cbn; lia). cbn zeta. unfold fls. destruct (Z.eqb_spec x 0) as [E|E].
  - rewrite E in *. cbn. lia.
  - destruct (Z.log2_spec x) as [H1 H2]; [lia|]. pose proof (Z.log2_nonneg x).
    rewrite Z.add_0_l, Z.add_simpl_r, <- Z.add_1_r in *. split_and!; lia.
Qed.

(** The order is found again in the size that was written. *)
Lemma order_back k : 0 <= k < 51 -> get_order_from_bytes (TLSF_PAGE_SIZE * 2 ^ k) = k.
Proof.
  intros Hk. assert (2 ^ k < 2 ^ 51) by (apply Z.pow_lt_mono_r; lia). assert (0 < 2 ^ k) by (apply Z.pow_pos_nonneg; lia).
  destruct (order_spec (TLSF_PAGE_SIZE * 2 ^ k)) as (H1 & H2 & H3); [unfold TLSF_PAGE_SIZE; lia|].
  set (j := get_order_from_bytes (TLSF_PAGE_SIZE * 2 ^ k)) in *. unfold TLSF_PAGE_SIZE in *.
  assert (k <= j) by (apply (Z.pow_le_mono_r_iff 2); lia).
  destruct (Z.lt_ge_cases k j) as [Hlt|]; [|lia]. specialize (H3 ltac:(lia)).
  assert (2 ^ k <= 2 ^ (j - 1)) by (apply Z.pow_le_mono_r; lia). lia.
Qed.

(** * Objects *)

(** An object lies in a block of the pool [xenpool] or in pages of its own; its
    pointer may be past the start of the room there, to be aligned. *)
Inductive home := InPool (room : Z) | InPages (order : Z).

Record obj := mk_obj { o_base : Z; o_home : home; o_size : Z }.

Definition o_room (o : obj) : Z :=
  match o_home o with InPool n => n | InPages k => TLSF_PAGE_SIZE * 2 ^ k - 16 end.

Record obj_ok (s : tlsf) (B : gmap Z blk) (R : gmap Z (Z * Z)) (q : Z) (o : obj) : Prop := {
  oo_size : 0 <= o_size o;
  oo_pad : o_base o + 16 <= q /\ (q - o_base o) mod 16 = 0 /\ q + o_size o <= o_base o + 16 + o_room o /\
    q <= o_base o + 16 + o_room o /\ q < o_base o + 2 ^ 31;
  oo_mark : q <> o_base o + 16 -> h_mem s (q - 8) = q - (o_base o + 16) + 1;
  oo_home : match o_home o with
            | InPool n => used_map B !! o_base o = Some (xenpool s, n)
            | InPages k => 0 <= k <= 18 /\ h_runs s !! o_base o = Some (TLSF_PAGE_SIZE * 2 ^ k) /\ R !! o_base o = None /\
                h_pools s !! o_base o = None /\ h_mem s (o_base o + 8) = TLSF_PAGE_SIZE * 2 ^ k /\ o_base o mod 16 = 0
            end;
}.

(** The heap: its blocks in use and its runs are those of live objects. *)
Record heap (s : tlsf) (O : gmap Z obj) (B : gmap Z blk) (R : gmap Z (Z * Z)) (F : lists) : Prop := {
  hp_wf : wf s B R F;
  hp_pool : exists p, h_pools s !! xenpool s = Some p /\ p_provider p = XmallocPool /\ max_size p = 0;
  hp_obj : forall q o, O !! q = Some o -> obj_ok s B R q o;
  hp_inj : forall q o q' o', O !! q = Some o -> O !! q' = Some o' -> o_base o = o_base o' -> q = q';
  hp_used : forall a n, used_map B !! a = Some (xenpool s, n) -> exists q o, O !! q = Some o /\ o_base o = a /\ o_home o = InPool n;
  hp_runs : forall r, is_Some (h_runs s !! r) -> is_Some (R !! r) \/ is_Some (h_pools s !! r) \/
    exists q o k, O !! q = Some o /\ o_base o = r /\ o_home o = InPages k;
}.

(** * Memory the heap does not own *)

Lemma wf_mem s s' B R F : wf s B R F -> (forall y, own (used_map B) R y -> h_mem s' y = h_mem s y) ->
  h_runs s' = h_runs s -> h_pools s' = h_pools s -> wf s' B R F.
Proof.
  intros HW Hm Er Ep. pose proof (wf_geom _ _ _ _ HW) as HG. destruct HW as [W1 W2 W3 W4 W5 W6 W7 W8]. split; try done.
  - intros a b Ha. destruct (W2 a b Ha) as (H1 & H2 & H3). destruct (own_hdr B R (used_map B) HG ltac:(done) a b Ha) as [N1 N2].
    by rewrite !Hm.
  - eapply lists_ok_frame; [exact W3|..].
    + intros y Hy. apply Hm. eapply wf_links; [by split|done|done].
    + intros y Hy _. by rewrite (mapped_runs s s').
    + rewrite Ep. intros pa p Hp. by exists p.
    + by rewrite Ep.
  - rewrite Er, Ep. exact W6.
  - by rewrite Er.
  - rewrite Er, Ep. exact W8.
Qed.

(** A run that is no region has no word of a region. *)
Lemma run_clear s B R F r n y : wf s B R F -> h_runs s !! r = Some n -> R !! r = None -> r <= y < r + n -> ~ in_regs R y.
Proof.
  intros HW Hr HR Hy (x & q & m & Hx & Hxy). destruct (wf_regs _ _ _ _ HW _ _ _ Hx) as [Hx' _].
  destruct (decide (x = r)) as [->|Hne]; [by rewrite HR in Hx|]. pose proof (ro_apart _ (wf_runs _ _ _ _ HW)) as Hap.
  destruct (Z.lt_ge_cases x r).
  - pose proof (Hap _ _ _ _ Hx' Hr ltac:(lia)). lia.
  - pose proof (Hap _ _ _ _ Hr Hx' ltac:(lia)). lia.
Qed.

(** The room of an object. *)
Definition room_of (o : obj) (y : Z) : Prop := o_base o + 16 <= y < o_base o + 16 + o_room o.

(** The words of the objects stay. *)
Definition same_data (O : gmap Z obj) (s s' : tlsf) : Prop :=
  forall q o y, O !! q = Some o -> room_of o y -> h_mem s' y = h_mem s y.

Section Heap.
Context (s : tlsf) (O : gmap Z obj) (B : gmap Z blk) (R : gmap Z (Z * Z)) (F : lists) (HH : heap s O B R F).
Let HW := hp_wf _ _ _ _ _ HH.
Let HG := wf_geom _ _ _ _ HW.

(** An object whose place stays, and its words with it; the words that
    changed are in regions of [t], which is the state before or after. *)
Lemma obj_kept t Bt Rt Ft s' B' R' U q o : O !! q = Some o -> wf t Bt Rt Ft -> (forall y, ~ own U Rt y -> h_mem s' y = h_mem s y) ->
  xenpool s' = xenpool s -> (h_pools s !! o_base o = None -> h_pools s' !! o_base o = None) ->
  match o_home o with
  | InPool n => U !! o_base o = Some (xenpool s, n) /\ used_map B' !! o_base o = Some (xenpool s, n)
  | InPages k => h_runs t !! o_base o = h_runs s !! o_base o /\ Rt !! o_base o = None /\
      h_runs s' !! o_base o = h_runs s !! o_base o /\ R' !! o_base o = None
  end ->
  obj_ok s' B' R' q o /\ forall y, room_of o y -> h_mem s' y = h_mem s y.
Proof using HH.
  intros Hq HWt Hm Hx Hp Hh. destruct (hp_obj _ _ _ _ _ HH q o Hq) as [Y1 Y2 Y3 Y4].
  assert (forall y, room_of o y -> ~ own U Rt y) as Hroom.
  { unfold room_of, o_room. intros y Hy [Hd Hr]. destruct (o_home o) as [m|k].
    - apply Hd. exists (o_base o), (xenpool s), m. split; [apply Hh|lia].
    - destruct Y4 as (Y4 & Y5 & _). destruct Hh as (Hh1 & Hh2 & _). rewrite Y5 in Hh1.
      eapply run_clear; [exact HWt|exact Hh1|exact Hh2| |exact Hr]. lia. }
  split; [|intros y Hy; by apply Hm, Hroom]. split; [done|done|..].
  - intros Hne. rewrite Hm; [by apply Y3|]. apply Hroom. unfold room_of. destruct Y2 as (Z1 & Z2 & _ & Z4 & _).
    assert (o_base o + 16 + 16 <= q); [|lia]. pose proof (mod16_le 16 (q - o_base o) eq_refl Z2). lia.
  - destruct (o_home o) as [m|k]; [rewrite Hx; apply Hh|]. destruct Y4 as (Y4 & Y5 & Y6 & Y7 & Y8 & Y9). destruct Hh as (Hh1 & Hh2 & Hh3 & Hh4).
    rewrite Y5 in Hh1, Hh3. refine (conj Y4 (conj Hh3 (conj Hh4 (conj (Hp Y7) (conj _ Y9))))). rewrite Hm; [done|].
    intros [_ Hr]. assert (0 < 2 ^ k) by (apply Z.pow_pos_nonneg; lia).
    eapply run_clear; [exact HWt|exact Hh1|exact Hh2| |exact Hr]. unfold TLSF_PAGE_SIZE. lia.
Qed.

Lemma room_not_own q o y : O !! q = Some o -> room_of o y -> ~ own (used_map B) R y.
Proof using HH.
  intros Hq Hy. pose proof (oo_home _ _ _ _ _ (hp_obj _ _ _ _ _ HH q o Hq)) as Ho. unfold room_of, o_room in Hy.
  intros [Hd Hr]. destruct (o_home o) as [m|k].
  - apply Hd. by exists (o_base o), (xenpool s), m.
  - destruct Ho as (Hk & Hrun & HR & _). eapply run_clear; [exact HW|exact Hrun|exact HR| |exact Hr]. lia.
Qed.

(** The run an object lies in. *)
Lemma obj_run q o : O !! q = Some o -> exists r n, h_runs s !! r = Some n /\ r <= o_base o /\
  o_base o + 16 + o_room o <= r + n /\ match o_home o with InPool _ => is_Some (R !! r) | InPages _ => r = o_base o /\ R !! r = None end.
Proof using HH.
  intros Hq. pose proof (oo_home _ _ _ _ _ (hp_obj _ _ _ _ _ HH q o Hq)) as Ho. unfold o_room. destruct (o_home o) as [m|k].
  - apply used_lookup in Ho as (b & Hb & _ & _ & _ & ->). destruct (ge_reg _ _ HG _ b Hb) as (n & Hn & H1 & H2 & _).
    exists (k_reg b), n. split; [by apply (wf_mapped _ _ _ _ HW) in Hn|]. split_and!; [done|done|by eexists].
  - destruct Ho as (Hk & Hrun & HR & _). exists (o_base o), (TLSF_PAGE_SIZE * 2 ^ k). split_and!; (done || lia).
Qed.

(** Two objects have their rooms to themselves. *)
Lemma rooms_apart q o q' o' y : O !! q = Some o -> O !! q' = Some o' -> q <> q' ->
  o_base o <= y < o_base o + 16 + o_room o -> o_base o' <= y < o_base o' + 16 + o_room o' -> False.
Proof using HH.
  intros Hq Hq' Hne Hy Hy'.
  assert (o_base o <> o_base o') as Hb by (intros E; apply Hne; by eapply (hp_inj _ _ _ _ _ HH)).
  destruct (obj_run q o Hq) as (r & n & Hr & R1 & R2 & R3). destruct (obj_run q' o' Hq') as (r' & n' & Hr' & R1' & R2' & R3').
  assert (r = r') as <-.
  { destruct (Z.lt_trichotomy r r') as [Hlt|[E|Hlt]]; [|done|].
    - pose proof (ro_apart _ (wf_runs _ _ _ _ HW) _ _ _ _ Hr Hr' Hlt). lia.
    - pose proof (ro_apart _ (wf_runs _ _ _ _ HW) _ _ _ _ Hr' Hr Hlt). lia. }
  pose proof (oo_home _ _ _ _ _ (hp_obj _ _ _ _ _ HH q o Hq)) as Ho. pose proof (oo_home _ _ _ _ _ (hp_obj _ _ _ _ _ HH q' o' Hq')) as Ho'.
  unfold o_room in *. destruct (o_home o) as [m|k], (o_home o') as [m'|k'].
  - apply used_lookup in Ho as (b & Hbb & _ & _ & _ & ->). apply used_lookup in Ho' as (b' & Hbb' & _ & _ & _ & ->).
    destruct (Z.lt_ge_cases (o_base o) (o_base o')).
    + pose proof (ge_apart _ _ HG _ _ _ _ Hbb Hbb' ltac:(done)). lia.
    + pose proof (ge_apart _ _ HG _ _ _ _ Hbb' Hbb ltac:(lia)). lia.
  - destruct R3' as [-> E]. rewrite E in R3. by destruct R3.
  - destruct R3 as [-> E]. rewrite E in R3'. by destruct R3'.
  - destruct R3 as [-> _], R3' as [E _]. done.
Qed.

(** A word of an object is a word of memory. *)
Lemma room_mapped q o y : O !! q = Some o -> o_base o <= y -> y + 8 <= o_base o + 16 + o_room o -> mapped s y = true.
Proof using HH.
  intros Hq H1 H2. destruct (obj_run q o Hq) as (r & n & Hr & R1 & R2 & _). apply mapped_spec. exists r, n. split; [done|lia].
Qed.

(** A write into an object keeps the heap, unless it hits a mark. *)
Lemma heap_write q o y v s' : O !! q = Some o -> q <= y -> y + 8 <= q + o_size o ->
  s' = s <| h_mem ::= fun m => upd m y v |> -> heap s' O B R F.
Proof using HH.
  intros Hq H1 H2 ->. destruct (oo_pad _ _ _ _ _ (hp_obj _ _ _ _ _ HH q o Hq)) as (P1 & _ & P2 & _).
  assert (room_of o y) as Hy by (unfold room_of; lia).
  pose proof HH as [X1 X2 X3 X4 X5 X6]. split; try done.
  - eapply wf_mem; [exact X1|..|done|done]. intros z Hz. cbn. apply upd_ne. intros ->. by apply (room_not_own q o y Hq Hy).
  - intros q' o' Hq'. destruct (X3 q' o' Hq') as [Y1 Y2 Y3 Y4].
    assert (forall z, z = q' - 8 /\ q' <> o_base o' + 16 \/ z = o_base o' + 8 -> y <> z) as Hne.
    { intros z Hz ->. destruct (decide (q = q')) as [->|Hqq].
      - rewrite Hq in Hq'. injection Hq' as <-. lia.
      - apply (rooms_apart q o q' o' z Hq Hq' Hqq); [lia|]. destruct Y2 as (Y2 & Y2m & Y2' & Y2'' & _).
        destruct Hz as [[-> Hz]| ->].
        + split; [|lia]. assert (o_base o' + 16 + 16 <= q') by (replace q' with (o_base o' + (q' - o_base o')) by lia;
            pose proof (mod16_le 16 (q' - o_base o') eq_refl Y2m); lia). lia.
        + lia. }
    split; try done.
    + intros Hz. cbn. rewrite upd_ne; [by apply Y3|]. apply not_eq_sym, Hne. by left.
    + destruct (o_home o') as [m|k]; [done|]. destruct Y4 as (Y4 & Y5 & Y6 & Y7 & Y8 & Y9).
      refine (conj Y4 (conj Y5 (conj Y6 (conj Y7 (conj _ Y9))))).
      cbn. rewrite upd_ne; [done|]. apply not_eq_sym, Hne. by right.
Qed.
End Heap.

Lemma conf_some (m m' : gmap Z xmem_pool) q : pool_conf <$> m' = pool_conf <$> m -> (is_Some (m' !! q) <-> is_Some (m !! q)).
Proof.
  intros E. pose proof (f_equal (lookup q) E) as Eq. rewrite !lookup_fmap in Eq.
  destruct (m !! q), (m' !! q); try done; split; intros [? [=]]; by eexists.
Qed.

Lemma conf_none (m m' : gmap Z xmem_pool) q : pool_conf <$> m' = pool_conf <$> m -> m !! q = None -> m' !! q = None.
Proof.
  intros E Hq. destruct (m' !! q) as [x|] eqn:E'; [|done]. assert (is_Some (m !! q)) as [y Hy] by (apply (conf_some _ _ _ E); by eexists).
  congruence.
Qed.

Section Grown.
Context (s : tlsf) (O : gmap Z obj) (B : gmap Z blk) (R : gmap Z (Z * Z)) (F : lists) (HH : heap s O B R F).
Let U := used_map B.
Context (s' : tlsf) (B' : gmap Z blk) (R' : gmap Z (Z * Z)) (F' : lists) (HW' : wf s' B' R' F') (HGr : grown U R R' s s').
Let HK := gr_kept _ _ _ _ _ HGr.

Lemma grown_objs q o : U ⊆ used_map B' -> O !! q = Some o ->
  obj_ok s' B' R' q o /\ forall y, room_of o y -> h_mem s' y = h_mem s y.
Proof using All.
  intros HU Hq. eapply (obj_kept s O B R F HH s' B' R' F' s' B' R' U q o); [done|done|apply (kp_mem _ _ _ _ HK)|apply (kp_xen _ _ _ _ HK)|..].
  - apply (conf_none _ _ _ (kp_conf _ _ _ _ HK)).
  - pose proof (oo_home _ _ _ _ _ (hp_obj _ _ _ _ _ HH q o Hq)) as Ho. destruct (o_home o) as [n|k].
    + split; [done|]. by eapply lookup_weaken.
    + destruct Ho as (_ & Hr & HR & _).
      assert (h_runs s' !! o_base o = h_runs s !! o_base o) as E1 by (rewrite Hr; eapply lookup_weaken; [exact Hr|apply (gr_runs _ _ _ _ _ HGr)]).
      assert (R' !! o_base o = None) as E2; [|by split_and!].
      destruct (R' !! o_base o) as [x|] eqn:E; [|done]. destruct (gr_new _ _ _ _ _ HGr _ _ E); congruence.
Qed.

Lemma grown_pool : exists p, h_pools s' !! xenpool s' = Some p /\ p_provider p = XmallocPool /\ max_size p = 0.
Proof using All.
  destruct (hp_pool _ _ _ _ _ HH) as (p & Hp & Hv & Hx). destruct (grown_conf _ _ _ _ _ _ _ HGr Hp) as (p' & Hp' & Ec).
  exists p'. rewrite (kp_xen _ _ _ _ HK). unfold pool_conf in Ec. injection Ec as _ E2 _ E4 _. split; [done|]. by rewrite E2, E4.
Qed.

Lemma grown_runs r : is_Some (h_runs s' !! r) -> is_Some (R' !! r) \/ is_Some (h_pools s' !! r) \/
  exists q o k, O !! q = Some o /\ o_base o = r /\ o_home o = InPages k.
Proof using All.
  intros Hr. destruct (h_runs s !! r) as [n|] eqn:E; [|left; by eapply (gr_held _ _ _ _ _ HGr)].
  destruct (hp_runs _ _ _ _ _ HH r) as [[x Hx]|[Hx|Hx]]; [by eexists|..|by auto].
  - left. exists x. eapply lookup_weaken; [exact Hx|apply (gr_regs _ _ _ _ _ HGr)].
  - right. left. by apply (conf_some _ _ _ (kp_conf _ _ _ _ HK)).
Qed.

Lemma heap_grown : used_map B' = U -> heap s' O B' R' F' /\ same_data O s s'.
Proof using All.
  intros EU. assert (U ⊆ used_map B') as HU by (by rewrite EU). split.
  - split; [done|apply grown_pool|..|apply grown_runs].
    + intros q o Hq. by apply grown_objs.
    + apply (hp_inj _ _ _ _ _ HH).
    + rewrite EU, (kp_xen _ _ _ _ HK). apply (hp_used _ _ _ _ _ HH).
  - intros q o y Hq. by apply (grown_objs q o HU Hq).
Qed.

(** A block more. *)
Context (a n size : Z) (Ha : U !! a = None) (EU : used_map B' = <[a := (xenpool s, n)]> U) (Hsz : 0 <= size <= n).
Context (Ha16 : a mod 16 = 0).

Lemma new_clash q o : O !! q = Some o -> o_base o <= a -> a <= o_base o + o_room o -> False.
Proof using All.
  intros Hq H1 H2. assert (U ⊆ used_map B') as HU by (rewrite EU; by apply insert_subseteq).
  destruct (grown_objs q o HU Hq) as [[_ _ _ Ho] _].
  assert (used_map B' !! a = Some (xenpool s, n)) as Hn by (rewrite EU; apply lookup_insert_eq).
  apply used_lookup in Hn as (b & Hb & _ & Hs0 & _ & ->). pose proof (wf_geom _ _ _ _ HW') as HG.
  pose proof (blk_size _ _ HG a b Hb Hs0). unfold o_room in H2. destruct (o_home o) as [m|k] eqn:Eh.
  - apply used_lookup in Ho as (b' & Hb' & _ & Hs0' & _ & ->).
    destruct (decide (o_base o = a)) as [E|Hne].
    + pose proof (oo_home _ _ _ _ _ (hp_obj _ _ _ _ _ HH q o Hq)) as Ho'. rewrite Eh, E in Ho'. unfold U in Ha. congruence.
    + pose proof (ge_apart _ _ HG _ _ _ _ Hb' Hb ltac:(lia)). lia.
  - destruct Ho as (_ & Hr & HR & _). eapply (run_clear s' B' R' F' _ _ a HW' Hr HR); [lia|].
    destruct (ge_reg _ _ HG a b Hb) as (x & Hx & L1 & L2 & _). exists (k_reg b), (k_pool b), x. split; [done|lia].
Qed.

Lemma heap_grown_new : let o := mk_obj a (InPool n) size in
  heap s' (<[a + 16 := o]> O) B' R' F' /\ O !! (a + 16) = None /\ same_data O s s' /\ n < 2 ^ 30.
Proof using All.
  intros o. assert (U ⊆ used_map B') as HU by (rewrite EU; by apply insert_subseteq).
  assert (used_map B' !! a = Some (xenpool s, n)) as Hn by (rewrite EU; apply lookup_insert_eq).
  assert (n < 2 ^ 30) as Hn30.
  { pose proof Hn as (b & Hb & _ & _ & _ & ->)%used_lookup. by destruct (ge_align _ _ (wf_geom _ _ _ _ HW') a b Hb) as (_ & _ & [_ ?] & _). }
  assert (O !! (a + 16) = None) as Hnone.
  { destruct (O !! (a + 16)) as [o'|] eqn:E; [|done]. exfalso.
    destruct (oo_pad _ _ _ _ _ (hp_obj _ _ _ _ _ HH _ _ E)) as (P1 & _ & _ & P4 & _).
    apply (new_clash _ _ E); lia. }
  assert (forall q o', O !! q = Some o' -> o_base o' <> a) as Hbase.
  { intros q o' Hq E. pose proof (hp_obj _ _ _ _ _ HH q o' Hq) as [H1 (H2 & _ & H3 & H4 & _) _ _]. apply (new_clash q o' Hq); lia. }
  pose proof (kp_xen _ _ _ _ HK) as Ex.
  split_and!; [split; [done|apply grown_pool|..]|done|intros q o' y Hq; by apply (grown_objs q o' HU Hq)|done].
  - intros q o' Hq. apply lookup_insert_Some in Hq as [[<- <-]|[_ Hq]]; [|by apply grown_objs].
    split; cbn; [lia| |done|by rewrite Ex]. replace (a + 16 - a) with 16 by lia. unfold o_room. cbn. split_and!; (done || lia).
  - intros q1 o1 q2 o2 H1 H2 E. apply lookup_insert_Some in H1 as [[<- <-]|[_ H1]]; apply lookup_insert_Some in H2 as [[<- <-]|[_ H2]]; [done|..].
    + by destruct (Hbase _ _ H2).
    + by destruct (Hbase _ _ H1).
    + by eapply (hp_inj _ _ _ _ _ HH).
  - rewrite EU, Ex. intros x m Hx. apply lookup_insert_Some in Hx as [[<- [= <-]]|[Hne Hx]].
    + exists (a + 16), o. split; [apply lookup_insert_eq|done].
    + destruct (hp_used _ _ _ _ _ HH x m Hx) as (q & o' & Hq & E1 & E2). exists q, o'. split; [|done].
      rewrite lookup_insert_ne; [done|]. congruence.
  - intros r Hr. destruct (grown_runs r Hr) as [?|[?|(q & o' & k & Hq & E1 & E2)]]; [auto..|]. right. right.
    exists q, o', k. split; [|done]. rewrite lookup_insert_ne; [done|]. congruence.
Qed.
End Grown.

(** An object only depends on the words of its place. *)
Lemma obj_frame s s' B R q o : obj_ok s B R q o -> (forall y, o_base o <= y < o_base o + 16 + o_room o -> h_mem s' y = h_mem s y) ->
  (h_runs s' !! o_base o = h_runs s !! o_base o) -> h_pools s' = h_pools s -> xenpool s' = xenpool s -> obj_ok s' B R q o.
Proof.
  intros [Y1 Y2 Y3 Y4] Hm Hr Hp Hx. split; [done|done|..].
  - intros Hne. rewrite Hm; [by apply Y3|]. destruct Y2 as (Z1 & Z2 & _ & Z4 & _).
    pose proof (mod16_le 16 (q - o_base o) eq_refl Z2). lia.
  - unfold o_room in Hm. destruct (o_home o) as [m|k]; [by rewrite Hx|]. destruct Y4 as (Y4 & Y5 & Y6 & Y7 & Y8 & Y9).
    rewrite Hr, Hp. refine (conj Y4 (conj Y5 (conj Y6 (conj Y7 (conj _ Y9))))). rewrite Hm; [done|].
    assert (0 < 2 ^ k) by (apply Z.pow_pos_nonneg; lia). unfold TLSF_PAGE_SIZE. lia.
Qed.

(** The page allocator refused a request. *)
Definition no_pages (env : TlsfEnv) : Prop := exists runs n order, te_pages env runs n order = 0.

Section Pages.
Context (env : TlsfEnv) (HE : env_ok env) (tol : fault -> Prop).
Context (s : tlsf) (O : gmap Z obj) (B : gmap Z blk) (R : gmap Z (Z * Z)) (F : lists) (HH : heap s O B R F).
Let HW := hp_wf _ _ _ _ _ HH.

(** The heap does not see the requests for pages. *)
Lemma heap_asked k : heap (s <| h_asked := k |>) O B R F.
Proof using HH.
  destruct HH as [X1 X2 X3 X4 X5 X6]. split; try done.
  - eapply wf_mem; done.
  - intros q o Hq. eapply obj_frame; [by apply X3|done..].
Qed.

(** Pages come in for an object. *)
Lemma heap_pages a k size s' : a <> 0 -> 0 <= k <= 18 -> fresh_run (h_runs s) a (TLSF_PAGE_SIZE * 2 ^ k) ->
  0 <= size -> size + 16 <= TLSF_PAGE_SIZE * 2 ^ k ->
  h_mem s' = upd (h_mem s) (a + 8) (TLSF_PAGE_SIZE * 2 ^ k) -> h_runs s' = <[a := TLSF_PAGE_SIZE * 2 ^ k]> (h_runs s) ->
  h_pools s' = h_pools s -> xenpool s' = xenpool s ->
  heap s' (<[a + 16 := mk_obj a (InPages k) size]> O) B R F /\ O !! (a + 16) = None /\ same_data O s s'.
Proof using HH.
  intros Hne Hk Hf Hsz Hfit Em Er Ep Ex. assert (0 < 2 ^ k) by (apply Z.pow_pos_nonneg; lia).
  assert (0 < TLSF_PAGE_SIZE * 2 ^ k) as Hpos by (unfold TLSF_PAGE_SIZE; lia).
  destruct (runs_ok_insert _ a _ (wf_runs _ _ _ _ HW) Hne Hpos Hf) as [Hnone Hro]. destruct Hf as [?|(F1 & F2 & F3 & F4)]; [done|].
  assert (R !! a = None) as HRa.
  { destruct (R !! a) as [[q m]|] eqn:E; [|done]. apply (wf_regs _ _ _ _ HW) in E as [E _]. congruence. }
  assert (h_pools s !! a = None) as HPa.
  { destruct (h_pools s !! a) as [p|] eqn:E; [|done]. destruct (pw_own _ _ _ _ _ (wf_pools _ _ _ _ HW a p E)) as [[m Hm] _]. congruence. }
  assert (forall q o y, O !! q = Some o -> o_base o <= y < o_base o + 16 + o_room o -> y < a \/ a + TLSF_PAGE_SIZE * 2 ^ k <= y) as Hap.
  { intros q o y Hq Hy. destruct (obj_run s O B R F HH q o Hq) as (r & n & Hr & R1 & R2 & _). pose proof (F4 r n Hr). lia. }
  assert (forall q o y, O !! q = Some o -> o_base o <= y < o_base o + 16 + o_room o -> h_mem s' y = h_mem s y) as Hmem.
  { intros q o y Hq Hy. rewrite Em. apply upd_ne. pose proof (Hap q o y Hq Hy). unfold TLSF_PAGE_SIZE in *. lia. }
  assert (forall q o, O !! q = Some o -> 0 <= o_room o /\ o_base o <> a) as Hbase.
  { intros q o Hq. destruct (oo_pad _ _ _ _ _ (hp_obj _ _ _ _ _ HH q o Hq)) as (P1 & _ & _ & P4 & _). assert (0 <= o_room o) by lia. split; [done|].
    pose proof (Hap q o (o_base o) Hq ltac:(lia)). lia. }
  assert (wf (s' <| h_mem := h_mem s |>) B R F) as HW1.
  { eapply (wf_runs_more s); [done|done|done|cbn; rewrite Er; by apply insert_subseteq|cbn; by rewrite Er]. }
  assert (O !! (a + 16) = None) as HO.
  { destruct (O !! (a + 16)) as [o|] eqn:E; [|done]. exfalso.
    destruct (oo_pad _ _ _ _ _ (hp_obj _ _ _ _ _ HH _ o E)) as (P1 & _ & _ & P4 & _).
    pose proof (Hap _ o a E ltac:(lia)). lia. }
  split_and!; [split|done|].
  - eapply wf_mem; [exact HW1|..|done|done]. intros y [_ Hy]. cbn. rewrite Em. apply upd_ne. intros ->.
    eapply run_clear; [exact HW1|cbn; rewrite Er; apply lookup_insert_eq|exact HRa| |exact Hy]. unfold TLSF_PAGE_SIZE. lia.
  - rewrite Ex, Ep. apply (hp_pool _ _ _ _ _ HH).
  - intros q o Hq. apply lookup_insert_Some in Hq as [[<- <-]|[_ Hq]].
    + split; cbn [o_base o_home o_size]; unfold o_room; cbn [o_home]; [done| |lia|].
      * replace (a + 16 - a) with 16 by lia. split_and!; (done || lia).
      * rewrite Er, Ep, Em, upd_eq. split_and!; try done; try lia. apply lookup_insert_eq.
    + eapply obj_frame; [by apply (hp_obj _ _ _ _ _ HH)|intros y; by apply (Hmem q o y Hq)| |done|done].
      rewrite Er. apply lookup_insert_ne, not_eq_sym, (Hbase q o Hq).
  - intros q1 o1 q2 o2 H1 H2 E. apply lookup_insert_Some in H1 as [[<- <-]|[_ H1]]; apply lookup_insert_Some in H2 as [[<- <-]|[_ H2]]; [done|..].
    + by destruct (Hbase _ _ H2) as [_ []].
    + by destruct (Hbase _ _ H1) as [_ []].
    + by eapply (hp_inj _ _ _ _ _ HH).
  - rewrite Ex. intros x m Hx. destruct (hp_used _ _ _ _ _ HH x m Hx) as (q & o & Hq & E). exists q, o. split; [|done].
    rewrite lookup_insert_ne; [done|]. congruence.
  - rewrite Er, Ep. intros r Hr. destruct (decide (r = a)) as [->|Hra].
    + right. right. eexists _, _, k. split; [apply lookup_insert_eq|done].
    + rewrite lookup_insert_ne in Hr by done. destruct (hp_runs _ _ _ _ _ HH r Hr) as [?|[?|(q & o & j & Hq & E)]]; [auto..|].
      right. right. exists q, o, j. split; [|done]. rewrite lookup_insert_ne; [done|]. congruence.
  - intros q o y Hq Hy. apply (Hmem q o); [done|]. unfold room_of in Hy. lia.
Qed.

Context (size : Z) (Hsz : 0 <= size < 2 ^ 29 + 2 ^ 28).
Context (Q : Z -> tlsf -> Prop).
Context (Q0 : forall s', heap s' O B R F -> same_data O s s' -> xenpool s' = xenpool s -> no_pages env -> Q 0 s').
Context (Q1 : forall s' a k, heap s' (<[a + 16 := mk_obj a (InPages k) size]> O) B R F -> O !! (a + 16) = None ->
  same_data O s s' -> xenpool s' = xenpool s -> 0 < a -> a mod 16 = 0 -> Q (a + 16) s').

Lemma wp_whole_pages : wp tol (xmalloc_whole_pages env size) Q s.
Proof using All.
  unfold xmalloc_whole_pages. change BHDR_OVERHEAD with 16. rewrite (wrap_id 64) by (unfold urange; lia).
  destruct (order_spec (size + 16)) as (K1 & K2 & K3); [lia|]. set (k := get_order_from_bytes (size + 16)) in *. cbn zeta.
  assert (k <= 18) as Hk.
  { destruct (Z.lt_ge_cases 18 k); [|done]. specialize (K3 ltac:(lia)). unfold TLSF_PAGE_SIZE in *.
    assert (2 ^ 18 <= 2 ^ (k - 1)) by (apply Z.pow_le_mono_r; lia). change (2 ^ 18) with 262144 in *. lia. }
  unfold alloc_xenheap_pages, tick, take_run. wp_steps.
  set (a := te_pages env (h_runs s) (h_asked s) k). pose proof (eo_pages _ HE (h_runs s) (h_asked s) k K1) as Hf. fold a in Hf.
  change (te_pages env (h_runs (s <| h_asked ::= S |>)) (h_asked s) k) with a.
  destruct (Z.eqb_spec a 0) as [E|Hne].
  - wp_steps. rewrite (proj2 (Z.eqb_eq a 0) E). apply wp_ret. apply Q0; [apply heap_asked|done|done|]. by exists (h_runs s), (h_asked s), k.
  - wp_steps. destruct (Z.eqb_spec a 0); [done|]. rewrite (proj2 (Z.leb_gt 31 (k + PAGE_SHIFT))) by (unfold PAGE_SHIFT; lia).
    assert (0 < 2 ^ k) by (apply Z.pow_pos_nonneg; lia).
    assert (Z.shiftl 1 (k + PAGE_SHIFT) = TLSF_PAGE_SIZE * 2 ^ k) as ->.
    { unfold PAGE_SHIFT, TLSF_PAGE_SIZE. rewrite Z.shiftl_mul_pow2, Z.pow_add_r by lia. change (2 ^ 12) with 4096. lia. }
    apply wp_bind. apply wp_store_word.
    { apply mapped_spec. exists a, (TLSF_PAGE_SIZE * 2 ^ k). refine (conj (lookup_insert_eq _ _ _) _).
      unfold f_size, TLSF_PAGE_SIZE. lia. }
    apply wp_ret. match goal with |- Q _ ?x => set (s' := x) end.
    destruct (heap_pages a k size s' Hne ltac:(lia) Hf ltac:(lia) ltac:(lia)) as (H1 & H2 & H3); [done..|].
    destruct Hf as [?|(F1 & F2 & _)]; [done|]. unfold TLSF_PAGE_SIZE in *. by apply (Q1 s' a k); [..|lia|].
Qed.
End Pages.
