(* ===== verification/TlsfXmalloc.v ===== *)
(** [_xmalloc] and [xfree] as a whole. *)
From S2P Require Import Prelude CMonad Tlsf TlsfMap TlsfList TlsfLinks TlsfInv TlsfWf TlsfAlloc TlsfGrow TlsfFree TlsfHeap.

(** * Alignment *)

Lemma pad_spec p j : 4 <= j <= 30 -> 0 < p -> p mod 16 = 0 -> let pad := u32 (Z.land (u64 (- p)) (2 ^ j - 1)) in
  0 <= pad <= 2 ^ j - 16 /\ pad mod 16 = 0 /\ (p + pad) mod 2 ^ j = 0.
Proof.
  intros Hj Hp Hm. assert (2 ^ 4 <= 2 ^ j <= 2 ^ 30) as Hr by (split; apply Z.pow_le_mono_r; lia).
  assert (Z.land (u64 (- p)) (2 ^ j - 1) = (- p) mod 2 ^ j) as E.
  { replace (2 ^ j - 1) with (Z.ones j) by (rewrite Z.ones_equiv; lia). rewrite Z.land_ones by lia.
    unfold wrap. rewrite Z.mod_mod_divide; [done|]. exists (2 ^ (64 - j)). rewrite <- Z.pow_add_r by lia. f_equal. lia. }
  cbn zeta. rewrite E. pose proof (Z.mod_pos_bound (- p) (2 ^ j) ltac:(lia)) as Hb.
  assert (((- p) mod 2 ^ j) mod 16 = 0) as Hm2.
  { rewrite Z.mod_mod_divide by (exists (2 ^ (j - 4)); change 16 with (2 ^ 4); rewrite <- Z.pow_add_r by lia; f_equal; lia).
    by apply Z.mod_opp_l_z. }
  rewrite (wrap_id 32) by (unfold urange; lia).
  assert (2 ^ j mod 16 = 0) as Hj16.
  { replace j with (j - 4 + 4) by lia. rewrite Z.pow_add_r by lia. apply Z.mod_mul. done. }
  split_and!; [lia| |done|].
  - pose proof (mod16_le _ _ Hm2 Hj16). lia.
  - rewrite Zplus_mod_idemp_r, Z.add_opp_diag_r. done.
Qed.

Lemma land_align j : 0 <= j -> Z.land (2 ^ j) (2 ^ j - 1) = 0.
Proof.
  intros Hj. replace (2 ^ j - 1) with (Z.ones j) by (rewrite Z.ones_equiv; lia). rewrite Z.land_ones by lia. apply Z.mod_same.
  apply Z.pow_nonzero; lia.
Qed.

(** An object may start later in its room. *)
Lemma heap_move s O B R F p0 o q size : heap s (<[p0 := o]> O) B R F -> O !! p0 = None -> p0 = o_base o + 16 ->
  0 <= size -> p0 <= q -> (q - p0) mod 16 = 0 -> q + size <= o_base o + 16 + o_room o -> q < o_base o + 2 ^ 31 ->
  (q <> p0 -> h_mem s (q - 8) = q - p0 + 1) ->
  heap s (<[q := mk_obj (o_base o) (o_home o) size]> O) B R F /\ O !! q = None.
Proof.
  intros HH Hn Ep Hsz Hq Hm Hfit Hlt Hmark. set (o' := mk_obj (o_base o) (o_home o) size).
  assert (<[p0 := o]> O !! p0 = Some o) as L0 by apply lookup_insert_eq.
  assert (forall x y, O !! x = Some y -> <[p0 := o]> O !! x = Some y /\ x <> p0) as Lold.
  { intros x y Hx. assert (x <> p0) by congruence. by rewrite lookup_insert_ne. }
  assert (O !! q = None) as Hqn.
  { destruct (decide (q = p0)) as [->|Hne]; [done|]. destruct (O !! q) as [o1|] eqn:E; [|done]. exfalso.
    destruct (Lold q o1 E) as [L1 _]. destruct (oo_pad _ _ _ _ _ (hp_obj _ _ _ _ _ HH q o1 L1)) as (P1 & _ & _ & P4 & _).
    apply (rooms_apart s _ B R F HH p0 o q o1 (q - 1)); (done || lia). }
  split; [|done]. pose proof (hp_obj _ _ _ _ _ HH p0 o L0) as [_ _ _ Y4].
  destruct HH as [X1 X2 X3 X4 X5 X6]. split; try done.
  - intros x y Hx. apply lookup_insert_Some in Hx as [[<- <-]|[_ Hx]]; [|by apply X3, Lold].
    unfold o'. split; unfold o_room; cbn [o_base o_home o_size]; fold (o_room o); [done| | |done].
    + replace (q - o_base o) with (16 + (q - p0)) by lia. split_and!; try lia. auto.
    + intros Hne. rewrite <- Ep in *. by apply Hmark.
  - intros x y x' y' Hx Hx' E. apply lookup_insert_Some in Hx as [[<- <-]|[_ Hx]]; apply lookup_insert_Some in Hx' as [[<- <-]|[_ Hx']]; [done|..].
    + destruct (Lold _ _ Hx') as [L L']. exfalso. apply L'. by eapply X4.
    + destruct (Lold _ _ Hx) as [L L']. exfalso. apply L'. by eapply X4.
    + destruct (Lold _ _ Hx) as [L _], (Lold _ _ Hx') as [L' _]. by eapply X4.
  - intros a n Ha. destruct (X5 a n Ha) as (x & y & Hx & E1 & E2). apply lookup_insert_Some in Hx as [[<- <-]|[Hne Hx]].
    + exists q, o'. split; [apply lookup_insert_eq|done].
    + exists x, y. split; [|done]. rewrite lookup_insert_ne; [done|congruence].
  - intros r Hr. destruct (X6 r Hr) as [?|[?|(x & y & k & Hx & E1 & E2)]]; [auto..|]. right. right.
    apply lookup_insert_Some in Hx as [[<- <-]|[Hne Hx]].
    + exists q, o', k. split; [apply lookup_insert_eq|done].
    + exists x, y, k. split; [|done]. rewrite lookup_insert_ne; [done|congruence].
Qed.

Lemma same_data_trans O s1 s2 s3 : same_data O s1 s2 -> same_data O s2 s3 -> same_data O s1 s3.
Proof. intros H1 H2 q o y Hq Hy. rewrite (H2 q o y Hq Hy). by apply (H1 q o). Qed.

Section Padding.
Context (tol : fault -> Prop) (s : tlsf) (O : gmap Z obj) (B : gmap Z blk) (R : gmap Z (Z * Z)) (F : lists).
Context (p0 : Z) (o : obj) (HH : heap s (<[p0 := o]> O) B R F) (Hn : O !! p0 = None).
Context (Ep : p0 = o_base o + 16) (Hp0 : 0 < p0) (H16 : p0 mod 16 = 0).
Context (size j : Z) (Hj : 4 <= j <= 28) (Hs : 0 <= size) (Eo : o_size o = size + (2 ^ j - 16)).
Context (Q : Z -> tlsf -> Prop).
Context (HQ : forall s' q, heap s' (<[q := mk_obj (o_base o) (o_home o) size]> O) B R F -> O !! q = None ->
  q mod 2 ^ j = 0 -> 0 < q -> same_data O s s' -> xenpool s' = xenpool s -> Q q s').

Lemma wp_add_padding : wp tol (add_padding p0 (2 ^ j)) Q s.
Proof using All.
  assert (<[p0 := o]> O !! p0 = Some o) as L0 by apply lookup_insert_eq.
  destruct (oo_pad _ _ _ _ _ (hp_obj _ _ _ _ _ HH p0 o L0)) as (P1 & P2 & P3 & P4 & P5).
  destruct (obj_run s _ B R F HH p0 o L0) as (r & n & Hr & R1 & R2 & _).
  destruct (ro_range _ (wf_runs _ _ _ _ (hp_wf _ _ _ _ _ HH)) r n Hr) as (_ & _ & R3).
  destruct (pad_spec p0 j ltac:(lia) Hp0 H16) as (D1 & D2 & D3).
  assert (2 ^ j <= 2 ^ 28) by (apply Z.pow_le_mono_r; lia).
  assert (forall q, q mod 2 ^ j = 0 -> Z.land q (2 ^ j - 1) = 0) as Hland.
  { intros q Hq. replace (2 ^ j - 1) with (Z.ones j) by (rewrite Z.ones_equiv; lia). by rewrite Z.land_ones by lia. }
  unfold add_padding. set (pad := u32 (Z.land (u64 (- p0)) (2 ^ j - 1))) in *. cbn zeta. apply wp_bind.
  destruct (Z.eqb_spec pad 0) as [E|Hne]; cbn [negb].
  - apply wp_ret. rewrite E, Z.add_0_r in D3. rewrite Hland by done. cbn [negb Z.eqb]. apply wp_ret.
    destruct (heap_move s O B R F p0 o p0 size) as [M1 M2]; try done; try lia; [by rewrite Z.sub_diag|]. apply HQ; done.
  - rewrite (wrap_id 64) by (unfold urange; lia). destruct (Z.leb_spec (p0 + pad) p0); [lia|]. set (q := p0 + pad) in *.
    assert (16 <= pad) as Hpad by (pose proof (mod16_le 0 pad eq_refl D2); lia).
    apply wp_bind. apply wp_store_word.
    { unfold f_size. change BHDR_OVERHEAD with 16. apply (room_mapped s _ B R F HH p0 o); [done|lia|lia]. }
    apply wp_ret. rewrite Hland by done. cbn [negb Z.eqb]. apply wp_ret. match goal with |- Q _ ?x => set (s' := x) end.
    assert (f_size (q - BHDR_OVERHEAD) = q - 8) as Ea by (unfold f_size; change BHDR_OVERHEAD with 16; lia).
    assert (heap s' (<[p0 := o]> O) B R F) as HH'.
    { eapply (heap_write s _ B R F HH p0 o (q - 8)); [done|lia|lia|]. unfold s'. by rewrite Ea. }
    destruct (heap_move s' O B R F p0 o q size) as [M1 M2]; try done; try lia; [by replace (q - p0) with pad by lia|..].
    { intros _. unfold s'. cbn. rewrite Ea, upd_eq. rewrite <- add_low; [lia|done|lia]. }
    apply HQ; try done; [lia|]. intros x y z Hx Hz. unfold s'. cbn. rewrite Ea. apply upd_ne. intros ->.
    assert (x <> p0) by congruence. unfold room_of in Hz.
    apply (rooms_apart s _ B R F HH p0 o x y (q - 8)); [done|by rewrite lookup_insert_ne|done|lia|lia].
Qed.
End Padding.

(** * A block of the pool for an object *)

Section Pool.
Context (env : TlsfEnv) (HE : env_ok env) (tol : fault -> Prop).
Context (s : tlsf) (O : gmap Z obj) (B : gmap Z blk) (R : gmap Z (Z * Z)) (F : lists) (HH : heap s O B R F).

Lemma wp_xenpool_alloc size (Q : Z -> tlsf -> Prop) : 0 <= size < 2 ^ 29 - 16 ->
  (forall s' B' R' F', heap s' O B' R' F' -> same_data O s s' -> xenpool s' = xenpool s -> Q 0 s') ->
  (forall s' B' R' F' a n, heap s' (<[a + 16 := mk_obj a (InPool n) size]> O) B' R' F' -> O !! (a + 16) = None ->
     same_data O s s' -> xenpool s' = xenpool s -> 0 < a -> a mod 16 = 0 -> Q (a + 16) s') ->
  wp tol (xmem_pool_alloc env size (xenpool s)) Q s.
Proof using HE HH.
  intros Hs Q0 Q1. destruct (hp_pool _ _ _ _ _ HH) as (p & Hp & _ & _).
  eapply (wp_pool_alloc env HE tol s B R F (hp_wf _ _ _ _ _ HH) (xenpool s) p Hp size Hs).
  - intros s' B' R' F' HW' HGr EU _. destruct (heap_grown s O B R F HH s' B' R' F' HW' HGr EU) as [H1 H2].
    eapply Q0; [exact H1|exact H2|apply (kp_xen _ _ _ _ (gr_kept _ _ _ _ _ HGr))].
  - intros s' B' R' F' a n HW' HGr Hna EU Hn Hpos Hal.
    destruct (heap_grown_new s O B R F HH s' B' R' F' HW' HGr a n size Hna EU ltac:(lia) Hal) as (H1 & H2 & H3 & _).
    eapply Q1; [exact H1|exact H2|exact H3|apply (kp_xen _ _ _ _ (gr_kept _ _ _ _ _ HGr))|done|done].
Qed.
End Pool.

(** * [_xmalloc] *)

(** The alignment that is used. *)
Definition align_exp (align j : Z) : Prop := align = 0 /\ j = 4 \/ exists i, 0 <= i /\ align = 2 ^ i /\ j = Z.max 4 i.

Lemma align_exp_spec align j : align_exp align j -> 0 <= align <= 2 ^ 28 -> Z.land align (u64 (align - 1)) = 0 /\
  (if align <? TLSF_MEM_ALIGN then TLSF_MEM_ALIGN else align) = 2 ^ j /\ 4 <= j <= 28.
Proof.
  intros [[-> ->]|(i & Hi & -> & ->)] Ha; [split_and!; (done || lia)|].
  assert (i <= 28) by (apply (Z.pow_le_mono_r_iff 2); lia). assert (0 < 2 ^ i) by (apply Z.pow_pos_nonneg; lia).
  rewrite wrap_id by (unfold urange; lia). split; [by apply land_align|]. unfold TLSF_MEM_ALIGN. split; [|lia].
  destruct (Z.le_gt_cases 4 i).
  - rewrite Z.max_r by done. assert (2 ^ 4 <= 2 ^ i) by (apply Z.pow_le_mono_r; lia). by destruct (Z.ltb_spec (2 ^ i) 16); [lia|].
  - rewrite Z.max_l by lia. assert (2 ^ i < 2 ^ 4) by (apply Z.pow_lt_mono_r; lia). by destruct (Z.ltb_spec (2 ^ i) 16); [|lia].
Qed.

Section Xmalloc.
Context (env : TlsfEnv) (HE : env_ok env) (tol : fault -> Prop).
Context (s : tlsf) (O : gmap Z obj) (B : gmap Z blk) (R : gmap Z (Z * Z)) (F : lists) (HH : heap s O B R F) (Hx : xenpool s <> 0).
Context (size align j : Z) (Hs : 0 <= size <= 2 ^ 29) (Ha : 0 <= align <= 2 ^ 28) (Hj : align_exp align j).
Context (Q : Z -> tlsf -> Prop).
Context (Q0 : forall s' B' R' F', heap s' O B' R' F' -> same_data O s s' -> xenpool s' = xenpool s -> no_pages env -> Q 0 s').
Context (Q1 : forall s' B' R' F' q o, heap s' (<[q := o]> O) B' R' F' -> O !! q = None -> o_size o = size ->
  q mod 2 ^ j = 0 -> 0 < q -> same_data O s s' -> xenpool s' = xenpool s -> Q q s').

(** NULL needs no padding. *)
Lemma wp_padding_null s1 : Q 0 s1 -> wp tol (add_padding 0 (2 ^ j)) Q s1.
Proof using Type. intros HQ. unfold add_padding. cbn -[Z.pow]. by apply wp_ret. Qed.

(** An object of the size with room for the padding. *)
Lemma wp_xmalloc_pad s1 B1 R1 F1 a h : let full := size + (2 ^ j - 16) in
  heap s1 (<[a + 16 := mk_obj a h full]> O) B1 R1 F1 -> O !! (a + 16) = None ->
  same_data O s s1 -> xenpool s1 = xenpool s -> 0 < a -> a mod 16 = 0 -> wp tol (add_padding (a + 16) (2 ^ j)) Q s1.
Proof using All.
  intros full H1 H2 H3 H4 H5 H6. destruct (align_exp_spec align j Hj Ha) as (_ & _ & Hjr).
  eapply (wp_add_padding tol s1 O B1 R1 F1 (a + 16) _ H1 H2 eq_refl ltac:(lia) ltac:(auto) size j Hjr ltac:(lia) eq_refl).
  intros s' q M1 M2 M3 M4 M5 M6. eapply Q1; [exact M1|done|done|done|done|by eapply same_data_trans|congruence].
Qed.

Lemma wp_xmalloc_pages s1 B1 R1 F1 : heap s1 O B1 R1 F1 -> same_data O s s1 -> xenpool s1 = xenpool s ->
  wp tol (p ← xmalloc_whole_pages env (size + (2 ^ j - 16)); add_padding p (2 ^ j)) Q s1.
Proof using All.
  intros H1 H2 H3. destruct (align_exp_spec align j Hj Ha) as (_ & _ & Hjr).
  assert (2 ^ 4 <= 2 ^ j <= 2 ^ 28) by (split; apply Z.pow_le_mono_r; lia).
  apply wp_bind. eapply (wp_whole_pages env HE tol s1 O B1 R1 F1 H1); [lia|..].
  - intros s' M1 M2 M3 M4. apply wp_padding_null. eapply Q0; [exact M1|by eapply same_data_trans|congruence|done].
  - intros s' a k M1 M2 M3 M4 M5 M6. eapply (wp_xmalloc_pad s' _ _ _ a); [exact M1|done|by eapply same_data_trans|congruence|done|done].
Qed.
(** After the check of the alignment and [tlsf_init]. *)
Lemma wp_xmalloc_rest : wp tol (xp ← gets xenpool;
    p ← (if size + (2 ^ j - 16) <? TLSF_PAGE_SIZE then xmem_pool_alloc env (size + (2 ^ j - 16)) xp else mret 0);
    p ← (if p =? 0 then xmalloc_whole_pages env (size + (2 ^ j - 16)) else mret p);
    add_padding p (2 ^ j)) Q s.
Proof using All.
  destruct (align_exp_spec align j Hj Ha) as (_ & _ & Hjr).
  assert (2 ^ 4 <= 2 ^ j <= 2 ^ 28) as Hjp by (split; apply Z.pow_le_mono_r; lia).
  apply wp_bind. apply wp_gets. apply wp_bind.
  destruct (Z.ltb_spec (size + (2 ^ j - 16)) TLSF_PAGE_SIZE) as [Hlt|Hge].
  - eapply (wp_xenpool_alloc env HE tol s O B R F HH); [unfold TLSF_PAGE_SIZE in *; lia|..].
    + intros s' B' R' F' M1 M2 M3. cbn [Z.eqb]. eapply wp_xmalloc_pages; done.
    + intros s' B' R' F' a m M1 M2 M3 M4 M5 M6. destruct (Z.eqb_spec (a + 16) 0); [lia|]. apply wp_bind. apply wp_ret.
      by eapply (wp_xmalloc_pad s' _ _ _ a).
  - apply wp_ret. cbn [Z.eqb]. by eapply wp_xmalloc_pages.
Qed.
End Xmalloc.

(** * [xfree] *)

(** A run that is neither region nor pool goes back. *)
Lemma wf_runs_less s B R F r : wf s B R F -> R !! r = None -> h_pools s !! r = None -> wf (s <| h_runs ::= delete r |>) B R F.
Proof.
  intros HW HR HP. pose proof HW as [W1 W2 W3 W4 W5 W6 W7 W8].
  assert (regs_mapped (s <| h_runs ::= delete r |>) R) as Hreg.
  { intros x q n Hx. cbn. rewrite lookup_delete_ne by congruence. by apply W6 in Hx as [Hx _]. }
  split; try done.
  - eapply lists_ok_frame; [exact W3|done|..|done].
    + intros y _ (pa & fl & sl & x & Hx & Hy). destruct (wf_node _ _ _ _ HW x pa fl sl Hx) as (b & Hb & _ & _ & _ & Hs).
      destruct (link_mapped (s <| h_runs ::= delete r |>) B R W1 Hreg x b Hb ltac:(lia)). by destruct Hy as [->| ->].
    + intros pa p Hp. by exists p.
  - intros x q n Hx. split; [by eapply Hreg|]. by apply W6 in Hx as [_ Hx].
  - assert (forall x n, delete r (h_runs s) !! x = Some n -> h_runs s !! x = Some n) as Hold by (intros x n [_ Hx]%lookup_delete_Some; done).
    destruct W7 as [V1 V2]. split.
    + intros x n Hx. by apply V1, Hold.
    + intros x n x' n' Hx Hx'. by eapply V2; apply Hold.
  - intros q p Hq. change (h_pools s !! q = Some p) in Hq. destruct (W8 q p Hq) as [U1 U2 U3 U4 U5 U6 [U7 U8]]. split; try done. split; [|done].
    cbn. rewrite lookup_delete_ne; [done|]. intros ->. by rewrite Hq in HP.
Qed.

Section Xfree.
Context (tol : fault -> Prop).
Context (s : tlsf) (O : gmap Z obj) (B : gmap Z blk) (R : gmap Z (Z * Z)) (F : lists) (HH : heap s O B R F) (Hx : xenpool s <> 0).
Context (q : Z) (o : obj) (Hq : O !! q = Some o).
Let HW := hp_wf _ _ _ _ _ HH.
Context (Q : unit -> tlsf -> Prop).
Context (HQ : forall s' B' R' F', heap s' (delete q O) B' R' F' -> same_data (delete q O) s s' -> xenpool s' = xenpool s -> Q tt s').

Lemma other_obj x y : delete q O !! x = Some y -> O !! x = Some y /\ x <> q /\ o_base y <> o_base o.
Proof using HH Hq.
  intros [Hne Hxy]%lookup_delete_Some. split_and!; [done|done|]. intros E. apply Hne, eq_sym. by eapply (hp_inj _ _ _ _ _ HH).
Qed.

(** The pages of an object go back. *)
Lemma free_pages k : o_home o = InPages k -> heap (s <| h_runs ::= delete (o_base o) |>) (delete q O) B R F.
Proof using HH Hq.
  intros Hk. pose proof (oo_home _ _ _ _ _ (hp_obj _ _ _ _ _ HH q o Hq)) as Ho. rewrite Hk in Ho.
  destruct Ho as (_ & Hr & HR & HP & _). split.
  - by apply wf_runs_less.
  - apply (hp_pool _ _ _ _ _ HH).
  - intros x y (Hxy & Hne & Hb)%other_obj. eapply obj_frame; [by apply (hp_obj _ _ _ _ _ HH)|done| |done|done].
    cbn. by apply lookup_delete_ne.
  - intros x y x' y' (H1 & _ & _)%other_obj (H2 & _ & _)%other_obj. by eapply (hp_inj _ _ _ _ _ HH).
  - intros a n Ha. destruct (hp_used _ _ _ _ _ HH a n Ha) as (x & y & Hxy & E1 & E2). exists x, y. split; [|done].
    apply lookup_delete_Some. split; [|done]. intros <-. congruence.
  - intros r [n Hrn]. cbn in Hrn. apply lookup_delete_Some in Hrn as [Hne Hrn].
    destruct (hp_runs _ _ _ _ _ HH r) as [?|[?|(x & y & j & Hxy & E1 & E2)]]; [by eexists|auto..|]. right. right.
    exists x, y, j. split; [|done]. apply lookup_delete_Some. split; [|done]. intros <-. congruence.
Qed.

(** The block of an object goes back to the pool. *)
Lemma free_block s' n : o_home o = InPool n -> freed s B R (o_base o) s' ->
  exists B' R' F', heap s' (delete q O) B' R' F' /\ same_data (delete q O) s s' /\ xenpool s' = xenpool s.
Proof using HH Hq.
  intros Hn (B' & R' & F' & HW' & HK & EU & HRs & Hrs & Hrn & Hrr).
  pose proof (oo_home _ _ _ _ _ (hp_obj _ _ _ _ _ HH q o Hq)) as Ho. rewrite Hn in Ho.
  assert (forall x y, delete q O !! x = Some y -> obj_ok s' B' R' x y /\ forall z, room_of y z -> h_mem s' z = h_mem s z) as Hobj.
  { intros x y (Hxy & Hne & Hb)%other_obj.
    eapply (obj_kept s O B R F HH s B R F s' B' R' (delete (o_base o) (used_map B)) x y);
      [done|exact HW|apply (kp_mem _ _ _ _ HK)|apply (kp_xen _ _ _ _ HK)|apply (conf_none _ _ _ (kp_conf _ _ _ _ HK))|].
    pose proof (oo_home _ _ _ _ _ (hp_obj _ _ _ _ _ HH x y Hxy)) as Hy. destruct (o_home y) as [m|k].
    - rewrite EU, lookup_delete_ne by done. done.
    - destruct Hy as (_ & _ & HR & _). split_and!; [done|done|by apply Hrn|]. destruct (R' !! o_base y) as [z|] eqn:E; [|done].
      pose proof (lookup_weaken _ _ _ _ E HRs). congruence. }
  exists B', R', F'. split_and!; [split|..].
  - done.
  - destruct (hp_pool _ _ _ _ _ HH) as (p & Hp & E1 & E2). pose proof (f_equal (lookup (xenpool s)) (kp_conf _ _ _ _ HK)) as E.
    rewrite !lookup_fmap, Hp in E. rewrite (kp_xen _ _ _ _ HK). destruct (h_pools s' !! xenpool s) as [p'|]; [|done].
    apply (inj Some) in E. unfold pool_conf in E. injection E as _ F2 _ F4 _. exists p'. split; [done|]. by rewrite F2, F4.
  - intros x y Hxy. by apply Hobj.
  - intros x y x' y' (H1 & _ & _)%other_obj (H2 & _ & _)%other_obj. by eapply (hp_inj _ _ _ _ _ HH).
  - rewrite EU, (kp_xen _ _ _ _ HK). intros a m [Hne Ha]%lookup_delete_Some.
    destruct (hp_used _ _ _ _ _ HH a m Ha) as (x & y & Hxy & E1 & E2). exists x, y. split; [|done].
    apply lookup_delete_Some. split; [|done]. intros <-. congruence.
  - intros r Hr. rewrite (Hrr r Hr). destruct Hr as [m Hr].
    destruct (hp_runs _ _ _ _ _ HH r) as [?|[?|(x & y & j & Hxy & E1 & E2)]]; [|auto|right; left|].
    + exists m. by eapply lookup_weaken.
    + by apply (conf_some _ _ _ (kp_conf _ _ _ _ HK)).
    + right. right. exists x, y, j. split; [|done]. apply lookup_delete_Some. split; [|done]. intros <-. congruence.
  - intros x y z Hxy. by apply (Hobj x y Hxy).
  - apply (kp_xen _ _ _ _ HK).
Qed.

(** The size word at the start of the room: it is even, and tells pages from blocks. *)
Definition room_word : Z := h_mem s (o_base o + 8).

Lemma room_word_spec : mapped s (o_base o + 8) = true /\ Z.land room_word 1 = 0 /\
  match o_home o with
  | InPool _ => room_word < TLSF_PAGE_SIZE
  | InPages k => room_word = TLSF_PAGE_SIZE * 2 ^ k /\ TLSF_PAGE_SIZE <= room_word
  end.
Proof using HH Hq.
  destruct (oo_pad _ _ _ _ _ (hp_obj _ _ _ _ _ HH q o Hq)) as (P1 & _ & _ & P4 & _).
  split; [apply (room_mapped s O B R F HH q o); [done|lia|lia]|].
  pose proof (oo_home _ _ _ _ _ (hp_obj _ _ _ _ _ HH q o Hq)) as Ho. unfold room_word. destruct (o_home o) as [n|k].
  - apply used_lookup in Ho as (b & Hb & Hf & Hs0 & Ek & En). destruct (wf_hdr _ _ _ _ HW _ b Hb) as (_ & _ & ->).
    destruct (ge_align _ _ (wf_geom _ _ _ _ HW) _ b Hb) as (_ & Hm & Hr & _).
    unfold b_word. change 1 with FREE_BLOCK. rewrite word_free, Hf by done. split; [done|].
    destruct (ge_reg _ _ (wf_geom _ _ _ _ HW) _ b Hb) as (m & Hm' & L1 & L2 & _).
    destruct (wf_regs _ _ _ _ HW _ _ _ Hm') as [_ (p & Hp & Hsz)].
    destruct (hp_pool _ _ _ _ _ HH) as (p' & Hp' & Ev & _). rewrite Ek, Hp in Hp'. injection Hp' as <-.
    destruct (pw_prov _ _ _ _ _ (wf_pools _ _ _ _ HW _ p Hp) Ev) as [E1 E2].
    assert (k_size b <= 4096 - 16) as Hle by (unfold TLSF_PAGE_SIZE in *; destruct Hsz; lia).
    unfold word, TLSF_PAGE_SIZE. destruct (k_pfree b); cbn; [|lia].
    destruct (ge_next _ _ (wf_geom _ _ _ _ HW) _ b Hb Hs0) as (c & Hc & _ & _ & Hcr & Hck).
    destruct (ge_reg _ _ (wf_geom _ _ _ _ HW) _ c Hc) as (m' & Hm2 & _ & L3 & _). rewrite Hcr, Hck, Hm' in Hm2. injection Hm2 as <-.
    destruct (ge_align _ _ (wf_geom _ _ _ _ HW) _ c Hc) as (_ & _ & Hsc & _). unfold TLSF_PAGE_SIZE in *. destruct Hsz; lia.
  - destruct Ho as (Hk & _ & _ & _ & -> & _). assert (0 < 2 ^ k) by (apply Z.pow_pos_nonneg; lia). unfold TLSF_PAGE_SIZE. split; [|lia].
    apply land_low; [|done]. rewrite <- Z.mul_mod_idemp_l by done. done.
Qed.

(** From the word of the room on. *)
Lemma wp_xfree_room : wp tol (bsize ← load (f_size (o_base o));
    if TLSF_PAGE_SIZE <=? bsize then free_xenheap_pages (o_base o) (get_order_from_bytes bsize)
    else xp ← gets xenpool; xmem_pool_free (o_base o + 16) xp) Q s.
Proof using All.
  destruct room_word_spec as (W1 & _ & W3). apply wp_bind. apply wp_load_word; [done|]. unfold f_size. fold room_word.
  pose proof (oo_home _ _ _ _ _ (hp_obj _ _ _ _ _ HH q o Hq)) as Ho. destruct (o_home o) as [n|k] eqn:Eh.
  - destruct (Z.leb_spec TLSF_PAGE_SIZE room_word); [lia|]. apply wp_bind. apply wp_gets.
    pose proof Ho as (b & Hb & Hf & Hs0 & Ek & En)%used_lookup. destruct (hp_pool _ _ _ _ _ HH) as (p & Hp & _).
    eapply (wp_pool_free s B R F HW tol (xenpool s) p Hp (o_base o) b Hb Hf Hs0 (eq_sym Ek)). intros s' Hfr.
    destruct (free_block s' n Eh Hfr) as (B' & R' & F' & H1 & H2 & H3). by eapply HQ.
  - destruct W3 as [W3 W4]. destruct (Z.leb_spec TLSF_PAGE_SIZE room_word); [|lia]. destruct Ho as (Hk & Hr & _ & _ & _ & _).
    rewrite W3, order_back by lia. destruct (ro_range _ (wf_runs _ _ _ _ HW) _ _ Hr) as (Hpos & _). unfold TLSF_PAGE_SIZE in Hpos.
    unfold free_xenheap_pages. destruct (Z.eqb_spec (o_base o) 0); [lia|].
    unfold wp, drop_run. rewrite Hr. cbn [default from_option]. rewrite decide_True by done.
    eapply HQ; [by apply (free_pages k)|intros x y z _ _; done|done].
Qed.

Lemma wp_xfree : wp tol (xfree q) Q s.
Proof using All.
  destruct (oo_pad _ _ _ _ _ (hp_obj _ _ _ _ _ HH q o Hq)) as (P1 & P2 & P3 & P4 & P5).
  destruct room_word_spec as (W1 & W2 & _). destruct (obj_run s O B R F HH q o Hq) as (r & n & Hr & R1 & _).
  destruct (ro_range _ (wf_runs _ _ _ _ HW) _ _ Hr) as (Hpos & _). unfold TLSF_PAGE_SIZE in Hpos.
  unfold xfree. change BHDR_OVERHEAD with 16. destruct (Z.eqb_spec q 0); [lia|]. cbn zeta.
  destruct (decide (q = o_base o + 16)) as [E|Hne].
  - assert (q - 16 = o_base o) as -> by lia. apply wp_bind. apply wp_load_word; [done|].
    change (h_mem s (f_size (o_base o))) with room_word. rewrite W2. cbn [negb Z.eqb]. apply wp_bind. apply wp_ret.
    rewrite E. apply wp_xfree_room.
  - pose proof (oo_mark _ _ _ _ _ (hp_obj _ _ _ _ _ HH q o Hq) Hne) as Hmark.
    set (pad := q - (o_base o + 16)) in *. assert (pad mod 16 = 0) as Hp16.
    { unfold pad. replace (q - (o_base o + 16)) with (q - o_base o - 16) by lia. auto. }
    assert (16 <= pad) as Hp1 by (pose proof (mod16_le 0 pad eq_refl Hp16); lia).
    apply wp_bind. apply wp_load_word; [apply (room_mapped s O B R F HH q o); [done|unfold f_size; lia..]|].
    replace (f_size (q - 16)) with (q - 8) by (unfold f_size; lia). rewrite Hmark.
    replace (pad + 1) with (word pad true false) by (unfold word; cbn; lia).
    replace (Z.land (word pad true false) 1) with 1 by (change 1 with FREE_BLOCK at 2; by rewrite word_free).
    cbn [negb Z.eqb].
    assert (Z.land (word pad true false) (u32 (Z.lnot 1)) = pad) as ->.
    { replace (u32 (Z.lnot 1)) with (Z.land (Z.ones 32) (Z.lnot 1)) by reflexivity.
      rewrite Z.land_assoc, Z.land_ones, Z.mod_small by (unfold word, pad; cbn; lia).
      rewrite (word_clear pad true false Hp16 1 false false) by done. unfold word. cbn. lia. }
    assert (q - pad - 16 = o_base o) as -> by (unfold pad; lia). apply wp_bind. apply wp_bind. apply wp_load_word; [done|].
    change (h_mem s (f_size (o_base o))) with room_word. rewrite W2. cbn [negb Z.eqb]. apply wp_ret.
    assert (q - pad = o_base o + 16) as -> by (unfold pad; lia). apply wp_xfree_room.
Qed.
End Xfree.
