(* ===== verification/TlsfMachine.v ===== *)
(** Pools that are created and [tlsf_init]; then the allocator as its clients
    see it: objects that appear, are written and read, and disappear, and the
    simulation of this view by the code. *)
From S2P Require Import Prelude CMonad Tlsf TlsfMap TlsfList TlsfLinks TlsfInv TlsfWf TlsfAlloc TlsfGrow TlsfFree TlsfHeap TlsfXmalloc.

(** * A pool that has just been created *)

Definition new_pool (name : string) (f : provider) (init max grow : Z) : xmem_pool :=
  mk_pool 0 (replicate (Z.to_nat REAL_FLI) 0) (replicate (Z.to_nat REAL_FLI) (replicate (Z.to_nat MAX_SLI) 0))
    (ROUNDUP_PAGE init) (ROUNDUP_PAGE max) (ROUNDUP_PAGE grow) 0 0 f 0 (String.substring 0 15 name).

Lemma new_pool_index name f init max grow : pool_index (new_pool name f init max grow) (fun _ _ => 0).
Proof.
  split; cbn [matrix sl_bitmap fl_bitmap new_pool].
  - apply length_replicate.
  - intros i row [-> _]%lookup_replicate. apply length_replicate.
  - apply length_replicate.
  - intros i j row x _ _ [-> _]%lookup_replicate [-> _]%lookup_replicate. done.
  - intros i w _ [-> _]%lookup_replicate. split; [done|]. intros j _. rewrite Z.bits_0. split; [done|]. by intros [_ []].
  - split; [done|]. intros i _. rewrite Z.bits_0. split; [done|]. intros (w & [-> _]%lookup_replicate & Hw). done.
Qed.

Lemma roundup_page_nonneg x : 0 <= ROUNDUP_PAGE x.
Proof.
  unfold ROUNDUP_PAGE. apply Z.land_nonneg. left. pose proof (wrap_range 64 ltac:(lia) (x + TLSF_PAGE_SIZE - 1)) as H.
  unfold urange in H. lia.
Qed.

(** What a pool may be created with. *)
Definition create_ok (f : provider) (init max grow : Z) : Prop :=
  size_ok (ROUNDUP_PAGE init) /\ size_ok (ROUNDUP_PAGE grow) /\ (max = 0 \/ init <= max) /\
  (f = XmallocPool -> ROUNDUP_PAGE init = TLSF_PAGE_SIZE /\ ROUNDUP_PAGE grow = TLSF_PAGE_SIZE).

Section Create.
Context (s : tlsf) (B : gmap Z blk) (R : gmap Z (Z * Z)) (F : lists) (HW : wf s B R F).

(** A pool that is not there has no blocks, regions or lists. *)
Lemma absent_pool a : h_pools s !! a = None -> (forall i j, F a i j = []) /\ (forall x b, B !! x = Some b -> k_pool b <> a) /\
  (forall r n, R !! r <> Some (a, n)).
Proof using HW.
  intros Ha. assert (forall r n, R !! r <> Some (a, n)) as HR.
  { intros r n Hr. apply (wf_regs _ _ _ _ HW) in Hr as [_ (p & Hp & _)]. congruence. }
  split_and!; [..|done].
  - intros i j. destruct (F a i j) as [|x l] eqn:E; [done|].
    destruct (lo_pool _ _ (wf_lists _ _ _ _ HW) a i j x) as [[p Hp] _]; [rewrite E; by left|congruence].
  - intros x b Hb E. destruct (ge_reg _ _ (wf_geom _ _ _ _ HW) x b Hb) as (n & Hn & _). rewrite E in Hn. by apply (HR (k_reg b) n).
Qed.

Lemma msum_zero {A} (f : A -> Z) (m : gmap Z A) : (forall k x, m !! k = Some x -> f x = 0) -> msum f m = 0.
Proof using Type.
  induction m as [|k x m Hk IH] using map_ind; intros Hf; [done|]. rewrite msum_insert by done.
  rewrite (Hf k x) by apply lookup_insert_eq. rewrite IH; [done|]. intros k' x' Hx. apply (Hf k').
  by rewrite lookup_insert_ne by congruence.
Qed.

Lemma wf_create a bytes name f init max grow s' : a <> 0 -> 0 < bytes -> fresh_run (h_runs s) a bytes ->
  create_ok f init max grow ->
  h_mem s' = h_mem s -> h_runs s' = <[a := bytes]> (h_runs s) -> h_pools s' = <[a := new_pool name f init max grow]> (h_pools s) ->
  wf s' B R F /\ h_pools s !! a = None.
Proof using HW.
  intros Hne Hb Hf (C1 & C2 & _ & C4) Em Er Ep. destruct (runs_ok_insert _ a bytes (wf_runs _ _ _ _ HW) Hne Hb Hf) as [Hn Hro].
  assert (h_pools s !! a = None) as Hpa.
  { destruct (h_pools s !! a) as [p|] eqn:E; [|done]. destruct (pw_own _ _ _ _ _ (wf_pools _ _ _ _ HW a p E)) as [[m Hm] _]. congruence. }
  split; [|done]. destruct (absent_pool a Hpa) as (HFa & HBa & HRa).
  assert (wf (s' <| h_pools := h_pools s |>) B R F) as HW1.
  { eapply (wf_runs_more s); [done|done|done|cbn; rewrite Er; by apply insert_subseteq|cbn; by rewrite Er]. }
  destruct HW1 as [W1 W2 W3 W4 W5 W6 W7 W8]. split; try done.
  - destruct W3 as [L1 L2 L3 L4 L5 L6]. split; try done.
    + rewrite Ep. intros q p Hq. apply lookup_insert_Some in Hq as [[<- <-]|[_ Hq]]; [|by apply L1].
      pose proof (new_pool_index name f init max grow) as [I1 I2 I3 I4 I5 I6]. split; try done.
      * intros i j row x H1 H2 H3 H4. rewrite HFa. exact (I4 i j row x H1 H2 H3 H4).
      * intros i w H1 H2. destruct (I5 i w H1 H2) as [H3 H4]. split; [done|]. intros j Hj. rewrite HFa. by apply H4.
    + rewrite Ep. intros q i j x Hx. destruct (L4 q i j x Hx) as [H1 H2]. split; [|done]. by apply lookup_insert_is_Some'; right.
  - rewrite Ep. intros r q n Hr. destruct (W6 r q n Hr) as [H1 (p & Hp & Hsz)]. split; [done|]. exists p. split; [|done].
    rewrite lookup_insert_ne; [done|]. intros <-. by apply (HRa r n).
  - rewrite Ep. intros q p Hq. apply lookup_insert_Some in Hq as [[<- <-]|[_ Hq]]; [|by apply (W8 q)].
    assert (R !! a = None) as HRn.
    { destruct (R !! a) as [[q m]|] eqn:E; [|done]. apply (wf_regs _ _ _ _ HW) in E as [E _]. congruence. }
    split; cbn; try done; [..|apply roundup_page_nonneg|split; [rewrite Er, lookup_insert_eq; by eexists|done]].
    + rewrite msum_zero; [done|]. intros x b Hx. unfold wt. rewrite decide_False; [done|]. intros [E _]. by apply (HBa x b).
    + rewrite msum_zero; [done|]. intros r [q n] Hr. unfold rt. cbn. rewrite decide_False; [done|]. intros ->. by apply (HRa r n).
Qed.
End Create.

(** [xmem_pool_create]. *)
Section PoolCreate.
Context (env : TlsfEnv) (HE : env_ok env) (tol : fault -> Prop).
Context (s : tlsf) (name : string) (f : provider) (init max grow : Z) (Hok : create_ok f init max grow).
Context (l : list Z) (Hl : pool_list_head s = Some l).
Context (Q : Z -> tlsf -> Prop).
Context (Q0 : no_pages env -> Q 0 (s <| h_asked ::= S |>)).
Context (Q1 : forall s' a bytes, a <> 0 -> 0 < bytes -> fresh_run (h_runs s) a bytes -> h_mem s' = h_mem s ->
  h_runs s' = <[a := bytes]> (h_runs s) -> h_pools s' = <[a := new_pool name f init max grow]> (h_pools s) ->
  pool_list_head s' = Some (l ++ [a]) -> xenpool s' = xenpool s -> Q a s').

Lemma wp_pool_create : wp tol (xmem_pool_create env name f init max grow) Q s.
Proof using All.
  destruct Hok as (_ & _ & Hm & _). unfold xmem_pool_create.
  assert (negb (max =? 0) && (max <? init) = false) as ->.
  { destruct (Z.eqb_spec max 0), (Z.ltb_spec max init); try done; lia. }
  set (bytes := s32 (ROUNDUP_SIZE (te_pool_size env))).
  assert (0 < bytes < 2 ^ 63) as Hb.
  { pose proof (eo_pool _ HE) as Hp. unfold bytes, ROUNDUP_SIZE. change (TLSF_MEM_ALIGN - 1) with (2 ^ 4 - 1).
    change (te_pool_size env + TLSF_MEM_ALIGN - 1) with (te_pool_size env + 16 - 1).
    rewrite (wrap_id 64) by (unfold urange; lia). rewrite land_lnot_low by lia. change (2 ^ 4) with 16.
    set (x := te_pool_size env + 16 - 1). pose proof (Z.mod_pos_bound x 16 ltac:(lia)). pose proof (Z.div_mod x 16 ltac:(lia)).
    rewrite s32_small by (subst x; lia). subst x. lia. }
  destruct (order_spec bytes Hb) as (K1 & _). set (k := get_order_from_bytes bytes) in *. cbn zeta.
  assert (0 < 2 ^ k) by (apply Z.pow_pos_nonneg; lia).
  unfold alloc_xenheap_pages, tick, take_run. wp_steps.
  set (a := te_pages env (h_runs s) (h_asked s) k). pose proof (eo_pages _ HE (h_runs s) (h_asked s) k K1) as Hf. fold a in Hf.
  change (te_pages env (h_runs (s <| h_asked ::= S |>)) (h_asked s) k) with a.
  destruct (Z.eqb_spec a 0) as [E|Hne].
  - wp_steps. rewrite (proj2 (Z.eqb_eq a 0) E). apply wp_ret. apply Q0. by exists (h_runs s), (h_asked s), k.
  - wp_steps. destruct (Z.eqb_spec a 0); [done|]. wp_steps. 
    match goal with |- context [match pool_list_head ?x with _ => _ end] => change (pool_list_head x) with (pool_list_head s) end.
    rewrite Hl. wp_steps.
    eapply (Q1 _ a (TLSF_PAGE_SIZE * 2 ^ k)); try done; unfold TLSF_PAGE_SIZE; lia.
Qed.
End PoolCreate.

(** * The start *)

(** Nothing has been allocated yet. *)
Definition at_boot (s : tlsf) : Prop := h_runs s = ∅ /\ h_pools s = ∅ /\ xenpool s = 0.

Lemma wf_boot s : at_boot s -> wf s ∅ ∅ (fun _ _ _ => []).
Proof.
  intros (Er & Ep & _). split; try done.
  - split; [| |by intros ? ? ? ? H%not_elem_of_nil|by intros ? ? ? ? H%not_elem_of_nil|by intros ? ? ? ? ? ? ? H%not_elem_of_nil|].
    + rewrite Ep. intros pa p Hp. done.
    + done.
    + intros. apply NoDup_nil_2.
  - intros x pa fl sl. split; [by intros H%not_elem_of_nil|]. intros (b & Hb & _). done.
  - rewrite Er. split; intros; done.
  - rewrite Ep. intros; done.
Qed.

Section Init.
Context (env : TlsfEnv) (HE : env_ok env) (s : tlsf) (Hboot : at_boot s).
Context (tol : fault -> Prop) (Htol : no_pages env -> tol BugOn).

Lemma init_create_ok : create_ok XmallocPool TLSF_PAGE_SIZE 0 TLSF_PAGE_SIZE.
Proof using Type. unfold create_ok, size_ok. change (ROUNDUP_PAGE TLSF_PAGE_SIZE) with 4096. unfold TLSF_PAGE_SIZE. split_and!; auto; lia. Qed.

Lemma wp_tlsf_init (Q : unit -> tlsf -> Prop) :
  (forall s', heap s' ∅ ∅ ∅ (fun _ _ _ => []) -> xenpool s' <> 0 -> Q tt s') -> wp tol (tlsf_init env) Q s.
Proof using All.
  intros HQ. unfold tlsf_init. wp_steps. set (s1 := s <| pool_list_head := Some [] |>).
  eapply (wp_pool_create env HE tol s1 "xmalloc" XmallocPool TLSF_PAGE_SIZE 0 TLSF_PAGE_SIZE init_create_ok []); [done|..].
  - intros Hno. wp_steps. by apply Htol.
  - intros s' a bytes Hne Hb Hf Em Er Ep _ _. wp_steps. destruct (Z.eqb_spec a 0); [done|]. apply wp_ret.
    match goal with |- Q _ ?x => set (s2 := x) end.
    destruct (wf_create s1 ∅ ∅ (fun _ _ _ => []) (wf_boot s1 Hboot) a bytes _ _ _ _ _ s2 Hne Hb Hf init_create_ok Em Er Ep) as [HW _].
    apply HQ; [|done]. split; try done.
    + eexists. cbn. rewrite Ep. split; [apply lookup_insert_eq|]. done.
    + intros r [m Hr]. cbn in Hr. rewrite Er in Hr. change (h_runs s1) with (h_runs s) in Hr.
      destruct Hboot as (Eb & _ & _). rewrite Eb in Hr.
      apply lookup_insert_Some in Hr as [[<- _]|[_ Hr]]; [|done]. right. left. cbn. rewrite Ep, lookup_insert_eq. by eexists.
Qed.
End Init.

(** * The heap or its start *)

Definition ready (s : tlsf) (O : gmap Z obj) : Prop := xenpool s <> 0 /\ exists B R F, heap s O B R F.
Definition allocator (s : tlsf) (O : gmap Z obj) : Prop := at_boot s /\ O = ∅ \/ ready s O.

(** The only fault: [tlsf_init] gets no page. *)
Definition init_failure (env : TlsfEnv) (f : fault) : Prop := f = BugOn /\ no_pages env.

Section Ops.
Context (env : TlsfEnv) (HE : env_ok env).
Let tol := init_failure env.
Context (s : tlsf) (O : gmap Z obj) (HA : allocator s O).

Lemma wp_xmalloc size align j (Q : Z -> tlsf -> Prop) : 0 <= size <= 2 ^ 29 -> 0 <= align <= 2 ^ 28 -> align_exp align j ->
  (forall s', ready s' O -> same_data O s s' -> no_pages env -> Q 0 s') ->
  (forall s' q o, ready s' (<[q := o]> O) -> O !! q = None -> o_size o = size -> q mod 2 ^ j = 0 -> 0 < q ->
     same_data O s s' -> Q q s') ->
  wp tol (_xmalloc env size align) Q s.
Proof using HE HA.
  intros Hs Ha Hj Q0 Q1. destruct (align_exp_spec align j Hj Ha) as (E1 & E2 & Hjr).
  assert (2 ^ 4 <= 2 ^ j <= 2 ^ 28) as Hjp by (split; apply Z.pow_le_mono_r; lia).
  unfold _xmalloc. rewrite E1, E2. cbn [negb Z.eqb]. cbn zeta. change TLSF_MEM_ALIGN with 16.
  rewrite (wrap_id 64) by (unfold urange; lia). apply wp_bind. apply wp_gets. apply wp_bind.
  destruct HA as [[Hb ->]|(Hx & B & R & F & HH)].
  - rewrite (proj2 (proj2 Hb)). cbn [Z.eqb]. apply (wp_tlsf_init env HE s Hb tol); [by split|]. intros s1 HH Hx.
    eapply (wp_xmalloc_rest env HE tol s1 ∅ _ _ _ HH Hx size align j Hs Ha Hj).
    + intros s' B' R' F' M1 M2 M3 M4. apply Q0; [|by intros ? ? ? ?|done]. split; [congruence|]. by exists B', R', F'.
    + intros s' B' R' F' q o M1 M2 M3 M4 M5 M6 M7. apply (Q1 s' q o); try done. split; [congruence|]. by exists B', R', F'.
  - destruct (Z.eqb_spec (xenpool s) 0); [done|]. apply wp_ret.
    eapply (wp_xmalloc_rest env HE tol s O B R F HH Hx size align j Hs Ha Hj).
    + intros s' B' R' F' M1 M2 M3 M4. apply Q0; [|done|done]. split; [congruence|]. by exists B', R', F'.
    + intros s' B' R' F' q o M1 M2 M3 M4 M5 M6 M7. apply (Q1 s' q o); try done. split; [congruence|]. by exists B', R', F'.
Qed.

Lemma wp_xfree_obj q o (Q : unit -> tlsf -> Prop) : O !! q = Some o ->
  (forall s', ready s' (delete q O) -> same_data (delete q O) s s' -> Q tt s') -> wp tol (xfree q) Q s.
Proof using HA.
  intros Hq HQ. destruct HA as [[_ ->]|(Hx & B & R & F & HH)]; [done|].
  eapply (wp_xfree tol s O B R F HH Hx q o Hq). intros s' B' R' F' M1 M2 M3. apply HQ; [|done].
  split; [congruence|]. by exists B', R', F'.
Qed.

(** Two objects lie one after the other. *)
Lemma objs_apart q o q' o' : O !! q = Some o -> O !! q' = Some o' -> q <> q' ->
  q + o_size o <= q' \/ q' + o_size o' <= q.
Proof using HA.
  intros Hq Hq' Hne. destruct HA as [[_ ->]|(_ & B & R & F & HH)]; [done|].
  destruct (oo_pad _ _ _ _ _ (hp_obj _ _ _ _ _ HH q o Hq)) as (P1 & _ & P2 & P3 & _).
  destruct (oo_pad _ _ _ _ _ (hp_obj _ _ _ _ _ HH q' o' Hq')) as (P1' & _ & P2' & P3' & _).
  pose proof (rooms_apart s O B R F HH q o q' o' (o_base o) Hq Hq' Hne).
  pose proof (rooms_apart s O B R F HH q o q' o' (o_base o') Hq Hq' Hne). lia.
Qed.
End Ops.

(** * The machine of objects *)

(** Live objects with their sizes and the words that were written to them. *)
Abbreviation objects := (gmap Z (Z * gmap Z Z)).

Inductive xop :=
  | XAlloc (size align : Z)
  | XArray (size align num : Z)
  | XFree (q : Z)
  | XWrite (q off v : Z)
  | XRead (q off : Z).

Definition run_xop (env : TlsfEnv) (op : xop) : M tlsf Z :=
  match op with
  | XAlloc size align => _xmalloc env size align
  | XArray size align num => _xmalloc_array env size align num
  | XFree q => xfree q;; mret 0
  | XWrite q off v => store (q + off) v;; mret 0
  | XRead q off => load (q + off)
  end.

Definition aligned_ok (size align : Z) : Prop := 0 <= size <= 2 ^ 29 /\ 0 <= align <= 2 ^ 28 /\ exists j, align_exp align j.
Definition too_many (size num : Z) : Prop := size <> 0 /\ 0xFFFFFFFF / size < num.

(** What a client may ask. *)
Definition xallowed (H : objects) (op : xop) : Prop :=
  match op with
  | XAlloc size align => aligned_ok size align
  | XArray size align num => 0 <= size < 2 ^ 32 /\ 0 <= num < 2 ^ 32 /\ (too_many size num \/ aligned_ok (size * num) align)
  | XFree q => q = 0 \/ is_Some (H !! q)
  | XWrite q off v => exists n W, H !! q = Some (n, W) /\ 0 <= off /\ off mod 8 = 0 /\ off + 8 <= n
  | XRead q off => exists n W, H !! q = Some (n, W) /\ is_Some (W !! off)
  end.

(** NULL, or an object that is aligned and lies beside all others. *)
Definition alloc_answer (refusal : Prop) (H : objects) (size align r : Z) (H' : objects) : Prop :=
  r = 0 /\ refusal /\ H' = H \/
  0 < r /\ r mod 16 = 0 /\ (align <> 0 -> r mod align = 0) /\ H !! r = None /\ H' = <[r := (size, ∅)]> H /\
  forall q n W, H !! q = Some (n, W) -> q + n <= r \/ r + size <= q.

Definition xstep (env : TlsfEnv) (H : objects) (op : xop) (r : Z) (H' : objects) : Prop :=
  match op with
  | XAlloc size align => alloc_answer (no_pages env) H size align r H'
  | XArray size align num => alloc_answer (too_many size num \/ no_pages env) H (size * num) align r H'
  | XFree q => r = 0 /\ H' = delete q H
  | XWrite q off v => r = 0 /\ H' = alter (fun nW => (nW.1, <[off := v]> nW.2)) q H
  | XRead q off => H' = H /\ exists n W, H !! q = Some (n, W) /\ W !! off = Some r
  end.

(** The states a client can bring about. *)
Inductive xreach (env : TlsfEnv) : tlsf -> objects -> Prop :=
  | xreach_boot s : at_boot s -> xreach env s ∅
  | xreach_step s H op r s' H' : xreach env s H -> xallowed H op -> run_xop env op s = Ret r s' ->
      xstep env H op r H' -> xreach env s' H'.

(** * The code simulates it *)

Record xrel (s : tlsf) (O : gmap Z obj) (H : objects) : Prop := {
  xr_alloc : allocator s O;
  xr_objs : forall q, fst <$> H !! q = o_size <$> O !! q;
  xr_words : forall q n W off v, H !! q = Some (n, W) -> W !! off = Some v ->
    0 <= off /\ off mod 8 = 0 /\ off + 8 <= n /\ h_mem s (q + off) = v;
}.

Section Sim.
Context (env : TlsfEnv) (HE : env_ok env).
Context (s : tlsf) (O : gmap Z obj) (H : objects) (HX : xrel s O H).
Let HA := xr_alloc _ _ _ HX.

Lemma xr_some q n W : H !! q = Some (n, W) -> exists o, O !! q = Some o /\ o_size o = n.
Proof using HX.
  intros Hq. pose proof (xr_objs _ _ _ HX q) as E. rewrite Hq in E. destruct (O !! q) as [o|]; [|done]. exists o. split; [done|].
  by injection E.
Qed.

Lemma xr_none q : H !! q = None <-> O !! q = None.
Proof using HX. pose proof (xr_objs _ _ _ HX q) as E. split; intros E0; rewrite E0 in E; [by destruct (O !! q)|by destruct (H !! q)]. Qed.

(** A word of an object is in its room. *)
Lemma word_room q o off : O !! q = Some o -> 0 <= off -> off + 8 <= o_size o -> room_of o (q + off) /\ mapped s (q + off) = true.
Proof using HX.
  intros Hq H1 H2. pose proof (xr_alloc _ _ _ HX) as HA0; destruct HA0 as [[_ E]|(_ & B & R & F & HH)]; [by rewrite E in Hq|].
  destruct (oo_pad _ _ _ _ _ (hp_obj _ _ _ _ _ HH q o Hq)) as (P1 & _ & P2 & _).
  split; [unfold room_of; lia|]. apply (room_mapped s O B R F HH q o); [done|lia|lia].
Qed.

(** A state with the objects of [H] and [O] less or more. *)
Lemma xrel_same s' O' H' : allocator s' O' -> same_data O s s' -> (forall q, fst <$> H' !! q = o_size <$> O' !! q) ->
  (forall q n W off v, H' !! q = Some (n, W) -> W !! off = Some v -> H !! q = Some (n, W)) -> xrel s' O' H'.
Proof using HX.
  intros HA' Hd Ho Hw. split; [done|done|]. intros q n W off v Hq HW.
  pose proof (Hw _ _ _ _ _ Hq HW) as Hq0. destruct (xr_words _ _ _ HX q n W off v Hq0 HW) as (G1 & G2 & G3 & G4).
  split_and!; try done. destruct (xr_some q n W Hq0) as (o & Hqo & Eo). rewrite (Hd q o); [done|done|].
  apply word_room; [done|done|lia].
Qed.

Definition sim_post (op : xop) (r : Z) (s' : tlsf) : Prop := exists O' H', xrel s' O' H' /\ xstep env H op r H'.

Lemma sim_alloc size align (refusal : Prop) (Q : Z -> tlsf -> Prop) : aligned_ok size align -> (no_pages env -> refusal) ->
  (forall r s', (exists O' H', xrel s' O' H' /\ alloc_answer refusal H size align r H') -> Q r s') ->
  wp (init_failure env) (_xmalloc env size align) Q s.
Proof using HE HX.
  intros (Hs & Ha & j & Hj) Hr HQ. destruct (align_exp_spec align j Hj Ha) as (_ & _ & Hjr).
  assert (forall q, q mod 2 ^ j = 0 -> q mod 16 = 0 /\ (align <> 0 -> q mod align = 0)) as Hmod.
  { intros q Hq. assert (forall i, 0 <= i <= j -> q mod 2 ^ i = 0) as Hdiv.
    { intros i Hi. rewrite <- (Z.mod_mod_divide q (2 ^ j) (2 ^ i)), Hq; [apply Z.mod_0_l, Z.pow_nonzero; lia|].
      exists (2 ^ (j - i)). rewrite <- Z.pow_add_r by lia. f_equal. lia. }
    split; [by apply (Hdiv 4); lia|]. intros Hne. destruct Hj as [[-> _]|(i & Hi & -> & ->)]; [done|]. apply Hdiv. lia. }
  eapply (wp_xmalloc env HE s O HA size align j); [done|done|done|..].
  - intros s' M1 M2 M3. apply HQ. exists O, H. split; [|left; auto].
    apply xrel_same; [by right|done|apply (xr_objs _ _ _ HX)|done].
  - intros s' q o M1 M2 M3 M4 M5 M6. apply HQ. exists (<[q := o]> O), (<[q := (size, ∅)]> H). split.
    + apply xrel_same; [by right|done|..].
      * intros x. destruct (decide (x = q)) as [->|Hne]; [rewrite (lookup_insert_eq H), (lookup_insert_eq O); cbn; by rewrite M3|].
        rewrite (lookup_insert_ne H), (lookup_insert_ne O) by done. apply (xr_objs _ _ _ HX).
      * intros x n W off v Hx HW. apply lookup_insert_Some in Hx as [[<- [= <- <-]]|[_ Hx]]; [by rewrite lookup_empty in HW|done].
    + right. destruct (Hmod q M4). split_and!; try done; [by apply xr_none|].
      intros x n W Hx. destruct (xr_some x n W Hx) as (y & Hy & <-). assert (q <> x) as Hne by congruence.
      assert (<[q := o]> O !! x = Some y) as Hy' by (by rewrite lookup_insert_ne).
      destruct (objs_apart s' (<[q := o]> O) (or_intror M1) q o x y (lookup_insert_eq _ _ _) Hy' Hne); [right; lia|by left].
Qed.

Lemma sim_free q : xallowed H (XFree q) -> wp (init_failure env) (run_xop env (XFree q)) (sim_post (XFree q)) s.
Proof using HX.
  intros Hq. cbn [run_xop]. apply wp_bind. destruct Hq as [->|[[n W] Hq]].
  - unfold xfree. cbn [Z.eqb]. apply wp_ret. apply wp_ret. exists O, H. split; [done|]. split; [done|].
    symmetry. apply delete_id. destruct (H !! 0) as [[n W]|] eqn:E; [|done]. exfalso.
    destruct (xr_some 0 n W E) as (o & Ho & _). pose proof (xr_alloc _ _ _ HX) as HA0; destruct HA0 as [[_ E']|(_ & B & R & F & HH)]; [by rewrite E' in Ho|].
    destruct (oo_pad _ _ _ _ _ (hp_obj _ _ _ _ _ HH 0 o Ho)) as (P1 & _). destruct (obj_run s O B R F HH 0 o Ho) as (r & m & Hr & L1 & _).
    destruct (ro_range _ (wf_runs _ _ _ _ (hp_wf _ _ _ _ _ HH)) r m Hr) as (L2 & _). unfold TLSF_PAGE_SIZE in L2. lia.
  - destruct (xr_some q n W Hq) as (o & Ho & _). eapply (wp_xfree_obj env s O HA q o); [done|]. intros s' M1 M2. apply wp_ret.
    exists (delete q O), (delete q H). split; [|done]. split; [by right|..].
    + intros x. destruct (decide (x = q)) as [->|Hne]; [by rewrite (lookup_delete_eq H), (lookup_delete_eq O)|].
      rewrite (lookup_delete_ne H), (lookup_delete_ne O) by done.
      apply (xr_objs _ _ _ HX).
    + intros x m V off v [Hne Hx]%lookup_delete_Some HV. destruct (xr_words _ _ _ HX x m V off v Hx HV) as (H1 & H2 & H3 & H4).
      split_and!; try done. destruct (xr_some x m V Hx) as (y & Hy & Ey).
      rewrite (M2 x y); [done|by rewrite lookup_delete_ne|]. apply word_room; [done|done|lia].
Qed.

Lemma sim_write q off v : xallowed H (XWrite q off v) ->
  wp (init_failure env) (run_xop env (XWrite q off v)) (sim_post (XWrite q off v)) s.
Proof using HX.
  intros (n & W & Hq & H1 & H2 & H3). destruct (xr_some q n W Hq) as (o & Ho & Eo).
  destruct (word_room q o off Ho H1 ltac:(lia)) as [Hroom Hm]. cbn [run_xop]. apply wp_bind. apply wp_store_word; [done|]. apply wp_ret.
  match goal with |- sim_post _ _ ?x => set (s' := x) end.
  exists O, (alter (fun nW => (nW.1, <[off := v]> nW.2)) q H). split; [|done].
  pose proof (xr_alloc _ _ _ HX) as HA0; destruct HA0 as [[_ E]|(Hx & B & R & F & HH)]; [by rewrite E in Ho|]. split.
  - right. split; [done|]. exists B, R, F. eapply (heap_write s O B R F HH q o (q + off)); [done|lia|lia|done].
  - intros x. destruct (decide (x = q)) as [->|Hne]; [rewrite (lookup_alter_eq _ H), Hq; cbn; by rewrite Ho; cbn; rewrite Eo|].
    rewrite (lookup_alter_ne _ H) by done. apply (xr_objs _ _ _ HX).
  - intros x m V off' v' Hx' HV. destruct (decide (x = q)) as [->|Hne].
    + rewrite (lookup_alter_eq _ H), Hq in Hx'. injection Hx' as <- <-. cbn in HV.
      apply lookup_insert_Some in HV as [[<- <-]|[Hoff HV]]; [split_and!; try done; apply upd_eq|].
      destruct (xr_words _ _ _ HX q n W off' v' Hq HV) as (G1 & G2 & G3 & G4). split_and!; try done. cbn. rewrite upd_ne by lia. done.
    + rewrite (lookup_alter_ne _ H) in Hx' by done. destruct (xr_words _ _ _ HX x m V off' v' Hx' HV) as (G1 & G2 & G3 & G4).
      split_and!; try done. cbn. rewrite upd_ne; [done|]. intros E. destruct (xr_some x m V Hx') as (y & Hy & Ey).
      destruct (word_room x y off' Hy G1 ltac:(lia)) as [Hry _].
      destruct (oo_pad _ _ _ _ _ (hp_obj _ _ _ _ _ HH q o Ho)) as (P1 & _). destruct (oo_pad _ _ _ _ _ (hp_obj _ _ _ _ _ HH x y Hy)) as (P1' & _).
      unfold room_of in *. apply (rooms_apart s O B R F HH q o x y (q + off) Ho Hy (not_eq_sym Hne)); lia.
Qed.

Lemma sim_read q off : xallowed H (XRead q off) -> wp (init_failure env) (run_xop env (XRead q off)) (sim_post (XRead q off)) s.
Proof using HX.
  intros (n & W & Hq & [v Hv]). destruct (xr_some q n W Hq) as (o & Ho & Eo).
  destruct (xr_words _ _ _ HX q n W off v Hq Hv) as (H1 & H2 & H3 & H4).
  destruct (word_room q o off Ho H1 ltac:(lia)) as [_ Hm]. cbn [run_xop]. apply wp_load_word; [done|]. rewrite H4.
  exists O, H. split; [done|]. split; [done|]. by exists n, W.
Qed.

Lemma sim_step op : xallowed H op -> wp (init_failure env) (run_xop env op) (sim_post op) s.
Proof using HE HX.
  destruct op as [size align|size align num|q|q off v|q off]; [..|apply sim_free|apply sim_write|apply sim_read]; intros Hop.
  - eapply sim_alloc; [exact Hop|exact id|]. intros r s' (O' & H' & M1 & M2). by exists O', H'.
  - cbn [run_xop]. unfold _xmalloc_array. destruct Hop as (H1 & H2 & Hop).
    destruct (negb (size =? 0) && (0xFFFFFFFF / size <? num)) eqn:E.
    + apply andb_true_iff in E as [E1 E2%Z.ltb_lt]. apply wp_ret. exists O, H. split; [done|]. left. split; [done|]. split; [|done].
      left. split; [|done]. by destruct (Z.eqb_spec size 0).
    + assert (~ too_many size num) as Hno.
      { intros [N1 N2]. apply andb_false_iff in E as [E|E%Z.ltb_ge]; [|lia]. by destruct (Z.eqb_spec size 0). }
      destruct Hop as [?|Hop]; [by destruct Hno|]. destruct Hop as (L1 & L2). rewrite (wrap_id 64) by (unfold urange; lia).
      apply (sim_alloc (size * num) align (too_many size num \/ no_pages env)); [by split|by intros; right|]. intros r s' (O' & H' & M1 & M2). by exists O', H'.
Qed.
End Sim.

Lemma xreach_rel env s H : env_ok env -> xreach env s H -> exists O, xrel s O H.
Proof.
  intros HE. induction 1 as [s Hb|s H op r s' H' _ [O HX] Hop Hrun Hstep].
  - exists ∅. split; [by left|done|done].
  - pose proof (sim_step env HE s O H HX op Hop) as Hw. unfold wp in Hw. rewrite Hrun in Hw. destruct Hw as (O' & H2 & HX' & Hs2).
    assert (H2 = H') as ->; [|by exists O']. destruct op; cbn in Hstep, Hs2; unfold alloc_answer in *; try naive_solver lia.
Qed.

(** The machine goes on after a step that returned. *)
Lemma xreach_next env s H op (ok : Z -> bool) : env_ok env -> xreach env s H -> xallowed H op ->
  returns (run_xop env op) s ok = true ->
  exists r H', ok r = true /\ xstep env H op r H' /\ xreach env (state_after (run_xop env op) s) H'.
Proof.
  intros HE HR Hop Hret. destruct (xreach_rel env s H HE HR) as [O HX].
  destruct (wp_after _ _ _ _ _ Hret (sim_step env HE s O H HX op Hop)) as (r & Hok & Hrun & O' & H' & HX' & Hs).
  exists r, H'. split; [done|]. split; [done|]. by eapply xreach_step.
Qed.

(** * A page allocator *)

(** The first page after all that is taken. *)
Definition top_of (runs : gmap Z Z) : Z := foldr (fun r acc => Z.max (r.1 + r.2) acc) 0 (map_to_list runs).
Definition next_page (x : Z) : Z := (x / TLSF_PAGE_SIZE + 1) * TLSF_PAGE_SIZE.
Definition bump (runs : gmap Z Z) (bytes : Z) : Z :=
  let a := next_page (top_of runs) in if a + bytes <=? 2 ^ 40 then a else 0.
Definition bump_env : TlsfEnv :=
  mk_tlsf_env (fun runs _ order => bump runs (TLSF_PAGE_SIZE * 2 ^ order)) (fun runs _ _ bytes => bump runs bytes) 6272.

Lemma top_of_spec runs r n : runs !! r = Some n -> r + n <= top_of runs.
Proof.
  intros Hr%elem_of_map_to_list. unfold top_of. revert Hr. induction (map_to_list runs) as [|[r' n'] l IH]; intros Hin.
  - by apply not_elem_of_nil in Hin.
  - cbn. apply elem_of_cons in Hin as [[= -> ->]|Hin]; [lia|]. specialize (IH Hin). lia.
Qed.

Lemma top_of_nonneg runs : 0 <= top_of runs.
Proof. unfold top_of. induction (map_to_list runs) as [|[r n] l IH]; cbn; lia. Qed.

Lemma bump_fresh runs bytes : fresh_run runs (bump runs bytes) bytes.
Proof.
  unfold bump, next_page. pose proof (top_of_nonneg runs) as Hn. set (x := top_of runs) in *.
  pose proof (Z.div_mod x TLSF_PAGE_SIZE ltac:(done)) as Hd. pose proof (Z.mod_pos_bound x TLSF_PAGE_SIZE ltac:(done)).
  unfold TLSF_PAGE_SIZE in *. assert (0 <= x / 4096) by (apply Z.div_pos; lia).
  destruct (Z.leb_spec ((x / 4096 + 1) * 4096 + bytes) (2 ^ 40)); [right|by left]. split_and!; [unfold TLSF_PAGE_SIZE; lia|..|lia|].
  - replace 4096 with (256 * 16) at 2 by done. rewrite Z.mul_assoc. by apply Z.mod_mul.
  - intros r n Hr. left. pose proof (top_of_spec runs r n Hr). fold x in H2. lia.
Qed.

Lemma bump_env_ok : env_ok bump_env.
Proof. split; [intros; apply bump_fresh..|done]. Qed.
