(* ===== verification/CacheProps.v ===== *)
(** The properties of the cache of xen/common/mcd.c, each with an instance on
    the machine of [Demo]. *)
From S2P Require Import Prelude CMonad Hash Types State Core Evict Inv Remove Evicted EvictShared EvictPart Alloc Create Ops View OpsLib OpsMake OpsSpec Flush Display Admin AdminSpec Lifecycle Hypercall Reach Demo.
Import NoDaemon.

Section Safety.
Context {B : Type} `{!Minf B, !MinfLaws B} (env : Env) (tol : fault -> Prop).
Context (Hmini : forall b : B, mcdctl_enabled b = true -> tol NullDeref).
Context (Hnow : forall n, env_now env n <> 0) (Hdiv : tol DivByZero) (Hoob : tol OutOfBounds).
Context {C : Type} (mcdctl_op : C -> M (gstate B) Z).
Implicit Types s : gstate B.

(** C1. Every admissible step - a hypercall of a running domain, the start or
    the end of a domain, a change of its pages - started in a state that
    satisfies the invariant returns (no loop outruns a bound larger than the
    number of entries), raises none but the tolerated faults (a division by
    zero, an index out of range, and a NULL dereference when a daemon is
    attached), and leaves a state that satisfies the invariant and has at
    most one entry more. *)
Theorem step_safe ev s : hv_ok s -> (num s < env_fuel env)%nat -> event_ok ev s ->
  wp tol (do_event env mcdctl_op ev) (fun _ s' => hv_ok s' /\ (num s' <= S (num s))%nat) s.
Proof. intros Hv Hf Hok. by apply do_event_goes. Qed.

(** C3. Every state reached from the state that [init_mcd] leaves by at most
    as many admissible steps as the loops have fuel satisfies the invariant:
    the lists, the heap, the counters and the mini headers agree. *)
Theorem reachable_invariant xd n s : (forall domid x, xd !! domid = Some x -> xd_mcd x = None) ->
  (n <= env_fuel env)%nat -> reach env mcdctl_op xd n s -> Inv s /\ (num s <= n)%nat.
Proof. intros Hxd Hn Hr. destruct (reach_ok env tol Hmini Hnow Hdiv Hoob mcdctl_op xd n s Hxd Hn Hr) as [[] ?]. done. Qed.

End Safety.

(** An instance of C1. *)
Lemma step_safe_witness :
  wp known (do_event env0 no_ctl put_hello) (fun _ s' => hv_ok s' /\ (num s' <= S (num demo))%nat) demo.
Proof.
  apply (step_safe env0 known no_mini env0_now (or_introl eq_refl) (or_intror eq_refl) no_ctl put_hello demo).
  - apply demo_ok.
  - vm_compute. lia.
  - split; [by apply running_1|apply op_hello_ok].
Defined.

(** An instance of C2: the state after the start of two domains. *)
Lemma reachable_invariant_witness : Inv demo /\ (num demo <= 2)%nat.
Proof.
  apply (reachable_invariant env0 known no_mini env0_now (or_introl eq_refl) (or_intror eq_refl) no_ctl ∅ 2 demo).
  - intros domid x Hx. by rewrite lookup_empty in Hx.
  - vm_compute. lia.
  - apply (reach_step env0 no_ctl ∅ 1 demo_dom0 (EvStart 1 1024 512) demo); [|split; [|by apply demo_covers]|by vm_compute].
    + apply (reach_step env0 no_ctl ∅ 0 boot0 (EvStart 0 (2 ^ 32 - 1) 1000) demo_dom0);
        [|split; [|by apply demo_covers]|by vm_compute].
      * apply (reach_boot env0 no_ctl ∅ tt); [done|by vm_compute].
      * apply not_elem_of_nil.
    + cbn. set_solver.
Defined.

Section Refinement.
Context {B : Type} `{!Minf B, !MinfLaws B} (env : Env) (tol : fault -> Prop).
Context (Hmini : forall b : B, mcdctl_enabled b = true -> tol NullDeref).
Context (Hnow : forall n, env_now env n <> 0) (Hdiv : tol DivByZero).
Context {C : Type} (mcdctl_op : C -> M (gstate B) Z).
Implicit Types s : gstate B.

(** C4. A put hypercall refines the abstract map from (table, hash) to
    values: either it answers [-ERR_NO], reports the size of the value, and
    the map has the new row, the other rows being old ones (eviction may have
    removed some); or it answers [-ERR_MCDFAULT] and the row is gone. *)
Theorem put_refines caller op s : caller_ok caller s -> Inv s -> mode_ok s -> (num s < env_fuel env)%nat ->
  put_arg_ok op ->
  wp tol (do_mcd_op env mcdctl_op caller (XENMCD_cache_put (Some op)))
    (fun r s' => put_post (table caller s) op s (fst r) s') s.
Proof. intros H1 H2 H3 H4 H5. by apply cache_put_spec. Qed.

(** C5. A get hypercall refines the abstract map: a row of the map is
    delivered, value and size, when the buffer of the guest is large enough
    ([-ERR_MCDFAULT] otherwise, nothing written); with no row the answer is
    [-ERR_MCDFAULT] or a row is brought back from the second tier and
    delivered. *)
Theorem get_refines caller op s : tol OutOfBounds -> caller_ok caller s -> Inv s -> mode_ok s ->
  (num s < env_fuel env)%nat ->
  wp tol (do_mcd_op env mcdctl_op caller (XENMCD_cache_get (Some op)))
    (fun r s' => get_post (table caller s) op s (fst r) s') s.
Proof. intros H1 H2 H3 H4 H5. by apply cache_get_spec. Qed.

(** C11. A remove hypercall deletes the row of the key, no other, and answers
    [-ERR_NO], whether the row was there or not. *)
Theorem remove_refines caller op s : caller_ok caller s -> Inv s ->
  wp tol (do_mcd_op env mcdctl_op caller (XENMCD_cache_remove (Some op)))
    (fun r s' => removed (table caller s) (key_hash op) s (fst r) s') s.
Proof. intros H1 H2. by apply cache_remove_spec. Qed.

(** C12. A check hypercall refines the abstract map: it reports the size of
    the value of a stored key and changes nothing; in the shared table the
    answer is [-ERR_NO] whatever was found, in the table of a domain it is
    [RET_GET_MEM] or [RET_GET_SSD] for a hit. A key that is not stored may be
    there afterwards, with an empty value, and no other key is. *)
Theorem check_refines caller op s : caller_ok caller s -> Inv s -> mode_ok s -> (num s < env_fuel env)%nat ->
  arg_ok op ->
  wp tol (do_mcd_op env mcdctl_op caller (XENMCD_cache_check (Some op)))
    (fun r s' => let k := table caller s in check_post k op (check_answers k).1 (check_answers k).2 s (fst r) s') s.
Proof. intros H1 H2 H3 H4 H5. by apply cache_check_spec. Qed.

(** C13. A flush hypercall deletes exactly the rows of the caller's table (of
    the shared table in the shared mode) and answers [-ERR_NO]; the tables of
    the other domains keep all their rows. *)
Theorem flush_refines caller op s : caller_ok caller s -> Inv s ->
  wp tol (do_mcd_op env mcdctl_op caller (XENMCD_cache_flush (Some op)))
    (fun r s' => fst r = - ERR_NO /\ kept s s' /\ abs s' = filter (fun x => x.1.1 <> table caller s) (abs s)) s.
Proof. intros H1 H2. by apply cache_flush_spec. Qed.

(** C26. What a successful put stored, the next get with the same key
    delivers: value and size, as a hit in memory. *)
Theorem put_get_roundtrip caller op op' s : tol OutOfBounds -> caller_ok caller s -> Inv s -> mode_ok s ->
  (S (num s) < env_fuel env)%nat -> put_arg_ok op -> key_hash op' = key_hash op ->
  op_val_size op <= op_val_size op' ->
  wp tol (r ← do_mcd_op env mcdctl_op caller (XENMCD_cache_put (Some op));
          r' ← do_mcd_op env mcdctl_op caller (XENMCD_cache_get (Some op')); mret (fst r, fst r'))
    (fun rr s' => fst rr = - ERR_NO -> snd rr = RET_GET_MEM /\
       out_val s' = Some (from_guest (op_val op) (op_val_size op)) /\ out_rvs s' = Some (op_val_size op)) s.
Proof.
  intros Ho Hc HI Hm Hf Ha Hh Hsz. wp_steps.
  eapply wp_mono; [apply (cache_put_spec env tol Hmini Hnow mcdctl_op Hdiv caller op s); try done; lia|].
  intros r s1 Hput. pose proof (put_post_kept _ _ _ _ _ Hput) as Hk.
  pose proof (proj1 (frame_modes _ _ (kp_frame _ _ Hk))) as Hsh. wp_steps.
  eapply wp_mono; [apply (cache_get_spec env tol Hmini Hnow mcdctl_op Hdiv caller op' s1); try done|].
  - by apply (kept_caller _ s).
  - apply Hk.
  - by apply (frame_modes s s1), Hm; apply Hk.
  - pose proof (kp_num _ _ Hk). lia.
  - intros r' s2 Hget. wp_steps. intros Hrc. cbn in Hrc.
    destruct Hput as [(_ & _ & Hst)|[Hr _]]; [|rewrite Hrc in Hr; done].
    assert (Ht : table caller s1 = table caller s) by (unfold table; by rewrite Hsh).
    unfold get_post in Hget. rewrite Ht, Hh in Hget. destruct Hst as (_ & _ & Hrow). rewrite Hrow in Hget.
    destruct Hget as (_ & _ & _ & _ & Hd). destruct Ha as [Hao Hv].
    rewrite length_from_guest in Hd by (destruct (ao_val _ Hao); lia).
    rewrite Z2Nat.id in Hd by apply (ao_val _ Hao). rewrite (proj2 (Z.leb_le _ _) Hsz) in Hd. done.
Qed.
End Refinement.

(** *** Instances on the machine of [Demo] *)

Lemma demo_caller s : hv_ok s -> running 1 s -> caller_ok 1 s.
Proof. apply hv_caller. Qed.

Lemma put_refines_witness :
  wp known (do_mcd_op env0 no_ctl 1 (XENMCD_cache_put (Some op_hello)))
    (fun r s' => put_post (table 1 demo) op_hello demo (fst r) s') demo.
Proof.
  apply (put_refines env0 known no_mini env0_now (or_introl eq_refl) no_ctl 1 op_hello demo).
  - apply hv_caller; [apply demo_ok|by apply running_1].
  - apply demo_ok.
  - apply demo_ok.
  - vm_compute. lia.
  - apply op_hello_ok.
Defined.

Definition op_get : mcd_arg := mk_arg 0 3 16 key_abc [].

Lemma get_refines_witness :
  wp known (do_mcd_op env0 no_ctl 1 (XENMCD_cache_get (Some op_get)))
    (fun r s' => get_post (table 1 demo_put) op_get demo_put (fst r) s') demo_put.
Proof.
  apply (get_refines env0 known no_mini env0_now (or_introl eq_refl) no_ctl 1 op_get demo_put).
  - by right.
  - apply hv_caller; [apply demo_put_ok|by apply running_1].
  - apply demo_put_ok.
  - apply demo_put_ok.
  - vm_compute. lia.
Defined.

Lemma check_refines_witness :
  wp known (do_mcd_op env0 no_ctl 1 (XENMCD_cache_check (Some op_hello)))
    (fun r s' => let k := table 1 demo_put in
       check_post k op_hello (check_answers k).1 (check_answers k).2 demo_put (fst r) s') demo_put.
Proof.
  apply (check_refines env0 known no_mini env0_now (or_introl eq_refl) no_ctl 1 op_hello demo_put).
  - apply hv_caller; [apply demo_put_ok|by apply running_1].
  - apply demo_put_ok.
  - apply demo_put_ok.
  - vm_compute. lia.
  - apply op_hello_ok.
Defined.

Lemma flush_refines_witness :
  wp known (do_mcd_op env0 no_ctl 1 (XENMCD_cache_flush (Some op_get)))
    (fun r s' => fst r = - ERR_NO /\ kept demo_ad_put s' /\
       abs s' = filter (fun x => x.1.1 <> table 1 demo_ad_put) (abs demo_ad_put)) demo_ad_put.
Proof.
  apply (flush_refines env0 known no_mini env0_now (or_introl eq_refl) no_ctl 1 op_get demo_ad_put).
  - apply hv_caller; [apply demo_ad_put_ok|by apply running_1].
  - apply demo_ad_put_ok.
Defined.

Lemma remove_refines_witness :
  wp known (do_mcd_op env0 no_ctl 1 (XENMCD_cache_remove (Some op_get)))
    (fun r s' => removed (table 1 demo_ad_put) (key_hash op_get) demo_ad_put (fst r) s') demo_ad_put.
Proof.
  apply (remove_refines env0 known no_mini env0_now (or_introl eq_refl) no_ctl 1 op_get demo_ad_put).
  - apply hv_caller; [apply demo_ad_put_ok|by apply running_1].
  - apply demo_ad_put_ok.
Defined.

Lemma put_get_roundtrip_witness :
  wp known (r ← do_mcd_op env0 no_ctl 1 (XENMCD_cache_put (Some op_hello));
            r' ← do_mcd_op env0 no_ctl 1 (XENMCD_cache_get (Some op_get)); mret (fst r, fst r'))
    (fun rr s' => fst rr = - ERR_NO -> snd rr = RET_GET_MEM /\
       out_val s' = Some (from_guest (op_val op_hello) (op_val_size op_hello)) /\
       out_rvs s' = Some (op_val_size op_hello)) demo_ad.
Proof.
  apply (put_get_roundtrip env0 known no_mini env0_now (or_introl eq_refl) no_ctl 1 op_hello op_get demo_ad).
  - by right.
  - apply hv_caller; [apply demo_ad_ok|by apply running_1].
  - apply demo_ad_ok.
  - apply demo_ad_ok.
  - vm_compute. lia.
  - apply op_hello_ok.
  - by vm_compute.
  - cbn. lia.
Defined.

(** ** Allocation and eviction *)

Section Memory.
Context {B : Type} `{!Minf B, !MinfLaws B} (env : Env) (tol : fault -> Prop).
Context (Hmini : forall b : B, mcdctl_enabled b = true -> tol NullDeref).
Context (Hnow : forall n, env_now env n <> 0).
Implicit Types s : gstate B.

(** C27. An allocation that succeeds returns a fresh block after evictions
    only, and, when memory is limited, the entries that remain, the request
    and a safety page fit under the limit (in the modes that evict at all and
    if they fitted before). *)
Theorem malloc_fits size domid s : Inv s -> mode_ok s -> (num s < env_fuel env)%nat -> covers domid s ->
  wp tol (mcd_malloc env size domid) (fun r s' => Inv s' /\ evicted s s' /\
    forall p, r = Some p -> fresh s' p /\
      (max_mem_bytes (cfg s) <> 0 -> enforcing s -> bytes s <= max_mem_bytes (cfg s) ->
       max_mem_bytes (cfg s) < 2 ^ 64 -> 0 <= size -> bytes s + size + SAFETY_BYTES < 2 ^ 64 ->
       bytes s' + size + SAFETY_BYTES <= max_mem_bytes (cfg s))) s.
Proof.
  intros HI Hm Hf Hc. eapply wp_mono; [by apply (mcd_malloc_spec env tol Hmini Hnow)|].
  intros r s' (H1 & H2 & H3). split_and!; [done..|]. intros p ->. destruct H3. split; [done|auto].
Qed.

(** C28. Eviction from the shared table terminates under each of the three
    policies, only removes entries, and reports success exactly when it freed
    the amount asked for; when it fails the shared table is empty. *)
Theorem shared_eviction amount s : Inv s -> (num s < env_fuel env)%nat ->
  wp tol (shared_cache_free env amount) (fun rc s' => Inv s' /\ evicted s s' /\ pri_ptrs s' = pri_ptrs s /\
    (rc = - ERR_NO /\ amount <= u64 (bytes s - bytes s') \/
     rc = - ERR_NOTMEM /\ u64 (bytes s - bytes s') < amount /\ shr_ptrs s' = [])) s.
Proof. intros HI Hf. by apply shared_cache_free_spec. Qed.

(** C29. Eviction under the adaptive policy terminates, only removes entries
    of domains, never shared ones, and reports what it did. *)
Theorem adaptive_eviction amount domid s : Inv s -> (num s < env_fuel env)%nat -> domid ∈ domids s ->
  wp tol (partition_cf_adaptive_dynamic env amount domid)
    (fun rc s' => free_post amount s rc s' /\ shr_ptrs s' = shr_ptrs s) s.
Proof. intros HI Hf Hin. by apply partition_ad_spec. Qed.

(** C30. Eviction under the weight-based policy terminates when entries are
    replaced by the fast or the score policy, and reports what it did. *)
Theorem weighted_eviction amount domid s : Inv s -> (num s < env_fuel env)%nat ->
  replacement_mode (cfg s) <> MCD_REPLACE_MODE_LFRU ->
  wp tol (partition_cf_weight_based env amount domid)
    (fun rc s' => free_post amount s rc s' /\ shr_ptrs s' = shr_ptrs s) s.
Proof. intros HI Hf Hm. by apply partition_wb_spec. Qed.

(** C39. With the LFRU policy the last loop of the weight-based eviction has
    no exit for a pass that frees nothing: with no daemon and no private entry
    left it runs for ever, whatever bound is put on its iterations. *)
Theorem weighted_lfru_diverges amount domid s : (forall b : B, mcdctl_enabled b = false) -> Inv s ->
  (num s < env_fuel env)%nat -> replacement_mode (cfg s) = MCD_REPLACE_MODE_LFRU ->
  pri_ptrs s = [] -> 0 < amount -> partition_cf_weight_based env amount domid s = NoFuel.
Proof. intros Hoff HI Hf Hm Hp Ha. by apply partition_wb_diverges. Qed.

(** C31. A new entry is charged to its owner and to the side of the current
    mode, it is the only block outside the lists, and its header says what
    was asked for. *)
Theorem entry_creation domid ks vs s : Inv s -> mode_ok s -> (num s < env_fuel env)%nat -> domid ∈ domids s ->
  urange 32 ks -> urange 32 vs ->
  wp tol (create_mcd_hashT env domid ks vs) (fun r s' =>
    match r with
    | Some p => wf_det (is_shared s) p s' /\ ctl_ok s' /\ exists t, heap s' !! p = Some (made env domid ks vs t p)
    | None => Inv s' /\ evicted s s'
    end) s.
Proof.
  intros HI Hm Hf Hin Hk Hv. eapply wp_mono; [by apply (create_spec env tol Hmini Hnow)|].
  intros [p|] s' H; [|done]. by apply (created_wf env domid ks vs s p s').
Qed.
End Memory.

Lemma malloc_fits_witness :
  wp known (mcd_malloc env0 4096 1) (fun r s' => Inv s' /\ evicted demo_put s' /\
    forall p, r = Some p -> fresh s' p /\
      (max_mem_bytes (cfg demo_put) <> 0 -> enforcing demo_put -> bytes demo_put <= max_mem_bytes (cfg demo_put) ->
       max_mem_bytes (cfg demo_put) < 2 ^ 64 -> 0 <= 4096 -> bytes demo_put + 4096 + SAFETY_BYTES < 2 ^ 64 ->
       bytes s' + 4096 + SAFETY_BYTES <= max_mem_bytes (cfg demo_put))) demo_put.
Proof.
  apply (malloc_fits env0 known no_mini env0_now 4096 1 demo_put); [apply demo_put_ok..|vm_compute; lia|].
  by apply demo_covers.
Defined.

Lemma shared_eviction_witness :
  wp known (shared_cache_free env0 100) (fun rc s' => Inv s' /\ evicted demo_put s' /\ pri_ptrs s' = pri_ptrs demo_put /\
    (rc = - ERR_NO /\ 100 <= u64 (bytes demo_put - bytes s') \/
     rc = - ERR_NOTMEM /\ u64 (bytes demo_put - bytes s') < 100 /\ shr_ptrs s' = [])) demo_put.
Proof. apply (shared_eviction env0 known no_mini env0_now 100 demo_put); [apply demo_put_ok|vm_compute; lia]. Defined.

Lemma adaptive_eviction_witness :
  wp known (partition_cf_adaptive_dynamic env0 100 1)
    (fun rc s' => free_post 100 demo_ad_put rc s' /\ shr_ptrs s' = shr_ptrs demo_ad_put) demo_ad_put.
Proof.
  apply (adaptive_eviction env0 known no_mini env0_now 100 1 demo_ad_put); [apply demo_ad_put_ok|vm_compute; lia|].
  cbn. set_solver.
Defined.

(** The machine with the fast replacement policy. *)
Definition demo_fast : gstate unit :=
  Eval vm_compute in after (run env0 no_ctl [EvCall 0 (XENMCD_cache_mode (Some (1, MCD_REPLACE_MODE_FAST)))]) demo_ad_put.

Lemma demo_fast_ok : hv_ok demo_fast.
Proof.
  apply (demo_step (EvCall 0 (XENMCD_cache_mode (Some (1, MCD_REPLACE_MODE_FAST)))) demo_ad_put);
    [apply demo_ad_put_ok|vm_compute; lia| |by vm_compute].
  split; [by apply running_0|]. cbn. split_and!; [done|right; left; done|done].
Qed.

Lemma weighted_eviction_witness :
  wp known (partition_cf_weight_based env0 100 1)
    (fun rc s' => free_post 100 demo_fast rc s' /\ shr_ptrs s' = shr_ptrs demo_fast) demo_fast.
Proof.
  apply (weighted_eviction env0 known no_mini env0_now 100 1 demo_fast); [apply demo_fast_ok|vm_compute; lia|done].
Defined.

Lemma weighted_lfru_diverges_witness : partition_cf_weight_based env0 100 1 demo_ad = NoFuel.
Proof.
  apply (weighted_lfru_diverges env0 env0_now 100 1 demo_ad);
    [done|apply demo_ad_ok|vm_compute; lia|done|by vm_compute|lia].
Defined.

Lemma entry_creation_witness :
  wp known (create_mcd_hashT env0 1 3 5) (fun r s' =>
    match r with
    | Some p => wf_det (is_shared demo) p s' /\ ctl_ok s' /\ exists t, heap s' !! p = Some (made env0 1 3 5 t p)
    | None => Inv s' /\ evicted demo s'
    end) demo.
Proof.
  apply (entry_creation env0 known no_mini env0_now 1 3 5 demo); [apply demo_ok..|vm_compute; lia| | |].
  - cbn. set_solver.
  - unfold urange. lia.
  - unfold urange. lia.
Defined.

(** ** The score policy on the entries of [demo_put] *)

Definition demo_entries : list (ptr * mcd_hashT) := map_to_list (heap demo_put).
Definition demo_score (e : mcd_hashT) : Z :=
  match SCORE (B := unit) (mk_score_param 80 10 1 1) 20000000 e demo_put with Ret v _ => v | _ => 0 end.

Lemma score_victim_witness : exists r, cheapest demo_entries demo_score minref_init r /\
  score_walk (mk_score_param 80 10 1 1) 20000000 demo_entries minref_init None demo_put
  = Ret (match r with Some p => Some p | None => None end) demo_put.
Proof. apply (score_victim _ _ demo_entries minref_init None demo_put demo_score). intros p e _. reflexivity. Defined.
