(* ===== verification/AdminProps.v ===== *)
(** The properties of the control operations, of the life cycle of domains,
    of the statistics and of the hash functions of xen/common/mcd.c. *)
From S2P Require Import Prelude CMonad Hash Types State Core Evict Inv Remove Evicted EvictShared EvictPart Alloc Create Ops View OpsLib OpsMake OpsSpec Flush Display Admin AdminSpec Lifecycle Hypercall Reach Demo.
Import NoDaemon.

Section Control.
Context {B : Type} `{!Minf B, !MinfLaws B} (env : Env) (tol : fault -> Prop).
Context (Hmini : forall b : B, mcdctl_enabled b = true -> tol NullDeref).
Context (Hnow : forall n, env_now env n <> 0).
Implicit Types s : gstate B.


(** Setting the memory size sets the limit to that many millions of
    bytes and evicts down to it: in the shared mode what is left is under
    the new limit, or the shared table is empty. *)
Theorem memsize_shrinks memsize s : Inv s -> mode_ok s -> (num s < env_fuel env)%nat -> covers 0 s ->
  wp tol (set_memsize env memsize) (fun _ s' => managed s s' /\ max_mem_bytes (cfg s') = mem_limit memsize /\
    modes s' = modes s /\ abs s' ⊆ abs s /\
    (is_shared s = true -> mem_limit memsize <> 0 -> bytes s < 2 ^ 64 ->
     bytes s' <= mem_limit memsize \/ shr_ptrs s' = [])) s.
Proof.
  intros HI Hm Hf Hc. eapply wp_mono; [by apply (set_memsize_spec env tol Hmini Hnow)|].
  intros ws s' []. done.
Qed.

(** Setting the weight of a known domain changes the weight of this
    domain only, and the total by the difference. *)
Theorem weight_total domid weight s : Inv s -> domid ∈ domids s ->
  wp tol (set_weight domid weight) (fun _ s' => managed s s' /\ abs s' = abs s /\ modes s' = modes s /\
    exists d, d ∈ doms s /\ md_domid d = domid /\
      total_weight (cfg s') = u32 (total_weight (cfg s) + (weight - md_weight d)) /\
      weights s' = md_weight <$> alter_dom domid (fun d => d <| md_weight := weight |>) (doms s)) s.
Proof. intros HI Hin. by apply set_weight_spec. Qed.

(** Setting a parameter changes no entry, apart from the reset command,
    which flushes the side of the current mode. *)
Theorem parameter_effect which mode param s : Inv s ->
  (resets which param = true -> is_shared s = false -> dom0_clean s) ->
  wp tol (set_param env which mode param) (fun _ s' => managed s s' /\ modes s' = modes s /\
    abs s' = if resets which param
             then filter (fun x => flush_keeps (cache_mode (cfg s)) x.1.1) (abs s) else abs s) s.
Proof. intros HI H0. eapply wp_mono; [by apply set_param_spec|]. intros rc s' []. done. Qed.

(** Creating a domain either fails with [-ERR_XENFAULT] and leaves the
    list of domains alone, or appends a domain with an empty table and
    attaches it; the cached rows stay, up to eviction. *)
Theorem domain_creation domid s x : Inv s -> mode_ok s -> (num s < env_fuel env)%nat -> covers domid s ->
  domid ∉ domids s -> xdoms s !! domid = Some x -> xd_is_dying x = false ->
  wp tol (mcd_domain_create env domid) (fun rc s' =>
    rc = - ERR_NO /\ domain_added domid s s' \/
    rc = - ERR_XENFAULT /\ managed s s' /\ modes s' = modes s /\ abs s' ⊆ abs s) s.
Proof. intros. by apply (mcd_domain_create_spec env tol Hmini Hnow domid s x). Qed.

(** Destroying a domain that owns nothing in the shared table removes
    the domain, its whole table and its mini headers, and nothing else. *)
Theorem domain_destruction domid s x : Inv s -> xdoms s !! domid = Some x -> xd_is_dying x = true ->
  xd_mcd x = Some domid -> domid ∈ domids s -> no_orphans domid s ->
  wp tol (mcd_destroy env (Some domid)) (fun _ s' => domain_gone domid s s') s.
Proof. intros. by apply (mcd_destroy_spec env tol domid s x). Qed.

(** C35. The statistics never write outside of the buffer of the guest,
    whatever its length, end every line they write with a zero, and change
    nothing that an operation relies on. *)
Theorem display_in_bounds dom_id len long s : Inv s -> 0 <= len < 2 ^ 32 ->
  wp tol (display_stats env dom_id len long)
    (fun ws s' => Inv s' /\ abs s' = abs s /\ Forall (inside len) ws) s.
Proof.
  intros HI Hl. eapply wp_mono; [by apply display_stats_spec|]. intros ws s' [Hq Hw]. split_and!.
  - by apply (quiet_Inv s).
  - by apply (softly_abs s); [|apply quiet_softly].
  - done.
Qed.

(** [init_mcd] turns the static variables into a state that satisfies the
    invariant: enabled, empty, in the shared mode with the LFRU policy and
    with no limit. *)
Theorem boot_state xd (b : B) : minf_inv b ->
  wp no_fault (init_mcd true) (fun rc s' => rc = - ERR_NO /\ booted s' /\ xdoms s' = xd) (static_state xd b).
Proof. intros Hb. by apply init_mcd_spec. Qed.

(** The hypercall is refused without any effect when the cache is not
    enabled, and when the calling domain is dying. *)
Theorem refused_calls {C} (mcdctl_op : C -> M (gstate B) Z) caller cmd s :
  (mcd_enabled_flag (cfg s) = false -> do_mcd_op env mcdctl_op caller cmd s = Ret (- ERR_NOMCD, []) s) /\
  (forall x d, mcd_enabled_flag (cfg s) = true -> xdoms s !! caller = Some x -> xd_mcd x = Some caller ->
     dom_of (doms s) caller = Some d -> xd_is_dying x = true ->
     do_mcd_op env mcdctl_op caller cmd s = Ret (- ERR_XENFAULT, []) s).
Proof. apply do_mcd_op_refused. Qed.

End Control.

(** *** Instances on the machine of [Demo] *)


Lemma memsize_shrinks_witness :
  wp known (set_memsize env0 1) (fun _ s' => managed demo_put s' /\ max_mem_bytes (cfg s') = mem_limit 1 /\
    modes s' = modes demo_put /\ abs s' ⊆ abs demo_put /\
    (is_shared demo_put = true -> mem_limit 1 <> 0 -> bytes demo_put < 2 ^ 64 ->
     bytes s' <= mem_limit 1 \/ shr_ptrs s' = [])) demo_put.
Proof.
  apply (memsize_shrinks env0 known no_mini env0_now 1 demo_put); [apply demo_put_ok..|vm_compute; lia|].
  by apply demo_covers.
Defined.

Lemma weight_total_witness :
  wp known (set_weight 1 250) (fun _ s' => managed demo s' /\ abs s' = abs demo /\ modes s' = modes demo /\
    exists d, d ∈ doms demo /\ md_domid d = 1 /\
      total_weight (cfg s') = u32 (total_weight (cfg demo) + (250 - md_weight d)) /\
      weights s' = md_weight <$> alter_dom 1 (fun d => d <| md_weight := 250 |>) (doms demo)) demo.
Proof. apply (weight_total known 1 250 demo); [apply demo_ok|]. cbn. set_solver. Defined.

Lemma parameter_effect_witness :
  wp known (set_param env0 25 0 1) (fun _ s' => managed demo_put s' /\ modes s' = modes demo_put /\
    abs s' = if resets 25 1
             then filter (fun x => flush_keeps (cache_mode (cfg demo_put)) x.1.1) (abs demo_put) else abs demo_put) demo_put.
Proof. apply (parameter_effect env0 known 25 0 1 demo_put); [apply demo_put_ok|done]. Defined.

(** The machine on which domain 7 was just allocated. *)
Definition demo_alloc : gstate unit := demo_put <| xdoms ::= <[7 := mk_xen_domain false None 256 256]> |>.

Lemma domain_creation_witness :
  wp known (mcd_domain_create env0 7) (fun rc s' =>
    rc = - ERR_NO /\ domain_added 7 demo_alloc s' \/
    rc = - ERR_XENFAULT /\ managed demo_alloc s' /\ modes s' = modes demo_alloc /\ abs s' ⊆ abs demo_alloc) demo_alloc.
Proof.
  apply (domain_creation env0 known no_mini env0_now 7 demo_alloc (mk_xen_domain false None 256 256)).
  - apply (attached_Inv (xdoms demo_alloc) demo_put), demo_put_ok.
  - by left.
  - vm_compute. lia.
  - by apply demo_covers.
  - cbn. set_solver.
  - by vm_compute.
  - done.
Defined.

(** The machine on which domain 1 is being killed. *)
Definition demo_dying : gstate unit := demo <| xdoms ::= alter (fun x => x <| xd_is_dying := true |>) 1 |>.

Lemma domain_destruction_witness :
  wp known (mcd_destroy env0 (Some 1)) (fun _ s' => domain_gone 1 demo_dying s') demo_dying.
Proof.
  apply (domain_destruction env0 known 1 demo_dying (mk_xen_domain true (Some 1) 1024 512)).
  - apply (attached_Inv (xdoms demo_dying) demo), demo_ok.
  - by vm_compute.
  - done.
  - done.
  - cbn. set_solver.
  - split.
    + intros p e Hp. exfalso. revert Hp. unfold shr_ptrs. vm_compute. inversion 1.
    + intros q c Hq. exfalso. revert Hq. vm_compute. inversion 1.
Defined.

Lemma display_in_bounds_witness :
  wp known (display_stats env0 MCD_DOM_ID_NULL 40 true)
    (fun ws s' => Inv s' /\ abs s' = abs demo_put /\ Forall (inside 40) ws) demo_put.
Proof. apply (display_in_bounds env0 known MCD_DOM_ID_NULL 40 true demo_put); [apply demo_put_ok|lia]. Defined.

Lemma boot_state_witness :
  wp no_fault (init_mcd true) (fun rc s' => rc = - ERR_NO /\ booted s' /\ xdoms s' = ∅) (static_state ∅ tt).
Proof. apply (boot_state ∅ tt). done. Defined.

Lemma refused_calls_witness :
  (mcd_enabled_flag (cfg demo_dying) = false ->
   do_mcd_op env0 no_ctl 1 (XENMCD_cache_put (Some op_hello)) demo_dying = Ret (- ERR_NOMCD, []) demo_dying) /\
  (forall x d, mcd_enabled_flag (cfg demo_dying) = true -> xdoms demo_dying !! 1 = Some x -> xd_mcd x = Some 1 ->
   dom_of (doms demo_dying) 1 = Some d -> xd_is_dying x = true ->
   do_mcd_op env0 no_ctl 1 (XENMCD_cache_put (Some op_hello)) demo_dying = Ret (- ERR_XENFAULT, []) demo_dying).
Proof. apply (refused_calls env0 no_ctl 1 (XENMCD_cache_put (Some op_hello)) demo_dying). Defined.

(** ** Hash and random numbers *)

(** The hash of a key is a 32-bit number and depends on the key alone:
    bytes behind its length, such as the value in the buffer of an entry,
    have no influence. *)
Theorem hash_of_key key rest :
  SFH.getHash (key ++ rest) (Z.of_nat (length key)) = SFH.getHash key (Z.of_nat (length key)) /\
  0 <= SFH.getHash key (Z.of_nat (length key)) < 2 ^ 32.
Proof. split; [apply SFH.getHash_app|apply SFH.getHash_range]. Qed.

(** [rand_val] is the minimal standard generator: from a seed in range,
    the n-th value is 16807^n times the seed modulo 2^31 - 1, no intermediate
    result overflows, and zero is never reached. *)
Theorem rand_is_minstd n x : 0 < x < Rand.rand_m ->
  Rand.rand_iter n x = (Rand.rand_a ^ Z.of_nat n * x) mod Rand.rand_m /\ 0 < Rand.rand_iter n x < Rand.rand_m.
Proof. apply Rand.rand_iter_pow. Qed.

Lemma rand_is_minstd_witness :
  Rand.rand_iter 3 777 = (Rand.rand_a ^ Z.of_nat 3 * 777) mod Rand.rand_m /\ 0 < Rand.rand_iter 3 777 < Rand.rand_m.
Proof. apply (rand_is_minstd 3 777). unfold Rand.rand_m. lia. Defined.
