(* ===== verification/TransportProps.v ===== *)
(** The properties of the ring, the transport and the daemon, each with an
    instance on the machine of [TDemo]. *)
From S2P Require Import Prelude CMonad Hash Types State Core Evict Inv Remove Evicted EvictShared EvictPart Alloc Create Ops View OpsLib OpsMake OpsSpec Flush Display Admin AdminSpec Lifecycle Hypercall Reach Ring FileOps FileSpec Mcdctl Daemon Exchange Link PageOut PutFile Turns PutTurn GetTurn GetWait TransportLaws System SystemSpec Slots TDemo.

(** * The ring *)

(** The two ends and the shared page right after the initialisation. *)
Definition new_ring {A} (size entry : Z) (s : sring A) : ring_sys A :=
  mk_ring_sys (SHARED_RING_INIT s) (FRONT_RING_INIT size entry) (BACK_RING_INIT size entry).

(** C7. The ring is a pair of FIFO queues: whatever the program of transfers,
    as long as no end oversteps its bounds (a request when all slots are in
    use, a take from an empty queue, a response to nothing), every transfer on
    the ring gives the answer the queues give, also after the free-running
    indices have wrapped around 2^32. The number of slots is the largest power
    of two that fits into the page. *)
Theorem ring_refines_queues {A} (size entry : Z) (s : sring A) ops answers q :
  0 < entry -> entry <= size - sring_header -> size < 2 ^ 31 ->
  2 ^ Z.log2 ((size - sring_header) / entry) <= Z.of_nat (length (ring s)) ->
  run_queues (2 ^ Z.log2 ((size - sring_header) / entry)) ops (mk_queues [] [] 0) = Some (answers, q) ->
  exists r, run_ring ops (new_ring size entry s) = (answers, r) /\
    sys_rel (Z.log2 ((size - sring_header) / entry)) r q.
Proof.
  intros He Hs Hb Hl Hq. assert (Hn : 1 <= (size - sring_header) / entry < 2 ^ 31).
  { unfold sring_header in *. split; [apply Z.div_le_lower_bound; lia|]. apply Z.div_lt_upper_bound; nia. }
  assert (Hk : 0 <= Z.log2 ((size - sring_header) / entry) < 32).
  { split; [apply Z.log2_nonneg|]. apply Z.log2_lt_pow2; lia. }
  apply (run_ring_simulates _ _ (new_ring size entry s) (mk_queues [] [] 0)); [done| |done].
  unfold sys_rel, new_ring, FRONT_RING_INIT, BACK_RING_INIT, RING_SIZE_OF. cbn [rs_s rs_f rs_b].
  rewrite RD32_spec by lia. apply ring_init_rel; lia.
Qed.

(** An instance: requests and responses of one byte in a page of 4096
    bytes with 40 bytes per slot. *)
Lemma ring_refines_queues_witness :
  exists r, run_ring [PutRequest 1; PutRequest 2; TakeRequest; PutResponse 3; TakeResponse; FreeRequests]
      (new_ring 4096 40 (mk_sring Z 0 0 0 0 (replicate 64 0))) =
    ([Done; Done; Entry (Some 1); Done; Entry (Some 3); Count 63], r) /\
    sys_rel (Z.log2 ((4096 - sring_header) / 40)) r (mk_queues [2] [] 0).
Proof. apply ring_refines_queues; [done..|by vm_compute|by vm_compute]. Defined.

(** * Moving an entry out and in *)

Section Transfers.
Context (de : DaemonEnv) (xe : XenEnv) (root : path).
Context (Hadd : forall m t, de_add de m t = mcd_event_add_shared_page xe 0 m t \/
  exists rc, rc <> 0 /\ de_add de m t = Ret rc t).
Context (e : mcd_hashT) (Hbuf : buffer_ok e) (Hsize : mh_key_size e + mh_val_size e < 2 ^ 32).
Implicit Types (t : tstate) (pages : list Z).

Abbreviation file := (entry_file root (mh_domain e) (mh_hash e)).

(** What a domain's directory must be like for the daemon to store an entry:
    domain 0 has to have one, the daemon makes that of the others. *)
Definition storable (o : os) : Prop :=
  os_wf o /\ fs o !! root = Some FDir /\ fs o !! file <> Some FDir /\
  if mh_domain e =? 0 then fs o !! dom_dir root (mh_domain e) = Some FDir
  else fs o !! dom_dir root (mh_domain e) = Some FDir \/
       fs o !! dom_dir root (mh_domain e) = None /\ dom_dir root (mh_domain e) <> [].

(** A link with nothing on the ring that is ready for a transfer. *)
Record ready_link pages datas (b : nat) t : Prop := {
  rl_linked : linked root pages datas (q_of [] b) t;
  rl_room : (b <= 60)%nat;
  rl_pages : pages <> [];
  rl_enabled : t_enabled t = true;
  rl_put : t_put t = false;
  rl_get : t_get t = false;
  rl_fresh : forall p, t_next t <= p -> t_mem t !! p = None;
}.

Lemma whole_entry : take (tot_len e) (mh_key_val e) = mh_key_val e.
Proof using Hbuf Hsize.
  apply take_ge. destruct Hbuf as (Hk & Hv & Hl). unfold tot_len, mh_totsize, urange in *.
  rewrite wrap_id by (unfold urange; lia). lia.
Qed.

Lemma ready_after pages datas b t pages' datas' b' t' : ready_link pages datas b t -> done_with t t' ->
  (b' <= b)%nat -> extends pages pages' -> linked root pages' datas' (q_of [] b') t' -> ready_link pages' datas' b' t'.
Proof using.
  intros [] [] Hb He Hl. split; [done|lia| |congruence|done|congruence|].
  - intros ->. by apply prefix_nil_inv in He.
  - intros p Hp. rewrite dw_mem. apply rl_fresh0. lia.
Qed.

Lemma page_out_granted pages datas b t : (forall n, io_ok (de_os de) n = true) ->
  (forall n c, (c <= io_count (de_os de) n c)%nat) -> storable (t_os t) -> ready_link pages datas b t ->
  wp no_fault (page_out_wait de e) (fun rc t' => rc = 0 /\
    contents (t_os t') file = Some (mh_key_val e) /\ (forall p, p <> file -> contents (t_os t') p = contents (t_os t) p) /\
    exists pages' datas' b', ready_link pages' datas' b' t' /\ extends pages pages' /\
      ((tot_len e <= length pages * page_len)%nat -> take (tot_len e) (concat datas') = mh_key_val e)) t.
Proof using All.
  intros Hok Hfull (Hw & Hr & Hf & Hd) Hl. pose proof Hl as [].
  assert (Hc : can_store root (mh_domain e) (mh_hash e) (contents (t_os t)) (t_os t)) by (by split; [split|split]).
  eapply wp_mono; [eapply (page_out_wait_spec de xe root no_fault Hadd e
    (PutFiles0 := good_files (de_os de) Hok Hfull root _ _ (contents (t_os t))) Hbuf pages datas [] b t); try done|].
  - by apply room_used.
  - by apply rl_fresh0.
  - intros rc t' (-> & Hdw & pages' & datas' & b' & Hb & He & Hl' & Hp' & Ho). split; [done|].
    destruct Ho as [[]|([Hoth Hst] & acc & Hacc & Hs & Htk)]. rewrite whole_entry in Hst. split; [done|].
    split; [apply Hoth|]. exists pages', datas', b'. split; [by eapply ready_after|]. split; [done|].
    intros Hsm. rewrite (Hs Hsm), Nat.sub_0_r, drop_0 in Htk. by rewrite Htk, whole_entry.
Qed.

(** C6. Moving an entry out stores it: when the operating system grants what
    the daemon asks for and writes what it is given, [minf_page_out] and the
    wait that follows it come back with success, the file of the entry holds
    exactly the key and the value, in chunks as large as the shared pages, no
    other file has changed, and the transport is ready again. *)
Theorem page_out_stores pages datas b t : (forall n, io_ok (de_os de) n = true) ->
  (forall n c, (c <= io_count (de_os de) n c)%nat) -> storable (t_os t) -> ready_link pages datas b t ->
  wp no_fault (page_out_wait de e) (fun rc t' => rc = 0 /\ contents (t_os t') file = Some (mh_key_val e) /\
    (forall p, p <> file -> contents (t_os t') p = contents (t_os t) p) /\
    exists pages' datas' b', ready_link pages' datas' b' t') t.
Proof using All.
  intros Hok Hfull Hs Hl. eapply wp_mono; [by apply (page_out_granted pages datas b)|].
  intros rc t' (H1 & H2 & H3 & pages' & datas' & b' & H4 & _). split; [done|]. split; [done|]. split; [done|].
  by exists pages', datas', b'.
Qed.
End Transfers.

(** An entry of domain 1 with the key [abc] and the value [hello]. *)
Definition e_hello : mcd_hashT := mk_hashT MAGIC 1 0 1 77 0 0 0 MCD_HASHT_NORMAL 3 5 [97; 98; 99; 104; 101; 108; 108; 111].

Lemma e_hello_ok : buffer_ok e_hello.
Proof. by split_and!. Qed.

Definition t_up : tstate := be sys_up.

Lemma t_up_ready : exists pages datas, ready_link base1 pages datas 0 t_up.
Proof.
  destruct sys_up_post as (Hv & _ & He & dm & shared & d & Hd & Hl). exists [shared], [d].
  assert (Hr : dm_root <$> t_daemon t_up = Some base1) by (by vm_compute).
  unfold t_up in *. rewrite Hd in Hr. injection Hr as Hr. rewrite Hr in Hl.
  destruct (hv_t_inv xe1 de1 add1 _ Hv). by split; [..|lia| | | | |].
Qed.

Lemma t_up_fs : fs (t_os t_up) = {[ [] := FDir; base1 := FDir ]}.
Proof. by vm_compute. Qed.

Lemma t_up_storable : storable base1 e_hello (t_os t_up).
Proof.
  assert (Hd : forall p n, fs (t_os t_up) !! p = Some n -> n = FDir).
  { intros p n. rewrite t_up_fs. intros [[_ <-]|[_ [_ <-]%lookup_singleton_Some]]%lookup_insert_Some; done. }
  split; [split|split_and!].
  - intros p p' i Hp. by apply Hd in Hp.
  - intros p i Hp. by apply Hd in Hp.
  - by vm_compute.
  - by vm_compute.
  - right. split; [by vm_compute|done].
Qed.

(** An instance: the first entry the attached daemon stores. *)
Lemma page_out_stores_witness :
  wp no_fault (page_out_wait de1 e_hello) (fun rc t' => rc = 0 /\
    contents (t_os t') (entry_file base1 (mh_domain e_hello) (mh_hash e_hello)) = Some (mh_key_val e_hello) /\
    (forall p, p <> entry_file base1 (mh_domain e_hello) (mh_hash e_hello) -> contents (t_os t') p = contents (t_os t_up) p) /\
    exists pages' datas' b', ready_link base1 pages' datas' b' t') t_up.
Proof.
  destruct t_up_ready as (pages & datas & Hl).
  exact (page_out_stores de1 xe1 base1 add1 e_hello e_hello_ok eq_refl pages datas 0%nat t_up
    (fun _ => eq_refl) (fun _ c => le_n c) t_up_storable Hl).
Defined.

Section RoundTrip.
Context (de : DaemonEnv) (xe : XenEnv) (root : path).
Context (Hadd : forall m t, de_add de m t = mcd_event_add_shared_page xe 0 m t \/
  exists rc, rc <> 0 /\ de_add de m t = Ret rc t).
Implicit Types (t : tstate) (pages : list Z) (e : mcd_hashT).

Lemma stale_fits tot datas datas' : extends datas datas' -> (tot <= length (concat datas))%nat ->
  take tot (stale tot datas') = take tot (concat datas).
Proof using.
  intros [l ->] Ht. unfold stale. cbn [replicate concat]. rewrite concat_app, <- !(assoc_L (++)).
  by rewrite take_app_le.
Qed.

Lemma page_in_pages (F : Prop) pages datas b e t : buffer_ok e -> ready_link root pages datas b t ->
  F \/ opens (de_os de) (entry_file root (mh_domain e) (mh_hash e)) (t_os t) ->
  wp no_fault (page_in_wait de e) (fun r t' => r.1 = 0 /\ length r.2 = length (mh_key_val e) /\
    (r.2 = mh_key_val e /\ F \/ exists datas', extends datas datas' /\
       r.2 = fill 0 (take (tot_len e) (stale (tot_len e) datas')) (mh_key_val e)) /\
    exists pages' datas' b', ready_link root pages' datas' b' t') t.
Proof using Hadd xe.
  intros Hb Hl HF. pose proof Hl as []. eapply wp_mono.
  { apply (page_in_wait_spec de xe root no_fault Hadd e Hb F pages datas [] b t); try done; [by apply room_used|by apply rl_fresh0|].
    destruct HF; [by left|by right]. }
  intros r t' (H1 & Hdw & Hlen & pages' & datas' & b' & Hb' & He & Hed & Hl' & Hr). split; [done|]. split; [done|].
  split; [destruct Hr as [Hr|Hr]; [by left|right; by exists datas']|]. exists pages', datas', b'.
  by apply (ready_after root pages datas b t).
Qed.

(** C10. Moving an entry in reads the shared pages, not the file: whatever the
    files hold - the daemon opens the entry's file with truncation before it
    reads - the buffer ends up with its own old bytes (the daemon could not
    open the file) or with what the shared pages held before the call, in
    rounds of their size for an entry that is larger. The answer is success in
    both cases and the length of the buffer stays. *)
Theorem page_in_copies_pages pages datas b e t : buffer_ok e -> ready_link root pages datas b t ->
  wp no_fault (page_in_wait de e) (fun r t' => r.1 = 0 /\ length r.2 = length (mh_key_val e) /\
    (r.2 = mh_key_val e \/ exists datas', extends datas datas' /\
       r.2 = fill 0 (take (tot_len e) (stale (tot_len e) datas')) (mh_key_val e)) /\
    exists pages' datas' b', ready_link root pages' datas' b' t') t.
Proof using Hadd xe.
  intros Hb Hl. eapply wp_mono; [by apply (page_in_pages True pages datas b); [..|left]|].
  intros r t' (H1 & H2 & H3 & H4). split; [done|]. split; [done|]. split; [|done].
  destruct H3 as [[H3 _]|H3]; [by left|by right].
Qed.

Lemma contents_opens p o v : (forall n, io_ok (de_os de) n = true) -> contents o p = Some v -> opens (de_os de) p o.
Proof using. unfold contents. intros Hok. destruct (fs o !! p) as [[|ino]|] eqn:E; [done| |done]. by split; [|exists ino]. Qed.

(** C9. An entry that fits into the shared pages survives going out and
    coming straight back: the buffer of its successor, which has its domain,
    its hash and its sizes, ends up with the key and the value that went out. *)
Theorem out_and_in_roundtrip pages datas b e e' t : (forall n, io_ok (de_os de) n = true) ->
  (forall n c, (c <= io_count (de_os de) n c)%nat) -> storable root e (t_os t) -> ready_link root pages datas b t ->
  buffer_ok e -> mh_key_size e + mh_val_size e < 2 ^ 32 -> (tot_len e <= length pages * page_len)%nat ->
  buffer_ok e' -> mh_domain e' = mh_domain e -> mh_hash e' = mh_hash e ->
  mh_key_size e' = mh_key_size e -> mh_val_size e' = mh_val_size e ->
  wp no_fault (page_out_wait de e;; page_in_wait de e') (fun r t' => r = (0, mh_key_val e)) t.
Proof using Hadd xe.
  intros Hok Hfull Hs Hl Hb Hsz Hfit Hb' Hdo Hha Hk Hv. wp_steps.
  eapply wp_mono; [by apply (page_out_granted de xe root Hadd e Hb Hsz pages datas b)|].
  intros rc t1 (_ & Hst & _ & pages1 & datas1 & b1 & Hl1 & He1 & Hd1). specialize (Hd1 Hfit).
  eapply wp_mono; [apply (page_in_pages False pages1 datas1 b1); [done..|right; rewrite Hdo, Hha; by eapply contents_opens]|].
  intros [r1 r2] t2 (H1 & H2 & H3 & _). cbn [fst snd] in *. destruct H3 as [[_ []]|(datas' & Hd' & H3)]. subst r1. f_equal.
  assert (Ht : tot_len e' = tot_len e) by (unfold tot_len, mh_totsize; by rewrite Hk, Hv).
  assert (Hlen : length (mh_key_val e') = length (mh_key_val e)).
  { destruct Hb as (_ & _ & Hb3), Hb' as (_ & _ & Hb4). lia. }
  assert (Htot : length (mh_key_val e) = tot_len e).
  { rewrite <- (whole_entry e Hb Hsz) at 1. rewrite length_take. pose proof (tot_len_fits e Hb). lia. }
  assert (Hlen1 : (tot_len e <= length (concat datas1))%nat).
  { apply (f_equal length) in Hd1. rewrite length_take in Hd1. lia. }
  rewrite H3, Ht, (stale_fits _ datas1), Hd1 by done. unfold fill. cbn [take Nat.add]. rewrite app_nil_l.
  rewrite drop_ge by lia. by rewrite app_nil_r.
Qed.
End RoundTrip.

(** The same entry before its bytes are read back, and another one. *)
Definition e_blank : mcd_hashT := e_hello <| mh_key_val := replicate 8 0 |>.
Definition e_other : mcd_hashT := e_hello <| mh_hash := 78 |> <| mh_key_val := [97; 98; 100; 119; 111; 114; 108; 100] |>.

Lemma e_blank_ok : buffer_ok e_blank.
Proof. by split_and!. Qed.

Lemma e_hello_fits {A} (pages : list A) : pages <> [] -> (tot_len e_hello <= length pages * page_len)%nat.
Proof.
  intros Hn. pose proof page_len_Z. unfold PAGE_SIZE in *. assert (tot_len e_hello = 8%nat) as -> by done.
  destruct pages; [done|]. cbn. lia.
Qed.

(** An instance. *)
Lemma page_in_copies_pages_witness : exists datas,
  wp no_fault (page_in_wait de1 e_blank) (fun r t' => r.1 = 0 /\ length r.2 = length (mh_key_val e_blank) /\
    (r.2 = mh_key_val e_blank \/ exists datas', extends datas datas' /\
       r.2 = fill 0 (take (tot_len e_blank) (stale (tot_len e_blank) datas')) (mh_key_val e_blank)) /\
    exists pages' datas' b', ready_link base1 pages' datas' b' t') t_up.
Proof.
  destruct t_up_ready as (pages & datas & Hl). exists datas.
  exact (page_in_copies_pages de1 xe1 base1 add1 pages datas 0%nat e_blank t_up e_blank_ok Hl).
Defined.

(** After a second entry went out, the first one comes back with the bytes of
    the second. *)
Example wrong_bytes :
  returns (page_out_wait de1 e_hello;; page_out_wait de1 e_other;; page_in_wait de1 e_blank) t_up
    (fun r => bool_decide (r = (0, mh_key_val e_other))) = true.
Proof. by vm_compute. Qed.

(** An instance. *)
Lemma out_and_in_roundtrip_witness :
  wp no_fault (page_out_wait de1 e_hello;; page_in_wait de1 e_blank) (fun r t' => r = (0, mh_key_val e_hello)) t_up.
Proof.
  destruct t_up_ready as (pages & datas & Hl).
  exact (out_and_in_roundtrip de1 xe1 base1 add1 pages datas 0%nat e_hello e_blank t_up (fun _ => eq_refl) (fun _ c => le_n c)
    t_up_storable Hl e_hello_ok eq_refl (e_hello_fits pages (rl_pages _ _ _ _ _ Hl)) e_blank_ok eq_refl eq_refl eq_refl eq_refl).
Defined.

(** * Every request ends *)

Section Liveness.
Context (de : DaemonEnv) (xe : XenEnv).
Context (Hadd : forall m t, de_add de m t = mcd_event_add_shared_page xe 0 m t \/
  exists rc, rc <> 0 /\ de_add de m t = Ret rc t).
Implicit Types (t : tstate) (e : mcd_hashT).


(** C38. Requests for more shared pages use the ring up: the daemon never
    answers them, so after 61 of them - with the daemon serving the ring after
    each - every transfer and every request of the cache is refused, although
    nothing is on the ring, and the daemon's loop does not change that. *)
Theorem page_requests_leak_slots num e t : leaked 0 t -> t_enabled t = true -> 0 < num < MAX_SHARED_PAGES ->
  wp no_fault (rounds de 61 num) (fun _ t' =>
    wp no_fault (page_out_wait de e) (fun rc _ => rc = -1) t' /\
    wp no_fault (page_in_wait de e) (fun r _ => r = (-1, mh_key_val e)) t' /\
    (forall x, wp no_fault (send_request x) (fun rc t'' => rc = -1 /\ t'' = t') t') /\
    wp no_fault (drain de 65) (fun _ t'' => t'' = t') t') t.
Proof using Hadd xe.
  intros Hl He Hnum. eapply wp_mono; [by apply (rounds_spec de xe Hadd num 61 0 t Hl)|].
  intros _ t' [Hl' He']. rewrite He in He'. destruct (full_refuses de e t' Hl' He') as (H1 & H2 & H3).
  split; [|split; [|split; [done|by apply full_idle]]].
  - eapply wp_mono; [exact H1|]. by intros rc t'' [-> _].
  - eapply wp_mono; [exact H2|]. by intros r t'' [-> _].
Qed.
End Liveness.



Lemma t_up_leaked : leaked 0 t_up.
Proof.
  destruct t_up_ready as (pages & datas & []). split; [done..|]. by exists base1, pages, datas.
Qed.

(** An instance. *)
Lemma page_requests_leak_slots_witness :
  wp no_fault (rounds de1 61 1) (fun _ t' =>
    wp no_fault (page_out_wait de1 e_hello) (fun rc _ => rc = -1) t' /\
    wp no_fault (page_in_wait de1 e_hello) (fun r _ => r = (-1, mh_key_val e_hello)) t' /\
    (forall x, wp no_fault (send_request x) (fun rc t'' => rc = -1 /\ t'' = t') t') /\
    wp no_fault (drain de1 65) (fun _ t'' => t'' = t') t') t_up.
Proof.
  exact (page_requests_leak_slots de1 xe1 add1 1 e_hello t_up t_up_leaked (proj1 (proj2 (proj2 sys_up_post)))
    (conj eq_refl eq_refl)).
Defined.

(** * The system *)

Section Whole.
Context (env : Env) (xe : XenEnv) (de : DaemonEnv).
Context (Hadd : forall m t, de_add de m t = mcd_event_add_shared_page xe 0 m t \/
  exists rc, rc <> 0 /\ de_add de m t = Ret rc t).
#[local] Hint Extern 0 (Minf tstate) => exact (minf_transport de) : typeclass_instances.
#[local] Hint Extern 0 (MinfLaws tstate) => exact (transport_laws de xe Hadd) : typeclass_instances.
Context (tol : fault -> Prop) (Hnull : tol NullDeref).
Context (Hnow : forall n, env_now env n <> 0) (Hdiv : tol DivByZero) (Hoob : tol OutOfBounds).
Implicit Types (s : gstate tstate) (t : tstate).

(** C2. The cache, the transport and the daemon together are safe: started
    in a state that satisfies the invariant of the cache and of the transport,
    a step of the cache, the start of the daemon, a pass of its loop, or its
    end terminates, raises none but the tolerated faults, and leaves a state
    that satisfies the invariant with at most one entry more. The exception
    are a start or an end that fails half way and leaves the hypervisor with a
    ring whose page the daemon has freed. *)
Theorem system_safe (ev : sys_event) s : hv_ok s -> (num s < env_fuel env)%nat -> sys_event_ok xe ev s ->
  wp tol (do_sys env xe de ev) (fun _ s' => (hv_ok s' /\ (num s' <= S (num s))%nat) \/ dangling s') s.
Proof using All. by apply do_sys_spec. Qed.

(** Resuming is a hypercall like any other: issued by the control domain
    while it runs, the hypercall with which the daemon answers does exactly
    what [mcd_event_resume] does to the transport of domain 0, and nothing
    else. *)
Theorem resume_hypercall x s : caller_ok 0 s -> xdoms s !! 0 = Some x -> xe_vcpu xe 0 = true ->
  do_mcd_op env (mcdctl_op xe) 0 (control_call 0 MCD_EVENT_OP_RESUME 0 0 0) s =
  match mcd_event_resume 0 (be s) with
  | Ret rc t => Ret (rc, []) (s <| be := t |>)
  | Fault f => Fault f
  | NoFuel => NoFuel
  end.
Proof using.
  intros [He (x' & Hx' & Hdy & Hmd) Hk] Hx Hv. rewrite Hx in Hx'. injection Hx' as <-.
  destruct (dom_of_is_Some _ _ Hk) as [d Hd]. destruct (dom_of_Some _ _ _ Hd) as [_ Hid].
  unfold do_mcd_op, mbind, M_bind, get. cbn. rewrite He. cbn. rewrite Hx. cbn. rewrite Hmd. cbn.
  unfold mcd_dom_is_dying, dom_load, mbind, M_bind, get. rewrite Hd. cbn. rewrite Hid, Hx, Hdy. cbn.
  unfold control_call, dispatch, mcdctl_op, mbind, M_bind, get. cbn. rewrite Hx.
  unfold mcd_event_op. rewrite Hdy, Hv. cbn [negb]. unfold mbind, M_bind, minf, zoom, event_of, gets. cbn.
  by destruct (mcd_event_resume 0 (be s)).
Qed.



End Whole.

#[local] Hint Extern 0 (Minf tstate) => exact (minf_transport de1) : typeclass_instances.


(** An instance: a pass of the daemon's loop. *)
Lemma system_safe_witness : wp known1 (do_sys env1 xe1 de1 SysServe) (fun _ s' =>
  (@hv_ok _ (minf_transport de1) (transport_laws de1 xe1 add1) s' /\ (num s' <= S (num sys_up))%nat) \/ dangling s') sys_up.
Proof.
  exact (system_safe env1 xe1 de1 add1 known1 (or_introl eq_refl) env1_now (or_intror (or_introl eq_refl))
    (or_intror (or_intror eq_refl)) SysServe sys_up (proj1 sys_up_post) sys_up_num I).
Defined.

(** An instance. *)
Lemma resume_hypercall_witness : exists x, xdoms sys_up !! 0 = Some x /\
  do_mcd_op env1 (mcdctl_op xe1) 0 (control_call 0 MCD_EVENT_OP_RESUME 0 0 0) sys_up =
  match mcd_event_resume 0 (be sys_up) with
  | Ret rc t => Ret (rc, []) (sys_up <| be := t |>)
  | Fault f => Fault f
  | NoFuel => NoFuel
  end.
Proof.
  destruct sys_up_running as (x & Hx & _). exists x. split; [exact Hx|].
  exact (resume_hypercall env1 xe1 de1 x sys_up sys_up_caller Hx eq_refl).
Defined.
