(* ===== verification/ToolProps.v ===== *)
(** The properties of the xl commands, each with an instance on the machine of
    [TDemo]. *)
From S2P Require Import Prelude CMonad Hash Types State Core Evict Inv Remove Evicted EvictShared EvictPart Alloc Create Ops View OpsLib OpsMake OpsSpec Flush Display Admin AdminSpec Lifecycle Hypercall Reach Ring FileOps FileSpec Mcdctl Daemon Exchange Link PageOut PutFile Turns PutTurn GetTurn GetWait TransportLaws System SystemSpec Toolstack ToolSpec TDemo.

(** The texts fit into the line the hypervisor formats them in. *)
Lemma no_zero_app a b : no_zero (a ++ b) <-> no_zero a /\ no_zero b.
Proof. apply Forall_app. Qed.

Lemma no_zero_str x : forallb (fun c => negb (c =? 0)) (Fmt.str x) = true -> no_zero (Fmt.str x).
Proof. intros H. apply Forall_forall. intros c Hc. rewrite forallb_forall in H. specialize (H c ltac:(by apply list_elem_of_In)). lia. Qed.

Ltac text_ok :=
  unfold weight_text, memsize_text, mode_text, params_text;
  rewrite ?no_zero_app, ?length_app;
  repeat match goal with |- context [length (Fmt.dec ?n)] =>
    let H := fresh in pose proof (dec_length n) as H; revert H; generalize (length (Fmt.dec n)); intros ? H end;
  repeat split; try (by apply no_zero_str); try (apply dec_nonzero; lia); cbn; unfold BSIZE; try lia.

Section Commands.
Context (env : Env) (xe : XenEnv) (de : DaemonEnv) (te : ToolEnv).
Context (Hadd : forall m t, de_add de m t = mcd_event_add_shared_page xe 0 m t \/
  exists rc, rc <> 0 /\ de_add de m t = Ret rc t).
#[local] Hint Extern 0 (Minf tstate) => exact (minf_transport de) : typeclass_instances.
#[local] Hint Extern 0 (MinfLaws tstate) => exact (transport_laws de xe Hadd) : typeclass_instances.
Context (tol : fault -> Prop) (Hnull : tol NullDeref) (Hnow : forall n, env_now env n <> 0).
Context (Hok : forall n, io_ok (de_os de) n = true).
Implicit Types (s : gstate tstate) (t : tstate).

(** The score parameters are unsigned. *)
Definition params_ok s : Prop :=
  0 <= alpha (sd_mem (sd s)) /\ 0 <= beta (sd_mem (sd s)) /\ 0 <= alpha (sd_ssd (sd s)) /\ 0 <= beta (sd_ssd (sd s)).

Definition prints (text : list Z) (r : Z * shown) : Prop := r = (0, Printed (text ++ [10])).

Lemma call_prints (cmd : mcd_cmd (option xen_mcdctl)) garbage text (R : gstate tstate -> Prop) s :
  length garbage = BUF_LEN -> hv_ok s -> no_zero text -> (length text < BSIZE)%nat ->
  (forall t, filed (be s) t -> hv_ok (s <| be := t |>) -> managed s (s <| be := t |>) ->
     wp tol (do_mcd_op env (mcdctl_op xe) 0 cmd) (fun r s1 => r = (- ERR_NO, info text) /\ Inv s1 /\
       forall s2, managed s1 s2 -> abs s2 = abs s1 -> s2 = s1 <| be := be s2 |> -> R s2) (s <| be := t |>)) ->
  wp tol (buf ← libxl_text de (fun buf => xc_mcd_text env xe de buf cmd) garbage; mret (print buf))
    (fun r s' => prints text r /\ R s') s.
Proof using Hadd Hok.
  intros Hg Hv Hz Hl Hc. wp_steps. apply text_call_wp; [done..|]. intros t Hf.
  assert (Ht : t_inv t) by (eapply filed_inv; [done|by apply (hv_t_inv xe de Hadd)]).
  destruct (filed_managed xe de Hadd s t (hv_inv _ Hv) Hf) as [Hm _].
  eapply wp_mono; [apply Hc; [done|by apply (hv_be xe de Hadd)|done]|]. intros r s1 (-> & HI & HR).
  exists text. split; [done|]. split; [done|]. split; [done|]. split; [done|]. intros t' Hf'. wp_steps. split; [done|].
  destruct (filed_managed xe de Hadd s1 t' HI Hf') as [Hm' Ha']. by apply HR.
Qed.

Lemma mode_set_ends which mode s t s1 s2 : managed s (s <| be := t |>) -> mode_set which mode (s <| be := t |>) s1 ->
  managed s1 s2 -> abs s2 = abs s1 -> s2 = s1 <| be := be s2 |> -> mode_set which mode s s2.
Proof using.
  intros Hm [H1 H2 H3] Hm2 Ha Hs. split; [eapply managed_trans; [exact Hm|by eapply managed_trans]|..].
  - by rewrite Hs.
  - rewrite Ha, H3. by rewrite Hs.
Qed.

Lemma memsized_ends memsize s t s1 s2 : managed s (s <| be := t |>) -> memsized memsize (s <| be := t |>) s1 ->
  managed s1 s2 -> abs s2 = abs s1 -> s2 = s1 <| be := be s2 |> -> memsized memsize s s2.
Proof using.
  intros Hm [H1 H2 H3 H4 H5] Hm2 Ha Hs. split; [eapply managed_trans; [exact Hm|by eapply managed_trans]|..].
  - by rewrite Hs.
  - by rewrite Hs.
  - by rewrite Ha.
  - intros. rewrite Hs. by apply H5.
Qed.

(** The options of [xl mcd-cache-mode], with the mode each sets. *)
Definition mode_options : list (string * Z) := [("-c"%string, 0); ("-r"%string, 1); ("-p"%string, 2)].

Section Granted.
Context (garbage : list Z) (s : gstate tstate).
Context (Hg : length garbage = BUF_LEN) (Hv : hv_ok s) (Hr : running 0 s) (Hn : (num s < env_fuel env)%nat).

Lemma weight_command (domid weight : Z) : domid ∈ domids s -> 0 <= domid < 2 ^ 16 -> 0 <= weight < 2 ^ 31 ->
  wp tol (main_mcd_weight env xe de garbage [Fmt.str "-d"; Fmt.dec domid; Fmt.str "-w"; Fmt.dec weight])
    (fun r s' => prints (weight_text domid weight) r /\ managed s s' /\ abs s' = abs s /\
       weights s' = md_weight <$> alter_dom domid (fun d => d <| md_weight := weight |>) (doms s)) s.
Proof using All.
  intros Hin Hd Hw.
  change (main_mcd_weight env xe de garbage [Fmt.str "-d"; Fmt.dec domid; Fmt.str "-w"; Fmt.dec weight]) with
    (if s32 (u32 (atoi (Fmt.dec domid))) <? 0 then mret (1, Complaint)
     else buf ← libxl_text de (fun buf => xc_mcd_text env xe de buf
            (XENMCD_weight (Some (u16 (s32 (u32 (atoi (Fmt.dec domid)))), u32 (atoi (Fmt.dec weight)))))) garbage;
          mret (print buf) : M (gstate tstate) (Z * shown)).
  rewrite !atoi_dec, !(wrap_id 32), s32_small by (unfold urange; lia).
  destruct (Z.ltb_spec domid 0); [lia|]. apply call_prints; [done|done|text_ok..|].
  intros t Hf Hv' Hm. eapply wp_mono; [apply (weight_call env xe de Hadd); try done; [apply (hv_caller _ 0 Hv'), Hr|apply Hv']|].
  intros r s1 (-> & H1 & H2 & H3). split; [done|]. split; [apply H1|]. intros s2 Hm2 Ha2 Hs2.
  split; [eapply managed_trans; [exact Hm|by eapply managed_trans]|]. split; [by rewrite Ha2|]. rewrite Hs2. exact H3.
Qed.

Lemma memsize_command (memsize : Z) : covers 0 s -> 0 <= memsize < 2 ^ 31 ->
  wp tol (main_mcd_memsize env xe de garbage [Fmt.str "-m"; Fmt.dec memsize])
    (fun r s' => prints (memsize_text memsize) r /\ memsized memsize s s') s.
Proof using All.
  intros Hcov Hm0.
  change (main_mcd_memsize env xe de garbage [Fmt.str "-m"; Fmt.dec memsize]) with
    (buf ← libxl_text de (fun buf => xc_mcd_text env xe de buf
       (XENMCD_memsize (Some (u32 (atoi (Fmt.dec memsize)))))) garbage;
     mret (print buf) : M (gstate tstate) (Z * shown)).
  rewrite atoi_dec by lia. apply call_prints; [done|done|text_ok..|].
  intros t Hf Hv' Hm. eapply wp_mono; [apply (memsize_call env xe de Hadd tol Hnull Hnow); try done;
    [apply (hv_caller _ 0 Hv'), Hr|apply Hv'..]|].
  intros r s1 (-> & H1). split; [done|]. split; [apply H1|]. intros s2 Hm2 Ha2 Hs2. by eapply memsized_ends.
Qed.

Lemma cache_mode_command opt which mode : (opt, which) ∈ mode_options -> 0 <= mode < 2 ^ 31 ->
  (fst (fst (target_mode which mode s)) = MCD_CACHE_MODE_SHARED -> is_shared s = false -> dom0_clean s) ->
  wp tol (main_mcd_cache_mode env xe de garbage [Fmt.str opt; Fmt.dec mode])
    (fun r s' => prints (mode_text (mode_name which mode)) r /\ mode_set which mode s s') s.
Proof using All.
  intros Hopt Hm0 Hcl.
  assert (He : main_mcd_cache_mode env xe de garbage [Fmt.str opt; Fmt.dec mode] =
    (buf ← libxl_text de (fun buf => xc_mcd_text env xe de buf
       (XENMCD_cache_mode (Some (which, u32 (atoi (Fmt.dec mode)))))) garbage;
     mret (print buf) : M (gstate tstate) (Z * shown))).
  { unfold mode_options in Hopt. repeat (apply elem_of_cons in Hopt as [[= -> ->]|Hopt]; [reflexivity|]). by apply elem_of_nil in Hopt. }
  rewrite He, atoi_dec, (wrap_id 32) by (unfold urange; lia).
  assert (Hna : no_zero (mode_name which mode) /\ (length (mode_name which mode) <= 64)%nat).
  { unfold mode_name, replace_name, partition_name. repeat case_match; (split; [by apply no_zero_str|cbn; lia]). }
  apply call_prints; [done|done|unfold mode_text; text_ok; apply Hna|text_ok; destruct Hna; lia|].
  intros t Hf Hv' Hm. eapply wp_mono; [apply (mode_call env xe de Hadd); [apply (hv_caller _ 0 Hv'), Hr|apply Hv'|lia|exact Hcl]|].
  intros r s1 (-> & H1). split; [done|]. split; [apply H1|]. intros s2 Hm2 Ha2 Hs2. by eapply mode_set_ends.
Qed.

Lemma param_command : params_ok s ->
  wp tol (main_mcd_param env xe de garbage [Fmt.str "-z"])
    (fun r s' => prints (params_text s) r /\ managed s s' /\ abs s' = abs s /\ reset_time (cfg s') = 0) s.
Proof using All.
  intros (Hp1 & Hp2 & Hp3 & Hp4).
  change (main_mcd_param env xe de garbage [Fmt.str "-z"]) with
    (buf ← libxl_text de (fun buf => xc_mcd_text env xe de buf (XENMCD_param (Some (2, 0, 0)))) garbage;
     mret (print buf) : M (gstate tstate) (Z * shown)).
  apply call_prints; [done|done|text_ok..|].
  intros t Hf Hv' Hm. eapply wp_mono; [apply (reset_time_call env xe de Hadd tol 0 0); [apply (hv_caller _ 0 Hv'), Hr|apply Hv']|].
  intros r s1 (-> & H1 & H2 & H3). split; [done|]. split; [apply H1|]. intros s2 Hm2 Ha2 Hs2.
  split; [eapply managed_trans; [exact Hm|by eapply managed_trans]|]. split; [by rewrite Ha2|]. by rewrite Hs2.
Qed.

End Granted.

(** C33. What the administrator types is what the hypervisor does: when the
    kernel grants the library its buffers, [xl mcd-weight] sets the weight of
    the domain it is given and of no other, [xl mcd-memsize] makes the cache
    respect the size it is given, [xl mcd-cache-mode] sets the mode of the
    option, and [xl mcd-param -z], meant to display the parameters, does so
    and sets the reset time to 0; the numbers are those of the command line, the
    text of the hypervisor is printed whole, and the status is 0. *)
Theorem xl_controls garbage s : length garbage = BUF_LEN -> hv_ok s -> running 0 s -> (num s < env_fuel env)%nat ->
  (forall domid weight, domid ∈ domids s -> 0 <= domid < 2 ^ 16 -> 0 <= weight < 2 ^ 31 ->
     wp tol (main_mcd_weight env xe de garbage [Fmt.str "-d"; Fmt.dec domid; Fmt.str "-w"; Fmt.dec weight])
       (fun r s' => prints (weight_text domid weight) r /\ managed s s' /\ abs s' = abs s /\
          weights s' = md_weight <$> alter_dom domid (fun d => d <| md_weight := weight |>) (doms s)) s) /\
  (forall memsize, covers 0 s -> 0 <= memsize < 2 ^ 31 ->
     wp tol (main_mcd_memsize env xe de garbage [Fmt.str "-m"; Fmt.dec memsize])
       (fun r s' => prints (memsize_text memsize) r /\ memsized memsize s s') s) /\
  (forall opt which mode, (opt, which) ∈ mode_options -> 0 <= mode < 2 ^ 31 ->
     (fst (fst (target_mode which mode s)) = MCD_CACHE_MODE_SHARED -> is_shared s = false -> dom0_clean s) ->
     wp tol (main_mcd_cache_mode env xe de garbage [Fmt.str opt; Fmt.dec mode])
       (fun r s' => prints (mode_text (mode_name which mode)) r /\ mode_set which mode s s') s) /\
  (params_ok s ->
     wp tol (main_mcd_param env xe de garbage [Fmt.str "-z"])
       (fun r s' => prints (params_text s) r /\ managed s s' /\ abs s' = abs s /\ reset_time (cfg s') = 0) s).
Proof using All.
  intros Hg Hv Hr Hn. split_and!; intros;
    [by apply weight_command|by apply memsize_command|by apply cache_mode_command|by apply param_command].
Qed.
End Commands.

(** C34. [xl mcd] only looks: whatever its arguments, the names and domains of
    the tool stack, and the memory the operating system grants or refuses, the
    command comes to an end, no line of the statistics is written past its
    buffer and the string that is copied from it ends inside it, and the
    hypervisor keeps its invariant and every cached value. *)
Theorem xl_display_safe env xe de te garbage args s
  (Hadd : forall m t, de_add de m t = mcd_event_add_shared_page xe 0 m t \/
    exists rc, rc <> 0 /\ de_add de m t = Ret rc t) :
  length garbage = BUF_LEN -> @hv_ok _ (minf_transport de) (transport_laws de xe Hadd) s -> running 0 s ->
  wp no_fault (main_mcd_display env xe de te garbage args)
    (fun _ s' => @managed _ (minf_transport de) (transport_laws de xe Hadd) s s' /\ abs s' = abs s) s.
Proof.
  intros Hg Hv Hr. unfold main_mcd_display.
  assert (Hs : looked xe de Hadd s s).
  { split; [|done]. apply softly_managed; [apply Hv|]. apply softly_refl, Hv. }
  destruct (getopt _ _) as [os rest]. case_match; [|by wp_steps].
  case_match. case_match; [by wp_steps|].
  wp_steps. eapply wp_mono; [by apply (libxl_mcd_spec env xe de Hadd)|]. intros buf s' Hl. by wp_steps.
Qed.

(** * Instances *)

Definition stack1 : list Z := replicate BUF_LEN 7.
Definition te1 : ToolEnv := mk_tool_env (fun _ => None) (fun d => d =? 0).

Lemma stack1_length : length stack1 = BUF_LEN.
Proof. apply length_replicate. Qed.

(** An instance: the weight of domain 0 is set to 250. *)
Lemma xl_controls_witness :
  wp known1 (main_mcd_weight env1 xe1 de1 stack1 [Fmt.str "-d"; Fmt.str "0"; Fmt.str "-w"; Fmt.str "250"])
    (fun r s' => prints (Fmt.str "Weight of dom 0 is set to 250") r /\
       @managed _ (minf_transport de1) (transport_laws de1 xe1 add1) sys_up s' /\ abs s' = abs sys_up /\
       weights s' = md_weight <$> alter_dom 0 (fun d => d <| md_weight := 250 |>) (doms sys_up)) sys_up.
Proof.
  destruct (xl_controls env1 xe1 de1 te1 add1 known1 (or_introl eq_refl) env1_now (fun _ => eq_refl) stack1 sys_up
    stack1_length (proj1 sys_up_post) sys_up_running sys_up_num) as (H & _).
  refine (H 0 250 _ ltac:(lia) ltac:(lia)). exact (cr_known 0 sys_up sys_up_caller).
Defined.

(** An instance: [xl mcd -d]. *)
Lemma xl_display_safe_witness :
  wp no_fault (main_mcd_display env1 xe1 de1 te1 stack1 [Fmt.str "-d"])
    (fun _ s' => @managed _ (minf_transport de1) (transport_laws de1 xe1 add1) sys_up s' /\ abs s' = abs sys_up) sys_up.
Proof. exact (xl_display_safe env1 xe1 de1 te1 stack1 _ sys_up add1 stack1_length (proj1 sys_up_post) sys_up_running). Defined.
