(* ===== verification/EvtchnProps.v ===== *)
(** The properties of event channels: the hypercall against its promise,
    channels of the hypervisor against guests, delivery against polling, and
    the end of a domain. *)
From S2P Require Import Prelude CMonad Evtchn EvtchnInv EvtchnPorts EvtchnLists EvtchnClose EvtchnBind EvtchnOps EvtchnDom EvtchnSpec.

(** * A machine

    A domain with one processor and the channel of the cache: the hypervisor's
    end is port 1, the daemon's port 2. *)
Definition env2 : EvtEnv := mk_evt_env (fun _ => true) (fun _ _ => true) (fun _ _ => true) (fun _ _ _ => 0) (fun _ _ _ _ => 0)
  (fun _ _ => 0) (fun _ _ => 0) (fun _ _ => 0) (fun _ _ => true) (fun _ _ _ => 0).

Definition vcpu2 : vcpu := mk_vcpu (replicate (Z.to_nat NR_VIRQS) 0) 0 0 false false ∅ false.
Definition dom2 : edom := mk_edom false false false false ∅ (replicate 16 0) 1 {[0 := vcpu2]} ∅ ∅ ∅.
Definition made : estate := mk_estate {[0 := dom2]} 0.
Definition bind2 : evtchn_op := EVTCHNOP_bind_interdomain DOMID_SELF 1.

Definition started : estate := state_after (evtchn_init env2 0) made.
Definition opened : estate := state_after (alloc_unbound_xen_event_channel env2 0 0 0) started.
Definition linked : estate := state_after (do_event_channel_op env2 0 true (Some bind2)) opened.

(** A concrete machine has a domain. *)
Ltac there := apply (bool_decide_unpack _); vm_compute; exact I.

Lemma env2_xsm d p : ee_xsm_alloc env2 d p = true.
Proof. done. Qed.

Lemma dom2_blank : blank dom2.
Proof.
  assert (Hv : forall i x, ed_vcpus dom2 !! i = Some x -> i = 0 /\ x = vcpu2).
  { intros i x Hx. cbn in Hx. by apply lookup_singleton_Some in Hx as [<- <-]. }
  assert (Hz : forall n (v : nat) p, replicate n 0 !! v = Some p -> p = 0) by (intros n v p [-> _]%lookup_replicate; done).
  split; [split|..]; try done.
  - intros i x [-> ->]%Hv. done.
  - intros i x v p [-> ->]%Hv. apply Hz.
  - by intros i x [-> ->]%Hv.
  - intros irq p. apply Hz.
Qed.

Lemma started_run : returns (evtchn_init env2 0) made (fun rc => rc =? 0) = true.
Proof. by vm_compute. Qed.

Lemma opened_run : returns (alloc_unbound_xen_event_channel env2 0 0 0) started (fun rc => rc =? 1) = true.
Proof. by vm_compute. Qed.

Lemma linked_run : returns (do_event_channel_op env2 0 true (Some bind2)) opened (fun r => fst r =? 0) = true.
Proof. by vm_compute. Qed.

Lemma made_only d dd : es_doms made !! d = Some dd -> d = 0 /\ dd = dom2.
Proof. unfold made. cbn. by intros [<- <-]%lookup_singleton_Some. Qed.

Lemma started_ewf : ewf started.
Proof.
  pose proof (init_spec env2 no_fault env2_xsm 0 dom2 made eq_refl dom2_blank) as Hs.
  destruct (wp_after _ _ _ _ _ started_run (Hs ltac:(intros d dd Hd Hdd; by apply made_only in Hdd as [-> _])
    ltac:(intros d dd p c rd rp [-> ->]%made_only Hc; done))) as (rc & Hrc & _ & [[-> _]|([-> | ->] & Hw & _)]); done.
Qed.

Lemma opened_ewf : ewf opened.
Proof.
  assert (Hd : is_Some (es_doms started !! 0)) by there.
  destruct Hd as [dd Hd]. assert (Hv : is_Some (ed_vcpus dd !! 0)) by apply (sh_vcpu0 _ (do_shape _ (ew_dom _ started_ewf _ _ Hd))).
  destruct (wp_after _ _ _ _ _ opened_run (alloc_xen_spec env2 no_fault env2_xsm 0 0 0 dd started started_ewf Hd Hv))
    as (rc & _ & _ & [Hr|(_ & _ & Hw & _)]); [by apply refused_ewf in Hr|done].
Qed.

Lemma linked_ewf : ewf linked.
Proof.
  assert (Hd : is_Some (es_doms opened !! 0)) by there.
  destruct (wp_after _ _ _ _ _ linked_run (op_kept env2 no_fault env2_xsm 0 true (Some bind2) opened opened_ewf Hd))
    as (rc & _ & _ & Hw & _). done.
Qed.

(** * The hypercall *)

(** C22. Every event-channel hypercall of a domain that exists returns without a
    fault (no BUG, no NULL or dangling pointer, no index out of an array, no
    endless loop), keeps the tables of all domains consistent (a virtual or
    physical interrupt names the port bound to it and back, the lists of
    interrupts of the processors are well formed and complete, the two ends of
    a pair name each other), and does to the bindings exactly what its command
    promises: a refusal has one of the command's reasons and changes no
    binding, a success binds one port that was free, connects a port that
    waited for the caller, frees the port it closes and lets the other end
    wait again, and so on. *)
Theorem event_op_refines (env : EvtEnv) (Hxsm : forall d p, ee_xsm_alloc env d p = true) cur w op s :
  ewf s -> is_Some (es_doms s !! cur) ->
  wp no_fault (do_event_channel_op env cur w (Some op)) (fun r s' => ewf s' /\ same_doms s s' /\ promised env cur w op s r s') s.
Proof.
  intros Hw Hcur. pose proof (op_kept env no_fault Hxsm cur w (Some op) s Hw Hcur) as H1.
  pose proof (op_promised env no_fault Hxsm cur w op s Hw Hcur) as H2. unfold wp in *.
  destruct (do_event_channel_op env cur w (Some op) s) as [r s'|f|]; [|done..]. by destruct H1 as (? & ? & _).
Qed.

(** The daemon binds its end of the cache's channel: it gets port 2, which is
    pending at once. *)
Lemma event_op_refines_witness : exists s', do_event_channel_op env2 0 true (Some bind2) opened = Ret (0, OutPort 2) s' /\
  ewf s' /\ view s' 0 1 = Some (mk_evtchn (ECS_INTERDOMAIN 0 2) true 0).
Proof.
  assert (Hd : is_Some (es_doms opened !! 0)) by there.
  pose proof (event_op_refines env2 env2_xsm 0 true bind2 opened opened_ewf Hd) as H.
  destruct (wp_after _ _ _ _ _ linked_run H) as (r & _ & Hr & Hw & _). exists linked.
  split; [rewrite Hr; by vm_compute in Hr |- *|]. split; [done|by vm_compute].
Defined.

(** * The hypervisor's channels *)

(** C24. Whatever hypercalls guests make, in any order and from any domains, a
    channel that the hypervisor made for itself stays: it is still the
    hypervisor's, it still notifies the same processor, and it still is
    reserved for or connected to the domain it was made for. None of the calls
    faults. *)
Theorem xen_channels_stay (env : EvtEnv) (Hxsm : forall d p, ee_xsm_alloc env d p = true) calls s :
  ewf s -> Forall (fun call => is_Some (es_doms s !! call.1.1)) calls ->
  wp no_fault (guest_run env calls) (fun _ s' => ewf s' /\
    forall d p c, view s d p = Some c -> ec_xen c = true ->
      exists c', view s' d p = Some c' /\ ec_xen c' = true /\ ec_notify c' = ec_notify c /\ remote_of c' = remote_of c) s.
Proof.
  intros Hw Hall. eapply wp_mono; [by apply run_kept|]. intros r s' (Hw' & _ & Hk). split; [done|]. exact Hk.
Qed.

(** Closing both ends and resetting the table leave the hypervisor's end, which
    waits for the domain again. *)
Lemma xen_channels_stay_witness :
  let calls := [(0, true, Some (EVTCHNOP_close 1)); (0, true, Some (EVTCHNOP_close 2)); (0, true, Some (EVTCHNOP_reset DOMID_SELF))] in
  exists rs s', guest_run env2 calls linked = Ret rs s' /\ rs = [(- EINVAL, NoOut); (0, NoOut); (0, NoOut)] /\ ewf s' /\
    exists c', view s' 0 1 = Some c' /\ ec_xen c' = true /\ ec_notify c' = 0 /\ remote_of c' = Some 0.
Proof.
  intros calls. assert (Hall : Forall (fun call => is_Some (es_doms linked !! call.1.1)) calls).
  { repeat constructor; there. }
  pose proof (xen_channels_stay env2 env2_xsm calls linked linked_ewf Hall) as H.
  destruct (wp_returns _ _ _ H) as (rs & s' & Hr & Hw & Hk). exists rs, s'. split; [done|]. split; [|split; [done|]].
  - by vm_compute in Hr; injection Hr as <- _.
  - apply (Hk 0 1 (mk_evtchn (ECS_INTERDOMAIN 0 2) true 0)); [by vm_compute|done].
Defined.

(** * Delivery and polling *)

(** C23. No wake-up is lost between the hypervisor and a domain that polls: if
    the hypervisor notifies through its channel before the processor polls the
    other end, the poll returns at once; if it notifies after, the processor,
    which may sleep by then, is woken. Both ways the processor runs, it polls
    no longer, and the port is pending. *)
Theorem no_lost_wakeup d p dd c rd q rdd v deliver ports s :
  ewf s -> es_doms s !! d = Some dd -> ed_dying dd = false -> view s d p = Some c -> ec_xen c = true ->
  ec_state c = ECS_INTERDOMAIN rd q -> es_doms s !! rd = Some rdd -> is_Some (ed_vcpus rdd !! v) ->
  Z.of_nat (length ports) <= 128 -> Some q ∈ ports ->
  let running s' := exists rdd', es_doms s' !! rd = Some rdd' /\ awake rdd' v /\ q ∈ ed_pending rdd' in
  wp no_fault (notify_via_xen_event_channel d p;; do_poll rd v true deliver ports) (fun _ s' => running s') s /\
  wp no_fault (do_poll rd v true deliver ports;; notify_via_xen_event_channel d p) (fun _ s' => running s') s.
Proof.
  intros Hw Hd Hdy Hv Hx Hst Hrd Hvc Hlen Hin running. split; wp_steps.
  - eapply wp_mono; [by apply (notify_spec no_fault d p dd c)|]. intros [] s1. rewrite Hdy, Hst.
    intros (rdd0 & rdd1 & c1 & Hrd0 & _ & -> & Hs). rewrite Hrd in Hrd0. injection Hrd0 as <-.
    assert (Hq : q ∈ ed_pending rdd1) by (rewrite (se_pending _ _ _ _ Hs); apply elem_of_union; right; by apply elem_of_singleton).
    eapply wp_mono; [apply (poll_spec no_fault rd v deliver ports rdd1)|].
    + apply set_dom_eq.
    + by apply (dsame_has rdd rdd1 v (se_same _ _ _ _ Hs)).
    + done.
    + intros rc s2 (rdd2 & -> & _ & Hp & Hr). exists rdd2. split; [apply set_dom_eq|]. split; [|by rewrite Hp].
      destruct deliver; [by destruct Hr|]. destruct (poll_ports rdd1 ports) eqn:Hpp; [by destruct Hr|].
      by destruct (poll_ports_none _ _ Hpp q Hin).
  - eapply wp_mono; [by apply (poll_spec no_fault rd v deliver ports rdd)|]. intros rc s1 (rdd1 & -> & Hs1 & Hp1 & Hr).
    pose proof (set_same rd rdd rdd1 s Hrd Hs1) as Hes. assert (Hw1 : ewf (set_dom rd rdd1 s)) by (by eapply esame_ewf).
    destruct (esame_forth _ _ d dd Hes Hd) as (dd1 & Hd1 & Hds). eapply wp_mono.
    { apply (notify_spec no_fault d p dd1 c); [done|done| |done]. by rewrite (view_same _ _ Hes d p). }
    intros [] s2. rewrite (ds_dying _ _ Hds), Hdy, Hst. intros (rdd0 & rdd2 & c1 & Hrd0 & _ & -> & Hs).
    rewrite set_dom_eq in Hrd0. injection Hrd0 as <-. exists rdd2. split; [apply set_dom_eq|]. split.
    + assert (Hcase : awake rdd1 v \/ (q ∉ ed_pending rdd1) /\ asleep rdd1 v ports).
      { destruct deliver; [left; by destruct Hr|]. destruct (poll_ports rdd ports) eqn:Hpp; [left; by destruct Hr|right].
        split; [rewrite Hp1; by apply (poll_ports_none _ _ Hpp)|by destruct Hr]. }
      destruct Hcase as [Ha|(Hq & Hm & x & Hxv & _ & Hwt)]; [by apply (se_awake _ _ _ _ Hs)|].
      apply (se_woken _ _ _ _ Hs Hq v x); [done|done|by apply Hwt].
    + rewrite (se_pending _ _ _ _ Hs). apply elem_of_union. right. by apply elem_of_singleton.
Qed.

(** The daemon's processor, after it has taken the first event. *)
Definition taken : estate := on 0 (fun dd => dd <| ed_pending := ∅ |>) linked.

Lemma taken_ewf : ewf taken.
Proof. eapply esame_ewf; [|apply linked_ewf]. apply on_same. intros dd _. split; cbn; auto. Qed.

Lemma no_lost_wakeup_witness :
  (exists s1, do_poll 0 0 true false [Some 2] taken = Ret 0 s1 /\
    (vc_blocked <$> (es_doms s1 !! 0 ≫= fun dd => ed_vcpus dd !! 0)) = Some true) /\
  wp no_fault (do_poll 0 0 true false [Some 2];; notify_via_xen_event_channel 0 1)
    (fun _ s' => exists dd', es_doms s' !! 0 = Some dd' /\ awake dd' 0 /\ 2 ∈ ed_pending dd') taken.
Proof.
  split; [eexists; split; [by vm_compute|by vm_compute]|].
  assert (Hd : is_Some (es_doms taken !! 0)) by there.
  destruct Hd as [dd Hd].
  assert (Hdy : (ed_dying <$> es_doms taken !! 0) = Some false) by (by vm_compute). rewrite Hd in Hdy. injection Hdy as Hdy.
  refine (proj2 (no_lost_wakeup 0 1 dd (mk_evtchn (ECS_INTERDOMAIN 0 2) true 0) 0 2 dd 0 false [Some 2] taken taken_ewf Hd Hdy _ _ _ Hd _ _ _)).
  - by vm_compute.
  - done.
  - done.
  - apply (sh_vcpu0 _ (do_shape _ (ew_dom _ taken_ewf _ _ Hd))).
  - done.
  - by left.
Defined.

(** * The end of a domain *)

(** The domain is marked before its channels are taken down. *)
Definition dying (d : Z) (s : estate) : estate := on d (fun dd => dd <| ed_dying := true |>) s.

Lemma dying_ewf d s : ewf s -> ewf (dying d s).
Proof.
  intros [H1 H2].
  assert (Hback : forall d' x, es_doms (dying d s) !! d' = Some x -> exists y, es_doms s !! d' = Some y /\
    (forall p, chn_at x p = chn_at y p) /\ (dom_ok y -> dom_ok x)).
  { intros d' x. unfold dying. destruct (decide (d = d')) as [<-|Hne]; [|rewrite on_ne by done; by exists x].
    destruct (es_doms s !! d) as [y|] eqn:Hy; [|unfold on; cbn; by rewrite lookup_alter_eq, Hy].
    rewrite (on_eq _ _ _ _ Hy). intros [= <-]. exists y. split; [done|]. split; [done|]. intros [D0 D1 D2 D3 D4 D5 D6 D7 D8].
    split; try done.
    - by destruct D0.
    - intros p c Hc. by destruct (D1 p c Hc).
    - intros i x Hx. destruct (D8 i x Hx) as (ps & Hnd & Hl & Hin). exists ps. split; [done|]. split; [|done].
      by apply (pirq_list_ext y). }
  split.
  - intros d' x Hx. destruct (Hback d' x Hx) as (y & Hy & _ & Hok). by apply Hok, (H1 d').
  - intros d' x p c rd rp Hx Hc Hst. destruct (Hback d' x Hx) as (y & Hy & Hch & _). rewrite Hch in Hc.
    destruct (H2 _ _ _ _ _ _ Hy Hc Hst) as (rdd & rc & Hrd & Hrc & Hrs). unfold dying.
    destruct (decide (d = rd)) as [<-|Hne].
    + exists (rdd <| ed_dying := true |>), rc. by rewrite (on_eq _ _ _ _ Hrd).
    + exists rdd, rc. by rewrite on_ne.
Qed.

(** C25. When a domain is killed, [evtchn_destroy] ends without a fault: the
    domain has no channel left, not even the hypervisor's, every port of
    another domain that was connected to it waits for it again, and every
    other binding of the machine is as before. *)
Theorem destroy_unbinds d s : ewf s -> is_Some (es_doms s !! d) ->
  wp no_fault (evtchn_destroy d) (fun _ s' => ewf s' /\ forall d' p,
    view s' d' p =
      if decide (d' = d) then None
      else (fun c => match ec_state c with
                     | ECS_INTERDOMAIN rd _ => if decide (rd = d) then c <| ec_state := ECS_UNBOUND d |> else c
                     | _ => c
                     end) <$> view s d' p) (dying d s).
Proof.
  intros Hw [dd Hd]. eapply wp_mono.
  { eapply (destroy_spec no_fault d (dd <| ed_dying := true |>)); [by apply dying_ewf|unfold dying; by rewrite (on_eq _ _ _ _ Hd)|done]. }
  intros _ s' [Hw' Hv]. split; [done|]. intros d' p. rewrite (Hv d' p). unfold v_destroy. case_decide; [done|].
  assert (view (dying d s) d' p = view s d' p) as ->; [|done]. unfold view, chn, dying. by rewrite on_ne.
Qed.

(** A second domain, connected to the first. *)
Definition two : estate := state_after
  (_ ← do_event_channel_op env2 0 true (Some (EVTCHNOP_alloc_unbound DOMID_SELF 1));
   do_event_channel_op env2 1 true (Some (EVTCHNOP_bind_interdomain 0 3)))
  (state_after (evtchn_init env2 1) (linked <| es_doms ::= <[1 := dom2]> |>)).

Lemma two_run : returns
  (_ ← do_event_channel_op env2 0 true (Some (EVTCHNOP_alloc_unbound DOMID_SELF 1));
   do_event_channel_op env2 1 true (Some (EVTCHNOP_bind_interdomain 0 3)))
  (state_after (evtchn_init env2 1) (linked <| es_doms ::= <[1 := dom2]> |>)) (fun r => fst r =? 0) = true.
Proof. by vm_compute. Qed.

Lemma two_start : returns (evtchn_init env2 1) (linked <| es_doms ::= <[1 := dom2]> |>) (fun rc => rc =? 0) = true.
Proof. by vm_compute. Qed.

Lemma two_ewf : ewf two.
Proof.
  assert (Hp : peers (linked <| es_doms ::= <[1 := dom2]> |>)).
  { intros d dd p c rd rp. cbn. intros [[<- <-]|[Hne Hd]]%lookup_insert_Some Hc Hst; [done|].
    destruct (ew_peers _ linked_ewf _ _ _ _ _ _ Hd Hc Hst) as (rdd & rc & Hrd & Hrc). exists rdd, rc. split; [|done].
    rewrite lookup_insert_ne; [done|]. intros <-. assert (H : es_doms linked !! 1 = None) by (by vm_compute). congruence. }
  assert (Ho : forall d dd, d <> 1 -> es_doms (linked <| es_doms ::= <[1 := dom2]> |>) !! d = Some dd -> dom_ok dd).
  { intros d dd Hne. cbn. rewrite lookup_insert_ne by done. apply (ew_dom _ linked_ewf d). }
  destruct (wp_after _ _ _ _ _ two_start (init_spec env2 no_fault env2_xsm 1 dom2 (linked <| es_doms ::= <[1 := dom2]> |>)
    (lookup_insert_eq _ _ _) dom2_blank Ho Hp))
    as (rc & Hrc & _ & [[-> _]|(_ & Hw & _)]); [done|].
  set (s1 := state_after _ _) in Hw. assert (Hd0 : is_Some (es_doms s1 !! 0)) by there.
  assert (Hd1 : is_Some (es_doms s1 !! 1)) by there.
  destruct (wp_after no_fault (_ ← do_event_channel_op env2 0 true (Some (EVTCHNOP_alloc_unbound DOMID_SELF 1));
     do_event_channel_op env2 1 true (Some (EVTCHNOP_bind_interdomain 0 3))) (fun _ s' => ewf s') s1 _ two_run) as (r & _ & _ & H); [|done].
  wp_steps. eapply wp_mono; [by apply op_kept|]. intros r s2 (Hw2 & Hs2 & _).
  eapply wp_mono; [apply op_kept; [done|done|by apply Hs2]|]. by intros r' s3 (Hw3 & _).
Qed.

(** The second domain dies: its channel to the first waits again. *)
Lemma destroy_unbinds_witness : view two 0 3 = Some (mk_evtchn (ECS_INTERDOMAIN 1 1) false 0) /\
  wp no_fault (evtchn_destroy 1) (fun _ s' => ewf s' /\ view s' 1 1 = None /\
    view s' 0 3 = Some (mk_evtchn (ECS_UNBOUND 1) false 0)) (dying 1 two).
Proof.
  split; [by vm_compute|]. assert (Hd : is_Some (es_doms two !! 1)) by there.
  eapply wp_mono; [exact (destroy_unbinds 1 two two_ewf Hd)|]. intros _ s' [Hw Hv]. split; [done|].
  split; [exact (Hv 1 1)|]. rewrite (Hv 0 3). by vm_compute.
Defined.
