(* ===== verification/TlsfProps.v ===== *)
(** The properties of the memory allocator: the view of its clients, what
    remains when everything is freed, pools on their own, and the largest
    requests. *)
From S2P Require Import Prelude CMonad Tlsf TlsfMap TlsfList TlsfLinks TlsfInv TlsfWf TlsfAlloc TlsfGrow TlsfFree TlsfHeap TlsfXmalloc TlsfMachine.

(** * Concrete states *)

Definition cold : tlsf := mk_tlsf (fun _ => 0) ∅ ∅ None 0 0.

Lemma cold_boot : at_boot cold.
Proof. done. Qed.

(** A run of operations from the start. *)
Definition run_to (ops : list xop) : tlsf := foldl (fun s op => state_after (run_xop bump_env op) s) cold ops.

Definition asked : list xop := [XAlloc 100 64].
Definition at_asked : Z := 16448.

Lemma asked_runs : returns (run_xop bump_env (XAlloc 100 64)) cold (fun r => r =? at_asked) = true.
Proof. by vm_compute. Qed.

Lemma asked_ok : xallowed ∅ (XAlloc 100 64).
Proof. split; [lia|]. split; [lia|]. exists 6. right. by exists 6. Qed.

Lemma asked_reach : exists H, xreach bump_env (run_to asked) H /\ H !! at_asked = Some (100, ∅).
Proof.
  destruct (xreach_next bump_env cold ∅ (XAlloc 100 64) _ bump_env_ok (xreach_boot _ _ cold_boot) asked_ok asked_runs)
    as (r & H & Hr%Z.eqb_eq & Hs & HR). exists H. split; [done|]. destruct Hs as [[E _]|(_ & _ & _ & _ & -> & _)]; [by rewrite Hr in E|].
  rewrite Hr. apply lookup_insert_eq.
Qed.



(** C17. Nothing leaks: in every state of such a client in which no object is
    live, the pool of [_xmalloc] has no block in use, its figure of bytes in
    use is that of the sentinels, and every run of memory that is still held is
    a region of a pool or holds a pool itself; the free blocks are on the lists
    of their sizes and no two of them follow each other. *)
Theorem everything_freed env s : env_ok env -> xreach env s ∅ -> xenpool s <> 0 -> exists B R F p, wf s B R F /\
  (forall a n, used_map B !! a <> Some (xenpool s, n)) /\
  (forall r, is_Some (h_runs s !! r) -> is_Some (R !! r) \/ is_Some (h_pools s !! r)) /\
  h_pools s !! xenpool s = Some p /\ used_size p = u64 (msum (wt (xenpool s)) (filter (fun ab => k_size ab.2 = 0) B)).
Proof.
  intros HE HR Hx. destruct (xreach_rel env s ∅ HE HR) as [O [HA HO _]].
  assert (forall q, O !! q = None) as Hno by (intros q; specialize (HO q); rewrite lookup_empty in HO; by destruct (O !! q)).
  destruct HA as [[(_ & _ & E) _]|(_ & B & R & F & HH)]; [done|]. destruct (hp_pool _ _ _ _ _ HH) as (p & Hp & _).
  assert (forall a n, used_map B !! a <> Some (xenpool s, n)) as Hused.
  { intros a n Ha. destruct (hp_used _ _ _ _ _ HH a n Ha) as (q & o & Hq & _). by rewrite Hno in Hq. }
  exists B, R, F, p. split_and!; [apply (hp_wf _ _ _ _ _ HH)|exact Hused| |exact Hp|].
  - intros r Hr. destruct (hp_runs _ _ _ _ _ HH r Hr) as [?|[?|(q & o & k & Hq & _)]]; [auto..|]. by rewrite Hno in Hq.
  - rewrite (pw_used _ _ _ _ _ (wf_pools _ _ _ _ (hp_wf _ _ _ _ _ HH) _ p Hp)). f_equal. apply msum_filter.
    intros a b Hb Hs. unfold wt. rewrite decide_False; [done|]. intros [E Hf]. apply (Hused a (k_size b)).
    apply used_lookup. exists b. by rewrite E.
Qed.

Lemma everything_freed_witness : exists s, env_ok bump_env /\ xreach bump_env s ∅ /\ xenpool s <> 0 /\
  exists B R F p, wf s B R F /\ (forall a n, used_map B !! a <> Some (xenpool s, n)) /\
  (forall r, is_Some (h_runs s !! r) -> is_Some (R !! r) \/ is_Some (h_pools s !! r)) /\
  h_pools s !! xenpool s = Some p /\ used_size p = u64 (msum (wt (xenpool s)) (filter (fun ab => k_size ab.2 = 0) B)).
Proof.
  destruct asked_reach as (H & HR & Hq).
  assert (xstep bump_env ∅ (XAlloc 100 64) at_asked (<[at_asked := (100, ∅)]> ∅)) as Hs1.
  { right. split_and!; done. }
  destruct (returns_after (run_xop bump_env (XAlloc 100 64)) cold _ asked_runs) as (r & Hr%Z.eqb_eq & Hrun). subst r.
  pose proof (xreach_step _ _ _ _ _ _ _ (xreach_boot bump_env _ cold_boot) asked_ok Hrun Hs1) as HR1.
  destruct (xreach_next bump_env _ (<[at_asked := (100, ∅)]> ∅) (XFree at_asked) (fun _ => true) bump_env_ok HR1)
    as (r & H2 & _ & [_ ->] & HR2); [right; rewrite lookup_insert_eq; by eexists|by vm_compute|].
  exists (run_to [XAlloc 100 64; XFree at_asked]).
  assert (xreach bump_env (run_to [XAlloc 100 64; XFree at_asked]) ∅) as HR3 by exact HR2.
  assert (xenpool (run_to [XAlloc 100 64; XFree at_asked]) <> 0) as Hx by (by vm_compute).
  split; [exact bump_env_ok|]. split; [exact HR3|]. split; [exact Hx|].
  exact (everything_freed bump_env _ bump_env_ok HR3 Hx).
Defined.

(** * Pools on their own *)

(** A pool of a user, in its first page. *)
Definition tmem_pool : xmem_pool := new_pool "tmem" (UserPool 0) 16384 0 8192.
Definition one_pool : tlsf := mk_tlsf (fun _ => 0) {[4096 := 8192]} {[4096 := tmem_pool]} (Some [4096]) 0 1.









(** A pool whose first request did not fit its region cannot be destroyed: the
    region, which stays empty, is taken for a pool that was never used. *)
Lemma failed_allocation_blocks_destroy :
  (xmem_pool_alloc bump_env 100000 4096;; xmem_pool_destroy bump_env 4096) one_pool = Fault BugOn.
Proof. by vm_compute. Qed.
