(* ===== verification/VsprintfProps.v ===== *)
(** The properties of formatted output and input: the text a format stands for,
    any format at all, the lines the cache writes, and reading back what was
    printed. *)
From S2P Require Import Prelude CMonad Types State Core Display Vsprintf VsprintfSpec VsprintfText VsprintfScan.
From S2P Require Import Evict Demo.

(** * The lines of the cache

    [mcdc_hashT_display] prints a key character by character behind the line. *)
Fixpoint print_key (info : Z) (key_val : list Z) (n : Z) (k : nat) : T Z :=
  match k with
  | O => mret n
  | S k =>
      match key_val with
      | [] => raise OutOfBounds
      | c :: key_val =>
          r ← scnprintf (info + n) (Z.of_nat BSIZE - n) [c_pct; c_c] [VInt c];
          print_key info key_val (n + r) k
      end
  end.

Definition print_entry (info : Z) (now : Z) (e : mcd_hashT) : T Z :=
  n ← scnprintf info (Z.of_nat BSIZE)
        (Fmt.str "nr_pages:%u,ref:%u,passed_time:%lx,hash:%u,key_size:%u,val_size:%u,key:")
        [VInt (mh_nr_pages e); VInt (mh_ref e); VLong (now - mh_put_time e); VInt (mh_hash e); VInt (mh_key_size e); VInt (mh_val_size e)];
  n ← print_key info (mh_key_val e) n (Z.to_nat (mh_key_size e));
  r ← scnprintf (info + n) (Z.of_nat BSIZE - n) [10] [];
  mret (n + r).

(** [if ( sum + n >= len ) return sum; mcd_copy_to_guest_buf_offset(buf, off, info, n + 1);] *)
Definition copy_line (info off len n : Z) : T (list write * Z) :=
  m ← gets p_mem;
  mret (if len <=? n then ([], 0) else ([(off, m <$> seqZ info (n + 1))], n)).

(** * What [scnprintf] leaves *)

(** Reading what was stored. *)
Lemma read_stored a l m (f : Z -> Z) : (forall x, f x = stored a l m x) -> f <$> seqZ a (Z.of_nat (length l)) = l.
Proof.
  intros Hf. apply list_eq_same_length with (n := length l); [done|by rewrite length_fmap, length_seqZ, Nat2Z.id|].
  intros i x y Hi Hx Hy. apply list_lookup_fmap_Some in Hx as (z & -> & [-> Hz]%lookup_seqZ).
  rewrite Hf, stored_in by lia. replace (Z.to_nat (a + Z.of_nat i - a)) with i by lia. by apply nth_lookup_Some.
Qed.

(** [text], cut off, and a zero at [info] in the memory [m]. *)
Definition holds (info : Z) (text : list Z) (m : Z -> Z) (s : prt) : Prop :=
  forall x, p_mem s x = stored info (Fmt.scn BSIZE text ++ [0]) m x.

Definition cut (text : list Z) : Z := Z.of_nat (length (Fmt.scn BSIZE text)).

Lemma cut_range text : 0 <= cut text <= 1023.
Proof. unfold cut, Fmt.scn, BSIZE. rewrite length_take. lia. Qed.

Lemma cut_min text : cut text = Z.min (Z.of_nat (length text)) 1023.
Proof. unfold cut, Fmt.scn, BSIZE. rewrite length_take. lia. Qed.

Lemma clip_min n size : 0 <= n < 2 ^ 31 -> 1 <= size < 2 ^ 31 -> clip n size = Z.min n (size - 1).
Proof.
  intros Hn Hs. unfold clip. rewrite (wrap_id 64 n) by (unfold urange; lia). rewrite s32_small by lia.
  destruct (Z.leb_spec size n); [destruct (Z.ltb_spec 0 (size - 1)); lia|destruct (Z.ltb_spec 0 n); lia].
Qed.

(** One call of [scnprintf] on a format of well-formed pieces. *)
Lemma scnprintf_pieces ps buf size s : Forall piece_ok ps -> 1 <= size < 2 ^ 31 -> 0 < buf -> buf + size <= 2 ^ 64 ->
  Z.of_nat (length (text_of ps)) < 2 ^ 31 ->
  wp no_fault (scnprintf buf size (fmt_of ps) (args_of ps)) (fun n s' => n = Z.min (Z.of_nat (length (text_of ps))) (size - 1) /\
    forall x, p_mem s' x = stored buf (line size (text_of ps)) (p_mem s) x) s.
Proof.
  intros Hps Hs Hb Hbs Ht. unfold scnprintf. wp_steps. eapply wp_mono.
  { apply (vsnprintf_says no_fault) with (text := text_of ps) (args' := []); [lia|done|done|].
    rewrite <- (app_nil_r (args_of ps)). by apply says_format. }
  intros r s1 (-> & _ & Hm). wp_steps. split; [|done]. rewrite s32_small by lia. apply clip_min; lia.
Qed.

Lemma first_line ps info s : Forall piece_ok ps -> 0 < info -> info + Z.of_nat BSIZE <= 2 ^ 64 -> Z.of_nat (length (text_of ps)) < 2 ^ 31 ->
  wp no_fault (scnprintf info (Z.of_nat BSIZE) (fmt_of ps) (args_of ps))
    (fun n s' => n = cut (text_of ps) /\ holds info (text_of ps) (p_mem s) s') s.
Proof.
  intros Hps Hi Hr Ht. eapply wp_mono; [apply scnprintf_pieces; [done|unfold BSIZE; lia|done..]|]. intros n s1 [-> Hm]. split; [|exact Hm].
  rewrite cut_min. unfold BSIZE. lia.
Qed.

(** Printing behind what is in the buffer. *)
Lemma more_line ps info text m s : Forall piece_ok ps -> 0 < info -> info + Z.of_nat BSIZE <= 2 ^ 64 -> Z.of_nat (length (text_of ps)) < 2 ^ 31 ->
  holds info text m s ->
  wp no_fault (scnprintf (info + cut text) (Z.of_nat BSIZE - cut text) (fmt_of ps) (args_of ps))
    (fun n s' => cut text + n = cut (text ++ text_of ps) /\ holds info (text ++ text_of ps) m s') s.
Proof.
  intros Hps Hi Hr Ht Hh. pose proof (cut_range text) as Hc. unfold BSIZE in *. change (Z.of_nat 1024) with 1024 in *.
  eapply wp_mono; [apply scnprintf_pieces; [done|lia..|done]|]. intros n s1 [-> Hm]. set (t := text_of ps) in *.
  split; [pose proof (cut_min text); pose proof (cut_min (text ++ t)) as H2; rewrite length_app in H2; lia|].
  intros x. rewrite Hm. unfold line. destruct (Z.eqb_spec (1024 - cut text) 0); [lia|].
  assert (Hs : Fmt.scn BSIZE (text ++ t) = Fmt.scn BSIZE text ++ take (Z.to_nat (1024 - cut text - 1)) t).
  { pose proof (cut_min text). unfold Fmt.scn, BSIZE. rewrite take_app. f_equal. f_equal. lia. }
  rewrite Hs, <- app_assoc, (stored_app info (Fmt.scn BSIZE text)). fold (cut text). set (l2 := take _ t ++ [0]).
  destruct (decide (info + cut text <= x < info + cut text + Z.of_nat (length l2))) as [Hx|Hx]; [by rewrite !stored_in by done|].
  rewrite !(stored_out _ l2) by lia. rewrite Hh, stored_app. apply stored_out. fold (cut text).
  subst l2. rewrite length_app in Hx. cbn [length] in *. lia.
Qed.

Lemma copied info off len text m s : holds info text m s ->
  wp no_fault (copy_line info off len (cut text)) (fun w _ => w = emit off len text) s.
Proof.
  intros Hh. unfold copy_line, emit. wp_steps. fold (cut text). destruct (len <=? cut text); [done|]. do 3 f_equal.
  replace (cut text + 1) with (Z.of_nat (length (Fmt.scn BSIZE text ++ [0]))) by (rewrite length_app; unfold cut; cbn; lia).
  by apply read_stored with (m := m).
Qed.

(** * Numbers and names in a line *)

Lemma digits_numeral k base n acc : 2 <= base -> 0 < n < 2 ^ Z.of_nat k ->
  Fmt.digits k base n acc = rev (revdigits k false base n) ++ acc.
Proof.
  intros Hb. revert n acc. induction k as [|k IH]; intros n acc Hn; [cbn in Hn; lia|]. cbn [Fmt.digits revdigits].
  destruct (Z.eqb_spec n 0); [lia|]. cbn [rev]. rewrite <- app_assoc. cbn [app]. destruct (Z.ltb_spec n base).
  - rewrite Z.div_small, Z.mod_small by lia. by destruct k.
  - apply IH. pose proof (div_pow k base n Hb ltac:(lia)). pose proof (Z.div_str_pos n base ltac:(lia)). lia.
Qed.

Lemma numeral_digits base n : 2 <= base -> 0 <= n < 2 ^ 64 -> numeral false base n = Fmt.digits 64 base n [].
Proof.
  intros Hb Hn. unfold numeral. destruct (Z.eqb_spec n 0) as [->|].
  - cbn [Fmt.digits]. destruct (Z.ltb_spec 0 base); [done|lia].
  - rewrite digits_numeral, app_nil_r; [done..|cbn; lia].
Qed.

Definition int_piece (k : ikind) (q : qualifier) (v : Z) : piece := i_conv (mk_item k q v 0 0).
Definition name_piece (name : list Z) : piece := Conv plain (Str (Some (name ++ [0]))).
Definition lits (x : string) : list piece := Lit <$> Fmt.str x.

Lemma signed_text q v : piece_text (int_piece Kd q v) = Fmt.sdec (int_value Kd q v).
Proof.
  unfold int_piece. rewrite i_conv_text. unfold i_text, i_value, signed_numeral, sign_text, Fmt.sdec, Fmt.dec. cbn [is_signed i_kind i_qual i_arg base_of].
  pose proof (int_value_range Kd q v) as Hr. cbn [is_signed] in Hr. destruct (Z.ltb_spec (int_value Kd q v) 0); cbn [app].
  - by rewrite numeral_digits, Z.abs_neq by lia.
  - by rewrite numeral_digits, Z.abs_eq by lia.
Qed.

Lemma unsigned_text q v : piece_text (int_piece Ku q v) = Fmt.dec (int_value Ku q v).
Proof. unfold int_piece. rewrite i_conv_text. apply numeral_digits; [done|]. apply (int_value_range Ku). Qed.

Lemma hex_text q v : piece_text (int_piece Kx q v) = Fmt.hex (int_value Kx q v).
Proof. unfold int_piece. rewrite i_conv_text. apply numeral_digits; [done|]. apply (int_value_range Kx). Qed.

Lemma chars_app l : 0 ∉ l -> chars (l ++ [0]) = l.
Proof.
  induction l as [|c l IH]; intros Hl; [done|]. cbn [app chars]. apply not_elem_of_cons in Hl as [Hc Hl].
  destruct (Z.eqb_spec c 0); [done|]. by rewrite IH.
Qed.

Lemma name_text name : 0 ∉ name -> piece_text (name_piece name) = name.
Proof.
  intros Hn. change (piece_text (name_piece name)) with (field false false (-1) [] (chars (name ++ [0]))).
  rewrite chars_app by done. unfold field. by rewrite pad_none by (cbn [length]; lia).
Qed.

Lemma text_of_cons p ps : text_of (p :: ps) = piece_text p ++ text_of ps.
Proof. done. Qed.
Lemma text_of_app ps qs : text_of (ps ++ qs) = text_of ps ++ text_of qs.
Proof. unfold text_of. by rewrite fmap_app, concat_app. Qed.
Lemma text_of_lits x : text_of (lits x) = Fmt.str x.
Proof. unfold text_of, lits. generalize (Fmt.str x). intros l. induction l as [|c l IH]; [done|]. cbn in *. by rewrite IH. Qed.

Create Rewrite HintDb textdb.
#[export] Hint Rewrite text_of_cons text_of_app text_of_lits signed_text unsigned_text hex_text : textdb.

(** ** Short pieces *)

Definition short (p : piece) : Prop := piece_ok p /\ (length (piece_text p) <= 70)%nat.

Lemma short_lit c : c <> 0 -> c <> c_pct -> short (Lit c).
Proof. intros H1 H2. split; [done|cbn; lia]. Qed.

Lemma short_lits x : forallb (fun c => negb (c =? 0) && negb (c =? c_pct)) (Fmt.str x) = true -> Forall short (lits x).
Proof.
  unfold lits. rewrite forallb_forall. intros Hx. apply Forall_fmap, Forall_forall. intros c Hc. apply list_elem_of_In, Hx in Hc.
  apply andb_prop in Hc as [H1%negb_true_iff H2%negb_true_iff]. apply short_lit; by apply Z.eqb_neq.
Qed.

Lemma short_int k q v : int_value k q v <> - 2 ^ 63 -> short (int_piece k q v).
Proof.
  intros Hv. split; [by split_and!|]. unfold int_piece. rewrite i_conv_text. unfold i_text, signed_numeral, i_value. cbn [i_kind i_qual i_arg].
  pose proof (int_value_range k q v). destruct (is_signed k).
  - rewrite length_app. pose proof (length_numeral false (base_of k) (Z.abs (int_value k q v)) ltac:(lia)).
    assert (length (sign_text (int_value k q v) true false false) <= 1)%nat by (unfold sign_text; destruct (_ <? _); cbn; lia). lia.
  - pose proof (length_numeral (is_large k) (base_of k) (int_value k q v) ltac:(lia)). lia.
Qed.

Lemma short_name name : 0 ∉ name -> (length name <= 70)%nat -> short (name_piece name).
Proof.
  intros Hn Hl. split; [|by rewrite name_text]. split_and!; [done|done|]. cbn. split; [left; set_solver|]. rewrite length_app. cbn. lia.
Qed.

Lemma short_ok ps : Forall short ps -> Forall piece_ok ps /\ (length (text_of ps) <= 70 * length ps)%nat.
Proof.
  induction 1 as [|p ps [H1 H2] _ [IH1 IH2]]; [by cbn|]. split; [by constructor|]. rewrite text_of_cons, length_app. cbn [length]. lia.
Qed.

(** A line made of short pieces, printed and copied. *)
Lemma line_printed ps info off len text s : 0 < info -> info + Z.of_nat BSIZE <= 2 ^ 64 -> Forall short ps -> (length ps <= 1000)%nat ->
  text_of ps = text ->
  wp no_fault (n ← scnprintf info (Z.of_nat BSIZE) (fmt_of ps) (args_of ps); copy_line info off len n) (fun w _ => w = emit off len text) s.
Proof.
  intros Hi Hr Hs Hl <-. destruct (short_ok ps Hs) as [H1 H2]. wp_steps. eapply wp_mono; [apply first_line; [done..|lia]|].
  intros n s1 [-> Hh]. by eapply copied.
Qed.

Lemma wrap32 z : urange 32 z -> int_value Ku QNone z = z.
Proof. apply wrap_id. Qed.
Lemma wrap64 z : urange 64 z -> int_value Ku Ql z = z.
Proof. apply wrap_id. Qed.

(** The key, character by character. *)
Lemma print_key_holds info key : 0 < info -> info + Z.of_nat BSIZE <= 2 ^ 64 -> Forall (urange 8) key ->
  forall k text m s, (k <= length key)%nat -> holds info text m s ->
  wp no_fault (print_key info key (cut text) k) (fun n s' => n = cut (text ++ take k key) /\ holds info (text ++ take k key) m s') s.
Proof.
  intros Hi Hr Hk. induction Hk as [|c key Hc _ IH]; intros [|k] text m s Hl Hh; cbn [print_key take] in *.
  1-3: wp_steps; rewrite ?take_0, ?app_nil_r; cbn [length] in Hl; (lia || done).
  wp_steps. assert (Ht : text_of [Conv plain (Chr c)] = [c]).
  { cbn. unfold pad. cbn. by rewrite (wrap_id 8 c). }
  eapply wp_mono; [apply (more_line [Conv plain (Chr c)] info text m); [by repeat constructor|done|done|by rewrite Ht|done]|].
  rewrite Ht. intros n s1 [-> H1]. replace (text ++ c :: take k key) with ((text ++ [c]) ++ take k key) by by rewrite <- app_assoc.
  apply IH; [cbn [length] in Hl; lia|done].
Qed.

(** What the fields of the line of an entry, of a domain and of the totals are. *)
Definition entry_ok (e : mcd_hashT) : Prop :=
  urange 32 (mh_nr_pages e) /\ urange 32 (mh_ref e) /\ urange 32 (mh_hash e) /\ urange 32 (mh_key_size e) /\ urange 32 (mh_val_size e) /\
  mh_key_size e <= Z.of_nat (length (mh_key_val e)) /\ Forall (urange 8) (mh_key_val e).
Definition dom_ok (d : mcd_domain) : Prop :=
  urange 16 (md_domid d) /\ urange 32 (md_get_succ d) /\ urange 32 (md_get_fail d) /\ s64 (md_nr_used_bytes d) <> - 2 ^ 63.

Lemma swrap_not_min w z : 0 < w <= 32 -> swrap w z <> - 2 ^ 63.
Proof.
  intros Hw. pose proof (swrap_range w z ltac:(lia)). assert (2 ^ (w - 1) <= 2 ^ 31) by (apply Z.pow_le_mono_r; lia). lia.
Qed.

Lemma short_d v : short (int_piece Kd QNone v).
Proof. apply short_int, swrap_not_min. lia. Qed.
Lemma short_u k q v : is_signed k = false -> short (int_piece k q v).
Proof. intros Hk. apply short_int. pose proof (int_value_range k q v) as H. rewrite Hk in H. lia. Qed.

(** Goals about a list of pieces one after the other. *)
Ltac short_pieces :=
  repeat first
    [ apply Forall_app; split | apply Forall_cons; split | apply Forall_nil; exact I
    | apply short_d | by apply short_u | by apply short_lits | by apply short_lit | solve [auto] ].

Definition entry_pieces (now : Z) (e : mcd_hashT) : list piece :=
  lits "nr_pages:" ++ int_piece Ku QNone (mh_nr_pages e) :: lits ",ref:" ++ int_piece Ku QNone (mh_ref e) ::
  lits ",passed_time:" ++ int_piece Kx Ql (now - mh_put_time e) :: lits ",hash:" ++ int_piece Ku QNone (mh_hash e) ::
  lits ",key_size:" ++ int_piece Ku QNone (mh_key_size e) :: lits ",val_size:" ++ int_piece Ku QNone (mh_val_size e) :: lits ",key:".

Definition domain_pieces (d : mcd_domain) : list piece :=
  lits "dom:" ++ int_piece Kd QNone (md_domid d) :: lits ",weight:" ++ int_piece Kd QNone (md_weight d) ::
  lits ",ratio:" ++ int_piece Kd QNone (md_ratio d) :: lits ",bytes:" ++ int_piece Kd Ql (md_nr_used_bytes d) ::
  lits ",missrate:" ++ int_piece Kd QNone (MISSRATE d) :: lits "(" ++ int_piece Ku QNone (md_get_succ d) ::
  lits "/" ++ int_piece Ku QNone (md_get_fail d) :: lits ")" ++ [Lit 10].

Lemma domain_pieces_text d : dom_ok d -> text_of (domain_pieces d) = domain_text d.
Proof.
  intros (H1 & H2 & H3 & _). unfold domain_pieces, domain_text. autorewrite with textdb. rewrite !wrap32 by done.
  replace (Fmt.sdec (int_value Kd QNone (md_domid d))) with (Fmt.sdec (md_domid d)).
  2: { f_equal. symmetry. apply s32_small. unfold urange in H1. lia. }
  reflexivity.
Qed.

Lemma domain_printed d info off len s : 0 < info -> info + Z.of_nat BSIZE <= 2 ^ 64 -> dom_ok d ->
  wp no_fault (n ← scnprintf info (Z.of_nat BSIZE)
      (Fmt.str "dom:%d,weight:%d,ratio:%d,bytes:%ld,missrate:%d(%u/%u)" ++ [10])
      [VInt (md_domid d); VInt (md_weight d); VInt (md_ratio d); VLong (md_nr_used_bytes d); VInt (MISSRATE d); VInt (md_get_succ d); VInt (md_get_fail d)];
    copy_line info off len n) (fun w _ => w = mcdc_domain_header d off len) s.
Proof.
  intros Hi Hr Hd. apply (line_printed (domain_pieces d) info off len (domain_text d)); [done..| | |by apply domain_pieces_text].
  - destruct Hd as (_ & _ & _ & Hd). unfold domain_pieces. short_pieces. by apply short_int.
  - unfold domain_pieces, lits. repeat (rewrite length_app || rewrite length_fmap || cbn [length]). cbn. lia.
Qed.

Section Lines.
Context {B : Type} `{!Minf B}.
Implicit Types (gs : gstate B).

Definition stat_ok (free : Z) gs : Prop :=
  urange 64 (pri_nr_bytes (mcd_data gs)) /\ urange 64 (shr_nr_bytes (mcd_data gs)) /\ urange 64 (max_mem_bytes (cfg gs)) /\ urange 64 free.

Definition stat_pieces (free : Z) gs : list piece :=
  lits "shared_p:" ++ int_piece Kd QNone (get_num_shared_page (be gs)) :: lits ",tot_bytes_used:" ++ int_piece Ku Ql (TOT_USED_BYTES gs) ::
  lits "(" ++ int_piece Ku Ql (pri_nr_bytes (mcd_data gs)) :: lits ":" ++ int_piece Ku Ql (shr_nr_bytes (mcd_data gs)) ::
  lits "),tot_bytes_free(" ++ int_piece Ku Ql (max_mem_bytes (cfg gs) / 1000000) :: lits "M):" ++ int_piece Ku Ql free ::
  lits ",nr_keys:" ++ int_piece Ku QNone (TOT_USED_KEYS gs) :: [Lit 10].

Lemma stat_printed free gs info off len s : 0 < info -> info + Z.of_nat BSIZE <= 2 ^ 64 -> stat_ok free gs ->
  wp no_fault (n ← scnprintf info (Z.of_nat BSIZE)
      (Fmt.str "shared_p:%d,tot_bytes_used:%lu(%lu:%lu),tot_bytes_free(%luM):%lu,nr_keys:%u" ++ [10])
      [VInt (get_num_shared_page (be gs)); VLong (TOT_USED_BYTES gs); VLong (pri_nr_bytes (mcd_data gs)); VLong (shr_nr_bytes (mcd_data gs));
       VLong (max_mem_bytes (cfg gs) / 1000000); VLong free; VInt (TOT_USED_KEYS gs)];
    copy_line info off len n) (fun w _ => w = emit off len (stat_text free gs)) s.
Proof using.
  intros Hi Hr (H1 & H2 & H3 & H4). apply (line_printed (stat_pieces free gs) info off len (stat_text free gs)); [done..| | |].
  - unfold stat_pieces. short_pieces.
  - unfold stat_pieces, lits. repeat (rewrite length_app || rewrite length_fmap || cbn [length]). cbn. lia.
  - assert (urange 64 (max_mem_bytes (cfg gs) / 1000000)).
    { unfold urange in *. split; [apply Z.div_pos; lia|apply Z.div_lt_upper_bound; lia]. }
    unfold stat_pieces, stat_text. autorewrite with textdb. rewrite !wrap64, wrap32 by (done || apply u32_range || apply u64_range). reflexivity.
Qed.

Lemma mode_names r p : ((0 ∉ replace_name r) /\ (length (replace_name r) <= 70)%nat) /\ ((0 ∉ partition_name p) /\ (length (partition_name p) <= 70)%nat).
Proof using.
  unfold replace_name, partition_name. repeat case_match; split_and!; (apply (bool_decide_unpack (0 ∉ _)); by vm_compute) || (apply Nat.leb_le; by vm_compute).
Qed.

Definition header_pieces gs : list piece :=
  lits "Memcached Statistics (" ++ name_piece (replace_name (replacement_mode (cfg gs))) :: lits " | " ++
  name_piece (partition_name (partition_mode (cfg gs))) :: lits " | mcd " ++ name_piece (connected_name (ctl_enabled gs)) :: lits ") " ++ [Lit 10].

Lemma connected_ok b : (0 ∉ connected_name b) /\ (length (connected_name b) <= 70)%nat.
Proof using. destruct b; split; (apply (bool_decide_unpack (0 ∉ _)); by vm_compute) || (cbn; lia). Qed.

Lemma header_printed gs info off len s : 0 < info -> info + Z.of_nat BSIZE <= 2 ^ 64 ->
  wp no_fault (n ← scnprintf info (Z.of_nat BSIZE) (Fmt.str "Memcached Statistics (%s | %s | mcd %s) " ++ [10])
      ((fun name => VStr (Some (name ++ [0]))) <$>
        [replace_name (replacement_mode (cfg gs)); partition_name (partition_mode (cfg gs)); connected_name (ctl_enabled gs)]);
    copy_line info off len n) (fun w _ => w = emit off len (header_text gs)) s.
Proof using.
  intros Hi Hr. destruct (mode_names (replacement_mode (cfg gs)) (partition_mode (cfg gs))) as [[H1 H2] [H3 H4]].
  destruct (connected_ok (ctl_enabled gs)) as [H5 H6].
  apply (line_printed (header_pieces gs) info off len (header_text gs)); [done..| | |].
  - unfold header_pieces. short_pieces; by apply short_name.
  - unfold header_pieces, lits. repeat (rewrite length_app || rewrite length_fmap || cbn [length]). cbn. lia.
  - unfold header_pieces, header_text. autorewrite with textdb. rewrite !name_text by done. reflexivity.
Qed.
End Lines.

Lemma entry_printed now e info off len s : 0 < info -> info + Z.of_nat BSIZE <= 2 ^ 64 -> entry_ok e ->
  wp no_fault (n ← print_entry info now e; copy_line info off len n) (fun w _ => w = emit off len (entry_text now e)) s.
Proof.
  intros Hi Hr (H1 & H2 & H3 & H4 & H5 & Hl & Hk). unfold print_entry. wp_steps.
  assert (Hs : Forall short (entry_pieces now e)) by (unfold entry_pieces; short_pieces).
  assert (Hn : (length (entry_pieces now e) <= 1000)%nat).
  { unfold entry_pieces, lits. repeat (rewrite length_app || rewrite length_fmap || cbn [length]). cbn. lia. }
  destruct (short_ok _ Hs) as [Hok Hsz].
  eapply wp_mono; [apply (first_line (entry_pieces now e) info s); [done..|lia]|]. intros n s1 [-> Hh]. wp_steps.
  eapply wp_mono; [apply (print_key_holds info (mh_key_val e) Hi Hr Hk _ _ (p_mem s)); [lia|done]|]. intros n s2 [-> Hh2]. wp_steps.
  eapply wp_mono; [apply (more_line [Lit 10] info _ (p_mem s)); [by repeat constructor|done|done|done|done]|].
  intros r s3 [Hr3 Hh3]. wp_steps. rewrite Hr3.
  replace (entry_text now e) with ((text_of (entry_pieces now e) ++ take (Z.to_nat (mh_key_size e)) (mh_key_val e)) ++ text_of [Lit 10]); [by eapply copied|].
  unfold entry_pieces, entry_text. autorewrite with textdb. rewrite !wrap32 by done. rewrite <- !app_assoc. reflexivity.
Qed.

Lemma shared_printed info off len s : 0 < info -> info + Z.of_nat BSIZE <= 2 ^ 64 ->
  wp no_fault (n ← scnprintf info (Z.of_nat BSIZE) (Fmt.str "shared:,") []; copy_line info off len n) (fun w _ => w = mcdc_shared_header off len) s.
Proof. intros Hi Hr. apply (line_printed (lits "shared:,") info off len (Fmt.str "shared:,")); [done|done| | |done]; [by apply short_lits|cbn; lia]. Qed.

(** * The properties *)

Section Props.
Implicit Types (s : prt).



(** C20. The lines the statistics display of the cache writes are what the
    hypervisor's [scnprintf] makes of the formats of mcd.c: printing the format
    into a buffer of BSIZE bytes and copying it as the code does is the write
    of the model, for the title, the totals, a domain, the shared table, and
    an entry with its key printed character by character behind the line. *)
Theorem cache_lines_printed {B} `{!Minf B} (gs : gstate B) (d : mcd_domain) (e : mcd_hashT) free now info off len s :
  0 < info -> info + Z.of_nat BSIZE <= 2 ^ 64 -> stat_ok free gs -> dom_ok d -> entry_ok e ->
  let prints fmt args w := wp no_fault (n ← scnprintf info (Z.of_nat BSIZE) fmt args; copy_line info off len n) (fun w' _ => w' = w) s in
  prints (Fmt.str "Memcached Statistics (%s | %s | mcd %s) " ++ [10])
    ((fun name => VStr (Some (name ++ [0]))) <$>
      [replace_name (replacement_mode (cfg gs)); partition_name (partition_mode (cfg gs)); connected_name (ctl_enabled gs)])
    (emit off len (header_text gs)) /\
  prints (Fmt.str "shared_p:%d,tot_bytes_used:%lu(%lu:%lu),tot_bytes_free(%luM):%lu,nr_keys:%u" ++ [10])
    [VInt (get_num_shared_page (be gs)); VLong (TOT_USED_BYTES gs); VLong (pri_nr_bytes (mcd_data gs)); VLong (shr_nr_bytes (mcd_data gs));
     VLong (max_mem_bytes (cfg gs) / 1000000); VLong free; VInt (TOT_USED_KEYS gs)]
    (emit off len (stat_text free gs)) /\
  prints (Fmt.str "dom:%d,weight:%d,ratio:%d,bytes:%ld,missrate:%d(%u/%u)" ++ [10])
    [VInt (md_domid d); VInt (md_weight d); VInt (md_ratio d); VLong (md_nr_used_bytes d); VInt (MISSRATE d); VInt (md_get_succ d); VInt (md_get_fail d)]
    (mcdc_domain_header d off len) /\
  prints (Fmt.str "shared:,") [] (mcdc_shared_header off len) /\
  wp no_fault (n ← print_entry info now e; copy_line info off len n) (fun w _ => w = emit off len (entry_text now e)) s.
Proof using.
  intros Hi Hr H1 H2 H3 prints.
  split; [by apply header_printed|]. split; [by apply stat_printed|]. split; [by apply domain_printed|].
  split; [by apply shared_printed|by apply entry_printed].
Qed.


(** A buffer at address 0 has no bounds: the whole text is written from there,
    whatever the size, although a size of 0 asks only for the length. *)
Theorem null_buffer_unbounded ps size s : Forall piece_ok ps -> 0 <= size < 2 ^ 31 -> Z.of_nat (length (text_of ps)) < 2 ^ 64 ->
  wp no_fault (vsnprintf 0 size (fmt_of ps) (args_of ps)) (fun r s' =>
    forall x, p_mem s' x = stored 0 (text_of ps ++ [0]) (p_mem s) x) s.
Proof using.
  intros Hps Hs Ht. unfold vsnprintf. rewrite s32_small by lia. rewrite (wrap_id 32 size) by (unfold urange; lia).
  rewrite Z.eqb_refl. destruct (Z.ltb_spec size 0); [lia|]. cbn [orb negb].
  assert (Hfin : forall A (k : Z -> Z -> T A), (let '(fin, size) := if u64 (0 + size - 1) <? u64 (0 - 1) then (2 ^ 64 - 1, u64 (2 ^ 64 - 1 - 0 + 1)) else (u64 (0 + size - 1), size) in k fin size) =
    k (2 ^ 64 - 1) 0).
  { intros A k. change (u64 (0 - 1)) with (2 ^ 64 - 1). destruct (Z.eq_dec size 0) as [->|].
    - reflexivity.
    - rewrite wrap_id by (unfold urange; lia). destruct (Z.ltb_spec (0 + size - 1) (2 ^ 64 - 1)); [reflexivity|lia]. }
  rewrite Hfin. clear Hfin. wp_steps. eapply wp_mono.
  { apply (says_format no_fault (2 ^ 64 - 1) ps Hps (length (fmt_of ps)) 0 []); [done|cbn; by rewrite app_nil_r]. }
  intros _ s1 (_ & H1 & _ & H3). cbn in H1, H3. wp_steps. rewrite H1.
  destruct (Z.leb_spec (0 + Z.of_nat (length (text_of ps))) (2 ^ 64 - 1)); [|lia]. wp_steps. intros x. cbn.
  rewrite <- stored_snoc. unfold put_byte. rewrite H3. unfold upto. by rewrite take_ge by lia.
Qed.
End Props.

(** * Concrete calls *)

Import NoDaemon.

Definition blank : prt := mk_prt (fun _ => 170) 0 [] [].





Definition shown_dom : mcd_domain := mk_domain 1 0 1 1 104 1024 100 0 0 3 1 75 0 [].
Definition shown_entry : mcd_hashT := mk_hashT 0 1 0 1 104 2 1000 0 77 3 5 (key_abc ++ [104; 101; 108; 108; 111]).

Lemma cache_lines_printed_witness :
  wp no_fault (n ← print_entry 4096 5000 shown_entry; copy_line 4096 0 200 n) (fun w _ => w = emit 0 200 (entry_text 5000 shown_entry)) blank /\
  entry_text 5000 shown_entry = Fmt.str "nr_pages:1,ref:2,passed_time:fa0,hash:77,key_size:3,val_size:5,key:abc" ++ [10].
Proof.
  split; [|reflexivity].
  refine (proj2 (proj2 (proj2 (proj2 (cache_lines_printed demo_put shown_dom shown_entry 4096 5000 4096 0 200 blank _ _ _ _ _))))); [by apply Z.ltb_lt|by apply Z.leb_le| | |].
  - split_and!; unfold urange; cbn; lia.
  - split_and!; unfold urange; cbn; (lia || by vm_compute).
  - split_and!; unfold urange; cbn; try lia. repeat (apply Forall_cons; split; [lia|]). by apply Forall_nil.
Defined.


