(* ===== verification/Findings.v ===== *)
(** Where xen/common/mcd.c does not do what it means to: each theorem runs the
    code into the situation. *)
From S2P Require Import Prelude CMonad Hash Types State Core Evict Inv Remove Evicted EvictShared EvictPart Alloc Create Ops View OpsLib Flush Display Admin AdminSpec Lifecycle Hypercall Reach Demo.
Import NoDaemon.

Definition answer {S A} (o : outcome S A) : option A := match o with Ret a _ => Some a | _ => None end.

Section General.
Context {B : Type} `{!Minf B} (env : Env).
Implicit Types s : gstate B.

Lemma find_unknown_dom domid s : domid ∉ domids s -> find_mcd_dom domid s = Ret DomHead s.
Proof.
  intros H. unfold find_mcd_dom, mbind, M_bind, get, mret. cbn.
  destruct (dom_of (doms s) domid) as [d|] eqn:Hd; [|done].
  apply dom_of_Some in Hd as [Hd <-]. destruct H. set_solver.
Qed.

(** [find_mcd_dom] never returns NULL: setting the weight of a domain
    that the cache does not know dereferences an address computed from the
    list head. *)
Theorem unknown_weight_faults domid weight s : domid ∉ domids s ->
  set_weight domid weight s = Fault BadDomain.
Proof. intros H. unfold set_weight, mbind, M_bind. by rewrite find_unknown_dom. Qed.


(** The partitioned mode with the best-effort policy frees nothing, and says
    that it did: the memory limit is not enforced. *)
Lemma best_effort_keeps_all amount domid s : cache_mode (cfg s) <> MCD_CACHE_MODE_SHARED ->
  partition_mode (cfg s) = MCD_PARTITION_MODE_BE -> cache_free env amount domid s = Ret (- ERR_NO) s.
Proof.
  intros Hc Hp. unfold cache_free, partition_cache_free, mbind, M_bind, get. cbn.
  rewrite (proj2 (Z.eqb_neq _ _)) by done. by rewrite Hp.
Qed.

End General.

Lemma unknown_weight_faults_witness : set_weight 9 100 demo = Fault BadDomain.
Proof. apply (unknown_weight_faults 9 100 demo). cbn. set_solver. Defined.



(** A key that another domain looks up then takes the hypervisor down. *)
Lemma orphan_run_faults :
  run env0 no_ctl [put_hello; EvKill 1; EvCall 0 (XENMCD_cache_remove (Some op_hello))] demo = Fault BadDomain.
Proof. vm_compute; reflexivity. Qed.

Definition op_of (key val : list Z) : mcd_arg := mk_arg 0 (Z.of_nat (length key)) (Z.of_nat (length val)) key val.
Definition get_of (key : list Z) : mcd_arg := mk_arg 0 (Z.of_nat (length key)) 64 key [].

(** What domain 1 is given for [key] after the events. *)
Definition asks (evs : list (event Empty_set)) (key : list Z) (s : gstate unit) : option Z * option (list Z) :=
  let s1 := after (run env0 no_ctl evs) s in
  let o := do_mcd_op env0 no_ctl 1 (XENMCD_cache_get (Some (get_of key))) s1 in
  (fst <$> answer o, out_val (outcome_state o)).

(** The look-up compares hashes only: a key with the same hash as a stored
    one is given the other key's value. *)
Theorem colliding_keys_share_value :
  SFH.key_bocs <> SFH.key_krgc /\
  asks [EvCall 1 (XENMCD_cache_put (Some (op_of SFH.key_bocs [1; 2; 3])))] SFH.key_krgc demo
  = (Some RET_GET_MEM, Some [1; 2; 3]).
Proof. split; [discriminate|vm_compute; reflexivity]. Qed.

(** Checking a key that is not stored leaves an empty entry: the next
    get is a hit in memory with the empty value. *)
Theorem check_makes_a_hit :
  asks [] key_abc demo = (Some (- ERR_MCDFAULT), None) /\
  asks [EvCall 1 (XENMCD_cache_check (Some (get_of key_abc)))] key_abc demo = (Some RET_GET_MEM, Some []).
Proof. split; vm_compute; reflexivity. Qed.

(** A clock that moves by 300 milliseconds a tick. *)
Definition env_slow : Env := {|
  env_now := fun n => 300000000 * (1 + Z.of_nat n);
  env_xmalloc := env_xmalloc env0; env_avail_pages := env_avail_pages env0; env_garbage := env_garbage env0;
  env_fuel := env_fuel env0; sizeof_mcd_hashT := sizeof_mcd_hashT env0; sizeof_mcd_domain := sizeof_mcd_domain env0;
|}.

Definition demo_young : gstate unit := Eval vm_compute in after (run env_slow no_ctl [put_hello]) demo.

(** A get of an entry that is 600 to 999 milliseconds old counts in
    [reaccess_time], indexed with milliseconds though it has a cell for each
    of 600 seconds: the access is out of bounds. *)
Theorem young_get_out_of_bounds :
  (fun e => env_now env_slow (tick demo_young) - mh_put_time e) <$> heap demo_young !! 3 = Some 900000000 /\
  do_mcd_op env_slow no_ctl 1 (XENMCD_cache_get (Some (get_of key_abc))) demo_young = Fault OutOfBounds.
Proof. split; vm_compute; reflexivity. Qed.

(** The number of keys of a domain: two more for a put, one less for the
    remove. *)
Definition keys_of (domid : Z) (s : gstate unit) : option Z := md_nr_keys <$> dom_of (doms s) domid.

Lemma keys_counted_twice :
  keys_of 1 demo = Some 0 /\ keys_of 1 demo_put = Some 2 /\
  keys_of 1 (after (run env0 no_ctl [put_hello; EvCall 1 (XENMCD_cache_remove (Some op_hello))]) demo) = Some 1.
Proof. split_and!; vm_compute; reflexivity. Qed.

(** The size of a value raises the normaliser of the query times; that of the
    sizes stays at one. *)
Lemma value_size_normaliser :
  query_max (sd_mem (sd demo_put)) = 5 /\ val_max (sd_mem (sd demo_put)) = 1.
Proof. split; vm_compute; reflexivity. Qed.

(** The product in the hit rate overflows: with 42949672 hits and no miss the
    next hit makes the rate zero. *)
Definition demo_hits : gstate unit :=
  demo <| doms ::= alter_dom 1 (fun d => d <| md_get_succ := 42949672 |> <| md_get_fail := 0 |>) |>.

Lemma hitrate_overflows :
  (dom ← (count_access (Some 1) true;; dom_load (DomAt 1)); mret (md_hitrate dom)) demo_hits
  = Ret 0 (after (count_access (Some 1) true) demo_hits).
Proof. vm_compute; reflexivity. Qed.
